(* ===== verification/_CoqProject ===== *)
-Q . S2P
Prelude.v
CInt.v
NList.v
BitMap.v
MemManage.v
Machine.v
Mips.v
Registers.v
Interrupt.v
Disk.v
FileHdr.v
OpenFile.v
Directory.v
FileSys.v
Kernel.v
Threads.v
Steps.v
Synch.v
Monitor.v
Mailbox.v
SynchList.v
Whale.v
Table.v
ReadersWriters.v
ThreadTest.v
Network.v
Sockets.v
Post.v
UnixFile.v
VirtMem.v
Paging.v
FlatMemory.v
Exception.v
Trap.v
Stubs.v
Process.v
Syscall.v
Thrashing.v
SynchDisk.v
Console.v
Stacks.v
Coff2noff.v
Coff2flat.v
Execute.v
Disasm.v
Startup.v
Diagnostics.v
ToolMain.v
UserProgs.v
Switch.v
Switching.v
