(* ===== verification/Prelude.v ===== *)
(** * Nachos: the kernel and the machine it runs on

    This development models Nachos, the instructional operating system under src/code: a
    simulated MIPS machine with its devices (machine/), and the kernel that runs on it: threads and
    synchronisation (threads/), a file system (filesys/), user programs with demand paging
    (userprog/) and a network with a post office (network/); and the tools around it under code/bin: the
    converters of object files, a second MIPS interpreter and its disassembler.

    ** How a routine becomes a definition

    A C++ routine is a function from the state it works on to an [outcome]: [Ret] of the new state and
    the result; [AssertFails] when an ASSERT of the routine stops Nachos; [Undefined] for an access
    outside an array or through a NULL pointer; [OutOfFuel] when the bound on a [loop] was too small.
    Definitions have the names of the routines.  Integers are [Z] at the width of the 32-bit
    host the Makefile builds for, with the wrap-around written out ([CInt]): the clock and the times of
    interrupts, the values of semaphores, positions in files and registers alike.  Where a property needs that an int has not
    wrapped, a hypothesis says so ([Interrupt.tick_in_time], [OpenFile.sum_fits]), or the property says what is
    true after it.  What the code reads before it
    writes it (fresh arrays, [clock_hand], [exitStatus], structures on the stack) is a parameter or has no value.  All
    definitions can be evaluated; the witnesses and tests do so.

    ** The files, from the bottom

    - [Prelude]: outcomes, arrays, loops with a variant, reachability, C macros of utility.h.
      [CInt]: machine integers, bytes and words.
    - Data structures.  [NList]: threads/list.cc on a heap of cells.  [BitMap]: userprog/bitmap.cc, words
      and masks; the class [BitMapSpec].  [MemManage]: userprog/memmanage.cc over [BitMapSpec];
      the class [FrameAllocSpec].  [Table]: threads/table.cc.
    - The machine.  [Machine]: machine.cc, translate.cc: registers, memory, page tables and TLB.
      [Mips]: mipssim.cc, all instructions; [Registers]: lemmas on its register file.  [Interrupt]: interrupt.cc, timer.cc, stats.cc.
      [Disk]: disk.cc and the synchronous disk; the class [SectorDevice].  [Network]: network.cc.
      [Console]: console.cc and ConsoleTest (progtest.cc).
    - The file system.  [FileHdr], [OpenFile], [Directory], [FileSys]: filehdr.cc, openfile.cc, directory.cc,
      filesys.cc and fstest.cc, over [BitMapSpec] and [SectorDevice].
    - Threads.  [Kernel]: thread.cc, scheduler.cc, synch.cc: threads, ready list, semaphores, locks and
      condition variables as one state; the code of the threads is a parameter, and
      [schedule] runs it.  [Threads]: every thread is at the place its status names.  [Steps]: every step
      of the kernel as atomic changes, for proofs of invariants.  [Synch]: semaphores and
      locks under every schedule.  [Monitor]: the rule for data under a lock, with which [Mailbox],
      [SynchList], [Whale] (synch.cc, synchlist.cc) and [ReadersWriters] (threadtest.cc) are
      verified.  [ThreadTest]: the tests of threadtest.cc, run.
      [SynchDisk]: synchdisk.cc under any schedule of threads and interrupts.  [Switch]: switch.s for the i386, with
      StackAllocate and CheckOverflow of thread.cc: the step from thread to thread that [Kernel] takes as one;
      [Switching]: any number of threads on it.
    - The network.  [Sockets]: the sockets of sysdep.cc and their names, with the device on them, which implement the queues
      of packets of [Network].  [Post]: post.cc and nettest.cc on any number of machines.
    - User programs.  [UnixFile]: the FILESYS_STUB file system on UNIX files, with the wrappers of sysdep.cc.
      [VirtMem]: addrspace.cc and backingstore.cc over [FrameAllocSpec]; [Paging] and
      [FlatMemory]: what demand paging guarantees.  [Exception]: exception.cc, StartProcess, the user part of
      thread.cc and scheduler.cc, over the class [ThreadOps] of thread operations; [Trap] and [Process]:
      traps, system calls, the life of a process.  [ThreadOps] has Table::Alloc and Thread::Fork as operations that may let other
      threads run; the laws of [ThreadLaws] are about the state in which they are called, and [Process] has an instance on
      the array of [Table], which can be used up.
      [Stubs]: the assembler of test/start.cc on the processor of [Mips]; [Syscall]: a call of Exec from the stub to the
      caller, in pages that may not be in memory; [Thrashing]: a process with one frame.  [UserProgs]: the C programs of code/test.
    - [Startup]: the command line (main.cc, system.cc), the debug flags (utility.cc), the numbers of the thread tests.
      [Diagnostics]: what is printed about the state, DEBUG, and what Halt and Cleanup delete.
    - The tools of code/bin.  [Coff2noff]: coff2noff.c, which makes the executables that [VirtMem] loads.
      [Coff2flat]: coff2flat.c.  [Execute]: execute.c, system.c and the headers instr.h, encode.h and int.h, the other MIPS
      interpreter, related to [Mips].  [Disasm]: d.c, opstrings.c, disasm.c, out.c and the loader of main.c.
      [ToolMain]: the command line of the interpreter, with what it loads and runs; the program of out.c.
    - [Stacks]: the stacks and the list of src/c++example, over the class [StackSpec].

    ** What the theorems show

    - Refinement of an abstract machine: [FileSys.Create_refines], [Open_refines] and [Remove_refines] (a
      finite map from names to contents), [Directory.directory_is_map], [NList.sorted_list_is_priority_queue],
      [BitMap.bitmap_is_array], [SynchList.synchlist_is_queue], and for user programs
      [FlatMemory.demandpage_transparent], [Process.user_load_restarts] and
      [FlatMemory.user_memory_is_flat]: a flat memory whose pages nobody else changes; [Sockets.sockets_refine] (one queue
      of packets per machine and a table of who answers at an address).
    - Concurrency, for every schedule (and every interleaving of machines): [Synch.every_thread_in_its_place],
      [Synch.semaphore_value_is_count], [Synch.lock_mutual_exclusion], [Synch.no_lost_wakeup],
      [Mailbox.mailbox_delivers_in_order], [ReadersWriters.writers_exclude_readers],
      [Post.post_delivers_in_order], [Post.post_asserts_hold],
      [SynchDisk.synchdisk_serialises], [Console.console_echoes].  Below them, [Switch.thread_starts] (a forked thread calls
      its procedure), [Switch.switch_back] and [Switching.thread_undisturbed] (a thread does not notice what the others do
      while it is switched out).
    - The processor: [Mips.OneInstruction_safe] (no instruction leaves the well-formed states),
      [Mips.Decode_assemble], [Mips.Mult_correct], [Mips.add_sub_overflow],
      [Machine.store_protection].
    - The tools: [Coff2noff.coff2noff_loads] (the bytes of an object file arrive in the pages of the program that
      demand paging loads), [Coff2flat.coff2flat_image], [Execute.simulators_agree] (a simulation between the two
      processors, registers and memory, one instruction at a time, where [agrees] says that they should), [Disasm.disassembly_agrees],
      [Disasm.disasm_lists_text], [ToolMain.main_runs].
    - Time: [Interrupt.OneTick_fires_due] and [Interrupt.Idle_advances], while the clock is below 2^31 ([Interrupt.Schedule_wraps]
      has what happens then), [Disk.ComputeLatency_correct] at any time.
    - System calls: [Process.Exec_starts_program] (with room in the table of threads, without room, and without the file), [Process.program_ends], [Stubs.stub_call] and, with page faults on the way,
      [Syscall.system_call_returns].
    - User programs and start-up: [UserProgs.sort_sorts], [UserProgs.statuses] (what the test programs end with),
      [UserProgs.line_buffers] (up to which length of a line echo.c and shell.c stay in their buffers with the calls of syscall.h,
      and that the handler of the repository ends both at their first Write), [Startup.command_line] (up to the first
      call that does not come back).
    - Round trips and termination: [Disk.WriteSector_ReadSector], [FileSys.Copy_then_Print],
      [Table.Alloc_Get_Release], [FlatMemory.ClearPage_ends_iff], among others.
    - Flaws of the code, as theorems about it: [Process.syscall_repeats_next],
      [FlatMemory.same_size_programs_share_backing], [Thrashing.one_frame_thrashes], [Whale.Matchmaker_leaves_one_behind],
      [Mips.OR_and_SRL_as_coded], [Table.Alloc_faults], [OpenFile.ReadAt_overflow], [FileHdr.Allocate_no_size_check],
      [FileSys.PerformanceTest_cannot_write], [Directory.Add_leaves_tenth_byte]; and examples beside the
      definitions, such as [Execute.MULTU_loses_carries] and [Disasm.disassembly_defects].

    ** Bounds

    A loop of the source whose end is not evident has a [fuel]; its theorems give a bound that is enough:
    two rounds of the clock for [ClearPage] ([2 * length tab]), the pending interrupts for [CheckIfDue], the length of the file
    for [Copy] and [Print].  [ExceptionHandler] has a [depth] because its own
    [ReadMem] may call it: one level is enough, since page faults do not fault.  [Mips.Run] and [Kernel.schedule]
    are endless in the source; their bound counts instructions and steps.

    ** What is not modelled, and why

    - A thread loses the processor only at the end of a routine of the kernel that turns interrupts on again, or
      where it sleeps: that is where simulated time passes.  [Switch] has the registers and the stacks, but is not
      composed with [Kernel], whose threads are programs; the other processors of switch.s are not modelled.
    - The calls of UNIX behind sysdep.cc are represented by the files, sockets and the bytes they give;
      sockets deliver in order and never fill up, files can always be written.  Delays, signals and mprotect are left out.
    - The messages of DEBUG, ~Thread and other destructors that only free memory; [Startup] and [Diagnostics] name the objects
      that system.cc makes and deletes, the components have their constructors.
    - userprog/SynchConsole.cc does not compile and is in no Makefile; the stdarg headers are copies of the
      compiler's.
    - Of the tools: the layout of the structures that out.c, disasm.c and main.c read (filehdr.h to syms.h, which are not in
      the repository), and the histograms of execute.c, whose calls are commented out.
    - The compiler of the user programs: [UserProgs] has them as C programs, and the theorems about user programs
      hold for any program. *)

From stdpp Require Export prelude gmap list numbers list_numbers.
From Stdlib Require Export ZArith Lia.

Open Scope Z_scope.

(** ** Outcomes of running kernel code

    [ASSERT] (threads/utility.h) prints a message and calls [Abort]; an access
    outside an array or through a NULL pointer has no defined result in C++;
    [OutOfFuel] is the result of a loop whose iteration bound was too small. *)
Inductive outcome (A : Type) : Type :=
  | Ret (a : A)
  | AssertFails
  | Undefined
  | OutOfFuel.
Arguments Ret {A} a.
Arguments AssertFails {A}.
Arguments Undefined {A}.
Arguments OutOfFuel {A}.

#[export] Instance outcome_ret : MRet outcome := @Ret.
#[export] Instance outcome_bind : MBind outcome := λ A B f m,
  match m with
  | Ret a => f a
  | AssertFails => AssertFails
  | Undefined => Undefined
  | OutOfFuel => OutOfFuel
  end.
#[export] Instance outcome_fmap : FMap outcome := λ A B f m,
  match m with
  | Ret a => Ret (f a)
  | AssertFails => AssertFails
  | Undefined => Undefined
  | OutOfFuel => OutOfFuel
  end.

#[export] Instance outcome_eq_dec `{EqDecision A} : EqDecision (outcome A).
Proof. solve_decision. Defined.

Declare Scope outcome_scope.
Delimit Scope outcome_scope with outcome.
Open Scope outcome_scope.

(** [ASSERT(condition)]: continue only when the condition holds. *)
Definition ASSERT (b : bool) : outcome unit :=
  if b then Ret () else AssertFails.

Notation "'assert!' b ;; k" := (ASSERT b ≫= λ _, k)
  (at level 100, b at next level, k at level 200, right associativity) : outcome_scope.

(** A C++ access that is only defined when the condition holds. *)
Definition defined_if (b : bool) : outcome unit :=
  if b then Ret () else Undefined.

Lemma bind_Ret_inv {A B} (m : outcome A) (f : A → outcome B) b :
  m ≫= f = Ret b → ∃ a, m = Ret a ∧ f a = Ret b.
Proof. destruct m; simpl; try discriminate. eauto. Qed.

Lemma Ret_pair_inj {A B} (a a' : A) (b b' : B) :
  Ret (a, b) = Ret (a', b') → a = a' ∧ b = b'.
Proof. by intros [= -> ->]. Qed.

Lemma ASSERT_Ret b u : ASSERT b = Ret u → b = true.
Proof. by destruct b. Qed.

Lemma ASSERT_true b : b = true → ASSERT b = Ret ().
Proof. by intros ->. Qed.

Lemma defined_if_Ret b u : defined_if b = Ret u → b = true.
Proof. by destruct b. Qed.

(** Break every bind of a hypothesis that ended in [Ret]. *)
Ltac inv_ret :=
  repeat match goal with
  | H : ?m ≫= ?f = Ret _ |- _ =>
      let a := fresh "r" in let H1 := fresh "Hrun" in
      apply bind_Ret_inv in H; destruct H as (a & H1 & H)
  | H : ASSERT _ = Ret _ |- _ => apply ASSERT_Ret in H
  | H : defined_if _ = Ret _ |- _ => apply defined_if_Ret in H
  | H : Ret _ = Ret _ |- _ => injection H as H
  | H : AssertFails = Ret _ |- _ => discriminate H
  | H : Undefined = Ret _ |- _ => discriminate H
  | H : OutOfFuel = Ret _ |- _ => discriminate H
  end; simplify_eq.

(** ** Arrays

    A C++ array is a list; an index outside it is undefined behaviour. *)
Section arrays.
Context {A : Type}.
Implicit Types (l : list A) (i : Z) (x : A).

Definition in_range (i n : Z) : bool := (0 <=? i) && (i <? n).

Definition rd l i : outcome A :=
  if 0 <=? i then
    match l !! Z.to_nat i with Some x => Ret x | None => Undefined end
  else Undefined.

Definition wr l i x : outcome (list A) :=
  if in_range i (Z.of_nat (length l)) then Ret (<[Z.to_nat i := x]> l)
  else Undefined.

Lemma in_range_spec i n : in_range i n = true ↔ 0 ≤ i < n.
Proof. unfold in_range. rewrite andb_true_iff, Z.leb_le, Z.ltb_lt. lia. Qed.

Lemma rd_lookup l i x : 0 ≤ i → l !! Z.to_nat i = Some x → rd l i = Ret x.
Proof.
  intros Hi Hl. unfold rd. rewrite (proj2 (Z.leb_le 0 i) Hi), Hl. done.
Qed.

Lemma rd_Ret l i x :
  rd l i = Ret x ↔ 0 ≤ i < Z.of_nat (length l) ∧ l !! Z.to_nat i = Some x.
Proof.
  unfold rd. split.
  - destruct (Z.leb_spec 0 i); [|done].
    destruct (l !! Z.to_nat i) eqn:E; [|done]. intros [= ->].
    apply lookup_lt_Some in E as ?. split; [lia|done].
  - intros [Hi Hx]. destruct (Z.leb_spec 0 i); [|lia]. by rewrite Hx.
Qed.

Lemma rd_in_range l i :
  0 ≤ i < Z.of_nat (length l) → ∃ x, rd l i = Ret x.
Proof.
  intros Hi. destruct (lookup_lt_is_Some_2 l (Z.to_nat i)) as [x Hx]; [lia|].
  exists x. apply rd_Ret. split; [lia|done].
Qed.

Lemma wr_Ret l i x l' :
  wr l i x = Ret l' ↔
  0 ≤ i < Z.of_nat (length l) ∧ l' = <[Z.to_nat i := x]> l.
Proof.
  unfold wr. destruct (in_range _ _) eqn:E.
  - apply in_range_spec in E. split; [intros [= <-]; auto|intros [_ ->]; done].
  - split; [done|]. intros [Hi _]. apply in_range_spec in Hi. congruence.
Qed.

Lemma wr_ok l i x :
  0 ≤ i < Z.of_nat (length l) → wr l i x = Ret (<[Z.to_nat i := x]> l).
Proof. intros. apply wr_Ret. auto. Qed.

Lemma wr_length l i x l' : wr l i x = Ret l' → length l' = length l.
Proof. intros [_ ->]%wr_Ret. apply length_insert. Qed.

Lemma rd_wr_eq l i x l' : wr l i x = Ret l' → rd l' i = Ret x.
Proof.
  intros [Hi ->]%wr_Ret. apply rd_Ret. rewrite length_insert.
  split; [done|]. apply list_lookup_insert_eq. lia.
Qed.

Lemma rd_wr_ne l i j x l' : wr l i x = Ret l' → i ≠ j → rd l' j = rd l j.
Proof.
  intros [Hi ->]%wr_Ret Hne. unfold rd. destruct (Z.leb_spec 0 j); [|done].
  rewrite list_lookup_insert_ne by lia. done.
Qed.
End arrays.

(** ** Boolean tests on integers *)
Lemma eqb_of_nat_ne i j : i ≠ j → (Z.of_nat i =? Z.of_nat j) = false.
Proof. intros. apply Z.eqb_neq. lia. Qed.

Lemma leb_true a b : a ≤ b → (a <=? b) = true.
Proof. intros. by apply Z.leb_le. Qed.
Lemma leb_false a b : b < a → (a <=? b) = false.
Proof. intros. by apply Z.leb_gt. Qed.
Lemma ltb_true a b : a < b → (a <? b) = true.
Proof. apply Z.ltb_lt. Qed.

Lemma ltb_false a b : b ≤ a → (a <? b) = false.
Proof. apply Z.ltb_ge. Qed.

Lemma eqb_false a b : a ≠ b → (a =? b) = false.
Proof. apply Z.eqb_neq. Qed.

Lemma in_range_true i n : 0 ≤ i < n → in_range i n = true.
Proof. apply in_range_spec. Qed.

Lemma in_range_false i n : ¬ 0 ≤ i < n → in_range i n = false.
Proof. rewrite <- in_range_spec. by destruct (in_range i n). Qed.

(** ** Lists *)
Lemma filter_none {A} (P : A → Prop) `{∀ x, Decision (P x)} (l : list A) :
  (∀ x, x ∈ l → ¬ P x) → filter P l = [].
Proof.
  induction l as [|x l IH]; intros Hn; [done|].
  rewrite filter_cons_False by (apply Hn; constructor).
  apply IH. intros y Hy. apply Hn. by constructor.
Qed.

Lemma filter_all {A} (P : A → Prop) `{∀ x, Decision (P x)} (l : list A) :
  (∀ x, x ∈ l → P x) → filter P l = l.
Proof.
  induction l as [|x l IH]; intros Hn; [done|].
  rewrite filter_cons_True by (apply Hn; constructor).
  f_equal. apply IH. intros y Hy. apply Hn. by constructor.
Qed.

Lemma Permutation_insert_second {A} (l1 l2 : list A) x y :
  l1 ++ x :: y :: l2 ≡ₚ y :: l1 ++ x :: l2.
Proof.
  rewrite (cons_middle x l1 (y :: l2)), (cons_middle x l1 l2), !app_assoc.
  symmetry. apply Permutation_middle.
Qed.

(** [bcopy(bs, buf + off, length bs)] *)
Definition blit {A} (buf : list A) (off : nat) (bs : list A) : list A :=
  take off buf ++ bs ++ drop (off + length bs) buf.

Lemma blit_length {A} (buf : list A) off bs :
  (off + length bs ≤ length buf)%nat → length (blit buf off bs) = length buf.
Proof. intros H. unfold blit. rewrite !length_app, length_take, length_drop. lia. Qed.

Lemma lookup_blit {A} (buf : list A) off bs j :
  (off + length bs ≤ length buf)%nat →
  blit buf off bs !! j =
    if decide (off ≤ j < off + length bs)%nat then bs !! (j - off)%nat else buf !! j.
Proof.
  intros H. unfold blit. destruct (decide (j < off)%nat).
  - rewrite lookup_app_l by (rewrite length_take; lia). rewrite lookup_take_lt by lia.
    rewrite decide_False by lia. done.
  - rewrite lookup_app_r by (rewrite length_take; lia). rewrite length_take, Nat.min_l by lia.
    destruct (decide (j < off + length bs)%nat).
    + rewrite decide_True by lia. by rewrite lookup_app_l by lia.
    + rewrite decide_False by lia. rewrite lookup_app_r, lookup_drop by lia. f_equal. lia.
Qed.

(** Copying two neighbouring pieces is copying the whole. *)
Lemma blit_blit {A} (buf : list A) off bs1 bs2 :
  (off + length bs1 + length bs2 ≤ length buf)%nat →
  blit (blit buf off bs1) (off + length bs1) bs2 = blit buf off (bs1 ++ bs2).
Proof.
  intros H. apply list_eq. intros j.
  rewrite !lookup_blit by (rewrite ?blit_length, ?length_app; lia). rewrite length_app.
  destruct (decide (off + length bs1 ≤ j < off + length bs1 + length bs2)%nat).
  - rewrite decide_True by lia. rewrite lookup_app_r by lia. f_equal. lia.
  - destruct (decide (off ≤ j < off + length bs1)%nat).
    + rewrite decide_True by lia. by rewrite lookup_app_l by lia.
    + by rewrite decide_False by lia.
Qed.

Lemma blit_nil {A} (buf : list A) off : blit buf off [] = buf.
Proof. unfold blit. cbn. rewrite Nat.add_0_r. apply take_drop. Qed.

(** ** Loops with an iteration bound

    [loop fuel body s] runs [body] until it returns [inr]. *)
Section loops.
Context {S R : Type} (body : S → outcome (S + R)).

Fixpoint loop (fuel : nat) (s : S) : outcome R :=
  match fuel with
  | O => OutOfFuel
  | Datatypes.S fuel' =>
      r ← body s;
      match r with
      | inl s' => loop fuel' s'
      | inr x => Ret x
      end
  end.

Lemma loop_unfold fuel s :
  loop (Datatypes.S fuel) s =
  (r ← body s; match r with inl s' => loop fuel s' | inr x => Ret x end).
Proof. done. Qed.

Lemma loop_step fuel s s' :
  body s = Ret (inl s') → loop (Datatypes.S fuel) s = loop fuel s'.
Proof. intros H. simpl. by rewrite H. Qed.

Lemma loop_stop fuel s x :
  body s = Ret (inr x) → loop (Datatypes.S fuel) s = Ret x.
Proof. intros H. simpl. by rewrite H. Qed.

(** A loop whose variant decreases returns, whatever the (larger) bound. *)
Lemma loop_total (I : S → Prop) (Q : R → Prop) (variant : S → nat) fuel s :
  (∀ s, I s → ∃ r, body s = Ret r ∧
     match r with
     | inl s' => I s' ∧ (variant s' < variant s)%nat
     | inr x => Q x
     end) →
  I s → (variant s < fuel)%nat → ∃ x, loop fuel s = Ret x ∧ Q x.
Proof.
  intros Hbody. revert s. induction fuel as [|fuel IH]; intros s HI Hf; [lia|].
  destruct (Hbody s HI) as ([s'|x] & Hb & Hr); simpl; rewrite Hb; simpl.
  - apply IH; [tauto|lia].
  - eauto.
Qed.

Lemma loop_more_fuel fuel fuel' s x :
  loop fuel s = Ret x → (fuel ≤ fuel')%nat → loop fuel' s = Ret x.
Proof.
  revert fuel' s. induction fuel as [|fuel IH]; intros [|fuel'] s Hl Hle;
    try (simpl in *; done || lia).
  simpl in *. destruct (body s) as [[s'|y]| | |]; simpl in *; try done.
  apply IH; [done|lia].
Qed.
End loops.
Arguments loop : simpl never.

(** [for (i = lo; i < lo + n; i++)] with a body that neither breaks nor returns. *)
Section for_loops.
Context {S : Type} (f : Z → S → outcome S).

Fixpoint for_range (lo : Z) (n : nat) (s : S) : outcome S :=
  match n with
  | O => Ret s
  | Datatypes.S n' => s' ← f lo s; for_range (lo + 1) n' s'
  end.

(** A loop invariant indexed by the loop counter. *)
Lemma for_range_inv (I : Z → S → Prop) lo n s :
  (∀ i s, lo ≤ i < lo + Z.of_nat n → I i s → ∃ s', f i s = Ret s' ∧ I (i + 1) s') →
  I lo s → ∃ s', for_range lo n s = Ret s' ∧ I (lo + Z.of_nat n) s'.
Proof.
  revert lo s. induction n as [|n IH]; intros lo s Hf HI; cbn [for_range].
  - exists s. by rewrite Z.add_0_r.
  - destruct (Hf lo s ltac:(lia) HI) as (s1 & -> & HI1). csimpl.
    destruct (IH (lo + 1) s1) as (s' & -> & HI'); [|done|].
    + intros i s2 Hi. apply Hf. lia.
    + exists s'. split; [done|].
      by replace (lo + Z.of_nat (Datatypes.S n)) with (lo + 1 + Z.of_nat n) by lia.
Qed.

(** A loop that returns ran every one of its bodies to the end. *)
Lemma for_range_each lo n s s' :
  for_range lo n s = Ret s' → ∀ i, lo ≤ i < lo + Z.of_nat n → ∃ s1 s2, f i s1 = Ret s2.
Proof.
  revert lo s. induction n as [|n IH]; intros lo s Hr i Hi; [lia|]. cbn [for_range] in Hr.
  apply bind_Ret_inv in Hr as (s1 & Hs & Hr).
  destruct (decide (i = lo)) as [->|]; [by eauto|]. apply (IH _ _ Hr). lia.
Qed.

Lemma for_range_app lo n m s :
  for_range lo (n + m) s = (s' ← for_range lo n s; for_range (lo + Z.of_nat n) m s').
Proof.
  revert lo s. induction n as [|n IH]; intros lo s; cbn [for_range plus].
  - by rewrite Z.add_0_r.
  - destruct (f lo s) as [s'| | |]; cbn [mbind outcome_bind]; [|done..].
    rewrite IH. by replace (lo + 1 + Z.of_nat n) with (lo + Z.of_nat (Datatypes.S n)) by lia.
Qed.
End for_loops.

(** ** Reachability of a step relation *)
Section reach.
Context {S : Type} (init : S → Prop) (step : S → S → Prop).

Inductive reachable : S → Prop :=
  | reach_init s : init s → reachable s
  | reach_step s s' : reachable s → step s s' → reachable s'.

Lemma invariant_reachable (I : S → Prop) :
  (∀ s, init s → I s) → (∀ s s', reachable s → I s → step s s' → I s') →
  ∀ s, reachable s → I s.
Proof. intros Hi Hs s. induction 1; eauto. Qed.
End reach.

(** ** C macros of threads/utility.h *)
Definition divRoundDown (n s : Z) : Z := n `quot` s.
Definition divRoundUp (n s : Z) : Z :=
  n `quot` s + (if 0 <? n `rem` s then 1 else 0).

Lemma divRoundUp_bounds n s :
  0 ≤ n → 0 < s → n ≤ divRoundUp n s * s < n + s.
Proof.
  intros Hn Hs. unfold divRoundUp.
  pose proof (Z.quot_rem' n s). pose proof (Z.rem_bound_pos n s Hn Hs).
  destruct (Z.ltb_spec 0 (n `rem` s)); nia.
Qed.

Lemma divRoundUp_nonneg n s : 0 ≤ n → 0 < s → 0 ≤ divRoundUp n s.
Proof. intros. pose proof (divRoundUp_bounds n s). nia. Qed.

Create HintDb nachos discriminated.
Create Rewrite HintDb nachos.
#[export] Hint Resolve divRoundUp_nonneg : nachos.
#[export] Hint Rewrite @length_insert @length_app @length_take @length_drop
  @length_replicate @length_fmap : nachos.
