(* ===== verification/CInt.v ===== *)
(** * Machine integers

    The sources are compiled for a 32-bit two's complement host ([g++ -m32],
    code/Makefile.common): an [int] is a [Z] in [-2^31, 2^31), an [unsigned int] a [Z]
    in [0, 2^32), a byte of memory a [Z] in [0, 256).  Arithmetic that leaves
    the range is wrapped explicitly with [s32] or [u32].  This file also has the
    little-endian encoding of words, used for every structure the program
    copies to a disk sector, a file or the wire as raw bytes. *)

From S2P Require Import Prelude.

Open Scope Z_scope.

(** ** 32-bit words *)

(** Value of an expression converted to [unsigned int]. *)
Definition u32 (z : Z) : Z := z mod 2 ^ 32.

(** Value of an expression converted to [int]. *)
Definition s32 (z : Z) : Z := (z + 2 ^ 31) mod 2 ^ 32 - 2 ^ 31.

(** Value of a [char] (signed on the host) holding the byte [z]. *)
Definition s8 (z : Z) : Z := (z + 2 ^ 7) mod 2 ^ 8 - 2 ^ 7.

Definition is_u32 (z : Z) : Prop := 0 ≤ z < 2 ^ 32.
Definition is_s32 (z : Z) : Prop := - 2 ^ 31 ≤ z < 2 ^ 31.
Definition is_byte (z : Z) : Prop := 0 ≤ z < 256.

Lemma u32_range z : is_u32 (u32 z).
Proof. unfold is_u32, u32. apply Z.mod_pos_bound. lia. Qed.

Lemma s32_range z : is_s32 (s32 z).
Proof. unfold is_s32, s32. pose proof (Z.mod_pos_bound (z + 2^31) (2^32)). lia. Qed.

Lemma s8_range z : - 128 ≤ s8 z < 128.
Proof. unfold s8. pose proof (Z.mod_pos_bound (z + 2^7) (2^8)). lia. Qed.

Lemma u32_small z : is_u32 z → u32 z = z.
Proof. unfold is_u32, u32. apply Z.mod_small. Qed.

Lemma s32_small z : is_s32 z → s32 z = z.
Proof. unfold is_s32, s32. intros. rewrite Z.mod_small; lia. Qed.

Lemma s32_succ z : s32 (s32 z + 1) = s32 (z + 1).
Proof. unfold s32. replace (_ - _ + 1 + _) with ((z + 2 ^ 31) mod 2 ^ 32 + 1) by lia.
  rewrite Zplus_mod_idemp_l. f_equal. f_equal. lia. Qed.
Lemma s32_pred z : s32 (s32 z - 1) = s32 (z - 1).
Proof. unfold s32. replace (_ - _ - 1 + _) with ((z + 2 ^ 31) mod 2 ^ 32 - 1) by lia.
  rewrite Zminus_mod_idemp_l. f_equal. f_equal. lia. Qed.

Lemma s32_overflow z : 2 ^ 31 ≤ z < 2 ^ 32 → s32 z = z - 2 ^ 32.
Proof.
  intros Hz. unfold s32. rewrite <- (Z.mod_unique (z + 2 ^ 31) (2 ^ 32) 1 (z - 2 ^ 31)); lia.
Qed.

Lemma s32_cases z :
  s32 z = if u32 z <? 2 ^ 31 then u32 z else u32 z - 2 ^ 32.
Proof.
  unfold s32, u32. pose proof (Z.div_mod z (2^32) ltac:(lia)) as H.
  pose proof (Z.mod_pos_bound z (2^32) ltac:(lia)) as Hb.
  set (q := z / 2^32) in *. set (r := z mod 2^32) in *.
  destruct (Z.ltb_spec r (2^31)).
  - rewrite <- (Z.mod_unique (z + 2^31) (2^32) q (r + 2^31)); lia.
  - rewrite <- (Z.mod_unique (z + 2^31) (2^32) (q + 1) (r + 2^31 - 2^32)); lia.
Qed.

Lemma u32_s32 z : u32 (s32 z) = u32 z.
Proof.
  rewrite s32_cases. pose proof (u32_range z) as H. unfold is_u32 in H.
  destruct (_ <? _); [by apply u32_small|].
  unfold u32. replace (z mod 2^32 - 2^32) with (z mod 2^32 + (-1) * 2^32) by lia.
  rewrite Z.mod_add by lia. apply Z.mod_mod. lia.
Qed.

Lemma s32_u32 z : s32 (u32 z) = s32 z.
Proof.
  rewrite !s32_cases. unfold u32. rewrite Z.mod_mod by lia. done.
Qed.

(** Two expressions are the same machine word. *)
Lemma s32_eq_iff a b : s32 a = s32 b ↔ u32 a = u32 b.
Proof.
  split; intros H.
  - by rewrite <- (u32_s32 a), H, u32_s32.
  - by rewrite <- (s32_u32 a), H, s32_u32.
Qed.

Lemma u32_idem z : u32 (u32 z) = u32 z.
Proof. apply u32_small, u32_range. Qed.

Lemma s32_idem z : s32 (s32 z) = s32 z.
Proof. apply s32_small, s32_range. Qed.

Lemma u32_add_r a b : u32 (a + u32 b) = u32 (a + b).
Proof. unfold u32. apply Z.add_mod_idemp_r. lia. Qed.

Lemma u32_add_l a b : u32 (u32 a + b) = u32 (a + b).
Proof. unfold u32. apply Z.add_mod_idemp_l. lia. Qed.

Lemma u32_mul_r a b : u32 (a * u32 b) = u32 (a * b).
Proof. unfold u32. apply Z.mul_mod_idemp_r. lia. Qed.

Lemma u32_s32_eq z : is_s32 z → u32 z = if z <? 0 then z + 2 ^ 32 else z.
Proof.
  unfold is_s32, u32. intros Hz. destruct (Z.ltb_spec z 0).
  - symmetry. apply (Z.mod_unique z (2^32) (-1)); lia.
  - apply Z.mod_small. lia.
Qed.

(** *** Bitwise operations stay inside a signed word *)

Lemma is_s32_shiftr z : is_s32 z ↔ Z.shiftr z 31 = 0 ∨ Z.shiftr z 31 = -1.
Proof.
  unfold is_s32. rewrite Z.shiftr_div_pow2 by lia.
  pose proof (Z.div_mod z (2^31) ltac:(lia)).
  pose proof (Z.mod_pos_bound z (2^31) ltac:(lia)). lia.
Qed.

Lemma is_s32_land a b : is_s32 a → is_s32 b → is_s32 (Z.land a b).
Proof.
  rewrite !is_s32_shiftr, Z.shiftr_land.
  intros [-> | ->] [-> | ->]; auto.
Qed.

Lemma is_s32_lor a b : is_s32 a → is_s32 b → is_s32 (Z.lor a b).
Proof.
  rewrite !is_s32_shiftr, Z.shiftr_lor. intros [-> | ->] [-> | ->]; auto.
Qed.

Lemma is_s32_lxor a b : is_s32 a → is_s32 b → is_s32 (Z.lxor a b).
Proof.
  rewrite !is_s32_shiftr, Z.shiftr_lxor. intros [-> | ->] [-> | ->]; auto.
Qed.

Lemma is_s32_lnot a : is_s32 a → is_s32 (Z.lnot a).
Proof. unfold is_s32, Z.lnot. lia. Qed.

Lemma is_s32_shiftr_l a n : 0 ≤ n → is_s32 a → is_s32 (Z.shiftr a n).
Proof.
  unfold is_s32. intros Hn Ha. rewrite Z.shiftr_div_pow2 by done.
  assert (0 < 2 ^ n) by (apply Z.pow_pos_nonneg; lia).
  split.
  - apply Z.div_le_lower_bound; [done|]. nia.
  - apply Z.div_lt_upper_bound; [done|]. nia.
Qed.

#[export] Hint Resolve u32_range s32_range is_s32_land is_s32_lor is_s32_lxor
  is_s32_lnot : nachos.

(** The sign-bit test [x & SIGN_BIT] of the machine simulation. *)
Lemma testbit31_s32 z : is_s32 z → Z.testbit z 31 = (z <? 0).
Proof.
  intros Hz. rewrite Z.testbit_odd.
  destruct (proj1 (is_s32_shiftr z) Hz) as [E | E]; rewrite E; simpl;
    rewrite Z.shiftr_div_pow2 in E by lia; unfold is_s32 in Hz;
    pose proof (Z.div_mod z (2^31) ltac:(lia));
    pose proof (Z.mod_pos_bound z (2^31) ltac:(lia)); symmetry.
  - apply Z.ltb_ge. lia.
  - apply Z.ltb_lt. lia.
Qed.

Lemma land_pow2_zero z n :
  0 ≤ n → (Z.land z (2 ^ n) =? 0) = negb (Z.testbit z n).
Proof.
  intros Hn. destruct (Z.testbit z n) eqn:E.
  - apply Z.eqb_neq. intros H.
    apply (f_equal (λ x, Z.testbit x n)) in H.
    rewrite Z.land_spec, E, Z.pow2_bits_true, Z.bits_0 in H by done. done.
  - apply Z.eqb_eq. apply Z.bits_inj'. intros i Hi.
    rewrite Z.land_spec, Z.bits_0.
    destruct (decide (i = n)) as [-> | Hne]; [by rewrite E|].
    rewrite Z.pow2_bits_false by done. apply andb_false_r.
Qed.

Lemma testbit_u32 z i : 0 ≤ i → Z.testbit (u32 z) i = (i <? 32) && Z.testbit z i.
Proof.
  intros Hi. unfold u32. rewrite <- Z.land_ones by lia.
  rewrite Z.land_spec, Z.testbit_ones_nonneg by lia. apply andb_comm.
Qed.

Lemma is_u32_lor a b : is_u32 a → is_u32 b → is_u32 (Z.lor a b).
Proof.
  intros Ha Hb. rewrite <- (u32_small a), <- (u32_small b) by done.
  unfold u32. rewrite <- !Z.land_ones by lia. rewrite <- Z.land_lor_distr_l.
  rewrite Z.land_ones by lia. apply u32_range.
Qed.

Lemma is_u32_land a b : is_u32 a → is_u32 (Z.land a b).
Proof.
  intros Ha. rewrite <- (u32_small a) by done.
  unfold u32. rewrite <- Z.land_ones by lia.
  rewrite <- Z.land_assoc, (Z.land_comm (Z.ones 32)), Z.land_assoc.
  rewrite Z.land_ones by lia. apply u32_range.
Qed.

Lemma is_u32_land_r a b : is_u32 b → is_u32 (Z.land a b).
Proof. rewrite Z.land_comm. apply is_u32_land. Qed.

Lemma is_u32_shiftr a n : 0 ≤ n → is_u32 a → is_u32 (Z.shiftr a n).
Proof.
  unfold is_u32. intros Hn Ha. rewrite Z.shiftr_div_pow2 by done.
  assert (0 < 2 ^ n) by (apply Z.pow_pos_nonneg; lia).
  split; [apply Z.div_pos; lia|]. apply Z.div_lt_upper_bound; [done|]. nia.
Qed.

#[export] Hint Resolve is_u32_lor is_u32_land is_u32_land_r : nachos.

(** ** Bytes and little-endian words *)

Fixpoint le_bytes (n : nat) (z : Z) : list Z :=
  match n with
  | O => []
  | S n' => z mod 256 :: le_bytes n' (z / 256)
  end.

Fixpoint le_value (bs : list Z) : Z :=
  match bs with
  | [] => 0
  | b :: bs' => b + 256 * le_value bs'
  end.

Lemma le_bytes_length n z : length (le_bytes n z) = n.
Proof. revert z. induction n; intros; simpl; auto. Qed.

Lemma le_bytes_are_bytes n z : Forall is_byte (le_bytes n z).
Proof.
  revert z. induction n; intros z; simpl; constructor; auto.
  unfold is_byte. apply Z.mod_pos_bound. lia.
Qed.

Lemma le_value_bytes n z : le_value (le_bytes n z) = z mod 2 ^ (8 * Z.of_nat n).
Proof.
  revert z. induction n as [|n IH]; intros z; cbn [le_bytes le_value].
  - change (8 * Z.of_nat 0) with 0. rewrite Z.mod_1_r. done.
  - rewrite IH. replace (8 * Z.of_nat (S n)) with (8 + 8 * Z.of_nat n) by lia.
    rewrite Z.pow_add_r by lia. change (2 ^ 8) with 256.
    rewrite Z.rem_mul_r; [done|lia|].
    assert (0 < 2 ^ (8 * Z.of_nat n)) by (apply Z.pow_pos_nonneg; lia). lia.
Qed.

Lemma le_bytes_value bs :
  Forall is_byte bs → le_bytes (length bs) (le_value bs) = bs.
Proof.
  induction 1 as [|b bs Hb Hbs IH]; simpl; [done|].
  unfold is_byte in Hb. f_equal.
  - rewrite (Z.mul_comm 256), Z.mod_add by lia. apply Z.mod_small. lia.
  - rewrite (Z.mul_comm 256), Z.div_add by lia.
    rewrite (Z.div_small b 256) by lia. done.
Qed.

Lemma le_bytes_value_len n bs :
  Forall is_byte bs → length bs = n → le_bytes n (le_value bs) = bs.
Proof. intros H <-. by apply le_bytes_value. Qed.

Lemma le_value_bound bs :
  Forall is_byte bs → 0 ≤ le_value bs < 2 ^ (8 * Z.of_nat (length bs)).
Proof.
  intros H. rewrite <- (le_bytes_value bs H) at 1 2. rewrite le_value_bytes.
  apply Z.mod_pos_bound. apply Z.pow_pos_nonneg; lia.
Qed.

(** The bits of a little-endian number are the bits of its bytes. *)
Lemma testbit_le_value bs q r :
  Forall is_byte bs → 0 ≤ r < 8 →
  Z.testbit (le_value bs) (8 * Z.of_nat q + r) = Z.testbit (default 0 (bs !! q)) r.
Proof.
  intros Hb Hr. revert q. induction Hb as [|b bs Hb Hbs IH]; intros q; cbn [le_value].
  - rewrite lookup_nil. cbn [default]. by rewrite !Z.testbit_0_l.
  - unfold is_byte in Hb.
    assert (b = (b + 256 * le_value bs) mod 2 ^ 8) as Elo.
    { rewrite (Z.mul_comm 256), Z.mod_add by lia. symmetry. apply Z.mod_small. lia. }
    assert (le_value bs = (b + 256 * le_value bs) / 2 ^ 8) as Ehi.
    { rewrite (Z.mul_comm 256), Z.div_add by lia. rewrite (Z.div_small b) by lia. done. }
    destruct q as [|q]; csimpl.
    + rewrite Elo at 2. rewrite Z.mod_pow2_bits_low by lia. f_equal; lia.
    + rewrite <- IH. rewrite Ehi at 2. rewrite Z.div_pow2_bits by lia. f_equal; lia.
Qed.

(** The mask [0xff << k]. *)
Lemma testbit_mask8 k i :
  0 ≤ k → 0 ≤ i → Z.testbit (Z.shiftl 255 k) i = (k <=? i) && (i <? k + 8).
Proof.
  intros Hk Hi. rewrite Z.shiftl_spec by done. change 255 with (Z.ones 8).
  destruct (Z.leb_spec k i); simpl.
  - rewrite Z.testbit_ones_nonneg by lia.
    destruct (Z.ltb_spec (i - k) 8), (Z.ltb_spec i (k + 8)); lia.
  - by rewrite Z.testbit_neg_r by lia.
Qed.

(** Equality of 32-bit words, one bit of one byte at a time. *)
Lemma u32_bytes_ext x y :
  is_u32 x → is_u32 y →
  (∀ q r, (q < 4)%nat → 0 ≤ r < 8 →
     Z.testbit x (8 * Z.of_nat q + r) = Z.testbit y (8 * Z.of_nat q + r)) → x = y.
Proof.
  intros Hx Hy Hbits. apply Z.bits_inj'. intros i Hi.
  destruct (Z.lt_ge_cases i 32).
  - specialize (Hbits (Z.to_nat (i / 8)) (i mod 8)).
    pose proof (Z.div_mod i 8 ltac:(lia)). pose proof (Z.mod_pos_bound i 8 ltac:(lia)).
    replace (8 * Z.of_nat (Z.to_nat (i / 8)) + i mod 8) with i in Hbits by lia.
    apply Hbits; lia.
  - rewrite <- (u32_small x), <- (u32_small y), !testbit_u32 by done.
    by rewrite ltb_false.
Qed.

(** A 32-bit value stored in memory as four bytes. *)
Definition word_bytes (z : Z) : list Z := le_bytes 4 z.
(** Four bytes of memory read as an [unsigned int] or as an [int]. *)
Definition bytes_u32 (bs : list Z) : Z := le_value bs.
Definition bytes_s32 (bs : list Z) : Z := s32 (le_value bs).

Lemma word_bytes_length z : length (word_bytes z) = 4%nat.
Proof. apply le_bytes_length. Qed.

Lemma bytes_u32_word z : bytes_u32 (word_bytes z) = u32 z.
Proof. unfold bytes_u32, word_bytes. rewrite le_value_bytes. done. Qed.

Lemma bytes_s32_word z : is_s32 z → bytes_s32 (word_bytes z) = z.
Proof.
  intros Hz. unfold bytes_s32, word_bytes. rewrite le_value_bytes.
  change (2 ^ (8 * Z.of_nat 4)) with (2 ^ 32). fold (u32 z).
  rewrite s32_u32. by apply s32_small.
Qed.

(** Several words laid out one after the other, as in a C structure of [int]s. *)
Definition words_bytes (zs : list Z) : list Z := zs ≫= word_bytes.

Fixpoint bytes_words (n : nat) (bs : list Z) : list Z :=
  match n with
  | O => []
  | S n' => bytes_u32 (take 4 bs) :: bytes_words n' (drop 4 bs)
  end.

(** The same bytes read as an array of [int]. *)
Definition bytes_ints (n : nat) (bs : list Z) : list Z := s32 <$> bytes_words n bs.

Lemma words_bytes_cons z zs : words_bytes (z :: zs) = word_bytes z ++ words_bytes zs.
Proof. done. Qed.

Lemma words_bytes_length zs : length (words_bytes zs) = (4 * length zs)%nat.
Proof.
  induction zs as [|z zs IH]; [done|].
  rewrite words_bytes_cons, length_app, IH, word_bytes_length. simpl. lia.
Qed.

Lemma bytes_words_length n bs : length (bytes_words n bs) = n.
Proof. revert bs. induction n; intros; simpl; auto. Qed.

Lemma words_bytes_are_bytes zs : Forall is_byte (words_bytes zs).
Proof.
  induction zs; [constructor|]. rewrite words_bytes_cons. apply Forall_app.
  split; [apply le_bytes_are_bytes|done].
Qed.

(** Reading back an array gives the words written. *)
Lemma bytes_words_roundtrip zs rest :
  bytes_words (length zs) (words_bytes zs ++ rest) = u32 <$> zs.
Proof.
  induction zs as [|z zs IH]; [done|]. cbn [length bytes_words].
  rewrite words_bytes_cons, <- app_assoc.
  rewrite take_app_length' by (by rewrite word_bytes_length).
  rewrite drop_app_length' by (by rewrite word_bytes_length).
  by rewrite bytes_u32_word, IH.
Qed.

Lemma bytes_words_u32 zs rest :
  Forall is_u32 zs → bytes_words (length zs) (words_bytes zs ++ rest) = zs.
Proof.
  intros H. rewrite bytes_words_roundtrip. induction H; csimpl; [done|].
  rewrite u32_small by done. by f_equal.
Qed.

Lemma bytes_ints_s32 zs rest :
  Forall is_s32 zs → bytes_ints (length zs) (words_bytes zs ++ rest) = zs.
Proof.
  intros H. unfold bytes_ints. rewrite bytes_words_roundtrip.
  induction H; csimpl; [done|]. rewrite s32_u32, s32_small by done. by f_equal.
Qed.

Lemma bytes_words_are_u32 n bs :
  Forall is_byte bs → (4 * n ≤ length bs)%nat → Forall is_u32 (bytes_words n bs).
Proof.
  revert bs. induction n as [|n IH]; intros bs Hb Hl; cbn [bytes_words]; constructor.
  - assert (Forall is_byte (take 4 bs)) as Ht by by apply Forall_take.
    pose proof (le_value_bound _ Ht) as Hv. rewrite length_take in Hv.
    replace (Nat.min 4 (length bs)) with 4%nat in Hv by lia. exact Hv.
  - apply IH; [by apply Forall_drop|]. rewrite length_drop. lia.
Qed.

#[export] Hint Rewrite le_bytes_length word_bytes_length words_bytes_length
  bytes_words_length : nachos.
