(* ===== verification/NList.v ===== *)
(** * threads/list.h, threads/list.cc: singly linked keyed lists

    The first half is what every client of [List] relies on: the list as a
    Rocq list of (key, item) pairs with the four operations [k_append],
    [k_prepend], [k_insert] and [k_remove], and the laws of the sorted
    insertion (sorted order, first in first out among equal keys).

    Module [NList] is the code as written: [ListElement] cells in a heap
    linked through [next], a [List] with [first] and [last] pointers.  Its
    theorems say that each routine, started on a heap that represents a
    keyed list, returns, represents the list the abstract operation gives,
    and leaves every other cell of the heap alone. *)

From S2P Require Import Prelude.
From stdpp Require Import sorting.

Open Scope Z_scope.

(** ** Keyed lists *)
Section klist.
Context {A : Type}.
Implicit Types (l : list (Z * A)) (k : Z) (x : A).

Definition k_append x l : list (Z * A) := l ++ [(0, x)].
Definition k_prepend x l : list (Z * A) := (0, x) :: l.

(** Put [x] before the first element whose key is larger. *)
Fixpoint k_insert k x l : list (Z * A) :=
  match l with
  | [] => [(k, x)]
  | (k', x') :: l' =>
      if k <? k' then (k, x) :: (k', x') :: l' else (k', x') :: k_insert k x l'
  end.

Definition k_remove l : option ((Z * A) * list (Z * A)) :=
  match l with [] => None | e :: l' => Some (e, l') end.

Definition k_sorted l : Prop := StronglySorted Z.le (l.*1).

Lemma k_insert_perm k x l : k_insert k x l ≡ₚ (k, x) :: l.
Proof.
  induction l as [|[k' x'] l IH]; simpl; [done|].
  destruct (k <? k'); [done|]. rewrite IH. apply Permutation_swap.
Qed.

Lemma k_insert_length k x l : length (k_insert k x l) = S (length l).
Proof. rewrite k_insert_perm. done. Qed.

Lemma k_insert_elem k x l e : e ∈ k_insert k x l ↔ e = (k, x) ∨ e ∈ l.
Proof. rewrite k_insert_perm. apply elem_of_cons. Qed.

Lemma k_insert_items k x l y : y ∈ (k_insert k x l).*2 ↔ y = x ∨ y ∈ l.*2.
Proof. rewrite k_insert_perm. csimpl. apply elem_of_cons. Qed.

Lemma k_insert_items_nodup k x l : x ∉ l.*2 → NoDup (l.*2) → NoDup ((k_insert k x l).*2).
Proof. intros. rewrite k_insert_perm. csimpl. by constructor. Qed.

Lemma k_insert_not_nil k x l : k_insert k x l ≠ [].
Proof. intros H. pose proof (k_insert_length k x l). rewrite H in *. done. Qed.

Lemma k_insert_Forall_keys (P : Z → Prop) k x l :
  P k → Forall P (l.*1) → Forall P ((k_insert k x l).*1).
Proof. intros Hk Hl. rewrite k_insert_perm. simpl. by constructor. Qed.

Lemma k_insert_sorted k x l : k_sorted l → k_sorted (k_insert k x l).
Proof.
  unfold k_sorted. induction l as [|[k' x'] l IH]; simpl; intros Hs.
  { repeat constructor. }
  inversion_clear Hs as [|? ? Hs' Hall].
  destruct (Z.ltb_spec k k'); simpl.
  - constructor; [by constructor|]. constructor; [lia|].
    eapply Forall_impl; [exact Hall|]. simpl. lia.
  - constructor; [by apply IH|]. apply k_insert_Forall_keys; [lia|done].
Qed.

(** Elements not larger than [k] stay in front. *)
Lemma k_insert_app_le k x l1 l2 :
  Forall (λ k', k' ≤ k) (l1.*1) → k_insert k x (l1 ++ l2) = l1 ++ k_insert k x l2.
Proof.
  induction l1 as [|[k' x'] l1 IH]; simpl; [done|]. intros Hall.
  inversion_clear Hall. destruct (Z.ltb_spec k k'); [lia|]. by rewrite IH.
Qed.

Lemma k_insert_gt k x k' x' l :
  k < k' → k_insert k x ((k', x') :: l) = (k, x) :: (k', x') :: l.
Proof. intros. simpl. destruct (Z.ltb_spec k k'); [done|lia]. Qed.

(** The items that carry one key, in list order. *)
Definition with_key k l : list A := (filter (λ e, e.1 = k) l).*2.

(** First in, first out among items of equal key. *)
Lemma k_insert_fifo k x l k' :
  k_sorted l →
  with_key k' (k_insert k x l) =
  with_key k' l ++ (if decide (k' = k) then [x] else []).
Proof.
  unfold with_key, k_sorted. induction l as [|[j y] l IH]; simpl; intros Hs.
  { rewrite filter_cons. simpl. destruct (decide (k = k')), (decide (k' = k));
      simpl; subst; done. }
  inversion_clear Hs as [|? ? Hs' Hall].
  destruct (Z.ltb_spec k j).
  - assert (filter (λ e : Z * A, e.1 = k) ((j, y) :: l) = []) as Hnone.
    { apply filter_none. intros e He. simpl.
      apply elem_of_cons in He as [-> | He]; simpl; [lia|].
      rewrite Forall_forall in Hall.
      specialize (Hall e.1 (list_elem_of_fmap_2 fst _ _ He)). lia. }
    rewrite (filter_cons _ (k, x)). simpl. destruct (decide (k = k')) as [<-|].
    + rewrite Hnone, decide_True by done. done.
    + rewrite decide_False by done. by rewrite app_nil_r.
  - rewrite !filter_cons. simpl. destruct (decide (j = k')).
    + rewrite !fmap_cons, IH by done. done.
    + by rewrite IH.
Qed.

Lemma k_remove_sorted l e l' : k_sorted l → k_remove l = Some (e, l') → k_sorted l'.
Proof. destruct l; [done|]. intros Hs [= <- <-]. by inversion Hs. Qed.

Lemma k_sorted_app_r l1 l2 : k_sorted (l1 ++ l2) → k_sorted l2.
Proof.
  unfold k_sorted. induction l1 as [|e l1 IH]; [done|]. csimpl.
  intros Hs. apply IH. by inversion Hs.
Qed.

(** The element removed has the smallest key. *)
Lemma k_remove_least l e l' :
  k_sorted l → k_remove l = Some (e, l') → Forall (Z.le e.1) (l'.*1).
Proof. destruct l; [done|]. intros Hs [= <- <-]. by inversion Hs. Qed.
End klist.

#[export] Hint Resolve k_insert_sorted k_remove_sorted : nachos.

(** ** The implementation *)
Module NList.

(** A non-NULL [ListElement *]. *)
Abbreviation addr := nat (only parsing).

Record ListElement := mkElement { next : option addr; key : Z; item : Z }.
Record List := mkList { first : option addr; last : option addr }.

(** The [ListElement]s allocated and not yet deleted. *)
Abbreviation heap := (gmap nat ListElement).

Definition set_next (e : ListElement) (n : option addr) : ListElement :=
  mkElement n (key e) (item e).

(** [*p] *)
Definition deref (h : heap) (p : option addr) : outcome ListElement :=
  match p with
  | None => Undefined
  | Some a => match h !! a with Some e => Ret e | None => Undefined end
  end.

(** [p->next = n] *)
Definition store_next (h : heap) (p n : option addr) : outcome heap :=
  match p with
  | None => Undefined
  | Some a =>
      match h !! a with
      | Some e => Ret (<[a := set_next e n]> h)
      | None => Undefined
      end
  end.

Definition ListElement_new (itemPtr sortKey : Z) : ListElement :=
  mkElement None sortKey itemPtr.

Definition List_new : List := mkList None None.

Definition IsEmpty (l : List) : bool :=
  match first l with None => true | Some _ => false end.

(** In [Append], [Prepend] and [SortedInsert], [a] is the address [new] returns. *)
Definition Append (h : heap) (l : List) (a : addr) (v : Z) : outcome (heap * List) :=
  let h := <[a := ListElement_new v 0]> h in
  if IsEmpty l then Ret (h, mkList (Some a) (Some a))
  else
    h ← store_next h (last l) (Some a);
    Ret (h, mkList (first l) (Some a)).

Definition Prepend (h : heap) (l : List) (a : addr) (v : Z) : outcome (heap * List) :=
  let h := <[a := ListElement_new v 0]> h in
  if IsEmpty l then Ret (h, mkList (Some a) (Some a))
  else
    h ← store_next h (Some a) (first l);
    Ret (h, mkList (Some a) (last l)).

(** One iteration of the search loop of [SortedInsert]: go on with the next
    element, stop at the element to insert after, or fall off the end. *)
Definition SortedInsert_body (h : heap) (sortKey : Z) (ptr : addr) :
    outcome (addr + option addr) :=
  e ← deref h (Some ptr);
  match next e with
  | None => Ret (inr None)
  | Some n =>
      en ← deref h (Some n);
      if sortKey <? key en then Ret (inr (Some ptr)) else Ret (inl n)
  end.

Definition SortedInsert (fuel : nat) (h : heap) (l : List) (a : addr)
    (v sortKey : Z) : outcome (heap * List) :=
  let h := <[a := ListElement_new v sortKey]> h in
  match first l with
  | None => Ret (h, mkList (Some a) (Some a))
  | Some f =>
      ef ← deref h (Some f);
      if sortKey <? key ef then
        h ← store_next h (Some a) (first l);
        Ret (h, mkList (Some a) (last l))
      else
        stop ← loop (SortedInsert_body h sortKey) fuel f;
        match stop with
        | Some ptr =>
            ep ← deref h (Some ptr);
            h ← store_next h (Some a) (next ep);
            h ← store_next h (Some ptr) (Some a);
            Ret (h, l)
        | None =>
            h ← store_next h (last l) (Some a);
            Ret (h, mkList (first l) (Some a))
        end
  end.

(** The item and the value stored through [keyPtr], or [None] for NULL. *)
Definition SortedRemove (h : heap) (l : List) :
    outcome (heap * List * option (Z * Z)) :=
  if IsEmpty l then Ret (h, l, None)
  else
    element ← deref h (first l);
    let l' :=
      if decide (first l = last l) then mkList None None
      else mkList (next element) (last l) in
    let h' := match first l with Some a => delete a h | None => h end in
    Ret (h', l', Some (key element, item element)).

(** [Remove] ignores the key; a NULL result is [0]. *)
Definition Remove (h : heap) (l : List) : outcome (heap * List * Z) :=
  '(h, l, r) ← SortedRemove h l;
  Ret (h, l, match r with Some (_, v) => v | None => 0 end).

(** [~List]: [while (Remove() != NULL) ;] *)
Definition List_delete_body (hl : heap * List) :
    outcome (heap * List + heap * List) :=
  '(h, l, v) ← Remove hl.1 hl.2;
  if v =? 0 then Ret (inr (h, l)) else Ret (inl (h, l)).

Definition List_delete (fuel : nat) (h : heap) (l : List) : outcome (heap * List) :=
  loop List_delete_body fuel (h, l).

(** [func] as a function on the state it works on. *)
Definition Mapcar {S} (fuel : nat) (h : heap) (l : List) (func : Z → S → outcome S)
    (s : S) : outcome S :=
  loop (λ '(ptr, s),
    match ptr with
    | None => Ret (inr s)
    | Some _ =>
        e ← deref h ptr;
        s ← func (item e) s;
        Ret (inl (next e, s))
    end) fuel (first l, s).

(** *** Representation *)

(** The cells from [p] on are [ns] (address, key, item), linked in order and
    ending in the pointer [q]. *)
Fixpoint seg (h : heap) (p : option addr) (ns : list (addr * (Z * Z)))
    (q : option addr) : Prop :=
  match ns with
  | [] => p = q
  | (a, (k, v)) :: ns' =>
      p = Some a ∧ ∃ n, h !! a = Some (mkElement n k v) ∧ seg h n ns' q
  end.

Definition rep (h : heap) (l : List) (ns : list (addr * (Z * Z))) : Prop :=
  seg h (first l) ns None ∧ NoDup (ns.*1) ∧ last l = list.last (ns.*1).

Lemma seg_app h p ns1 ns2 q :
  seg h p (ns1 ++ ns2) q ↔ ∃ r, seg h p ns1 r ∧ seg h r ns2 q.
Proof.
  revert p. induction ns1 as [|[a [k v]] ns1 IH]; intros p; simpl.
  - split; [eauto|]. by intros (r & -> & ?).
  - split.
    + intros (-> & n & Ha & (r & H1 & H2)%IH). eauto 10.
    + intros (r & (-> & n & Ha & H1) & H2). split; [done|].
      exists n. split; [done|]. apply IH. eauto.
Qed.

Lemma seg_frame h h' p ns q :
  seg h p ns q → (∀ a, a ∈ ns.*1 → h' !! a = h !! a) → seg h' p ns q.
Proof.
  revert p. induction ns as [|[a [k v]] ns IH]; intros p; csimpl; [done|].
  intros (-> & n & Ha & Hs) Hf. split; [done|]. exists n. split.
  - rewrite Hf; [done|constructor].
  - apply IH; [done|]. intros b Hb. apply Hf. by constructor.
Qed.

Lemma seg_dom h p ns q a : seg h p ns q → a ∈ ns.*1 → is_Some (h !! a).
Proof.
  revert p. induction ns as [|[b [k v]] ns IH]; intros p; csimpl; intros Hs Ha.
  - by apply elem_of_nil in Ha.
  - destruct Hs as (-> & n & Hb & Hs). apply elem_of_cons in Ha as [-> | Ha]; eauto.
Qed.

(** A fresh cell and a cell of the list are different addresses. *)
Lemma seg_fresh h p ns q a : seg h p ns q → h !! a = None → a ∉ ns.*1.
Proof. intros Hs Hn Ha. destruct (seg_dom _ _ _ _ _ Hs Ha). congruence. Qed.

Lemma seg_length h p ns q :
  seg h p ns q → NoDup (ns.*1) → (length ns ≤ size h)%nat.
Proof.
  intros Hs Hnd. rewrite <- (length_fmap fst ns), <- size_dom.
  rewrite <- (size_list_to_set (C := gset nat) (ns.*1)) by done.
  apply subseteq_size. intros a Ha%elem_of_list_to_set.
  apply elem_of_dom. by eapply seg_dom.
Qed.

Lemma rep_empty h l : rep h l [] ↔ l = List_new.
Proof.
  unfold rep, List_new. simpl. destruct l as [f la]; simpl. split.
  - by intros (-> & _ & ->).
  - intros [= -> ->]. split_and!; [done|constructor|done].
Qed.

Lemma rep_IsEmpty h l ns : rep h l ns → IsEmpty l = bool_decide (ns = []).
Proof.
  intros (Hs & _ & _). unfold IsEmpty. destruct ns as [|[a [k v]] ns]; simpl in Hs.
  - by rewrite Hs.
  - by destruct Hs as [-> _].
Qed.

(** Insert a fresh cell anywhere, link it, and the represented list follows. *)
Lemma seg_insert h p ns1 a k v b kb vb ns2 q n :
  NoDup ((ns1 ++ (b, (kb, vb)) :: ns2).*1) →
  seg h p (ns1 ++ [(b, (kb, vb))]) n → seg h n ns2 q →
  a ∉ (ns1 ++ (b, (kb, vb)) :: ns2).*1 →
  seg (<[b := mkElement (Some a) kb vb]> (<[a := mkElement n k v]> h)) p
    (ns1 ++ (b, (kb, vb)) :: (a, (k, v)) :: ns2) q.
Proof.
  rewrite !fmap_app, !fmap_cons. csimpl. intros Hnd Hs1 Hs2 Ha.
  apply NoDup_app in Hnd as (Hnd1 & Hdis & Hnd2). inversion_clear Hnd2 as [|? ? Hb _].
  rewrite elem_of_app, elem_of_cons in Ha.
  apply seg_app in Hs1 as (r & Hs1 & Hb1). simpl in Hb1.
  destruct Hb1 as (-> & ? & Hb1 & ->).
  apply seg_app. exists (Some b). split.
  - eapply seg_frame; [exact Hs1|]. intros c Hc.
    specialize (Hdis c Hc). rewrite elem_of_cons in Hdis.
    rewrite !lookup_insert_ne by (intros ->; tauto). done.
  - simpl. split; [done|]. exists (Some a). rewrite lookup_insert_eq. split; [done|].
    split; [done|]. exists n. rewrite lookup_insert_ne by (intros ->; tauto).
    rewrite lookup_insert_eq. split; [done|].
    eapply seg_frame; [exact Hs2|]. intros c Hc.
    rewrite !lookup_insert_ne by (intros ->; tauto). done.
Qed.

(** What an operation that allocates at most the cell [a] guarantees: it
    returns, the new list is represented by the keyed list [xs'] on the old
    cells and [a], and every other cell of the heap is unchanged. *)
Definition adds_cell (h : heap) (ns : list (addr * (Z * Z))) (a : addr)
    (xs' : list (Z * Z)) (r : outcome (heap * List)) : Prop :=
  ∃ h' l' ns', r = Ret (h', l') ∧ rep h' l' ns' ∧ ns'.*2 = xs' ∧
    ns'.*1 ≡ₚ a :: ns.*1 ∧ ∀ b, b ∉ ns'.*1 → h' !! b = h !! b.

Lemma deref_Some h a e : h !! a = Some e → deref h (Some a) = Ret e.
Proof. intros H. simpl. by rewrite H. Qed.

Lemma store_next_Some h a e n :
  h !! a = Some e → store_next h (Some a) n = Ret (<[a := set_next e n]> h).
Proof. intros H. simpl. by rewrite H. Qed.

Lemma fmap_last_pair (ns : list (addr * (Z * Z))) b kv :
  list.last ((ns ++ [(b, kv)]).*1) = Some b.
Proof. rewrite fmap_app. csimpl. apply last_snoc. Qed.

Lemma adds_cell_only h a k v :
  adds_cell h [] a [(k, v)]
    (Ret (<[a := ListElement_new v k]> h, mkList (Some a) (Some a))).
Proof.
  eexists _, _, [(a, (k, v))]. split; [done|]. split_and!; try done.
  - split_and!; simpl; [|repeat constructor; set_solver|done].
    split; [done|]. exists None. by rewrite lookup_insert_eq.
  - intros b Hb. apply lookup_insert_ne. set_solver.
Qed.

(** The new cell in front of a non-empty list. *)
Lemma adds_cell_front h l ns a k v :
  rep h l ns → ns ≠ [] → h !! a = None →
  adds_cell h ns a ((k, v) :: ns.*2)
    (h ← store_next (<[a := ListElement_new v k]> h) (Some a) (first l);
     Ret (h, mkList (Some a) (last l))).
Proof.
  intros (Hs & Hnd & Hlast) Hne Ha. unfold store_next. rewrite lookup_insert_eq. simpl.
  pose proof (seg_fresh _ _ _ _ _ Hs Ha) as Hfr.
  eexists _, _, ((a, (k, v)) :: ns). split; [done|]. split_and!; csimpl; try done.
  - split_and!; csimpl; [|by constructor|].
    + split; [done|]. eexists. rewrite lookup_insert_eq. split; [done|].
      eapply seg_frame; [exact Hs|]. intros b Hb.
      rewrite !lookup_insert_ne by (intros ->; done). done.
    + rewrite Hlast. destruct ns as [|[b kv] ns]; done.
  - intros b Hb. rewrite !lookup_insert_ne by set_solver. done.
Qed.

(** The new cell linked after the last one. *)
Lemma adds_cell_back h l ns b kb vb a k v :
  rep h l (ns ++ [(b, (kb, vb))]) → h !! a = None →
  adds_cell h (ns ++ [(b, (kb, vb))]) a ((ns ++ [(b, (kb, vb))]).*2 ++ [(k, v)])
    (h ← store_next (<[a := ListElement_new v k]> h) (last l) (Some a);
     Ret (h, mkList (first l) (Some a))).
Proof.
  intros (Hs & Hnd & Hlast) Ha.
  pose proof (seg_fresh _ _ _ _ _ Hs Ha) as Hfr.
  rewrite fmap_last_pair in Hlast.
  destruct (proj1 (seg_app _ _ _ _ _) Hs) as (r & _ & Hb). simpl in Hb.
  destruct Hb as (_ & ? & Hb & ->).
  assert (b ≠ a) by (intros ->; congruence).
  unfold store_next. rewrite Hlast, lookup_insert_ne, Hb by done. simpl.
  eexists _, _, (ns ++ [(b, (kb, vb)); (a, (k, v))]).
  split; [done|]. split_and!.
  - split_and!.
    + eapply seg_insert; [done|exact Hs|done|done].
    + rewrite fmap_app in Hnd, Hfr |- *. csimpl in *.
      change ([b; a]) with ([b] ++ [a]). rewrite app_assoc. apply NoDup_app.
      split_and!; [done| |apply NoDup_singleton]. set_solver.
    + rewrite fmap_app. csimpl. change ([b; a]) with ([b] ++ [a]).
      by rewrite app_assoc, last_snoc.
  - rewrite !fmap_app. csimpl. by rewrite <- app_assoc.
  - rewrite !fmap_app. apply Permutation_insert_second.
  - intros c Hc. rewrite fmap_app in Hc. csimpl in *.
    rewrite !lookup_insert_ne by set_solver. done.
Qed.

Lemma ns_snoc (ns : list (addr * (Z * Z))) :
  ns ≠ [] → ∃ ns0 b kb vb, ns = ns0 ++ [(b, (kb, vb))].
Proof.
  intros Hne. destruct (exists_last Hne) as (ns0 & [b [kb vb]] & ->). eauto.
Qed.

(** [Append] puts the item behind the last one, in constant time. *)
Theorem Append_refines h l ns a v :
  rep h l ns → h !! a = None →
  adds_cell h ns a (k_append v (ns.*2)) (Append h l a v).
Proof.
  intros Hrep Ha. unfold Append. rewrite (rep_IsEmpty _ _ _ Hrep).
  case_bool_decide as Hns.
  - subst ns. apply adds_cell_only.
  - destruct (ns_snoc ns Hns) as (ns0 & b & kb & vb & ->).
    by apply adds_cell_back.
Qed.

Theorem Prepend_refines h l ns a v :
  rep h l ns → h !! a = None →
  adds_cell h ns a (k_prepend v (ns.*2)) (Prepend h l a v).
Proof.
  intros Hrep Ha. unfold Prepend. rewrite (rep_IsEmpty _ _ _ Hrep).
  case_bool_decide as Hns.
  - subst ns. apply adds_cell_only.
  - by apply adds_cell_front.
Qed.


(** Where the search loop stops, started on an element whose key is not
    larger than the one inserted. *)
Lemma SortedInsert_walk h k b kb vb ns fuel :
  seg h (Some b) ((b, (kb, vb)) :: ns) None → kb ≤ k → (length ns < fuel)%nat →
  (loop (SortedInsert_body h k) fuel b = Ret None ∧
     Forall (λ k', k' ≤ k) ((((b, (kb, vb)) :: ns).*2).*1)) ∨
  (∃ n1 c kc vc d kd vd n2,
     loop (SortedInsert_body h k) fuel b = Ret (Some c) ∧
     (b, (kb, vb)) :: ns = n1 ++ (c, (kc, vc)) :: (d, (kd, vd)) :: n2 ∧
     Forall (λ k', k' ≤ k) (((n1 ++ [(c, (kc, vc))]).*2).*1) ∧ k < kd).
Proof.
  revert b kb vb fuel. induction ns as [|[d [kd vd]] ns IH];
    intros b kb vb fuel Hs Hle Hf; (destruct fuel as [|fuel]; [simpl in Hf; lia|]);
    destruct Hs as (_ & n0 & Hb & Hs).
  - simpl in Hs. subst n0. left. split; [|by repeat constructor].
    apply loop_stop. unfold SortedInsert_body. by rewrite (deref_Some _ _ _ Hb).
  - pose proof Hs as Hs'. destruct Hs as (-> & n & Hd & Hs).
    assert (SortedInsert_body h k b =
      if k <? kd then Ret (inr (Some b)) else Ret (inl d)) as Hbody.
    { unfold SortedInsert_body. rewrite (deref_Some _ _ _ Hb). cbn [mbind outcome_bind next].
      by rewrite (deref_Some _ _ _ Hd). }
    destruct (Z.ltb_spec k kd).
    + right. exists [], b, kb, vb, d, kd, vd, ns.
      split_and!; [by apply loop_stop|done| |done]. by repeat constructor.
    + rewrite (loop_step _ _ _ _ Hbody).
      destruct (IH d kd vd fuel Hs' ltac:(lia) ltac:(simpl in Hf; lia))
        as [[-> Hall] | (n1 & c & kc & vc & d' & kd' & vd' & n2 & -> & Heq & Hall & Hlt)].
      * left. split; [done|]. csimpl. by constructor.
      * right. exists ((b, (kb, vb)) :: n1), c, kc, vc, d', kd', vd', n2.
        split_and!; [done| |csimpl; by constructor|done]. by rewrite Heq.
Qed.

(** The new cell between two cells of the list. *)
Lemma adds_cell_middle h l n1 c kc vc d kd vd n2 a k v xs :
  rep h l (n1 ++ (c, (kc, vc)) :: (d, (kd, vd)) :: n2) → h !! a = None →
  xs = n1.*2 ++ (kc, vc) :: (k, v) :: (kd, vd) :: n2.*2 →
  let h1 := <[a := ListElement_new v k]> h in
  adds_cell h (n1 ++ (c, (kc, vc)) :: (d, (kd, vd)) :: n2) a xs
    (ep ← deref h1 (Some c);
     h2 ← store_next h1 (Some a) (next ep);
     h3 ← store_next h2 (Some c) (Some a);
     Ret (h3, l)).
Proof.
  intros (Hs & Hnd & Hlast) Ha -> h1.
  pose proof (seg_fresh _ _ _ _ _ Hs Ha) as Hfr.
  destruct (proj1 (seg_app _ _ _ _ _) Hs) as (r & Hs1 & Hs2). simpl in Hs2.
  destruct Hs2 as (-> & n & Hc & Hs2). pose proof Hs2 as Hs2'.
  destruct Hs2' as (-> & _).
  assert (a ≠ c) by (intros ->; congruence).
  assert (h1 !! c = Some (mkElement (Some d) kc vc)) as Hc1.
  { unfold h1. by rewrite lookup_insert_ne. }
  rewrite (deref_Some _ _ _ Hc1). cbn [mbind outcome_bind next].
  rewrite (store_next_Some _ _ (ListElement_new v k)) by apply lookup_insert_eq.
  cbn [mbind outcome_bind]. unfold h1 at 1. rewrite insert_insert_eq.
  erewrite store_next_Some by (by rewrite lookup_insert_ne).
  cbn [mbind outcome_bind set_next key item].
  eexists _, _, (n1 ++ (c, (kc, vc)) :: (a, (k, v)) :: (d, (kd, vd)) :: n2).
  split; [done|]. split_and!.
  - split_and!.
    + eapply seg_insert; [done| |exact Hs2|done].
      apply seg_app. exists (Some c). split; [done|]. simpl. eauto.
    + rewrite fmap_app in Hnd, Hfr |- *. csimpl in *.
      rewrite (Permutation_insert_second _ (d :: _)). by constructor.
    + rewrite Hlast, !fmap_app. csimpl.
      rewrite !last_app, !last_cons. by destruct (list.last (n2.*1)).
  - rewrite !fmap_app. done.
  - rewrite !fmap_app. apply Permutation_insert_second.
  - intros b Hb. rewrite fmap_app in Hb. csimpl in *.
    rewrite !lookup_insert_ne by set_solver. done.
Qed.

Theorem SortedInsert_refines h l ns a v k fuel :
  rep h l ns → h !! a = None → (size h ≤ fuel)%nat →
  adds_cell h ns a (k_insert k v (ns.*2)) (SortedInsert fuel h l a v k).
Proof.
  intros Hrep Ha Hfuel. pose proof Hrep as (Hs & Hnd & Hlast).
  pose proof (seg_length _ _ _ _ Hs Hnd) as Hlen.
  pose proof (seg_fresh _ _ _ _ _ Hs Ha) as Hfr. unfold SortedInsert.
  destruct ns as [|[b [kb vb]] ns]; simpl in Hs.
  { rewrite Hs. apply adds_cell_only. }
  destruct Hs as (Hf & n & Hb & Hs). rewrite Hf. csimpl in Hfr.
  assert (b ≠ a) by set_solver.
  set (h1 := <[a := ListElement_new v k]> h).
  assert (h1 !! b = Some (mkElement n kb vb)) as Hb1.
  { unfold h1. by rewrite lookup_insert_ne. }
  rewrite (deref_Some _ _ _ Hb1). cbn [mbind outcome_bind key].
  destruct (Z.ltb_spec k kb).
  { rewrite <- Hf. change (((b, (kb, vb)) :: ns).*2) with ((kb, vb) :: ns.*2).
    rewrite k_insert_gt by done. by apply (adds_cell_front h l _ a k v Hrep). }
  assert (seg h1 (Some b) ((b, (kb, vb)) :: ns) None) as Hs1.
  { eapply seg_frame; [by split; eauto|]. intros c Hc. csimpl in Hc.
    unfold h1. apply lookup_insert_ne. set_solver. }
  destruct (SortedInsert_walk h1 k b kb vb ns fuel Hs1 ltac:(lia)
    ltac:(simpl in Hlen; lia))
    as [[-> Hall] | (n1 & c & kc & vc & d & kd & vd & n2 & -> & Heq & Hall & Hlt)].
  - destruct (ns_snoc ((b, (kb, vb)) :: ns)) as (ns0 & b' & kb' & vb' & Heq); [done|].
    rewrite <- Hf. rewrite Heq in *.
    rewrite <- (app_nil_r ((ns0 ++ _).*2)) at 1.
    rewrite k_insert_app_le by done. by apply adds_cell_back.
  - rewrite Heq in *. apply adds_cell_middle; [done..|].
    rewrite (fmap_app _ n1), !fmap_cons in *. csimpl.
    rewrite (cons_middle (kc, vc) (n1.*2)), app_assoc.
    rewrite k_insert_app_le, k_insert_gt by (by rewrite ?fmap_app in * ).
    by rewrite <- app_assoc.
Qed.

(** *** Removal, traversal and deallocation *)

Theorem SortedRemove_refines h l ns :
  rep h l ns →
  match ns with
  | [] => SortedRemove h l = Ret (h, l, None)
  | (a, (k, v)) :: ns' =>
      ∃ l', SortedRemove h l = Ret (delete a h, l', Some (k, v)) ∧
        rep (delete a h) l' ns'
  end.
Proof.
  intros Hrep. pose proof (rep_IsEmpty _ _ _ Hrep) as Hempty.
  destruct Hrep as (Hs & Hnd & Hlast). unfold SortedRemove. rewrite Hempty.
  destruct ns as [|[a [k v]] ns]; [done|].
  rewrite bool_decide_false by done. simpl in Hs. destruct Hs as (Hf & n & Ha & Hs).
  rewrite Hf. rewrite (deref_Some _ _ _ Ha). cbn [mbind outcome_bind next key item].
  csimpl in *. rewrite Hlast, last_cons. inversion_clear Hnd as [|? ? Hna Hnd'].
  eexists. split; [done|]. unfold rep.
  assert (∀ q, seg h n ns q → seg (delete a h) n ns q) as Hdel.
  { intros q Hq. eapply seg_frame; [exact Hq|]. intros b Hb.
    apply lookup_delete_ne. by intros ->. }
  destruct (list.last (ns.*1)) as [b|] eqn:Hl.
  - rewrite decide_False; [split_and!; [by apply Hdel|done|done]|].
    intros [= <-]. apply Hna. by apply last_Some_elem_of.
  - apply last_None, fmap_nil_inv in Hl as ->. simpl in Hs. subst n.
    rewrite decide_True by done. split_and!; [done|constructor|done].
Qed.

Fixpoint iter_items {S} (func : Z → S → outcome S) (xs : list Z) (s : S) : outcome S :=
  match xs with
  | [] => Ret s
  | x :: xs' => s ← func x s; iter_items func xs' s
  end.

Lemma Mapcar_refines {S} (func : Z → S → outcome S) h l ns fuel s :
  rep h l ns → (length ns < fuel)%nat →
  Mapcar fuel h l func s = iter_items func (ns.*2.*2) s.
Proof.
  intros (Hs & _ & _). unfold Mapcar. revert fuel s.
  generalize (first l) Hs. clear l Hs.
  induction ns as [|[a [k v]] ns IH]; intros p Hs fuel s Hf;
    (destruct fuel as [|fuel]; [simpl in Hf; lia|]); simpl in Hs; rewrite loop_unfold.
  - by rewrite Hs.
  - destruct Hs as (-> & n & Ha & Hs). rewrite (deref_Some _ _ _ Ha). csimpl.
    destruct (func v s) as [s'| | |]; csimpl; try done.
    apply IH; [done|simpl in Hf; lia].
Qed.

(** Deallocating a list whose items are all non-NULL frees exactly its cells. *)
Theorem List_delete_refines h l ns fuel :
  rep h l ns → Forall (λ v, v ≠ 0) (ns.*2.*2) → (length ns < fuel)%nat →
  ∃ h', List_delete fuel h l = Ret (h', List_new) ∧
    (∀ a, a ∈ ns.*1 → h' !! a = None) ∧ (∀ b, b ∉ ns.*1 → h' !! b = h !! b).
Proof.
  revert h l fuel. induction ns as [|[a [k v]] ns IH]; intros h l fuel Hrep Hnz Hf;
    (destruct fuel as [|fuel]; [simpl in Hf; lia|]);
    pose proof (SortedRemove_refines _ _ _ Hrep) as Hrm; unfold List_delete in *.
  - apply rep_empty in Hrep as ->. exists h. split; [done|]. csimpl. set_solver.
  - destruct Hrm as (l' & Hrm & Hrep'). csimpl in *. inversion_clear Hnz.
    erewrite (loop_step List_delete_body fuel (h, l) (delete a h, l')).
    2:{ unfold List_delete_body, Remove. simpl. rewrite Hrm. simpl.
        by rewrite (proj2 (Z.eqb_neq v 0)). }
    destruct (IH _ _ fuel Hrep' ltac:(done) ltac:(simpl in Hf; lia)) as (h' & -> & Hd & Hk).
    exists h'. split; [done|]. split.
    + intros b Hb. destruct (decide (b ∈ ns.*1)) as [Hin|Hout]; [by apply Hd|].
      rewrite Hk by done. apply elem_of_cons in Hb as [-> |]; [apply lookup_delete_eq|done].
    + intros b Hb. rewrite Hk by set_solver. apply lookup_delete_ne. set_solver.
Qed.

(** ** Properties *)

(** C21: the list used through [SortedInsert] and [SortedRemove] is a priority queue that is
    first in, first out among equal keys: an insertion returns, keeps the list sorted,
    puts the item behind those of its key, loses and duplicates nothing and leaves every other
    cell of the heap alone; a removal takes an item of least key and frees its cell. *)
Theorem sorted_list_is_priority_queue h l ns a v k fuel :
  rep h l ns → k_sorted (ns.*2) → h !! a = None → (size h ≤ fuel)%nat →
  ∃ h' l' ns', SortedInsert fuel h l a v k = Ret (h', l') ∧ rep h' l' ns' ∧ k_sorted (ns'.*2) ∧
    ns'.*2 ≡ₚ (k, v) :: ns.*2 ∧ (∀ b, b ∉ ns'.*1 → h' !! b = h !! b) ∧
    (∀ k', with_key k' (ns'.*2) = with_key k' (ns.*2) ++ (if decide (k' = k) then [v] else [])) ∧
    ∃ c e h'' l'' ns'', SortedRemove h' l' = Ret (h'', l'', Some e) ∧ h'' = delete c h' ∧
      ns' = (c, e) :: ns'' ∧ rep h'' l'' ns'' ∧ Forall (Z.le e.1) (ns''.*2.*1).
Proof.
  intros Hrep Hs Ha Hf.
  destruct (SortedInsert_refines h l ns a v k fuel Hrep Ha Hf)
    as (h' & l' & ns' & E & Hrep' & Hns & _ & Hk).
  pose proof (k_insert_sorted k v _ Hs) as Hs'. rewrite <- Hns in Hs'.
  exists h', l', ns'. split_and!; try done.
  - rewrite Hns. apply k_insert_perm.
  - intros k'. rewrite Hns. by apply k_insert_fifo.
  - pose proof (SortedRemove_refines h' l' ns' Hrep') as Hr.
    destruct ns' as [|[c [kc vc]] ns'']; [by destruct (k_insert_not_nil k v (ns.*2))|].
    destruct Hr as (l'' & Er & Hrep''). exists c, (kc, vc), (delete c h'), l'', ns''.
    split_and!; try done. by inversion Hs'.
Qed.

Lemma sorted_list_is_priority_queue_witness :
  ∃ h l, SortedInsert 0 ∅ List_new 5%nat 42 7 = Ret (h, l) ∧
    (∃ e h'' l'', SortedRemove h l = Ret (h'', l'', Some e)).
Proof.
  destruct (sorted_list_is_priority_queue ∅ List_new [] 5%nat 42 7 0)
    as (h' & l' & ns' & E & _ & _ & _ & _ & _ & c & e & h'' & l'' & ns'' & Er & _).
  - split_and!; [done|constructor|done].
  - constructor.
  - reflexivity.
  - rewrite map_size_empty. lia.
  - exists h', l'. split; [exact E|]. exists e, h'', l''. exact Er.
Defined.

End NList.
