(* ===== verification/BitMap.v ===== *)
(** * userprog/bitmap.h, userprog/bitmap.cc: bit maps

    [BitMap] is the array of 32-bit words of the source with its word and bit
    arithmetic.  Its meaning is the list of booleans [bits]; the theorems say
    what each routine does to that list, for every index, the failing
    assertions included.  The class [BitMapSpec] is what the other
    components (memory manager, file headers, file system) rely on. *)

From S2P Require Import Prelude CInt.

Open Scope Z_scope.

(** ** What a bit map promises to its clients *)

Class BitMapOps (B : Type) := {
  bm_bits : B → list bool;
  bm_Mark : B → Z → outcome B;
  bm_Clear : B → Z → outcome B;
  bm_Test : B → Z → outcome bool;
  bm_Find : B → outcome (B * Z);
  bm_NumClear : B → outcome Z;
}.

(** Index of the first [false], if any. *)
Fixpoint first_clear (l : list bool) : option nat :=
  match l with
  | [] => None
  | false :: _ => Some 0%nat
  | true :: l' => S <$> first_clear l'
  end.

(** How many are [false]. *)
Fixpoint num_clear (l : list bool) : nat :=
  match l with
  | [] => 0
  | b :: l' => ((if b then 0 else 1) + num_clear l')%nat
  end.

Class BitMapSpec (B : Type) `{BitMapOps B} := {
  bm_wf : B → Prop;
  bm_Mark_spec b i : bm_wf b → 0 ≤ i < Z.of_nat (length (bm_bits b)) →
    ∃ b', bm_Mark b i = Ret b' ∧ bm_wf b' ∧
      bm_bits b' = <[Z.to_nat i := true]> (bm_bits b);
  bm_Clear_spec b i : bm_wf b → 0 ≤ i < Z.of_nat (length (bm_bits b)) →
    ∃ b', bm_Clear b i = Ret b' ∧ bm_wf b' ∧
      bm_bits b' = <[Z.to_nat i := false]> (bm_bits b);
  bm_Test_spec b i v : bm_wf b → bm_bits b !! i = Some v →
    bm_Test b (Z.of_nat i) = Ret v;
  bm_Find_spec b : bm_wf b →
    match first_clear (bm_bits b) with
    | None => bm_Find b = Ret (b, -1)
    | Some i => ∃ b', bm_Find b = Ret (b', Z.of_nat i) ∧ bm_wf b' ∧
        bm_bits b' = <[i := true]> (bm_bits b)
    end;
  bm_NumClear_spec b : bm_wf b → bm_NumClear b = Ret (Z.of_nat (num_clear (bm_bits b)));
}.

(** *** The first clear bit and the number of clear bits *)

Lemma first_clear_Some l i :
  first_clear l = Some i ↔
  l !! i = Some false ∧ ∀ j, (j < i)%nat → l !! j = Some true.
Proof.
  revert i. induction l as [|b l IH]; intros i; simpl.
  - split; [done|]. by intros [? _].
  - destruct b.
    + rewrite fmap_Some. split.
      * intros (j & [Hj Hlt]%IH & ->). split; [done|].
        intros [|k] Hk; [done|]. apply Hlt. lia.
      * intros [Hi Hlt]. destruct i as [|i]; [done|]. exists i. split; [|done].
        apply IH. split; [done|]. intros j Hj. apply (Hlt (S j)). lia.
    + split.
      * intros [= <-]. split; [done|]. lia.
      * intros [_ Hlt]. destruct i as [|i]; [done|].
        specialize (Hlt 0%nat ltac:(lia)). done.
Qed.

Lemma first_clear_None l : first_clear l = None ↔ num_clear l = 0%nat.
Proof.
  induction l as [|[] l IH]; simpl; [done| |done]. rewrite <- IH.
  by destruct (first_clear l).
Qed.

Lemma first_clear_lt l i : first_clear l = Some i → (i < length l)%nat.
Proof. intros [Hi _]%first_clear_Some. by eapply lookup_lt_Some. Qed.

Lemma num_clear_insert_true l i :
  l !! i = Some false → num_clear l = S (num_clear (<[i := true]> l)).
Proof.
  revert i. induction l as [|b l IH]; intros [|i]; simpl; try done.
  - by intros [= ->].
  - intros Hi. rewrite (IH i Hi). destruct b; simpl; lia.
Qed.

Lemma num_clear_insert_false l i :
  l !! i = Some true → num_clear (<[i := false]> l) = S (num_clear l).
Proof.
  revert i. induction l as [|b l IH]; intros [|i]; simpl; try done.
  - by intros [= ->].
  - intros Hi. rewrite (IH i Hi). destruct b; simpl; lia.
Qed.

Lemma num_clear_le l : (num_clear l ≤ length l)%nat.
Proof. induction l as [|[] l IH]; simpl; lia. Qed.

(** ** The implementation *)
Module BitMap.

Definition BitsInWord : Z := 32.

Record BitMap := mkBitMap { numBits : Z; numWords : Z; map : list Z }.

(** [1 << (which % BitsInWord)] as an [unsigned]. *)
Definition bit_mask (which : Z) : Z := u32 (Z.shiftl 1 (which `rem` BitsInWord)).

Definition Mark (b : BitMap) (which : Z) : outcome BitMap :=
  assert! in_range which (numBits b);;
  w ← rd (map b) (which `quot` BitsInWord);
  m ← wr (map b) (which `quot` BitsInWord) (Z.lor w (bit_mask which));
  Ret (mkBitMap (numBits b) (numWords b) m).

Definition Clear (b : BitMap) (which : Z) : outcome BitMap :=
  assert! in_range which (numBits b);;
  w ← rd (map b) (which `quot` BitsInWord);
  m ← wr (map b) (which `quot` BitsInWord)
         (Z.land w (u32 (Z.lnot (bit_mask which))));
  Ret (mkBitMap (numBits b) (numWords b) m).

Definition Test (b : BitMap) (which : Z) : outcome bool :=
  assert! in_range which (numBits b);;
  w ← rd (map b) (which `quot` BitsInWord);
  Ret (negb (Z.land w (bit_mask which) =? 0)).

(** [junk] is the contents of the words [new] returns. *)
Definition BitMap_new (nitems : Z) (junk : list Z) : outcome BitMap :=
  let numWords := divRoundUp nitems BitsInWord in
  for_range (λ i b, Clear b i) 0 (Z.to_nat nitems)
    (mkBitMap nitems numWords (take (Z.to_nat numWords) junk)).

Fixpoint Find_from (b : BitMap) (i : Z) (n : nat) : outcome (BitMap * Z) :=
  match n with
  | O => Ret (b, -1)
  | S n' =>
      t ← Test b i;
      if negb t then b' ← Mark b i; Ret (b', i)
      else Find_from b (i + 1) n'
  end.

Definition Find (b : BitMap) : outcome (BitMap * Z) :=
  Find_from b 0 (Z.to_nat (numBits b)).

Definition NumClear (b : BitMap) : outcome Z :=
  for_range (λ i count, t ← Test b i; Ret (if negb t then count + 1 else count))
    0 (Z.to_nat (numBits b)) 0.

(** [Print]: the numbers printed, in order. *)
Definition Print (b : BitMap) : outcome (list Z) :=
  for_range (λ i out, t ← Test b i; Ret (if (t : bool) then out ++ [i] else out))
    0 (Z.to_nat (numBits b)) [].

(** The [numWords * sizeof(unsigned)] bytes [WriteBack] stores in the file and
    [FetchFrom] overwrites with the bytes read from it. *)
Definition map_bytes (b : BitMap) : list Z := words_bytes (map b).

Definition fetch_bytes (b : BitMap) (bs : list Z) : BitMap :=
  mkBitMap (numBits b) (numWords b) (bytes_words (Z.to_nat (numWords b)) bs).

(** *** Meaning *)

Definition bit (b : BitMap) (i : nat) : bool :=
  Z.testbit (map b !!! (i / 32)%nat) (Z.of_nat (i mod 32)).

Definition bits (b : BitMap) : list bool := bit b <$> seq 0 (Z.to_nat (numBits b)).

Record wf (b : BitMap) : Prop := {
  wf_numBits : 0 ≤ numBits b;
  wf_numWords : numWords b = divRoundUp (numBits b) BitsInWord;
  wf_length : Z.of_nat (length (map b)) = numWords b;
  wf_words : Forall is_u32 (map b);
}.

(** *** Word and bit arithmetic *)

Lemma word_index i : Z.of_nat i `quot` BitsInWord = Z.of_nat (i / 32).
Proof. unfold BitsInWord. rewrite Z.quot_div_nonneg, Nat2Z.inj_div by lia. done. Qed.

Lemma bit_index i : Z.of_nat i `rem` BitsInWord = Z.of_nat (i mod 32).
Proof. unfold BitsInWord. rewrite Z.rem_mod_nonneg, Nat2Z.inj_mod by lia. done. Qed.

Lemma bit_mask_pow2 i : bit_mask (Z.of_nat i) = 2 ^ Z.of_nat (i mod 32).
Proof.
  unfold bit_mask. rewrite bit_index, Z.shiftl_mul_pow2, Z.mul_1_l by lia.
  pose proof (Nat.mod_upper_bound i 32 ltac:(lia)).
  apply u32_small. split; [apply Z.pow_nonneg; lia|apply Z.pow_lt_mono_r; lia].
Qed.

Lemma word_in_map b i :
  wf b → (i < Z.to_nat (numBits b))%nat → (i / 32 < length (map b))%nat.
Proof.
  intros [Hn Hw Hl _] Hi.
  pose proof (divRoundUp_bounds (numBits b) BitsInWord Hn ltac:(done)) as Hb.
  unfold BitsInWord in *. apply Nat.Div0.div_lt_upper_bound. lia.
Qed.

Lemma map_word b i :
  wf b → (i < Z.to_nat (numBits b))%nat →
  map b !! (i / 32)%nat = Some (map b !!! (i / 32)%nat).
Proof.
  intros Hwf Hi. pose proof (word_in_map b i Hwf Hi).
  destruct (lookup_lt_is_Some_2 (map b) (i / 32)%nat) as [w Hw]; [done|].
  by rewrite (list_lookup_total_correct _ _ _ Hw).
Qed.

Lemma rd_word b i :
  wf b → (i < Z.to_nat (numBits b))%nat →
  rd (map b) (Z.of_nat i `quot` BitsInWord) = Ret (map b !!! (i / 32)%nat).
Proof.
  intros Hwf Hi. rewrite word_index. apply rd_lookup; [lia|].
  rewrite Nat2Z.id. by apply map_word.
Qed.

Lemma wr_word b i w :
  wf b → (i < Z.to_nat (numBits b))%nat →
  wr (map b) (Z.of_nat i `quot` BitsInWord) w = Ret (<[(i / 32)%nat := w]> (map b)).
Proof.
  intros Hwf Hi. rewrite word_index, wr_ok, Nat2Z.id; [done|].
  pose proof (word_in_map b i Hwf Hi). lia.
Qed.

Lemma bits_length b : length (bits b) = Z.to_nat (numBits b).
Proof. unfold bits. by rewrite length_fmap, length_seq. Qed.

Lemma bits_lookup b i :
  (i < Z.to_nat (numBits b))%nat → bits b !! i = Some (bit b i).
Proof.
  intros Hi. unfold bits. rewrite list_lookup_fmap, lookup_seq_lt by done. done.
Qed.

Lemma bits_range b i :
  wf b → 0 ≤ i < Z.of_nat (length (bits b)) →
  ∃ j, i = Z.of_nat j ∧ (j < Z.to_nat (numBits b))%nat ∧ in_range i (numBits b) = true.
Proof.
  intros [Hn _ _ _] Hi. rewrite bits_length in Hi. exists (Z.to_nat i).
  split_and!; [lia|lia|]. apply in_range_spec. lia.
Qed.

(** One word changed in the bit [i] only. *)
Lemma bits_update b i w v :
  wf b → (i < Z.to_nat (numBits b))%nat →
  (∀ j, (j < 32)%nat → Z.testbit w (Z.of_nat j) =
     if decide (j = i mod 32)%nat then v
     else Z.testbit (map b !!! (i / 32)%nat) (Z.of_nat j)) →
  bits (mkBitMap (numBits b) (numWords b) (<[(i / 32)%nat := w]> (map b))) =
  <[i := v]> (bits b).
Proof.
  intros Hwf Hi Hw. apply list_eq_same_length with (n := Z.to_nat (numBits b)).
  - by rewrite length_insert, bits_length.
  - by rewrite bits_length.
  - intros j x y Hj. rewrite bits_lookup by done. intros [= <-] Hy.
    unfold bit at 1. cbn [map].
    pose proof (word_in_map b i Hwf Hi) as Hwi.
    assert (j mod 32 < 32)%nat by (apply Nat.mod_upper_bound; lia).
    pose proof (Nat.div_mod_eq i 32). pose proof (Nat.div_mod_eq j 32).
    destruct (decide (i = j)) as [<- | Hne].
    + rewrite list_lookup_insert_eq in Hy by (rewrite bits_length; done).
      injection Hy as <-. rewrite list_lookup_total_insert_eq by done.
      rewrite Hw by done. by rewrite decide_True.
    + rewrite list_lookup_insert_ne, bits_lookup in Hy by done. injection Hy as <-.
      unfold bit. destruct (decide (i / 32 = j / 32)%nat) as [E | E].
      * rewrite <- E, list_lookup_total_insert_eq by done. rewrite Hw by done.
        rewrite decide_False by lia. done.
      * by rewrite list_lookup_total_insert_ne.
Qed.

Lemma wf_update b i w :
  wf b → is_u32 w → wf (mkBitMap (numBits b) (numWords b) (<[i := w]> (map b))).
Proof.
  intros [Hn Hw Hl Hu] Hw'. split; csimpl; try done.
  - by rewrite length_insert.
  - by apply Forall_insert.
Qed.

Lemma map_word_u32 b i :
  wf b → (i < Z.to_nat (numBits b))%nat → is_u32 (map b !!! (i / 32)%nat).
Proof.
  intros Hwf Hi. eapply Forall_lookup_1; [apply Hwf|by apply map_word].
Qed.

(** *** The routines *)

Lemma Mark_spec b i :
  wf b → 0 ≤ i < Z.of_nat (length (bits b)) →
  ∃ b', Mark b i = Ret b' ∧ wf b' ∧ bits b' = <[Z.to_nat i := true]> (bits b).
Proof.
  intros Hwf Hr. destruct (bits_range b i Hwf Hr) as (j & -> & Hj & Hin).
  rewrite Nat2Z.id. unfold Mark. rewrite Hin. cbn [ASSERT mbind outcome_bind].
  rewrite rd_word by done. cbn [mbind outcome_bind].
  rewrite wr_word by done. cbn [mbind outcome_bind]. rewrite bit_mask_pow2.
  eexists. split; [done|]. split.
  - apply wf_update; [done|]. apply is_u32_lor; [by apply map_word_u32|].
    rewrite <- bit_mask_pow2. apply u32_range.
  - apply bits_update; [done..|]. intros k Hk. rewrite Z.lor_spec, Z.pow2_bits_eqb by lia.
    destruct (decide (k = j mod 32)%nat) as [->|].
    + by rewrite Z.eqb_refl, orb_true_r.
    + rewrite eqb_of_nat_ne by done. apply orb_false_r.
Qed.

Lemma Clear_spec b i :
  wf b → 0 ≤ i < Z.of_nat (length (bits b)) →
  ∃ b', Clear b i = Ret b' ∧ wf b' ∧ bits b' = <[Z.to_nat i := false]> (bits b).
Proof.
  intros Hwf Hr. destruct (bits_range b i Hwf Hr) as (j & -> & Hj & Hin).
  rewrite Nat2Z.id. unfold Clear. rewrite Hin. cbn [ASSERT mbind outcome_bind].
  rewrite rd_word by done. cbn [mbind outcome_bind].
  rewrite wr_word by done. cbn [mbind outcome_bind]. rewrite bit_mask_pow2.
  eexists. split; [done|]. split.
  - apply wf_update; [done|]. apply is_u32_land. by apply map_word_u32.
  - apply bits_update; [done..|]. intros k Hk.
    rewrite Z.land_spec, testbit_u32, Z.lnot_spec, Z.pow2_bits_eqb by lia.
    rewrite ltb_true by lia. cbn [andb].
    destruct (decide (k = j mod 32)%nat) as [->|].
    + by rewrite Z.eqb_refl, andb_false_r.
    + rewrite eqb_of_nat_ne by done. apply andb_true_r.
Qed.

Lemma Test_spec b i v : wf b → bits b !! i = Some v → Test b (Z.of_nat i) = Ret v.
Proof.
  intros Hwf Hv. pose proof (lookup_lt_Some _ _ _ Hv) as Hi. rewrite bits_length in Hi.
  rewrite bits_lookup in Hv by done. injection Hv as <-. unfold Test.
  destruct Hwf as [Hn ? ? ?] eqn:Hwf'. clear Hwf'.
  rewrite in_range_true by lia. cbn [ASSERT mbind outcome_bind].
  rewrite rd_word by done. cbn [mbind outcome_bind].
  by rewrite bit_mask_pow2, land_pow2_zero, negb_involutive by lia.
Qed.

(** Every routine that takes an index rejects the ones outside the map. *)
Lemma out_of_range b i :
  ¬ 0 ≤ i < numBits b →
  Mark b i = AssertFails ∧ Clear b i = AssertFails ∧ Test b i = AssertFails.
Proof.
  intros Hi. unfold Mark, Clear, Test. by rewrite in_range_false.
Qed.

Lemma numBits_bits b : wf b → numBits b = Z.of_nat (length (bits b)).
Proof. intros [Hn _ _ _]. rewrite bits_length. lia. Qed.

(** The constructor clears every bit, whatever was in the memory it got. *)
Lemma BitMap_new_spec nitems junk :
  0 ≤ nitems → Forall is_u32 junk → divRoundUp nitems BitsInWord ≤ Z.of_nat (length junk) →
  ∃ b, BitMap_new nitems junk = Ret b ∧ wf b ∧
    bits b = replicate (Z.to_nat nitems) false.
Proof.
  intros Hn Hu Hl. unfold BitMap_new.
  pose proof (divRoundUp_nonneg nitems BitsInWord Hn ltac:(done)) as Hw.
  edestruct (for_range_inv (λ i b, Clear b i) (λ i b, wf b ∧
    length (bits b) = Z.to_nat nitems ∧
    ∀ j, (Z.of_nat j < i) → bits b !! j = Some false)) as (b & Hb & Hwf & Hlen & Hall).
  3:{ exists b. split; [exact Hb|]. split; [done|].
      apply list_eq_same_length with (n := Z.to_nat nitems);
        [by rewrite length_replicate|done|].
      intros j x y Hj Hx Hy. apply lookup_replicate in Hy as [-> _].
      rewrite Hall in Hx by lia. congruence. }
  - intros i b Hi (Hwf & Hlen & Hall).
    destruct (Clear_spec b i Hwf) as (b' & Hb' & Hwf' & Hbits); [lia|].
    exists b'. split_and!; [done|done|by rewrite Hbits, length_insert|].
    intros j Hj. rewrite Hbits. destruct (decide (Z.to_nat i = j)) as [<-|].
    + apply list_lookup_insert_eq. lia.
    + rewrite list_lookup_insert_ne by done. apply Hall. lia.
  - split_and!; [|by rewrite bits_length|intros j Hj; lia].
    split; csimpl; try done; [rewrite length_take; lia|by apply Forall_take].
Qed.

Lemma Find_from_spec b i n :
  wf b → (i + n = length (bits b))%nat →
  match first_clear (drop i (bits b)) with
  | None => Find_from b (Z.of_nat i) n = Ret (b, -1)
  | Some j => ∃ b', Find_from b (Z.of_nat i) n = Ret (b', Z.of_nat (i + j)) ∧ wf b' ∧
      bits b' = <[(i + j)%nat := true]> (bits b)
  end.
Proof.
  intros Hwf. revert i. induction n as [|n IH]; intros i Hi; cbn [Find_from].
  - by rewrite drop_ge by lia.
  - destruct (lookup_lt_is_Some_2 (bits b) i) as [v Hv]; [lia|].
    rewrite (Test_spec b i v Hwf Hv). cbn [mbind outcome_bind].
    rewrite (drop_S _ _ _ Hv). destruct v; cbn [negb first_clear].
    + specialize (IH (S i) ltac:(lia)).
      replace (Z.of_nat i + 1) with (Z.of_nat (S i)) by lia.
      destruct (first_clear (drop (S i) (bits b))) as [j|]; csimpl; [|done].
      by replace (i + S j)%nat with (S i + j)%nat by lia.
    + destruct (Mark_spec b (Z.of_nat i) Hwf) as (b' & -> & Hwf' & Hb'); [lia|].
      rewrite Nat2Z.id in Hb'. exists b'. by rewrite Nat.add_0_r.
Qed.

Lemma Find_spec b :
  wf b →
  match first_clear (bits b) with
  | None => Find b = Ret (b, -1)
  | Some i => ∃ b', Find b = Ret (b', Z.of_nat i) ∧ wf b' ∧
      bits b' = <[i := true]> (bits b)
  end.
Proof.
  intros Hwf. apply (Find_from_spec b 0); [done|]. by rewrite bits_length.
Qed.

Lemma num_clear_take_S l i v :
  l !! i = Some v →
  num_clear (take (S i) l) = (num_clear (take i l) + if (v : bool) then 0 else 1)%nat.
Proof.
  revert i. induction l as [|b l IH]; intros [|i]; try done.
  - intros [= ->]. simpl. lia.
  - intros Hi. cbn [take num_clear]. rewrite (IH i Hi). lia.
Qed.

Lemma NumClear_spec b : wf b → NumClear b = Ret (Z.of_nat (num_clear (bits b))).
Proof.
  intros Hwf. unfold NumClear.
  edestruct (for_range_inv
    (λ i count, t ← Test b i; Ret (if negb t then count + 1 else count))
    (λ i c, c = Z.of_nat (num_clear (take (Z.to_nat i) (bits b)))))
    as (c & Hc & HI).
  3:{ rewrite Hc, HI, take_ge; [done|]. rewrite bits_length. lia. }
  - intros i s Hi ->. rewrite Z.add_0_l in Hi.
    destruct (lookup_lt_is_Some_2 (bits b) (Z.to_nat i)) as [v Hv];
      [rewrite bits_length; lia|].
    pose proof (Test_spec b _ v Hwf Hv) as Ht. rewrite Z2Nat.id in Ht by lia.
    rewrite Ht. eexists. split; [done|].
    replace (Z.to_nat (i + 1)) with (S (Z.to_nat i)) by lia.
    rewrite (num_clear_take_S _ _ _ Hv). destruct v; simpl; lia.
  - done.
Qed.

(** [Print] prints the numbers of the marked bits, in order. *)
Lemma Print_spec b :
  wf b → Print b =
    Ret (Z.of_nat <$> filter (λ i, bits b !! i = Some true) (seq 0 (length (bits b)))).
Proof.
  intros Hwf. unfold Print.
  edestruct (for_range_inv
    (λ i out, t ← Test b i; Ret (if (t : bool) then out ++ [i] else out))
    (λ i out, out = Z.of_nat <$> filter (λ i, bits b !! i = Some true) (seq 0 (Z.to_nat i))) 0
    (Z.to_nat (numBits b)) [])
    as (out & E & HI); [|done|].
  - intros i s Hi ->. rewrite Z.add_0_l in Hi.
    destruct (lookup_lt_is_Some_2 (bits b) (Z.to_nat i)) as [v Hv];
      [rewrite bits_length; lia|].
    pose proof (Test_spec b _ v Hwf Hv) as Ht. rewrite Z2Nat.id in Ht by lia.
    rewrite Ht. eexists. split; [done|].
    replace (Z.to_nat (i + 1)) with (S (Z.to_nat i)) by lia.
    rewrite seq_S, filter_app, fmap_app. cbn [plus]. destruct v.
    + rewrite filter_cons_True by done. cbn. by rewrite Z2Nat.id by lia.
    + rewrite filter_cons_False by congruence. by rewrite app_nil_r.
  - rewrite E, HI, Z.add_0_l, Nat2Z.id, bits_length. done.
Qed.

(** Storing a map in a file and fetching it back gives the same map. *)
Lemma fetch_map_bytes b b0 rest :
  wf b → numBits b0 = numBits b → numWords b0 = numWords b →
  fetch_bytes b0 (map_bytes b ++ rest) = b.
Proof.
  intros [Hn Hw Hl Hu] E1 E2. unfold fetch_bytes, map_bytes.
  rewrite E1, E2. replace (Z.to_nat (numWords b)) with (length (map b)) by lia.
  rewrite bytes_words_u32 by done. by destruct b.
Qed.

(** Any bytes of the right length are a well-formed map. *)
Lemma fetch_bytes_wf b bs :
  wf b → Forall is_byte bs → (4 * Z.to_nat (numWords b) ≤ length bs)%nat →
  wf (fetch_bytes b bs).
Proof.
  intros [Hn Hw Hl Hu] Hb Hlen. split; csimpl; try done.
  - rewrite bytes_words_length. lia.
  - by apply bytes_words_are_u32.
Qed.

Lemma map_bytes_length b : wf b → Z.of_nat (length (map_bytes b)) = 4 * numWords b.
Proof. intros [Hn Hw Hl Hu]. unfold map_bytes. rewrite words_bytes_length. lia. Qed.

#[global] Instance BitMap_ops : BitMapOps BitMap := {|
  bm_bits := bits; bm_Mark := Mark; bm_Clear := Clear; bm_Test := Test;
  bm_Find := Find; bm_NumClear := NumClear |}.

#[global] Instance BitMap_spec : BitMapSpec BitMap := {|
  bm_wf := wf;
  bm_Mark_spec := Mark_spec; bm_Clear_spec := Clear_spec; bm_Test_spec := Test_spec;
  bm_Find_spec := Find_spec; bm_NumClear_spec := NumClear_spec |}.


(** ** Properties *)

(** C28: the word and bit arithmetic is an array of booleans: inside the map [Mark], [Clear] and
    [Test] act on the one bit named, outside it the assertion fails; [Find] marks and returns
    the first clear bit, or returns -1 and changes nothing exactly when [NumClear] is 0. *)
Theorem bitmap_is_array b which :
  wf b →
  (∀ v, bits b !! Z.to_nat which = Some v → 0 ≤ which →
     Test b which = Ret v ∧
     (∃ b', Mark b which = Ret b' ∧ wf b' ∧ bits b' = <[Z.to_nat which := true]> (bits b)) ∧
     (∃ b', Clear b which = Ret b' ∧ wf b' ∧ bits b' = <[Z.to_nat which := false]> (bits b))) ∧
  (¬ 0 ≤ which < numBits b →
     Mark b which = AssertFails ∧ Clear b which = AssertFails ∧ Test b which = AssertFails) ∧
  match first_clear (bits b) with
  | Some i => ∃ b', Find b = Ret (b', Z.of_nat i) ∧ wf b' ∧ bits b' = <[i := true]> (bits b) ∧
      NumClear b = Ret (1 + Z.of_nat (num_clear (bits b')))
  | None => Find b = Ret (b, -1) ∧ NumClear b = Ret 0
  end.
Proof.
  intros Hw. split; [|split; [apply out_of_range|]].
  - intros v Hv Hp. pose proof (lookup_lt_Some _ _ _ Hv) as Hl. split_and!.
    + pose proof (Test_spec b _ v Hw Hv) as Ht. by rewrite Z2Nat.id in Ht.
    + apply Mark_spec; [done|lia].
    + apply Clear_spec; [done|lia].
  - pose proof (Find_spec b Hw) as Hf. rewrite NumClear_spec by done.
    destruct (first_clear (bits b)) as [i|] eqn:E.
    + destruct Hf as (b' & Hf & Hw' & Hb'). exists b'. split_and!; try done.
      apply first_clear_Some in E as [Hi _]. rewrite Hb', (num_clear_insert_true _ _ Hi). f_equal. lia.
    + apply first_clear_None in E. by rewrite E.
Qed.

Definition example_map : BitMap := mkBitMap 40 2 [4294967295; 5].

Lemma example_map_wf : wf example_map.
Proof. split; [done|done|done|]. repeat constructor; unfold is_u32; lia. Qed.

Lemma bitmap_is_array_witness :
  Test example_map 34 = Ret true ∧ Test example_map 40 = AssertFails ∧
  ∃ b', Find example_map = Ret (b', 33).
Proof.
  destruct (bitmap_is_array example_map 34 example_map_wf) as (Hin & _ & b' & Hf & _).
  destruct (bitmap_is_array example_map 40 example_map_wf) as (_ & Hout & _).
  split; [apply (Hin true); [reflexivity|lia]|]. split; [apply Hout; cbn; lia|].
  exists b'. exact Hf.
Defined.

End BitMap.
