(* ===== verification/MemManage.v ===== *)
(** * userprog/memmanage.h, userprog/memmanage.cc: physical page allocator

    [MemoryManager] keeps one bit per physical page.  The routines are written
    against the interface [BitMapSpec], and [FrameAllocSpec] is what the
    virtual memory code (addrspace.cc, backingstore.cc) relies on in turn: the set
    of allocated frames and how [AllocPage] and [FreePage] change it. *)

From S2P Require Import Prelude CInt BitMap.

Open Scope Z_scope.

(** ** What the allocator promises *)

Class FrameAllocOps (M : Type) := {
  fa_total : M → Z;
  fa_used : M → gset Z;
  fa_AllocPage : M → outcome (M * Z);
  fa_FreePage : M → Z → outcome M;
  fa_PageIsAllocated : M → Z → outcome bool;
  fa_NumFreePages : M → outcome Z;
}.

Class FrameAllocSpec (M : Type) `{FrameAllocOps M} := {
  fa_wf : M → Prop;
  fa_used_range m i : fa_wf m → i ∈ fa_used m → 0 ≤ i < fa_total m;
  fa_AllocPage_spec m : fa_wf m →
    (∃ m' i, fa_AllocPage m = Ret (m', i) ∧ fa_wf m' ∧ fa_total m' = fa_total m ∧
       0 ≤ i < fa_total m ∧ i ∉ fa_used m ∧ fa_used m' = {[i]} ∪ fa_used m ∧
       (∀ j, 0 ≤ j < i → j ∈ fa_used m)) ∨
    (fa_AllocPage m = Ret (m, -1) ∧ ∀ i, 0 ≤ i < fa_total m → i ∈ fa_used m);
  fa_FreePage_spec m i : fa_wf m → 0 ≤ i < fa_total m →
    ∃ m', fa_FreePage m i = Ret m' ∧ fa_wf m' ∧ fa_total m' = fa_total m ∧
      fa_used m' = fa_used m ∖ {[i]};
  fa_PageIsAllocated_spec m i : fa_wf m → 0 ≤ i < fa_total m →
    fa_PageIsAllocated m i = Ret (bool_decide (i ∈ fa_used m));
  fa_NumFreePages_spec m : fa_wf m →
    fa_NumFreePages m = Ret (fa_total m - Z.of_nat (size (fa_used m)));
}.

(** ** Positions of the set bits *)

Definition set_bits (l : list bool) : gset Z :=
  list_to_set (Z.of_nat <$> filter (λ i, l !! i = Some true) (seq 0 (length l))).

Lemma elem_of_set_bits l z :
  z ∈ set_bits l ↔ ∃ i, z = Z.of_nat i ∧ l !! i = Some true.
Proof.
  unfold set_bits. rewrite elem_of_list_to_set, list_elem_of_fmap.
  setoid_rewrite list_elem_of_filter. setoid_rewrite elem_of_seq. split.
  - intros (i & -> & Hi & _). eauto.
  - intros (i & -> & Hi). exists i. split_and!; [done|done|lia|].
    apply lookup_lt_Some in Hi. lia.
Qed.

Lemma elem_of_set_bits_nat l i : Z.of_nat i ∈ set_bits l ↔ l !! i = Some true.
Proof.
  rewrite elem_of_set_bits. split; [|eauto]. by intros (j & ->%Nat2Z.inj & Hj).
Qed.

Lemma set_bits_insert_true l i :
  (i < length l)%nat → set_bits (<[i := true]> l) = {[Z.of_nat i]} ∪ set_bits l.
Proof.
  intros Hi. apply set_eq. intros z. rewrite elem_of_union, elem_of_singleton.
  rewrite !elem_of_set_bits. split.
  - intros (j & -> & Hj). destruct (decide (i = j)) as [->|]; [auto|].
    rewrite list_lookup_insert_ne in Hj by done. eauto.
  - intros [-> | (j & -> & Hj)]; [exists i; by rewrite list_lookup_insert_eq|].
    exists j. split; [done|]. destruct (decide (i = j)) as [->|].
    + by rewrite list_lookup_insert_eq.
    + by rewrite list_lookup_insert_ne.
Qed.

Lemma set_bits_insert_false l i :
  set_bits (<[i := false]> l) = set_bits l ∖ {[Z.of_nat i]}.
Proof.
  apply set_eq. intros z. rewrite elem_of_difference, elem_of_singleton.
  rewrite !elem_of_set_bits. split.
  - intros (j & -> & Hj). destruct (decide (i = j)) as [->|].
    + apply list_lookup_insert_Some in Hj as [(_ & ? & _) | [? _]]; done.
    + rewrite list_lookup_insert_ne in Hj by done. split; [eauto|lia].
  - intros [(j & -> & Hj) Hne]. exists j. split; [done|].
    by rewrite list_lookup_insert_ne by lia.
Qed.

Lemma set_bits_size l : (size (set_bits l) + num_clear l = length l)%nat.
Proof.
  induction l as [|b l IH] using rev_ind; [done|].
  assert (set_bits (l ++ [b]) =
    (if b then {[Z.of_nat (length l)]} else ∅) ∪ set_bits l) as ->.
  { apply set_eq. intros z. rewrite elem_of_union, !elem_of_set_bits.
    setoid_rewrite lookup_snoc_Some. split.
    - intros (i & -> & [[Hi Hl] | [-> ->]]); [right; eauto|left; set_solver].
    - intros [Hz | (i & -> & Hi)].
      + destruct b; [|set_solver]. exists (length l). split; [set_solver|auto].
      + exists i. split; [done|]. left. split; [by eapply lookup_lt_Some|done]. }
  assert (num_clear (l ++ [b]) = (num_clear l + if b then 0 else 1)%nat) as ->.
  { clear IH. induction l as [|c l IHl]; simpl; [destruct b; lia|]. rewrite IHl. lia. }
  rewrite length_app. simpl. destruct b.
  - rewrite size_union, size_singleton; [lia|].
    apply disjoint_singleton_l. intros (i & E & Hi)%elem_of_set_bits.
    apply lookup_lt_Some in Hi. lia.
  - rewrite union_empty_l_L. lia.
Qed.

(** ** The implementation *)
Module MemoryManager.
Section memory_manager.
Context {B : Type} `{BitMapSpec B}.

Record MemoryManager := mkMM { mNumPages : Z; bmap : B }.

(** [for (i = 0; i < mNumPages; ++i)] looking for a clear bit. *)
Fixpoint AllocPage_from (m : MemoryManager) (i : Z) (n : nat) :
    outcome (MemoryManager * Z) :=
  match n with
  | O => Ret (m, -1)
  | S n' =>
      t ← bm_Test (bmap m) i;
      if negb t then
        b ← bm_Mark (bmap m) i;
        Ret (mkMM (mNumPages m) b, i)
      else AllocPage_from m (i + 1) n'
  end.

Definition AllocPage (m : MemoryManager) : outcome (MemoryManager * Z) :=
  AllocPage_from m 0 (Z.to_nat (mNumPages m)).

Definition FreePage (m : MemoryManager) (physPageNum : Z) : outcome MemoryManager :=
  b ← bm_Clear (bmap m) physPageNum;
  Ret (mkMM (mNumPages m) b).

Definition PageIsAllocated (m : MemoryManager) (physPageNum : Z) : outcome bool :=
  bm_Test (bmap m) physPageNum.

Definition NumFreePages (m : MemoryManager) : outcome Z := bm_NumClear (bmap m).

(** The bit map was made for exactly [mNumPages] pages. *)
Definition wf (m : MemoryManager) : Prop :=
  bm_wf (bmap m) ∧ Z.of_nat (length (bm_bits (bmap m))) = mNumPages m.

Definition used (m : MemoryManager) : gset Z := set_bits (bm_bits (bmap m)).

(** The search loop of [AllocPage] finds what [BitMap::Find] finds. *)
Lemma AllocPage_from_spec m i n :
  wf m → (i + n = Z.to_nat (mNumPages m))%nat →
  match first_clear (drop i (bm_bits (bmap m))) with
  | None => AllocPage_from m (Z.of_nat i) n = Ret (m, -1)
  | Some j => ∃ b', AllocPage_from m (Z.of_nat i) n =
        Ret (mkMM (mNumPages m) b', Z.of_nat (i + j)) ∧ bm_wf b' ∧
      bm_bits b' = <[(i + j)%nat := true]> (bm_bits (bmap m))
  end.
Proof.
  intros [Hwf Hlen]. revert i. induction n as [|n IH]; intros i Hi; cbn [AllocPage_from].
  - by rewrite drop_ge by lia.
  - destruct (lookup_lt_is_Some_2 (bm_bits (bmap m)) i) as [v Hv]; [lia|].
    rewrite (bm_Test_spec _ i v Hwf Hv). cbn [mbind outcome_bind].
    rewrite (drop_S _ _ _ Hv). destruct v; cbn [negb first_clear].
    + specialize (IH (S i) ltac:(lia)).
      replace (Z.of_nat i + 1) with (Z.of_nat (S i)) by lia.
      destruct (first_clear (drop (S i) _)) as [j|]; csimpl; [|done].
      by replace (i + S j)%nat with (S i + j)%nat by lia.
    + destruct (bm_Mark_spec (bmap m) (Z.of_nat i) Hwf) as (b' & -> & Hwf' & Hb'); [lia|].
      rewrite Nat2Z.id in Hb'. exists b'. by rewrite Nat.add_0_r.
Qed.

Lemma AllocPage_spec m :
  wf m →
  match first_clear (bm_bits (bmap m)) with
  | None => AllocPage m = Ret (m, -1)
  | Some i => ∃ b', AllocPage m = Ret (mkMM (mNumPages m) b', Z.of_nat i) ∧ bm_wf b' ∧
      bm_bits b' = <[i := true]> (bm_bits (bmap m))
  end.
Proof. intros Hwf. by apply (AllocPage_from_spec m 0). Qed.

#[global] Instance MemoryManager_ops : FrameAllocOps MemoryManager := {|
  fa_total := mNumPages; fa_used := used; fa_AllocPage := AllocPage;
  fa_FreePage := FreePage; fa_PageIsAllocated := PageIsAllocated;
  fa_NumFreePages := NumFreePages |}.

Lemma AllocPage_cases m :
  wf m →
  (∃ m' i, AllocPage m = Ret (m', i) ∧ wf m' ∧ mNumPages m' = mNumPages m ∧
     0 ≤ i < mNumPages m ∧ i ∉ used m ∧ used m' = {[i]} ∪ used m ∧
     (∀ j, 0 ≤ j < i → j ∈ used m)) ∨
  (AllocPage m = Ret (m, -1) ∧ ∀ i, 0 ≤ i < mNumPages m → i ∈ used m).
Proof.
  intros Hwf. pose proof (AllocPage_spec m Hwf) as Ha. destruct Hwf as [Hb Hlen].
  unfold used. destruct (first_clear _) as [i|] eqn:E.
  - destruct Ha as (b' & Ha & Hb' & Hbits). left.
    pose proof (first_clear_lt _ _ E) as Hlt.
    apply first_clear_Some in E as [Hi Hbelow].
    exists (mkMM (mNumPages m) b'), (Z.of_nat i).
    split_and!; [done|split; csimpl; rewrite ?Hbits, ?length_insert; done|done|lia|lia| | |].
    + rewrite elem_of_set_bits_nat. congruence.
    + csimpl. rewrite Hbits. by apply set_bits_insert_true.
    + intros j Hj. rewrite <- (Z2Nat.id j) by lia. apply elem_of_set_bits_nat, Hbelow. lia.
  - right. split; [done|]. intros i Hi. rewrite <- (Z2Nat.id i) by lia.
    apply elem_of_set_bits_nat.
    pose proof (num_clear_insert_true (bm_bits (bmap m)) (Z.to_nat i)) as Hc.
    apply first_clear_None in E.
    destruct (lookup_lt_is_Some_2 (bm_bits (bmap m)) (Z.to_nat i)) as [[] Hv]; [lia|done|].
    specialize (Hc Hv). lia.
Qed.

Lemma FreePage_spec m i :
  wf m → 0 ≤ i < mNumPages m →
  ∃ m', FreePage m i = Ret m' ∧ wf m' ∧ mNumPages m' = mNumPages m ∧
    used m' = used m ∖ {[i]}.
Proof.
  intros [Hb Hlen] Hi.
  destruct (bm_Clear_spec (bmap m) i Hb) as (b' & E & Hb' & Hbits); [lia|].
  exists (mkMM (mNumPages m) b'). unfold FreePage, used. rewrite E.
  split_and!; [done| |done|].
  - split; csimpl; [done|]. by rewrite Hbits, length_insert.
  - csimpl. rewrite Hbits, set_bits_insert_false. by rewrite Z2Nat.id by lia.
Qed.

Lemma PageIsAllocated_spec m i :
  wf m → 0 ≤ i < mNumPages m →
  PageIsAllocated m i = Ret (bool_decide (i ∈ used m)).
Proof.
  intros [Hb Hlen] Hi. unfold PageIsAllocated, used.
  destruct (lookup_lt_is_Some_2 (bm_bits (bmap m)) (Z.to_nat i)) as [v Hv]; [lia|].
  pose proof (bm_Test_spec _ _ _ Hb Hv) as Ht. rewrite Z2Nat.id in Ht by lia.
  rewrite Ht. f_equal. rewrite <- (Z2Nat.id i) by lia.
  pose proof (elem_of_set_bits_nat (bm_bits (bmap m)) (Z.to_nat i)) as Hin.
  rewrite Hv in Hin. destruct v; symmetry;
    [apply bool_decide_true|apply bool_decide_false]; rewrite Hin; congruence.
Qed.

Lemma NumFreePages_spec m :
  wf m → NumFreePages m = Ret (mNumPages m - Z.of_nat (size (used m))).
Proof.
  intros [Hb Hlen]. unfold NumFreePages, used. rewrite bm_NumClear_spec by done.
  pose proof (set_bits_size (bm_bits (bmap m))). f_equal. lia.
Qed.

Lemma used_range m i : wf m → i ∈ used m → 0 ≤ i < mNumPages m.
Proof.
  intros [_ Hlen] (j & -> & Hj)%elem_of_set_bits. apply lookup_lt_Some in Hj. lia.
Qed.

#[global] Instance MemoryManager_spec : FrameAllocSpec MemoryManager := {|
  fa_wf := wf; fa_used_range := used_range; fa_AllocPage_spec := AllocPage_cases;
  fa_FreePage_spec := FreePage_spec; fa_PageIsAllocated_spec := PageIsAllocated_spec;
  fa_NumFreePages_spec := NumFreePages_spec |}.

End memory_manager.
Arguments MemoryManager : clear implicits.

(** The constructor, on the concrete bit map. *)
Definition MemoryManager_new (numPages : Z) (junk : list Z) :
    outcome (MemoryManager BitMap.BitMap) :=
  b ← BitMap.BitMap_new numPages junk;
  Ret (mkMM numPages b).

Lemma MemoryManager_new_spec numPages junk :
  0 ≤ numPages → Forall is_u32 junk →
  divRoundUp numPages BitMap.BitsInWord ≤ Z.of_nat (length junk) →
  ∃ m, MemoryManager_new numPages junk = Ret m ∧ wf m ∧ mNumPages m = numPages ∧
    used m = ∅.
Proof.
  intros Hn Hu Hl. destruct (BitMap.BitMap_new_spec _ _ Hn Hu Hl) as (b & E & Hb & Hbits).
  exists (mkMM numPages b). unfold MemoryManager_new, wf, used. rewrite E.
  split_and!; [done|done| |done|].
  - csimpl. rewrite Hbits, length_replicate. lia.
  - csimpl. rewrite Hbits. apply set_eq. intros z. split; [|set_solver].
    intros (i & _ & [? _]%lookup_replicate)%elem_of_set_bits. done.
Qed.


(** ** Properties *)

(** [AllocPage] hands out the lowest physical page that is not in use, never one that is,
    and -1 exactly when every page is; [NumFreePages] counts what is left, and freeing the
    page brings back the state before. *)
Theorem AllocPage_FreePage {B} `{BitMapSpec B} (m : MemoryManager B) :
  wf m →
  (∃ m' i, AllocPage m = Ret (m', i) ∧ wf m' ∧ 0 ≤ i < mNumPages m ∧ i ∉ used m ∧
     used m' = {[i]} ∪ used m ∧ (∀ j, 0 ≤ j < i → j ∈ used m) ∧
     (∃ n, NumFreePages m = Ret (n + 1) ∧ NumFreePages m' = Ret n) ∧
     ∃ m'', FreePage m' i = Ret m'' ∧ wf m'' ∧ used m'' = used m) ∨
  (AllocPage m = Ret (m, -1) ∧ NumFreePages m = Ret 0 ∧ ∀ i, 0 ≤ i < mNumPages m → i ∈ used m).
Proof.
  intros Hw. destruct (AllocPage_cases m Hw)
    as [(m' & i & E & Hw' & Hn & Hi & Hfree & Hu & Hlow) | [E Hall]].
  - left. exists m', i. destruct (FreePage_spec m' i Hw') as (m'' & Ef & Hw'' & _ & Hu''); [lia|].
    assert (used m'' = used m) as Hback.
    { rewrite Hu'', Hu. apply set_eq. intros x. rewrite elem_of_difference, elem_of_union, elem_of_singleton.
      split; [tauto|]. intros Hx. split; [tauto|]. by intros ->. }
    split_and!; try done; [lia|lia| |by exists m''].

    rewrite !NumFreePages_spec, Hn, Hu by done.
    exists (mNumPages m - Z.of_nat (size ({[i]} ∪ used m))). split; [|done].
    rewrite size_union, size_singleton by set_solver. f_equal. lia.
  - right. split_and!; [done| |done]. destruct Hw as [Hb Hlen] eqn:Hwe. clear Hwe.
    rewrite NumFreePages_spec by done. f_equal.
    pose proof (set_bits_size (bm_bits (bmap m))) as Hs. unfold used.
    pose proof (AllocPage_spec m Hw) as Ha.
    destruct (first_clear (bm_bits (bmap m))) as [j|] eqn:Ej; [|apply first_clear_None in Ej; lia].
    destruct Ha as (b' & Ha & _). rewrite Ha in E. injection E as _ E. lia.
Qed.

Lemma AllocPage_FreePage_witness :
  ∃ m m', MemoryManager_new 4 [7] = Ret m ∧ AllocPage m = Ret (m', 0) ∧ wf m'.
Proof.
  destruct (MemoryManager_new_spec 4 [7]) as (m & E & Hw & Hn & Hu).
  - lia.
  - repeat constructor; lia.
  - vm_compute. discriminate.
  - exists m. destruct (AllocPage_FreePage m Hw)
      as [(m' & i & Ea & Hw' & Hi & _ & _ & Hlow & _) | (_ & _ & Hall)].
    + exists m'. split; [exact E|]. split; [|exact Hw']. rewrite Ea. do 2 f_equal.
      destruct (decide (i = 0)) as [|Hne]; [done|]. specialize (Hlow 0 ltac:(lia)).
      rewrite Hu in Hlow. by apply not_elem_of_empty in Hlow.
    + specialize (Hall 0 ltac:(lia)). rewrite Hu in Hall. by apply not_elem_of_empty in Hall.
Defined.

End MemoryManager.
