(* ===== verification/Machine.v ===== *)
(** * machine/machine.h, machine/machine.cc, machine/translate.h, machine/translate.cc:
    the simulated hardware state, its registers, memory and address translation

    The page tables and the TLB are arrays of [TranslationEntry] shared by
    pointer between the hardware and the kernel ([machine->pageTable] is the
    [pageTable] of the running address space), so they live in a store
    [tables] and the hardware holds a reference. *)

From S2P Require Import Prelude CInt.

Open Scope Z_scope.

Module Machine.

Definition SectorSize : Z := 128.
Definition PageSize : Z := SectorSize.
Definition NumPhysPages : Z := 4.
Definition MemorySize : Z := NumPhysPages * PageSize.
Definition TLBSize : Z := 4.

Inductive ExceptionType :=
  | NoException | SyscallException | PageFaultException | ReadOnlyException
  | BusErrorException | AddressErrorException | OverflowException
  | IllegalInstrException | NumExceptionTypes.

#[global] Instance ExceptionType_eq_dec : EqDecision ExceptionType.
Proof. solve_decision. Defined.

Definition StackReg : Z := 29.
Definition RetAddrReg : Z := 31.
Definition NumGPRegs : Z := 32.
Definition HiReg : Z := 32.
Definition LoReg : Z := 33.
Definition PCReg : Z := 34.
Definition NextPCReg : Z := 35.
Definition PrevPCReg : Z := 36.
Definition LoadReg : Z := 37.
Definition LoadValueReg : Z := 38.
Definition BadVAddrReg : Z := 39.
Definition NumTotalRegs : Z := 40.

(** translate.h *)
Record TranslationEntry := mkTE {
  virtualPage : Z;
  physicalPage : Z;
  valid : bool;
  readOnly : bool;
  use : bool;
  dirty : bool;
}.

#[global] Instance TranslationEntry_eq_dec : EqDecision TranslationEntry.
Proof. solve_decision. Defined.

(** [mainMemory] holds bytes, [registers] 32-bit [int]s; [tlb] and [pageTable]
    refer to arrays in [tables]. *)
Record Machine := mkMachine {
  mainMemory : list Z;
  registers : list Z;
  tables : gmap nat (list TranslationEntry);
  tlb : option nat;
  pageTable : option nat;
  pageTableSize : Z;
  singleStep : bool;
  runUntilTime : Z;
}.

Definition with_memory (m : Machine) (mem : list Z) : Machine :=
  mkMachine mem (registers m) (tables m) (tlb m) (pageTable m) (pageTableSize m)
    (singleStep m) (runUntilTime m).
Definition with_registers (m : Machine) (r : list Z) : Machine :=
  mkMachine (mainMemory m) r (tables m) (tlb m) (pageTable m) (pageTableSize m)
    (singleStep m) (runUntilTime m).
Definition with_tables (m : Machine) (t : gmap nat (list TranslationEntry)) : Machine :=
  mkMachine (mainMemory m) (registers m) t (tlb m) (pageTable m) (pageTableSize m)
    (singleStep m) (runUntilTime m).

(** The machine is made with cleared registers and memory. [USE_TLB] builds pass
    the reference of the TLB array and the junk it holds. *)
Definition Machine_new (debug : bool) (use_tlb : option (nat * list TranslationEntry)) :
    Machine :=
  mkMachine (replicate (Z.to_nat MemorySize) 0) (replicate (Z.to_nat NumTotalRegs) 0)
    (match use_tlb with
     | Some (r, junk) =>
         {[ r := (λ e, mkTE (virtualPage e) (physicalPage e) false (readOnly e)
                       (use e) (dirty e)) <$> take (Z.to_nat TLBSize) junk ]}
     | None => ∅
     end)
    (fst <$> use_tlb) None 0 debug 0.

(** ** Registers *)

Definition ReadRegister (m : Machine) (num : Z) : outcome Z :=
  assert! (0 <=? num) && (num <? NumTotalRegs);;
  rd (registers m) num.

Definition WriteRegister (m : Machine) (num value : Z) : outcome Machine :=
  assert! (0 <=? num) && (num <? NumTotalRegs);;
  r ← wr (registers m) num value;
  Ret (with_registers m r).

(** [registers[i]] in code that indexes the array directly. *)
Definition reg (m : Machine) (i : Z) : outcome Z := rd (registers m) i.
Definition set_reg (m : Machine) (i v : Z) : outcome Machine :=
  r ← wr (registers m) i v; Ret (with_registers m r).

Definition DelayedLoad (m : Machine) (nextReg nextValue : Z) : outcome Machine :=
  target ← reg m LoadReg;
  value ← reg m LoadValueReg;
  m ← set_reg m target value;
  m ← set_reg m LoadReg nextReg;
  m ← set_reg m LoadValueReg nextValue;
  set_reg m 0 0.

(** ** Byte order *)

Section byte_order.
(** [HOST_IS_BIG_ENDIAN] *)
Variable big_endian : bool.

Definition WordToHost (word : Z) : Z :=
  if big_endian then
    let result := Z.land (Z.shiftr word 24) 0x000000ff in
    let result := Z.lor result (Z.land (Z.shiftr word 8) 0x0000ff00) in
    let result := Z.lor result (Z.land (u32 (Z.shiftl word 8)) 0x00ff0000) in
    Z.lor result (Z.land (u32 (Z.shiftl word 24)) 0xff000000)
  else word.

Definition ShortToHost (shortword : Z) : Z :=
  if big_endian then
    let result := Z.land (Z.shiftl shortword 8) 0xff00 in
    Z.lor result (Z.land (Z.shiftr shortword 8) 0x00ff)
  else shortword.

Definition WordToMachine (word : Z) : Z := WordToHost word.
Definition ShortToMachine (shortword : Z) : Z := ShortToHost shortword.

(** The host's own reading and writing of an unsigned value in memory. *)
Definition host_load (bs : list Z) : Z :=
  le_value (if big_endian then reverse bs else bs).
Definition host_store (n : nat) (v : Z) : list Z :=
  if big_endian then reverse (le_bytes n v) else le_bytes n v.

(** ** Address translation *)

(** The loop over the TLB: the first valid entry for the page. *)
Fixpoint tlb_search (t : list TranslationEntry) (vpn i : Z) (n : nat) :
    outcome (option Z) :=
  match n with
  | O => Ret None
  | S n' =>
      e ← rd t i;
      if valid e && (u32 (virtualPage e) =? vpn) then Ret (Some i)
      else tlb_search t vpn (i + 1) n'
  end.

(** The entry used for [vpn], as (table, index), or the exception. *)
Definition find_entry (m : Machine) (vpn : Z) :
    outcome (ExceptionType + nat * Z) :=
  match tlb m, pageTable m with
  | None, Some pt =>
      if pageTableSize m <=? vpn then Ret (inl AddressErrorException)
      else
        match tables m !! pt with
        | None => Undefined
        | Some t =>
            e ← rd t vpn;
            if negb (valid e) then Ret (inl PageFaultException)
            else Ret (inr (pt, vpn))
        end
  | Some tl, None =>
      match tables m !! tl with
      | None => Undefined
      | Some t =>
          found ← tlb_search t vpn 0 (Z.to_nat TLBSize);
          match found with
          | None => Ret (inl PageFaultException)
          | Some i => Ret (inr (tl, i))
          end
      end
  | _, _ => AssertFails
  end.

Definition touch (e : TranslationEntry) (writing : bool) : TranslationEntry :=
  mkTE (virtualPage e) (physicalPage e) (valid e) (readOnly e) true
    (if writing then true else dirty e).

Definition Translate (m : Machine) (virtAddr size : Z) (writing : bool) :
    outcome (Machine * (ExceptionType + Z)) :=
  if ((size =? 4) && negb (Z.land virtAddr 3 =? 0))
     || ((size =? 2) && negb (Z.land virtAddr 1 =? 0))
  then Ret (m, inl AddressErrorException)
  else
    let vpn := u32 virtAddr / PageSize in
    let offset := u32 virtAddr mod PageSize in
    found ← find_entry m vpn;
    match found with
    | inl exc => Ret (m, inl exc)
    | inr (tab, i) =>
        let t := default [] (tables m !! tab) in
        e ← rd t i;
        if readOnly e && writing then Ret (m, inl ReadOnlyException)
        else
          let pageFrame := u32 (physicalPage e) in
          if NumPhysPages <=? pageFrame then Ret (m, inl BusErrorException)
          else
            t' ← wr t i (touch e writing);
            let physAddr := s32 (pageFrame * PageSize + offset) in
            assert! (0 <=? physAddr) && (physAddr + size <=? MemorySize);;
            Ret (with_tables m (<[tab := t']> (tables m)), inr physAddr)
    end.

(** ** Kernel traps

    [control] says whether a call into the kernel comes back: the kernel may
    shut the machine down ([Interrupt::Halt]) or finish the running thread.
    The kernel state [K] and [ExceptionHandler] (userprog/exception.cc) are
    instantiated in [Exception.v]. *)
Inductive control := Resume | HaltMachine | FinishThread.

#[global] Instance control_eq_dec : EqDecision control.
Proof. solve_decision. Defined.

Inductive MachineStatus := IdleMode | SystemMode | UserMode.

#[global] Instance MachineStatus_eq_dec : EqDecision MachineStatus.
Proof. solve_decision. Defined.

Section traps.
Context {K : Type}.
Variable setStatus : MachineStatus → K → K.
Variable ExceptionHandler :
  ExceptionType → Machine → K → outcome (control * Machine * K).

Definition RaiseException (which : ExceptionType) (badVAddr : Z)
    (m : Machine) (k : K) : outcome (control * Machine * K) :=
  m ← set_reg m BadVAddrReg badVAddr;
  m ← DelayedLoad m 0 0;
  '(c, m, k) ← ExceptionHandler which m (setStatus SystemMode k);
  match c with
  | Resume => Ret (Resume, m, setStatus UserMode k)
  | _ => Ret (c, m, k)
  end.

(** The bytes of [mainMemory] from [pa] on. *)
Definition memory_bytes (m : Machine) (pa size : Z) : outcome (list Z) :=
  if in_range pa (Z.of_nat (length (mainMemory m)) - size + 1)
  then Ret (take (Z.to_nat size) (drop (Z.to_nat pa) (mainMemory m)))
  else Undefined.

Definition store_bytes (m : Machine) (pa : Z) (bs : list Z) : outcome Machine :=
  if in_range pa (Z.of_nat (length (mainMemory m)) - Z.of_nat (length bs) + 1)
  then Ret (with_memory m
    (take (Z.to_nat pa) (mainMemory m) ++ bs
     ++ drop (Z.to_nat pa + length bs) (mainMemory m)))
  else Undefined.

(** [ReadMem]: the value read, or [None] when the routine returns [FALSE]. *)
Definition ReadMem (m : Machine) (k : K) (addr size : Z) :
    outcome (control * Machine * K * option Z) :=
  '(m, r) ← Translate m addr size false;
  match r with
  | inl exception =>
      '(c, m, k) ← RaiseException exception addr m k;
      Ret (c, m, k, None)
  | inr pa =>
      if size =? 1 then
        bs ← memory_bytes m pa 1;
        Ret (Resume, m, k, Some (s8 (host_load bs)))
      else if size =? 2 then
        bs ← memory_bytes m pa 2;
        Ret (Resume, m, k, Some (ShortToHost (host_load bs)))
      else if size =? 4 then
        bs ← memory_bytes m pa 4;
        Ret (Resume, m, k, Some (s32 (WordToHost (host_load bs))))
      else AssertFails
  end.

(** [WriteMem]: [true] when it returns [TRUE]. *)
Definition WriteMem (m : Machine) (k : K) (addr size value : Z) :
    outcome (control * Machine * K * bool) :=
  '(m, r) ← Translate m addr size true;
  match r with
  | inl exception =>
      '(c, m, k) ← RaiseException exception addr m k;
      Ret (c, m, k, false)
  | inr pa =>
      if size =? 1 then
        m ← store_bytes m pa (host_store 1 (Z.land value 0xff));
        Ret (Resume, m, k, true)
      else if size =? 2 then
        m ← store_bytes m pa (host_store 2 (ShortToMachine (Z.land value 0xffff)));
        Ret (Resume, m, k, true)
      else if size =? 4 then
        m ← store_bytes m pa (host_store 4 (WordToMachine (u32 value)));
        Ret (Resume, m, k, true)
      else AssertFails
  end.

End traps.
End byte_order.

(** *** Byte order lemmas *)

Ltac bit_tests :=
  repeat match goal with
  | |- context [?a <=? ?b] =>
      first [rewrite (proj2 (Z.leb_le a b)) by lia | rewrite (proj2 (Z.leb_gt a b)) by lia]
  | |- context [?a <? ?b] =>
      first [rewrite (proj2 (Z.ltb_lt a b)) by lia | rewrite (proj2 (Z.ltb_ge a b)) by lia]
  end; cbn [andb orb]; rewrite ?andb_false_r, ?andb_true_r, ?orb_false_r.

Lemma swap_word bs :
  Forall is_byte bs → length bs = 4%nat →
  WordToHost true (le_value bs) = le_value (reverse bs).
Proof.
  intros Hb Hl. destruct bs as [|b0 [|b1 [|b2 [|b3 [|]]]]]; try done. clear Hl.
  assert (Forall is_byte (reverse [b0; b1; b2; b3])) as Hr by by apply Forall_reverse.
  apply u32_bytes_ext.
  - unfold WordToHost. repeat apply is_u32_lor; apply is_u32_land_r; done.
  - apply (le_value_bound _ Hr).
  - intros q r Hq Hbit. rewrite (testbit_le_value (reverse _)) by done.
    unfold WordToHost.
    change 0x000000ff with (Z.shiftl 255 0). change 0x0000ff00 with (Z.shiftl 255 8).
    change 0x00ff0000 with (Z.shiftl 255 16). change 0xff000000 with (Z.shiftl 255 24).
    rewrite !Z.lor_spec, !Z.land_spec, !testbit_mask8 by lia.
    rewrite !testbit_u32, !Z.shiftr_spec, !Z.shiftl_spec by lia.
    destruct q as [|[|[|[|]]]]; [..|lia]; bit_tests.
    + replace (8 * Z.of_nat 0 + r + 24) with (8 * Z.of_nat 3 + r) by lia.
      by rewrite testbit_le_value.
    + replace (8 * Z.of_nat 1 + r + 8) with (8 * Z.of_nat 2 + r) by lia.
      by rewrite testbit_le_value.
    + replace (8 * Z.of_nat 2 + r - 8) with (8 * Z.of_nat 1 + r) by lia.
      by rewrite testbit_le_value.
    + replace (8 * Z.of_nat 3 + r - 24) with (8 * Z.of_nat 0 + r) by lia.
      by rewrite testbit_le_value.
Qed.

Lemma swap_short bs :
  Forall is_byte bs → length bs = 2%nat →
  ShortToHost true (le_value bs) = le_value (reverse bs).
Proof.
  intros Hb Hl. destruct bs as [|b0 [|b1 [|]]]; try done. clear Hl.
  assert (Forall is_byte (reverse [b0; b1])) as Hr by by apply Forall_reverse.
  apply u32_bytes_ext.
  - unfold ShortToHost. apply is_u32_lor; apply is_u32_land_r; done.
  - pose proof (le_value_bound _ Hr). unfold is_u32. simpl in *. lia.
  - intros q r Hq Hbit. rewrite (testbit_le_value (reverse _)) by done.
    unfold ShortToHost.
    change 0xff00 with (Z.shiftl 255 8). change 0x00ff with (Z.shiftl 255 0).
    rewrite !Z.lor_spec, !Z.land_spec, !testbit_mask8 by lia.
    rewrite !Z.shiftr_spec, !Z.shiftl_spec by lia.
    destruct q as [|[|[|[|]]]]; [..|lia]; bit_tests.
    + replace (8 * Z.of_nat 0 + r + 8) with (8 * Z.of_nat 1 + r) by lia.
      by rewrite testbit_le_value.
    + replace (8 * Z.of_nat 1 + r - 8) with (8 * Z.of_nat 0 + r) by lia.
      by rewrite testbit_le_value.
    + change (reverse [b0; b1]) with [b1; b0]. simpl. by rewrite Z.testbit_0_l.
    + change (reverse [b0; b1]) with [b1; b0]. simpl. by rewrite Z.testbit_0_l.
Qed.

(** Whatever the host's byte order, memory is read and written little-endian. *)
Lemma load_word big bs :
  Forall is_byte bs → length bs = 4%nat →
  WordToHost big (host_load big bs) = le_value bs.
Proof.
  intros Hb Hl. destruct big; [|done]. unfold host_load.
  rewrite swap_word, reverse_involutive; [done|by apply Forall_reverse|].
  by rewrite length_reverse.
Qed.

Lemma load_short big bs :
  Forall is_byte bs → length bs = 2%nat →
  ShortToHost big (host_load big bs) = le_value bs.
Proof.
  intros Hb Hl. destruct big; [|done]. unfold host_load.
  rewrite swap_short, reverse_involutive; [done|by apply Forall_reverse|].
  by rewrite length_reverse.
Qed.

Lemma store_word big v :
  is_u32 v → host_store big 4 (WordToMachine big v) = le_bytes 4 v.
Proof.
  intros Hv. destruct big; [|done]. unfold host_store, WordToMachine.
  assert (v = le_value (le_bytes 4 v)) as Ev.
  { rewrite le_value_bytes. symmetry. by apply Z.mod_small. }
  rewrite Ev at 1. rewrite swap_word by (done || apply le_bytes_are_bytes).
  rewrite (le_bytes_value_len 4) by
    (try apply Forall_reverse; try apply le_bytes_are_bytes; by rewrite length_reverse).
  apply reverse_involutive.
Qed.

Lemma store_short big v :
  0 ≤ v < 2 ^ 16 → host_store big 2 (ShortToMachine big v) = le_bytes 2 v.
Proof.
  intros Hv. destruct big; [|done]. unfold host_store, ShortToMachine.
  assert (v = le_value (le_bytes 2 v)) as Ev.
  { rewrite le_value_bytes. symmetry. by apply Z.mod_small. }
  rewrite Ev at 1. rewrite swap_short by (done || apply le_bytes_are_bytes).
  rewrite (le_bytes_value_len 2) by
    (try apply Forall_reverse; try apply le_bytes_are_bytes; by rewrite length_reverse).
  apply reverse_involutive.
Qed.
(** *** Address translation *)

(** Exactly one of the TLB and the page table is in use, and the array is as
    long as the hardware believes. *)
Definition mmu_wf (m : Machine) : Prop :=
  (∃ tab t, tlb m = None ∧ pageTable m = Some tab ∧ tables m !! tab = Some t ∧
     pageTableSize m = Z.of_nat (length t)) ∨
  (∃ tab t, tlb m = Some tab ∧ pageTable m = None ∧ tables m !! tab = Some t ∧
     Z.of_nat (length t) = TLBSize).

(** Entry [i] of table [tab] translates the virtual page [vpn]. *)
Record translates (m : Machine) (vpn : Z) (tab : nat) (i : Z) (e : TranslationEntry) :
    Prop := {
  tr_lookup : ∃ t, tables m !! tab = Some t ∧ rd t i = Ret e;
  tr_valid : valid e = true;
  tr_page : match tlb m with
            | None => pageTable m = Some tab ∧ i = vpn
            | Some tl => tl = tab ∧ u32 (virtualPage e) = vpn
            end;
}.

Lemma tlb_search_spec t vpn i n :
  0 ≤ i → i + Z.of_nat n ≤ Z.of_nat (length t) →
  ∃ r, tlb_search t vpn i n = Ret r ∧
    match r with
    | Some j => ∃ e, rd t j = Ret e ∧ valid e = true ∧ u32 (virtualPage e) = vpn
    | None => ∀ j e, i ≤ j < i + Z.of_nat n → rd t j = Ret e →
        valid e = false ∨ u32 (virtualPage e) ≠ vpn
    end.
Proof.
  revert i. induction n as [|n IH]; intros i Hi Hn; cbn [tlb_search].
  - exists None. split; [done|]. intros; lia.
  - destruct (rd_in_range t i) as [e He]; [lia|]. rewrite He. cbn [mbind outcome_bind].
    destruct (valid e && _) eqn:E.
    + apply andb_true_iff in E as [Hv Hp%Z.eqb_eq].
      exists (Some i). split; [done|]. exists e. done.
    + destruct (IH (i + 1)) as (r & -> & Hr); [lia..|]. exists r. split; [done|].
      destruct r as [j|]; [done|]. intros j e' Hj He'.
      destruct (decide (j = i)) as [->|]; [|apply (Hr j); [lia|done]].
      rewrite He in He'. injection He' as <-.
      apply andb_false_iff in E as [-> | E%Z.eqb_neq]; auto.
Qed.

Lemma find_entry_spec m vpn :
  mmu_wf m → 0 ≤ vpn →
  ∃ r, find_entry m vpn = Ret r ∧
    match r with
    | inl e => e = AddressErrorException ∨ e = PageFaultException
    | inr (tab, i) => ∃ e, translates m vpn tab i e
    end.
Proof.
  intros [(tab & t & Ht & Hp & Hl & Hs) | (tab & t & Ht & Hp & Hl & Hs)] Hv;
    unfold find_entry; rewrite Ht, Hp, ?Hl.
  - destruct (Z.leb_spec (pageTableSize m) vpn); [eexists; split; [done|by left]|].
    destruct (rd_in_range t vpn) as [e He]; [lia|]. rewrite He. csimpl.
    destruct (valid e) eqn:Hval; csimpl; [|eexists; split; [done|by right]].
    eexists. split; [done|]. exists e. split; [eauto|done|]. by rewrite Ht.
  - destruct (tlb_search_spec t vpn 0 (Z.to_nat TLBSize)) as (r & -> & Hr); [done|by rewrite Hs|].
    csimpl. destruct r as [j|]; [|eexists; split; [done|by right]]. destruct Hr as (e & He & Hval & Hvp).
    eexists. split; [done|]. exists e. split; [eauto|done|]. by rewrite Ht.
Qed.

(** The machine after the hardware has recorded an access through an entry. *)
Definition touched (m : Machine) (tab : nat) (i : Z) (e : TranslationEntry)
    (writing : bool) : Machine :=
  with_tables m (<[tab := <[Z.to_nat i := touch e writing]> (default [] (tables m !! tab))]>
    (tables m)).

Lemma aligned_fits size va :
  (size = 1 ∨ size = 2 ∨ size = 4) →
  ((size =? 4) && negb (Z.land va 3 =? 0)) || ((size =? 2) && negb (Z.land va 1 =? 0))
    = false →
  u32 va mod PageSize + size ≤ PageSize.
Proof.
  intros Hs Hal. unfold PageSize, SectorSize, u32.
  apply orb_false_iff in Hal as [H4 H2]. destruct Hs as [-> | [-> | ->]]; csimpl in *.
  - Z.div_mod_to_equations. lia.
  - apply negb_false_iff, Z.eqb_eq in H2. change 1 with (Z.ones 1) in H2.
    rewrite Z.land_ones in H2 by lia. Z.div_mod_to_equations. lia.
  - apply negb_false_iff, Z.eqb_eq in H4. change 3 with (Z.ones 2) in H4.
    rewrite Z.land_ones in H4 by lia. Z.div_mod_to_equations. lia.
Qed.

Definition access_size (size : Z) : Prop := size = 1 ∨ size = 2 ∨ size = 4.

(** What [Translate] does, on every path. *)
Lemma Translate_cases m va size writing :
  mmu_wf m → access_size size →
  (∃ e, Translate m va size writing = Ret (m, inl e) ∧
     e ∈ [AddressErrorException; PageFaultException; ReadOnlyException;
          BusErrorException]) ∨
  (∃ tab i e pa, Translate m va size writing =
       Ret (touched m tab i e writing, inr pa) ∧
     translates m (u32 va / PageSize) tab i e ∧
     readOnly e && writing = false ∧
     pa = u32 (physicalPage e) * PageSize + u32 va mod PageSize ∧
     0 ≤ pa ∧ pa + size ≤ MemorySize).
Proof.
  intros Hm Hs. unfold Translate. destruct (_ || _) eqn:Hal.
  { left. eexists. split; [done|]. set_solver. }
  pose proof (aligned_fits size va Hs Hal) as Hfit.
  pose proof (u32_range va) as Hva. unfold is_u32 in Hva.
  assert (0 ≤ u32 va / PageSize) by (apply Z.div_pos; [lia|done]).
  assert (0 ≤ u32 va mod PageSize < PageSize) by by apply Z.mod_pos_bound.
  destruct (find_entry_spec m (u32 va / PageSize) Hm) as (r & -> & Hr); [done|].
  cbn [mbind outcome_bind]. destruct r as [exc | [tab i]].
  { left. eexists. split; [done|]. destruct Hr as [-> | ->]; set_solver. }
  destruct Hr as (e & Htr). pose proof Htr as [(t & Ht & He) _ _].
  rewrite Ht. cbn [from_option id]. rewrite He. cbn [mbind outcome_bind].
  destruct (readOnly e && writing) eqn:Hro.
  { left. eexists. split; [done|]. set_solver. }
  destruct (Z.leb_spec NumPhysPages (u32 (physicalPage e))) as [|Hfr].
  { left. eexists. split; [done|]. set_solver. }
  right. apply rd_Ret in He as [Hi He]. rewrite wr_ok by done. cbn [mbind outcome_bind].
  pose proof (u32_range (physicalPage e)) as Hpp. unfold is_u32 in Hpp.
  unfold MemorySize, NumPhysPages, PageSize, SectorSize in *.
  destruct Hs as [-> | [-> | ->]];
  (rewrite s32_small by (unfold is_s32; lia);
   rewrite (proj2 (Z.leb_le _ _)), (proj2 (Z.leb_le _ _)) by lia; csimpl;
   eexists _, _, _, _; split;
     [unfold touched; by rewrite Ht|split_and!; try done; lia]).
Qed.

(** *** Reading and writing memory *)

Definition memory_wf (m : Machine) : Prop :=
  Z.of_nat (length (mainMemory m)) = MemorySize ∧ Forall is_byte (mainMemory m).

Lemma memory_bytes_ok m pa size :
  memory_wf m → 0 ≤ pa → 0 ≤ size → pa + size ≤ MemorySize →
  ∃ bs, memory_bytes m pa size = Ret bs ∧ length bs = Z.to_nat size ∧ Forall is_byte bs.
Proof.
  intros [Hl Hb] Hpa Hsz Hle. unfold memory_bytes. rewrite in_range_true by lia.
  eexists. split; [done|]. split.
  - rewrite length_take, length_drop. lia.
  - by apply Forall_take, Forall_drop.
Qed.

Lemma store_bytes_ok m pa bs :
  memory_wf m → Forall is_byte bs → 0 ≤ pa → pa + Z.of_nat (length bs) ≤ MemorySize →
  ∃ m', store_bytes m pa bs = Ret m' ∧ memory_wf m'.
Proof.
  intros [Hl Hb] Hbs Hpa Hle. unfold store_bytes. rewrite in_range_true by lia.
  eexists. split; [done|]. split; csimpl.
  - rewrite !length_app, length_take, length_drop. lia.
  - repeat apply Forall_app_2; [by apply Forall_take|done|by apply Forall_drop].
Qed.

Lemma store_bytes_load m pa bs m' :
  store_bytes m pa bs = Ret m' → memory_bytes m' pa (Z.of_nat (length bs)) = Ret bs.
Proof.
  unfold store_bytes. destruct (in_range _ _) eqn:E; [|done]. intros [= <-].
  apply in_range_spec in E. unfold memory_bytes. csimpl.
  rewrite !length_app, length_take, length_drop.
  rewrite in_range_true by lia. f_equal.
  rewrite drop_app_length' by (rewrite length_take; lia).
  by rewrite take_app_length' by lia.
Qed.

(** A store leaves the bytes outside it alone. *)
Lemma store_bytes_lookup_ne m pa bs m' j :
  store_bytes m pa bs = Ret m' →
  (Z.of_nat j < pa ∨ pa + Z.of_nat (length bs) ≤ Z.of_nat j) →
  mainMemory m' !! j = mainMemory m !! j.
Proof.
  unfold store_bytes. destruct (in_range _ _) eqn:E; [|done]. intros [= <-].
  apply in_range_spec in E. csimpl. intros [Hj | Hj].
  - rewrite lookup_app_l by (rewrite length_take; lia). apply lookup_take_lt. lia.
  - rewrite lookup_app_r by (rewrite length_take; lia).
    rewrite length_take, lookup_app_r by lia. rewrite lookup_drop. f_equal. lia.
Qed.

Lemma store_bytes_tables m pa bs m' :
  store_bytes m pa bs = Ret m' → m' = with_memory m (mainMemory m').
Proof. unfold store_bytes. destruct (in_range _ _); [|done]. by intros [= <-]. Qed.

(** Recording an access does not change what translates what. *)
Lemma tlb_search_insert t i e e' vpn j n :
  rd t i = Ret e → valid e' = valid e → virtualPage e' = virtualPage e →
  tlb_search (<[Z.to_nat i := e']> t) vpn j n = tlb_search t vpn j n.
Proof.
  intros [Hi He]%rd_Ret Hv Hp. revert j.
  induction n as [|n IH]; intros j; cbn [tlb_search]; [done|].
  destruct (decide (i = j)) as [->|Hne].
  - assert (rd t j = Ret e) as -> by by apply rd_Ret.
    assert (rd (<[Z.to_nat j := e']> t) j = Ret e') as ->.
    { apply rd_Ret. rewrite length_insert. split; [done|].
      apply list_lookup_insert_eq. lia. }
    cbn [mbind outcome_bind]. by rewrite Hv, Hp, IH.
  - rewrite (rd_wr_ne t i j e') by (by rewrite ?wr_ok). destruct (rd t j); [|done..].
    cbn [mbind outcome_bind]. by rewrite IH.
Qed.

Lemma translates_touched m vpn tab i e w :
  mmu_wf m → translates m vpn tab i e →
  mmu_wf (touched m tab i e w) ∧
  ∀ vpn', find_entry (touched m tab i e w) vpn' = find_entry m vpn'.
Proof.
  intros Hm [(t & Ht & He) Hval Hpage]. unfold touched. rewrite Ht. csimpl.
  pose proof (proj1 (rd_Ret _ _ _) He) as [Hi Hlk].
  split.
  - destruct Hm as [(tab' & t' & H1 & H2 & H3 & H4) | (tab' & t' & H1 & H2 & H3 & H4)];
      [left|right]; exists tab'; rewrite H1 in Hpage; csimpl.
    + destruct Hpage as [Hpt _]. assert (tab' = tab) as -> by congruence.
      assert (t' = t) as -> by congruence.
      eexists. rewrite lookup_insert_eq. split_and!; try done. by rewrite length_insert.
    + destruct Hpage as [-> _]. assert (t' = t) as -> by congruence.
      eexists. rewrite lookup_insert_eq. split_and!; try done. by rewrite length_insert.
  - intros vpn'. unfold find_entry.
    cbn [tlb pageTable tables pageTableSize with_tables].
    destruct (tlb m) as [tl|], (pageTable m) as [pt|]; try done.
    + destruct Hpage as [-> _]. rewrite lookup_insert_eq, Ht. cbv iota.
      by rewrite (tlb_search_insert t i e).
    + destruct Hpage as [[= ->] _]. rewrite lookup_insert_eq, Ht. cbv iota.
      destruct (pageTableSize m <=? vpn'); [done|].
      destruct (decide (i = vpn')) as [->|Hne].
      * rewrite He. assert (rd (<[Z.to_nat vpn' := touch e w]> t) vpn' = Ret (touch e w)) as ->.
        { apply rd_Ret. rewrite length_insert. split; [done|].
          apply list_lookup_insert_eq. lia. }
        done.
      * by rewrite (rd_wr_ne t i vpn' (touch e w)) by (by rewrite ?wr_ok).
Qed.

(** The access the hardware makes through a given entry. *)
Lemma Translate_hit m va size writing tab i e :
  access_size size →
  ((size =? 4) && negb (Z.land va 3 =? 0)) || ((size =? 2) && negb (Z.land va 1 =? 0)) = false →
  find_entry m (u32 va / PageSize) = Ret (inr (tab, i)) →
  rd (default [] (tables m !! tab)) i = Ret e →
  readOnly e && writing = false → u32 (physicalPage e) < NumPhysPages →
  Translate m va size writing =
    Ret (touched m tab i e writing, inr (u32 (physicalPage e) * PageSize + u32 va mod PageSize)).
Proof.
  intros Hs Hal Hf He Hro Hpp. unfold Translate. rewrite Hal, Hf. cbn [mbind outcome_bind].
  rewrite He. cbn [mbind outcome_bind]. rewrite Hro.
  destruct (Z.leb_spec NumPhysPages (u32 (physicalPage e))); [lia|].
  rewrite wr_ok by (by apply rd_Ret in He as [? _]). cbn [mbind outcome_bind].
  pose proof (aligned_fits size va Hs Hal) as Hfit.
  pose proof (u32_range (physicalPage e)) as Hu. unfold is_u32 in Hu.
  assert (0 ≤ u32 va mod PageSize < PageSize) by by apply Z.mod_pos_bound.
  unfold MemorySize, NumPhysPages, PageSize, SectorSize in *.
  rewrite s32_small by (unfold is_s32; unfold access_size in Hs; lia).
  rewrite (proj2 (Z.leb_le _ _)), (proj2 (Z.leb_le _ _)) by (unfold access_size in Hs; lia).
  done.
Qed.

Lemma Translate_inv m va size writing m' pa :
  mmu_wf m → access_size size →
  Translate m va size writing = Ret (m', inr pa) →
  ((size =? 4) && negb (Z.land va 3 =? 0)) || ((size =? 2) && negb (Z.land va 1 =? 0)) = false ∧
  ∃ tab i e,
    find_entry m (u32 va / PageSize) = Ret (inr (tab, i)) ∧
    translates m (u32 va / PageSize) tab i e ∧
    rd (default [] (tables m !! tab)) i = Ret e ∧
    readOnly e && writing = false ∧ u32 (physicalPage e) < NumPhysPages ∧
    m' = touched m tab i e writing ∧
    pa = u32 (physicalPage e) * PageSize + u32 va mod PageSize ∧
    0 ≤ pa ∧ pa + size ≤ MemorySize.
Proof.
  intros Hm Hs Ht. destruct (_ || _) eqn:Hal.
  { unfold Translate in Ht. by rewrite Hal in Ht. }
  split; [done|].
  assert (0 ≤ u32 va / PageSize) as Hvpn.
  { apply Z.div_pos; [apply u32_range|done]. }
  destruct (find_entry_spec m (u32 va / PageSize) Hm Hvpn) as (r & Hf & Hr).
  destruct r as [exc | [tab i]].
  { unfold Translate in Ht. by rewrite Hal, Hf in Ht. }
  destruct Hr as (e & Htr). pose proof Htr as [(t & Hlt & He) _ _].
  assert (rd (default [] (tables m !! tab)) i = Ret e) as He' by by rewrite Hlt.
  assert (readOnly e && writing = false ∧ u32 (physicalPage e) < NumPhysPages) as [Hro Hpp].
  { unfold Translate in Ht. rewrite Hal, Hf in Ht. cbn [mbind outcome_bind] in Ht.
    rewrite He' in Ht. cbn [mbind outcome_bind] in Ht.
    destruct (readOnly e && writing); [done|].
    destruct (Z.leb_spec NumPhysPages (u32 (physicalPage e))); done. }
  pose proof (Translate_cases m va size writing Hm Hs) as
    [(? & E & _) | (? & ? & ? & ? & E & _ & _ & _ & Hlo & Hhi)];
    rewrite E in Ht; [done|]. injection Ht as <- <-.
  rewrite (Translate_hit m va size writing tab i e) in E by done.
  apply Ret_pair_inj in E as [E1 [= E2]]. exists tab, i, e. rewrite <- E1, <- E2 in *.
  by split_and!.
Qed.

(** *** What the memory access routines guarantee *)

(** The value [ReadMem] returns for a value stored at the same width: bytes
    are sign extended, short words are not. *)
Definition loaded (size value : Z) : Z :=
  if size =? 1 then s8 value else if size =? 2 then value mod 2 ^ 16 else s32 value.

(** The bytes stored for a value, whatever the host. *)
Definition stored (size value : Z) : list Z := le_bytes (Z.to_nat size) value.

Lemma u32_le_bytes v : le_bytes 4 (u32 v) = le_bytes 4 v.
Proof.
  rewrite <- (le_bytes_value_len 4 (le_bytes 4 v))
    by (apply le_bytes_are_bytes || apply le_bytes_length).
  by rewrite le_value_bytes.
Qed.

Lemma le_bytes_mod n v : le_bytes n (v mod 2 ^ (8 * Z.of_nat n)) = le_bytes n v.
Proof.
  rewrite <- le_value_bytes. apply le_bytes_value_len;
    [apply le_bytes_are_bytes|apply le_bytes_length].
Qed.

Section memory_access.
Context {K : Type} (big : bool) (setStatus : MachineStatus → K → K).
Context (handler : ExceptionType → Machine → K → outcome (control * Machine * K)).
Implicit Types (m : Machine) (k : K).

Local Abbreviation ReadMem := (ReadMem big setStatus handler).
Local Abbreviation WriteMem := (WriteMem big setStatus handler).

(** A store on an address that translates writes [stored] at [pa]. *)
Lemma WriteMem_hit m k va size v m1 pa :
  access_size size → Translate m va size true = Ret (m1, inr pa) →
  WriteMem m k va size v =
    (m2 ← store_bytes m1 pa (stored size v); Ret (Resume, m2, k, true)).
Proof.
  intros Hs Ht. unfold Machine.WriteMem. rewrite Ht. cbn [mbind outcome_bind].
  destruct Hs as [-> | [-> | ->]]; cbn [Z.eqb Pos.eqb]; unfold stored.
  - f_equal. f_equal. change 0xff with (Z.ones 8). rewrite Z.land_ones by lia.
    change (Z.to_nat 1) with 1%nat. rewrite <- (le_bytes_mod 1 v).
    unfold host_store. change (8 * Z.of_nat 1) with 8. destruct big; [|done].
    cbn [le_bytes]. by rewrite reverse_singleton.
  - f_equal. f_equal. change 0xffff with (Z.ones 16). rewrite Z.land_ones by lia.
    rewrite store_short by (apply Z.mod_pos_bound; lia). by apply (le_bytes_mod 2).
  - f_equal. f_equal. rewrite store_word by apply u32_range. apply u32_le_bytes.
Qed.

Lemma ReadMem_hit m k va size m1 pa bs :
  access_size size → Translate m va size false = Ret (m1, inr pa) →
  memory_bytes m1 pa size = Ret bs → Forall is_byte bs → length bs = Z.to_nat size →
  ReadMem m k va size = Ret (Resume, m1, k, Some (loaded size (le_value bs))).
Proof.
  intros Hs Ht Hb Hbytes Hlen. unfold Machine.ReadMem. rewrite Ht. cbn [mbind outcome_bind].
  destruct Hs as [-> | [-> | ->]]; cbn [Z.eqb Pos.eqb]; rewrite Hb; cbn [mbind outcome_bind];
    unfold loaded; cbn [Z.eqb Pos.eqb].
  - destruct bs as [|b [|]]; try done. unfold host_load. destruct big; [|done].
    by rewrite reverse_singleton.
  - rewrite load_short by done. rewrite Z.mod_small; [done|].
    pose proof (le_value_bound _ Hbytes) as Hv. by rewrite Hlen in Hv.
  - by rewrite load_word by done.
Qed.

Lemma WriteMem_true_inv m k va size v c m' k' :
  mmu_wf m → access_size size →
  WriteMem m k va size v = Ret (c, m', k', true) →
  ∃ m1 pa, Translate m va size true = Ret (m1, inr pa) ∧ c = Resume ∧ k' = k ∧
    store_bytes m1 pa (stored size v) = Ret m'.
Proof.
  intros Hm Hs Hw. destruct (Translate m va size true) as [[m1 [exc | pa]]| | |] eqn:Ht.
  - unfold Machine.WriteMem in Hw. rewrite Ht in Hw. cbn [mbind outcome_bind] in Hw.
    destruct (RaiseException _ _ _ _ _ _) as [[[? ?] ?]| | |]; done.
  - rewrite (WriteMem_hit m k va size v m1 pa Hs Ht) in Hw. inv_ret. eauto 10.
  - unfold Machine.WriteMem in Hw. by rewrite Ht in Hw.
  - unfold Machine.WriteMem in Hw. by rewrite Ht in Hw.
  - unfold Machine.WriteMem in Hw. by rewrite Ht in Hw.
Qed.

Lemma stored_length size v : access_size size → Z.of_nat (length (stored size v)) = size.
Proof. intros [-> | [-> | ->]]; done. Qed.

Lemma loaded_stored size v :
  access_size size → loaded size (le_value (stored size v)) = loaded size v.
Proof.
  intros Hs. unfold stored. rewrite le_value_bytes. unfold loaded.
  destruct Hs as [-> | [-> | ->]]; cbn [Z.eqb Pos.eqb].
  - unfold s8. change (8 * Z.of_nat (Z.to_nat 1)) with 8.
    rewrite Zplus_mod_idemp_l. done.
  - change (8 * Z.of_nat (Z.to_nat 2)) with 16. apply Z.mod_mod. lia.
  - change (2 ^ (8 * Z.of_nat (Z.to_nat 4))) with (2 ^ 32). fold (u32 v). apply s32_u32.
Qed.

(** Translation looks at the registers' machine only through its tables. *)
Lemma find_entry_with_memory m mem vpn :
  find_entry (with_memory m mem) vpn = find_entry m vpn.
Proof. done. Qed.

Lemma load_after_store m k va size v m' k' :
  mmu_wf m → access_size size →
  WriteMem m k va size v = Ret (Resume, m', k', true) →
  ∃ m'', ReadMem m' k' va size = Ret (Resume, m'', k', Some (loaded size v)) ∧
    mainMemory m'' = mainMemory m'.
Proof.
  intros Hm Hs Hw.
  apply WriteMem_true_inv in Hw as (m1 & pa & Ht & _ & -> & Hst); [|done..].
  apply Translate_inv in Ht as (Hal & tab & i & e & Hf & Htr & He & Hro & Hpp & -> & Epa & Hlo & Hhi);
    [|done..].
  pose proof (translates_touched m _ tab i e true Hm Htr) as [_ Hfind].
  pose proof (store_bytes_tables _ _ _ _ Hst) as Em'.
  pose proof (store_bytes_load _ _ _ _ Hst) as Hload. rewrite stored_length in Hload by done.
  assert (Translate m' va size false = Ret (touched m' tab i (touch e true) false, inr pa)) as Ht.
  { rewrite Epa. apply (Translate_hit m' va size false tab i (touch e true)); try done.
    - rewrite Em'. by rewrite find_entry_with_memory, Hfind.
    - rewrite Em'. unfold touched. cbn [tables with_memory with_tables].
      rewrite lookup_insert_eq. cbn [default from_option id].
      apply rd_Ret. apply rd_Ret in He as [Hi He]. rewrite length_insert.
      split; [done|]. apply list_lookup_insert_eq. lia.
    - apply andb_false_r. }
  eexists. rewrite (ReadMem_hit m' k va size _ pa (stored size v) Hs Ht).
  - rewrite loaded_stored by done. done.
  - done.
  - apply le_bytes_are_bytes.
  - apply le_bytes_length.
Qed.

(** Byte [j] of memory belongs to a page the running program may write. *)
Definition writable_byte m (j : nat) : Prop :=
  ∃ vpn tab i e, translates m vpn tab i e ∧ readOnly e = false ∧
    Z.of_nat j / PageSize = u32 (physicalPage e).

Lemma store_changes_only_writable m k va size v m' k' j :
  mmu_wf m → access_size size →
  WriteMem m k va size v = Ret (Resume, m', k', true) →
  mainMemory m' !! j ≠ mainMemory m !! j → writable_byte m j.
Proof.
  intros Hm Hs Hw Hj.
  apply WriteMem_true_inv in Hw as (m1 & pa & Ht & _ & -> & Hst); [|done..].
  apply Translate_inv in Ht as (Hal & tab & i & e & Hf & Htr & He & Hro & Hpp & -> & Epa & Hlo & Hhi);
    [|done..].
  exists (u32 va / PageSize), tab, i, e. split; [done|].
  split; [by rewrite andb_true_r in Hro|].
  destruct (decide (Z.of_nat j < pa ∨ pa + size ≤ Z.of_nat j)) as [Hout | Hin].
  { exfalso. apply Hj. rewrite (store_bytes_lookup_ne _ _ _ _ j Hst); [done|].
    rewrite stored_length by done. done. }
  pose proof (aligned_fits size va Hs Hal) as Hfit.
  assert (0 ≤ u32 va mod PageSize < PageSize) by by apply Z.mod_pos_bound.
  symmetry. apply (Z.div_unique _ _ _ (Z.of_nat j - u32 (physicalPage e) * PageSize));
    lia.
Qed.
End memory_access.

(** a value stored through [WriteMem] is the value [ReadMem] gives back at
    the same address, size and address space: sign-extended bytes, zero-extended
    short words, full words, on a host of either byte order; the read itself
    raises no exception and changes no byte. *)
Theorem store_then_load {K} big (setStatus : MachineStatus → K → K) handler m k va size v m' k' :
  mmu_wf m → access_size size →
  WriteMem big setStatus handler m k va size v = Ret (Resume, m', k', true) →
  ∃ m'', ReadMem big setStatus handler m' k' va size = Ret (Resume, m'', k', Some (loaded size v)) ∧
    mainMemory m'' = mainMemory m'.
Proof. apply load_after_store. Qed.

(** C13: memory protection: a user store that succeeds changes no byte of
    physical memory outside the frames that a valid entry of the current table,
    not marked read only, maps. *)
Theorem store_protection {K} big (setStatus : MachineStatus → K → K) handler m k va size v m' k' j :
  mmu_wf m → access_size size →
  WriteMem big setStatus handler m k va size v = Ret (Resume, m', k', true) →
  mainMemory m' !! j ≠ mainMemory m !! j → writable_byte m j.
Proof. apply store_changes_only_writable. Qed.

(** A one-page address space on frame 2. *)
Definition example_machine : Machine :=
  mkMachine (replicate 512 0) (replicate 40 0) {[ 0%nat := [mkTE 0 2 true false false false] ]}
    None (Some 0%nat) 1 false 0.

Definition no_handler (e : ExceptionType) (m : Machine) (k : unit) :
    outcome (control * Machine * unit) := AssertFails.

Lemma example_machine_mmu : mmu_wf example_machine.
Proof. left. exists 0%nat, [mkTE 0 2 true false false false]. done. Qed.

Definition example_stored : Machine :=
  match WriteMem true (λ _ k, k) no_handler example_machine () 8 4 (-2) with
  | Ret (_, m', _, _) => m'
  | _ => example_machine
  end.

Lemma store_then_load_witness :
  ∃ m'', ReadMem true (λ _ k, k) no_handler example_stored () 8 4
    = Ret (Resume, m'', (), Some (-2)) ∧ mainMemory m'' = mainMemory example_stored.
Proof.
  apply (store_then_load true (λ _ k, k) no_handler example_machine () 8 4 (-2)).
  - apply example_machine_mmu.
  - by right; right.
  - vm_compute. reflexivity.
Defined.

Lemma store_protection_witness : writable_byte example_machine 264.
Proof.
  apply (store_protection true (λ _ k, k) no_handler example_machine () 8 4 (-2)
    example_stored () 264).
  - apply example_machine_mmu.
  - by right; right.
  - vm_compute. reflexivity.
  - vm_compute. discriminate.
Defined.
End Machine.
