(* ===== verification/Mips.v ===== *)
(** * machine/mipssim.cc, machine/mipssim.h: the MIPS processor simulation

    [Decode] splits an instruction word with the tables of mipssim.h,
    [OneInstruction] fetches, decodes and executes one instruction, with its
    delayed loads, its branch delay slot and its traps into the kernel, and
    [Run] repeats it.  The [switch] of [OneInstruction] is one function per
    run of neighbouring cases ([exec_arith] ... [exec_store_part]).  A group
    gives either the machine after the instruction with what remains to be
    installed ([Done]), or the state a trap left behind ([Trap]), for which
    [OneInstruction] returns at once. *)

From S2P Require Import Prelude CInt Machine.
From stdpp Require Import strings.
From Stdlib Require Import Ascii.

Import Machine.
Open Scope Z_scope.

Module Mips.

Inductive OpCode :=
  | OP_ADD | OP_ADDI | OP_ADDIU | OP_ADDU | OP_AND | OP_ANDI | OP_BEQ | OP_BGEZ
  | OP_BGEZAL | OP_BGTZ | OP_BLEZ | OP_BLTZ | OP_BLTZAL | OP_BNE | OP_DIV | OP_DIVU
  | OP_J | OP_JAL | OP_JALR | OP_JR | OP_LB | OP_LBU | OP_LH | OP_LHU | OP_LUI
  | OP_LW | OP_LWL | OP_LWR | OP_MFHI | OP_MFLO | OP_MTHI | OP_MTLO | OP_MULT
  | OP_MULTU | OP_NOR | OP_OR | OP_ORI | OP_RFE | OP_SB | OP_SH | OP_SLL | OP_SLLV
  | OP_SLT | OP_SLTI | OP_SLTIU | OP_SLTU | OP_SRA | OP_SRAV | OP_SRL | OP_SRLV
  | OP_SUB | OP_SUBU | OP_SW | OP_SWL | OP_SWR | OP_XOR | OP_XORI | OP_SYSCALL
  | OP_UNIMP | OP_RES | SPECIAL | BCOND.

#[global] Instance OpCode_eq_dec : EqDecision OpCode.
Proof. solve_decision. Defined.

(** The number each name is defined to be. *)
Definition op_number (op : OpCode) : Z :=
  match op with
  | OP_ADD => 1 | OP_ADDI => 2 | OP_ADDIU => 3 | OP_ADDU => 4 | OP_AND => 5
  | OP_ANDI => 6 | OP_BEQ => 7 | OP_BGEZ => 8 | OP_BGEZAL => 9 | OP_BGTZ => 10
  | OP_BLEZ => 11 | OP_BLTZ => 12 | OP_BLTZAL => 13 | OP_BNE => 14 | OP_DIV => 16
  | OP_DIVU => 17 | OP_J => 18 | OP_JAL => 19 | OP_JALR => 20 | OP_JR => 21
  | OP_LB => 22 | OP_LBU => 23 | OP_LH => 24 | OP_LHU => 25 | OP_LUI => 26
  | OP_LW => 27 | OP_LWL => 28 | OP_LWR => 29 | OP_MFHI => 31 | OP_MFLO => 32
  | OP_MTHI => 34 | OP_MTLO => 35 | OP_MULT => 36 | OP_MULTU => 37 | OP_NOR => 38
  | OP_OR => 39 | OP_ORI => 40 | OP_RFE => 41 | OP_SB => 42 | OP_SH => 43
  | OP_SLL => 44 | OP_SLLV => 45 | OP_SLT => 46 | OP_SLTI => 47 | OP_SLTIU => 48
  | OP_SLTU => 49 | OP_SRA => 50 | OP_SRAV => 51 | OP_SRL => 52 | OP_SRLV => 53
  | OP_SUB => 54 | OP_SUBU => 55 | OP_SW => 56 | OP_SWL => 57 | OP_SWR => 58
  | OP_XOR => 59 | OP_XORI => 60 | OP_SYSCALL => 61 | OP_UNIMP => 62 | OP_RES => 63
  | SPECIAL => 100 | BCOND => 101
  end.

Definition MaxOpcode : Z := 63.

Inductive OpFormat := IFMT | JFMT | RFMT.

#[global] Instance OpFormat_eq_dec : EqDecision OpFormat.
Proof. solve_decision. Defined.

Record OpInfo := mkOpInfo { info_opCode : OpCode; format : OpFormat }.

Definition opTable : list OpInfo := [
  mkOpInfo SPECIAL RFMT; mkOpInfo BCOND IFMT; mkOpInfo OP_J JFMT;
  mkOpInfo OP_JAL JFMT; mkOpInfo OP_BEQ IFMT; mkOpInfo OP_BNE IFMT;
  mkOpInfo OP_BLEZ IFMT; mkOpInfo OP_BGTZ IFMT; mkOpInfo OP_ADDI IFMT;
  mkOpInfo OP_ADDIU IFMT; mkOpInfo OP_SLTI IFMT; mkOpInfo OP_SLTIU IFMT;
  mkOpInfo OP_ANDI IFMT; mkOpInfo OP_ORI IFMT; mkOpInfo OP_XORI IFMT;
  mkOpInfo OP_LUI IFMT; mkOpInfo OP_UNIMP IFMT; mkOpInfo OP_UNIMP IFMT;
  mkOpInfo OP_UNIMP IFMT; mkOpInfo OP_UNIMP IFMT; mkOpInfo OP_RES IFMT;
  mkOpInfo OP_RES IFMT; mkOpInfo OP_RES IFMT; mkOpInfo OP_RES IFMT;
  mkOpInfo OP_RES IFMT; mkOpInfo OP_RES IFMT; mkOpInfo OP_RES IFMT;
  mkOpInfo OP_RES IFMT; mkOpInfo OP_RES IFMT; mkOpInfo OP_RES IFMT;
  mkOpInfo OP_RES IFMT; mkOpInfo OP_RES IFMT; mkOpInfo OP_LB IFMT;
  mkOpInfo OP_LH IFMT; mkOpInfo OP_LWL IFMT; mkOpInfo OP_LW IFMT;
  mkOpInfo OP_LBU IFMT; mkOpInfo OP_LHU IFMT; mkOpInfo OP_LWR IFMT;
  mkOpInfo OP_RES IFMT; mkOpInfo OP_SB IFMT; mkOpInfo OP_SH IFMT;
  mkOpInfo OP_SWL IFMT; mkOpInfo OP_SW IFMT; mkOpInfo OP_RES IFMT;
  mkOpInfo OP_RES IFMT; mkOpInfo OP_SWR IFMT; mkOpInfo OP_RES IFMT;
  mkOpInfo OP_UNIMP IFMT; mkOpInfo OP_UNIMP IFMT; mkOpInfo OP_UNIMP IFMT;
  mkOpInfo OP_UNIMP IFMT; mkOpInfo OP_RES IFMT; mkOpInfo OP_RES IFMT;
  mkOpInfo OP_RES IFMT; mkOpInfo OP_RES IFMT; mkOpInfo OP_UNIMP IFMT;
  mkOpInfo OP_UNIMP IFMT; mkOpInfo OP_UNIMP IFMT; mkOpInfo OP_UNIMP IFMT;
  mkOpInfo OP_RES IFMT; mkOpInfo OP_RES IFMT; mkOpInfo OP_RES IFMT;
  mkOpInfo OP_RES IFMT ].

Definition specialTable : list OpCode := [
  OP_SLL; OP_RES; OP_SRL; OP_SRA; OP_SLLV; OP_RES; OP_SRLV; OP_SRAV; OP_JR;
  OP_JALR; OP_RES; OP_RES; OP_SYSCALL; OP_UNIMP; OP_RES; OP_RES; OP_MFHI; OP_MTHI;
  OP_MFLO; OP_MTLO; OP_RES; OP_RES; OP_RES; OP_RES; OP_MULT; OP_MULTU; OP_DIV;
  OP_DIVU; OP_RES; OP_RES; OP_RES; OP_RES; OP_ADD; OP_ADDU; OP_SUB; OP_SUBU;
  OP_AND; OP_OR; OP_XOR; OP_NOR; OP_RES; OP_RES; OP_SLT; OP_SLTU; OP_RES; OP_RES;
  OP_RES; OP_RES; OP_RES; OP_RES; OP_RES; OP_RES; OP_RES; OP_RES; OP_RES; OP_RES;
  OP_RES; OP_RES; OP_RES; OP_RES; OP_RES; OP_RES; OP_RES; OP_RES ].

Inductive RegType := NONE | RS | RT | RD | EXTRA.

Record OpString := mkOpString { string_ : string; args : list RegType }.

Definition opStrings : list OpString := [
  mkOpString "Shouldn't happen" [NONE; NONE; NONE];
  mkOpString "ADD r%d,r%d,r%d" [RD; RS; RT];
  mkOpString "ADDI r%d,r%d,%d" [RT; RS; EXTRA];
  mkOpString "ADDIU r%d,r%d,%d" [RT; RS; EXTRA];
  mkOpString "ADDU r%d,r%d,r%d" [RD; RS; RT];
  mkOpString "AND r%d,r%d,r%d" [RD; RS; RT];
  mkOpString "ANDI r%d,r%d,%d" [RT; RS; EXTRA];
  mkOpString "BEQ r%d,r%d,%d" [RS; RT; EXTRA];
  mkOpString "BGEZ r%d,%d" [RS; EXTRA; NONE];
  mkOpString "BGEZAL r%d,%d" [RS; EXTRA; NONE];
  mkOpString "BGTZ r%d,%d" [RS; EXTRA; NONE];
  mkOpString "BLEZ r%d,%d" [RS; EXTRA; NONE];
  mkOpString "BLTZ r%d,%d" [RS; EXTRA; NONE];
  mkOpString "BLTZAL r%d,%d" [RS; EXTRA; NONE];
  mkOpString "BNE r%d,r%d,%d" [RS; RT; EXTRA];
  mkOpString "Shouldn't happen" [NONE; NONE; NONE];
  mkOpString "DIV r%d,r%d" [RS; RT; NONE];
  mkOpString "DIVU r%d,r%d" [RS; RT; NONE]; mkOpString "J %d" [EXTRA; NONE; NONE];
  mkOpString "JAL %d" [EXTRA; NONE; NONE];
  mkOpString "JALR r%d,r%d" [RD; RS; NONE]; mkOpString "JR r%d,r%d" [RD; RS; NONE];
  mkOpString "LB r%d,%d(r%d)" [RT; EXTRA; RS];
  mkOpString "LBU r%d,%d(r%d)" [RT; EXTRA; RS];
  mkOpString "LH r%d,%d(r%d)" [RT; EXTRA; RS];
  mkOpString "LHU r%d,%d(r%d)" [RT; EXTRA; RS];
  mkOpString "LUI r%d,%d" [RT; EXTRA; NONE];
  mkOpString "LW r%d,%d(r%d)" [RT; EXTRA; RS];
  mkOpString "LWL r%d,%d(r%d)" [RT; EXTRA; RS];
  mkOpString "LWR r%d,%d(r%d)" [RT; EXTRA; RS];
  mkOpString "Shouldn't happen" [NONE; NONE; NONE];
  mkOpString "MFHI r%d" [RD; NONE; NONE]; mkOpString "MFLO r%d" [RD; NONE; NONE];
  mkOpString "Shouldn't happen" [NONE; NONE; NONE];
  mkOpString "MTHI r%d" [RS; NONE; NONE]; mkOpString "MTLO r%d" [RS; NONE; NONE];
  mkOpString "MULT r%d,r%d" [RS; RT; NONE];
  mkOpString "MULTU r%d,r%d" [RS; RT; NONE];
  mkOpString "NOR r%d,r%d,r%d" [RD; RS; RT];
  mkOpString "OR r%d,r%d,r%d" [RD; RS; RT];
  mkOpString "ORI r%d,r%d,%d" [RT; RS; EXTRA]; mkOpString "RFE" [NONE; NONE; NONE];
  mkOpString "SB r%d,%d(r%d)" [RT; EXTRA; RS];
  mkOpString "SH r%d,%d(r%d)" [RT; EXTRA; RS];
  mkOpString "SLL r%d,r%d,%d" [RD; RT; EXTRA];
  mkOpString "SLLV r%d,r%d,r%d" [RD; RT; RS];
  mkOpString "SLT r%d,r%d,r%d" [RD; RS; RT];
  mkOpString "SLTI r%d,r%d,%d" [RT; RS; EXTRA];
  mkOpString "SLTIU r%d,r%d,%d" [RT; RS; EXTRA];
  mkOpString "SLTU r%d,r%d,r%d" [RD; RS; RT];
  mkOpString "SRA r%d,r%d,%d" [RD; RT; EXTRA];
  mkOpString "SRAV r%d,r%d,r%d" [RD; RT; RS];
  mkOpString "SRL r%d,r%d,%d" [RD; RT; EXTRA];
  mkOpString "SRLV r%d,r%d,r%d" [RD; RT; RS];
  mkOpString "SUB r%d,r%d,r%d" [RD; RS; RT];
  mkOpString "SUBU r%d,r%d,r%d" [RD; RS; RT];
  mkOpString "SW r%d,%d(r%d)" [RT; EXTRA; RS];
  mkOpString "SWL r%d,%d(r%d)" [RT; EXTRA; RS];
  mkOpString "SWR r%d,%d(r%d)" [RT; EXTRA; RS];
  mkOpString "XOR r%d,r%d,r%d" [RD; RS; RT];
  mkOpString "XORI r%d,r%d,%d" [RT; RS; EXTRA];
  mkOpString "SYSCALL" [NONE; NONE; NONE];
  mkOpString "Unimplemented" [NONE; NONE; NONE];
  mkOpString "Reserved" [NONE; NONE; NONE] ].

Definition IndexToAddr (x : Z) : Z := s32 (Z.shiftl x 2).
(** [x & SIGN_BIT] as a condition. *)
Definition sign_bit (x : Z) : bool := negb (Z.land x 0x80000000 =? 0).
Definition R31 : Z := 31.

Record Instruction := mkInstr {
  value : Z; opCode : OpCode; rs : Z; rt : Z; rd : Z; extra : Z }.

(** [value] is an [unsigned int]. *)
Definition Decode (value : Z) : outcome Instruction :=
  let rs := Z.land (Z.shiftr value 21) 0x1f in
  let rt := Z.land (Z.shiftr value 16) 0x1f in
  let rd := Z.land (Z.shiftr value 11) 0x1f in
  opPtr ← Prelude.rd opTable (Z.land (Z.shiftr value 26) 0x3f);
  let opCode := info_opCode opPtr in
  let extra :=
    match format opPtr with
    | IFMT =>
        let extra := Z.land value 0xffff in
        if negb (Z.land extra 0x8000 =? 0) then s32 (Z.lor extra 0xffff0000) else extra
    | RFMT => Z.land (Z.shiftr value 6) 0x1f
    | JFMT => Z.land value 0x3ffffff
    end in
  opCode ←
    (match opCode with
     | SPECIAL => Prelude.rd specialTable (Z.land value 0x3f)
     | BCOND =>
         let i := Z.land value 0x1f0000 in
         Ret (if i =? 0 then OP_BLTZ
              else if i =? 0x10000 then OP_BGEZ
              else if i =? 0x100000 then OP_BLTZAL
              else if i =? 0x110000 then OP_BGEZAL
              else OP_UNIMP)
     | op => Ret op
     end);
  Ret (mkInstr value opCode rs rt rd extra).

Definition TypeToReg (r : RegType) (instr : Instruction) : Z :=
  match r with
  | RS => rs instr
  | RT => rt instr
  | RD => rd instr
  | EXTRA => extra instr
  | NONE => -1
  end.

(** What the 'm' debug flag prints for an instruction: the format string and its
    three arguments. *)
Definition trace (instr : Instruction) : outcome (string * Z * Z * Z) :=
  str ← Prelude.rd opStrings (op_number (opCode instr));
  assert! op_number (opCode instr) <=? MaxOpcode;;
  a0 ← Prelude.rd (args str) 0;
  a1 ← Prelude.rd (args str) 1;
  a2 ← Prelude.rd (args str) 2;
  Ret (string_ str, TypeToReg a0 instr, TypeToReg a1 instr, TypeToReg a2 instr).

(** ** Multiplication

    One round of the loop of [Mult] on (a, bLo, bHi, lo, hi); [inr] is [break]. *)
Definition Mult_round (st : Z * Z * Z * Z * Z) :
    (Z * Z * Z * Z * Z) + (Z * Z) :=
  let '(a, bLo, bHi, lo, hi) := st in
  let '(lo, hi, stop) :=
    if negb (Z.land a 1 =? 0) then
      let lo := u32 (lo + bLo) in
      let hi := if lo <? bLo then u32 (hi + 1) else hi in
      let hi := u32 (hi + bHi) in
      (lo, hi, Z.land a 0xfffffffe =? 0)
    else (lo, hi, false) in
  if stop then inr (lo, hi)
  else
    let bHi := u32 (Z.shiftl bHi 1) in
    let bHi := if negb (Z.land bLo 0x80000000 =? 0) then Z.lor bHi 1 else bHi in
    let bLo := u32 (Z.shiftl bLo 1) in
    let a := Z.shiftr a 1 in
    inl (a, bLo, bHi, lo, hi).

Fixpoint Mult_loop (n : nat) (st : Z * Z * Z * Z * Z) : Z * Z :=
  match n with
  | O => let '(_, _, _, lo, hi) := st in (lo, hi)
  | S n' =>
      match Mult_round st with
      | inr r => r
      | inl st' => Mult_loop n' st'
      end
  end.

(** The two's complement of the double-word result. *)
Definition complement (lo hi : Z) : Z * Z :=
  let hi := u32 (Z.lnot hi) in
  let lo := u32 (Z.lnot lo) in
  let lo := u32 (lo + 1) in
  (lo, if lo =? 0 then u32 (hi + 1) else hi).

(** The pair (hi, lo) stored through [hiPtr] and [loPtr]. *)
Definition Mult (a b : Z) (signedArith : bool) : Z * Z :=
  if (a =? 0) || (b =? 0) then (0, 0)
  else
    let '(a, b, negative) :=
      if signedArith then
        let '(a, negative) := if a <? 0 then (s32 (- a), true) else (a, false) in
        let '(b, negative) := if b <? 0 then (s32 (- b), negb negative) else (b, negative) in
        (a, b, negative)
      else (a, b, false) in
    let '(lo, hi) := Mult_loop 32 (a, u32 b, 0, 0, 0) in
    let '(lo, hi) := if negative then complement lo hi else (lo, hi) in
    (s32 hi, s32 lo).

(** ** One instruction *)
Section cpu.
Context {K : Type}.
Variable big_endian : bool.
Variable setStatus : MachineStatus → K → K.
Variable ExceptionHandler :
  ExceptionType → Machine → K → outcome (control * Machine * K).

Local Abbreviation ReadMem := (ReadMem big_endian setStatus ExceptionHandler).
Local Abbreviation WriteMem := (WriteMem big_endian setStatus ExceptionHandler).

Inductive exec_result :=
  | Done (m : Machine) (k : K) (pcAfter nextLoadReg nextLoadValue : Z)
  | Trap (c : control) (m : Machine) (k : K).

(** [RaiseException(which, badVAddr); return;] *)
Definition raise (which : ExceptionType) (badVAddr : Z) (m : Machine) (k : K) :
    outcome exec_result :=
  '(c, m, k) ← RaiseException setStatus ExceptionHandler which badVAddr m k;
  Ret (Trap c m k).

(** [registers[r] = v; break;] *)
Definition assign (r v : Z) (m : Machine) (k : K) (pcAfter : Z) : outcome exec_result :=
  m ← set_reg m r v;
  Ret (Done m k pcAfter 0 0).

(** OP_ADD ... OP_ANDI *)
Definition exec_arith (i : Instruction) (m : Machine) (k : K) (pcAfter : Z) :
    outcome exec_result :=
  a ← reg m (rs i);
  match opCode i with
  | OP_ADD =>
      b ← reg m (rt i);
      let sum := s32 (a + b) in
      if negb (sign_bit (Z.lxor a b)) && sign_bit (Z.lxor a sum)
      then raise OverflowException 0 m k
      else assign (rd i) sum m k pcAfter
  | OP_ADDI =>
      let sum := s32 (a + extra i) in
      if negb (sign_bit (Z.lxor a (extra i))) && sign_bit (Z.lxor (extra i) sum)
      then raise OverflowException 0 m k
      else assign (rt i) sum m k pcAfter
  | OP_ADDIU => assign (rt i) (s32 (a + extra i)) m k pcAfter
  | OP_ADDU => b ← reg m (rt i); assign (rd i) (s32 (a + b)) m k pcAfter
  | OP_AND => b ← reg m (rt i); assign (rd i) (Z.land a b) m k pcAfter
  | OP_ANDI => assign (rt i) (Z.land a (Z.land (extra i) 0xffff)) m k pcAfter
  | _ => AssertFails
  end.

(** OP_BEQ ... OP_BNE *)
Definition exec_branch (i : Instruction) (m : Machine) (k : K) (pcAfter : Z) :
    outcome exec_result :=
  next ← reg m NextPCReg;
  let target := s32 (next + IndexToAddr (extra i)) in
  let branch_if (m : Machine) (c : bool) : outcome exec_result :=
    Ret (Done m k (if c then target else pcAfter) 0 0) in
  match opCode i with
  | OP_BEQ => a ← reg m (rs i); b ← reg m (rt i); branch_if m (a =? b)
  | OP_BGEZAL =>
      m ← set_reg m R31 (s32 (next + 4));
      a ← reg m (rs i); branch_if m (negb (sign_bit a))
  | OP_BGEZ => a ← reg m (rs i); branch_if m (negb (sign_bit a))
  | OP_BGTZ => a ← reg m (rs i); branch_if m (0 <? a)
  | OP_BLEZ => a ← reg m (rs i); branch_if m (a <=? 0)
  | OP_BLTZAL =>
      m ← set_reg m R31 (s32 (next + 4));
      a ← reg m (rs i); branch_if m (sign_bit a)
  | OP_BLTZ => a ← reg m (rs i); branch_if m (sign_bit a)
  | OP_BNE => a ← reg m (rs i); b ← reg m (rt i); branch_if m (negb (a =? b))
  | _ => AssertFails
  end.

(** OP_DIV, OP_DIVU: the host's division traps on [INT_MIN / -1]. *)
Definition exec_div (i : Instruction) (m : Machine) (k : K) (pcAfter : Z) :
    outcome exec_result :=
  a ← reg m (rs i);
  b ← reg m (rt i);
  match opCode i with
  | OP_DIV =>
      if b =? 0 then
        m ← set_reg m LoReg 0;
        assign HiReg 0 m k pcAfter
      else
        _ ← defined_if (negb ((a =? - 2 ^ 31) && (b =? -1)));
        m ← set_reg m LoReg (a `quot` b);
        assign HiReg (a `rem` b) m k pcAfter
  | OP_DIVU =>
      let rs := u32 a in
      let rt := u32 b in
      if rt =? 0 then
        m ← set_reg m LoReg 0;
        assign HiReg 0 m k pcAfter
      else
        m ← set_reg m LoReg (s32 (rs / rt));
        assign HiReg (s32 (rs mod rt)) m k pcAfter
  | _ => AssertFails
  end.

(** OP_JAL, OP_J, OP_JALR, OP_JR *)
Definition exec_jump (i : Instruction) (m : Machine) (k : K) (pcAfter : Z) :
    outcome exec_result :=
  next ← reg m NextPCReg;
  let absolute := s32 (Z.lor (Z.land (u32 pcAfter) 0xf0000000) (IndexToAddr (extra i))) in
  match opCode i with
  | OP_JAL => m ← set_reg m R31 (s32 (next + 4)); Ret (Done m k absolute 0 0)
  | OP_J => Ret (Done m k absolute 0 0)
  | OP_JALR =>
      m ← set_reg m (rd i) (s32 (next + 4));
      a ← reg m (rs i); Ret (Done m k a 0 0)
  | OP_JR => a ← reg m (rs i); Ret (Done m k a 0 0)
  | _ => AssertFails
  end.

(** OP_LB ... OP_LW *)
Definition exec_load (i : Instruction) (m : Machine) (k : K) (pcAfter : Z) :
    outcome exec_result :=
  a ← reg m (rs i);
  let tmp := s32 (a + extra i) in
  match opCode i with
  | OP_LB | OP_LBU =>
      '(c, m, k, v) ← ReadMem m k tmp 1;
      match v with
      | None => Ret (Trap c m k)
      | Some value =>
          let value :=
            if negb (Z.land value 0x80 =? 0) && bool_decide (opCode i = OP_LB)
            then s32 (Z.lor value 0xffffff00) else Z.land value 0xff in
          Ret (Done m k pcAfter (rt i) value)
      end
  | OP_LH | OP_LHU =>
      if negb (Z.land tmp 0x1 =? 0) then raise AddressErrorException tmp m k
      else
        '(c, m, k, v) ← ReadMem m k tmp 2;
        match v with
        | None => Ret (Trap c m k)
        | Some value =>
            let value :=
              if negb (Z.land value 0x8000 =? 0) && bool_decide (opCode i = OP_LH)
              then s32 (Z.lor value 0xffff0000) else Z.land value 0xffff in
            Ret (Done m k pcAfter (rt i) value)
        end
  | OP_LUI => assign (rt i) (s32 (Z.shiftl (extra i) 16)) m k pcAfter
  | OP_LW =>
      if negb (Z.land tmp 0x3 =? 0) then raise AddressErrorException tmp m k
      else
        '(c, m, k, v) ← ReadMem m k tmp 4;
        match v with
        | None => Ret (Trap c m k)
        | Some value => Ret (Done m k pcAfter (rt i) value)
        end
  | _ => AssertFails
  end.

(** OP_LWL, OP_LWR *)
Definition exec_load_part (i : Instruction) (m : Machine) (k : K) (pcAfter : Z) :
    outcome exec_result :=
  a ← reg m (rs i);
  let tmp := s32 (a + extra i) in
  assert! Z.land tmp 0x3 =? 0;;
  '(c, m, k, v) ← ReadMem m k tmp 4;
  match v with
  | None => Ret (Trap c m k)
  | Some value =>
      lr ← reg m LoadReg;
      old ← (if lr =? rt i then reg m LoadValueReg else reg m (rt i));
      let low := Z.land tmp 0x3 in
      let merged :=
        match opCode i with
        | OP_LWL =>
            if low =? 0 then value
            else if low =? 1 then Z.lor (Z.land old 0xff) (Z.shiftl value 8)
            else if low =? 2 then Z.lor (Z.land old 0xffff) (Z.shiftl value 16)
            else Z.lor (Z.land old 0xffffff) (Z.shiftl value 24)
        | _ =>
            if low =? 0 then
              Z.lor (Z.land old 0xffffff00) (Z.land (Z.shiftr value 24) 0xff)
            else if low =? 1 then
              Z.lor (Z.land old 0xffff0000) (Z.land (Z.shiftr value 16) 0xffff)
            else if low =? 2 then
              Z.lor (Z.land old 0xff000000) (Z.land (Z.shiftr value 8) 0xffffff)
            else value
        end in
      Ret (Done m k pcAfter (rt i) (s32 merged))
  end.

(** OP_MFHI ... OP_ORI *)
Definition exec_hilo (i : Instruction) (m : Machine) (k : K) (pcAfter : Z) :
    outcome exec_result :=
  match opCode i with
  | OP_MFHI => v ← reg m HiReg; assign (rd i) v m k pcAfter
  | OP_MFLO => v ← reg m LoReg; assign (rd i) v m k pcAfter
  | OP_MTHI => v ← reg m (rs i); assign HiReg v m k pcAfter
  | OP_MTLO => v ← reg m (rs i); assign LoReg v m k pcAfter
  | OP_MULT | OP_MULTU =>
      a ← reg m (rs i);
      b ← reg m (rt i);
      let '(hi, lo) := Mult a b (bool_decide (opCode i = OP_MULT)) in
      m ← set_reg m HiReg hi;
      assign LoReg lo m k pcAfter
  | OP_NOR =>
      a ← reg m (rs i);
      b ← reg m (rt i);
      assign (rd i) (Z.lnot (Z.lor a b)) m k pcAfter
  | OP_OR =>
      a ← reg m (rs i);
      b ← reg m (rs i);
      assign (rd i) (Z.lor a b) m k pcAfter
  | OP_ORI => a ← reg m (rs i); assign (rt i) (Z.lor a (Z.land (extra i) 0xffff)) m k pcAfter
  | _ => AssertFails
  end.

(** OP_SLL ... OP_SRLV, OP_SUB, OP_SUBU, OP_XOR, OP_XORI *)
Definition exec_shift (i : Instruction) (m : Machine) (k : K) (pcAfter : Z) :
    outcome exec_result :=
  a ← reg m (rs i);
  b ← reg m (rt i);
  let sh := Z.land a 0x1f in
  match opCode i with
  | OP_SLL => assign (rd i) (s32 (Z.shiftl b (extra i))) m k pcAfter
  | OP_SLLV => assign (rd i) (s32 (Z.shiftl b sh)) m k pcAfter
  | OP_SLT => assign (rd i) (if a <? b then 1 else 0) m k pcAfter
  | OP_SLTI => assign (rt i) (if a <? extra i then 1 else 0) m k pcAfter
  | OP_SLTIU => assign (rt i) (if u32 a <? u32 (extra i) then 1 else 0) m k pcAfter
  | OP_SLTU => assign (rd i) (if u32 a <? u32 b then 1 else 0) m k pcAfter
  | OP_SRA => assign (rd i) (Z.shiftr b (extra i)) m k pcAfter
  | OP_SRAV => assign (rd i) (Z.shiftr b sh) m k pcAfter
  | OP_SRL => let tmp := b in assign (rd i) (Z.shiftr tmp (extra i)) m k pcAfter
  | OP_SRLV => let tmp := b in assign (rd i) (Z.shiftr tmp sh) m k pcAfter
  | OP_SUB =>
      let diff := s32 (a - b) in
      if sign_bit (Z.lxor a b) && sign_bit (Z.lxor a diff)
      then raise OverflowException 0 m k
      else assign (rd i) diff m k pcAfter
  | OP_SUBU => assign (rd i) (s32 (a - b)) m k pcAfter
  | OP_XOR => assign (rd i) (Z.lxor a b) m k pcAfter
  | OP_XORI => assign (rt i) (Z.lxor a (Z.land (extra i) 0xffff)) m k pcAfter
  | _ => AssertFails
  end.

(** OP_SB, OP_SH, OP_SW *)
Definition exec_store (i : Instruction) (m : Machine) (k : K) (pcAfter : Z) :
    outcome exec_result :=
  a ← reg m (rs i);
  b ← reg m (rt i);
  let addr := s32 (a + extra i) in
  size ← (match opCode i with
          | OP_SB => Ret 1 | OP_SH => Ret 2 | OP_SW => Ret 4 | _ => AssertFails
          end);
  '(c, m, k, ok) ← WriteMem m k addr size b;
  if (ok : bool) then Ret (Done m k pcAfter 0 0) else Ret (Trap c m k).

(** OP_SWL, OP_SWR *)
Definition exec_store_part (i : Instruction) (m : Machine) (k : K) (pcAfter : Z) :
    outcome exec_result :=
  a ← reg m (rs i);
  let tmp := s32 (a + extra i) in
  assert! Z.land tmp 0x3 =? 0;;
  '(c, m, k, v) ← ReadMem m k (Z.land tmp (Z.lnot 0x3)) 4;
  match v with
  | None => Ret (Trap c m k)
  | Some value =>
      b ← reg m (rt i);
      let low := Z.land tmp 0x3 in
      let merged :=
        match opCode i with
        | OP_SWL =>
            if low =? 0 then b
            else if low =? 1 then
              Z.lor (Z.land value 0xff000000) (Z.land (Z.shiftr b 8) 0xffffff)
            else if low =? 2 then
              Z.lor (Z.land value 0xffff0000) (Z.land (Z.shiftr b 16) 0xffff)
            else Z.lor (Z.land value 0xffffff00) (Z.land (Z.shiftr b 24) 0xff)
        | _ =>
            if low =? 0 then Z.lor (Z.land value 0xffffff) (Z.shiftl b 24)
            else if low =? 1 then Z.lor (Z.land value 0xffff) (Z.shiftl b 16)
            else if low =? 2 then Z.lor (Z.land value 0xff) (Z.shiftl b 8)
            else b
        end in
      '(c, m, k, ok) ← WriteMem m k (Z.land tmp (Z.lnot 0x3)) 4 (s32 merged);
      if (ok : bool) then Ret (Done m k pcAfter 0 0) else Ret (Trap c m k)
  end.

(** The [switch] of [OneInstruction]. *)
Definition execute (i : Instruction) (m : Machine) (k : K) (pcAfter : Z) :
    outcome exec_result :=
  match opCode i with
  | OP_ADD | OP_ADDI | OP_ADDIU | OP_ADDU | OP_AND | OP_ANDI => exec_arith i m k pcAfter
  | OP_BEQ | OP_BGEZAL | OP_BGEZ | OP_BGTZ | OP_BLEZ | OP_BLTZAL | OP_BLTZ | OP_BNE =>
      exec_branch i m k pcAfter
  | OP_DIV | OP_DIVU => exec_div i m k pcAfter
  | OP_JAL | OP_J | OP_JALR | OP_JR => exec_jump i m k pcAfter
  | OP_LB | OP_LBU | OP_LH | OP_LHU | OP_LUI | OP_LW => exec_load i m k pcAfter
  | OP_LWL | OP_LWR => exec_load_part i m k pcAfter
  | OP_MFHI | OP_MFLO | OP_MTHI | OP_MTLO | OP_MULT | OP_MULTU | OP_NOR | OP_OR | OP_ORI =>
      exec_hilo i m k pcAfter
  | OP_SB | OP_SH | OP_SW => exec_store i m k pcAfter
  | OP_SLL | OP_SLLV | OP_SLT | OP_SLTI | OP_SLTIU | OP_SLTU | OP_SRA | OP_SRAV
  | OP_SRL | OP_SRLV | OP_SUB | OP_SUBU | OP_XOR | OP_XORI => exec_shift i m k pcAfter
  | OP_SWL | OP_SWR => exec_store_part i m k pcAfter
  | OP_SYSCALL => raise SyscallException 0 m k
  | OP_RES | OP_UNIMP => raise IllegalInstrException 0 m k
  | OP_RFE | SPECIAL | BCOND => AssertFails
  end.

(** The delayed load of the previous instruction and the program counters. *)
Definition finish (m : Machine) (pcAfter nextLoadReg nextLoadValue : Z) : outcome Machine :=
  m ← DelayedLoad m nextLoadReg nextLoadValue;
  pc ← reg m PCReg;
  m ← set_reg m PrevPCReg pc;
  next ← reg m NextPCReg;
  m ← set_reg m PCReg next;
  set_reg m NextPCReg pcAfter.

Definition OneInstruction (m : Machine) (k : K) : outcome (control * Machine * K) :=
  pc ← reg m PCReg;
  '(c, m, k, raw) ← ReadMem m k pc 4;
  match raw with
  | None => Ret (c, m, k)
  | Some raw =>
      instr ← Decode (u32 raw);
      next ← reg m NextPCReg;
      r ← execute instr m k (s32 (next + 4));
      match r with
      | Trap c m k => Ret (c, m, k)
      | Done m k pcAfter nextLoadReg nextLoadValue =>
          m ← finish m pcAfter nextLoadReg nextLoadValue;
          Ret (Resume, m, k)
      end
  end.

(** [Interrupt::OneTick], the clock and the debugger's input: the line typed as
    [sscanf] reads it and its first character. *)
Variable OneTick : Machine → K → outcome (control * Machine * K).
Variable totalTicks : K → Z.
Variable read_line : K → K * (option Z * option ascii).

Definition Debugger (m : Machine) (k : K) : Machine * K :=
  let '(k, (num, c)) := read_line k in
  match num with
  | Some num =>
      (mkMachine (mainMemory m) (registers m) (tables m) (tlb m) (pageTable m)
         (pageTableSize m) (singleStep m) num, k)
  | None =>
      (mkMachine (mainMemory m) (registers m) (tables m) (tlb m) (pageTable m)
         (pageTableSize m)
         (if bool_decide (c = Some "c"%char) then false else singleStep m) 0, k)
  end.

(** [fuel] rounds of the endless loop of [Run]; it stops earlier only when the
    kernel does not come back. *)
Fixpoint Run_loop (fuel : nat) (m : Machine) (k : K) : outcome (control * Machine * K) :=
  match fuel with
  | O => Ret (Resume, m, k)
  | S fuel' =>
      '(c, m, k) ← OneInstruction m k;
      match c with
      | Resume =>
          '(c, m, k) ← OneTick m k;
          match c with
          | Resume =>
              let '(m, k) :=
                if singleStep m && (runUntilTime m <=? totalTicks k)
                then Debugger m k else (m, k) in
              Run_loop fuel' m k
          | _ => Ret (c, m, k)
          end
      | _ => Ret (c, m, k)
      end
  end.

Definition Run (fuel : nat) (m : Machine) (k : K) : outcome (control * Machine * K) :=
  Run_loop fuel m (setStatus UserMode k).

End cpu.

(** *** Multiplication *)

Definition dword (hi lo : Z) : Z := hi * 2 ^ 32 + lo.

Lemma dword_unique p hi lo hi' lo' :
  is_u32 hi → is_u32 lo → hi' = p / 2 ^ 32 → lo' = p mod 2 ^ 32 → dword hi lo = p →
  hi = hi' ∧ lo = lo'.
Proof.
  unfold is_u32, dword. intros Hh Hl -> -> <-.
  rewrite Z.div_add_l, Z.div_small, Z.add_0_r by lia. split; [done|].
  rewrite Z.add_comm, Z.mod_add, Z.mod_small by lia. done.
Qed.

Lemma u32_cases z q : q * 2 ^ 32 ≤ z < (q + 1) * 2 ^ 32 → u32 z = z - q * 2 ^ 32.
Proof. intros H. unfold u32. symmetry. apply (Z.mod_unique z (2^32) q); lia. Qed.

(** Addition of double words with the carry test of the source. *)
Lemma add_dword hi lo bHi bLo :
  is_u32 hi → is_u32 lo → is_u32 bHi → is_u32 bLo →
  let lo' := u32 (lo + bLo) in
  let hi' := u32 ((if lo' <? bLo then u32 (hi + 1) else hi) + bHi) in
  dword hi' lo' = (dword hi lo + dword bHi bLo) mod 2 ^ 64.
Proof.
  intros Hh Hl Hbh Hbl lo' hi'. unfold is_u32 in Hh, Hl, Hbh, Hbl. cbv beta delta [dword].
  assert (hi' = u32 ((if lo' <? bLo then hi + 1 else hi) + bHi)) as Ehi.
  { unfold hi'. destruct (lo' <? bLo); [apply u32_add_l|done]. }
  clearbody hi'. subst hi'. destruct (Z.lt_ge_cases (lo + bLo) (2 ^ 32)).
  - assert (lo' = lo + bLo) as Elo by (apply u32_small; unfold is_u32; lia).
    clearbody lo'. subst lo'. rewrite ltb_false by lia.
    destruct (Z.lt_ge_cases (hi + bHi) (2 ^ 32)).
    + rewrite (u32_cases _ 0) by lia. apply (Z.mod_unique _ _ 0); lia.
    + rewrite (u32_cases _ 1) by lia. apply (Z.mod_unique _ _ 1); lia.
  - assert (lo' = lo + bLo - 2 ^ 32) as Elo.
    { unfold lo'. rewrite (u32_cases _ 1) by lia. lia. }
    clearbody lo'. subst lo'.
    rewrite ltb_true by lia.
    destruct (Z.lt_ge_cases (hi + 1 + bHi) (2 ^ 32)).
    + rewrite (u32_cases _ 0) by lia. apply (Z.mod_unique _ _ 0); lia.
    + rewrite (u32_cases _ 1) by lia. apply (Z.mod_unique _ _ 1); lia.
Qed.

(** Doubling a double word with the bit test of the source. *)
Lemma double_dword bHi bLo :
  is_u32 bHi → is_u32 bLo →
  let bHi' := if negb (Z.land bLo 0x80000000 =? 0)
              then Z.lor (u32 (Z.shiftl bHi 1)) 1 else u32 (Z.shiftl bHi 1) in
  is_u32 bHi' ∧ dword bHi' (u32 (Z.shiftl bLo 1)) = (2 * dword bHi bLo) mod 2 ^ 64.
Proof.
  unfold is_u32. intros Hh Hl. change 0x80000000 with (2 ^ 31).
  rewrite land_pow2_zero, negb_involutive by lia.
  rewrite !Z.shiftl_mul_pow2 by lia. change (2 ^ 1) with 2.
  assert (∀ x, Z.lor (u32 (x * 2)) 1 = u32 (x * 2) + 1) as Hlor.
  { intros x. assert (u32 (x * 2) mod 2 = 0) as Heven.
    { unfold u32. change (2 ^ 32) with (2 * 2 ^ 31).
      rewrite Z.mul_comm, Z.mul_mod_distr_l by lia.
      rewrite Z.mul_comm. by rewrite Z.mod_mul by lia. }
    symmetry. apply Z.add_nocarry_lor. change 1 with (Z.ones 1).
    by rewrite Z.land_ones by lia. }
  assert (Z.testbit bLo 31 = negb (bLo <? 2 ^ 31)) as ->.
  { destruct (Z.ltb_spec bLo (2 ^ 31)).
    - rewrite <- (Z.mod_small bLo (2 ^ 31)) by lia. by rewrite Z.mod_pow2_bits_high by lia.
    - replace bLo with ((bLo - 2 ^ 31) + 1 * 2 ^ 31) by lia.
      rewrite Z.testbit_true by lia. rewrite Z.div_add by lia.
      by rewrite Z.div_small by lia. }
  rewrite Hlor. unfold dword.
  assert (u32 (bHi * 2) = if bHi <? 2 ^ 31 then bHi * 2 else bHi * 2 - 2 ^ 32) as ->.
  { destruct (Z.ltb_spec bHi (2 ^ 31));
      [rewrite (u32_cases _ 0)|rewrite (u32_cases _ 1)]; lia. }
  assert (u32 (bLo * 2) = if bLo <? 2 ^ 31 then bLo * 2 else bLo * 2 - 2 ^ 32) as ->.
  { destruct (Z.ltb_spec bLo (2 ^ 31));
      [rewrite (u32_cases _ 0)|rewrite (u32_cases _ 1)]; lia. }
  destruct (Z.ltb_spec bLo (2 ^ 31)), (Z.ltb_spec bHi (2 ^ 31)); cbn [negb];
    (split; [lia|]);
    first [apply (Z.mod_unique _ _ 0); lia | apply (Z.mod_unique _ _ 1); lia].
Qed.

Lemma mod_pow2_step a n :
  a mod 2 ^ Z.of_nat (S n) = a mod 2 + 2 * ((Z.shiftr a 1) mod 2 ^ Z.of_nat n).
Proof.
  rewrite Z.shiftr_div_pow2 by lia. change (2 ^ 1) with 2.
  rewrite Nat2Z.inj_succ, Z.pow_succ_r by lia.
  apply Z.rem_mul_r; [lia|]. assert (0 < 2 ^ Z.of_nat n) by (apply Z.pow_pos_nonneg; lia). lia.
Qed.

Lemma land_1 a : (Z.land a 1 =? 0) = (a mod 2 =? 0).
Proof. change 1 with (Z.ones 1). by rewrite Z.land_ones by lia. Qed.

(** No bit of [a] but the lowest is set: the loop may stop. *)
Lemma only_low_bit a n :
  (n ≤ 32)%nat → Z.land a 0xfffffffe = 0 →
  a mod 2 ^ Z.of_nat n = (a mod 2) mod 2 ^ Z.of_nat n.
Proof.
  intros Hn H. apply Z.bits_inj'. intros i Hi.
  destruct (Z.lt_ge_cases i (Z.of_nat n)).
  - rewrite !Z.mod_pow2_bits_low by lia. change 2 with (2 ^ 1).
    destruct (decide (i = 0)) as [->|].
    + by rewrite Z.mod_pow2_bits_low by lia.
    + rewrite Z.mod_pow2_bits_high by lia.
      apply (f_equal (λ x, Z.testbit x i)) in H.
      change 0xfffffffe with (Z.shiftl (Z.ones 31) 1) in H.
      rewrite Z.land_spec, Z.shiftl_spec, Z.testbit_ones_nonneg, Z.bits_0 in H by lia.
      rewrite (ltb_true (i - 1) 31), andb_true_r in H by lia. done.
  - by rewrite !Z.mod_pow2_bits_high by lia.
Qed.

Lemma Mult_loop_spec n a bLo bHi lo hi :
  (n ≤ 32)%nat → is_u32 bLo → is_u32 bHi → is_u32 lo → is_u32 hi →
  ∃ lo' hi', Mult_loop n (a, bLo, bHi, lo, hi) = (lo', hi') ∧ is_u32 lo' ∧ is_u32 hi' ∧
    dword hi' lo' = (dword hi lo + dword bHi bLo * (a mod 2 ^ Z.of_nat n)) mod 2 ^ 64.
Proof.
  revert a bLo bHi lo hi. induction n as [|n IH]; intros a bLo bHi lo hi Hn Hbl Hbh Hl Hh;
    cbn [Mult_loop].
  { exists lo, hi. split_and!; [done..|]. change (2 ^ Z.of_nat 0) with 1.
    rewrite Z.mod_1_r, Z.mul_0_r, Z.add_0_r. symmetry. apply Z.mod_small.
    unfold dword, is_u32 in *. lia. }
  unfold Mult_round. rewrite land_1.
  pose proof (add_dword hi lo bHi bLo Hh Hl Hbh Hbl) as Hadd.
  pose proof (double_dword bHi bLo Hbh Hbl) as [Hbh' Hdbl]. cbn zeta in *.
  pose proof (mod_pow2_step a n) as Hstep.
  destruct (a mod 2 =? 0) eqn:Hodd; cbn [negb].
  - apply Z.eqb_eq in Hodd.
    edestruct (IH (Z.shiftr a 1)) as (lo' & hi' & -> & Hl' & Hh' & E); [lia| | | | |].
    5:{ exists lo', hi'. split_and!; [done..|]. rewrite E, Hdbl, Hstep, Hodd.
        rewrite <- Zplus_mod_idemp_r, Zmult_mod_idemp_l, Zplus_mod_idemp_r.
        f_equal. lia. }
    all: try done. apply u32_range.
  - assert (a mod 2 = 1) as H1.
    { apply Z.eqb_neq in Hodd. pose proof (Z.mod_pos_bound a 2). lia. }
    destruct (Z.land a 0xfffffffe =? 0) eqn:Hstop.
    + apply Z.eqb_eq in Hstop. eexists _, _. split; [done|].
      split_and!; [apply u32_range..|].
      rewrite Hadd. rewrite (only_low_bit a (S n)) by lia. rewrite H1, Z.mod_1_l, Z.mul_1_r; [done|].
      apply Z.pow_gt_1; lia.
    + edestruct (IH (Z.shiftr a 1)) as (lo' & hi' & -> & Hl' & Hh' & E); [lia| | | | |].
      5:{ exists lo', hi'. split_and!; [done..|]. rewrite E, Hdbl, Hadd, Hstep, H1.
          rewrite Zplus_mod_idemp_l.
          rewrite <- Zplus_mod_idemp_r, Zmult_mod_idemp_l, Zplus_mod_idemp_r.
          f_equal. lia. }
      all: try done; apply u32_range.
Qed.

Lemma Mult_unsigned_words a b :
  ∃ lo hi, Mult_loop 32 (a, u32 b, 0, 0, 0) = (lo, hi) ∧ is_u32 lo ∧ is_u32 hi ∧
    dword hi lo = u32 a * u32 b.
Proof.
  destruct (Mult_loop_spec 32 a (u32 b) 0 0 0) as (lo & hi & -> & Hl & Hh & E);
    try done; [apply u32_range|].
  exists lo, hi. split_and!; [done..|]. rewrite E. unfold dword. fold (u32 a).
  rewrite Z.mul_0_l, !Z.add_0_l, Z.mul_comm. apply Z.mod_small.
  pose proof (u32_range a). pose proof (u32_range b). unfold is_u32 in *. nia.
Qed.

(** Two's complement of a double word, as the source computes it. *)
Lemma negate_dword hi lo :
  is_u32 hi → is_u32 lo →
  let lo' := u32 (u32 (Z.lnot lo) + 1) in
  let hi' := if lo' =? 0 then u32 (u32 (Z.lnot hi) + 1) else u32 (Z.lnot hi) in
  is_u32 lo' ∧ is_u32 hi' ∧ dword hi' lo' = (- dword hi lo) mod 2 ^ 64.
Proof.
  intros Hh Hl lo' hi'. split; [apply u32_range|].
  split; [unfold hi'; destruct (lo' =? 0); apply u32_range|].
  assert (lo' = u32 (- lo)) as Elo.
  { unfold lo'. rewrite u32_add_l. f_equal. unfold Z.lnot. lia. }
  assert (hi' = if lo' =? 0 then u32 (- hi) else u32 (- hi - 1)) as Ehi.
  { unfold hi', Z.lnot. rewrite u32_add_l.
    destruct (lo' =? 0); f_equal; lia. }
  clearbody lo' hi'. subst hi' lo'. unfold is_u32, dword in *.
  assert (u32 (- lo) = if lo =? 0 then 0 else 2 ^ 32 - lo) as ->.
  { destruct (Z.eqb_spec lo 0); [by subst|]. rewrite (u32_cases _ (-1)) by lia. lia. }
  destruct (Z.eqb_spec lo 0) as [->|Hlo]; cbn [Z.eqb].
  - destruct (decide (hi = 0)) as [->|]; [done|].
    rewrite (u32_cases _ (-1)) by lia. apply (Z.mod_unique _ _ (-1)); lia.
  - rewrite (eqb_false (2 ^ 32 - lo) 0) by lia. rewrite (u32_cases _ (-1)) by lia.
    apply (Z.mod_unique _ _ (-1)); lia.
Qed.

Lemma signed_dword hi lo v :
  is_u32 hi → is_u32 lo → dword hi lo = v mod 2 ^ 64 → - 2 ^ 63 ≤ v < 2 ^ 63 →
  dword (s32 hi) lo = v.
Proof.
  intros Hh Hl E Hv. rewrite s32_cases, u32_small by done.
  unfold dword, is_u32 in *. destruct (Z.lt_ge_cases v 0).
  - assert (v mod 2 ^ 64 = v + 2 ^ 64) as Ev by (symmetry; apply (Z.mod_unique _ _ (-1)); lia).
    rewrite ltb_false by lia. lia.
  - rewrite Z.mod_small in E by lia. rewrite ltb_true by lia. lia.
Qed.

Lemma u32_abs a : is_s32 a → u32 (if a <? 0 then s32 (- a) else a) = Z.abs a.
Proof.
  unfold is_s32. intros Ha. destruct (Z.ltb_spec a 0).
  - rewrite u32_s32, u32_small by (unfold is_u32; lia). lia.
  - rewrite u32_small by (unfold is_u32; lia). lia.
Qed.

(** The signed product from the product of the absolute values. *)
Lemma Mult_signed a b A B (neg : bool) :
  is_s32 a → is_s32 b → u32 A = Z.abs a → u32 B = Z.abs b →
  (if neg then - (Z.abs a * Z.abs b) else Z.abs a * Z.abs b) = a * b →
  let r := (let '(lo, hi) := Mult_loop 32 (A, u32 B, 0, 0, 0) in
            let '(lo, hi) := if neg then complement lo hi else (lo, hi) in
            (s32 hi, s32 lo)) in
  is_s32 r.1 ∧ is_s32 r.2 ∧ dword r.1 (u32 r.2) = a * b.
Proof.
  intros Ha Hb EA EB Eneg. destruct (Mult_unsigned_words A B)
    as (lo & hi & -> & Hl & Hh & E). rewrite EA, EB in E.
  assert (0 ≤ Z.abs a * Z.abs b ≤ 2 ^ 62) as Hbd.
  { unfold is_s32 in *. split; [nia|]. change (2 ^ 62) with (2 ^ 31 * 2 ^ 31).
    apply Z.mul_le_mono_nonneg; lia. }
  destruct neg; [unfold complement|]; cbn zeta iota beta; cbn [fst snd];
    (split; [apply s32_range|]); (split; [apply s32_range|]).
  - pose proof (negate_dword hi lo Hh Hl) as (Hl' & Hh' & E'). cbn zeta in *.
    rewrite u32_s32, (u32_small _ Hl').
    apply signed_dword; [done..| |lia]. rewrite E', E. by rewrite Eneg.
  - rewrite u32_s32, (u32_small _ Hl).
    apply signed_dword; [done..| |lia]. rewrite E, Eneg. symmetry. apply Z.mod_small. lia.
Qed.

Lemma Mult_spec a b sg :
  is_s32 a → is_s32 b →
  is_s32 (Mult a b sg).1 ∧ is_s32 (Mult a b sg).2 ∧
  (if (sg : bool) then dword (Mult a b sg).1 (u32 (Mult a b sg).2) = a * b
   else dword (u32 (Mult a b sg).1) (u32 (Mult a b sg).2) = u32 a * u32 b).
Proof.
  intros Ha Hb. unfold Mult. destruct (Z.eqb_spec a 0) as [->|Ha0].
  { by destruct sg. }
  destruct (Z.eqb_spec b 0) as [->|Hb0].
  { rewrite orb_true_r. cbn [fst snd]. unfold dword. change (u32 0) with 0.
    destruct sg; split_and!; try done; lia. }
  cbn [orb]. destruct sg.
  - pose proof (u32_abs a Ha) as EA. pose proof (u32_abs b Hb) as EB.
    destruct (Z.ltb_spec a 0), (Z.ltb_spec b 0); cbn zeta iota beta; cbn [negb].
    + apply (Mult_signed a b _ _ false); [done..|nia].
    + apply (Mult_signed a b _ _ true); [done..|nia].
    + apply (Mult_signed a b _ _ true); [done..|nia].
    + apply (Mult_signed a b _ _ false); [done..|nia].
  - destruct (Mult_unsigned_words a b) as (lo & hi & -> & Hl & Hh & E).
    cbn [fst snd]. rewrite !u32_s32, !u32_small by done.
    split_and!; [apply s32_range..|done].
Qed.

(** *** Decoding *)

Definition uses_shamt (op : OpCode) : bool :=
  bool_decide (op ∈ [OP_SLL; OP_SRA; OP_SRL]).

(** The opcodes the [switch] of [OneInstruction] knows. *)
Definition special_ok (op : OpCode) : bool :=
  match op with SPECIAL | BCOND | OP_RFE => false | _ => true end.

(** Register fields, the immediate's width, shift amounts, and an opcode that
    the [switch] knows. *)
Record instr_wf (i : Instruction) : Prop := {
  iw_rs : 0 ≤ rs i < 32;
  iw_rt : 0 ≤ rt i < 32;
  iw_rd : 0 ≤ rd i < 32;
  iw_extra : is_s32 (extra i);
  iw_shamt : uses_shamt (opCode i) = true → extra i < 32 ∧ 0 ≤ extra i;
  iw_op : special_ok (opCode i) = true;
}.

Lemma land_mask_range x n : 0 ≤ n → 0 ≤ Z.land x (Z.ones n) < 2 ^ n.
Proof.
  intros Hn. rewrite Z.land_ones by done. apply Z.mod_pos_bound.
  apply Z.pow_pos_nonneg; lia.
Qed.

Definition table_entry_ok (e : OpInfo) : bool :=
  bool_decide (info_opCode e ≠ OP_RFE) &&
  match format e with
  | RFMT => bool_decide (info_opCode e = SPECIAL)
  | _ => negb (uses_shamt (info_opCode e)) && bool_decide (info_opCode e ≠ SPECIAL)
  end.

Lemma forallb_lookup {A} (f : A → bool) l i x :
  forallb f l = true → l !! i = Some x → f x = true.
Proof.
  intros Hf Hi. rewrite forallb_forall in Hf. apply Hf.
  apply list_elem_of_In. by eapply list_elem_of_lookup_2.
Qed.

Lemma opTable_ok e i : opTable !! i = Some e → table_entry_ok e = true.
Proof. by apply forallb_lookup. Qed.

Lemma specialTable_ok op i : specialTable !! i = Some op → special_ok op = true.
Proof. by apply forallb_lookup. Qed.

Lemma Decode_total v : is_u32 v → ∃ i, Decode v = Ret i ∧ instr_wf i ∧ value i = v.
Proof.
  intros Hv. unfold Decode. cbn zeta.
  change 0x3f with (Z.ones 6). change 0x1f with (Z.ones 5).
  destruct (rd_in_range opTable (Z.land (Z.shiftr v 26) (Z.ones 6))) as [e He].
  { apply (land_mask_range _ 6). lia. }
  rewrite He. cbn [mbind outcome_bind].
  apply rd_Ret in He as [_ He%opTable_ok]. unfold table_entry_ok in He.
  apply andb_true_iff in He as [Hrfe He]. apply bool_decide_eq_true in Hrfe.
  destruct (rd_in_range specialTable (Z.land v (Z.ones 6))) as [op Hop].
  { apply (land_mask_range _ 6). lia. }
  pose proof (land_mask_range (Z.shiftr v 21) 5 ltac:(lia)).
  pose proof (land_mask_range (Z.shiftr v 16) 5 ltac:(lia)).
  pose proof (land_mask_range (Z.shiftr v 11) 5 ltac:(lia)).
  pose proof (land_mask_range (Z.shiftr v 6) 5 ltac:(lia)).
  pose proof (land_mask_range v 26 ltac:(lia)).
  pose proof (land_mask_range v 16 ltac:(lia)).
  change 0x3ffffff with (Z.ones 26). change 0xffff with (Z.ones 16).
  set (ex := match format e with IFMT => _ | JFMT => _ | RFMT => _ end).
  assert (is_s32 ex ∧ (format e = RFMT → ex < 32 ∧ 0 ≤ ex)) as [Hex Hsh].
  { unfold ex. destruct (format e); (split; [|first [done | intros _; lia]]).
    - case_match; [apply s32_range|unfold is_s32; lia].
    - unfold is_s32; lia.
    - unfold is_s32; lia. }
  clearbody ex.
  destruct (decide (info_opCode e = SPECIAL)) as [Hspec | Hnspec].
  - rewrite Hspec, Hop. cbn [mbind outcome_bind]. eexists. split; [done|]. split; [|done].
    apply rd_Ret in Hop as [_ Hop%specialTable_ok].
    split; cbn; try done; try lia. intros _. apply Hsh.
    destruct (format e); [by rewrite Hspec in He..|done].
  - set (op2 := match info_opCode e with SPECIAL => _ | _ => _ end).
    assert (∃ op', op2 = Ret op' ∧ special_ok op' = true ∧
      uses_shamt op' = false) as (op' & -> & Hn & Hu).
    { unfold op2. destruct (format e).
      1,2: apply andb_true_iff in He as [He _]; apply negb_true_iff in He;
        destruct (info_opCode e); try done; (eexists; split; [done|]);
        try done; repeat case_match; done.
      apply bool_decide_eq_true in He. done. }
    cbn [mbind outcome_bind]. eexists. split; [done|]. split; [|done].
    split; cbn; try done; try lia. by rewrite Hu.
Qed.

(** *** The processor state *)

(** Forty signed words, with a pending delayed load into a general register. *)
Record regs_wf (m : Machine) : Prop := {
  rw_length : Z.of_nat (length (registers m)) = NumTotalRegs;
  rw_words : Forall is_s32 (registers m);
  rw_load : ∀ lr, reg m LoadReg = Ret lr → 0 ≤ lr < NumGPRegs;
}.

(** What holds in the middle of an instruction, and between instructions. *)
Definition live (m : Machine) : Prop := regs_wf m ∧ mmu_wf m ∧ memory_wf m.
Definition sys_wf (m : Machine) : Prop := live m ∧ reg m 0 = Ret 0.

Lemma reg_live m i : live m → 0 ≤ i < NumTotalRegs → ∃ v, reg m i = Ret v ∧ is_s32 v.
Proof.
  intros [[Hl Hw _] _] Hi. destruct (rd_in_range (registers m) i) as [v Hv]; [lia|].
  exists v. split; [done|]. apply rd_Ret in Hv as [_ Hv].
  by eapply Forall_lookup_1 in Hw.
Qed.

Lemma set_reg_live m i v :
  live m → 0 ≤ i < NumTotalRegs → is_s32 v → (i = LoadReg → 0 ≤ v < NumGPRegs) →
  ∃ m', set_reg m i v = Ret m' ∧ live m' ∧ reg m' i = Ret v ∧
    ∀ j, i ≠ j → reg m' j = reg m j.
Proof.
  intros [[Hl Hw Hld] Hmm] Hi Hv Hv37. unfold set_reg.
  rewrite wr_ok by lia. cbn [mbind outcome_bind]. eexists. split; [done|].
  assert (wr (registers m) i v = Ret (<[Z.to_nat i:=v]> (registers m))) as Hwr
    by (apply wr_ok; lia).
  assert (∀ j, i ≠ j → Prelude.rd (<[Z.to_nat i:=v]> (registers m)) j = Prelude.rd (registers m) j) as Hne
    by (intros j Hj; by apply (rd_wr_ne _ i j v)).
  split_and!.
  - split; [|done]. split; cbn [registers with_registers].
    + by rewrite length_insert.
    + by apply Forall_insert.
    + unfold reg. cbn [registers with_registers]. intros lr Hlr.
      destruct (decide (i = LoadReg)) as [->|].
      * rewrite (rd_wr_eq _ _ _ _ Hwr) in Hlr. injection Hlr as <-. by apply Hv37.
      * rewrite Hne in Hlr by done. by apply Hld.
  - by apply (rd_wr_eq _ _ _ _ Hwr).
  - intros j Hj. by apply Hne.
Qed.

(** Finish a register access on a machine known to be [live]. *)
Ltac get_reg m i v :=
  let Hv := fresh "H" v in
  let E := fresh "E" v in
  destruct (reg_live m i) as (v & E & Hv);
    [done|unfold NumTotalRegs, NumGPRegs in *; cbv [LoadReg LoadValueReg PCReg NextPCReg
       HiReg LoReg BadVAddrReg]; lia|];
  rewrite ?E; cbn [mbind outcome_bind].

Ltac reg_bounds :=
  unfold NumTotalRegs, NumGPRegs, LoadReg, LoadValueReg, PCReg, NextPCReg, PrevPCReg,
    HiReg, LoReg, BadVAddrReg, R31 in *; lia.

Lemma DelayedLoad_live m nextReg nextValue :
  live m → 0 ≤ nextReg < NumGPRegs → is_s32 nextValue →
  ∃ m', DelayedLoad m nextReg nextValue = Ret m' ∧ sys_wf m'.
Proof.
  intros Hm Hr Hv. unfold DelayedLoad. get_reg m LoadReg target. get_reg m LoadValueReg v.
  pose proof (rw_load m (proj1 Hm) _ Etarget) as Ht.
  destruct (set_reg_live m target v) as (m1 & -> & Hm1 & _); [done|reg_bounds|done|reg_bounds|].
  cbn [mbind outcome_bind].
  destruct (set_reg_live m1 LoadReg nextReg) as (m2 & -> & Hm2 & _);
    [done|reg_bounds|unfold is_s32; reg_bounds|done|].
  cbn [mbind outcome_bind].
  destruct (set_reg_live m2 LoadValueReg nextValue) as (m3 & -> & Hm3 & _);
    [done|reg_bounds|done|reg_bounds|].
  cbn [mbind outcome_bind].
  destruct (set_reg_live m3 0 0) as (m4 & -> & Hm4 & E0 & _);
    [done|reg_bounds|by unfold is_s32|reg_bounds|].
  by exists m4.
Qed.

Lemma finish_live m pcAfter nextReg nextValue :
  live m → is_s32 pcAfter → 0 ≤ nextReg < NumGPRegs → is_s32 nextValue →
  ∃ m', finish m pcAfter nextReg nextValue = Ret m' ∧ sys_wf m'.
Proof.
  intros Hm Hpc Hr Hv. unfold finish.
  destruct (DelayedLoad_live m nextReg nextValue) as (m1 & -> & Hm1 & E0); [done..|].
  cbn [mbind outcome_bind]. get_reg m1 PCReg pc.
  destruct (set_reg_live m1 PrevPCReg pc) as (m2 & -> & Hm2 & _ & Hk2);
    [done|reg_bounds|done|reg_bounds|].
  cbn [mbind outcome_bind]. get_reg m2 NextPCReg next.
  destruct (set_reg_live m2 PCReg next) as (m3 & -> & Hm3 & _ & Hk3);
    [done|reg_bounds|done|reg_bounds|].
  cbn [mbind outcome_bind].
  destruct (set_reg_live m3 NextPCReg pcAfter) as (m4 & -> & Hm4 & _ & Hk4);
    [done|reg_bounds|done|reg_bounds|].
  exists m4. split; [done|]. split; [done|]. by rewrite Hk4, Hk3, Hk2.
Qed.

Lemma touched_live m vpn tab i e w :
  live m → translates m vpn tab i e → live (touched m tab i e w).
Proof.
  intros (Hr & Hm & Hmem) Htr. split; [|split].
  - destruct Hr as [Hl Hw Hld]. by split.
  - by eapply translates_touched.
  - done.
Qed.

Section execution.
Context {K : Type} (big : bool) (setStatus : MachineStatus → K → K).
Context (handler : ExceptionType → Machine → K → outcome (control * Machine * K)).

(** A kernel that comes back leaves a machine in order. *)
Definition handler_ok : Prop :=
  ∀ e m k m' k', sys_wf m → handler e m k = Ret (Resume, m', k') → sys_wf m'.

(** Outcomes that fail in the same way. *)
Definition fails_like {A B} (h : outcome A) (o : outcome B) : Prop :=
  match h, o with
  | AssertFails, AssertFails | Undefined, Undefined | OutOfFuel, OutOfFuel => True
  | _, _ => False
  end.

(** A computation returns, or it called the kernel (in order, in system mode)
    and the kernel itself did not return. *)
Definition settles {A} (k : K) (P : A → Prop) (o : outcome A) : Prop :=
  (∃ a, o = Ret a ∧ P a) ∨
  (∃ e m1, sys_wf m1 ∧ fails_like (handler e m1 (setStatus SystemMode k)) o).

Lemma settles_ret {A} k (P : A → Prop) a : P a → settles k P (Ret a).
Proof. left. eauto. Qed.

Lemma settles_bind {A B} k (P : A → Prop) (Q : B → Prop) o f :
  settles k P o → (∀ a, P a → settles k Q (f a)) → settles k Q (o ≫= f).
Proof.
  intros [(a & -> & Ha) | (e & m1 & Hm1 & Hf)] Hfun; [by apply Hfun|].
  right. exists e, m1. split; [done|]. by destruct (handler _ _ _), o.
Qed.

Context (Hhandler : handler_ok).

Local Abbreviation ReadMem := (ReadMem big setStatus handler).
Local Abbreviation WriteMem := (WriteMem big setStatus handler).

Lemma RaiseException_live e va m k :
  live m → is_s32 va →
  settles k (λ '(c, m', _), c = Resume → sys_wf m')
    (RaiseException setStatus handler e va m k).
Proof.
  intros Hm Hva. unfold RaiseException.
  destruct (set_reg_live m BadVAddrReg va) as (m1 & -> & Hm1 & _);
    [done|reg_bounds|done|reg_bounds|].
  cbn [mbind outcome_bind].
  destruct (DelayedLoad_live m1 0 0) as (m2 & -> & Hm2); [done|reg_bounds|by unfold is_s32|].
  cbn [mbind outcome_bind].
  destruct (handler e m2 (setStatus SystemMode k)) as [[[c m3] k3]| | |] eqn:E;
    [|right; exists e, m2; by rewrite E..].
  cbn [mbind outcome_bind]. destruct c; apply settles_ret; try done.
  intros _. by eapply Hhandler.
Qed.

Lemma loaded_s32 size v : is_s32 (loaded size v).
Proof.
  unfold loaded. destruct (size =? 1); [|destruct (size =? 2)].
  - pose proof (s8_range v). unfold is_s32. lia.
  - pose proof (Z.mod_pos_bound v (2 ^ 16)). unfold is_s32. lia.
  - apply s32_range.
Qed.

Lemma ReadMem_live m k va size :
  live m → is_s32 va → access_size size →
  settles k (λ '(c, m', k', v),
    match v with
    | Some v => c = Resume ∧ k' = k ∧ live m' ∧ is_s32 v ∧ registers m' = registers m
    | None => c = Resume → sys_wf m'
    end) (ReadMem m k va size).
Proof.
  intros Hm Hva Hs. pose proof Hm as (Hr & Hmm & Hmem).
  destruct (Translate_cases m va size false Hmm Hs)
    as [(e & Ht & _) | (tab & i & e & pa & Ht & Htr & _ & Hpa & Hlo & Hhi)].
  - unfold Machine.ReadMem. rewrite Ht. cbn [mbind outcome_bind].
    eapply settles_bind; [by apply RaiseException_live|].
    intros [[c m'] k'] Hm'. by apply settles_ret.
  - pose proof (touched_live m _ tab i e false Hm Htr) as Hm1.
    destruct (memory_bytes_ok (touched m tab i e false) pa size) as (bs & Hb & Hl & Hbs);
      [apply Hm1|done|destruct Hs; lia|done|].
    rewrite (ReadMem_hit big setStatus handler m k va size _ pa bs Hs Ht Hb Hbs Hl).
    apply settles_ret. split_and!; try done. apply loaded_s32.
Qed.

Lemma store_bytes_live m pa bs m' :
  live m → store_bytes m pa bs = Ret m' → memory_wf m' → live m'.
Proof.
  intros ([Hl Hw Hld] & Hmm & Hmem) Hst Hm'.
  rewrite (store_bytes_tables _ _ _ _ Hst) in Hm' |- *. split; [by split|]. by split.
Qed.

Lemma WriteMem_live m k va size v :
  live m → is_s32 va → access_size size →
  settles k (λ '(c, m', k', ok),
    if (ok : bool) then c = Resume ∧ k' = k ∧ live m' else c = Resume → sys_wf m')
    (WriteMem m k va size v).
Proof.
  intros Hm Hva Hs. pose proof Hm as (Hr & Hmm & Hmem).
  destruct (Translate_cases m va size true Hmm Hs)
    as [(e & Ht & _) | (tab & i & e & pa & Ht & Htr & _ & Hpa & Hlo & Hhi)].
  - unfold Machine.WriteMem. rewrite Ht. cbn [mbind outcome_bind].
    eapply settles_bind; [by apply RaiseException_live|].
    intros [[c m'] k'] Hm'. by apply settles_ret.
  - pose proof (touched_live m _ tab i e true Hm Htr) as Hm1.
    destruct (store_bytes_ok (touched m tab i e true) pa (stored size v)) as (m2 & Hst & Hm2);
      [apply Hm1|apply le_bytes_are_bytes|done|by rewrite stored_length|].
    rewrite (WriteMem_hit big setStatus handler m k va size v _ pa Hs Ht), Hst.
    apply settles_ret. split_and!; try done. by eapply store_bytes_live.
Qed.

(** An instruction body that runs to its end. *)
Definition result_ok (r : exec_result (K := K)) : Prop :=
  match r with
  | Done m _ pcAfter nextReg nextValue =>
      live m ∧ is_s32 pcAfter ∧ 0 ≤ nextReg < NumGPRegs ∧ is_s32 nextValue
  | Trap c m _ => c = Resume → sys_wf m
  end.
Definition runs (k : K) (o : outcome (exec_result (K := K))) : Prop :=
  settles k result_ok o.

Lemma assign_runs r v m k pcAfter :
  live m → 0 ≤ r < LoadReg → is_s32 v → is_s32 pcAfter → runs k (assign r v m k pcAfter).
Proof.
  intros Hm Hr Hv Hpc. unfold assign.
  destruct (set_reg_live m r v) as (m1 & -> & Hm1 & _); [done|reg_bounds|done|reg_bounds|].
  apply settles_ret. split_and!; [done..|by unfold is_s32].
Qed.

Lemma raise_runs e va m k :
  live m → is_s32 va → runs k (raise setStatus handler e va m k).
Proof.
  intros Hm Hva. unfold raise. eapply settles_bind; [by apply RaiseException_live|].
  intros [[c m'] k'] Hm'. by apply settles_ret.
Qed.

Lemma done_runs m (k : K) pcAfter r v :
  live m → is_s32 pcAfter → 0 ≤ r < NumGPRegs → is_s32 v →
  runs k (Ret (Done m k pcAfter r v)).
Proof. intros. by apply settles_ret. Qed.

Lemma is_s32_bit (b : bool) : is_s32 (if b then 1 else 0).
Proof. by destruct b. Qed.

Lemma is_s32_mask z n : 0 ≤ n ≤ 31 → is_s32 (Z.land z (Z.ones n)).
Proof.
  intros Hn. pose proof (land_mask_range z n ltac:(lia)).
  assert (2 ^ n ≤ 2 ^ 31) by (apply Z.pow_le_mono_r; lia). unfold is_s32. lia.
Qed.

Lemma is_s32_imm z : is_s32 (Z.land z 0xffff).
Proof. change 0xffff with (Z.ones 16). apply is_s32_mask. lia. Qed.

Lemma is_s32_byte z : is_s32 (Z.land z 0xff).
Proof. change 0xff with (Z.ones 8). apply is_s32_mask. lia. Qed.

Lemma is_s32_small z : -65536 ≤ z ≤ 65536 → is_s32 z.
Proof. unfold is_s32. lia. Qed.

Hint Resolve is_s32_bit is_s32_imm is_s32_byte loaded_s32 : nachos.
Hint Extern 1 (is_s32 0) => (apply is_s32_small; lia) : nachos.

Ltac word := solve [assumption | eauto 6 with nachos].
Ltac body_end :=
  first
  [ apply assign_runs; [done|reg_bounds|word|done]
  | apply raise_runs; [done|word]
  | apply done_runs; [done|repeat case_match; word|reg_bounds|repeat case_match; word] ].

Lemma exec_arith_runs i m k pcAfter :
  instr_wf i → live m → is_s32 pcAfter →
  opCode i ∈ [OP_ADD; OP_ADDI; OP_ADDIU; OP_ADDU; OP_AND; OP_ANDI] →
  runs k (exec_arith setStatus handler i m k pcAfter).
Proof.
  intros [Hrs Hrt Hrd Hex _ _] Hm Hpc Hop. unfold exec_arith.
  get_reg m (rs i) a. get_reg m (rt i) b.
  rewrite !elem_of_cons, elem_of_nil in Hop.
  destruct_or! Hop; try done; rewrite Hop; try case_match; body_end.
Qed.

Lemma exec_branch_runs i m k pcAfter :
  instr_wf i → live m → is_s32 pcAfter →
  opCode i ∈ [OP_BEQ; OP_BGEZAL; OP_BGEZ; OP_BGTZ; OP_BLEZ; OP_BLTZAL; OP_BLTZ; OP_BNE] →
  runs k (exec_branch i m k pcAfter).
Proof.
  intros [Hrs Hrt Hrd Hex _ _] Hm Hpc Hop. unfold exec_branch.
  get_reg m NextPCReg next. get_reg m (rs i) a. get_reg m (rt i) b.
  destruct (set_reg_live m R31 (s32 (next + 4))) as (m1 & Hset & Hm1 & _);
    [done|reg_bounds|apply s32_range|reg_bounds|].
  rewrite Hset. cbn [mbind outcome_bind]. get_reg m1 (rs i) a1.
  rewrite !elem_of_cons, elem_of_nil in Hop.
  destruct_or! Hop; try done; rewrite Hop; body_end.
Qed.

(** The instructions on which the simulator itself dies: an unaligned partial
    word, and the host's trap on the one quotient that does not fit. *)
Definition R (m : Machine) (i : Z) : Z := default 0 (registers m !! Z.to_nat i).
Definition crashes (i : Instruction) (m : Machine) : Prop :=
  (opCode i ∈ [OP_LWL; OP_LWR; OP_SWL; OP_SWR] ∧
     Z.land (s32 (R m (rs i) + extra i)) 3 ≠ 0) ∨
  (opCode i = OP_DIV ∧ R m (rs i) = - 2 ^ 31 ∧ R m (rt i) = -1).

Lemma R_reg m i v : reg m i = Ret v → R m i = v.
Proof. unfold reg, R. intros [_ ->]%rd_Ret. done. Qed.

Lemma exec_div_runs i m k pcAfter :
  instr_wf i → live m → is_s32 pcAfter → opCode i ∈ [OP_DIV; OP_DIVU] → ¬ crashes i m →
  runs k (exec_div i m k pcAfter).
Proof.
  intros [Hrs Hrt Hrd Hex _ _] Hm Hpc Hop Hnc. unfold exec_div.
  get_reg m (rs i) a. get_reg m (rt i) b.
  assert (∀ q r, is_s32 q → is_s32 r →
    runs k (m ← set_reg m LoReg q; assign HiReg r m k pcAfter)) as Hend.
  { intros q r Hq Hr. destruct (set_reg_live m LoReg q) as (m1 & -> & Hm1 & _);
      [done|reg_bounds|done|reg_bounds|]. body_end. }
  rewrite !elem_of_cons, elem_of_nil in Hop. destruct_or! Hop; try done; rewrite Hop.
  - destruct (Z.eqb_spec b 0); [apply Hend; by unfold is_s32|].
    destruct (_ && _) eqn:E; cbn [negb defined_if mbind outcome_bind].
    + exfalso. apply Hnc. right. apply andb_true_iff in E as [E1%Z.eqb_eq E2%Z.eqb_eq].
      rewrite (R_reg _ _ _ Ea), (R_reg _ _ _ Eb). done.
    + unfold is_s32 in *.
      pose proof (Z.quot_rem' a b) as Hqr. pose proof (Z.rem_bound_abs a b ltac:(done)).
      assert (Z.abs (a `quot` b) ≤ Z.abs a) as Hq.
      { rewrite <- Z.quot_abs by done. apply Z.quot_le_upper_bound; nia. }
      apply Hend; [|lia].
      destruct (decide (a `quot` b = 2 ^ 31)) as [Eq|]; [|lia].
      assert (a = - 2 ^ 31) as -> by lia.
      assert (b = -1) as -> by nia.
      by rewrite !Z.eqb_refl in E.
  - destruct (u32 b =? 0); apply Hend; first [apply s32_range | by unfold is_s32].
Qed.

Lemma exec_jump_runs i m k pcAfter :
  instr_wf i → live m → is_s32 pcAfter → opCode i ∈ [OP_JAL; OP_J; OP_JALR; OP_JR] →
  runs k (exec_jump i m k pcAfter).
Proof.
  intros [Hrs Hrt Hrd Hex _ _] Hm Hpc Hop. unfold exec_jump.
  get_reg m NextPCReg next. get_reg m (rs i) a.
  assert (∀ r, 0 ≤ r < NumGPRegs → ∃ m1, set_reg m r (s32 (next + 4)) = Ret m1 ∧ live m1) as Hlink.
  { intros r Hr. destruct (set_reg_live m r (s32 (next + 4))) as (m1 & ? & ? & _);
      [done|reg_bounds|apply s32_range|reg_bounds|]. eauto. }
  rewrite !elem_of_cons, elem_of_nil in Hop.
  destruct_or! Hop; try done; rewrite Hop.
  - destruct (Hlink R31) as (m1 & -> & Hm1); [reg_bounds|]. body_end.
  - body_end.
  - destruct (Hlink (rd i)) as (m1 & -> & Hm1); [reg_bounds|]. cbn [mbind outcome_bind].
    get_reg m1 (rs i) a1. body_end.
  - body_end.
Qed.

(** A value loaded from memory goes on, a failed load has trapped. *)
Lemma ReadMem_runs m k va size f :
  live m → is_s32 va → access_size size →
  (∀ m' v, live m' → is_s32 v → registers m' = registers m → runs k (f m' k v)) →
  runs k ('(c, m', k', v) ← ReadMem m k va size;
        match v with None => Ret (Trap c m' k') | Some v => f m' k' v end).
Proof.
  intros Hm Hva Hs Hf. eapply settles_bind; [by apply ReadMem_live|].
  intros [[[c m'] k'] [v|]] Hv.
  - destruct Hv as (-> & -> & Hm' & Hv & Hr). by apply Hf.
  - by apply settles_ret.
Qed.

Lemma WriteMem_runs m k va size v pcAfter :
  live m → is_s32 va → access_size size → is_s32 pcAfter →
  runs k ('(c, m', k', ok) ← WriteMem m k va size v;
        if (ok : bool) then Ret (Done m' k' pcAfter 0 0) else Ret (Trap c m' k')).
Proof.
  intros Hm Hva Hs Hpc. eapply settles_bind; [by apply WriteMem_live|].
  intros [[[c m'] k'] ok] Hv. destruct ok; [|by apply settles_ret].
  destruct Hv as (-> & -> & Hm'). apply done_runs; [done|done|reg_bounds|by unfold is_s32].
Qed.

Lemma exec_load_runs i m k pcAfter :
  instr_wf i → live m → is_s32 pcAfter →
  opCode i ∈ [OP_LB; OP_LBU; OP_LH; OP_LHU; OP_LUI; OP_LW] →
  runs k (exec_load big setStatus handler i m k pcAfter).
Proof.
  intros [Hrs Hrt Hrd Hex _ _] Hm Hpc Hop. unfold exec_load.
  get_reg m (rs i) a. rewrite !elem_of_cons, elem_of_nil in Hop.
  destruct_or! Hop; try done; rewrite Hop; try (case_match; [body_end|]);
    try body_end;
    (apply ReadMem_runs; [done|apply s32_range|unfold access_size; lia|]);
    intros m' v Hm' Hv _; body_end.
Qed.

Lemma exec_hilo_runs i m k pcAfter :
  instr_wf i → live m → is_s32 pcAfter →
  opCode i ∈ [OP_MFHI; OP_MFLO; OP_MTHI; OP_MTLO; OP_MULT; OP_MULTU; OP_NOR; OP_OR; OP_ORI] →
  runs k (exec_hilo i m k pcAfter).
Proof.
  intros [Hrs Hrt Hrd Hex _ _] Hm Hpc Hop. unfold exec_hilo.
  get_reg m (rs i) a. get_reg m (rt i) b. get_reg m HiReg h. get_reg m LoReg l.
  rewrite !elem_of_cons, elem_of_nil in Hop.
  destruct_or! Hop; try done; rewrite Hop; try body_end;
    match goal with |- context [Mult a b ?sg] =>
      destruct (Mult_spec a b sg Ha Hb) as (Hhi & Hlo & _);
      destruct (Mult a b sg) as [hi lo]; cbn [fst snd] in *
    end;
    (destruct (set_reg_live m HiReg hi) as (m1 & -> & Hm1 & _);
      [done|reg_bounds|done|reg_bounds|]; body_end).
Qed.

Lemma exec_shift_runs i m k pcAfter :
  instr_wf i → live m → is_s32 pcAfter →
  opCode i ∈ [OP_SLL; OP_SLLV; OP_SLT; OP_SLTI; OP_SLTIU; OP_SLTU; OP_SRA; OP_SRAV; OP_SRL;
              OP_SRLV; OP_SUB; OP_SUBU; OP_XOR; OP_XORI] →
  runs k (exec_shift setStatus handler i m k pcAfter).
Proof.
  intros [Hrs Hrt Hrd Hex Hsh _] Hm Hpc Hop. unfold exec_shift.
  get_reg m (rs i) a. get_reg m (rt i) b.
  assert (0 ≤ Z.land a 0x1f) as Hamt.
  { change 0x1f with (Z.ones 5). apply (land_mask_range a 5). lia. }
  rewrite !elem_of_cons, elem_of_nil in Hop.
  destruct_or! Hop; try done; rewrite Hop in *; try (case_match; [body_end|]);
    try body_end;
    (apply assign_runs; [done|reg_bounds|apply is_s32_shiftr_l; [|done]|done]);
    [apply Hsh; done|done|apply Hsh; done|done].
Qed.

Lemma exec_store_runs i m k pcAfter :
  instr_wf i → live m → is_s32 pcAfter → opCode i ∈ [OP_SB; OP_SH; OP_SW] →
  runs k (exec_store big setStatus handler i m k pcAfter).
Proof.
  intros [Hrs Hrt Hrd Hex _ _] Hm Hpc Hop. unfold exec_store.
  get_reg m (rs i) a. get_reg m (rt i) b.
  rewrite !elem_of_cons, elem_of_nil in Hop.
  destruct_or! Hop; try done; rewrite Hop; cbn [mbind outcome_bind];
    apply WriteMem_runs; first [done | apply s32_range | unfold access_size; lia].
Qed.

Lemma aligned_check tmp a i m :
  opCode i ∈ [OP_LWL; OP_LWR; OP_SWL; OP_SWR] → reg m (rs i) = Ret a →
  tmp = s32 (a + extra i) → ¬ crashes i m → Z.land tmp 0x3 =? 0 = true.
Proof.
  intros Hop Ea -> Hnc. apply Z.eqb_eq.
  destruct (decide (Z.land (s32 (a + extra i)) 3 = 0)) as [|Hne]; [done|].
  exfalso. apply Hnc. left. split; [done|]. by rewrite (R_reg _ _ _ Ea).
Qed.

Lemma exec_load_part_runs i m k pcAfter :
  instr_wf i → live m → is_s32 pcAfter → opCode i ∈ [OP_LWL; OP_LWR] → ¬ crashes i m →
  runs k (exec_load_part big setStatus handler i m k pcAfter).
Proof.
  intros [Hrs Hrt Hrd Hex _ _] Hm Hpc Hop Hnc. unfold exec_load_part.
  get_reg m (rs i) a. rewrite (aligned_check _ a i m) by (set_solver || done).
  cbn [ASSERT mbind outcome_bind].
  apply (ReadMem_runs m k _ 4); [done|apply s32_range|unfold access_size; lia|].
  intros m' v Hm' Hv _. get_reg m' LoadReg lr. get_reg m' LoadValueReg lv.
  get_reg m' (rt i) b.
  destruct (lr =? rt i); cbn [mbind outcome_bind];
    (apply done_runs; [done|done|reg_bounds|apply s32_range]).
Qed.

Lemma exec_store_part_runs i m k pcAfter :
  instr_wf i → live m → is_s32 pcAfter → opCode i ∈ [OP_SWL; OP_SWR] → ¬ crashes i m →
  runs k (exec_store_part big setStatus handler i m k pcAfter).
Proof.
  intros [Hrs Hrt Hrd Hex _ _] Hm Hpc Hop Hnc. unfold exec_store_part.
  get_reg m (rs i) a. rewrite (aligned_check _ a i m) by (set_solver || done).
  cbn [ASSERT mbind outcome_bind].
  assert (is_s32 (Z.land (s32 (a + extra i)) (Z.lnot 0x3))) as Haddr.
  { apply is_s32_land; [apply s32_range|by unfold is_s32]. }
  apply (ReadMem_runs m k _ 4); [done|done|unfold access_size; lia|].
  intros m' v Hm' Hv _. get_reg m' (rt i) b.
  apply WriteMem_runs; [done|done|unfold access_size; lia|done].
Qed.

Lemma execute_runs i m k pcAfter :
  instr_wf i → live m → is_s32 pcAfter → ¬ crashes i m →
  runs k (execute big setStatus handler i m k pcAfter).
Proof.
  intros Hi Hm Hpc Hnc. pose proof (iw_op i Hi) as Hop. unfold execute.
  destruct (opCode i) eqn:E; try done;
    first
    [ apply exec_arith_runs | apply exec_branch_runs | apply exec_div_runs
    | apply exec_jump_runs | apply exec_load_runs | apply exec_load_part_runs
    | apply exec_hilo_runs | apply exec_store_runs | apply exec_shift_runs
    | apply exec_store_part_runs | apply raise_runs ];
    try done; try (rewrite E; rewrite !elem_of_cons; tauto);
    by unfold is_s32.
Qed.

#[local] Instance crashes_dec i m : Decision (crashes i m).
Proof. unfold crashes. apply _. Defined.

Lemma OneInstruction_runs m k :
  sys_wf m →
  settles k (λ '(c, m', _), c = Resume → sys_wf m') (OneInstruction big setStatus handler m k) ∨
  (∃ pc m1 raw i, reg m PCReg = Ret pc ∧ ReadMem m k pc 4 = Ret (Resume, m1, k, Some raw) ∧
     Decode (u32 raw) = Ret i ∧ crashes i m1).
Proof.
  intros [Hm H0]. unfold OneInstruction. get_reg m PCReg pc.
  pose proof (ReadMem_live m k pc 4 Hm Hpc ltac:(unfold access_size; lia)) as Hread.
  pose proof Hread as [([[[c m1] k1] [raw|]] & E & Hv) | (e & m1 & Hm1 & Hf)].
  2: { rewrite E. left. by apply settles_ret. }
  2: { left. right. exists e, m1. split; [done|]. by destruct (handler _ _ _), (ReadMem _ _ _ _). }
  rewrite E. cbn [mbind outcome_bind].
  destruct Hv as (-> & -> & Hm1 & Hraw & Hregs).
  destruct (Decode_total (u32 raw) (u32_range raw)) as (i & Hdec & Hi & _).
  rewrite Hdec. cbn [mbind outcome_bind]. get_reg m1 NextPCReg next.
  destruct (decide (crashes i m1)) as [Hc|Hc]; [right; by exists pc, m1, raw, i|].
  left. eapply settles_bind; [apply execute_runs; [done|done|apply s32_range|done]|].
  intros [m2 k2 pcAfter nr nv | c m2 k2] Hr; [|by apply settles_ret].
  destruct Hr as (Hm2 & Hpca & Hnr & Hnv).
  destruct (finish_live m2 pcAfter nr nv) as (m3 & -> & Hm3); [done..|].
  by apply settles_ret.
Qed.
End execution.

(** *** Assembling and decoding

    The three formats of the architecture manual, as a reference for [Decode]. *)
Inductive assembly :=
  | R_type (rs rt rd shamt funct : Z)
  | I_type (op rs rt imm : Z)
  | J_type (op target : Z).

Definition assemble (x : assembly) : Z :=
  match x with
  | R_type rs rt rd shamt funct =>
      rs * 2 ^ 21 + rt * 2 ^ 16 + rd * 2 ^ 11 + shamt * 2 ^ 6 + funct
  | I_type op rs rt imm => op * 2 ^ 26 + rs * 2 ^ 21 + rt * 2 ^ 16 + imm mod 2 ^ 16
  | J_type op target => op * 2 ^ 26 + target
  end.

(** Field widths; an I-type opcode other than BCOND, a J-type opcode. *)
Definition assembly_ok (x : assembly) : Prop :=
  match x with
  | R_type rs rt rd shamt funct =>
      0 ≤ rs < 32 ∧ 0 ≤ rt < 32 ∧ 0 ≤ rd < 32 ∧ 0 ≤ shamt < 32 ∧ 0 ≤ funct < 64
  | I_type op rs rt imm =>
      4 ≤ op < 64 ∧ 0 ≤ rs < 32 ∧ 0 ≤ rt < 32 ∧ - 2 ^ 15 ≤ imm < 2 ^ 15
  | J_type op target => (op = 2 ∨ op = 3) ∧ 0 ≤ target < 2 ^ 26
  end.

(** What the instruction must say. *)
Definition decodes_to (x : assembly) (i : Instruction) : Prop :=
  match x with
  | R_type rs' rt' rd' shamt funct =>
      specialTable !! Z.to_nat funct = Some (opCode i) ∧
      rs i = rs' ∧ rt i = rt' ∧ rd i = rd' ∧ extra i = shamt
  | I_type op rs' rt' imm =>
      info_opCode <$> opTable !! Z.to_nat op = Some (opCode i) ∧
      rs i = rs' ∧ rt i = rt' ∧ extra i = imm
  | J_type op target =>
      opCode i = (if op =? 2 then OP_J else OP_JAL) ∧ extra i = target
  end.

(** A field of an instruction word. *)
Lemma field_value v n w :
  0 ≤ n → 0 ≤ w → Z.land (Z.shiftr v n) (Z.ones w) = (v / 2 ^ n) mod 2 ^ w.
Proof. intros. by rewrite Z.land_ones, Z.shiftr_div_pow2. Qed.

Lemma low_value v w : 0 ≤ w → Z.land v (Z.ones w) = v mod 2 ^ w.
Proof. intros. by rewrite Z.land_ones. Qed.

Lemma sign_extend_16 imm :
  - 2 ^ 15 ≤ imm < 2 ^ 15 →
  (if negb (Z.land (imm mod 2 ^ 16) 0x8000 =? 0)
   then s32 (Z.lor (imm mod 2 ^ 16) 0xffff0000) else imm mod 2 ^ 16) = imm.
Proof.
  intros Hi. change 0x8000 with (2 ^ 15). rewrite land_pow2_zero, negb_involutive by lia.
  rewrite Z.testbit_eqb by lia. destruct (Z.lt_ge_cases imm 0).
  - assert (imm mod 2 ^ 16 = imm + 2 ^ 16) as E by (symmetry; apply (Z.mod_unique _ _ (-1)); lia).
    assert ((imm mod 2 ^ 16) / 2 ^ 15 = 1) as ->.
    { rewrite E. symmetry. apply (Z.div_unique _ _ _ (imm + 2 ^ 15)); lia. }
    cbn [Z.modulo Z.eqb Pos.eqb]. change (1 mod 2 =? 1) with true. cbn iota.
    rewrite <- Z.add_nocarry_lor.
    + rewrite s32_cases, u32_small by (unfold is_u32; lia). rewrite ltb_false by lia. lia.
    + apply Z.bits_inj'. intros n Hn. rewrite Z.land_spec, Z.bits_0.
      destruct (Z.lt_ge_cases n 16).
      * change 0xffff0000 with (Z.shiftl 65535 16). rewrite (Z.shiftl_spec_low _ _ n) by lia.
        apply andb_false_r.
      * rewrite Z.mod_pow2_bits_high by lia. done.
  - rewrite (Z.mod_small imm) by lia. rewrite Z.div_small by lia. done.
Qed.

Lemma opTable_formats op :
  4 ≤ op < 64 →
  ∃ e, Prelude.rd opTable op = Ret e ∧ format e = IFMT ∧
    info_opCode e ≠ SPECIAL ∧ info_opCode e ≠ BCOND.
Proof.
  intros Hop. destruct (rd_in_range opTable op) as [e He]; [vm_compute length; lia|].
  exists e. split; [done|]. apply rd_Ret in He as [_ He].
  assert (forallb (λ e, bool_decide (format e = IFMT) && bool_decide (info_opCode e ≠ SPECIAL)
    && bool_decide (info_opCode e ≠ BCOND)) (drop 4 opTable) = true) as Hall by (vm_compute; reflexivity).
  assert (drop 4 opTable !! (Z.to_nat op - 4)%nat = Some e) as Hd.
  { rewrite lookup_drop. by replace (4 + (Z.to_nat op - 4))%nat with (Z.to_nat op) by lia. }
  pose proof (forallb_lookup _ _ _ _ Hall Hd) as Hb. cbn beta in Hb.
  rewrite !andb_true_iff, !bool_decide_eq_true in Hb. tauto.
Qed.

Lemma Decode_eq v e :
  Prelude.rd opTable ((v / 2 ^ 26) mod 2 ^ 6) = Ret e →
  info_opCode e ≠ BCOND →
  Decode v =
    (op ← (if bool_decide (info_opCode e = SPECIAL)
           then Prelude.rd specialTable (v mod 2 ^ 6) else Ret (info_opCode e));
     Ret (mkInstr v op ((v / 2 ^ 21) mod 2 ^ 5) ((v / 2 ^ 16) mod 2 ^ 5)
       ((v / 2 ^ 11) mod 2 ^ 5)
       (match format e with
        | IFMT => if negb (Z.land (v mod 2 ^ 16) 0x8000 =? 0)
                  then s32 (Z.lor (v mod 2 ^ 16) 0xffff0000) else v mod 2 ^ 16
        | RFMT => (v / 2 ^ 6) mod 2 ^ 5
        | JFMT => v mod 2 ^ 26
        end))).
Proof.
  intros He Hb. unfold Decode. cbn zeta.
  change 0x3f with (Z.ones 6). change 0x1f with (Z.ones 5).
  change 0x3ffffff with (Z.ones 26). change 0xffff with (Z.ones 16).
  rewrite !field_value, !low_value by lia. rewrite He. cbn [mbind outcome_bind].
  destruct (info_opCode e); done.
Qed.

Lemma Decode_assemble_ok x :
  assembly_ok x → ∃ i, Decode (assemble x) = Ret i ∧ decodes_to x i.
Proof.
  destruct x as [rs' rt' rd' shamt funct | op rs' rt' imm | op target];
    cbn [assembly_ok assemble decodes_to]; intros Hok.
  - set (v := _ + funct).
    assert ((v / 2 ^ 26) mod 2 ^ 6 = 0 ∧ (v / 2 ^ 21) mod 2 ^ 5 = rs' ∧
      (v / 2 ^ 16) mod 2 ^ 5 = rt' ∧ (v / 2 ^ 11) mod 2 ^ 5 = rd' ∧
      (v / 2 ^ 6) mod 2 ^ 5 = shamt ∧ v mod 2 ^ 6 = funct) as (E1 & E2 & E3 & E4 & E5 & E6).
    { unfold v. split_and!; Z.div_mod_to_equations; lia. }
    rewrite (Decode_eq v (mkOpInfo SPECIAL RFMT)) by (by rewrite ?E1).
    cbn [info_opCode format]. rewrite bool_decide_true, E2, E3, E4, E5, E6 by done.
    destruct (rd_in_range specialTable funct) as [op Hop]; [vm_compute length; lia|].
    rewrite Hop. eexists. split; [done|]. cbn. apply rd_Ret in Hop as [_ ->]. done.
  - set (v := _ + imm mod 2 ^ 16).
    assert (0 ≤ imm mod 2 ^ 16 < 2 ^ 16) by (apply Z.mod_pos_bound; lia).
    assert ((v / 2 ^ 26) mod 2 ^ 6 = op ∧ (v / 2 ^ 21) mod 2 ^ 5 = rs' ∧
      (v / 2 ^ 16) mod 2 ^ 5 = rt' ∧ v mod 2 ^ 16 = imm mod 2 ^ 16) as (E1 & E2 & E3 & E4).
    { unfold v. generalize dependent (imm mod 2 ^ 16). intros w _ Hw.
      split_and!; Z.div_mod_to_equations; lia. }
    destruct (opTable_formats op) as (e & He & Hfmt & Hs & Hb); [lia|].
    rewrite (Decode_eq v e) by (by rewrite ?E1). rewrite Hfmt, E2, E3, E4.
    rewrite bool_decide_false, sign_extend_16 by (done || lia).
    eexists. split; [done|]. cbn. apply rd_Ret in He as [_ ->]. done.
  - set (v := _ + target).
    assert ((v / 2 ^ 26) mod 2 ^ 6 = op ∧ v mod 2 ^ 26 = target) as (E1 & E2).
    { unfold v. split; Z.div_mod_to_equations; lia. }
    destruct Hok as [[-> | ->] Ht];
      (erewrite (Decode_eq v) by (by rewrite ?E1)); cbn; rewrite E2; by eexists.
Qed.

(** *** The arithmetic of the ALU *)

Lemma sign_bit_s32 x : is_s32 x → sign_bit x = (x <? 0).
Proof.
  intros Hx. unfold sign_bit. change 0x80000000 with (2 ^ 31).
  rewrite land_pow2_zero, negb_involutive by lia. by apply testbit31_s32.
Qed.

Lemma sign_bit_lxor x y : is_s32 x → is_s32 y → sign_bit (Z.lxor x y) = xorb (x <? 0) (y <? 0).
Proof.
  intros Hx Hy. unfold sign_bit. change 0x80000000 with (2 ^ 31).
  rewrite land_pow2_zero, negb_involutive, Z.lxor_spec by lia.
  by rewrite !testbit31_s32.
Qed.

Definition fits (z : Z) : bool := (- 2 ^ 31 <=? z) && (z <? 2 ^ 31).

Lemma fits_spec z : fits z = true ↔ is_s32 z.
Proof. unfold fits, is_s32. rewrite andb_true_iff, Z.leb_le, Z.ltb_lt. done. Qed.

Lemma s32_wrap z : - 2 ^ 32 ≤ z < 2 ^ 32 →
  s32 z = if z <? - 2 ^ 31 then z + 2 ^ 32 else if z <? 2 ^ 31 then z else z - 2 ^ 32.
Proof.
  intros Hz. destruct (Z.ltb_spec z (- 2 ^ 31)); [|destruct (Z.ltb_spec z (2 ^ 31))].
  - rewrite s32_cases, (u32_cases _ (-1)), ltb_true by lia. lia.
  - apply s32_small. unfold is_s32. lia.
  - rewrite s32_cases, (u32_cases _ 0), ltb_false by lia. lia.
Qed.

Ltac wrap_cases z :=
  rewrite (s32_wrap z) by lia; unfold fits;
  destruct (Z.ltb_spec z (- 2 ^ 31)); [|destruct (Z.ltb_spec z (2 ^ 31))];
  repeat match goal with
  | |- context [?a <? ?b] => destruct (Z.ltb_spec a b)
  | |- context [?a <=? ?b] => destruct (Z.leb_spec a b)
  end; cbn; try done; lia.

Lemma add_overflow_test a b :
  is_s32 a → is_s32 b →
  negb (sign_bit (Z.lxor a b)) && sign_bit (Z.lxor a (s32 (a + b))) = negb (fits (a + b)).
Proof.
  intros Ha Hb. rewrite !sign_bit_lxor by (done || apply s32_range).
  unfold is_s32 in *. wrap_cases (a + b).
Qed.

Lemma sub_overflow_test a b :
  is_s32 a → is_s32 b →
  sign_bit (Z.lxor a b) && sign_bit (Z.lxor a (s32 (a - b))) = negb (fits (a - b)).
Proof.
  intros Ha Hb. rewrite !sign_bit_lxor by (done || apply s32_range).
  unfold is_s32 in *. wrap_cases (a - b).
Qed.

(** The exact result of the three trapping instructions, its destination. *)
Definition exact_result (i : Instruction) (a b : Z) : Z :=
  match opCode i with OP_ADD => a + b | OP_ADDI => a + extra i | _ => a - b end.
Definition destination (i : Instruction) : Z :=
  match opCode i with OP_ADDI => rt i | _ => rd i end.

Lemma exec_add_sub {K} big (setStatus : MachineStatus → K → K) handler i m k pcAfter a b :
  reg m (rs i) = Ret a → reg m (rt i) = Ret b → is_s32 a → is_s32 b → is_s32 (extra i) →
  opCode i = OP_ADD ∨ opCode i = OP_ADDI ∨ opCode i = OP_SUB →
  execute big setStatus handler i m k pcAfter =
    if fits (exact_result i a b)
    then assign (destination i) (exact_result i a b) m k pcAfter
    else raise setStatus handler OverflowException 0 m k.
Proof.
  intros Ea Eb Ha Hb Hex Hop. unfold execute, exec_arith, exec_shift, exact_result, destination.
  assert (∀ z, fits z = true → s32 z = z) as Hs.
  { intros z Hz. by apply s32_small, fits_spec. }
  destruct Hop as [-> | [-> | ->]]; rewrite Ea; cbn [mbind outcome_bind]; rewrite ?Eb;
    cbn [mbind outcome_bind].
  - rewrite add_overflow_test by done. destruct (fits (a + b)) eqn:E; cbn [negb]; [|done].
    by rewrite Hs.
  - rewrite (Z.lxor_comm a), (Z.add_comm a), add_overflow_test by done.
    destruct (fits (extra i + a)) eqn:E; cbn [negb]; [|done]. by rewrite Hs.
  - rewrite sub_overflow_test by done. destruct (fits (a - b)) eqn:E; cbn [negb]; [|done].
    by rewrite Hs.
Qed.

(** ** Properties *)

(** C12: [Mult] is 64-bit multiplication: for every pair of words, the pair (hi, lo)
    it stores is the exact double-length product, of the signed values for MULT and
    of the unsigned values for MULTU, and both halves are words. *)
Theorem Mult_correct a b signedArith :
  is_s32 a → is_s32 b →
  let '(hi, lo) := Mult a b signedArith in
  is_s32 hi ∧ is_s32 lo ∧
  (if (signedArith : bool) then hi * 2 ^ 32 + u32 lo = a * b
   else u32 hi * 2 ^ 32 + u32 lo = u32 a * u32 b).
Proof.
  intros Ha Hb. pose proof (Mult_spec a b signedArith Ha Hb) as H.
  by destruct (Mult a b signedArith).
Qed.

Lemma Mult_correct_witness :
  is_s32 (-2 ^ 31) ∧ is_s32 (-7) ∧
  let '(hi, lo) := Mult (-2 ^ 31) (-7) true in
  is_s32 hi ∧ is_s32 lo ∧ hi * 2 ^ 32 + u32 lo = -2 ^ 31 * -7.
Proof.
  split; [done|]. split; [done|]. by apply (Mult_correct (-2 ^ 31) (-7) true).
Defined.

(** [Decode] is the inverse of the assembler of the architecture manual: for an
    R-type, I-type or J-type instruction it finds the operation named by the opcode
    or function field, the register numbers, the shift amount, the sign-extended
    immediate and the jump target. *)
Theorem Decode_assemble x :
  assembly_ok x → ∃ i, Decode (assemble x) = Ret i ∧ decodes_to x i.
Proof. apply Decode_assemble_ok. Qed.

(** [addi $29, $29, -24] *)
Lemma Decode_assemble_witness :
  assembly_ok (I_type 8 29 29 (-24)) ∧
  ∃ i, Decode (assemble (I_type 8 29 29 (-24))) = Ret i ∧
    decodes_to (I_type 8 29 29 (-24)) i.
Proof.
  assert (assembly_ok (I_type 8 29 29 (-24))) as H by (cbn; lia).
  split; [exact H|]. exact (Decode_assemble _ H).
Defined.

(** ADD, ADDI and SUB write the exact sum or difference when it fits in 32 bits and
    otherwise raise [OverflowException] leaving the destination alone: the sign-bit
    tests of the source are exactly signed overflow. *)
Theorem add_sub_overflow {K} big (setStatus : MachineStatus → K → K) handler i m k pcAfter a b :
  reg m (rs i) = Ret a → reg m (rt i) = Ret b → is_s32 a → is_s32 b → is_s32 (extra i) →
  opCode i = OP_ADD ∨ opCode i = OP_ADDI ∨ opCode i = OP_SUB →
  execute big setStatus handler i m k pcAfter =
    if fits (exact_result i a b)
    then assign (destination i) (exact_result i a b) m k pcAfter
    else raise setStatus handler OverflowException 0 m k.
Proof. apply exec_add_sub. Qed.

Definition example_cpu : Machine :=
  mkMachine (replicate 512 0) (<[1%nat := 2 ^ 31 - 1]> (<[2%nat := 1]> (replicate 40 0)))
    {[ 0%nat := [mkTE 0 2 true false false false] ]} None (Some 0%nat) 1 false 0.

Lemma add_sub_overflow_witness :
  execute false (λ _ k, k) no_handler (mkInstr 0 OP_ADD 1 2 3 0) example_cpu () 8
  = raise (λ _ k, k) no_handler OverflowException 0 example_cpu ().
Proof.
  apply (add_sub_overflow false (λ _ k, k) no_handler (mkInstr 0 OP_ADD 1 2 3 0)
    example_cpu () 8 (2 ^ 31 - 1) 1); [done|done|done|done|done|by left].
Defined.

(** C11: one instruction of a user program, whatever it is, leaves the processor and
    the memory in order (32-bit registers, r0 = 0, a valid pending load, a
    well-formed translation table), or the kernel it trapped into did not
    return; the simulation itself fails only on an unaligned LWL, LWR, SWL or SWR and
    on the division of the least integer by -1. *)
Theorem OneInstruction_safe {K} big (setStatus : MachineStatus → K → K) handler m k :
  handler_ok handler → sys_wf m →
  (∃ c m' k', OneInstruction big setStatus handler m k = Ret (c, m', k') ∧
     (c = Resume → sys_wf m')) ∨
  (∃ e m1, sys_wf m1 ∧ fails_like (handler e m1 (setStatus SystemMode k))
     (OneInstruction big setStatus handler m k)) ∨
  (∃ pc m1 raw i, reg m PCReg = Ret pc ∧
     ReadMem big setStatus handler m k pc 4 = Ret (Resume, m1, k, Some raw) ∧
     Decode (u32 raw) = Ret i ∧ crashes i m1).
Proof.
  intros Hh Hm. destruct (OneInstruction_runs big setStatus handler Hh m k Hm)
    as [[([[c m'] k'] & E & Hm') | Hk] | Hc]; [left|auto..].
  by exists c, m', k'.
Qed.

Lemma no_handler_ok : handler_ok no_handler.
Proof. by intros e m k m' k' _. Qed.

Lemma example_cpu_wf : sys_wf example_cpu.
Proof.
  split; [split; [|split]|done].
  - split; [done| |by intros lr [= <-]].
    apply (bool_decide_unpack (Forall (λ z, -2 ^ 31 ≤ z ∧ z < 2 ^ 31) _)). vm_compute. exact I.
  - left. exists 0%nat, [mkTE 0 2 true false false false]. done.
  - split; [done|]. apply Forall_replicate. unfold is_byte. lia.
Qed.

Lemma OneInstruction_safe_witness :
  (∃ c m' k', OneInstruction false (λ _ k, k) no_handler example_cpu () = Ret (c, m', k') ∧
     (c = Resume → sys_wf m')).
Proof.
  destruct (OneInstruction_safe false (λ _ k, k) no_handler example_cpu () no_handler_ok
    example_cpu_wf) as [H | [(e & m1 & _ & H) | (pc & m1 & raw & i & H1 & H2 & H3 & H4)]].
  - exact H.
  - exfalso. vm_compute in H. exact H.
  - exfalso. vm_compute in H1. injection H1 as <-.
    vm_compute in H2. injection H2 as <- <-. vm_compute in H3. injection H3 as <-.
    destruct H4 as [[H4 _] | [H4 _]]; [|discriminate H4].
    rewrite !elem_of_cons, elem_of_nil in H4. destruct_or! H4; discriminate H4.
Defined.

Lemma OR_runs {K} big (setStatus : MachineStatus → K → K) handler i m k pcAfter a :
  reg m (rs i) = Ret a → opCode i = OP_OR →
  execute big setStatus handler i m k pcAfter = assign (rd i) a m k pcAfter.
Proof.
  intros Ea Hop. unfold execute, exec_hilo. rewrite Hop, Ea. cbn [mbind outcome_bind].
  by rewrite Z.lor_diag.
Qed.

Lemma SRL_runs {K} big (setStatus : MachineStatus → K → K) handler i m k pcAfter a b :
  reg m (rs i) = Ret a → reg m (rt i) = Ret b → b < 0 →
  opCode i = OP_SRL ∧ 0 ≤ extra i ∨ opCode i = OP_SRLV →
  ∃ v, v < 0 ∧ execute big setStatus handler i m k pcAfter = assign (rd i) v m k pcAfter.
Proof.
  intros Ea Eb Hb Hop. unfold execute, exec_shift.
  destruct Hop as [[-> Hex] | ->]; rewrite Ea, Eb; cbn [mbind outcome_bind];
    eexists; (split; [|done]); by apply Z.shiftr_neg.
Qed.

(** Two instructions differ from the architecture: OR combines a register with itself
    and ignores its second source; the logical shifts SRL and SRLV shift a signed [int], so a negative word
    stays negative, however far it is shifted. *)
Theorem OR_and_SRL_as_coded {K} big (setStatus : MachineStatus → K → K) handler i m k pcAfter a b :
  reg m (rs i) = Ret a → reg m (rt i) = Ret b →
  (opCode i = OP_OR → execute big setStatus handler i m k pcAfter = assign (rd i) a m k pcAfter) ∧
  (b < 0 → opCode i = OP_SRL ∧ 0 ≤ extra i ∨ opCode i = OP_SRLV →
   ∃ v, v < 0 ∧ execute big setStatus handler i m k pcAfter = assign (rd i) v m k pcAfter).
Proof. intros Ea Eb. split; intros; [by apply OR_runs|by eapply SRL_runs]. Qed.

Lemma OR_and_SRL_as_coded_witness :
  execute false (λ _ k, k) no_handler (mkInstr 0 OP_OR 0 2 3 0) example_cpu () 8
    = assign 3 0 example_cpu () 8 ∧
  ∃ v, v < 0 ∧ execute false (λ _ k, k) no_handler (mkInstr 0 OP_SRL 0 2 3 4)
    (with_registers example_cpu (<[2%nat := -16]> (registers example_cpu))) () 8
  = assign 3 v (with_registers example_cpu (<[2%nat := -16]> (registers example_cpu))) () 8.
Proof.
  split.
  - by refine (proj1 (OR_and_SRL_as_coded false (λ _ k, k) no_handler (mkInstr 0 OP_OR 0 2 3 0)
      example_cpu () 8 0 _ eq_refl eq_refl) _).
  - apply (OR_and_SRL_as_coded false (λ _ k, k) no_handler (mkInstr 0 OP_SRL 0 2 3 4) _ () 8 0 (-16));
      [done|done|lia|by left].
Defined.

End Mips.
