(* ===== verification/Registers.v ===== *)
(** * The register file, for proofs about code that runs on the machine

    Reading and writing one register of the processor of [Machine], the tactic [regs] for register numbers, and
    what [DelayedLoad] and [finish], the end of every instruction, do to the registers. *)

From S2P Require Import Prelude CInt Machine Mips.
Import Machine.Machine Mips.Mips.

Open Scope Z_scope.

Module Registers.

Lemma ReadRegister_wf m i : regs_wf m → 0 ≤ i < NumTotalRegs → ∃ v, ReadRegister m i = Ret v ∧ is_s32 v.
Proof.
  intros [Hl Hw _] Hi. destruct (rd_in_range (registers m) i) as [v Hv]; [lia|].
  exists v. unfold ReadRegister. rewrite ASSERT_true; [|apply andb_true_iff; split; [apply Z.leb_le|apply Z.ltb_lt]; lia].
  split; [done|]. apply rd_Ret in Hv as [_ Hv]. by eapply Forall_lookup_1 in Hw.
Qed.

Lemma ReadRegister_reg m i : 0 ≤ i < NumTotalRegs → ReadRegister m i = reg m i.
Proof.
  intros Hi. unfold ReadRegister. by rewrite ASSERT_true;
    [|apply andb_true_iff; split; [apply Z.leb_le|apply Z.ltb_lt]; lia].
Qed.

Definition put_reg (m : Machine) (i v : Z) : Machine := with_registers m (<[Z.to_nat i := v]> (registers m)).

Lemma set_reg_put m i v : regs_wf m → 0 ≤ i < NumTotalRegs → set_reg m i v = Ret (put_reg m i v).
Proof. intros [Hl _ _] Hi. unfold set_reg. by rewrite wr_ok by lia. Qed.

Lemma WriteRegister_put m i v : regs_wf m → 0 ≤ i < NumTotalRegs → WriteRegister m i v = Ret (put_reg m i v).
Proof.
  intros Hw Hi. unfold WriteRegister.
  rewrite ASSERT_true; [|apply andb_true_iff; split; [apply Z.leb_le|apply Z.ltb_lt]; lia].
  by apply set_reg_put.
Qed.

Lemma reg_put m i v : regs_wf m → 0 ≤ i < NumTotalRegs → reg (put_reg m i v) i = Ret v.
Proof. intros [Hl _ _] Hi. unfold reg. by eapply rd_wr_eq, wr_ok; lia. Qed.

Lemma reg_put_ne m i j v : regs_wf m → 0 ≤ i < NumTotalRegs → i ≠ j → reg (put_reg m i v) j = reg m j.
Proof. intros [Hl _ _] Hi Hne. unfold reg. eapply rd_wr_ne; [|done]. apply wr_ok. lia. Qed.

Lemma put_reg_wf m i v :
  regs_wf m → 0 ≤ i < NumTotalRegs → is_s32 v → (i = LoadReg → 0 ≤ v < NumGPRegs) → regs_wf (put_reg m i v).
Proof.
  intros Hw Hi Hv Hlr. pose proof Hw as [Hl Hws Hld]. split; cbn [put_reg registers with_registers].
  - by rewrite length_insert.
  - by apply Forall_insert.
  - intros lr. destruct (decide (i = LoadReg)) as [->|Hne].
    + rewrite reg_put by done. intros [= <-]. by apply Hlr.
    + rewrite reg_put_ne by done. apply Hld.
Qed.

Lemma regs_wf_same m m' : registers m' = registers m → regs_wf m → regs_wf m'.
Proof. intros E [Hl Hw Hld]. split; [by rewrite E..|]. unfold reg. by rewrite E. Qed.

Ltac regs := unfold NumTotalRegs, NumGPRegs, PCReg, NextPCReg, LoadReg, LoadValueReg, BadVAddrReg, PrevPCReg, HiReg, LoReg in *; lia.

(** The registers after [DelayedLoad]: only the target of the pending load, its two registers and r0. *)
Lemma DelayedLoad_regs m r v :
  regs_wf m → 0 ≤ r < NumGPRegs → is_s32 v →
  ∃ m', DelayedLoad m r v = Ret m' ∧ regs_wf m' ∧ reg m' LoadReg = Ret r ∧
    m' = with_registers m (registers m') ∧
    ∀ i, NumGPRegs ≤ i < NumTotalRegs → i ≠ LoadReg → i ≠ LoadValueReg → reg m' i = reg m i.
Proof.
  intros Hw Hr Hv. unfold DelayedLoad.
  destruct (ReadRegister_wf m LoadReg Hw) as (t & Et & _); [regs|].
  rewrite ReadRegister_reg in Et by regs.
  destruct (ReadRegister_wf m LoadValueReg Hw) as (w & Ew & Hw'); [regs|]. rewrite ReadRegister_reg in Ew by regs.
  rewrite Et, Ew. cbn [mbind outcome_bind]. pose proof (rw_load m Hw t Et) as Ht.
  rewrite set_reg_put by (done || regs). cbn [mbind outcome_bind].
  assert (regs_wf (put_reg m t w)) as H1 by (apply put_reg_wf; done || regs).
  rewrite set_reg_put by (done || regs). cbn [mbind outcome_bind].
  assert (regs_wf (put_reg (put_reg m t w) LoadReg r)) as H2
    by (apply put_reg_wf; done || (unfold is_s32; regs)).
  rewrite set_reg_put by (done || regs). cbn [mbind outcome_bind].
  assert (regs_wf (put_reg (put_reg (put_reg m t w) LoadReg r) LoadValueReg v)) as H3
    by (apply put_reg_wf; done || regs).
  rewrite set_reg_put by (done || regs). eexists. split; [reflexivity|]. split_and!.
  - apply put_reg_wf; done || regs.
  - rewrite reg_put_ne by (done || regs). rewrite reg_put_ne by (done || regs). by rewrite reg_put by (done || regs).
  - reflexivity.
  - intros i Hi Hi1 Hi2. rewrite !reg_put_ne by (done || regs). done.
Qed.

(** *** The registers as a function *)
Lemma R_ok m i : regs_wf m → 0 ≤ i < NumTotalRegs → reg m i = Ret (R m i).
Proof.
  intros Hw Hi. destruct (ReadRegister_wf m i Hw Hi) as (v & Ev & _). rewrite ReadRegister_reg in Ev by done.
  by rewrite (R_reg m i v Ev).
Qed.

Lemma R_word m i : regs_wf m → 0 ≤ i < NumTotalRegs → is_s32 (R m i).
Proof.
  intros Hw Hi. destruct (ReadRegister_wf m i Hw Hi) as (v & Ev & Hv). rewrite ReadRegister_reg in Ev by done.
  by rewrite (R_reg m i v Ev).
Qed.

Lemma R_put m i j v : regs_wf m → 0 ≤ i < NumTotalRegs → 0 ≤ j < NumTotalRegs →
  R (put_reg m i v) j = if i =? j then v else R m j.
Proof.
  intros Hw Hi Hj. destruct (Z.eqb_spec i j) as [->|Hne]; apply R_reg.
  - by apply reg_put.
  - rewrite reg_put_ne by done. by apply R_ok.
Qed.

(** Register [r] once the pending load is done. *)
Definition settled (m : Machine) (r : Z) : Z := if r =? R m LoadReg then R m LoadValueReg else R m r.

(** [DelayedLoad] as a trap does it: the pending load arrives, the new one is pending. *)
Lemma DelayedLoad_view m nr nv :
  regs_wf m → 0 ≤ nr < NumGPRegs → is_s32 nv →
  ∃ m', DelayedLoad m nr nv = Ret m' ∧ regs_wf m' ∧ m' = with_registers m (registers m') ∧ R m' 0 = 0 ∧
    (∀ r, 0 < r < NumGPRegs → R m' r = settled m r) ∧ R m' LoadReg = nr ∧
    ∀ r, NumGPRegs ≤ r < NumTotalRegs → r ≠ LoadReg → r ≠ LoadValueReg → R m' r = R m r.
Proof.
  intros Hw Hr Hv. pose proof (rw_load m Hw _ (R_ok m LoadReg Hw ltac:(regs))) as Ht.
  pose proof (R_word m LoadValueReg Hw ltac:(regs)) as Hwv.
  unfold DelayedLoad. rewrite !R_ok by (done || regs). cbn [mbind outcome_bind].
  set (t := R m LoadReg) in *. set (w := R m LoadValueReg) in *.
  rewrite set_reg_put by (done || regs). cbn [mbind outcome_bind]. set (m1 := put_reg m t w).
  assert (regs_wf m1) as H1 by (apply put_reg_wf; done || regs).
  rewrite set_reg_put by (done || regs). cbn [mbind outcome_bind]. set (m2 := put_reg m1 LoadReg nr).
  assert (regs_wf m2) as H2 by (apply put_reg_wf; done || (unfold is_s32; regs)).
  rewrite set_reg_put by (done || regs). cbn [mbind outcome_bind]. set (m3 := put_reg m2 LoadValueReg nv).
  assert (regs_wf m3) as H3 by (apply put_reg_wf; done || regs).
  rewrite set_reg_put by (done || regs). eexists. split; [reflexivity|].
  assert (∀ j, 0 ≤ j < NumTotalRegs → R (put_reg m3 0 0) j =
    if 0 =? j then 0 else if LoadValueReg =? j then nv else if LoadReg =? j then nr else if t =? j then w else R m j) as HR.
  { intros j Hj. unfold m3, m2, m1. rewrite !R_put; try done; regs. }
  split_and!.
  - apply put_reg_wf; done || regs.
  - reflexivity.
  - by rewrite HR.
  - intros r Hr'. rewrite HR by regs. unfold settled. fold t w. rewrite (Z.eqb_sym t r).
    unfold LoadValueReg, LoadReg, NumGPRegs in *. rewrite !eqb_false by lia. done.
  - by rewrite HR by regs.
  - intros r Hr' Hn1 Hn2. rewrite HR by regs. rewrite !eqb_false by regs. done.
Qed.

(** The end of an instruction: the load of the previous one arrives, the new one is pending, and the program
    counters go on. *)
Lemma finish_view m pcAfter nr nv :
  regs_wf m → is_s32 pcAfter → 0 ≤ nr < NumGPRegs → is_s32 nv →
  ∃ m', finish m pcAfter nr nv = Ret m' ∧ regs_wf m' ∧ m' = with_registers m (registers m') ∧
    R m' 0 = 0 ∧ (∀ r, 0 < r < NumGPRegs → R m' r = settled m r) ∧
    R m' HiReg = R m HiReg ∧ R m' LoReg = R m LoReg ∧ R m' PCReg = R m NextPCReg ∧ R m' NextPCReg = pcAfter ∧
    R m' LoadReg = nr ∧ R m' LoadValueReg = nv.
Proof.
  intros Hw Hpc Hr Hv. pose proof (rw_load m Hw _ (R_ok m LoadReg Hw ltac:(regs))) as Ht.
  pose proof (R_word m LoadValueReg Hw ltac:(regs)) as Hwv.
  unfold finish, DelayedLoad. rewrite !R_ok by (done || regs). cbn [mbind outcome_bind].
  set (t := R m LoadReg) in *. set (w := R m LoadValueReg) in *.
  rewrite set_reg_put by (done || regs). cbn [mbind outcome_bind]. set (m1 := put_reg m t w).
  assert (regs_wf m1) as H1 by (apply put_reg_wf; done || regs).
  rewrite set_reg_put by (done || regs). cbn [mbind outcome_bind]. set (m2 := put_reg m1 LoadReg nr).
  assert (regs_wf m2) as H2 by (apply put_reg_wf; done || (unfold is_s32; regs)).
  rewrite set_reg_put by (done || regs). cbn [mbind outcome_bind]. set (m3 := put_reg m2 LoadValueReg nv).
  assert (regs_wf m3) as H3 by (apply put_reg_wf; done || regs).
  rewrite set_reg_put by (done || regs). cbn [mbind outcome_bind]. set (m4 := put_reg m3 0 0).
  assert (regs_wf m4) as H4 by (apply put_reg_wf; done || regs).
  rewrite R_ok by (done || regs). cbn [mbind outcome_bind]. rewrite set_reg_put by (done || regs). cbn [mbind outcome_bind].
  set (m5 := put_reg m4 PrevPCReg (R m4 PCReg)).
  assert (regs_wf m5) as H5 by (apply put_reg_wf; [done|regs|apply R_word; done || regs|regs]).
  rewrite R_ok by (done || regs). cbn [mbind outcome_bind]. rewrite set_reg_put by (done || regs). cbn [mbind outcome_bind].
  set (m6 := put_reg m5 PCReg (R m5 NextPCReg)).
  assert (regs_wf m6) as H6 by (apply put_reg_wf; [done|regs|apply R_word; done || regs|regs]).
  rewrite set_reg_put by (done || regs). eexists. split; [reflexivity|].
  assert (∀ j, 0 ≤ j < NumTotalRegs → R (put_reg m6 NextPCReg pcAfter) j =
    if NextPCReg =? j then pcAfter else if PCReg =? j then R m5 NextPCReg else if PrevPCReg =? j then R m4 PCReg
    else if 0 =? j then 0 else if LoadValueReg =? j then nv else if LoadReg =? j then nr else if t =? j then w else R m j) as HR.
  { intros j Hj. unfold m6, m5, m4, m3, m2, m1. rewrite !R_put; try done; regs. }
  assert (R m5 NextPCReg = R m NextPCReg) as Hn.
  { unfold m5, m4, m3, m2, m1. rewrite !R_put; try done; try regs. cbn.
    by rewrite eqb_false by regs. }
  split_and!.
  - apply put_reg_wf; done || regs.
  - reflexivity.
  - by rewrite HR.
  - intros r Hr'. rewrite HR by regs. unfold settled. fold t w. rewrite (Z.eqb_sym t r).
    unfold NextPCReg, PCReg, PrevPCReg, LoadValueReg, LoadReg, NumGPRegs in *. rewrite !eqb_false by lia. done.
  - rewrite HR by regs. cbn. by rewrite eqb_false by regs.
  - rewrite HR by regs. cbn. by rewrite eqb_false by regs.
  - rewrite HR by regs. exact Hn.
  - by rewrite HR by regs.
  - by rewrite HR by regs.
  - by rewrite HR by regs.
Qed.

End Registers.
