(* ===== verification/Interrupt.v ===== *)
(** * machine/interrupt.h, machine/interrupt.cc, machine/stats.h, machine/stats.cc,
    machine/timer.h, machine/timer.cc: simulated time, hardware interrupts and the
    timer device

    Interrupt handlers are function pointers of the device simulators and the
    kernel; they work on a world [W] that contains the interrupt state and the
    statistics ([HasClock]).  The theorems say that the loop of [OneTick] and
    [Idle] fires exactly the interrupts that are due, in order of their time, that it terminates when handlers only
    schedule interrupts in the future, and that every tick of the clock is
    accounted for.  The clocks and the times of interrupts are [int]s that wrap around: the
    theorems hold as long as the clock stays a [horizon] away from [2^31], where [horizon]
    bounds how far ahead a handler schedules, and [Schedule_wraps] shows what happens beyond. *)

From S2P Require Import Prelude CInt NList Machine.

Import Machine.
Open Scope Z_scope.

Module Interrupt.

(** ** machine/stats *)

Record Statistics := mkStats {
  totalTicks : Z; idleTicks : Z; systemTicks : Z; userTicks : Z;
  numDiskReads : Z; numDiskWrites : Z;
  numConsoleCharsRead : Z; numConsoleCharsWritten : Z;
  numPageFaults : Z; numPacketsSent : Z; numPacketsRecvd : Z;
  numPageOuts : Z; numPageIns : Z;
}.

Definition Statistics_new : Statistics := mkStats 0 0 0 0 0 0 0 0 0 0 0 0 0.

Definition UserTick : Z := 1.
Definition SystemTick : Z := 10.
Definition RotationTime : Z := 500.
Definition SeekTime : Z := 500.
Definition ConsoleTime : Z := 100.
Definition NetworkTime : Z := 100.
Definition TimerTicks : Z := 100.

(** Setting the four clocks, and adding to three of them; the fields are [int]s. *)
Definition set_clocks (s : Statistics) (total idle system user : Z) : Statistics :=
  mkStats total idle system user (numDiskReads s) (numDiskWrites s) (numConsoleCharsRead s)
    (numConsoleCharsWritten s) (numPageFaults s) (numPacketsSent s) (numPacketsRecvd s)
    (numPageOuts s) (numPageIns s).
Definition add_ticks (s : Statistics) (total system user : Z) : Statistics :=
  set_clocks s (s32 (totalTicks s + total)) (idleTicks s) (s32 (systemTicks s + system))
    (s32 (userTicks s + user)).

(** The counters, by the name of the field incremented. *)
Inductive counter :=
  | DiskReads | DiskWrites | CharsRead | CharsWritten | PageFaults
  | PacketsSent | PacketsRecvd | PageOuts | PageIns.

#[global] Instance counter_eq_dec : EqDecision counter.
Proof. solve_decision. Defined.

Definition count (c : counter) (s : Statistics) : Statistics :=
  let plus c' n := if bool_decide (c = c') then s32 (n + 1) else n in
  mkStats (totalTicks s) (idleTicks s) (systemTicks s) (userTicks s)
    (plus DiskReads (numDiskReads s)) (plus DiskWrites (numDiskWrites s))
    (plus CharsRead (numConsoleCharsRead s)) (plus CharsWritten (numConsoleCharsWritten s))
    (plus PageFaults (numPageFaults s)) (plus PacketsSent (numPacketsSent s))
    (plus PacketsRecvd (numPacketsRecvd s)) (plus PageOuts (numPageOuts s))
    (plus PageIns (numPageIns s)).

(** [Statistics::Print]: the numbers printed, line by line. *)
Definition Statistics_Print (s : Statistics) : list (list Z) :=
  [ [totalTicks s; idleTicks s; systemTicks s; userTicks s];
    [numDiskReads s; numDiskWrites s];
    [numConsoleCharsRead s; numConsoleCharsWritten s];
    [numPageFaults s; numPageOuts s; numPageIns s];
    [numPacketsRecvd s; numPacketsSent s] ].

(** ** machine/interrupt *)

Inductive IntStatus := IntOff | IntOn.
Inductive IntType :=
  | TimerInt | DiskInt | ConsoleWriteInt | ConsoleReadInt | NetworkSendInt | NetworkRecvInt.

#[global] Instance IntStatus_eq_dec : EqDecision IntStatus.
Proof. solve_decision. Defined.
#[global] Instance IntType_eq_dec : EqDecision IntType.
Proof. solve_decision. Defined.

Section interrupt.
(** Handlers: a function of the simulation and its argument. *)
Context {H : Type}.

Record PendingInterrupt := mkPending {
  handler : H; arg : Z; when : Z; type : IntType }.

Record Interrupt := mkInterrupt {
  level : IntStatus;
  pending : list (Z * PendingInterrupt);
  inHandler : bool;
  yieldOnReturn : bool;
  status : MachineStatus;
}.

Definition Interrupt_new : Interrupt := mkInterrupt IntOff [] false false SystemMode.

Definition set_level (i : Interrupt) (l : IntStatus) : Interrupt :=
  mkInterrupt l (pending i) (inHandler i) (yieldOnReturn i) (status i).
Definition set_pending (i : Interrupt) (p : list (Z * PendingInterrupt)) : Interrupt :=
  mkInterrupt (level i) p (inHandler i) (yieldOnReturn i) (status i).
Definition set_inHandler (i : Interrupt) (b : bool) : Interrupt :=
  mkInterrupt (level i) (pending i) b (yieldOnReturn i) (status i).
Definition set_yield (i : Interrupt) (b : bool) : Interrupt :=
  mkInterrupt (level i) (pending i) (inHandler i) b (status i).
Definition set_status (i : Interrupt) (s : MachineStatus) : Interrupt :=
  mkInterrupt (level i) (pending i) (inHandler i) (yieldOnReturn i) s.

Definition getLevel (i : Interrupt) : IntStatus := level i.
Definition getStatus (i : Interrupt) : MachineStatus := status i.
Definition setStatus (i : Interrupt) (st : MachineStatus) : Interrupt := set_status i st.
Definition ChangeLevel (i : Interrupt) (old now : IntStatus) : Interrupt := set_level i now.

(** Called by the hardware device simulators. *)
Definition Schedule (i : Interrupt) (s : Statistics) (h : H) (a fromNow : Z) (t : IntType) :
    outcome Interrupt :=
  let when := s32 (totalTicks s + fromNow) in
  let toOccur := mkPending h a when t in
  assert! 0 <? fromNow;;
  Ret (set_pending i (k_insert when toOccur (pending i))).

Definition YieldOnReturn (i : Interrupt) : outcome Interrupt :=
  assert! inHandler i;;
  Ret (set_yield i true).

(** [DumpState]: the time, the level and what is pending, in list order. *)
Definition DumpState (i : Interrupt) (s : Statistics) :
    Z * IntStatus * list (IntType * Z) :=
  (totalTicks s, level i, (λ e, (type e.2, when e.2)) <$> pending i).

End interrupt.
Arguments PendingInterrupt : clear implicits.
Arguments Interrupt : clear implicits.

(** The world the handlers run in. *)
Class HasClock (H W : Type) := {
  int_of : W → Interrupt H;
  set_int : Interrupt H → W → W;
  stats_of : W → Statistics;
  set_stats : Statistics → W → W;
}.

Class HasClockLaws (H W : Type) `{HasClock H W} := {
  int_set_int i w : int_of (set_int i w) = i;
  int_set_stats s w : int_of (set_stats s w) = int_of w;
  stats_set_int i w : stats_of (set_int i w) = stats_of w;
  stats_set_stats s w : stats_of (set_stats s w) = s;
}.

Section clock.
Context {H W : Type} `{HasClockLaws H W}.

(** Calling a handler, [currentThread->Yield()], and the delayed load the
    simulated processor has pending. *)
Variable run_handler : H → Z → W → outcome W.
Variable Yield : W → outcome W.
Variable machine_DelayedLoad : W → outcome W.

Definition upd_int (f : Interrupt H → Interrupt H) (w : W) : W := set_int (f (int_of w)) w.
Definition upd_stats (f : Statistics → Statistics) (w : W) : W := set_stats (f (stats_of w)) w.

(** Whether a handler was fired. *)
Definition CheckIfDue (advanceClock : bool) (w : W) : outcome (W * bool) :=
  let old := status (int_of w) in
  assert! bool_decide (level (int_of w) = IntOff);;
  match k_remove (pending (int_of w)) with
  | None => Ret (w, false)
  | Some ((when, toOccur), rest) =>
      let w := upd_int (λ i, set_pending i rest) w in
      let late := totalTicks (stats_of w) <? when in
      let put_back w := upd_int (λ i, set_pending i (k_insert when toOccur (pending i))) w in
      if negb advanceClock && late then Ret (put_back w, false)
      else
        let w :=
          if advanceClock && late then
            upd_stats (λ s, set_clocks s when (s32 (idleTicks s + s32 (when - totalTicks s)))
              (systemTicks s) (userTicks s)) w
          else w in
        if bool_decide (status (int_of w) = IdleMode) && bool_decide (type toOccur = TimerInt)
           && bool_decide (pending (int_of w) = [])
        then Ret (put_back w, false)
        else
          w ← machine_DelayedLoad w;
          let w := upd_int (λ i, set_status (set_inHandler i true) SystemMode) w in
          w ← run_handler (handler toOccur) (arg toOccur) w;
          let w := upd_int (λ i, set_inHandler (set_status i old) false) w in
          Ret (w, true)
  end.

(** [while (CheckIfDue(FALSE)) ;] *)
Definition check_loop (fuel : nat) (w : W) : outcome W :=
  loop (λ w, '(w, fired) ← CheckIfDue false w;
             Ret (if (fired : bool) then inl w else inr w)) fuel w.

Definition OneTick (fuel : nat) (w : W) : outcome W :=
  let old := status (int_of w) in
  let w := upd_stats (λ s,
    if bool_decide (status (int_of w) = SystemMode)
    then add_ticks s SystemTick SystemTick 0
    else add_ticks s UserTick 0 UserTick) w in
  let w := upd_int (λ i, ChangeLevel i IntOn IntOff) w in
  w ← check_loop fuel w;
  let w := upd_int (λ i, ChangeLevel i IntOff IntOn) w in
  if yieldOnReturn (int_of w) then
    let w := upd_int (λ i, set_status (set_yield i false) SystemMode) w in
    w ← Yield w;
    Ret (upd_int (λ i, set_status i old) w)
  else Ret w.

Definition SetLevel (fuel : nat) (now : IntStatus) (w : W) : outcome (W * IntStatus) :=
  let old := level (int_of w) in
  assert! bool_decide (now = IntOff) || negb (inHandler (int_of w));;
  let w := upd_int (λ i, ChangeLevel i old now) w in
  w ← (if bool_decide (now = IntOn) && bool_decide (old = IntOff)
       then OneTick fuel w else Ret w);
  Ret (w, old).

Definition Enable (fuel : nat) (w : W) : outcome W :=
  '(w, _) ← SetLevel fuel IntOn w; Ret w.

(** [HaltMachine] when there is nothing left to wait for. *)
Definition Idle (fuel : nat) (w : W) : outcome (W * control) :=
  let w := upd_int (λ i, set_status i IdleMode) w in
  '(w, fired) ← CheckIfDue true w;
  if (fired : bool) then
    w ← check_loop fuel w;
    let w := upd_int (λ i, set_status (set_yield i false) SystemMode) w in
    Ret (w, Resume)
  else Ret (w, HaltMachine).

End clock.

(** ** machine/timer *)

(** [Random()] (sysdep) is a host call: its values are a stream of non-negative numbers. *)
Record Timer := mkTimer { randomize : bool; timer_handler : Z; timer_arg : Z }.

(** The delay for the random number drawn. *)
Definition TimeOfNextInterrupt (t : Timer) (random : Z) : Z :=
  if randomize t then 1 + random `rem` (TimerTicks * 2) else TimerTicks.

Section timer.
Context {H W : Type} `{HasClock H W}.
Variable TimerHandler : H.

(** The first interrupt, scheduled by the constructor. *)
Definition Timer_start (t : Timer) (random : Z) (w : W) : outcome W :=
  i ← Schedule (int_of w) (stats_of w) TimerHandler 0 (TimeOfNextInterrupt t random) TimerInt;
  Ret (set_int i w).

(** [TimerExpired]; [run] is the kernel's handler for the device. *)
Definition TimerExpired (t : Timer) (random : Z) (run : Z → Z → W → outcome W) (w : W) :
    outcome W :=
  i ← Schedule (int_of w) (stats_of w) TimerHandler 0 (TimeOfNextInterrupt t random) TimerInt;
  run (timer_handler t) (timer_arg t) (set_int i w).
End timer.


(** ** Firing what is due *)

Definition add_pending {A} (news p : list (Z * A)) : list (Z * A) :=
  foldl (λ p e, k_insert e.1 e.2 p) p news.

Lemma add_pending_due {A} (now : Z) (news due later : list (Z * A)) :
  Forall (λ k, k ≤ now) (due.*1) → Forall (λ e, now < e.1) news →
  add_pending news (due ++ later) = due ++ add_pending news later.
Proof.
  intros Hdue Hnews. revert later. induction Hnews as [|[k x] news Hk Hnews IH];
    intros later; [done|]. unfold add_pending in *. cbn [foldl]. cbn [fst snd] in *.
  rewrite k_insert_app_le; [apply IH|]. eapply Forall_impl; [exact Hdue|]. simpl. lia.
Qed.

Lemma add_pending_late {A} (now : Z) (news later : list (Z * A)) :
  Forall (λ k, now < k) (later.*1) → Forall (λ e, now < e.1) news →
  Forall (λ k, now < k) ((add_pending news later).*1).
Proof.
  intros Hl Hnews. revert later Hl. induction Hnews as [|[k x] news Hk Hnews IH];
    intros later Hl; [done|]. unfold add_pending in *. cbn [foldl]. apply IH.
  by apply k_insert_Forall_keys.
Qed.

Lemma add_pending_sorted {A} (news p : list (Z * A)) :
  k_sorted p → k_sorted (add_pending news p).
Proof.
  revert p. induction news as [|e news IH]; intros p Hp; [done|].
  apply IH. by apply k_insert_sorted.
Qed.

(** A sorted queue splits into what is due and what is not. *)
Lemma sorted_split {A} now (p : list (Z * A)) :
  k_sorted p → ∃ due later, p = due ++ later ∧
    Forall (λ k, k ≤ now) (due.*1) ∧ Forall (λ k, now < k) (later.*1).
Proof.
  unfold k_sorted. induction p as [|[k x] p IH]; intros Hs.
  { exists [], []. split_and!; [done|constructor..]. }
  csimpl in Hs. inversion_clear Hs as [|? ? Hs' Hall]. destruct (Z.le_gt_cases k now).
  - destruct (IH Hs') as (due & later & -> & Hd & Hl).
    exists ((k, x) :: due), later. split_and!; [done|by constructor|done].
  - exists [], ((k, x) :: p). split_and!; [done|constructor|]. csimpl. constructor; [lia|].
    eapply Forall_impl; [exact Hall|]. simpl. lia.
Qed.

Definition clocks (s : Statistics) : Z * Z * Z * Z :=
  (totalTicks s, idleTicks s, systemTicks s, userTicks s).

(** Every tick of simulated time is idle, system or user time. *)
Definition accounted (s : Statistics) : Prop :=
  totalTicks s = idleTicks s + systemTicks s + userTicks s ∧
  0 ≤ idleTicks s ∧ 0 ≤ systemTicks s ∧ 0 ≤ userTicks s.

Section firing.
Context {H W : Type} `{HasClockLaws H W}.
Variable run_handler : H → Z → W → outcome W.
Variable Yield : W → outcome W.
Variable machine_DelayedLoad : W → outcome W.
(** How far ahead the handlers schedule. *)
Variable horizon : Z.

Abbreviation now w := (totalTicks (stats_of w)).
Abbreviation queue w := (pending (int_of w)).

(** What a handler may do to the clock and the queue: schedule interrupts, in
    the future, with interrupts still disabled. *)
Record schedules_only (w w' : W) : Prop := {
  so_level : level (int_of w') = level (int_of w);
  so_clocks : clocks (stats_of w') = clocks (stats_of w);
  so_queue : ∃ news, queue w' = add_pending news (queue w) ∧
    Forall (λ e, now w < e.1) news;
}.

(** The clock is far enough from its overflow for what the handlers schedule. *)
Definition in_time (w : W) : Prop := 0 ≤ now w ∧ now w + horizon < 2 ^ 31.

Definition handlers_schedule : Prop :=
  ∀ h a w, inHandler (int_of w) = true → in_time w →
    ∃ w', run_handler h a w = Ret w' ∧ schedules_only w w'.
Definition load_is_silent : Prop :=
  ∀ w, ∃ w', machine_DelayedLoad w = Ret w' ∧ int_of w' = int_of w ∧ stats_of w' = stats_of w.

(** Firing one interrupt, once it is off the queue. *)
Definition fire (e : PendingInterrupt H) (w : W) : outcome W :=
  let old := status (int_of w) in
  w ← machine_DelayedLoad w;
  let w := upd_int (λ i, set_status (set_inHandler i true) SystemMode) w in
  w ← run_handler (handler e) (arg e) w;
  Ret (upd_int (λ i, set_inHandler (set_status i old) false) w).

(** Firing the interrupts at the head of the queue, one after the other. *)
Fixpoint fire_due (due : list (Z * PendingInterrupt H)) (w : W) : outcome W :=
  match due with
  | [] => Ret w
  | (_, e) :: due' =>
      w ← fire e (upd_int (λ i, set_pending i (tail (pending i))) w);
      fire_due due' w
  end.

Context (Hhandlers : handlers_schedule) (Hload : load_is_silent).

Lemma int_upd_int f w : int_of (upd_int f w) = f (int_of w).
Proof. unfold upd_int. by rewrite int_set_int. Qed.
Lemma stats_upd_int f w : stats_of (upd_int f w) = stats_of w.
Proof. unfold upd_int. by rewrite stats_set_int. Qed.
Lemma int_upd_stats f w : int_of (upd_stats f w) = int_of w.
Proof. unfold upd_stats. by rewrite int_set_stats. Qed.
Lemma stats_upd_stats f w : stats_of (upd_stats f w) = f (stats_of w).
Proof. unfold upd_stats. by rewrite stats_set_stats. Qed.

Ltac clock_simpl :=
  repeat (rewrite ?int_upd_int, ?stats_upd_int, ?int_upd_stats, ?stats_upd_stats;
    cbn [level pending inHandler yieldOnReturn status set_level set_pending set_inHandler
      set_yield set_status ChangeLevel]).

Lemma fire_spec e w :
  in_time w → ∃ w' news, fire e w = Ret w' ∧
    level (int_of w') = level (int_of w) ∧ status (int_of w') = status (int_of w) ∧
    inHandler (int_of w') = false ∧
    clocks (stats_of w') = clocks (stats_of w) ∧
    queue w' = add_pending news (queue w) ∧ Forall (λ e, now w < e.1) news.
Proof.
  intros Ht. unfold fire. destruct (Hload w) as (w1 & -> & Ei & Es). cbn [mbind outcome_bind].
  set (w2 := upd_int _ w1).
  destruct (Hhandlers (handler e) (arg e) w2) as (w3 & -> & [Hlv Hck (news & Hq & Hn)]).
  { unfold w2. by clock_simpl. }
  { unfold in_time, w2. clock_simpl. by rewrite Es. }
  cbn [mbind outcome_bind]. eexists _, news. split; [done|]. revert Hlv Hck Hq Hn.
  unfold w2. clock_simpl. rewrite Ei, Es. intros. split_and!; try done.
Qed.

Lemma now_clocks w w' : clocks (stats_of w') = clocks (stats_of w) → now w' = now w.
Proof. unfold clocks. by intros [= ? ? ? ?]. Qed.

Lemma in_time_now w w' : now w' = now w → in_time w → in_time w'.
Proof. unfold in_time. by intros ->. Qed.

(** An interrupt that is not due is taken off the queue and put back, behind any
    other of the same time. *)
Definition put_back {A} (q : list (Z * A)) : list (Z * A) :=
  match q with [] => [] | (k, x) :: q' => k_insert k x q' end.

Lemma put_back_perm {A} (q : list (Z * A)) : put_back q ≡ₚ q.
Proof. destruct q as [|[k x] q]; [done|]. apply k_insert_perm. Qed.

Lemma put_back_sorted {A} (q : list (Z * A)) : k_sorted q → k_sorted (put_back q).
Proof.
  destruct q as [|[k x] q]; [done|]. intros Hq. apply k_insert_sorted.
  unfold k_sorted in *. csimpl in Hq. by inversion Hq.
Qed.

Lemma CheckIfDue_not_due w :
  level (int_of w) = IntOff → Forall (λ k, now w < k) ((queue w).*1) →
  ∃ w', CheckIfDue run_handler machine_DelayedLoad false w = Ret (w', false) ∧
    level (int_of w') = IntOff ∧ status (int_of w') = status (int_of w) ∧
    inHandler (int_of w') = inHandler (int_of w) ∧
    yieldOnReturn (int_of w') = yieldOnReturn (int_of w) ∧
    queue w' = put_back (queue w) ∧ stats_of w' = stats_of w.
Proof.
  intros Hlv Hlate. unfold CheckIfDue. rewrite Hlv.
  rewrite bool_decide_true by done. cbn [ASSERT mbind outcome_bind].
  destruct (queue w) as [|[k e] q] eqn:Hq; cbn [k_remove].
  - exists w. rewrite Hq. by split_and!.
  - csimpl in Hlate. inversion_clear Hlate as [|? ? Hk Hlate'].
    rewrite stats_upd_int, ltb_true by done. cbn [negb andb]. eexists. split; [done|].
    clock_simpl. by split_and!.
Qed.

Lemma CheckIfDue_due w k e q :
  level (int_of w) = IntOff → status (int_of w) ≠ IdleMode → queue w = (k, e) :: q → k ≤ now w →
  CheckIfDue run_handler machine_DelayedLoad false w =
    (w' ← fire e (upd_int (λ i, set_pending i (tail (pending i))) w); Ret (w', true)).
Proof.
  intros Hlv Hst Hq Hk. unfold CheckIfDue. rewrite Hlv.
  rewrite bool_decide_true by done. rewrite Hq. cbn [ASSERT mbind outcome_bind k_remove].
  rewrite stats_upd_int, ltb_false by done. cbn [negb andb].
  clock_simpl. rewrite bool_decide_false by done. cbn [andb].
  unfold fire. clock_simpl.
  replace (upd_int (λ i, set_pending i (tail (pending i))) w)
    with (upd_int (λ i, set_pending i q) w) by (unfold upd_int; by rewrite Hq).
  destruct (machine_DelayedLoad _) as [w1| | |]; [|done..]. cbn [mbind outcome_bind].
  by destruct (run_handler _ _ _).
Qed.

Lemma check_loop_fires due later w fuel :
  in_time w → level (int_of w) = IntOff → status (int_of w) ≠ IdleMode →
  queue w = due ++ later → Forall (λ k, k ≤ now w) (due.*1) →
  Forall (λ k, now w < k) (later.*1) → (length due < fuel)%nat →
  ∃ w1 w' news, fire_due due w = Ret w1 ∧
    check_loop run_handler machine_DelayedLoad fuel w = Ret w' ∧
    queue w1 = add_pending news later ∧ Forall (λ e, now w < e.1) news ∧
    queue w' = put_back (queue w1) ∧ Forall (λ k, now w < k) ((queue w1).*1) ∧
    level (int_of w') = IntOff ∧ status (int_of w') = status (int_of w) ∧
    clocks (stats_of w') = clocks (stats_of w) ∧
    yieldOnReturn (int_of w') = yieldOnReturn (int_of w1).
Proof.
  revert later w fuel. induction due as [|[k e] due IH]; intros later w fuel Ht Hlv Hst Hq Hd Hl Hf;
    (destruct fuel as [|fuel]; [simpl in Hf; lia|]); unfold check_loop in *.
  - destruct (CheckIfDue_not_due w Hlv) as (w' & Hc & Hlv' & Hst' & Hin' & Hy' & Hq' & Hs');
      [by rewrite Hq|].
    exists w, w', []. cbn [fire_due]. rewrite loop_unfold, Hc. cbn [mbind outcome_bind].
    split_and!; try done; [by rewrite Hq|by rewrite Hs'].
  - csimpl in Hd. inversion_clear Hd as [|? ? Hk Hd'].
    pose proof (CheckIfDue_due w k e (due ++ later) Hlv Hst Hq Hk) as Hc.
    set (w0 := upd_int (λ i, set_pending i (tail (pending i))) w) in *.
    destruct (fire_spec e w0) as (w1 & news & Hfire & Hlv1 & Hst1 & Hin1 & Hck1 & Hq1 & Hn1).
    { apply (in_time_now w); [|done]. unfold w0. by clock_simpl. }
    rewrite Hfire in Hc. cbn [mbind outcome_bind] in Hc.
    assert (level (int_of w0) = level (int_of w) ∧ status (int_of w0) = status (int_of w) ∧
      queue w0 = due ++ later ∧ stats_of w0 = stats_of w) as (E1 & E2 & E3 & E4).
    { unfold w0. clock_simpl. rewrite Hq. by split_and!. }
    rewrite E1 in Hlv1. rewrite E2 in Hst1. rewrite E3 in Hq1. rewrite E4 in *.
    pose proof (now_clocks _ _ Hck1) as Hnow.
    rewrite (add_pending_due (now w)) in Hq1 by done.
    destruct (IH (add_pending news later) w1 fuel)
      as (w2 & w' & news2 & Hf2 & Hl2 & Hq2 & Hn2 & Hq' & Hlate & Hlv' & Hst' & Hck' & Hy');
      rewrite ?Hnow; try done.
    { by apply (in_time_now w). }
    { congruence. } { congruence. } { by apply add_pending_late. } { simpl in Hf. lia. }
    rewrite Hnow in *.
    exists w2, w', (news ++ news2). cbn [fire_due]. fold w0. rewrite Hfire.
    cbn [mbind outcome_bind]. rewrite loop_unfold, Hc. cbn [mbind outcome_bind].
    split_and!; try done.
    + rewrite Hq2. unfold add_pending. by rewrite foldl_app.
    + by apply Forall_app.
    + congruence.
    + rewrite Hck'. done.
Qed.

(** The loop ends whatever the status of the machine. *)
Lemma check_loop_total due later w fuel :
  in_time w → level (int_of w) = IntOff → queue w = due ++ later → k_sorted (queue w) →
  Forall (λ k, k ≤ now w) (due.*1) →
  Forall (λ k, now w < k) (later.*1) → (length due < fuel)%nat →
  ∃ w', check_loop run_handler machine_DelayedLoad fuel w = Ret w' ∧
    clocks (stats_of w') = clocks (stats_of w) ∧ k_sorted (queue w') ∧
    level (int_of w') = IntOff.
Proof.
  revert later w fuel. induction due as [|[k e] due IH]; intros later w fuel Ht Hlv Hq Hso Hd Hl Hf;
    (destruct fuel as [|fuel]; [simpl in Hf; lia|]); unfold check_loop in *;
    rewrite loop_unfold.
  - destruct (CheckIfDue_not_due w Hlv) as (w' & -> & Hlv' & Hst' & Hin' & Hy' & Hq' & Hs');
      [by rewrite Hq|].
    exists w'. cbn [mbind outcome_bind]. split_and!; [done|by rewrite Hs'| |done].
    rewrite Hq'. by apply put_back_sorted.
  - csimpl in Hd. inversion_clear Hd as [|? ? Hk Hd']. rewrite Hq in Hso.
    set (w0 := upd_int (λ i, set_pending i (tail (pending i))) w).
    assert (level (int_of w0) = level (int_of w) ∧ queue w0 = due ++ later ∧
      stats_of w0 = stats_of w ∧ w0 = upd_int (λ i, set_pending i (due ++ later)) w)
      as (E1 & E3 & E4 & E5).
    { unfold w0. clock_simpl. rewrite Hq. split_and!; try done. unfold upd_int. by rewrite Hq. }
    assert (k_sorted (due ++ later)) as Hso' by (unfold k_sorted in *; csimpl in Hso; by inversion Hso).
    assert (CheckIfDue run_handler machine_DelayedLoad false w =
      (if bool_decide (status (int_of w) = IdleMode) && bool_decide (type e = TimerInt)
         && bool_decide (due ++ later = [])
       then Ret (upd_int (λ i, set_pending i (k_insert k e (pending i))) w0, false)
       else w' ← fire e w0; Ret (w', true))) as Hc.
    { unfold CheckIfDue. rewrite Hlv. rewrite bool_decide_true by done. rewrite Hq.
      cbn [ASSERT mbind outcome_bind k_remove app]. rewrite <- E5.
      rewrite E4, ltb_false by done. cbn [negb andb].
      assert (status (int_of w0) = status (int_of w)) as Est by (unfold w0; clock_simpl; done).
      rewrite Est, E3. destruct (_ && _); [done|]. unfold fire. rewrite Est.
      destruct (machine_DelayedLoad _) as [w1| | |]; [|done..]. cbn [mbind outcome_bind].
      by destruct (run_handler _ _ _). }
    rewrite Hc. destruct (_ && _).
    { cbn [mbind outcome_bind]. eexists. split; [done|]. clock_simpl. rewrite E3, E4, E1.
      split_and!; [done|by apply k_insert_sorted|done]. }
    destruct (fire_spec e w0) as (w1 & news & -> & Hlv1 & Hst1 & Hin1 & Hck1 & Hq1 & Hn1);
      [by apply (in_time_now w); [rewrite E4|]|].
    cbn [mbind outcome_bind]. rewrite E1 in Hlv1. rewrite E3 in Hq1. rewrite E4 in *.
    pose proof (now_clocks _ _ Hck1) as Hnow.
    assert (k_sorted (queue w1)) as Hso1 by (rewrite Hq1; by apply add_pending_sorted).
    rewrite (add_pending_due (now w)) in Hq1 by done.
    destruct (IH (add_pending news later) w1 fuel) as (w' & -> & Hck & Hso2 & Hlv2);
      rewrite ?Hnow; try done.
    { by apply (in_time_now w). }
    { congruence. } { by apply add_pending_late. } { simpl in Hf. lia. }
    exists w'. split_and!; [done|by rewrite Hck|done|done].
Qed.

(** ** One tick *)

Definition tick_length (w : W) : Z :=
  if bool_decide (status (int_of w) = SystemMode) then SystemTick else UserTick.

(** The world with the clock advanced and interrupts off. *)
Definition begin_tick (w : W) : W :=
  upd_int (λ i, ChangeLevel i IntOn IntOff) (upd_stats (λ s,
    if bool_decide (status (int_of w) = SystemMode)
    then add_ticks s SystemTick SystemTick 0
    else add_ticks s UserTick 0 UserTick) w).

Lemma tick_length_range w : 1 ≤ tick_length w ≤ 10.
Proof. unfold tick_length, SystemTick, UserTick. destruct (bool_decide _); lia. Qed.

Lemma begin_tick_spec w :
  0 ≤ now w → now w + tick_length w < 2 ^ 31 →
  queue (begin_tick w) = queue w ∧ now (begin_tick w) = now w + tick_length w ∧
  level (int_of (begin_tick w)) = IntOff ∧ status (int_of (begin_tick w)) = status (int_of w) ∧
  (accounted (stats_of w) → accounted (stats_of (begin_tick w))).
Proof.
  intros Hn Ht. pose proof (tick_length_range w). unfold begin_tick, tick_length in *. clock_simpl.
  split_and!; try done.
  - destruct (bool_decide _); cbn; apply s32_small; unfold is_s32; lia.
  - unfold accounted, SystemTick, UserTick in *. intros (E & ? & ? & ?).
    destruct (bool_decide _); cbn; rewrite !s32_small by (unfold is_s32; lia); lia.
Qed.

Lemma accounted_clocks s s' : clocks s' = clocks s → accounted s → accounted s'.
Proof. unfold clocks, accounted. intros [= -> -> -> ->]. done. Qed.

(** The clock is far enough from its overflow when the tick is over. *)
Definition tick_in_time (w : W) : Prop :=
  0 ≤ now w ∧ now w + tick_length w + Z.max 0 horizon < 2 ^ 31.

Lemma OneTick_spec w fuel :
  tick_in_time w → k_sorted (queue w) → status (int_of w) ≠ IdleMode → (length (queue w) < fuel)%nat →
  ∃ due later w1 w2,
    queue w = due ++ later ∧
    Forall (λ k, k ≤ now w + tick_length w) (due.*1) ∧
    Forall (λ k, now w + tick_length w < k) (later.*1) ∧
    fire_due due (begin_tick w) = Ret w1 ∧
    OneTick run_handler Yield machine_DelayedLoad fuel w =
      (if yieldOnReturn (int_of w1)
       then w3 ← Yield (upd_int (λ i, set_status (set_yield i false) SystemMode) w2);
            Ret (upd_int (λ i, set_status i (status (int_of w))) w3)
       else Ret w2) ∧
    queue w2 ≡ₚ queue w1 ∧ k_sorted (queue w2) ∧
    Forall (λ k, now w2 < k) ((queue w2).*1) ∧
    now w2 = now w + tick_length w ∧ level (int_of w2) = IntOn ∧
    (accounted (stats_of w) → accounted (stats_of w2)).
Proof.
  intros [Ht1 Ht2] Hso Hst Hf. pose proof (tick_length_range w).
  destruct (begin_tick_spec w) as (Eq & En & El & Es & Hacc); [lia|lia|].
  destruct (sorted_split (now w + tick_length w) (queue w) Hso) as (due & later & E & Hd & Hl).
  destruct (check_loop_fires due later (begin_tick w) fuel)
    as (w1 & w' & news & Hfd & Hcl & Hq1 & Hn1 & Hq' & Hlate & Hlv' & Hst' & Hck & Hy);
    rewrite ?Eq, ?En, ?Es; try done.
  { unfold in_time. rewrite En. lia. }
  { rewrite E, length_app in Hf. lia. }
  rewrite En in *.
  pose proof (now_clocks _ _ Hck) as Hnow. rewrite En in Hnow.
  set (w2 := upd_int (λ i, ChangeLevel i IntOff IntOn) w').
  assert (queue w2 = put_back (queue w1) ∧ stats_of w2 = stats_of w' ∧ level (int_of w2) = IntOn ∧
    yieldOnReturn (int_of w2) = yieldOnReturn (int_of w1)) as (E1 & E2 & E3 & E4).
  { unfold w2. clock_simpl. by split_and!. }
  exists due, later, w1, w2. split_and!; try done.
  - unfold OneTick. change (upd_int (λ i, ChangeLevel i IntOn IntOff)
      (upd_stats _ w)) with (begin_tick w).
    rewrite Hcl. cbn [mbind outcome_bind]. fold w2. rewrite E4. done.
  - rewrite E1. apply put_back_perm.
  - rewrite E1, Hq1. apply put_back_sorted, add_pending_sorted.
    rewrite E in Hso. by eapply k_sorted_app_r.
  - rewrite E1, E2, Hnow, put_back_perm. done.
  - by rewrite E2.
  - rewrite E2. intros Ha. apply (accounted_clocks (stats_of (begin_tick w))); [done|]. by apply Hacc.
Qed.

(** ** Idling *)

(** Nothing will ever happen: no interrupt, or the time-slice timer alone. *)
Definition nothing_left (q : list (Z * PendingInterrupt H)) : Prop :=
  match q with
  | [] => True
  | [(_, e)] => type e = TimerInt
  | _ => False
  end.

(** The time of the first interrupt is an [int], far enough from the overflow. *)
Definition idle_in_time (w : W) : Prop :=
  in_time w ∧ match queue w with (k, _) :: _ => k + horizon < 2 ^ 31 ∧ k < 2 ^ 31 | [] => True end.

Lemma Idle_spec w fuel :
  idle_in_time w → k_sorted (queue w) → level (int_of w) = IntOff → (length (queue w) < fuel)%nat →
  ∃ w' c, Idle run_handler machine_DelayedLoad fuel w = Ret (w', c) ∧
    (c = HaltMachine ↔ nothing_left (queue w)) ∧ c ≠ FinishThread ∧
    (accounted (stats_of w) → accounted (stats_of w')) ∧
    now w ≤ now w' ∧
    match queue w with
    | (k, _) :: _ => now w' = Z.max (now w) k
    | [] => now w' = now w
    end ∧
    (c = Resume → status (int_of w') = SystemMode).
Proof.
  intros [[Ht1 Ht2] Hkt] Hso Hlv Hf. unfold Idle, CheckIfDue. clock_simpl. rewrite Hlv.
  rewrite bool_decide_true by done. cbn [ASSERT mbind outcome_bind].
  destruct (queue w) as [|[k e] q] eqn:Hq; cbn [k_remove].
  { cbn [mbind outcome_bind]. eexists _, _. split; [done|]. clock_simpl. by split_and!. }
  clock_simpl. cbn [negb andb].
  set (w0 := upd_int (λ i, set_pending i q) (upd_int (λ i, set_status i IdleMode) w)).
  set (wa := if now w <? k then upd_stats (λ s, set_clocks s k
    (s32 (idleTicks s + s32 (k - totalTicks s))) (systemTicks s) (userTicks s)) w0 else w0).
  assert (int_of wa = set_pending (set_status (int_of w) IdleMode) q) as Ei.
  { unfold wa, w0. destruct (now w <? k); clock_simpl; done. }
  assert (now wa = Z.max (now w) k ∧ (accounted (stats_of w) → accounted (stats_of wa))) as [En Ha].
  { unfold wa, w0, accounted. destruct (Z.ltb_spec (now w) k) as [Hk|Hk]; clock_simpl; cbn; [|lia].
    rewrite (s32_small (k - _)) by (unfold is_s32; lia). split; [lia|]. intros (? & ? & ? & ?).
    rewrite s32_small by (unfold is_s32; lia). lia. }
  assert (in_time wa) as Hta by (unfold in_time; rewrite En; lia).
  clearbody wa. rewrite Ei. cbn [set_pending set_status status pending].
  rewrite bool_decide_true by done. cbn [andb].
  unfold k_sorted in Hso. csimpl in Hso. inversion_clear Hso as [|? ? Hso' Hall].
  destruct (bool_decide (type e = TimerInt) && bool_decide (q = [])) eqn:Et.
  { cbn [mbind outcome_bind]. apply andb_true_iff in Et as [Et%bool_decide_eq_true Eq%bool_decide_eq_true].
    subst q. eexists _, _. split; [done|]. clock_simpl. rewrite En.
    split_and!; try done; lia. }
  assert (¬ nothing_left ((k, e) :: q)) as Hnl.
  { destruct q as [|[k' e'] q']; cbn; [|tauto]. intros Hty.
    rewrite (bool_decide_true _ Hty) in Et. done. }
  set (wb := upd_int (λ i, set_status i SystemMode) wa).
  pose proof (fire_spec e wa Hta) as (w1 & news & Hfire & Hlv1 & Hst1 & Hin1 & Hck1 & Hq1 & Hn1).
  unfold fire in Hfire. rewrite Ei in Hfire. cbn [set_pending set_status status] in Hfire.
  destruct (machine_DelayedLoad wa) as [wl| | |]; [|done..]. cbn [mbind outcome_bind] in Hfire |- *.
  destruct (run_handler _ _ _) as [wr| | |]; [|done..]. cbn [mbind outcome_bind] in Hfire |- *.
  injection Hfire as <-. set (w1 := upd_int _ wr) in *.
  pose proof (now_clocks _ _ Hck1) as Hnow. rewrite Ei in Hq1, Hlv1. cbn in Hq1, Hlv1.
  assert (k_sorted (queue w1)) as Hs1 by (rewrite Hq1; by apply add_pending_sorted).
  destruct (sorted_split (now w1) q Hso') as (due & later & -> & Hd & Hl).
  rewrite (add_pending_due (now w1)) in Hq1 by (try done; by rewrite Hnow).
  destruct (check_loop_total due (add_pending news later) w1 fuel) as (w' & -> & Hck & Hso2 & Hlv2);
    try done.
  { by apply (in_time_now wa). }
  { by rewrite Hlv1. } { apply add_pending_late; [done|]. by rewrite Hnow. }
  { simpl in Hf. rewrite length_app in Hf. lia. }
  cbn [mbind outcome_bind]. eexists _, _. split; [done|]. clock_simpl.
  pose proof (now_clocks _ _ Hck) as Hnow'. rewrite Hnow', Hnow, En.
  split_and!; try done; [|lia].
  intros Hacc. eapply accounted_clocks; [exact Hck|]. eapply accounted_clocks; [exact Hck1|].
  by apply Ha.
Qed.
End firing.

(** ** The timer, and a world to run it in *)

Section timer_facts.
Context {H W : Type} `{HasClockLaws H W}.

Lemma TimeOfNextInterrupt_range t r :
  0 ≤ r → 1 ≤ TimeOfNextInterrupt t r ≤ 2 * TimerTicks.
Proof.
  intros Hr. unfold TimeOfNextInterrupt, TimerTicks. destruct (randomize t); [|lia].
  pose proof (Z.rem_bound_pos r (100 * 2)). lia.
Qed.

(** The timer device is a well-behaved handler if the kernel's handler is. *)
Lemma TimerExpired_schedules (h : H) t r run horizon w :
  0 ≤ r → inHandler (int_of w) = true → 2 * TimerTicks ≤ horizon → in_time horizon w →
  (∀ w, inHandler (int_of w) = true → in_time horizon w →
    ∃ w', run (timer_handler t) (timer_arg t) w = Ret w' ∧ schedules_only w w') →
  ∃ w', TimerExpired h t r run w = Ret w' ∧ schedules_only w w'.
Proof.
  intros Hr Hin Hhz Ht Hrun. unfold TimerExpired, Schedule.
  pose proof (TimeOfNextInterrupt_range t r Hr) as Hd. pose proof Ht as [Ht1 Ht2].
  rewrite s32_small by (unfold is_s32; lia).
  rewrite ltb_true by lia. cbn [ASSERT mbind outcome_bind].
  set (wt := set_int _ w).
  destruct (Hrun wt) as (w' & -> & [Hlv Hck (news & Hq & Hn)]);
    [unfold wt; by rewrite int_set_int|unfold in_time, wt; by rewrite stats_set_int|].
  exists w'. split; [done|]. unfold wt in *. rewrite int_set_int, stats_set_int in *.
  split; [done|done|].
  exists ((totalTicks (stats_of w) + TimeOfNextInterrupt t r,
    mkPending h 0 (totalTicks (stats_of w) + TimeOfNextInterrupt t r) TimerInt) :: news).
  split; [done|]. constructor; [cbn; lia|done].
Qed.
End timer_facts.

(** Close to the overflow of the clock an interrupt meant for the future is given a time in the
    past. *)
Lemma Schedule_wraps {H} (i : Interrupt H) s h a fromNow t :
  0 ≤ totalTicks s < 2 ^ 31 → is_s32 fromNow → 2 ^ 31 ≤ totalTicks s + fromNow →
  ∃ when, Schedule i s h a fromNow t = Ret (set_pending i (k_insert when (mkPending h a when t) (pending i))) ∧
    when < 0.
Proof.
  unfold is_s32, Schedule. intros Hs Hf Ho. rewrite ltb_true by lia. eexists. split; [done|].
  rewrite s32_overflow by lia. lia.
Qed.

(** threads/system.cc: on a time slice, ask for a context switch. *)
Definition TimerInterruptHandler {H W} `{HasClock H W} (w : W) : outcome W :=
  if bool_decide (getStatus (int_of w) = IdleMode) then Ret w
  else i ← YieldOnReturn (int_of w); Ret (set_int i w).

(** The smallest world: the clock, and a log of the devices that fired. *)
Record ClockWorld := mkCW { cw_int : Interrupt nat; cw_stats : Statistics; cw_log : list nat }.
#[global] Instance ClockWorld_clock : HasClock nat ClockWorld := {|
  int_of := cw_int; set_int i w := mkCW i (cw_stats w) (cw_log w);
  stats_of := cw_stats; set_stats s w := mkCW (cw_int w) s (cw_log w) |}.
#[global] Instance ClockWorld_laws : HasClockLaws nat ClockWorld.
Proof. by split. Qed.

(** Device 0 is the timer, any other only leaves a mark in the log. *)
Definition demo_handler (h : nat) (a : Z) (w : ClockWorld) : outcome ClockWorld :=
  match h with
  | O => TimerExpired 0%nat (mkTimer true 0 0) 7 (λ _ _, TimerInterruptHandler) w
  | S _ => Ret (mkCW (cw_int w) (cw_stats w) (cw_log w ++ [h]))
  end.

Lemma demo_handlers_schedule : handlers_schedule demo_handler 200.
Proof.
  intros h a w Hin Ht. destruct h as [|h].
  - apply (TimerExpired_schedules _ _ _ _ 200); [lia|done|done|done|]. clear w Hin Ht. intros w Hin _.
    unfold TimerInterruptHandler. destruct (bool_decide _).
    + exists w. split; [done|]. split; [done..|]. by exists [].
    + unfold YieldOnReturn. rewrite Hin. cbn [ASSERT mbind outcome_bind].
      eexists. split; [done|]. split; [done..|]. by exists [].
  - eexists. split; [done|]. split; [done..|]. by exists [].
Qed.

Lemma demo_load_silent : load_is_silent (H := nat) (@Ret ClockWorld).
Proof. intros w. by exists w. Qed.

Definition demo_world : ClockWorld :=
  mkCW (mkInterrupt IntOn [(5, mkPending 1%nat 0 5 DiskInt); (8, mkPending 0%nat 0 8 TimerInt);
      (40, mkPending 2%nat 0 40 ConsoleReadInt)] false false SystemMode)
    (mkStats 3 1 2 0 0 0 0 0 0 0 0 0 0) [].

Lemma demo_sorted : k_sorted (pending (int_of demo_world)).
Proof. unfold k_sorted. cbn. repeat constructor; lia. Qed.

(** ** Properties *)

(** C14: as long as the clock, an [int], stays [horizon] ticks away from its overflow, where
    [horizon] bounds how far ahead the handlers schedule, one tick of the clock advances
    simulated time by the length of the tick, fires exactly the pending interrupts whose
    time has come, in order of their time, with interrupts off, and terminates: what is
    left on the queue is sorted and still to come.  Ticks stay accounted for, and the
    thread yields exactly when a handler asked for it. *)
Theorem OneTick_fires_due {H W} `{HasClockLaws H W} (run_handler : H → Z → W → outcome W)
    Yield machine_DelayedLoad horizon w fuel :
  handlers_schedule run_handler horizon → load_is_silent machine_DelayedLoad →
  tick_in_time horizon w → k_sorted (pending (int_of w)) → status (int_of w) ≠ IdleMode →
  (length (pending (int_of w)) < fuel)%nat →
  ∃ due later w1 w2,
    pending (int_of w) = due ++ later ∧
    Forall (λ k, k ≤ totalTicks (stats_of w) + tick_length w) (due.*1) ∧
    Forall (λ k, totalTicks (stats_of w) + tick_length w < k) (later.*1) ∧
    fire_due run_handler machine_DelayedLoad due (begin_tick w) = Ret w1 ∧
    OneTick run_handler Yield machine_DelayedLoad fuel w =
      (if yieldOnReturn (int_of w1)
       then w3 ← Yield (upd_int (λ i, set_status (set_yield i false) SystemMode) w2);
            Ret (upd_int (λ i, set_status i (status (int_of w))) w3)
       else Ret w2) ∧
    pending (int_of w2) ≡ₚ pending (int_of w1) ∧ k_sorted (pending (int_of w2)) ∧
    Forall (λ k, totalTicks (stats_of w2) < k) ((pending (int_of w2)).*1) ∧
    totalTicks (stats_of w2) = totalTicks (stats_of w) + tick_length w ∧
    level (int_of w2) = IntOn ∧ (accounted (stats_of w) → accounted (stats_of w2)).
Proof. intros Hh Hl. by apply OneTick_spec. Qed.

Lemma OneTick_fires_due_witness :
  ∃ w2, OneTick demo_handler (@Ret ClockWorld) (@Ret ClockWorld) 4 demo_world = Ret w2 ∧
    cw_log w2 = [1%nat] ∧ accounted (cw_stats w2).
Proof.
  destruct (OneTick_fires_due demo_handler (@Ret ClockWorld) (@Ret ClockWorld) 200 demo_world 4
    demo_handlers_schedule demo_load_silent) as
    (due & later & w1 & w2 & _ & _ & _ & _ & Ht & _ & _ & _ & _ & _ & Ha).
  - split; [discriminate|reflexivity].
  - exact demo_sorted.
  - discriminate.
  - cbn. lia.
  - eexists. split; [vm_compute; reflexivity|]. split; [reflexivity|].
    split; [reflexivity|]. split; [discriminate|]. split; discriminate.
Defined.

(** with no thread to run, [Idle] advances the clock to the first pending interrupt,
    never backwards, charging the time to idle time, and fires what is due; it halts
    the machine exactly when no interrupt is pending or only the time-slice timer
    is; and it terminates. *)
Theorem Idle_advances {H W} `{HasClockLaws H W} (run_handler : H → Z → W → outcome W)
    machine_DelayedLoad horizon w fuel :
  handlers_schedule run_handler horizon → load_is_silent machine_DelayedLoad →
  idle_in_time horizon w → k_sorted (pending (int_of w)) → level (int_of w) = IntOff →
  (length (pending (int_of w)) < fuel)%nat →
  ∃ w' c, Idle run_handler machine_DelayedLoad fuel w = Ret (w', c) ∧
    (c = HaltMachine ↔ nothing_left (pending (int_of w))) ∧ c ≠ FinishThread ∧
    (accounted (stats_of w) → accounted (stats_of w')) ∧
    totalTicks (stats_of w) ≤ totalTicks (stats_of w') ∧
    match pending (int_of w) with
    | (k, _) :: _ => totalTicks (stats_of w') = Z.max (totalTicks (stats_of w)) k
    | [] => totalTicks (stats_of w') = totalTicks (stats_of w)
    end ∧
    (c = Resume → status (int_of w') = SystemMode).
Proof. intros Hh Hl. by apply Idle_spec. Qed.

Definition idle_world : ClockWorld :=
  mkCW (set_level (cw_int demo_world) IntOff) (cw_stats demo_world) [].

Lemma Idle_advances_witness :
  ∃ w' c, Idle demo_handler (@Ret ClockWorld) 4 idle_world = Ret (w', c) ∧
    c = Resume ∧ totalTicks (stats_of w') = 5.
Proof.
  destruct (Idle_advances demo_handler (@Ret ClockWorld) 200 idle_world 4
    demo_handlers_schedule demo_load_silent) as
    (w' & c & E & Hh & Hf & _ & _ & En & _).
  - split; [split; [discriminate|reflexivity]|split; reflexivity].
  - exact demo_sorted.
  - reflexivity.
  - cbn. lia.
  - exists w', c. split; [exact E|]. split; [|exact En].
    destruct c; [reflexivity|exfalso; by apply Hh|done].
Defined.

End Interrupt.
