(* ===== verification/Disk.v ===== *)
(** * machine/disk.h, machine/disk.cc, filesys/synchdisk.h, filesys/synchdisk.cc: the
    physical disk and the synchronous interface to it

    The UNIX file that holds the disk is its list of bytes: the magic number, then
    the sectors.  A request moves the data at once and schedules the interrupt that
    completes it after [ComputeLatency] ticks.  [SectorDevice] is what the file system
    relies on: sectors of bytes that are read and written whole; it is implemented by
    a request on [Disk] followed by its completion.  That only one request is ever
    active is the business of the lock in SynchDisk, modelled with its threads in
    [SynchDisk]. *)

From S2P Require Import Prelude CInt NList Machine Interrupt.

Import Interrupt.
Open Scope Z_scope.

Definition SectorsPerTrack : Z := 32.
Definition NumTracks : Z := 32.
Definition NumSectors : Z := SectorsPerTrack * NumTracks.
Abbreviation SectorSize := Machine.SectorSize.

(** ** What a disk of sectors promises *)

(** The content of a sector: [SectorSize] bytes. *)
Definition is_sector (bs : list Z) : Prop :=
  Forall is_byte bs ∧ length bs = Z.to_nat SectorSize.

Class SectorOps (D : Type) := {
  sd_ReadSector : D → Z → outcome (D * list Z);
  sd_WriteSector : D → Z → list Z → outcome D;
}.

Class SectorDevice (D : Type) `{SectorOps D} := {
  sd_wf : D → Prop;
  sd_sector : D → Z → list Z;
  sd_sector_ok d s : sd_wf d → 0 ≤ s < NumSectors → is_sector (sd_sector d s);
  sd_read d s : sd_wf d → 0 ≤ s < NumSectors →
    ∃ d', sd_ReadSector d s = Ret (d', sd_sector d s) ∧ sd_wf d' ∧
      ∀ s', 0 ≤ s' < NumSectors → sd_sector d' s' = sd_sector d s';
  sd_write d s bs : sd_wf d → 0 ≤ s < NumSectors → is_sector bs →
    ∃ d', sd_WriteSector d s bs = Ret d' ∧ sd_wf d' ∧ sd_sector d' s = bs ∧
      ∀ s', 0 ≤ s' < NumSectors → s' ≠ s → sd_sector d' s' = sd_sector d s';
}.

Module Disk.

Definition MagicNumber : Z := 0x456789ab.
Definition MagicSize : Z := 4.
Definition DiskSize : Z := MagicSize + NumSectors * SectorSize.

(** [image] is the UNIX file; the interrupt handler and its argument are fixed by
    SynchDisk. *)
Record Disk := mkDisk {
  image : list Z; active : bool; lastSector : Z; bufferInit : Z }.

(** [Lseek] and [Read] or [WriteFile] on the file; a short read is an assertion
    failure (machine/sysdep.cc). *)
Definition file_read (f : list Z) (off n : Z) : outcome (list Z) :=
  let bs := take (Z.to_nat n) (drop (Z.to_nat off) f) in
  assert! Z.of_nat (length bs) =? n;;
  Ret bs.

Definition file_write (f : list Z) (off : Z) (bs : list Z) : list Z :=
  let f := f ++ replicate (Z.to_nat off - length f) 0 in
  take (Z.to_nat off) f ++ bs ++ drop (Z.to_nat off + length bs) f.

(** The constructor, with the file found under the disk's name, if any. *)
Definition Disk_new (existing : option (list Z)) : outcome Disk :=
  match existing with
  | Some f =>
      magicNum ← file_read f 0 MagicSize;
      assert! bytes_u32 magicNum =? MagicNumber;;
      Ret (mkDisk f false 0 0)
  | None =>
      let f := file_write [] 0 (word_bytes MagicNumber) in
      let f := file_write f (DiskSize - 4) (word_bytes 0) in
      Ret (mkDisk f false 0 0)
  end.

(** The words [PrintSector] prints. *)
Definition PrintSector (data : list Z) : list Z :=
  bytes_words (Z.to_nat (SectorSize / 4)) data.

(** ** Latency *)

(** The seek time and the rotation stored through the pointer. *)
Definition TimeToSeek (d : Disk) (totalTicks newSector : Z) : Z * Z :=
  let newTrack := newSector `quot` SectorsPerTrack in
  let oldTrack := lastSector d `quot` SectorsPerTrack in
  let seek := Z.abs (newTrack - oldTrack) * SeekTime in
  let over := s32 (totalTicks + seek) `rem` RotationTime in
  (seek, if 0 <? over then RotationTime - over else 0).

Definition ModuloDiff (to from : Z) : Z :=
  let toOffset := to `rem` SectorsPerTrack in
  let fromOffset := from `rem` SectorsPerTrack in
  ((toOffset - fromOffset) + SectorsPerTrack) `rem` SectorsPerTrack.

Definition ComputeLatency (d : Disk) (totalTicks newSector : Z) (writing : bool) : Z :=
  let '(seek, rotation) := TimeToSeek d totalTicks newSector in
  let timeAfter := s32 (totalTicks + seek + rotation) in
  if negb writing && (seek =? 0)
     && (ModuloDiff newSector (bufferInit d `quot` RotationTime) <?
         s32 (timeAfter - bufferInit d) `quot` RotationTime)
  then RotationTime
  else
    let rotation := rotation + ModuloDiff newSector (timeAfter `quot` RotationTime) * RotationTime in
    seek + rotation + RotationTime.

Definition UpdateLast (d : Disk) (totalTicks newSector : Z) : Disk :=
  let '(seek, rotate) := TimeToSeek d totalTicks newSector in
  mkDisk (image d) (active d) newSector
    (if negb (seek =? 0) then s32 (totalTicks + seek + rotate) else bufferInit d).

(** ** Requests *)
Section requests.
Context {H W : Type} `{HasClock H W}.
(** [DiskDone], the handler of the device. *)
Variable DiskDone : H.

Definition ReadRequest (d : Disk) (w : W) (sectorNumber : Z) :
    outcome (Disk * W * list Z) :=
  let ticks := ComputeLatency d (totalTicks (stats_of w)) sectorNumber false in
  assert! negb (active d);;
  assert! in_range sectorNumber NumSectors;;
  data ← file_read (image d) (SectorSize * sectorNumber + MagicSize) SectorSize;
  let d := mkDisk (image d) true (lastSector d) (bufferInit d) in
  let d := UpdateLast d (totalTicks (stats_of w)) sectorNumber in
  let w := upd_stats (count DiskReads) w in
  i ← Schedule (int_of w) (stats_of w) DiskDone 0 ticks DiskInt;
  Ret (d, set_int i w, data).

Definition WriteRequest (d : Disk) (w : W) (sectorNumber : Z) (data : list Z) :
    outcome (Disk * W) :=
  let ticks := ComputeLatency d (totalTicks (stats_of w)) sectorNumber true in
  assert! negb (active d);;
  assert! in_range sectorNumber NumSectors;;
  let img := file_write (image d) (SectorSize * sectorNumber + MagicSize)
    (take (Z.to_nat SectorSize) data) in
  let d := mkDisk img true (lastSector d) (bufferInit d) in
  let d := UpdateLast d (totalTicks (stats_of w)) sectorNumber in
  let w := upd_stats (count DiskWrites) w in
  i ← Schedule (int_of w) (stats_of w) DiskDone 0 ticks DiskInt;
  Ret (d, set_int i w).

(** [handler] is [SynchDisk::RequestDone]. *)
Definition HandleInterrupt {S} (d : Disk) (handler : S → outcome S) (s : S) :
    outcome (Disk * S) :=
  let d := mkDisk (image d) false (lastSector d) (bufferInit d) in
  s ← handler s;
  Ret (d, s).
End requests.

(** *** Latency *)

(** The bounds hold whatever the clock is. *)
Lemma TimeToSeek_bounds d now s :
  0 ≤ s < NumSectors → 0 ≤ lastSector d < NumSectors →
  ∃ seek rotation, TimeToSeek d now s = (seek, rotation) ∧
    0 ≤ seek ≤ (NumTracks - 1) * SeekTime ∧ 0 ≤ rotation < RotationTime ∧
    (seek = 0 ↔ s / SectorsPerTrack = lastSector d / SectorsPerTrack) ∧
    rotation = (if 0 <? s32 (now + seek) `rem` RotationTime
                then RotationTime - s32 (now + seek) `rem` RotationTime else 0).
Proof.
  unfold NumSectors, SectorsPerTrack, NumTracks, RotationTime, SeekTime. intros Hs Hl.
  unfold TimeToSeek, SectorsPerTrack, SeekTime, RotationTime.
  rewrite !Z.quot_div_nonneg by lia.
  set (t := s / 32). set (t' := lastSector d / 32).
  assert (0 ≤ t < 32 ∧ 0 ≤ t' < 32) as [Ht Ht'].
  { unfold t, t'. split; split; try (apply Z.div_pos; lia); apply Z.div_lt_upper_bound; lia. }
  set (seek := Z.abs (t - t') * 500). assert (0 ≤ seek ≤ 31 * 500) by (unfold seek; lia).
  eexists seek, _. split; [reflexivity|]. split; [lia|].
  pose proof (Z.rem_bound_abs (s32 (now + seek)) 500 ltac:(lia)).
  split; [destruct (Z.ltb_spec 0 (s32 (now + seek) `rem` 500)); lia|].
  split; [unfold seek; lia|done].
Qed.

Lemma TimeToSeek_spec d now s :
  0 ≤ now < 2 ^ 31 - NumTracks * SeekTime → 0 ≤ s < NumSectors → 0 ≤ lastSector d < NumSectors →
  ∃ seek rotation q, TimeToSeek d now s = (seek, rotation) ∧
    0 ≤ seek ≤ (NumTracks - 1) * SeekTime ∧ 0 ≤ rotation < RotationTime ∧
    now + seek + rotation = q * RotationTime ∧ 0 ≤ q ∧
    (seek = 0 ↔ s / SectorsPerTrack = lastSector d / SectorsPerTrack).
Proof.
  intros Hn Hs Hl. destruct (TimeToSeek_bounds d now s Hs Hl)
    as (seek & rotation & -> & Hseek & Hrot & Htr & Er).
  unfold NumTracks, SeekTime, RotationTime in *.
  rewrite s32_small in Er by (unfold is_s32; lia). rewrite Z.rem_mod_nonneg in Er by lia.
  pose proof (Z.div_mod (now + seek) 500 ltac:(lia)) as Hdm.
  pose proof (Z.mod_pos_bound (now + seek) 500 ltac:(lia)) as Hm.
  assert (0 ≤ (now + seek) / 500) by (apply Z.div_pos; lia).
  destruct (Z.ltb_spec 0 ((now + seek) mod 500)).
  - exists seek, rotation, ((now + seek) / 500 + 1). split_and!; try done; lia.
  - exists seek, rotation, ((now + seek) / 500). split_and!; try done; lia.
Qed.

Lemma ModuloDiff_spec to from :
  0 ≤ to → 0 ≤ from →
  0 ≤ ModuloDiff to from < SectorsPerTrack ∧
  (from + ModuloDiff to from) mod SectorsPerTrack = to mod SectorsPerTrack.
Proof.
  unfold ModuloDiff, SectorsPerTrack. intros Ht Hf.
  rewrite !(Z.rem_mod_nonneg _ 32) by
    (try lia; rewrite !Z.rem_mod_nonneg by lia;
     pose proof (Z.mod_pos_bound to 32); pose proof (Z.mod_pos_bound from 32); lia).
  split; [apply Z.mod_pos_bound; lia|].
  rewrite Zplus_mod_idemp_r. Z.div_mod_to_equations. lia.
Qed.

Lemma ModuloDiff_bounds to from :
  0 ≤ to → 0 ≤ ModuloDiff to from < SectorsPerTrack.
Proof.
  unfold ModuloDiff, SectorsPerTrack. intros Ht. rewrite (Z.rem_mod_nonneg to) by lia.
  pose proof (Z.mod_pos_bound to 32). pose proof (Z.rem_bound_abs from 32 ltac:(lia)).
  apply Z.rem_bound_pos; lia.
Qed.

(** The request takes at least one rotation and never more than a full seek and a
    full turn, whatever the clock is. *)
Lemma ComputeLatency_bounds d now s writing :
  0 ≤ s < NumSectors → 0 ≤ lastSector d < NumSectors →
  let l := ComputeLatency d now s writing in
  RotationTime ≤ l ∧
  l < (NumTracks - 1) * SeekTime + RotationTime + SectorsPerTrack * RotationTime.
Proof.
  intros Hs Hl. unfold ComputeLatency.
  destruct (TimeToSeek_bounds d now s Hs Hl) as (seek & rotation & -> & Hseek & Hrot & _).
  pose proof (ModuloDiff_bounds s (s32 (now + seek + rotation) `quot` RotationTime) ltac:(lia)).
  unfold NumTracks, SeekTime, RotationTime, SectorsPerTrack in *.
  destruct (negb writing && (seek =? 0) && _); cbn zeta; lia.
Qed.

(** Unless it is served from the track buffer, it ends when the head has just passed the
    sector, as long as the clock does not overflow meanwhile. *)
Lemma ComputeLatency_spec d now s writing :
  0 ≤ now < 2 ^ 31 - NumTracks * SeekTime → 0 ≤ s < NumSectors → 0 ≤ lastSector d < NumSectors →
  let l := ComputeLatency d now s writing in
  l = RotationTime ∧ writing = false ∧ s / SectorsPerTrack = lastSector d / SectorsPerTrack ∨
  ∃ turn, now + l = (turn + 1) * RotationTime ∧ turn mod SectorsPerTrack = s mod SectorsPerTrack.
Proof.
  intros Hn Hs Hl. unfold ComputeLatency.
  destruct (TimeToSeek_spec d now s Hn Hs Hl)
    as (seek & rotation & q & -> & Hseek & Hrot & Hq & Hq0 & Htr).
  destruct (negb writing && (seek =? 0) && _) eqn:E; cbn zeta.
  - apply andb_true_iff in E as [E _]. apply andb_true_iff in E as [Ew%negb_true_iff Es%Z.eqb_eq].
    left. split_and!; [done|done|by apply Htr].
  - rewrite Hq, s32_small.
    2:{ unfold is_s32, NumTracks, SeekTime, RotationTime in *. lia. }
    assert ((q * RotationTime) `quot` RotationTime = q) as -> by (apply Z.quot_mul; done).
    destruct (ModuloDiff_spec s q) as [Hmd Hmod]; [unfold NumSectors in *; lia|lia|].
    unfold NumTracks, SeekTime, RotationTime, SectorsPerTrack in *.
    right. exists (q + ModuloDiff s q). split; [lia|done].
Qed.

(** *** Sectors of the image *)

Definition sector (d : Disk) (s : Z) : list Z :=
  take (Z.to_nat SectorSize) (drop (Z.to_nat (SectorSize * s + MagicSize)) (image d)).

Record wf (d : Disk) : Prop := {
  wf_length : Z.of_nat (length (image d)) = DiskSize;
  wf_bytes : Forall is_byte (image d);
  wf_last : 0 ≤ lastSector d < NumSectors;
  wf_active : active d = false;
}.

Lemma sector_ok d s : wf d → 0 ≤ s < NumSectors → is_sector (sector d s).
Proof.
  intros [Hl Hb _ _] Hs. unfold sector, is_sector. split.
  - by apply Forall_take, Forall_drop.
  - rewrite length_take, length_drop.
    unfold DiskSize, MagicSize, NumSectors, SectorsPerTrack, NumTracks, Machine.SectorSize in *. lia.
Qed.

Lemma file_read_sector d s :
  wf d → 0 ≤ s < NumSectors →
  file_read (image d) (SectorSize * s + MagicSize) SectorSize = Ret (sector d s).
Proof.
  intros Hd Hs. unfold file_read. fold (sector d s).
  destruct (sector_ok d s Hd Hs) as [_ Hl]. rewrite Hl. done.
Qed.

Lemma sector_offset s : 0 ≤ s → Z.to_nat (SectorSize * s + MagicSize) = (4 + 128 * Z.to_nat s)%nat.
Proof. unfold MagicSize, Machine.SectorSize. lia. Qed.

Lemma file_write_sector d s bs :
  wf d → 0 ≤ s < NumSectors → is_sector bs →
  let img := file_write (image d) (SectorSize * s + MagicSize) bs in
  let d' := mkDisk img (active d) (lastSector d) (bufferInit d) in
  Z.of_nat (length img) = DiskSize ∧ Forall is_byte img ∧
  sector d' s = bs ∧ ∀ s', 0 ≤ s' < NumSectors → s' ≠ s → sector d' s' = sector d s'.
Proof.
  intros [Hl Hb _ _] Hs [Hbs Hlen] img d'.
  assert (Z.to_nat SectorSize = 128)%nat as E128 by done.
  assert (0 ≤ s < 1024) as Hs'' by exact Hs. assert (DiskSize = 131076) as ED by done.
  rewrite ED in *. rewrite E128 in Hlen.
  assert (img = take (4 + 128 * Z.to_nat s) (image d) ++ bs ++
    drop (4 + 128 * Z.to_nat s + 128) (image d)) as Eimg.
  { unfold img, file_write. rewrite sector_offset by lia.
    replace (_ - length (image d))%nat with 0%nat by lia.
    rewrite app_nil_r, Hlen. done. }
  clearbody img. subst img. unfold sector, d'. cbn [image]. rewrite E128.
  assert (length (take (4 + 128 * Z.to_nat s) (image d)) = 4 + 128 * Z.to_nat s)%nat as Ht
    by (rewrite length_take; lia).
  split_and!.
  - rewrite !length_app, Ht, length_drop. lia.
  - apply Forall_app_2; [by apply Forall_take|]. apply Forall_app_2; [done|by apply Forall_drop].
  - rewrite sector_offset by lia. rewrite drop_app_length' by done.
    by rewrite take_app_length' by done.
  - intros s' Hs' Hne. rewrite sector_offset by lia.
    assert (0 ≤ s' < 1024) by exact Hs'.
    apply list_eq. intros j. destruct (decide (j < 128)%nat) as [Hj|Hj].
    + rewrite !lookup_take_lt, !lookup_drop by done.
      destruct (decide (s' < s)).
      * rewrite lookup_app_l by lia. by rewrite lookup_take_lt by lia.
      * rewrite lookup_app_r, Ht, lookup_app_r, lookup_drop by lia. f_equal. lia.
    + rewrite !lookup_take_ge by lia. done.
Qed.

(** *** SynchDisk, one request at a time *)
Section synch.
Context {H W : Type} `{HasClockLaws H W}.
Variable DiskDone : H.

(** A request, then the interrupt that completes it. *)
Definition ReadSector (dw : Disk * W) (sectorNumber : Z) : outcome (Disk * W * list Z) :=
  '(d, w, data) ← ReadRequest DiskDone dw.1 dw.2 sectorNumber;
  '(d, _) ← HandleInterrupt d (@Ret unit) ();
  Ret ((d, w), data).

Definition WriteSector (dw : Disk * W) (sectorNumber : Z) (data : list Z) :
    outcome (Disk * W) :=
  '(d, w) ← WriteRequest DiskDone dw.1 dw.2 sectorNumber data;
  '(d, _) ← HandleInterrupt d (@Ret unit) ();
  Ret (d, w).

Definition synch_wf (dw : Disk * W) : Prop := wf dw.1.

Lemma Schedule_ok (i : Interrupt H) s h a d t :
  0 < d → Schedule i s h a d t =
    Ret (set_pending i (k_insert (s32 (totalTicks s + d)) (mkPending h a (s32 (totalTicks s + d)) t)
      (pending i))).
Proof. intros Hd. unfold Schedule. by rewrite ltb_true. Qed.

Lemma UpdateLast_spec d now s :
  image (UpdateLast d now s) = image d ∧ lastSector (UpdateLast d now s) = s ∧
  active (UpdateLast d now s) = active d.
Proof. unfold UpdateLast. by destruct (TimeToSeek d now s). Qed.

(** The world after a request: its interrupt is pending. *)
Definition requested (w w' : W) : Prop :=
  totalTicks (stats_of w') = totalTicks (stats_of w) ∧
  ∃ t, pending (int_of w') = k_insert t (mkPending DiskDone 0 t DiskInt) (pending (int_of w)).

Lemma requested_ok w c l :
  0 < l → ∃ i, Schedule (int_of (upd_stats (count c) w)) (stats_of (upd_stats (count c) w)) DiskDone 0 l DiskInt = Ret i ∧
    requested w (set_int i (upd_stats (count c) w)).
Proof.
  intros Hl. rewrite Schedule_ok by done. eexists. split; [done|].
  unfold upd_stats. rewrite int_set_stats. split; rewrite ?stats_set_int, ?int_set_int, stats_set_stats; [done|].
  cbn [totalTicks count]. by eexists.
Qed.

Lemma ReadRequest_ok d w s :
  wf d → 0 ≤ s < NumSectors →
  ∃ d' w', ReadRequest DiskDone d w s = Ret (d', w', sector d s) ∧ requested w w' ∧
    image d' = image d ∧ active d' = true ∧ lastSector d' = s.
Proof.
  intros Hd Hs. unfold ReadRequest.
  rewrite (wf_active d Hd), in_range_true by done. cbn [negb ASSERT mbind outcome_bind].
  rewrite file_read_sector by done. cbn [mbind outcome_bind].
  destruct (ComputeLatency_bounds d (totalTicks (stats_of w)) s false Hs (wf_last d Hd)) as [Hlat _].
  destruct (requested_ok w DiskReads (ComputeLatency d (totalTicks (stats_of w)) s false)) as (i & -> & Hr);
    [unfold RotationTime in *; lia|]. cbn [mbind outcome_bind].
  do 2 eexists. split; [done|]. split; [done|]. apply and_assoc.
  destruct (UpdateLast_spec (mkDisk (image d) true (lastSector d) (bufferInit d))
    (totalTicks (stats_of w)) s) as (E1 & E2 & E3). by rewrite E1, E2, E3.
Qed.

Lemma WriteRequest_ok d w s bs :
  wf d → 0 ≤ s < NumSectors → is_sector bs →
  ∃ d' w', WriteRequest DiskDone d w s bs = Ret (d', w') ∧ requested w w' ∧
    Z.of_nat (length (image d')) = DiskSize ∧ Forall is_byte (image d') ∧ active d' = true ∧ lastSector d' = s ∧
    sector d' s = bs ∧ ∀ s', 0 ≤ s' < NumSectors → s' ≠ s → sector d' s' = sector d s'.
Proof.
  intros Hd Hs Hbs. unfold WriteRequest.
  rewrite (wf_active d Hd), in_range_true by done. cbn [negb ASSERT mbind outcome_bind].
  destruct (ComputeLatency_bounds d (totalTicks (stats_of w)) s true Hs (wf_last d Hd)) as [Hlat _].
  destruct (requested_ok w DiskWrites (ComputeLatency d (totalTicks (stats_of w)) s true)) as (i & -> & Hr);
    [unfold RotationTime in *; lia|]. cbn [mbind outcome_bind].
  do 2 eexists. split; [done|]. split; [done|].
  rewrite take_ge by (destruct Hbs as [_ ->]; done).
  destruct (file_write_sector d s bs Hd Hs Hbs) as (Hl & Hb & Hsame & Hother).
  set (img := file_write _ _ _) in *.
  destruct (UpdateLast_spec (mkDisk img true (lastSector d) (bufferInit d))
    (totalTicks (stats_of w)) s) as (E1 & E2 & E3).
  unfold sector in *. cbn [image] in *. rewrite E1, E2, E3. by split_and!.
Qed.

Lemma HandleInterrupt_ok d :
  HandleInterrupt d (@Ret unit) () = Ret (mkDisk (image d) false (lastSector d) (bufferInit d), ()).
Proof. done. Qed.

Lemma ReadSector_spec dw s :
  synch_wf dw → 0 ≤ s < NumSectors →
  ∃ dw', ReadSector dw s = Ret (dw', sector dw.1 s) ∧ synch_wf dw' ∧
    image dw'.1 = image dw.1.
Proof.
  destruct dw as [d w]. intros Hd Hs. unfold synch_wf in Hd. cbn [fst snd] in *. unfold ReadSector. cbn [fst snd].
  destruct (ReadRequest_ok d w s Hd Hs) as (d' & w' & -> & [Et _] & E1 & _ & E2).
  cbn [mbind outcome_bind]. rewrite HandleInterrupt_ok. cbn [mbind outcome_bind].
  eexists. split; [done|]. unfold synch_wf. cbn [fst snd image]. rewrite E1. split; [|done].
  destruct Hd as [Hl Hb Hla _]. by split; cbn [image lastSector active]; rewrite ?E1, ?E2.
Qed.

Lemma WriteSector_spec dw s bs :
  synch_wf dw → 0 ≤ s < NumSectors → is_sector bs →
  ∃ dw', WriteSector dw s bs = Ret dw' ∧ synch_wf dw' ∧ sector dw'.1 s = bs ∧
    ∀ s', 0 ≤ s' < NumSectors → s' ≠ s → sector dw'.1 s' = sector dw.1 s'.
Proof.
  destruct dw as [d w]. intros Hd Hs Hbs. unfold synch_wf in Hd. cbn [fst snd] in *. unfold WriteSector. cbn [fst snd].
  destruct (WriteRequest_ok d w s bs Hd Hs Hbs) as (d' & w' & -> & [Et _] & E1 & E2 & _ & E3 & E4 & E5).
  cbn [mbind outcome_bind]. rewrite HandleInterrupt_ok. cbn [mbind outcome_bind].
  eexists. split; [done|]. unfold synch_wf. cbn [fst snd]. split; [|by split].
  by split; cbn [image lastSector active]; rewrite ?E3.
Qed.

#[global] Instance SynchDisk_ops : SectorOps (Disk * W) := {|
  sd_ReadSector := ReadSector; sd_WriteSector := WriteSector |}.

#[global] Instance SynchDisk_device : SectorDevice (Disk * W).
Proof.
  refine {| sd_wf := synch_wf; sd_sector dw := sector dw.1 |}.
  - intros [d w] s Hd Hs. by apply sector_ok.
  - intros dw s Hd Hs. destruct (ReadSector_spec dw s Hd Hs) as (dw' & E & Hw & Hi).
    exists dw'. split; [done|]. split; [done|]. intros s' _. unfold sector. by rewrite Hi.
  - intros dw s bs. apply WriteSector_spec.
Defined.
End synch.


(** ** Properties *)

(** [ComputeLatency] is at least one rotation, so that [Schedule] accepts it, and less
    than a full seek plus a full turn, even when the clock overflows; and unless the request
    is a read served from the track buffer of the current track, it ends exactly when the
    head has rotated past the sector, if the clock does not overflow meanwhile. *)
Theorem ComputeLatency_correct d now s writing :
  0 ≤ s < NumSectors → 0 ≤ lastSector d < NumSectors →
  let l := ComputeLatency d now s writing in
  RotationTime ≤ l ∧
  l < (NumTracks - 1) * SeekTime + RotationTime + SectorsPerTrack * RotationTime ∧
  (0 ≤ now < 2 ^ 31 - NumTracks * SeekTime →
   l = RotationTime ∧ writing = false ∧
     s / SectorsPerTrack = lastSector d / SectorsPerTrack ∨
   ∃ turn, now + l = (turn + 1) * RotationTime ∧
     turn mod SectorsPerTrack = s mod SectorsPerTrack).
Proof.
  intros Hs Hl l. destruct (ComputeLatency_bounds d now s writing Hs Hl) as [H1 H2].
  split; [done|]. split; [done|]. intros Hn. by apply ComputeLatency_spec.
Qed.

Lemma ComputeLatency_correct_witness :
  ComputeLatency (mkDisk [] false 0 0) 730 70 true = 2770 ∧
  RotationTime ≤ ComputeLatency (mkDisk [] false 0 0) 730 70 true.
Proof.
  split; [reflexivity|].
  apply (ComputeLatency_correct (mkDisk [] false 0 0) 730 70 true); cbn; split; try lia; reflexivity.
Defined.

(** the synchronous disk stores sectors: after [WriteSector], [ReadSector] of the same
    sector gives back what was written and of any other sector what it held before. *)
Theorem WriteSector_ReadSector {H W} `{HasClockLaws H W} (DiskDone : H) (dw : Disk * W) s s' bs :
  synch_wf dw → 0 ≤ s < NumSectors → 0 ≤ s' < NumSectors → is_sector bs →
  ∃ dw1 dw2 dw3 old,
    WriteSector DiskDone dw s bs = Ret dw1 ∧ synch_wf dw1 ∧
    ReadSector DiskDone dw s' = Ret (dw2, old) ∧
    ReadSector DiskDone dw1 s' = Ret (dw3, if decide (s' = s) then bs else old).
Proof.
  intros Hd Hs Hs' Hbs.
  destruct (WriteSector_spec DiskDone dw s bs Hd Hs Hbs) as (dw1 & E1 & Hd1 & Hsame & Hother).
  destruct (ReadSector_spec DiskDone dw s' Hd Hs') as (dw2 & E2 & _).
  destruct (ReadSector_spec DiskDone dw1 s' Hd1 Hs') as (dw3 & E3 & _).
  exists dw1, dw2, dw3, (sector dw.1 s'). split_and!; try done; try apply Hd1.
  rewrite E3. destruct (decide (s' = s)) as [->|Hne]; [by rewrite Hsame|by rewrite Hother].
Qed.

(** A freshly made disk. *)
Definition blank_disk : Disk :=
  match Disk_new None with Ret d => d | _ => mkDisk [] false 0 0 end.

Lemma file_write_extend f off bs :
  Z.of_nat (length f) ≤ off → Forall is_byte f → Forall is_byte bs →
  Z.of_nat (length (file_write f off bs)) = off + Z.of_nat (length bs) ∧
  Forall is_byte (file_write f off bs).
Proof.
  intros Hl Hf Hbs. unfold file_write.
  set (f' := f ++ replicate (Z.to_nat off - length f) 0).
  assert (length f' = Z.to_nat off) as Hl'.
  { unfold f'. rewrite length_app, length_replicate. lia. }
  assert (Forall is_byte f') as Hf'.
  { apply Forall_app_2; [done|]. apply Forall_replicate. unfold is_byte. lia. }
  clearbody f'. rewrite take_ge, drop_ge, app_nil_r by lia. split.
  - rewrite length_app. lia.
  - by apply Forall_app_2.
Qed.

Lemma blank_disk_wf : wf blank_disk.
Proof.
  unfold blank_disk, Disk_new.
  destruct (file_write_extend [] 0 (word_bytes MagicNumber)) as [Hl1 Hb1];
    [done|constructor|apply le_bytes_are_bytes|].
  set (f := file_write [] 0 _) in *.
  destruct (file_write_extend f (DiskSize - 4) (word_bytes 0)) as [Hl2 Hb2];
    [rewrite Hl1, word_bytes_length; by unfold Z.le|done|apply le_bytes_are_bytes|].
  split; cbn [image lastSector active]; [|done|by split|done].
  rewrite Hl2, word_bytes_length. lia.
Qed.

Lemma WriteSector_ReadSector_witness :
  ∃ dw1 dw2 dw3 old,
    WriteSector 9%nat (blank_disk, demo_world) 5 (replicate 128 7) = Ret dw1 ∧ synch_wf dw1 ∧
    ReadSector 9%nat (blank_disk, demo_world) 5 = Ret (dw2, old) ∧
    ReadSector 9%nat dw1 5 = Ret (dw3, if decide (5 = 5) then replicate 128 7 else old).
Proof.
  apply (WriteSector_ReadSector 9%nat (blank_disk, demo_world) 5 5 (replicate 128 7)).
  - exact blank_disk_wf.
  - split; [lia|reflexivity].
  - split; [lia|reflexivity].
  - split; [apply Forall_replicate; unfold is_byte; lia|reflexivity].
Defined.

End Disk.
