(* ===== verification/FileHdr.v ===== *)
(** * filesys/filehdr.h, filesys/filehdr.cc: file headers

    A [FileHeader] is one sector of [int]s: the length of the file, its number of
    sectors, and a table of [NumDirect] sector numbers.  The routines work on any free
    map that satisfies [BitMapSpec] and any disk that satisfies [SectorDevice].  The
    theorems say which sectors [Allocate] takes from the free map, that [Deallocate] gives
    back exactly those, and that a header survives the trip to the disk.  [Allocate] does
    not look at [NumDirect]: a file of more sectors runs off the table. *)

From S2P Require Import Prelude CInt Machine Interrupt BitMap MemManage Disk.

Open Scope Z_scope.

Module FileHdr.

Definition NumDirect : Z := (SectorSize - 2 * 4) / 4.
Definition MaxFileSize : Z := NumDirect * SectorSize.

Record FileHeader := mkHdr { numBytes : Z; numSectors : Z; dataSectors : list Z }.

(** The header as it lies in memory and on its sector. *)
Definition hdr_bytes (h : FileHeader) : list Z :=
  words_bytes (numBytes h :: numSectors h :: dataSectors h).
Definition bytes_hdr (bs : list Z) : FileHeader :=
  match bytes_ints (2 + Z.to_nat NumDirect) bs with
  | nb :: ns :: ds => mkHdr nb ns ds
  | _ => mkHdr 0 0 []
  end.

Section filehdr.
Context {B D : Type} `{BitMapSpec B} `{SectorDevice D}.

(** [this] is the header in memory, whose table keeps its old content. *)
Definition Allocate (this : FileHeader) (freeMap : B) (fileSize : Z) :
    outcome (FileHeader * B * bool) :=
  let numSectors := divRoundUp fileSize SectorSize in
  let this := mkHdr fileSize numSectors (dataSectors this) in
  clear ← bm_NumClear freeMap;
  if clear <? numSectors then Ret (this, freeMap, false)
  else
    '(ds, freeMap) ← for_range (λ i '(ds, freeMap),
      '(freeMap, s) ← bm_Find freeMap;
      ds ← wr ds i s;
      Ret (ds, freeMap)) 0 (Z.to_nat numSectors) (dataSectors this, freeMap);
    Ret (mkHdr fileSize numSectors ds, freeMap, true).

Definition Deallocate (this : FileHeader) (freeMap : B) : outcome B :=
  for_range (λ i freeMap,
    s ← rd (dataSectors this) i;
    t ← bm_Test freeMap s;
    assert! t;;
    bm_Clear freeMap s) 0 (Z.to_nat (numSectors this)) freeMap.

Definition FetchFrom (d : D) (sector : Z) : outcome (D * FileHeader) :=
  '(d, bs) ← sd_ReadSector d sector;
  Ret (d, bytes_hdr bs).

Definition WriteBack (this : FileHeader) (d : D) (sector : Z) : outcome D :=
  sd_WriteSector d sector (hdr_bytes this).

Definition ByteToSector (this : FileHeader) (offset : Z) : outcome Z :=
  rd (dataSectors this) (offset `quot` SectorSize).

Definition FileLength (this : FileHeader) : Z := numBytes this.

(** What [Print] prints: the length, the block numbers, and the bytes of each block
    that belong to the file. *)
Definition Print (this : FileHeader) (d : D) :
    outcome (D * (Z * list Z * list (list Z))) :=
  blocks ← for_range (λ i out, s ← rd (dataSectors this) i; Ret (out ++ [s]))
    0 (Z.to_nat (numSectors this)) [];
  '(d, k, text) ← for_range (λ i '(d, k, out),
      s ← rd (dataSectors this) i;
      '(d, data) ← sd_ReadSector d s;
      let n := Z.max 0 (Z.min SectorSize (numBytes this - k)) in
      Ret (d, k + n, out ++ [take (Z.to_nat n) data]))
    0 (Z.to_nat (numSectors this)) (d, 0, []);
  Ret (d, (numBytes this, blocks, text)).

End filehdr.

(** ** Headers on disk *)

(** A header whose fields are [int]s and whose table has its fixed size. *)
Record hdr_ints (h : FileHeader) : Prop := {
  hi_bytes : is_s32 (numBytes h);
  hi_sectors : is_s32 (numSectors h);
  hi_table : Forall is_s32 (dataSectors h);
  hi_length : length (dataSectors h) = Z.to_nat NumDirect;
}.

Lemma hdr_bytes_sector h : length (dataSectors h) = Z.to_nat NumDirect → is_sector (hdr_bytes h).
Proof.
  intros Hl. split; [apply words_bytes_are_bytes|].
  unfold hdr_bytes. rewrite words_bytes_length. cbn [length]. rewrite Hl. done.
Qed.

Lemma bytes_hdr_bytes h : hdr_ints h → bytes_hdr (hdr_bytes h) = h.
Proof.
  intros [Hb Hs Ht Hl]. unfold bytes_hdr, hdr_bytes.
  rewrite <- (app_nil_r (words_bytes _)).
  replace (2 + Z.to_nat NumDirect)%nat
    with (length (numBytes h :: numSectors h :: dataSectors h)) by (cbn [length]; lia).
  rewrite bytes_ints_s32 by (by rewrite !Forall_cons). by destruct h.
Qed.

Lemma bytes_hdr_table bs : length (dataSectors (bytes_hdr bs)) = Z.to_nat NumDirect.
Proof.
  unfold bytes_hdr.
  destruct (bytes_ints (2 + Z.to_nat NumDirect) bs) as [|nb [|ns ds]] eqn:E;
    apply (f_equal length) in E; unfold bytes_ints in E;
    rewrite length_fmap, bytes_words_length in E; change (Z.to_nat NumDirect) with 30%nat in *;
    cbn [length dataSectors] in *; lia.
Qed.

(** The sectors of the file's data. *)
Definition blocks (h : FileHeader) : list Z := take (Z.to_nat (numSectors h)) (dataSectors h).

(** A header in order on a disk of [NumSectors] sectors. *)
Record hdr_wf (h : FileHeader) : Prop := {
  hw_ints : hdr_ints h;
  hw_size : 0 ≤ numBytes h;
  hw_sectors : numSectors h = divRoundUp (numBytes h) SectorSize;
  hw_direct : numSectors h ≤ NumDirect;
  hw_range : Forall (λ s, 0 ≤ s < NumSectors) (blocks h);
  hw_nodup : NoDup (blocks h);
}.

Lemma blocks_length h : hdr_wf h → Z.of_nat (length (blocks h)) = numSectors h.
Proof.
  intros [[_ _ _ Hl] Hb Hs Hd _ _]. unfold blocks. rewrite length_take, Hl.
  pose proof (divRoundUp_nonneg (numBytes h) SectorSize Hb ltac:(done)). lia.
Qed.

Lemma blocks_lookup h i s :
  hdr_wf h → rd (blocks h) i = Ret s ↔ rd (dataSectors h) i = Ret s ∧ i < numSectors h.
Proof.
  intros Hh. rewrite !rd_Ret. rewrite (blocks_length h Hh). unfold blocks. split.
  - intros [Hi Hs]. rewrite lookup_take_lt in Hs by lia.
    apply lookup_lt_Some in Hs as ?. split; [split; [lia|done]|lia].
  - intros [[Hi Hs] Hlt]. split; [lia|]. by rewrite lookup_take_lt by lia.
Qed.


(** ** Allocation *)
Section allocation.
Context {B D : Type} `{BitMapSpec B} `{SectorDevice D}.

Abbreviation used b := (set_bits (bm_bits b)).
Abbreviation free_sectors b := (num_clear (bm_bits b)).

Lemma elem_used_range (b : B) s : s ∈ used b → 0 ≤ s < Z.of_nat (length (bm_bits b)).
Proof. intros (i & -> & Hi)%elem_of_set_bits. apply lookup_lt_Some in Hi. lia. Qed.

(** One call of [Find] while there is room. *)
Lemma Find_takes (b : B) :
  bm_wf b → (0 < free_sectors b)%nat →
  ∃ b' s, bm_Find b = Ret (b', s) ∧ bm_wf b' ∧ length (bm_bits b') = length (bm_bits b) ∧
    0 ≤ s < Z.of_nat (length (bm_bits b)) ∧ s ∉ used b ∧ used b' = {[s]} ∪ used b ∧
    free_sectors b = S (free_sectors b').
Proof.
  intros Hb Hc. pose proof (bm_Find_spec b Hb) as Hf.
  destruct (first_clear (bm_bits b)) as [i|] eqn:E.
  - destruct Hf as (b' & Hf & Hb' & Hbits). exists b', (Z.of_nat i).
    pose proof (first_clear_lt _ _ E). apply first_clear_Some in E as [Hi _].
    rewrite Hbits, length_insert. split_and!; try done; [lia|lia| | |].
    + rewrite elem_of_set_bits_nat. congruence.
    + by apply set_bits_insert_true.
    + by apply num_clear_insert_true.
  - apply first_clear_None in E. lia.
Qed.

Lemma take_insert_snoc {A} (l : list A) i x :
  (i < length l)%nat → take (S i) (<[i := x]> l) = take i l ++ [x].
Proof.
  intros Hi. rewrite (take_S_r _ _ x) by (by apply list_lookup_insert_eq).
  by rewrite take_insert_ge by lia.
Qed.

(** The allocation loop: [n] new sectors, all different, none in use before. *)
Lemma Allocate_loop (b : B) ds n :
  bm_wf b → (n ≤ free_sectors b)%nat → (n ≤ length ds)%nat →
  ∃ ds' b', for_range (λ i '(ds, freeMap),
      '(freeMap, s) ← bm_Find freeMap;
      ds ← wr ds i s;
      Ret (ds, freeMap)) 0 n (ds, b) = Ret (ds', b') ∧
    bm_wf b' ∧ length (bm_bits b') = length (bm_bits b) ∧ length ds' = length ds ∧
    NoDup (take n ds') ∧ drop n ds' = drop n ds ∧
    (∀ s, s ∈ take n ds' → s ∉ used b ∧ 0 ≤ s < Z.of_nat (length (bm_bits b))) ∧
    used b' = list_to_set (take n ds') ∪ used b ∧
    (free_sectors b = n + free_sectors b')%nat.
Proof.
  intros Hb Hn Hds.
  edestruct (for_range_inv (λ i '(ds, freeMap),
      '(freeMap, s) ← bm_Find freeMap;
      ds ← wr ds i s;
      Ret (ds, freeMap))
    (λ i '(ds', b'), let k := Z.to_nat i in
      bm_wf b' ∧ length (bm_bits b') = length (bm_bits b) ∧ length ds' = length ds ∧
      NoDup (take k ds') ∧ drop k ds' = drop k ds ∧
      (∀ s, s ∈ take k ds' → s ∉ used b ∧ 0 ≤ s < Z.of_nat (length (bm_bits b))) ∧
      used b' = list_to_set (take k ds') ∪ used b ∧
      (free_sectors b = k + free_sectors b')%nat) 0 n (ds, b))
    as ([ds' b'] & E & HI).
  - intros i [ds1 b1] Hi (Hb1 & Hl1 & Hd1 & Hnd & Hdr & Hin & Hu & Hf).
    rewrite Z.add_0_l in Hi. set (k := Z.to_nat i) in *.
    assert (k < n)%nat as Hk by lia.
    destruct (Find_takes b1 Hb1) as (b2 & s & -> & Hb2 & Hl2 & Hs & Hns & Hu2 & Hf2); [lia|].
    cbn [mbind outcome_bind]. rewrite wr_ok by lia. cbn [mbind outcome_bind].
    eexists. split; [done|].
    replace (Z.to_nat (i + 1)) with (S k) by lia. fold k. cbv zeta.
    rewrite take_insert_snoc by lia. rewrite Hu in Hns.
    split_and!; [done|congruence|by rewrite length_insert| | | | |lia].
    + apply NoDup_app. split_and!; [done| |apply NoDup_singleton].
      intros x Hx. set_solver.
    + rewrite drop_insert_lt by lia. replace (S k) with (k + 1)%nat by lia.
      by rewrite <- !drop_drop, Hdr.
    + intros x [Hx | ->%list_elem_of_singleton]%elem_of_app; [by apply Hin|].
      rewrite Hl1 in Hs. set_solver.
    + rewrite Hu2, Hu, list_to_set_app_L. set_solver.
  - cbn. rewrite Z2Nat.inj_0. cbn. split_and!; try done; [constructor|set_solver|set_solver].
  - exists ds', b'. rewrite Z.add_0_l, Nat2Z.id in HI. split; [exact E|]. by cbv zeta in HI.
Qed.

Lemma is_s32_sectors (ds : list Z) n :
  Forall (λ s, 0 ≤ s < NumSectors) (take n ds) → Forall is_s32 (drop n ds) → Forall is_s32 ds.
Proof.
  intros Ht Hd. rewrite <- (take_drop n ds). apply Forall_app_2; [|done].
  eapply Forall_impl; [exact Ht|]. unfold is_s32, NumSectors, SectorsPerTrack, NumTracks.
  cbn beta. lia.
Qed.

(** A table that may still hold junk. *)
Definition table_ok (h : FileHeader) : Prop :=
  Forall is_s32 (dataSectors h) ∧ length (dataSectors h) = Z.to_nat NumDirect.

Lemma Allocate_spec this (b : B) fileSize :
  bm_wf b → Z.of_nat (length (bm_bits b)) = NumSectors → table_ok this →
  0 ≤ fileSize ≤ MaxFileSize →
  if Z.of_nat (free_sectors b) <? divRoundUp fileSize SectorSize
  then ∃ h', Allocate this b fileSize = Ret (h', b, false)
  else ∃ h' b', Allocate this b fileSize = Ret (h', b', true) ∧
    hdr_wf h' ∧ numBytes h' = fileSize ∧ bm_wf b' ∧
    length (bm_bits b') = length (bm_bits b) ∧
    list_to_set (blocks h') ## used b ∧ used b' = list_to_set (blocks h') ∪ used b.
Proof.
  intros Hb Hlen [Hjunk Htab] Hsize. unfold Allocate. rewrite bm_NumClear_spec by done.
  cbn [mbind outcome_bind].
  pose proof (divRoundUp_bounds fileSize SectorSize ltac:(lia) ltac:(done)) as Hn.
  pose proof (divRoundUp_nonneg fileSize SectorSize ltac:(lia) ltac:(done)) as Hn0.
  set (n := divRoundUp fileSize SectorSize) in *.
  destruct (Z.ltb_spec (Z.of_nat (free_sectors b)) n); [eauto|].
  assert (n ≤ NumDirect) as Hdir.
  { change MaxFileSize with 3840 in *. change NumDirect with 30 in *.
    change SectorSize with 128 in *. lia. }
  cbn [dataSectors]. destruct (Allocate_loop b (dataSectors this) (Z.to_nat n))
    as (ds' & b' & -> & Hb' & Hl' & Hld & Hnd & Hdr & Hin & Hu & Hf); [done|lia|lia|].
  cbn [mbind outcome_bind]. eexists _, b'. split; [done|].
  assert (Forall (λ s, 0 ≤ s < NumSectors) (take (Z.to_nat n) ds')) as Hrange.
  { apply Forall_forall. intros s Hs. rewrite <- Hlen. by apply Hin. }
  split_and!; try done.
  - split; [split| | | |done|done]; cbn [numBytes numSectors dataSectors]; try done; [..|apply Hsize].
    + change MaxFileSize with 3840 in Hsize. unfold is_s32. lia.
    + change NumDirect with 30 in Hdir. unfold is_s32. lia.
    + apply (is_s32_sectors _ (Z.to_nat n)); [done|]. rewrite Hdr. by apply Forall_drop.
    + congruence.
  - unfold blocks. cbn [numSectors dataSectors]. intros s Hs%elem_of_list_to_set Hs'.
    by destruct (Hin s Hs).
Qed.

(** A file of more than [NumDirect] sectors runs off the table. *)
Lemma Allocate_overruns this (b : B) fileSize :
  bm_wf b → table_ok this → MaxFileSize < fileSize →
  divRoundUp fileSize SectorSize ≤ Z.of_nat (free_sectors b) →
  Allocate this b fileSize = Undefined.
Proof.
  intros Hb [_ Htab] Hsize Hfree. unfold Allocate. rewrite bm_NumClear_spec by done.
  cbn [mbind outcome_bind]. rewrite ltb_false by lia.
  assert (0 < fileSize) as Hpos.
  { change MaxFileSize with 3840 in Hsize. lia. }
  pose proof (divRoundUp_bounds fileSize SectorSize ltac:(lia) ltac:(done)) as Hn.
  set (n := divRoundUp fileSize SectorSize) in *.
  assert (NumDirect < n) as Hdir.
  { change MaxFileSize with 3840 in *. change NumDirect with 30 in *.
    change SectorSize with 128 in *. lia. }
  assert (Z.to_nat n = Z.to_nat NumDirect + S (Z.to_nat (n - NumDirect - 1)))%nat as ->.
  { assert (0 ≤ NumDirect) by done. lia. }
  rewrite for_range_app. cbn [dataSectors].
  destruct (Allocate_loop b (dataSectors this) (Z.to_nat NumDirect))
    as (ds' & b' & -> & Hb' & Hl' & Hld & Hnd & Hdr & Hin & Hu & Hf); [done|lia|lia|].
  cbn [mbind outcome_bind for_range].
  destruct (Find_takes b' Hb') as (b2 & s & -> & _); [change NumDirect with 30 in *; lia|]. cbn [mbind outcome_bind].
  unfold wr. by rewrite in_range_false by (change NumDirect with 30 in *; lia).
Qed.

Lemma Deallocate_spec h (b : B) :
  hdr_wf h → bm_wf b → Z.of_nat (length (bm_bits b)) = NumSectors →
  list_to_set (blocks h) ⊆ used b →
  ∃ b', Deallocate h b = Ret b' ∧ bm_wf b' ∧ length (bm_bits b') = length (bm_bits b) ∧
    used b' = used b ∖ list_to_set (blocks h).
Proof.
  intros Hh Hb Hlen Hsub. unfold Deallocate.
  pose proof (blocks_length h Hh) as Hbl.
  edestruct (for_range_inv (λ i freeMap,
      s ← rd (dataSectors h) i;
      t ← bm_Test freeMap s;
      assert! t;;
      bm_Clear freeMap s)
    (λ i b', bm_wf b' ∧ length (bm_bits b') = length (bm_bits b) ∧
      used b' = used b ∖ list_to_set (take (Z.to_nat i) (blocks h)))
    0 (Z.to_nat (numSectors h)) b) as (b' & E & Hb' & Hl' & Hu).
  - intros i b1 Hi (Hb1 & Hl1 & Hu1). rewrite Z.add_0_l in Hi.
    destruct (rd_in_range (blocks h) i) as [s Hs]; [lia|].
    pose proof (proj1 (blocks_lookup h i s Hh) Hs) as [-> _]. cbn [mbind outcome_bind].
    apply rd_Ret in Hs as [_ Hs].
    assert (s ∈ blocks h) as Hin by (by eapply list_elem_of_lookup_2).
    assert (0 ≤ s < NumSectors) as Hrange.
    { pose proof (hw_range h Hh) as Hr. rewrite Forall_forall in Hr. by apply Hr. }
    assert (s ∈ used b1) as Hmarked.
    { rewrite Hu1. apply elem_of_difference. split; [set_solver|].
      intros (j & Hj & Hlt)%elem_of_list_to_set%elem_of_take.
      pose proof (NoDup_lookup _ _ _ _ (hw_nodup h Hh) Hs Hj). lia. }
    rewrite <- (Z2Nat.id s) in Hmarked by lia. apply elem_of_set_bits_nat in Hmarked.
    pose proof (bm_Test_spec b1 _ true Hb1 Hmarked) as Ht. rewrite Z2Nat.id in Ht by lia.
    rewrite Ht. cbn [ASSERT mbind outcome_bind].
    destruct (bm_Clear_spec b1 s Hb1) as (b2 & -> & Hb2 & Hbits); [rewrite Hl1; lia|].
    eexists. split; [done|]. rewrite Hbits, length_insert, set_bits_insert_false, Hu1.
    rewrite Z2Nat.id by lia. split_and!; [done|done|].
    replace (Z.to_nat (i + 1)) with (S (Z.to_nat i)) by lia.
    rewrite (take_S_r _ _ s) by done. rewrite list_to_set_app_L. set_solver.
  - cbn. split_and!; [done|done|set_solver].
  - exists b'. split; [exact E|]. split; [done|]. split; [done|].
    rewrite Hu, Z.add_0_l, Nat2Z.id. by rewrite take_ge by lia.
Qed.
End allocation.

(** *** Headers on a device *)
Section headers.
Context {D : Type} `{SectorDevice D}.

Lemma WriteBack_spec h (d : D) s :
  sd_wf d → 0 ≤ s < NumSectors → length (dataSectors h) = Z.to_nat NumDirect →
  ∃ d', WriteBack h d s = Ret d' ∧ sd_wf d' ∧ sd_sector d' s = hdr_bytes h ∧
    ∀ s', 0 ≤ s' < NumSectors → s' ≠ s → sd_sector d' s' = sd_sector d s'.
Proof. intros Hd Hs Hl. apply sd_write; [done|done|by apply hdr_bytes_sector]. Qed.

Lemma FetchFrom_spec (d : D) s :
  sd_wf d → 0 ≤ s < NumSectors →
  ∃ d', FetchFrom d s = Ret (d', bytes_hdr (sd_sector d s)) ∧ sd_wf d' ∧
    ∀ s', 0 ≤ s' < NumSectors → sd_sector d' s' = sd_sector d s'.
Proof.
  intros Hd Hs. unfold FetchFrom. destruct (sd_read d s Hd Hs) as (d' & -> & Hd' & Hk).
  eauto.
Qed.
End headers.

(** ** Properties *)

(** [Allocate] fails, leaving the free map alone, exactly when there are fewer free
    sectors than the file needs; otherwise the header lists the right number of
    sectors, all different, on the disk and free before, the map marks exactly them in
    addition, and [Deallocate] of that header gives back the map it started from. *)
Theorem Allocate_Deallocate {B} `{BitMapSpec B} this (b : B) fileSize :
  bm_wf b → Z.of_nat (length (bm_bits b)) = NumSectors → table_ok this →
  0 ≤ fileSize ≤ MaxFileSize →
  if Z.of_nat (num_clear (bm_bits b)) <? divRoundUp fileSize SectorSize
  then ∃ h', Allocate this b fileSize = Ret (h', b, false)
  else ∃ h' b' b'', Allocate this b fileSize = Ret (h', b', true) ∧
    hdr_wf h' ∧ numBytes h' = fileSize ∧
    list_to_set (blocks h') ## set_bits (bm_bits b) ∧
    set_bits (bm_bits b') = list_to_set (blocks h') ∪ set_bits (bm_bits b) ∧
    Deallocate h' b' = Ret b'' ∧ bm_wf b'' ∧
    set_bits (bm_bits b'') = set_bits (bm_bits b).
Proof.
  intros Hb Hlen Htab Hsize. pose proof (Allocate_spec this b fileSize Hb Hlen Htab Hsize) as Ha.
  destruct (_ <? _); [done|].
  destruct Ha as (h' & b' & Ha & Hh & Hn & Hb' & Hl' & Hdis & Hu).
  destruct (Deallocate_spec h' b') as (b'' & Hd & Hb'' & _ & Hu'');
    [done|done|congruence|rewrite Hu; set_solver|].
  exists h', b', b''. split_and!; try done. rewrite Hu'', Hu. set_solver.
Qed.

Definition blank_hdr : FileHeader := mkHdr 0 0 (replicate 30 0).

Lemma blank_hdr_ok : table_ok blank_hdr.
Proof. split; [|done]. apply Forall_replicate. by unfold is_s32. Qed.

Definition empty_map : BitMap.BitMap := BitMap.mkBitMap NumSectors 32 (replicate 32 0).

Lemma empty_map_eq : BitMap.BitMap_new NumSectors (replicate 32 0) = Ret empty_map.
Proof. vm_compute. reflexivity. Qed.

Lemma empty_map_ok :
  bm_wf empty_map ∧ bm_bits empty_map = replicate (Z.to_nat NumSectors) false.
Proof.
  destruct (BitMap.BitMap_new_spec NumSectors (replicate 32 0)) as (b & E & Hb & Hbits);
    [done|by apply Forall_replicate|done|].
  rewrite empty_map_eq in E. by injection E as <-.
Qed.

Lemma Allocate_Deallocate_witness :
  ∃ h' b' b'', Allocate blank_hdr empty_map 300 = Ret (h', b', true) ∧
    hdr_wf h' ∧ numBytes h' = 300 ∧
    list_to_set (blocks h') ## set_bits (bm_bits empty_map) ∧
    set_bits (bm_bits b') = list_to_set (blocks h') ∪ set_bits (bm_bits empty_map) ∧
    Deallocate h' b' = Ret b'' ∧ bm_wf b'' ∧
    set_bits (bm_bits b'') = set_bits (bm_bits empty_map).
Proof.
  pose proof (Allocate_Deallocate blank_hdr empty_map 300) as H.
  destruct empty_map_ok as [Hb Hbits]. rewrite Hbits in H.
  change (Z.of_nat (num_clear (replicate (Z.to_nat NumSectors) false)) <? divRoundUp 300 SectorSize)
    with false in H. rewrite <- Hbits in H. apply H; [exact Hb| |apply blank_hdr_ok|split; [lia|discriminate]].
  rewrite Hbits. reflexivity.
Defined.

(** the code has no check against [NumDirect]: a file larger than [MaxFileSize] for
    which the disk has room makes [Allocate] write past the end of the sector table. *)
Theorem Allocate_no_size_check {B} `{BitMapSpec B} this (b : B) fileSize :
  bm_wf b → table_ok this → MaxFileSize < fileSize →
  divRoundUp fileSize SectorSize ≤ Z.of_nat (num_clear (bm_bits b)) →
  Allocate this b fileSize = Undefined.
Proof. apply Allocate_overruns. Qed.

Lemma Allocate_no_size_check_witness : Allocate blank_hdr empty_map 3841 = Undefined.
Proof.
  destruct empty_map_ok as [Hb Hbits].
  apply Allocate_no_size_check; [exact Hb|apply blank_hdr_ok|reflexivity|].
  rewrite Hbits. vm_compute. discriminate.
Defined.

(** a header written to its sector and fetched again is the same header, and no other
    sector changes. *)
Theorem WriteBack_FetchFrom {D} `{SectorDevice D} h (d : D) s :
  sd_wf d → 0 ≤ s < NumSectors → hdr_ints h →
  ∃ d' d'', WriteBack h d s = Ret d' ∧ FetchFrom d' s = Ret (d'', h) ∧ sd_wf d'' ∧
    ∀ s', 0 ≤ s' < NumSectors → s' ≠ s → sd_sector d'' s' = sd_sector d s'.
Proof.
  intros Hd Hs Hh. destruct (WriteBack_spec h d s Hd Hs (hi_length h Hh)) as (d' & E & Hd' & Hsame & Hk).
  destruct (FetchFrom_spec d' s Hd' Hs) as (d'' & E' & Hd'' & Hk').
  exists d', d''. rewrite E', Hsame, bytes_hdr_bytes by done. split_and!; try done.
  intros s' Hs' Hne. by rewrite Hk', Hk.
Qed.

Lemma WriteBack_FetchFrom_witness :
  let h := mkHdr 300 3 (replicate 30 77) in
  let dw := (Disk.blank_disk, Interrupt.demo_world) in
  let _ := Disk.SynchDisk_ops (H := nat) (W := Interrupt.ClockWorld) 9%nat in
  ∃ d' d'', WriteBack h dw 5 = Ret d' ∧ FetchFrom d' 5 = Ret (d'', h).
Proof.
  intros h dw ops.
  destruct (WriteBack_FetchFrom (H0 := Disk.SynchDisk_device 9%nat) h dw 5)
    as (d' & d'' & E & E' & _).
  - exact Disk.blank_disk_wf.
  - split; [lia|reflexivity].
  - split; [by unfold is_s32|by unfold is_s32| |reflexivity].
    apply Forall_replicate. by unfold is_s32.
  - by exists d', d''.
Defined.

End FileHdr.
