(* ===== verification/OpenFile.v ===== *)
(** * filesys/openfile.h, filesys/openfile.cc: open files

    [ReadAt] and [WriteAt] work on the sectors that contain the range asked for.  The
    theorems relate them to the file as a list of bytes, [content]: a read is a piece of
    it, a write replaces a piece of it, for every position and length, aligned or not,
    and a write touches no sector of another file. *)

From S2P Require Import Prelude CInt Machine Interrupt BitMap MemManage Disk FileHdr.

Import FileHdr.
Open Scope Z_scope.

Module OpenFile.

Record OpenFile := mkOpen { hdr : FileHeader; seekPosition : Z }.

Section openfile.
Context {D : Type} `{SectorDevice D}.

Definition OpenFile_new (d : D) (sector : Z) : outcome (D * OpenFile) :=
  '(d, h) ← FetchFrom d sector;
  Ret (d, mkOpen h 0).

Definition Seek (f : OpenFile) (position : Z) : OpenFile := mkOpen (hdr f) position.

Definition Length (f : OpenFile) : Z := FileLength (hdr f).

(** The bytes copied to [into]; their number is the result.  The sums are sums of [int]s;
    the copy is defined when the bytes copied lie in [buf]. *)
Definition ReadAt (f : OpenFile) (d : D) (numBytes position : Z) : outcome (D * list Z) :=
  let fileLength := FileLength (hdr f) in
  if (numBytes <=? 0) || (fileLength <=? position) then Ret (d, [])
  else
    let numBytes := if fileLength <? s32 (position + numBytes)
                    then s32 (fileLength - position) else numBytes in
    let firstSector := divRoundDown position SectorSize in
    let lastSector := divRoundDown (s32 (position + numBytes - 1)) SectorSize in
    let numSectors := 1 + lastSector - firstSector in
    '(d, buf) ← for_range (λ i '(d, buf),
      s ← ByteToSector (hdr f) (i * SectorSize);
      '(d, data) ← sd_ReadSector d s;
      Ret (d, buf ++ data)) firstSector (Z.to_nat numSectors) (d, []);
    let offset := position - firstSector * SectorSize in
    _ ← defined_if ((0 <=? offset) && (offset + numBytes <=? Z.of_nat (length buf)));
    Ret (d, take (Z.to_nat numBytes) (drop (Z.to_nat offset) buf)).

(** [junk] is what the freshly allocated buffer holds; [from] has [numBytes] bytes. *)
Definition WriteAt (f : OpenFile) (d : D) (junk from : list Z) (numBytes position : Z) :
    outcome (D * Z) :=
  let fileLength := FileLength (hdr f) in
  if (numBytes <=? 0) || (fileLength <=? position) then Ret (d, 0)
  else
    let numBytes := if fileLength <? s32 (position + numBytes)
                    then s32 (fileLength - position) else numBytes in
    let firstSector := divRoundDown position SectorSize in
    let lastSector := divRoundDown (s32 (position + numBytes - 1)) SectorSize in
    let numSectors := 1 + lastSector - firstSector in
    let buf := take (Z.to_nat (numSectors * SectorSize)) junk in
    let firstAligned := position =? firstSector * SectorSize in
    let lastAligned := s32 (position + numBytes) =? (lastSector + 1) * SectorSize in
    '(d, buf) ←
      (if negb firstAligned then
         '(d, bs) ← ReadAt f d SectorSize (firstSector * SectorSize);
         Ret (d, blit buf 0 bs)
       else Ret (d, buf));
    '(d, buf) ←
      (if negb lastAligned && (negb (firstSector =? lastSector) || firstAligned) then
         '(d, bs) ← ReadAt f d SectorSize (lastSector * SectorSize);
         Ret (d, blit buf (Z.to_nat ((lastSector - firstSector) * SectorSize)) bs)
       else Ret (d, buf));
    let offset := position - firstSector * SectorSize in
    _ ← defined_if ((numBytes <=? Z.of_nat (length from)) && (0 <=? offset)
                    && (offset + numBytes <=? Z.of_nat (length buf)));
    let buf := blit buf (Z.to_nat offset) (take (Z.to_nat numBytes) from) in
    d ← for_range (λ i d,
      s ← ByteToSector (hdr f) (i * SectorSize);
      sd_WriteSector d s (take (Z.to_nat SectorSize)
        (drop (Z.to_nat ((i - firstSector) * SectorSize)) buf)))
      firstSector (Z.to_nat numSectors) d;
    Ret (d, numBytes).

Definition Read (f : OpenFile) (d : D) (numBytes : Z) : outcome (OpenFile * D * list Z) :=
  '(d, bs) ← ReadAt f d numBytes (seekPosition f);
  Ret (mkOpen (hdr f) (s32 (seekPosition f + Z.of_nat (length bs))), d, bs).

Definition Write (f : OpenFile) (d : D) (junk from : list Z) (numBytes : Z) :
    outcome (OpenFile * D * Z) :=
  '(d, result) ← WriteAt f d junk from numBytes (seekPosition f);
  Ret (mkOpen (hdr f) (s32 (seekPosition f + result)), d, result).

(** ** Files as lists of bytes *)

(** All the bytes of the file's sectors, and those of the file. *)
Definition raw (d : D) (h : FileHeader) : list Z := blocks h ≫= sd_sector d.
Definition content (d : D) (h : FileHeader) : list Z :=
  take (Z.to_nat (numBytes h)) (raw d h).

Abbreviation sec := (Z.to_nat SectorSize).

Lemma bind_sectors_length (d : D) l :
  sd_wf d → Forall (λ s, 0 ≤ s < NumSectors) l →
  length (l ≫= sd_sector d) = (length l * sec)%nat.
Proof.
  intros Hd. induction 1 as [|s l Hs Hl IH]; [done|].
  rewrite bind_cons, length_app, IH. cbn [length].
  destruct (sd_sector_ok d s Hd Hs) as [_ ->]. lia.
Qed.

Lemma raw_length (d : D) h :
  sd_wf d → hdr_wf h → Z.of_nat (length (raw d h)) = numSectors h * SectorSize.
Proof.
  intros Hd Hh. unfold raw. rewrite bind_sectors_length by (done || apply Hh).
  pose proof (blocks_length h Hh). change SectorSize with 128 in *. lia.
Qed.

Lemma content_length (d : D) h :
  sd_wf d → hdr_wf h → Z.of_nat (length (content d h)) = numBytes h.
Proof.
  intros Hd Hh. unfold content. rewrite length_take.
  pose proof (raw_length d h Hd Hh) as Hr. pose proof (hw_size h Hh) as Hsz.
  rewrite (hw_sectors h Hh) in Hr.
  pose proof (divRoundUp_bounds (numBytes h) SectorSize Hsz ltac:(done)). lia.
Qed.

(** The sectors of other files are out of reach of [content]. *)
Lemma raw_ext (d d' : D) h :
  (∀ s, s ∈ blocks h → sd_sector d' s = sd_sector d s) → raw d' h = raw d h.
Proof.
  unfold raw. intros Hk. induction (blocks h) as [|s l IH]; [done|].
  rewrite !bind_cons, Hk by set_solver. f_equal. apply IH. set_solver.
Qed.


(** One sector of [raw]. *)
Lemma raw_sector (d : D) h i s :
  sd_wf d → hdr_wf h → rd (blocks h) i = Ret s →
  sd_sector d s = take sec (drop (Z.to_nat (i * SectorSize)) (raw d h)).
Proof.
  intros Hd Hh Hs. apply rd_Ret in Hs as [Hi Hs]. unfold raw.
  pose proof (hw_range h Hh) as Hr.
  rewrite <- (take_drop_middle _ _ _ Hs) in Hr |- *.
  apply Forall_app in Hr as [Hr1 Hr2]. inversion_clear Hr2 as [|? ? Hs' Hr3].
  rewrite bind_app, bind_cons.
  assert (length (take (Z.to_nat i) (blocks h) ≫= sd_sector d) = Z.to_nat (i * SectorSize)) as Hl.
  { rewrite bind_sectors_length, length_take by done. change SectorSize with 128. lia. }
  rewrite drop_app_length' by done.
  destruct (sd_sector_ok d s Hd Hs') as [_ Hlen]. by rewrite take_app_length' by done.
Qed.

(** [ByteToSector] finds the sector of a position inside the file. *)
Lemma ByteToSector_spec h i :
  hdr_wf h → 0 ≤ i < numSectors h →
  ∃ s, ByteToSector h (i * SectorSize) = Ret s ∧ rd (blocks h) i = Ret s ∧
    0 ≤ s < NumSectors ∧ s ∈ blocks h.
Proof.
  intros Hh Hi. destruct (rd_in_range (blocks h) i) as [s Hs]; [rewrite blocks_length; done|].
  exists s. unfold ByteToSector. rewrite Z.quot_mul by done.
  pose proof (proj1 (blocks_lookup h i s Hh) Hs) as [-> _].
  apply rd_Ret in Hs as Hs'. destruct Hs' as [_ Hs'].
  pose proof (hw_range h Hh) as Hr. rewrite Forall_forall in Hr.
  split_and!; [done|done|apply Hr..|]; by eapply list_elem_of_lookup_2.
Qed.

(** A loop over neighbouring sectors reads a piece of [raw]. *)
Lemma read_loop h (d : D) first n :
  hdr_wf h → sd_wf d → 0 ≤ first → first + Z.of_nat n ≤ numSectors h →
  ∃ d', for_range (λ i '(d, buf),
      s ← ByteToSector h (i * SectorSize);
      '(d, data) ← sd_ReadSector d s;
      Ret (d, buf ++ data)) first n (d, [])
    = Ret (d', take (n * sec) (drop (Z.to_nat (first * SectorSize)) (raw d h))) ∧
    sd_wf d' ∧ ∀ s, 0 ≤ s < NumSectors → sd_sector d' s = sd_sector d s.
Proof.
  intros Hh Hd Hf Hn.
  edestruct (for_range_inv (λ i '(d, buf),
      s ← ByteToSector h (i * SectorSize);
      '(d, data) ← sd_ReadSector d s;
      Ret (d, buf ++ data))
    (λ i '(d', buf), sd_wf d' ∧ (∀ s, 0 ≤ s < NumSectors → sd_sector d' s = sd_sector d s) ∧
      buf = take (Z.to_nat (i - first) * sec) (drop (Z.to_nat (first * SectorSize)) (raw d h)))
    first n (d, [])) as ([d' buf] & E & Hd' & Hk & Hbuf).
  - intros i [d1 buf] Hi (Hd1 & Hk1 & ->).
    destruct (ByteToSector_spec h i Hh) as (s & -> & Hs & Hr & _); [lia|].
    cbn [mbind outcome_bind]. destruct (sd_read d1 s Hd1 Hr) as (d2 & -> & Hd2 & Hk2).
    cbn [mbind outcome_bind]. eexists. split; [done|]. split_and!; [done| |].
    + intros s' Hs'. rewrite Hk2, Hk1; done.
    + rewrite Hk1 by done. rewrite (raw_sector d h i s Hd Hh Hs).
      replace (Z.to_nat (i + 1 - first)) with (S (Z.to_nat (i - first))) by lia.
      replace (drop (Z.to_nat (i * SectorSize)) (raw d h))
        with (drop (Z.to_nat (i - first) * sec) (drop (Z.to_nat (first * SectorSize)) (raw d h))).
      2:{ rewrite drop_drop. f_equal. change SectorSize with 128. lia. }
      rewrite take_take_drop. f_equal. lia.
  - split_and!; [done|done|]. by rewrite Z.sub_diag.
  - exists d'. split; [|done]. rewrite E, Hbuf. do 4 f_equal. lia.
Qed.

(** The sectors a range of the file lies on. *)
Lemma sector_range h position n :
  hdr_wf h → 0 ≤ position → 0 < n → position + n ≤ numBytes h →
  let first := divRoundDown position SectorSize in
  let last := divRoundDown (position + n - 1) SectorSize in
  0 ≤ first ≤ last ∧ last < numSectors h ∧
  first * SectorSize ≤ position < (first + 1) * SectorSize ∧
  last * SectorSize < position + n ≤ (last + 1) * SectorSize.
Proof.
  intros Hh Hp Hn Hle. unfold divRoundDown. rewrite !Z.quot_div_nonneg by (done || lia).
  cbv zeta. rewrite (hw_sectors h Hh).
  pose proof (divRoundUp_bounds (numBytes h) SectorSize (hw_size h Hh) ltac:(done)) as Hb.
  change SectorSize with 128 in *. Z.div_mod_to_equations. lia.
Qed.

(** The number of bytes a request for [n] bytes at [position] moves. *)
Definition clipped (h : FileHeader) (n position : Z) : Z :=
  Z.max 0 (Z.min n (numBytes h - position)).

Lemma numBytes_max h : hdr_wf h → numBytes h ≤ 3840.
Proof.
  intros Hh. pose proof (hw_direct _ Hh). pose proof (hw_sectors _ Hh) as Hs.
  pose proof (divRoundUp_bounds (numBytes h) SectorSize (hw_size h Hh) ltac:(done)) as Hb.
  rewrite <- Hs in Hb. change NumDirect with 30 in *. change SectorSize with 128 in *. lia.
Qed.

(** The sum [position + numBytes] of a request that is not refused at once is an [int]. *)
Definition sum_fits (h : FileHeader) (n position : Z) : Prop :=
  0 < n → position < numBytes h → position + n < 2 ^ 31.

Lemma sum_fits_inside h n position :
  hdr_wf h → position + n ≤ numBytes h → sum_fits h n position.
Proof. intros Hh Hle _ _. pose proof (numBytes_max h Hh). lia. Qed.

(** The clipping of such a request. *)
Lemma clip_request h n position :
  hdr_wf h → 0 ≤ position → 0 < n → position < numBytes h → position + n < 2 ^ 31 →
  (if numBytes h <? s32 (position + n) then s32 (numBytes h - position) else n)
    = clipped h n position ∧
  0 < clipped h n position ≤ n ∧ position + clipped h n position ≤ numBytes h ∧
  s32 (position + clipped h n position - 1) = position + clipped h n position - 1 ∧
  s32 (position + clipped h n position) = position + clipped h n position.
Proof.
  intros Hh Hp Hn Hlt Hov. pose proof (hi_bytes _ (hw_ints _ Hh)) as Hb. unfold clipped, is_s32 in *.
  rewrite !s32_small by (unfold is_s32; lia).
  destruct (Z.ltb_spec (numBytes h) (position + n)); lia.
Qed.

Lemma ReadAt_spec f (d : D) n position :
  hdr_wf (hdr f) → sd_wf d → 0 ≤ position → sum_fits (hdr f) n position →
  ∃ d', ReadAt f d n position =
      Ret (d', take (Z.to_nat (clipped (hdr f) n position)) (drop (Z.to_nat position) (content d (hdr f)))) ∧
    sd_wf d' ∧ ∀ s, 0 ≤ s < NumSectors → sd_sector d' s = sd_sector d s.
Proof.
  intros Hh Hd Hp Hov. unfold ReadAt, FileLength. set (h := hdr f) in *.
  destruct (Z.leb_spec n 0) as [|Hn0]; [|destruct (Z.leb_spec (numBytes h) position) as [|Hlt]];
    cbn [orb].
  1,2: exists d; split; [|done]; unfold clipped;
    replace (Z.to_nat (Z.max 0 _)) with 0%nat by lia; done.
  destruct (clip_request h n position Hh Hp Hn0 Hlt (Hov Hn0 Hlt)) as (-> & Hn & Hle & -> & _).
  set (n' := clipped h n position) in *. clearbody n'.
  destruct (sector_range h position n' Hh Hp ltac:(lia) Hle) as (Hfl & Hlast & Hfirst & Hend).
  set (first := divRoundDown position SectorSize) in *.
  set (last := divRoundDown (position + n' - 1) SectorSize) in *.
  destruct (read_loop h d first (Z.to_nat (1 + last - first)) Hh Hd)
    as (d' & -> & Hd' & Hk); [lia|lia|].
  pose proof (raw_length d h Hd Hh) as Hrl.
  cbn [mbind outcome_bind]. rewrite length_take, length_drop.
  change SectorSize with 128 in *. change sec with 128%nat.
  rewrite (proj2 (Z.leb_le 0 _)), (proj2 (Z.leb_le _ (Z.of_nat _))) by lia.
  cbn [andb defined_if mbind outcome_bind]. exists d'. split; [|done]. do 2 f_equal.
  unfold content. apply list_eq. intros j. destruct (decide (j < Z.to_nat n')%nat).
  - rewrite !lookup_take_lt, !lookup_drop by done.
    rewrite lookup_take_lt, lookup_drop, lookup_take_lt by lia. f_equal. lia.
  - by rewrite !lookup_take_ge by lia.
Qed.

(** When the sum overflows nothing is clipped: at exactly [2^31] the loop runs off the table of
    sectors, past it no sector is read and the copy runs far outside the empty buffer. *)
Lemma ReadAt_overflow f (d : D) n position r :
  hdr_wf (hdr f) → is_s32 n → 0 ≤ position < numBytes (hdr f) → 2 ^ 31 ≤ position + n →
  ReadAt f d n position ≠ Ret r.
Proof.
  intros Hh Hn Hp Hov. unfold ReadAt, FileLength. set (h := hdr f) in *.
  pose proof (numBytes_max h Hh) as Hmax. unfold is_s32 in Hn.
  rewrite (proj2 (Z.leb_gt n 0)), (proj2 (Z.leb_gt _ position)) by lia. cbn [orb].
  rewrite (s32_overflow (position + n)), (proj2 (Z.ltb_ge _ _)) by lia.
  set (first := divRoundDown position SectorSize).
  assert (first = position `div` 128) as Ef.
  { unfold first, divRoundDown. by rewrite Z.quot_div_nonneg by (done || lia). }
  intros ([d' buf] & Eb & Er)%bind_Ret_inv. apply bind_Ret_inv in Er as (u & Eu & _).
  apply defined_if_Ret, andb_true_iff in Eu as [_ Eu%Z.leb_le].
  change SectorSize with 128 in *. unfold divRoundDown in Eb.
  destruct (decide (position + n = 2 ^ 31)) as [Ee|Hne].
  - rewrite (s32_small (position + n - 1)) in Eb by (unfold is_s32; lia).
    rewrite Z.quot_div_nonneg in Eb by lia.
    destruct (for_range_each _ _ _ _ _ Eb 30) as ([d1 b1] & r1 & E1).
    { Z.div_mod_to_equations. lia. }
    apply bind_Ret_inv in E1 as (s & Es & _). unfold ByteToSector in Es.
    apply rd_Ret in Es as [_ Es]. apply lookup_lt_Some in Es.
    rewrite (hi_length _ (hw_ints _ Hh)) in Es. by apply Nat.lt_irrefl in Es.
  - rewrite s32_overflow in Eb by lia.
    replace (position + n - 1 - 2 ^ 32) with (- (2 ^ 32 - (position + n - 1))) in Eb by lia.
    rewrite Z.quot_opp_l, Z.quot_div_nonneg in Eb by lia.
    replace (Z.to_nat (1 + _ - _)) with 0%nat in Eb by (Z.div_mod_to_equations; lia).
    cbn [for_range] in Eb. injection Eb as <- <-. cbn [length] in Eu.
    Z.div_mod_to_equations. lia.
Qed.

(** Overwriting one sector of the file. *)
Lemma raw_write (d d' : D) h i s bs :
  sd_wf d → sd_wf d' → hdr_wf h → rd (blocks h) i = Ret s → is_sector bs →
  sd_sector d' s = bs →
  (∀ s', 0 ≤ s' < NumSectors → s' ≠ s → sd_sector d' s' = sd_sector d s') →
  raw d' h = blit (raw d h) (Z.to_nat (i * SectorSize)) bs.
Proof.
  intros Hd Hd' Hh Hs [_ Hlen] Hsame Hother. apply rd_Ret in Hs as [Hi Hs]. unfold raw.
  pose proof (hw_range h Hh) as Hr. pose proof (hw_nodup h Hh) as Hnd.
  rewrite <- (take_drop_middle _ _ _ Hs) in Hr, Hnd |- *.
  apply Forall_app in Hr as [Hr1 Hr2]. inversion_clear Hr2 as [|? ? Hs' Hr3].
  apply NoDup_app in Hnd as (_ & Hdis & Hnd2). inversion_clear Hnd2 as [|? ? Hnin _].
  set (l1 := take _ (blocks h)) in *. set (l2 := drop _ (blocks h)) in *.
  rewrite !bind_app, !bind_cons, Hsame.
  assert (∀ l, Forall (λ s, 0 ≤ s < NumSectors) l → s ∉ l →
    l ≫= sd_sector d' = l ≫= sd_sector d) as Hext.
  { intros l Hl Hn. induction Hl as [|x l Hx Hl IH]; [done|].
    rewrite !bind_cons, Hother by set_solver. f_equal. apply IH. set_solver. }
  rewrite !Hext by (done || set_solver).
  assert (length (l1 ≫= sd_sector d) = Z.to_nat (i * SectorSize)) as Hl1.
  { rewrite bind_sectors_length by done. unfold l1. rewrite length_take.
    change SectorSize with 128. lia. }
  destruct (sd_sector_ok d s Hd Hs') as [_ Hls].
  unfold blit. rewrite <- Hl1, take_app_length. f_equal. f_equal.
  rewrite Hlen, <- Hls, app_assoc, drop_app_length'; [done|]. by rewrite length_app.
Qed.

(** A loop over neighbouring sectors replaces a piece of [raw]. *)
Lemma write_loop h (d : D) first n buf :
  hdr_wf h → sd_wf d → 0 ≤ first → first + Z.of_nat n ≤ numSectors h →
  Forall is_byte buf → length buf = (n * sec)%nat →
  ∃ d', for_range (λ i d,
      s ← ByteToSector h (i * SectorSize);
      sd_WriteSector d s (take sec (drop (Z.to_nat ((i - first) * SectorSize)) buf)))
      first n d = Ret d' ∧
    sd_wf d' ∧ raw d' h = blit (raw d h) (Z.to_nat (first * SectorSize)) buf ∧
    ∀ s, 0 ≤ s < NumSectors → s ∉ blocks h → sd_sector d' s = sd_sector d s.
Proof.
  intros Hh Hd Hf Hn Hbytes Hlen.
  pose proof (raw_length d h Hd Hh) as Hrl. change sec with 128%nat in *.
  edestruct (for_range_inv (λ i d,
      s ← ByteToSector h (i * SectorSize);
      sd_WriteSector d s (take 128 (drop (Z.to_nat ((i - first) * SectorSize)) buf)))
    (λ i d', sd_wf d' ∧
      raw d' h = blit (raw d h) (Z.to_nat (first * SectorSize)) (take (Z.to_nat (i - first) * 128) buf) ∧
      ∀ s, 0 ≤ s < NumSectors → s ∉ blocks h → sd_sector d' s = sd_sector d s)
    first n d) as (d' & E & Hd' & Hraw & Hk).
  - intros i d1 Hi (Hd1 & Hr1 & Hk1).
    destruct (ByteToSector_spec h i Hh) as (s & -> & Hs & Hr & Hin); [lia|].
    cbn [mbind outcome_bind].
    set (bs := take 128 (drop (Z.to_nat ((i - first) * SectorSize)) buf)).
    assert (is_sector bs) as Hbs.
    { split; [by apply Forall_take, Forall_drop|]. unfold bs.
      rewrite length_take, length_drop, Hlen. change SectorSize with 128. lia. }
    destruct (sd_write d1 s bs Hd1 Hr Hbs) as (d2 & -> & Hd2 & Hsame & Hother).
    exists d2. split; [done|]. split_and!; [done| |].
    + rewrite (raw_write d1 d2 h i s bs) by done. rewrite Hr1.
      destruct Hbs as [_ Hbl]. change (Z.to_nat SectorSize) with 128%nat in Hbl.
      assert (length (take (Z.to_nat (i - first) * 128) buf) = Z.to_nat (i - first) * 128)%nat as Htl
        by (rewrite length_take; lia).
      replace (Z.to_nat (i * SectorSize)) with
        (Z.to_nat (first * SectorSize) + length (take (Z.to_nat (i - first) * 128) buf))%nat
        by (rewrite Htl; change SectorSize with 128; lia).
      rewrite blit_blit by (rewrite Htl, Hbl; change SectorSize with 128 in *; lia).
      f_equal. unfold bs.
      replace (Z.to_nat ((i - first) * SectorSize)) with (Z.to_nat (i - first) * 128)%nat
        by (change SectorSize with 128; lia).
      rewrite take_take_drop. f_equal. lia.
    + intros s' Hs' Hn'. rewrite Hother, Hk1; [done|done|done|done|set_solver].
  - rewrite Z.sub_diag. change (Z.to_nat 0 * 128)%nat with 0%nat.
    rewrite take_0, blit_nil. by split_and!.
  - exists d'. split; [exact E|]. split_and!; [done| |done]. rewrite Hraw. f_equal.
    rewrite take_ge; [done|lia].
Qed.

Lemma raw_bytes (d : D) h : sd_wf d → hdr_wf h → Forall is_byte (raw d h).
Proof.
  intros Hd Hh. unfold raw. pose proof (hw_range h Hh) as Hr.
  induction Hr as [|s l Hs Hl IH]; [constructor|]. rewrite bind_cons.
  apply Forall_app_2; [by apply sd_sector_ok|done].
Qed.

Lemma content_lookup (d : D) h j :
  (Z.of_nat j < numBytes h) → content d h !! j = raw d h !! j.
Proof. intros Hj. unfold content. apply lookup_take_lt. lia. Qed.

(** Fetching the old content of a sector that is to be partially modified. *)
Lemma fetch_sector f (d : D) k :
  hdr_wf (hdr f) → sd_wf d → 0 ≤ k →
  ∃ d' bs, ReadAt f d SectorSize (k * SectorSize) = Ret (d', bs) ∧ sd_wf d' ∧
    (∀ s, 0 ≤ s < NumSectors → sd_sector d' s = sd_sector d s) ∧
    Forall is_byte bs ∧ (length bs ≤ sec)%nat ∧
    ∀ j, (j < sec)%nat → k * SectorSize + Z.of_nat j < numBytes (hdr f) →
      bs !! j = raw d (hdr f) !! (Z.to_nat (k * SectorSize) + j)%nat ∧ (j < length bs)%nat.
Proof.
  intros Hh Hd Hk. change SectorSize with 128 in *. change sec with 128%nat.
  destruct (ReadAt_spec f d 128 (k * 128) Hh Hd) as (d' & E & Hd' & Hkeep); [lia| |].
  { intros _ Hlt. pose proof (numBytes_max (hdr f) Hh). lia. }
  change SectorSize with 128 in E.
  eexists d', _. split; [exact E|]. split; [done|]. split; [done|].
  pose proof (content_length d (hdr f) Hd Hh) as Hcl.
  unfold clipped. split_and!.
  - apply Forall_take, Forall_drop. unfold content. by apply Forall_take, raw_bytes.
  - rewrite length_take. lia.
  - intros j Hj Hlt. rewrite length_take, length_drop. split; [|lia].
    rewrite lookup_take_lt, lookup_drop by lia. apply content_lookup. lia.
Qed.

(** The buffer [WriteAt] writes back: the new bytes in the range, the old ones around. *)
Lemma write_back_content h (d d' : D) first total position n buf from :
  hdr_wf h → sd_wf d → sd_wf d' → 0 ≤ first → 0 < n → 0 ≤ position →
  first * SectorSize ≤ position → position + n ≤ first * SectorSize + Z.of_nat total →
  position + n ≤ numBytes h → Z.of_nat (length from) = n → length buf = total →
  first * SectorSize + Z.of_nat total ≤ numSectors h * SectorSize →
  (∀ j, (j < total)%nat → first * SectorSize + Z.of_nat j < numBytes h →
     ¬ position ≤ first * SectorSize + Z.of_nat j < position + n →
     buf !! j = raw d h !! (Z.to_nat (first * SectorSize) + j)%nat) →
  raw d' h = blit (raw d h) (Z.to_nat (first * SectorSize))
    (blit buf (Z.to_nat (position - first * SectorSize)) from) →
  content d' h = blit (content d h) (Z.to_nat position) from.
Proof.
  intros Hh Hd Hd' Hf Hn Hp Hfp Hend Hle Hfrom Hbuf Htot Hold Hraw.
  pose proof (raw_length d h Hd Hh) as Hrl.
  pose proof (content_length d h Hd Hh) as Hcl. change SectorSize with 128 in *.
  assert (length (blit buf (Z.to_nat (position - first * 128)) from) = total) as Hbl
    by (rewrite blit_length; lia).
  apply list_eq. intros j. rewrite lookup_blit by lia.
  destruct (decide (Z.of_nat j < numBytes h)) as [Hj|Hj].
  - rewrite content_lookup, Hraw, lookup_blit, Hbl by lia.
    destruct (decide (Z.to_nat position ≤ j < Z.to_nat position + length from)%nat).
    + rewrite decide_True by lia. rewrite lookup_blit by lia. rewrite decide_True by lia.
      f_equal. lia.
    + rewrite content_lookup by done.
      destruct (decide (Z.to_nat (first * 128) ≤ j < _)%nat); [|done].
      rewrite lookup_blit by lia. rewrite decide_False by lia.
      rewrite Hold by lia. f_equal. lia.
  - rewrite decide_False by lia. unfold content. by rewrite !lookup_take_ge by lia.
Qed.

(** The old content around the range, after the partially modified sectors are read. *)
Lemma fetch_around f (d : D) first last position n buf :
  hdr_wf (hdr f) → sd_wf d → 0 ≤ first ≤ last →
  first * SectorSize ≤ position < (first + 1) * SectorSize →
  last * SectorSize < position + n ≤ (last + 1) * SectorSize → 0 < n →
  Forall is_byte buf → length buf = Z.to_nat ((1 + last - first) * SectorSize) →
  let firstAligned := position =? first * SectorSize in
  let lastAligned := position + n =? (last + 1) * SectorSize in
  ∃ d' buf', ('(d, buf) ←
      (if negb firstAligned then
         '(d, bs) ← ReadAt f d SectorSize (first * SectorSize);
         Ret (d, blit buf 0 bs)
       else Ret (d, buf));
    (if negb lastAligned && (negb (first =? last) || firstAligned) then
         '(d, bs) ← ReadAt f d SectorSize (last * SectorSize);
         Ret (d, blit buf (Z.to_nat ((last - first) * SectorSize)) bs)
       else Ret (d, buf))) = Ret (d', buf') ∧ sd_wf d' ∧
    (∀ s, 0 ≤ s < NumSectors → sd_sector d' s = sd_sector d s) ∧
    Forall is_byte buf' ∧ length buf' = length buf ∧
    ∀ j, (j < length buf)%nat → first * SectorSize + Z.of_nat j < numBytes (hdr f) →
      ¬ position ≤ first * SectorSize + Z.of_nat j < position + n →
      buf' !! j = raw d (hdr f) !! (Z.to_nat (first * SectorSize) + j)%nat.
Proof.
  intros Hh Hd Hfl Hfirst Hlast Hn Hbytes Hlen firstAligned lastAligned.
  assert (∃ d1 buf1, (if negb firstAligned then
         '(d, bs) ← ReadAt f d SectorSize (first * SectorSize);
         Ret (d, blit buf 0 bs)
       else Ret (d, buf)) = Ret (d1, buf1) ∧ sd_wf d1 ∧
    (∀ s, 0 ≤ s < NumSectors → sd_sector d1 s = sd_sector d s) ∧
    Forall is_byte buf1 ∧ length buf1 = length buf ∧
    ∀ j, (j < sec)%nat → first * SectorSize + Z.of_nat j < numBytes (hdr f) →
      firstAligned = false →
      buf1 !! j = raw d (hdr f) !! (Z.to_nat (first * SectorSize) + j)%nat)
    as (d1 & buf1 & -> & Hd1 & Hk1 & Hb1 & Hl1 & Hold1).
  { destruct firstAligned; cbn [negb]; [by exists d, buf|].
    destruct (fetch_sector f d first Hh Hd) as (d1 & bs & -> & Hd1 & Hk1 & Hb & Hlb & Hold); [lia|].
    cbn [mbind outcome_bind]. eexists d1, _. split; [done|].
    change SectorSize with 128 in *. change sec with 128%nat in *.
    split_and!; [done|done| |apply blit_length; lia|].
    - unfold blit. repeat apply Forall_app_2; [by apply Forall_take|done|by apply Forall_drop].
    - intros j Hj Hlt _. destruct (Hold j Hj Hlt) as [E Hjl].
      rewrite lookup_blit, decide_True by lia. by rewrite Nat.sub_0_r. }
  cbn [mbind outcome_bind]. change SectorSize with 128 in *. change sec with 128%nat in *.
  assert (∀ j, (j < length buf)%nat → first * 128 + Z.of_nat j < numBytes (hdr f) →
     first * 128 + Z.of_nat j < position →
     buf1 !! j = raw d (hdr f) !! (Z.to_nat (first * 128) + j)%nat) as Hbefore.
  { intros j Hj Hlt Hbef. apply Hold1; [lia|done|].
    unfold firstAligned. apply Z.eqb_neq. lia. }
  destruct (negb lastAligned && (negb (first =? last) || firstAligned)) eqn:Econd.
  - destruct (fetch_sector f d1 last Hh Hd1) as (d2 & bs & Er & Hd2 & Hk2 & Hb & Hlb & Hold); [lia|].
    change SectorSize with 128 in Er. rewrite Er. cbn [mbind outcome_bind]. eexists d2, _. split; [done|].
    change SectorSize with 128 in *. change sec with 128%nat in *.
    rewrite (raw_ext d d1) in Hold
      by (intros s Hs; apply Hk1; pose proof (hw_range _ Hh) as Hr; rewrite Forall_forall in Hr; auto).
    split_and!; [done| | |rewrite blit_length; lia|].
    + intros s Hs. by rewrite Hk2, Hk1.
    + unfold blit. repeat apply Forall_app_2; [by apply Forall_take|done|by apply Forall_drop].
    + intros j Hj Hlt Hout. rewrite lookup_blit by lia.
      destruct (decide (Z.to_nat ((last - first) * 128) ≤ j)%nat).
      * destruct (Hold (j - Z.to_nat ((last - first) * 128))%nat) as [E Hjl]; [lia|lia|].
        rewrite decide_True by lia. rewrite E. f_equal. lia.
      * rewrite decide_False by lia. apply Hbefore; lia.
  - eexists d1, buf1. split; [done|]. split_and!; [done..|].
    intros j Hj Hlt Hout. destruct (Z.lt_ge_cases (first * 128 + Z.of_nat j) position).
    + by apply Hbefore.
    + assert (lastAligned = false) as Ela by (unfold lastAligned; apply Z.eqb_neq; lia).
      rewrite Ela in Econd. cbn [negb andb] in Econd.
      apply orb_false_iff in Econd as [Eq%negb_false_iff%Z.eqb_eq Efa].
      apply Hold1; [lia|done|done].
Qed.

Lemma WriteAt_spec f (d : D) junk from n position :
  hdr_wf (hdr f) → sd_wf d → 0 ≤ position → sum_fits (hdr f) n position → Forall is_byte from → n ≤ Z.of_nat (length from) →
  Forall is_byte junk → numSectors (hdr f) * SectorSize ≤ Z.of_nat (length junk) →
  ∃ d', WriteAt f d junk from n position = Ret (d', clipped (hdr f) n position) ∧ sd_wf d' ∧
    content d' (hdr f) = blit (content d (hdr f)) (Z.to_nat position)
      (take (Z.to_nat (clipped (hdr f) n position)) from) ∧
    ∀ s, 0 ≤ s < NumSectors → s ∉ blocks (hdr f) → sd_sector d' s = sd_sector d s.
Proof.
  intros Hh Hd Hp Hov Hfrom Hfl Hjunk Hjl. unfold WriteAt, FileLength. set (h := hdr f) in *.
  destruct (Z.leb_spec n 0) as [|Hn0]; [|destruct (Z.leb_spec (numBytes h) position) as [|Hlt]];
    cbn [orb].
  1,2: exists d; unfold clipped; replace (Z.max 0 _) with 0 by lia;
    change (Z.to_nat 0) with 0%nat; by rewrite take_0, blit_nil.
  destruct (clip_request h n position Hh Hp Hn0 Hlt (Hov Hn0 Hlt)) as (-> & Hn & Hle & -> & ->).
  set (n' := clipped h n position) in *. clearbody n'.
  destruct (sector_range h position n' Hh Hp ltac:(lia) Hle) as (Hfla & Hlast & Hfirst & Hend).
  set (first := divRoundDown position SectorSize) in *.
  set (last := divRoundDown (position + n' - 1) SectorSize) in *.
  set (buf := take (Z.to_nat ((1 + last - first) * SectorSize)) junk).
  assert (length buf = Z.to_nat ((1 + last - first) * SectorSize)) as Hbl.
  { unfold buf. rewrite length_take. change SectorSize with 128 in *. lia. }
  assert (Forall is_byte buf) as Hbb by by apply Forall_take.
  destruct (fetch_around f d first last position n' buf Hh Hd Hfla Hfirst Hend ltac:(lia) Hbb Hbl)
    as (d2 & buf2 & Ef & Hd2 & Hk2 & Hb2 & Hl2 & Hold).
  apply bind_Ret_inv in Ef as ([d1 buf1] & -> & Ef). cbn [mbind outcome_bind]. rewrite Ef.
  cbn [mbind outcome_bind].
  rewrite (proj2 (Z.leb_le n' _)), (proj2 (Z.leb_le 0 _)), (proj2 (Z.leb_le _ (Z.of_nat (length buf2))))
    by (change SectorSize with 128 in *; lia).
  cbn [andb defined_if mbind outcome_bind].
  set (buf3 := blit buf2 _ _).
  assert (Z.of_nat (length (take (Z.to_nat n') from)) = n') as Htl by (rewrite length_take; lia).
  assert (length buf3 = length buf) as Hl3 by 
    (unfold buf3; change SectorSize with 128 in *; rewrite blit_length; lia).
  destruct (write_loop h d2 first (Z.to_nat (1 + last - first)) buf3 Hh Hd2)
    as (d3 & -> & Hd3 & Hraw & Hk3); [lia|lia| |change SectorSize with 128 in *; lia|].
  { unfold buf3, blit. repeat apply Forall_app_2;
      [by apply Forall_take|by apply Forall_take|by apply Forall_drop]. }
  cbn [mbind outcome_bind]. exists d3. split; [done|]. split; [done|].
  assert (raw d2 h = raw d h) as Er.
  { apply raw_ext. intros s Hs. apply Hk2. pose proof (hw_range _ Hh) as Hr.
    rewrite Forall_forall in Hr. auto. }
  split; [|intros s Hs Hns; by rewrite Hk3, Hk2].
  rewrite Er in Hraw.
  apply (write_back_content h d d3 first (length buf) position n' buf2); try done;
    change SectorSize with 128 in *; lia.
Qed.
End openfile.

(** ** Properties *)

(** [ReadAt] returns the piece of the file asked for, clipped to the length of the
    file, for any alignment, and changes no sector, when [position + n] is an [int]. *)
Theorem ReadAt_content {D} `{SectorDevice D} f (d : D) n position :
  hdr_wf (hdr f) → sd_wf d → 0 ≤ position → sum_fits (hdr f) n position →
  ∃ d', ReadAt f d n position =
      Ret (d', take (Z.to_nat (clipped (hdr f) n position)) (drop (Z.to_nat position) (content d (hdr f)))) ∧
    sd_wf d' ∧ ∀ s, 0 ≤ s < NumSectors → sd_sector d' s = sd_sector d s.
Proof. apply ReadAt_spec. Qed.

(** A file of 300 bytes on sectors 5, 9 and 6. *)
Definition example_hdr : FileHeader := mkHdr 300 3 ([5; 9; 6] ++ replicate 27 0).

Lemma example_hdr_wf : hdr_wf example_hdr.
Proof.
  split; [split; [by unfold is_s32|by unfold is_s32| |done]|done|done|done| |].
  - apply Forall_app_2; [|apply Forall_replicate; by unfold is_s32].
    rewrite !Forall_cons. split_and!; [by unfold is_s32..|constructor].
  - change (blocks example_hdr) with [5; 9; 6]. rewrite !Forall_cons.
    split_and!; done || constructor.
  - change (blocks example_hdr) with [5; 9; 6]. apply NoDup_cons. split; [set_solver|].
    apply NoDup_cons. split; [set_solver|]. apply NoDup_singleton.
Qed.

Definition example_disk : Disk.Disk * Interrupt.ClockWorld :=
  (Disk.blank_disk, Interrupt.demo_world).
Definition example_ops : SectorOps (Disk.Disk * Interrupt.ClockWorld) :=
  Disk.SynchDisk_ops (H := nat) (W := Interrupt.ClockWorld) 9%nat.
Definition example_device : SectorDevice (Disk.Disk * Interrupt.ClockWorld) :=
  Disk.SynchDisk_device (H := nat) (W := Interrupt.ClockWorld) 9%nat.

Lemma example_disk_wf : sd_wf (SectorDevice := example_device) example_disk.
Proof. exact Disk.blank_disk_wf. Qed.

Lemma ReadAt_content_witness :
  ∃ d' bs, ReadAt (H := example_ops) (mkOpen example_hdr 0) example_disk 200 150
    = Ret (d', bs) ∧ length bs = 150%nat.
Proof.
  destruct (ReadAt_content (H0 := example_device) (mkOpen example_hdr 0) example_disk 200 150
    example_hdr_wf example_disk_wf) as (d' & E & _); [lia|by intros _ _|].
  eexists d', _. split; [exact E|].
  change (clipped (hdr (mkOpen example_hdr 0)) 200 150) with 150.
  pose proof (content_length (H0 := example_device) example_disk example_hdr
    example_disk_wf example_hdr_wf) as Hl.
  rewrite length_take, length_drop. change (numBytes example_hdr) with 300 in Hl.
  cbn [hdr]. lia.
Defined.

(** C16: [WriteAt] replaces exactly the piece of the file it is given, clipped to the length
    of the file, keeps every other byte of the file, whatever the alignment and the junk
    in its buffer, and changes no sector outside the file; a [ReadAt] of the same range
    gives back what was written.  [sum_fits]: for a request that is not refused at once
    [position + n] is an [int]. *)
Theorem WriteAt_content {D} `{SectorDevice D} f (d : D) junk from n position :
  hdr_wf (hdr f) → sd_wf d → 0 ≤ position → sum_fits (hdr f) n position → Forall is_byte from → n ≤ Z.of_nat (length from) →
  Forall is_byte junk → numSectors (hdr f) * SectorSize ≤ Z.of_nat (length junk) →
  ∃ d' d'', WriteAt f d junk from n position = Ret (d', clipped (hdr f) n position) ∧ sd_wf d' ∧
    content d' (hdr f) = blit (content d (hdr f)) (Z.to_nat position)
      (take (Z.to_nat (clipped (hdr f) n position)) from) ∧
    (∀ s, 0 ≤ s < NumSectors → s ∉ blocks (hdr f) → sd_sector d' s = sd_sector d s) ∧
    ReadAt f d' n position = Ret (d'', take (Z.to_nat (clipped (hdr f) n position)) from).
Proof.
  intros Hh Hd Hp Hov Hfrom Hfl Hjunk Hjl.
  destruct (WriteAt_spec f d junk from n position) as (d' & Ew & Hd' & Hc & Hk); [done..|].
  destruct (ReadAt_spec f d' n position Hh Hd' Hp Hov) as (d'' & Er & _).
  exists d', d''. split_and!; try done. rewrite Er. do 2 f_equal. rewrite Hc.
  pose proof (content_length d (hdr f) Hd Hh) as Hl. set (k := clipped _ _ _) in *.
  assert (k = 0 ∨ 0 < k ∧ position + k ≤ numBytes (hdr f) ∧ k ≤ n) as [-> | (Hk0 & Hle & Hkn)]
    by (unfold k, clipped; lia); [done|].
  assert (length (take (Z.to_nat k) from) = Z.to_nat k) as Hlt by (rewrite length_take; lia).
  apply list_eq. intros j. destruct (decide (j < Z.to_nat k)%nat).
  - rewrite (lookup_take_lt _ _ j), lookup_drop, lookup_blit by lia.
    rewrite decide_True by lia. f_equal. lia.
  - by rewrite !lookup_take_ge by lia.
Qed.

Lemma WriteAt_content_witness :
  ∃ d' d'', WriteAt (H := example_ops) (mkOpen example_hdr 0) example_disk (replicate 384 1)
      (replicate 200 65) 200 150 = Ret (d', 150) ∧
    ReadAt (H := example_ops) (mkOpen example_hdr 0) d' 200 150 = Ret (d'', replicate 150 65).
Proof.
  destruct (WriteAt_content (H0 := example_device) (mkOpen example_hdr 0) example_disk
    (replicate 384 1) (replicate 200 65) 200 150 example_hdr_wf example_disk_wf)
    as (d' & d'' & Ew & _ & _ & _ & Er).
  - lia.
  - by intros _ _.
  - apply Forall_replicate. by unfold is_byte.
  - by rewrite length_replicate.
  - apply Forall_replicate. by unfold is_byte.
  - rewrite length_replicate. discriminate.
  - exists d', d''. split; [exact Ew|exact Er].
Defined.

End OpenFile.
