(* ===== verification/Directory.v ===== *)
(** * filesys/directory.h, filesys/directory.cc: the directory

    A table of fixed-size entries, as it lies in memory and in the directory file.  File
    names are C strings; only their first [FileNameMaxLen] characters count.  [dmap] is what
    the table means, a finite map from names to sectors, and the theorems say that [Find],
    [Add] and [Remove] are lookup, insertion and deletion on it. *)

From S2P Require Import Prelude CInt Machine Interrupt BitMap MemManage Disk FileHdr OpenFile.

Import FileHdr OpenFile.
Open Scope Z_scope.

Module Directory.

Definition FileNameMaxLen : Z := 9.

(** [pad1] and [pad2] are the alignment bytes of the structure. *)
Record DirectoryEntry := mkEntry {
  inUse : bool; pad1 : list Z; sector : Z; name : list Z; pad2 : list Z }.

Record Directory := mkDir { tableSize : Z; table : list DirectoryEntry }.

(** *** C strings: lists of characters, ended by a NUL or the end of the list *)

Fixpoint until_nul (s : list Z) : list Z :=
  match s with
  | [] => []
  | c :: s' => if c =? 0 then [] else c :: until_nul s'
  end.

(** [!strncmp(a, b, n)] *)
Fixpoint strncmp_eq (n : nat) (a b : list Z) : bool :=
  match n with
  | O => true
  | S n' =>
      let ca := default 0 (head a) in
      let cb := default 0 (head b) in
      if ca =? cb then if ca =? 0 then true else strncmp_eq n' (tail a) (tail b)
      else false
  end.

(** [strncpy(dst, src, n)] *)
Definition strncpy (dst src : list Z) (n : nat) : list Z :=
  let s := take n (until_nul src) in
  s ++ replicate (n - length s) 0 ++ drop n dst.

(** *** The structure in memory *)

Definition entry_bytes (e : DirectoryEntry) : list Z :=
  (if inUse e then 1 else 0) :: pad1 e ++ word_bytes (sector e) ++ name e ++ pad2 e.

Definition bytes_entry (bs : list Z) : DirectoryEntry :=
  mkEntry (negb (default 0 (head bs) =? 0)) (take 3 (drop 1 bs))
    (bytes_s32 (take 4 (drop 4 bs))) (take 10 (drop 8 bs)) (take 2 (drop 18 bs)).

(** [sizeof(DirectoryEntry)] *)
Definition EntrySize : Z := 20.

Definition table_bytes (t : list DirectoryEntry) : list Z := t ≫= entry_bytes.

Fixpoint bytes_table (n : nat) (bs : list Z) : list DirectoryEntry :=
  match n with
  | O => []
  | S n' => bytes_entry (take 20 bs) :: bytes_table n' (drop 20 bs)
  end.

(** *** The routines *)

(** [junk] is what the newly allocated table holds. *)
Definition Directory_new (size : Z) (junk : list DirectoryEntry) : outcome Directory :=
  t ← for_range (λ i t,
    e ← rd t i;
    wr t i (mkEntry false (pad1 e) (sector e) (name e) (pad2 e)))
    0 (Z.to_nat size) (take (Z.to_nat size) junk);
  Ret (mkDir size t).

Fixpoint FindIndex_from (t : list DirectoryEntry) (fname : list Z) (i : Z) (n : nat) :
    outcome Z :=
  match n with
  | O => Ret (-1)
  | S n' =>
      e ← rd t i;
      if inUse e && strncmp_eq (Z.to_nat FileNameMaxLen) (name e) fname then Ret i
      else FindIndex_from t fname (i + 1) n'
  end.

Definition FindIndex (dir : Directory) (fname : list Z) : outcome Z :=
  FindIndex_from (table dir) fname 0 (Z.to_nat (tableSize dir)).

Definition Find (dir : Directory) (fname : list Z) : outcome Z :=
  i ← FindIndex dir fname;
  if negb (i =? -1) then e ← rd (table dir) i; Ret (sector e) else Ret (-1).

Fixpoint Add_from (t : list DirectoryEntry) (fname : list Z) (newSector i : Z) (n : nat) :
    outcome (list DirectoryEntry * bool) :=
  match n with
  | O => Ret (t, false)
  | S n' =>
      e ← rd t i;
      if negb (inUse e) then
        t ← wr t i (mkEntry true (pad1 e) newSector
              (strncpy (name e) fname (Z.to_nat FileNameMaxLen)) (pad2 e));
        Ret (t, true)
      else Add_from t fname newSector (i + 1) n'
  end.

Definition Add (dir : Directory) (fname : list Z) (newSector : Z) :
    outcome (Directory * bool) :=
  i ← FindIndex dir fname;
  if negb (i =? -1) then Ret (dir, false)
  else
    '(t, ok) ← Add_from (table dir) fname newSector 0 (Z.to_nat (tableSize dir));
    Ret (mkDir (tableSize dir) t, ok).

Definition Remove (dir : Directory) (fname : list Z) : outcome (Directory * bool) :=
  i ← FindIndex dir fname;
  if i =? -1 then Ret (dir, false)
  else
    e ← rd (table dir) i;
    t ← wr (table dir) i (mkEntry false (pad1 e) (sector e) (name e) (pad2 e));
    Ret (mkDir (tableSize dir) t, true).

(** [printf("%s\n", table[i].name)]: the string ends at a NUL of the array. *)
Definition print_name (e : DirectoryEntry) : outcome (list Z) :=
  _ ← defined_if (bool_decide (0 ∈ name e));
  Ret (until_nul (name e)).

Definition List_ (dir : Directory) : outcome (list (list Z)) :=
  for_range (λ i out,
    e ← rd (table dir) i;
    if inUse e then s ← print_name e; Ret (out ++ [s]) else Ret out)
    0 (Z.to_nat (tableSize dir)) [].

Section files.
Context {D : Type} `{SectorDevice D}.

Definition FetchFrom (dir : Directory) (file : OpenFile) (d : D) : outcome (D * Directory) :=
  '(d, bs) ← ReadAt file d (tableSize dir * EntrySize) 0;
  Ret (d, mkDir (tableSize dir)
    (bytes_table (Z.to_nat (tableSize dir)) (blit (table_bytes (table dir)) 0 bs))).

Definition WriteBack (dir : Directory) (file : OpenFile) (junk : list Z) (d : D) : outcome D :=
  '(d, _) ← WriteAt file d junk (table_bytes (table dir)) (tableSize dir * EntrySize) 0;
  Ret d.

(** What [Print] prints for each entry in use: its name, its sector, its file. *)
Definition Print (dir : Directory) (d : D) :
    outcome (D * list (list Z * Z * (Z * list Z * list (list Z)))) :=
  for_range (λ i '(d, out),
    e ← rd (table dir) i;
    if inUse e then
      s ← print_name e;
      '(d, hdr) ← FileHdr.FetchFrom d (sector e);
      '(d, text) ← FileHdr.Print hdr d;
      Ret (d, out ++ [(s, sector e, text)])
    else Ret (d, out)) 0 (Z.to_nat (tableSize dir)) (d, []).
End files.

(** ** Meaning *)

(** The part of a name that counts. *)
Definition name_key (s : list Z) : list Z := take 9 (until_nul s).

Definition entries (t : list DirectoryEntry) : list (list Z * Z) :=
  (λ e, (name_key (name e), sector e)) <$> filter (λ e, inUse e = true) t.

Definition dmap (dir : Directory) : gmap (list Z) Z := list_to_map (entries (table dir)).

(** The array has its size; no name is in use twice; names are ten bytes. *)
Record wf (dir : Directory) : Prop := {
  wf_size : Z.of_nat (length (table dir)) = tableSize dir;
  wf_names : Forall (λ e, length (name e) = 10%nat) (table dir);
  wf_unique : NoDup ((entries (table dir)).*1);
}.

Lemma until_nul_take n s : until_nul (take n s) = take n (until_nul s).
Proof.
  revert n. induction s as [|c s IH]; intros [|n]; [done..|]. cbn.
  destruct (c =? 0); [done|]. cbn. by rewrite IH.
Qed.

Lemma strncmp_eq_spec n a b :
  strncmp_eq n a b = bool_decide (take n (until_nul a) = take n (until_nul b)).
Proof.
  revert a b. induction n as [|n IH]; intros a b; [by rewrite !take_0|].
  assert (∀ s : list Z, take (S n) (until_nul s) =
    let c := default 0 (head s) in if c =? 0 then [] else c :: take n (until_nul (tail s))) as Hs.
  { intros [|c s]; [done|]. cbn. by destruct (c =? 0). }
  rewrite !Hs. cbn [strncmp_eq]. cbv zeta.
  destruct (Z.eqb_spec (default 0 (head a)) (default 0 (head b))) as [->|Hne].
  - destruct (_ =? 0); [done|]. rewrite IH. apply bool_decide_ext. split; [by intros ->|by intros [=]].
  - symmetry. apply bool_decide_false.
    destruct (Z.eqb_spec (default 0 (head a)) 0), (Z.eqb_spec (default 0 (head b)) 0); congruence.
Qed.

(** A name just stored has the key of the name given. *)
Lemma until_nul_no_nul s : Forall (λ c, c ≠ 0) (until_nul s).
Proof.
  induction s as [|c s IH]; cbn; [constructor|].
  destruct (Z.eqb_spec c 0); [constructor|by constructor].
Qed.

Lemma until_nul_app s rest :
  Forall (λ c, c ≠ 0) s → until_nul (s ++ rest) = s ++ until_nul rest.
Proof.
  induction 1 as [|c s Hc Hs IH]; [done|]. cbn. by rewrite (eqb_false c 0), IH.
Qed.

Lemma until_nul_replicate n rest : until_nul (replicate n 0 ++ rest) = if n is O then until_nul rest else [].
Proof. by destruct n. Qed.

Lemma strncpy_key dst src : name_key (strncpy dst src 9) = name_key src.
Proof.
  unfold name_key, strncpy.
  set (s := take 9 (until_nul src)).
  assert (Forall (λ c, c ≠ 0) s) as Hs by (apply Forall_take, until_nul_no_nul).
  rewrite until_nul_app by done. rewrite until_nul_replicate.
  assert (length s ≤ 9)%nat as Hl by (unfold s; rewrite length_take; lia).
  destruct (9 - length s)%nat as [|k] eqn:E.
  - rewrite take_app_length'; [done|lia].
  - rewrite app_nil_r. by apply take_ge.
Qed.

Lemma strncpy_length dst src : length dst = 10%nat → length (strncpy dst src 9) = 10%nat.
Proof.
  intros Hd. unfold strncpy. rewrite !length_app, length_replicate, length_drop, length_take. lia.
Qed.


(** *** The table and the map *)

Lemma entries_app t1 t2 : entries (t1 ++ t2) = entries t1 ++ entries t2.
Proof. unfold entries. by rewrite filter_app, fmap_app. Qed.

Lemma entries_cons e t :
  entries (e :: t) = (if inUse e then [(name_key (name e), sector e)] else []) ++ entries t.
Proof. unfold entries. rewrite filter_cons. by destruct (inUse e). Qed.

Lemma elem_of_entries k s t :
  (k, s) ∈ entries t ↔ ∃ i e, t !! i = Some e ∧ inUse e = true ∧ name_key (name e) = k ∧ sector e = s.
Proof.
  unfold entries. rewrite list_elem_of_fmap. setoid_rewrite list_elem_of_filter.
  setoid_rewrite list_elem_of_lookup. split.
  - intros (e & [= -> ->] & Hu & i & Hi). eauto 10.
  - intros (i & e & Hi & Hu & <- & <-). eauto 10.
Qed.

Lemma dmap_lookup dir k s :
  wf dir → dmap dir !! k = Some s ↔
  ∃ i e, table dir !! i = Some e ∧ inUse e = true ∧ name_key (name e) = k ∧ sector e = s.
Proof.
  intros [_ _ Hu]. unfold dmap. rewrite <- elem_of_list_to_map by done. apply elem_of_entries.
Qed.

Lemma dmap_None dir k i e :
  wf dir → dmap dir !! k = None → table dir !! i = Some e → inUse e = true → name_key (name e) ≠ k.
Proof.
  intros Hw Hn Hi Hu Hk. pose proof (proj2 (dmap_lookup dir k (sector e) Hw)) as Hs.
  rewrite Hn in Hs. specialize (Hs ltac:(by exists i, e)). done.
Qed.

Lemma table_split (t : list DirectoryEntry) i e :
  t !! i = Some e → ∃ t1 t2, t = t1 ++ e :: t2 ∧ length t1 = i ∧ ∀ e', <[i := e']> t = t1 ++ e' :: t2.
Proof.
  intros Hi. exists (take i t), (drop (S i) t). pose proof (lookup_lt_Some _ _ _ Hi) as Hl.
  split; [by rewrite take_drop_middle|]. split; [rewrite length_take; lia|].
  intros e'. by apply insert_take_drop.
Qed.

Lemma FindIndex_from_spec t fname i n :
  (i + n)%nat = length t →
  (FindIndex_from t fname (Z.of_nat i) n = Ret (-1) ∧
     ∀ j e, (i ≤ j)%nat → t !! j = Some e → inUse e = true → name_key (name e) ≠ name_key fname) ∨
  (∃ j e, FindIndex_from t fname (Z.of_nat i) n = Ret (Z.of_nat j) ∧
     t !! j = Some e ∧ inUse e = true ∧ name_key (name e) = name_key fname).
Proof.
  revert i. induction n as [|n IH]; intros i Hl; cbn [FindIndex_from].
  - left. split; [done|]. intros j e Hj He%lookup_lt_Some. lia.
  - destruct (lookup_lt_is_Some_2 t i) as [e He]; [lia|].
    rewrite (rd_lookup t (Z.of_nat i) e) by (by rewrite ?Nat2Z.id || lia).
    cbn [mbind outcome_bind]. change (Z.to_nat FileNameMaxLen) with 9%nat.
    rewrite strncmp_eq_spec. fold (name_key (name e)) (name_key fname).
    destruct (inUse e && bool_decide _) eqn:E.
    + apply andb_true_iff in E as [Hu Hk%bool_decide_eq_true]. right. eauto 10.
    + replace (Z.of_nat i + 1) with (Z.of_nat (S i)) by lia.
      destruct (IH (S i)) as [[-> Hnone] | Hsome]; [lia| |by right].
      left. split; [done|]. intros j e' Hj He' Hu'.
      destruct (decide (j = i)) as [->|]; [|apply (Hnone j); [lia|done|done]].
      rewrite He in He'. injection He' as <-. rewrite Hu' in E. cbn [andb] in E.
      by apply bool_decide_eq_false in E.
Qed.

(** [FindIndex] finds an entry of that name, or there is none. *)
Lemma FindIndex_spec dir fname :
  wf dir →
  (FindIndex dir fname = Ret (-1) ∧ dmap dir !! name_key fname = None) ∨
  (∃ j e, FindIndex dir fname = Ret (Z.of_nat j) ∧ table dir !! j = Some e ∧ inUse e = true ∧
     name_key (name e) = name_key fname ∧ dmap dir !! name_key fname = Some (sector e)).
Proof.
  intros Hw. unfold FindIndex.
  destruct (FindIndex_from_spec (table dir) fname 0 (Z.to_nat (tableSize dir)))
    as [[E Hnone] | (j & e & E & Hj & Hu & Hk)].
  - pose proof (wf_size dir Hw). lia.
  - left. split; [done|]. apply eq_None_not_Some. intros [s Hs].
    apply dmap_lookup in Hs as (i & e & Hi & Hu & Hk & _); [|done].
    by apply (Hnone i e ltac:(lia)).
  - right. exists j, e. split_and!; try done. apply dmap_lookup; [done|]. eauto 10.
Qed.

Lemma dir_Find_spec dir fname :
  wf dir → Find dir fname = Ret (default (-1) (dmap dir !! name_key fname)).
Proof.
  intros Hw. unfold Find.
  destruct (FindIndex_spec dir fname Hw) as [[-> ->] | (j & e & -> & Hj & _ & _ & ->)];
    cbn [mbind outcome_bind]; [done|].
  rewrite (eqb_false (Z.of_nat j) (-1)) by lia. cbn [negb].
  rewrite (rd_lookup _ _ e) by (by rewrite ?Nat2Z.id || lia). done.
Qed.

(** Replacing one entry by one that is in use under a new name, or is not in use. *)
Lemma wf_replace dir t1 e t2 e' :
  wf dir → table dir = t1 ++ e :: t2 → length (name e') = 10%nat →
  (inUse e' = true → dmap dir !! name_key (name e') = None) →
  wf (mkDir (tableSize dir) (t1 ++ e' :: t2)).
Proof.
  intros Hw Ht Hn Hnew. pose proof Hw as [Hs Hnames Hu]. rewrite Ht in *.
  split; cbn [table tableSize].
  - rewrite <- Hs, !length_app. done.
  - apply Forall_app in Hnames as [H1 H2]. inversion_clear H2. apply Forall_app_2; [done|].
    by constructor.
  - rewrite entries_app, entries_cons, !fmap_app in *.
    assert (NoDup ((entries t1).*1 ++ (entries t2).*1)) as Hu'.
    { apply NoDup_app in Hu as (H1 & H2 & H3). apply NoDup_app in H3 as (H3 & H4 & H5).
      apply NoDup_app. split_and!; [done| |done]. intros x Hx Hx2.
      apply (H2 x Hx). apply elem_of_app. by right. }
    destruct (inUse e') eqn:Eu; [|done]. cbn [fmap list_fmap app].
    rewrite <- Permutation_middle. constructor; [|done].
    intros Hin. specialize (Hnew eq_refl).
    assert (name_key (name e') ∈ (entries (table dir)).*1) as Hin'.
    { rewrite Ht, entries_app, entries_cons, !fmap_app, !elem_of_app.
      apply elem_of_app in Hin as [?|?]; tauto. }
    apply list_elem_of_fmap in Hin' as ([k s] & Hk & Hin'). cbn in Hk. subst k.
    apply elem_of_list_to_map in Hin'; [|apply Hw].
    unfold dmap in Hnew. congruence.
Qed.

Lemma dmap_replace dir t1 e t2 :
  wf dir → table dir = t1 ++ e :: t2 →
  dmap dir = list_to_map ((if inUse e then [(name_key (name e), sector e)] else [])
    ++ entries t1 ++ entries t2) ∧
  NoDup (((if inUse e then [(name_key (name e), sector e)] else [])
    ++ entries t1 ++ entries t2).*1).
Proof.
  intros [_ _ Hu] Ht. unfold dmap. rewrite Ht in *. rewrite entries_app, entries_cons in *.
  assert (entries t1 ++ (if inUse e then [(name_key (name e), sector e)] else []) ++ entries t2
    ≡ₚ (if inUse e then [(name_key (name e), sector e)] else []) ++ entries t1 ++ entries t2) as Hp.
  { rewrite !app_assoc. f_equiv. apply Permutation_app_comm. }
  split.
  - by apply list_to_map_proper.
  - by rewrite <- Hp.
Qed.

Lemma Add_from_spec t fname newSector i n :
  (i + n)%nat = length t →
  (Add_from t fname newSector (Z.of_nat i) n = Ret (t, false) ∧
     ∀ j e, (i ≤ j)%nat → t !! j = Some e → inUse e = true) ∨
  (∃ j e, t !! j = Some e ∧ inUse e = false ∧
     Add_from t fname newSector (Z.of_nat i) n =
       Ret (<[j := mkEntry true (pad1 e) newSector (strncpy (name e) fname 9) (pad2 e)]> t, true)).
Proof.
  revert i. induction n as [|n IH]; intros i Hl; cbn [Add_from].
  - left. split; [done|]. intros j e Hj He%lookup_lt_Some. lia.
  - destruct (lookup_lt_is_Some_2 t i) as [e He]; [lia|].
    rewrite (rd_lookup t (Z.of_nat i) e) by (by rewrite ?Nat2Z.id || lia).
    cbn [mbind outcome_bind]. destruct (inUse e) eqn:Hu; cbn [negb].
    + replace (Z.of_nat i + 1) with (Z.of_nat (S i)) by lia.
      destruct (IH (S i)) as [[-> Hall] | Hsome]; [lia| |by right].
      left. split; [done|]. intros j e' Hj He'.
      destruct (decide (j = i)) as [->|]; [congruence|apply (Hall j); [lia|done]].
    + right. exists i, e. rewrite wr_ok by lia. rewrite Nat2Z.id. done.
Qed.

(** The directory has room. *)
Definition has_room (dir : Directory) : bool := existsb (λ e, negb (inUse e)) (table dir).

Lemma has_room_false dir :
  (∀ j e, (0 ≤ j)%nat → table dir !! j = Some e → inUse e = true) → has_room dir = false.
Proof.
  intros Hall. apply not_true_iff_false. intros (e & He%list_elem_of_In & Hn)%existsb_exists.
  apply list_elem_of_lookup in He as [j Hj]. rewrite (Hall j e) in Hn by (done || lia). done.
Qed.

Lemma Add_spec dir fname newSector :
  wf dir →
  match dmap dir !! name_key fname with
  | Some _ => Add dir fname newSector = Ret (dir, false)
  | None =>
      if has_room dir then
        ∃ dir', Add dir fname newSector = Ret (dir', true) ∧ wf dir' ∧
          tableSize dir' = tableSize dir ∧
          dmap dir' = <[name_key fname := newSector]> (dmap dir)
      else Add dir fname newSector = Ret (dir, false)
  end.
Proof.
  intros Hw. unfold Add.
  destruct (FindIndex_spec dir fname Hw) as [[-> Hn] | (j & e & -> & _ & _ & _ & ->)];
    cbn [mbind outcome_bind].
  2: { by rewrite (eqb_false (Z.of_nat j) (-1)) by lia. }
  rewrite Hn. cbn [negb Z.eqb Pos.eqb].
  destruct (Add_from_spec (table dir) fname newSector 0 (Z.to_nat (tableSize dir)))
    as [[E Hall] | (j & e & Hj & Hu & E)]; [pose proof (wf_size dir Hw); lia|..];
    change (Z.of_nat 0) with 0 in E; rewrite E; cbn [mbind outcome_bind].
  - rewrite has_room_false by done. by destruct dir.
  - assert (has_room dir = true) as ->.
    { apply existsb_exists. exists e. split; [|by rewrite Hu].
      apply list_elem_of_In. by eapply list_elem_of_lookup_2. }
    eexists. split; [done|]. destruct (table_split _ _ _ Hj) as (t1 & t2 & Ht & _ & Hins).
    rewrite Hins. set (e' := mkEntry _ _ _ _ _).
    assert (length (name e') = 10%nat) as Hl.
    { apply strncpy_length. pose proof (wf_names dir Hw) as Hnm.
      rewrite Forall_lookup in Hnm. by apply (Hnm j). }
    assert (name_key (name e') = name_key fname) as Hk by apply strncpy_key.
    assert (wf (mkDir (tableSize dir) (t1 ++ e' :: t2))) as Hw'.
    { apply (wf_replace dir t1 e t2 e'); [done..|]. intros _. by rewrite Hk. }
    split; [done|]. split; [done|].
    destruct (dmap_replace dir t1 e t2 Hw Ht) as [-> _]. rewrite Hu.
    destruct (dmap_replace _ t1 e' t2 Hw' eq_refl) as [-> _].
    cbn [inUse e' app list_to_map foldr]. cbn [fst snd sector]. by rewrite Hk.
Qed.

Lemma dir_Remove_spec dir fname :
  wf dir →
  match dmap dir !! name_key fname with
  | None => Remove dir fname = Ret (dir, false)
  | Some _ =>
      ∃ dir', Remove dir fname = Ret (dir', true) ∧ wf dir' ∧
        tableSize dir' = tableSize dir ∧ dmap dir' = delete (name_key fname) (dmap dir)
  end.
Proof.
  intros Hw. unfold Remove.
  destruct (FindIndex_spec dir fname Hw) as [[-> ->] | (j & e & -> & Hj & Hu & Hk & ->)];
    cbn [mbind outcome_bind]; [done|].
  rewrite (eqb_false (Z.of_nat j) (-1)) by lia.
  rewrite (rd_lookup _ _ e) by (by rewrite ?Nat2Z.id || lia). cbn [mbind outcome_bind].
  pose proof (lookup_lt_Some _ _ _ Hj). rewrite wr_ok by lia. cbn [mbind outcome_bind].
  eexists. split; [done|]. rewrite Nat2Z.id.
  destruct (table_split _ _ _ Hj) as (t1 & t2 & Ht & _ & Hins). rewrite Hins.
  set (e' := mkEntry _ _ _ _ _).
  assert (wf (mkDir (tableSize dir) (t1 ++ e' :: t2))) as Hw'.
  { apply (wf_replace dir t1 e t2 e'); [done|done| |done].
    pose proof (wf_names dir Hw) as Hnm. rewrite Forall_lookup in Hnm. by apply (Hnm j e). }
  split; [done|]. split; [done|].
  destruct (dmap_replace dir t1 e t2 Hw Ht) as [-> Hnd]. rewrite Hu in *.
  destruct (dmap_replace _ t1 e' t2 Hw' eq_refl) as [-> _].
  cbn [inUse e' app list_to_map foldr fst snd]. rewrite Hk.
  rewrite delete_insert_id; [done|]. apply not_elem_of_list_to_map_1.
  cbn [app] in Hnd. rewrite fmap_cons in Hnd. inversion_clear Hnd as [|? ? Hni _].
  by rewrite <- Hk.
Qed.


(** The size of the map is the number of entries in use. *)
Lemma dmap_size dir :
  wf dir → has_room dir = bool_decide (Z.of_nat (size (dmap dir)) < tableSize dir).
Proof.
  intros [<- _ Hu]. unfold dmap. rewrite map_size_list_to_map by done. clear Hu.
  unfold has_room. induction (table dir) as [|e t IH]; [done|].
  rewrite entries_cons, length_app. cbn [existsb length]. destruct (inUse e); cbn [negb orb length app].
  - rewrite IH. apply bool_decide_ext. lia.
  - symmetry. apply bool_decide_true.
    assert (length (entries t) ≤ length t)%nat; [|lia].
    unfold entries. rewrite length_fmap. apply length_filter.
Qed.

(** The constructor makes an empty directory, whatever the memory held. *)
Lemma Directory_new_spec n junk :
  0 ≤ n ≤ Z.of_nat (length junk) → Forall (λ e, length (name e) = 10%nat) junk →
  ∃ dir, Directory_new n junk = Ret dir ∧ wf dir ∧ tableSize dir = n ∧ dmap dir = ∅ ∧
    Forall (λ e, inUse e = false) (table dir) ∧
    ∀ P : DirectoryEntry → Prop, (∀ e, P e → P (mkEntry false (pad1 e) (sector e) (name e) (pad2 e))) →
      Forall P junk → Forall P (table dir).
Proof.
  intros Hn Hj. unfold Directory_new.
  edestruct (for_range_inv (λ i t,
    e ← rd t i;
    wr t i (mkEntry false (pad1 e) (sector e) (name e) (pad2 e)))
    (λ i t, length t = Z.to_nat n ∧ Forall (λ e, inUse e = false) (take (Z.to_nat i) t) ∧
      ∀ P : DirectoryEntry → Prop, (∀ e, P e → P (mkEntry false (pad1 e) (sector e) (name e) (pad2 e))) →
        Forall P junk → Forall P t) 0 (Z.to_nat n)) as (t & E & Hl & Hu & HP).
  3: { rewrite E. cbn [mbind outcome_bind]. eexists. split; [done|]. cbn [table tableSize].
       rewrite Z.add_0_l, Nat2Z.id, take_ge in Hu by lia.
       assert (entries t = []) as He.
       { unfold entries. rewrite filter_none; [done|]. intros e Hin.
         rewrite Forall_forall in Hu. by rewrite Hu. }
       split_and!; [|done| |done|exact HP].
       - split; cbn [table tableSize]; [lia| |rewrite He; constructor].
         apply (HP (λ e, length (name e) = 10%nat)); [done|exact Hj].
       - unfold dmap. cbn [table]. by rewrite He. }
  - intros i t Hi (Hl & Hu & HP). destruct (rd_in_range t i) as [e He]; [lia|].
    rewrite He. cbn [mbind outcome_bind]. rewrite wr_ok by lia. eexists. split; [done|].
    apply rd_Ret in He as [_ He]. split_and!; [by rewrite length_insert| |].
    + replace (Z.to_nat (i + 1)) with (S (Z.to_nat i)) by lia.
      rewrite take_insert_snoc by lia. apply Forall_app_2; [done|by repeat constructor].
    + intros P HPe HPj. specialize (HP P HPe HPj). apply Forall_insert; [done|].
      apply HPe. rewrite Forall_lookup in HP. by apply (HP (Z.to_nat i)).
  - cbn. split_and!; [rewrite length_take; lia|constructor|].
    intros P _ HPj. by apply Forall_take.
Qed.

Lemma Print_empty {D} `{SectorDevice D} dir (d : D) :
  wf dir → Forall (λ e, inUse e = false) (table dir) → Print dir d = Ret (d, []).
Proof.
  intros Hw Hu. unfold Print.
  edestruct (for_range_inv (λ i '(d, out),
    e ← rd (table dir) i;
    if inUse e then
      s ← print_name e;
      '(d, hdr) ← FileHdr.FetchFrom d (sector e);
      '(d, text) ← FileHdr.Print hdr d;
      Ret (d, out ++ [(s, sector e, text)])
    else Ret (d, out)) (λ _ r, r = (d, [])) 0 (Z.to_nat (tableSize dir)) (d, []))
    as (r & E & ->); [|done|exact E].
  intros i r Hi ->. pose proof (wf_size dir Hw).
  destruct (rd_in_range (table dir) i) as [e He]; [lia|]. rewrite He. cbn [mbind outcome_bind].
  apply rd_Ret in He as [_ He]. rewrite Forall_lookup in Hu. rewrite (Hu _ _ He). eauto.
Qed.

(** *** The directory in its file *)

Record entry_ok (e : DirectoryEntry) : Prop := {
  eo_pad1 : length (pad1 e) = 3%nat ∧ Forall is_byte (pad1 e);
  eo_sector : is_s32 (sector e);
  eo_name : length (name e) = 10%nat ∧ Forall is_byte (name e);
  eo_pad2 : length (pad2 e) = 2%nat ∧ Forall is_byte (pad2 e);
}.

Lemma entry_bytes_length e : entry_ok e → length (entry_bytes e) = 20%nat.
Proof.
  intros [[H1 _] _ [H2 _] [H3 _]]. unfold entry_bytes. cbn [length].
  rewrite !length_app, word_bytes_length. lia.
Qed.

Lemma entry_bytes_bytes e : entry_ok e → Forall is_byte (entry_bytes e).
Proof.
  intros [[_ H1] _ [_ H2] [_ H3]]. unfold entry_bytes. constructor.
  - unfold is_byte. destruct (inUse e); lia.
  - repeat apply Forall_app_2; try done. apply le_bytes_are_bytes.
Qed.

Lemma bytes_entry_bytes e : entry_ok e → bytes_entry (entry_bytes e) = e.
Proof.
  intros [[H1 _] Hs [H2 _] [H3 _]]. destruct e as [u p1 sec nm p2]. cbn in *.
  destruct p1 as [|a [|b [|c [|]]]]; try done. unfold bytes_entry, entry_bytes. cbn [pad1].
  cbn [head default from_option drop take app].
  pose proof (word_bytes_length sec) as Hw.
  destruct (word_bytes sec) as [|w0 [|w1 [|w2 [|w3 [|]]]]] eqn:Ew; try done.
  cbn [inUse sector name pad2]. rewrite Ew, !drop_0, ?take_0. cbn [drop take app].
  rewrite ?take_0. f_equal.
  - by destruct u.
  - rewrite <- Ew. by apply bytes_s32_word.
  - rewrite drop_0, take_app_le, take_ge by lia. done.
  - rewrite drop_app_ge by lia. rewrite H2. change (10 - 10)%nat with 0%nat.
    rewrite drop_0. by rewrite take_ge by lia.
Qed.

Lemma table_bytes_length t :
  Forall entry_ok t → Z.of_nat (length (table_bytes t)) = Z.of_nat (length t) * EntrySize.
Proof.
  unfold table_bytes, EntrySize. induction 1 as [|e t He Ht IH]; [done|].
  rewrite bind_cons, length_app, entry_bytes_length by done. cbn [length]. lia.
Qed.

Lemma table_bytes_bytes t : Forall entry_ok t → Forall is_byte (table_bytes t).
Proof.
  unfold table_bytes. induction 1 as [|e t He Ht IH]; [constructor|].
  rewrite bind_cons. apply Forall_app_2; [by apply entry_bytes_bytes|done].
Qed.

Lemma bytes_table_bytes t rest :
  Forall entry_ok t → bytes_table (length t) (table_bytes t ++ rest) = t.
Proof.
  unfold table_bytes. intros Ht. induction Ht as [|e t He Ht IH]; [done|]. cbn [length bytes_table].
  rewrite bind_cons, <- app_assoc. pose proof (entry_bytes_length e He) as Hl.
  rewrite take_app_length', drop_app_length' by done. rewrite bytes_entry_bytes by done.
  by rewrite IH.
Qed.

Lemma Add_entries_ok dir fname newSector dir' :
  Forall entry_ok (table dir) → Forall is_byte fname → is_s32 newSector →
  Add dir fname newSector = Ret (dir', true) → Forall entry_ok (table dir').
Proof.
  intros Ht Hf Hs. unfold Add. intros Ha. inv_ret. destruct (negb _); [done|].
  inv_ret. destruct r0 as [t ok]. inv_ret. cbn [table].
  assert (∀ n i, Add_from (table dir) fname newSector i n = Ret (t, true) → Forall entry_ok t) as Hgen;
    [|by eapply Hgen].
  clear Hrun Hrun0. induction n as [|n IH]; intros i Hrun; cbn [Add_from] in Hrun; [done|].
  inv_ret. destruct (inUse r0); cbn [negb] in Hrun; [by eapply IH|]. inv_ret.
  apply wr_Ret in Hrun1 as [Hi ->]. apply Forall_insert; [done|].
  apply rd_Ret in Hrun0 as [_ He]. rewrite Forall_lookup in Ht. destruct (Ht _ _ He) as [H1 H2 [H3 H3'] H4].
  split; cbn; try done. split; [by apply strncpy_length|].
  unfold strncpy. repeat apply Forall_app_2.
  - apply Forall_take. clear -Hf. induction Hf as [|c l Hc Hl IH]; cbn; [constructor|].
    destruct (c =? 0); [constructor|by constructor].
  - apply Forall_replicate. by unfold is_byte.
  - by apply Forall_drop.
Qed.

Lemma Remove_entries_ok dir fname dir' :
  Forall entry_ok (table dir) → Remove dir fname = Ret (dir', true) → Forall entry_ok (table dir').
Proof.
  intros Ht. unfold Remove. intros Ha. inv_ret. destruct (_ =? _); [done|]. inv_ret. cbn [table].
  apply wr_Ret in Hrun1 as [Hi ->]. apply Forall_insert; [done|].
  apply rd_Ret in Hrun0 as [_ He]. rewrite Forall_lookup in Ht. destruct (Ht _ _ He). by split.
Qed.

Section directory_file.
Context {D : Type} `{SectorDevice D}.

(** The file holds the table of a directory. *)
Definition stores (d : D) (h : FileHeader) (t : list DirectoryEntry) : Prop :=
  content d h = table_bytes t.

Lemma dir_FetchFrom_spec dir f (d : D) t :
  hdr_wf (hdr f) → sd_wf d → Forall entry_ok t → stores d (hdr f) t →
  Z.of_nat (length t) = tableSize dir → length (table dir) = length t →
  Forall entry_ok (table dir) →
  ∃ d', FetchFrom dir f d = Ret (d', mkDir (tableSize dir) t) ∧ sd_wf d' ∧
    ∀ s, 0 ≤ s < NumSectors → sd_sector d' s = sd_sector d s.
Proof.
  intros Hh Hd Ht Hst Hl Hl2 Hjunk. unfold FetchFrom.
  pose proof (content_length d (hdr f) Hd Hh) as Hcl. rewrite Hst in Hcl.
  pose proof (table_bytes_length t Ht) as Htl.
  destruct (ReadAt_spec f d (tableSize dir * EntrySize) 0 Hh Hd) as (d' & -> & Hd' & Hk);
    [done|apply sum_fits_inside; [done|lia]|].
  cbn [mbind outcome_bind]. exists d'. split; [|done]. do 3 f_equal. rewrite Hst in *.
  pose proof (table_bytes_length (table dir) Hjunk) as Hjl.
  unfold clipped. rewrite drop_0, take_ge by lia.
  rewrite <- Hl, Nat2Z.id. unfold blit. rewrite take_0. cbn [app].
  by rewrite bytes_table_bytes.
Qed.

Lemma dir_WriteBack_spec dir f junk (d : D) :
  hdr_wf (hdr f) → sd_wf d → Forall entry_ok (table dir) →
  Z.of_nat (length (table dir)) = tableSize dir →
  numBytes (hdr f) = tableSize dir * EntrySize →
  Forall is_byte junk → numSectors (hdr f) * SectorSize ≤ Z.of_nat (length junk) →
  ∃ d', WriteBack dir f junk d = Ret d' ∧ sd_wf d' ∧ stores d' (hdr f) (table dir) ∧
    ∀ s, 0 ≤ s < NumSectors → s ∉ blocks (hdr f) → sd_sector d' s = sd_sector d s.
Proof.
  intros Hh Hd Ht Hl Hn Hj Hjl. unfold WriteBack.
  pose proof (table_bytes_length _ Ht) as Htl.
  destruct (WriteAt_spec f d junk (table_bytes (table dir)) (tableSize dir * EntrySize) 0)
    as (d' & -> & Hd' & Hc & Hk);
    [done..|apply sum_fits_inside; [done|lia]|by apply table_bytes_bytes|lia|done|done|].
  cbn [mbind outcome_bind]. exists d'. split; [done|]. split; [done|]. split; [|done].
  unfold stores. rewrite Hc. unfold clipped.
  pose proof (content_length d (hdr f) Hd Hh) as Hcl.
  rewrite take_ge by lia. unfold blit. rewrite take_0, drop_ge by lia. by rewrite app_nil_r.
Qed.
End directory_file.

(** ** Properties *)

(** C17: the directory is a finite map from names, cut to nine characters, to sectors: [Find]
    is its lookup, [Add] inserts a new name if there is room and refuses a name that is
    there or a full table, and [Remove] deletes; the table stays well formed and every
    other name keeps its sector. *)
Theorem directory_is_map dir fname newSector :
  wf dir →
  let k := name_key fname in
  Find dir fname = Ret (default (-1) (dmap dir !! k)) ∧
  (match dmap dir !! k with
   | Some _ => Add dir fname newSector = Ret (dir, false)
   | None =>
       if has_room dir then
         ∃ dir', Add dir fname newSector = Ret (dir', true) ∧ wf dir' ∧
           tableSize dir' = tableSize dir ∧ dmap dir' = <[k := newSector]> (dmap dir)
       else Add dir fname newSector = Ret (dir, false)
   end) ∧
  (match dmap dir !! k with
   | None => Remove dir fname = Ret (dir, false)
   | Some _ =>
       ∃ dir', Remove dir fname = Ret (dir', true) ∧ wf dir' ∧
         tableSize dir' = tableSize dir ∧ dmap dir' = delete k (dmap dir)
   end).
Proof.
  intros Hw k. split; [by apply dir_Find_spec|]. split; [by apply Add_spec|by apply dir_Remove_spec].
Qed.

Definition blank_entry : DirectoryEntry := mkEntry false [0; 0; 0] 0 (replicate 10 88) [0; 0].
Definition example_dir : Directory :=
  mkDir 2 [mkEntry true [0; 0; 0] 7 [104; 105; 0; 0; 0; 0; 0; 0; 0; 88] [0; 0]; blank_entry].

Lemma example_dir_wf : wf example_dir.
Proof.
  split; [done|by repeat constructor|].
  change (NoDup [[104; 105]]). apply NoDup_singleton.
Qed.

Lemma directory_is_map_witness :
  Find example_dir [104; 105] = Ret 7 ∧
  (∃ dir', Remove example_dir [104; 105] = Ret (dir', true) ∧ dmap dir' = ∅).
Proof.
  destruct (directory_is_map example_dir [104; 105] 9 example_dir_wf) as (Hf & _ & dir' & Hr & _ & _ & Hm).
  split; [exact Hf|]. exists dir'. split; [exact Hr|]. rewrite Hm. vm_compute. reflexivity.
Defined.

(** A successful [Add] fills one free entry. *)
Lemma Add_from_result t fname newSector i n t' :
  Add_from t fname newSector i n = Ret (t', true) →
  ∃ j e, i ≤ j < i + Z.of_nat n ∧ rd t j = Ret e ∧ inUse e = false ∧
    rd t' j = Ret (mkEntry true (pad1 e) newSector (strncpy (name e) fname 9) (pad2 e)).
Proof.
  revert i. induction n as [|n IH]; intros i Ha; cbn [Add_from] in Ha; [done|]. inv_ret.
  destruct (inUse r) eqn:Eu; cbn [negb] in Ha.
  - destruct (IH _ Ha) as (j & e & Hj & He). exists j, e. split; [lia|done].
  - inv_ret. exists i, r. split_and!; [lia|lia|done|done|]. by eapply rd_wr_eq.
Qed.

(** The name of such an entry is not ended when it has nine characters or more. *)
Lemma strncpy_unended e fname :
  (9 ≤ length (until_nul fname))%nat → length (name e) = 10%nat → Forall (λ c, c ≠ 0) (name e) →
  0 ∉ strncpy (name e) fname 9.
Proof.
  intros Hf Hn Hz. unfold strncpy. rewrite length_take, Nat.min_l by done.
  cbn [Nat.sub replicate app]. rewrite elem_of_app. intros [H0|H0].
  - apply elem_of_take in H0 as (i & H0 & _). apply list_elem_of_lookup_2 in H0.
    pose proof (until_nul_no_nul fname) as Hu. rewrite Forall_forall in Hu. by apply (Hu 0).
  - apply (list_elem_of_lookup_1) in H0 as [i Hi]. rewrite lookup_drop in Hi.
    rewrite Forall_lookup in Hz. by apply (Hz _ _ Hi).
Qed.

(** no routine writes the byte that would end a nine-character name: after a successful
    [Add] of such a name to a table whose free entries hold no NUL, [List] reads past the
    name's array. *)
Theorem Add_leaves_tenth_byte dir fname newSector dir' out :
  (9 ≤ length (until_nul fname))%nat → wf dir →
  Forall (λ e, inUse e = false → Forall (λ c, c ≠ 0) (name e)) (table dir) →
  Add dir fname newSector = Ret (dir', true) → List_ dir' ≠ Ret out.
Proof.
  intros Hf Hw Hz Ha Hl. unfold Add in Ha. inv_ret. destruct (negb _); [done|].
  inv_ret. destruct r0 as [t ok]. inv_ret.
  apply Add_from_result in Hrun0 as (j & e & Hj & He & Hu & He').
  unfold List_ in Hl. cbn [table tableSize] in Hl.
  destruct (for_range_each _ _ _ _ _ Hl j Hj) as (s1 & s2 & Hb).
  rewrite He' in Hb. cbn [mbind outcome_bind inUse] in Hb. unfold print_name in Hb. cbn [name] in Hb.
  apply rd_Ret in He as [_ He]. rewrite Forall_lookup in Hz.
  pose proof (wf_names dir Hw) as Hnm. rewrite Forall_lookup in Hnm.
  rewrite bool_decide_false in Hb; [done|].
  apply strncpy_unended; [done|by apply (Hnm _ _ He)|by apply (Hz _ _ He)].
Qed.

Lemma Add_leaves_tenth_byte_witness :
  ∃ dir', Add example_dir (replicate 9 97) 3 = Ret (dir', true) ∧ List_ dir' ≠ Ret [].
Proof.
  eexists. split; [vm_compute; reflexivity|].
  apply (Add_leaves_tenth_byte example_dir (replicate 9 97) 3).
  - apply Nat.leb_le. reflexivity.
  - exact example_dir_wf.
  - repeat constructor; try discriminate.
  - reflexivity.
Defined.

End Directory.
