(* ===== verification/FileSys.v ===== *)
(** * filesys/filesys.h, filesys/filesys.cc, filesys/fstest.cc: the file system

    [FileSystem] keeps the file of the free map and the file of the directory open.  Every
    operation reads the directory (and the map) from the disk, works on the copies, and
    writes them back.  [fs_inv] says what the disk holds between operations: the two headers
    on their sectors, the map and the directory in their files, and a list of [owned]
    sectors -- headers and blocks of all files -- without duplicates and equal to the
    marked bits.  [files] is the abstract file system, a finite map from names to contents;
    the theorems say that formatting gives the empty map and that [Create], [Open],
    [Remove] and writing to an open file are insertion, lookup, deletion and update. *)

From S2P Require Import Prelude CInt Machine Interrupt BitMap MemManage Disk FileHdr OpenFile Directory.

Import FileHdr OpenFile.
Open Scope Z_scope.

Module FileSys.

Definition FreeMapSector : Z := 0.
Definition DirectorySector : Z := 1.
Definition BitsInByte : Z := 8.
Definition FreeMapFileSize : Z := NumSectors `quot` BitsInByte.
Definition NumDirEntries : Z := 10.
Definition DirectoryFileSize : Z := Directory.EntrySize * NumDirEntries.

Record FileSystem := mkFS { freeMapFile : OpenFile; directoryFile : OpenFile }.

(** What the memory [new] returns holds: the table of a directory, the words of a bit map,
    the [n]th file header and the [n]th write buffer of an operation. *)
Record Heap := mkHeap {
  new_table : list Directory.DirectoryEntry;
  new_words : list Z;
  new_hdr : nat → FileHeader;
  new_buf : nat → list Z;
}.

Section filesys.
Context {D : Type} `{SectorDevice D}.

(** userprog/bitmap.cc, [BitMap::FetchFrom] and [BitMap::WriteBack] *)
Definition BitMap_FetchFrom (b : BitMap.BitMap) (file : OpenFile) (d : D) :
    outcome (D * BitMap.BitMap) :=
  '(d, bs) ← ReadAt file d (BitMap.numWords b * 4) 0;
  Ret (d, BitMap.fetch_bytes b (blit (BitMap.map_bytes b) 0 bs)).

Definition BitMap_WriteBack (b : BitMap.BitMap) (file : OpenFile) (junk : list Z) (d : D) :
    outcome D :=
  '(d, _) ← WriteAt file d junk (BitMap.map_bytes b) (BitMap.numWords b * 4) 0;
  Ret d.

(** The constructor.  [debug] is [DebugIsEnabled('f')]; what it prints is dropped. *)
Definition FileSystem_new (format debug : bool) (mem : Heap) (d : D) :
    outcome (D * FileSystem) :=
  if format then
    freeMap ← BitMap.BitMap_new NumSectors (new_words mem);
    directory ← Directory.Directory_new NumDirEntries (new_table mem);
    freeMap ← BitMap.Mark freeMap FreeMapSector;
    freeMap ← BitMap.Mark freeMap DirectorySector;
    '(mapHdr, freeMap, ok) ← Allocate (new_hdr mem 0) freeMap FreeMapFileSize;
    assert! (ok : bool);;
    '(dirHdr, freeMap, ok) ← Allocate (new_hdr mem 1) freeMap DirectoryFileSize;
    assert! (ok : bool);;
    d ← WriteBack mapHdr d FreeMapSector;
    d ← WriteBack dirHdr d DirectorySector;
    '(d, freeMapFile) ← OpenFile_new d FreeMapSector;
    '(d, directoryFile) ← OpenFile_new d DirectorySector;
    d ← BitMap_WriteBack freeMap freeMapFile (new_buf mem 0) d;
    d ← Directory.WriteBack directory directoryFile (new_buf mem 1) d;
    d ← (if debug then
           _ ← BitMap.Print freeMap;
           '(d, _) ← Directory.Print directory d;
           Ret d
         else Ret d);
    Ret (d, mkFS freeMapFile directoryFile)
  else
    '(d, freeMapFile) ← OpenFile_new d FreeMapSector;
    '(d, directoryFile) ← OpenFile_new d DirectorySector;
    Ret (d, mkFS freeMapFile directoryFile).

(** [new Directory(NumDirEntries)] then [FetchFrom(directoryFile)] *)
Definition fetch_directory (fs : FileSystem) (mem : Heap) (d : D) :
    outcome (D * Directory.Directory) :=
  directory ← Directory.Directory_new NumDirEntries (new_table mem);
  Directory.FetchFrom directory (directoryFile fs) d.

(** [new BitMap(NumSectors)] then [FetchFrom(freeMapFile)] *)
Definition fetch_map (fs : FileSystem) (mem : Heap) (d : D) : outcome (D * BitMap.BitMap) :=
  freeMap ← BitMap.BitMap_new NumSectors (new_words mem);
  BitMap_FetchFrom freeMap (freeMapFile fs) d.

Definition Create (fs : FileSystem) (mem : Heap) (name : list Z) (initialSize : Z) (d : D) :
    outcome (D * bool) :=
  '(d, directory) ← fetch_directory fs mem d;
  i ← Directory.Find directory name;
  if negb (i =? -1) then Ret (d, false)
  else
    '(d, freeMap) ← fetch_map fs mem d;
    '(freeMap, sector) ← BitMap.Find freeMap;
    if sector =? -1 then Ret (d, false)
    else
      '(directory, added) ← Directory.Add directory name sector;
      if negb added then Ret (d, false)
      else
        '(hdr, freeMap, ok) ← Allocate (new_hdr mem 0) freeMap initialSize;
        if negb ok then Ret (d, false)
        else
          d ← WriteBack hdr d sector;
          d ← Directory.WriteBack directory (directoryFile fs) (new_buf mem 0) d;
          d ← BitMap_WriteBack freeMap (freeMapFile fs) (new_buf mem 1) d;
          Ret (d, true).

(** [NULL] is [None]. *)
Definition Open (fs : FileSystem) (mem : Heap) (name : list Z) (d : D) :
    outcome (D * option OpenFile) :=
  '(d, directory) ← fetch_directory fs mem d;
  sector ← Directory.Find directory name;
  if 0 <=? sector then
    '(d, openFile) ← OpenFile_new d sector;
    Ret (d, Some openFile)
  else Ret (d, None).

Definition Remove (fs : FileSystem) (mem : Heap) (name : list Z) (d : D) : outcome (D * bool) :=
  '(d, directory) ← fetch_directory fs mem d;
  sector ← Directory.Find directory name;
  if sector =? -1 then Ret (d, false)
  else
    '(d, fileHdr) ← FetchFrom d sector;
    '(d, freeMap) ← fetch_map fs mem d;
    freeMap ← Deallocate fileHdr freeMap;
    freeMap ← BitMap.Clear freeMap sector;
    '(directory, _) ← Directory.Remove directory name;
    d ← BitMap_WriteBack freeMap (freeMapFile fs) (new_buf mem 0) d;
    d ← Directory.WriteBack directory (directoryFile fs) (new_buf mem 1) d;
    Ret (d, true).

Definition List_ (fs : FileSystem) (mem : Heap) (d : D) : outcome (D * list (list Z)) :=
  '(d, directory) ← fetch_directory fs mem d;
  out ← Directory.List_ directory;
  Ret (d, out).

(** The text printed: the two headers, the map, the directory with the files. *)
Definition Print (fs : FileSystem) (mem : Heap) (d : D) :=
  '(d, bitHdr) ← FetchFrom d FreeMapSector;
  '(d, text1) ← FileHdr.Print bitHdr d;
  '(d, dirHdr) ← FetchFrom d DirectorySector;
  '(d, text2) ← FileHdr.Print dirHdr d;
  '(d, freeMap) ← fetch_map fs mem d;
  text3 ← BitMap.Print freeMap;
  '(d, directory) ← fetch_directory fs mem d;
  '(d, text4) ← Directory.Print directory d;
  Ret (d, (text1, text2, text3, text4)).

End filesys.

(** ** What the disk holds between operations *)

Record heap_ok (mem : Heap) : Prop := {
  ho_table : NumDirEntries ≤ Z.of_nat (length (new_table mem)) ∧
    Forall Directory.entry_ok (new_table mem);
  ho_words : 32 ≤ Z.of_nat (length (new_words mem)) ∧ Forall is_u32 (new_words mem);
  ho_hdr n : table_ok (new_hdr mem n);
  ho_buf n : NumDirect * SectorSize ≤ Z.of_nat (length (new_buf mem n)) ∧
    Forall is_byte (new_buf mem n);
}.

Section invariant.
Context {D : Type} `{SectorDevice D}.

(** The header on a sector, and the sectors of the file it describes. *)
Definition hdr_at (d : D) (s : Z) : FileHeader := bytes_hdr (sd_sector d s).
Definition file_sectors (d : D) (s : Z) : list Z := s :: blocks (hdr_at d s).

(** The header sectors of all files, the free map and the directory among them. *)
Definition roots (m : gmap (list Z) Z) : list Z :=
  FreeMapSector :: DirectorySector :: (map_to_list m).*2.
Definition owned (d : D) (m : gmap (list Z) Z) : list Z := roots m ≫= file_sectors d.

Record fs_inv (fs : FileSystem) (d : D) (b : BitMap.BitMap) (dir : Directory.Directory) : Prop := {
  fi_dev : sd_wf d;
  fi_map_hdr : hdr_at d FreeMapSector = hdr (freeMapFile fs);
  fi_dir_hdr : hdr_at d DirectorySector = hdr (directoryFile fs);
  fi_map_size : numBytes (hdr (freeMapFile fs)) = FreeMapFileSize;
  fi_dir_size : numBytes (hdr (directoryFile fs)) = DirectoryFileSize;
  fi_hdrs : ∀ s, s ∈ roots (Directory.dmap dir) → hdr_wf (hdr_at d s);
  fi_map : content d (hdr (freeMapFile fs)) = BitMap.map_bytes b;
  fi_bits : BitMap.wf b ∧ BitMap.numBits b = NumSectors;
  fi_dir : Directory.stores d (hdr (directoryFile fs)) (Directory.table dir);
  fi_dir_wf : Directory.wf dir ∧ Directory.tableSize dir = NumDirEntries ∧
    Forall Directory.entry_ok (Directory.table dir);
  fi_nodup : NoDup (owned d (Directory.dmap dir));
  fi_used : set_bits (BitMap.bits b) = list_to_set (owned d (Directory.dmap dir));
}.

(** The abstract file system. *)
Definition files (d : D) (m : gmap (list Z) Z) : gmap (list Z) (list Z) :=
  (λ s, content d (hdr_at d s)) <$> m.

(** *** Owned sectors *)

Lemma NoDup_bind_disjoint {A} (f : A → list Z) l a a' x :
  NoDup (l ≫= f) → a ∈ l → a' ∈ l → a ≠ a' → x ∈ f a → x ∉ f a'.
Proof.
  induction l as [|c l IH]; intros Hnd Ha Ha' Hne Hx Hx'; [by apply not_elem_of_nil in Ha|].
  rewrite bind_cons in Hnd. apply NoDup_app in Hnd as (_ & Hdisj & Hnd).
  apply elem_of_cons in Ha as [->|Ha]; apply elem_of_cons in Ha' as [->|Ha']; [done|..].
  - apply (Hdisj x Hx). apply list_elem_of_bind. eauto.
  - apply (Hdisj x Hx'). apply list_elem_of_bind. eauto.
  - by apply IH.
Qed.

Lemma NoDup_bind_each {A} (f : A → list Z) l a : NoDup (l ≫= f) → a ∈ l → NoDup (f a).
Proof.
  induction l as [|c l IH]; intros Hnd Ha; [by apply not_elem_of_nil in Ha|].
  rewrite bind_cons in Hnd. apply NoDup_app in Hnd as (Hc & _ & Hnd).
  apply elem_of_cons in Ha as [->|Ha]; auto.
Qed.

Lemma roots_insert k s m : m !! k = None → roots (<[k := s]> m) ≡ₚ s :: roots m.
Proof.
  intros Hk. unfold roots. rewrite map_to_list_insert by done. cbn [fmap list_fmap snd].
  etrans; [apply perm_skip, perm_swap|apply perm_swap].
Qed.

Lemma roots_delete k s m : m !! k = Some s → roots m ≡ₚ s :: roots (delete k m).
Proof.
  intros Hk. rewrite <- (roots_insert k s) by apply lookup_delete_eq.
  by rewrite insert_delete_id.
Qed.

Lemma elem_of_roots m s :
  s ∈ roots m ↔ s = FreeMapSector ∨ s = DirectorySector ∨ ∃ k, m !! k = Some s.
Proof.
  unfold roots. rewrite !elem_of_cons, list_elem_of_fmap. split.
  - intros [|[|([k s'] & -> & Hk%elem_of_map_to_list)]]; eauto.
  - intros [|[|[k Hk%elem_of_map_to_list]]]; eauto 6.
    right. right. by exists (k, s).
Qed.

Lemma owned_root (d : D) m s x : s ∈ roots m → x ∈ file_sectors d s → x ∈ owned d m.
Proof. intros. apply list_elem_of_bind. eauto. Qed.

Lemma owned_ext (d d' : D) m :
  (∀ s, s ∈ roots m → sd_sector d' s = sd_sector d s) → owned d' m = owned d m.
Proof.
  unfold owned. intros Hs. induction (roots m) as [|s l IH]; [done|].
  rewrite !bind_cons, IH by set_solver. f_equal.
  unfold file_sectors, hdr_at. by rewrite Hs by set_solver.
Qed.

Lemma owned_range fs (d : D) b dir x :
  fs_inv fs d b dir → x ∈ owned d (Directory.dmap dir) → 0 ≤ x < NumSectors.
Proof.
  intros Hi Hx. assert (x ∈ set_bits (BitMap.bits b)) as Hu
    by (rewrite (fi_used _ _ _ _ Hi); by apply elem_of_list_to_set).
  apply elem_of_set_bits in Hu as (i & -> & Hi').
  apply lookup_lt_Some in Hi'. rewrite BitMap.bits_length in Hi'.
  destruct (fi_bits _ _ _ _ Hi) as [_ Hn]. rewrite Hn in Hi'. change NumSectors with 1024 in *. lia.
Qed.

(** A header sector is no block of any file. *)
Lemma root_not_block fs (d : D) b dir s t :
  fs_inv fs d b dir → s ∈ roots (Directory.dmap dir) → t ∈ roots (Directory.dmap dir) →
  s ∉ blocks (hdr_at d t).
Proof.
  intros Hi Hs Ht Hb. pose proof (fi_nodup _ _ _ _ Hi) as Hnd.
  destruct (decide (s = t)) as [->|Hne].
  - pose proof (NoDup_bind_each _ _ _ Hnd Ht) as He. unfold file_sectors in He.
    by apply NoDup_cons in He as [? _].
  - apply (NoDup_bind_disjoint _ _ s t s Hnd Hs Ht Hne); [constructor|by right].
Qed.

Lemma blocks_disjoint fs (d : D) b dir s t x :
  fs_inv fs d b dir → s ∈ roots (Directory.dmap dir) → t ∈ roots (Directory.dmap dir) →
  s ≠ t → x ∈ blocks (hdr_at d s) → x ∉ blocks (hdr_at d t).
Proof.
  intros Hi Hs Ht Hne Hx Hx'.
  apply (NoDup_bind_disjoint _ _ s t x (fi_nodup _ _ _ _ Hi) Hs Ht Hne); by right.
Qed.

Lemma fs_inv_same fs (d d' : D) b dir :
  fs_inv fs d b dir → sd_wf d' → (∀ s, 0 ≤ s < NumSectors → sd_sector d' s = sd_sector d s) →
  fs_inv fs d' b dir ∧ files d' (Directory.dmap dir) = files d (Directory.dmap dir).
Proof.
  intros Hi Hd' Hs.
  assert (∀ s, s ∈ roots (Directory.dmap dir) → hdr_at d' s = hdr_at d s) as Hh.
  { intros s Hr. unfold hdr_at. rewrite Hs; [done|]. apply (owned_range fs d b dir s Hi).
    apply (owned_root d _ s); [done|constructor]. }
  assert (∀ s, s ∈ roots (Directory.dmap dir) → content d' (hdr_at d s) = content d (hdr_at d s)) as Hc.
  { intros s Hr. unfold content. f_equal. apply raw_ext. intros x Hx. apply Hs.
    apply (owned_range fs d b dir x Hi). apply (owned_root d _ s); [done|by right]. }
  assert (FreeMapSector ∈ roots (Directory.dmap dir)) as Hr0 by constructor.
  assert (DirectorySector ∈ roots (Directory.dmap dir)) as Hr1 by (right; constructor).
  assert (owned d' (Directory.dmap dir) = owned d (Directory.dmap dir)) as Ho.
  { apply owned_ext. intros s Hr. apply Hs. apply (owned_range fs d b dir s Hi).
    apply (owned_root d _ s); [done|constructor]. }
  destruct Hi. split.
  - split; try done.
    + by rewrite Hh.
    + by rewrite Hh.
    + intros s Hr. rewrite Hh by done. auto.
    + rewrite <- fi_map_hdr0, Hc by done. by rewrite fi_map_hdr0.
    + unfold Directory.stores. rewrite <- fi_dir_hdr0, Hc by done. by rewrite fi_dir_hdr0.
    + by rewrite Ho.
    + by rewrite Ho.
  - unfold files. apply map_fmap_ext. intros k s Hk.
    assert (s ∈ roots (Directory.dmap dir)) by (apply elem_of_roots; eauto).
    by rewrite Hh, Hc.
Qed.

(** *** The copies in memory *)

Lemma new_map mem :
  heap_ok mem → ∃ b, BitMap.BitMap_new NumSectors (new_words mem) = Ret b ∧ BitMap.wf b ∧
    BitMap.numBits b = NumSectors ∧ BitMap.bits b = replicate 1024 false.
Proof.
  intros [_ [Hl Hw] _ _].
  destruct (BitMap.BitMap_new_spec NumSectors (new_words mem)) as (b & E & Hb & Hbits);
    [done|done|exact Hl|].
  exists b. split_and!; [done|done| |exact Hbits].
  rewrite BitMap.numBits_bits by done. by rewrite Hbits, length_replicate.
Qed.

Lemma map_file_length b :
  BitMap.wf b → BitMap.numBits b = NumSectors →
  BitMap.numWords b = 32 ∧ length (BitMap.map b) = 32%nat ∧ length (BitMap.map_bytes b) = 128%nat.
Proof.
  intros [_ Hw Hl _] Hn. rewrite Hn in Hw. change (divRoundUp NumSectors BitMap.BitsInWord) with 32 in Hw.
  unfold BitMap.map_bytes. rewrite words_bytes_length. lia.
Qed.

Lemma BitMap_FetchFrom_spec f (d : D) b0 b :
  hdr_wf (hdr f) → sd_wf d → BitMap.wf b0 → BitMap.numBits b0 = NumSectors →
  BitMap.wf b → BitMap.numBits b = NumSectors → content d (hdr f) = BitMap.map_bytes b →
  ∃ d', BitMap_FetchFrom b0 f d = Ret (d', b) ∧ sd_wf d' ∧
    ∀ s, 0 ≤ s < NumSectors → sd_sector d' s = sd_sector d s.
Proof.
  intros Hh Hd Hb0 Hn0 Hb Hn Hc. unfold BitMap_FetchFrom.
  destruct (map_file_length b Hb Hn) as (Hw & Hl & Hml).
  destruct (map_file_length b0 Hb0 Hn0) as (Hw0 & Hl0 & Hml0).
  pose proof (content_length d (hdr f) Hd Hh) as Hcl. rewrite Hc in Hcl.
  destruct (ReadAt_spec f d (BitMap.numWords b0 * 4) 0 Hh Hd) as (d' & -> & Hd' & Hk);
    [done|apply sum_fits_inside; [done|lia]|].
  cbn [mbind outcome_bind]. exists d'. split; [|done]. rewrite Hc in *.
  unfold clipped. rewrite drop_0, take_ge by lia.
  unfold blit. rewrite take_0, drop_ge, app_nil_r by lia. cbn [app].
  unfold BitMap.fetch_bytes. rewrite <- (app_nil_r (BitMap.map_bytes b)).
  replace (Z.to_nat (BitMap.numWords b0)) with (length (BitMap.map b)) by lia.
  unfold BitMap.map_bytes. rewrite bytes_words_u32 by apply Hb.
  do 2 f_equal. destruct b; cbn in *. congruence.
Qed.

Lemma BitMap_WriteBack_spec f junk (d : D) b :
  hdr_wf (hdr f) → sd_wf d → BitMap.wf b → BitMap.numBits b = NumSectors →
  numBytes (hdr f) = FreeMapFileSize → Forall is_byte junk →
  NumDirect * SectorSize ≤ Z.of_nat (length junk) →
  ∃ d', BitMap_WriteBack b f junk d = Ret d' ∧ sd_wf d' ∧ content d' (hdr f) = BitMap.map_bytes b ∧
    ∀ s, 0 ≤ s < NumSectors → s ∉ blocks (hdr f) → sd_sector d' s = sd_sector d s.
Proof.
  intros Hh Hd Hb Hn Hs Hj Hjl. unfold BitMap_WriteBack.
  destruct (map_file_length b Hb Hn) as (Hw & Hl & Hml). rewrite Hw.
  pose proof (hw_direct _ Hh) as Hdir.
  destruct (WriteAt_spec f d junk (BitMap.map_bytes b) (32 * 4) 0) as (d' & -> & Hd' & Hc & Hk);
    [done..|apply sum_fits_inside; [done|change FreeMapFileSize with 128 in Hs; lia]
    |apply words_bytes_are_bytes|lia|done|change SectorSize with 128 in *; lia|].
  cbn [mbind outcome_bind]. exists d'. split; [done|]. split; [done|]. split; [|done].
  rewrite Hc. unfold clipped. rewrite Hs. change FreeMapFileSize with 128.
  pose proof (content_length d (hdr f) Hd Hh) as Hcl. rewrite Hs in Hcl. change FreeMapFileSize with 128 in Hcl.
  rewrite take_ge by lia. unfold blit. rewrite take_0, drop_ge by lia. by rewrite app_nil_r.
Qed.

Lemma fetch_directory_spec fs mem (d : D) b dir :
  fs_inv fs d b dir → heap_ok mem →
  ∃ d', fetch_directory fs mem d = Ret (d', dir) ∧ sd_wf d' ∧
    ∀ s, 0 ≤ s < NumSectors → sd_sector d' s = sd_sector d s.
Proof.
  intros Hi [[Hl Hok] _ _ _]. unfold fetch_directory.
  destruct (Directory.Directory_new_spec NumDirEntries (new_table mem)) as (dir0 & -> & Hw0 & Hn0 & _ & _ & HP).
  - split; [done|exact Hl].
  - eapply Forall_impl; [exact Hok|]. by intros e [_ _ [? _] _].
  - cbn [mbind outcome_bind]. destruct (fi_dir_wf _ _ _ _ Hi) as (Hw & Hn & Hents).
    pose proof (Directory.wf_size _ Hw) as Hsz. pose proof (Directory.wf_size _ Hw0) as Hsz0.
    destruct (Directory.dir_FetchFrom_spec dir0 (directoryFile fs) d (Directory.table dir))
      as (d' & E & Hd' & Hk).
    + rewrite <- (fi_dir_hdr _ _ _ _ Hi). apply (fi_hdrs _ _ _ _ Hi). right. constructor.
    + apply Hi.
    + done.
    + apply Hi.
    + lia.
    + lia.
    + apply HP; [|done]. intros e [? ? ? ?]. by split.
    + exists d'. rewrite E, Hn0, <- Hn. by destruct dir.
Qed.

Lemma fetch_map_spec fs mem (d : D) b dir :
  fs_inv fs d b dir → heap_ok mem →
  ∃ d', fetch_map fs mem d = Ret (d', b) ∧ sd_wf d' ∧
    ∀ s, 0 ≤ s < NumSectors → sd_sector d' s = sd_sector d s.
Proof.
  intros Hi Hm. unfold fetch_map. destruct (new_map mem Hm) as (b0 & -> & Hb0 & Hn0 & _).
  cbn [mbind outcome_bind]. apply BitMap_FetchFrom_spec; try done; try apply Hi.
  rewrite <- (fi_map_hdr _ _ _ _ Hi). apply (fi_hdrs _ _ _ _ Hi). constructor.
Qed.

(** *** Writing the map and the directory back *)

Record two_files (fs : FileSystem) (d : D) : Prop := {
  tf_dev : sd_wf d;
  tf_map : hdr_wf (hdr (freeMapFile fs));
  tf_dir : hdr_wf (hdr (directoryFile fs));
  tf_map_size : numBytes (hdr (freeMapFile fs)) = FreeMapFileSize;
  tf_dir_size : numBytes (hdr (directoryFile fs)) = DirectoryFileSize;
  tf_disjoint x : x ∈ blocks (hdr (freeMapFile fs)) → x ∉ blocks (hdr (directoryFile fs));
}.

Definition flushed (fs : FileSystem) (d d' : D) b dir : Prop :=
  sd_wf d' ∧ content d' (hdr (freeMapFile fs)) = BitMap.map_bytes b ∧
  Directory.stores d' (hdr (directoryFile fs)) (Directory.table dir) ∧
  ∀ x, 0 ≤ x < NumSectors → x ∉ blocks (hdr (freeMapFile fs)) → x ∉ blocks (hdr (directoryFile fs)) →
    sd_sector d' x = sd_sector d x.

Definition dir_ok (dir : Directory.Directory) : Prop :=
  Directory.wf dir ∧ Directory.tableSize dir = NumDirEntries ∧
  Forall Directory.entry_ok (Directory.table dir).

Lemma content_frame (d d' : D) h :
  hdr_wf h → (∀ x, 0 ≤ x < NumSectors → x ∈ blocks h → sd_sector d' x = sd_sector d x) →
  content d' h = content d h.
Proof.
  intros Hh Hx. unfold content. f_equal. apply raw_ext. intros x Hb. apply Hx; [|done].
  pose proof (hw_range h Hh) as Hr. rewrite Forall_forall in Hr. auto.
Qed.

Lemma flush_dir fs mem n (d : D) dir :
  two_files fs d → heap_ok mem → dir_ok dir →
  ∃ d', Directory.WriteBack dir (directoryFile fs) (new_buf mem n) d = Ret d' ∧ sd_wf d' ∧
    Directory.stores d' (hdr (directoryFile fs)) (Directory.table dir) ∧
    ∀ x, 0 ≤ x < NumSectors → x ∉ blocks (hdr (directoryFile fs)) → sd_sector d' x = sd_sector d x.
Proof.
  intros [Hd _ Hh _ Hs _] Hm (Hw & Hn & He). destruct (ho_buf mem Hm n) as [Hbl Hb].
  pose proof (hw_direct _ Hh).
  apply Directory.dir_WriteBack_spec; try done.
  - apply Hw.
  - rewrite Hs, Hn. done.
  - change SectorSize with 128 in *. lia.
Qed.

Lemma flush_map fs mem n (d : D) b :
  two_files fs d → heap_ok mem → BitMap.wf b → BitMap.numBits b = NumSectors →
  ∃ d', BitMap_WriteBack b (freeMapFile fs) (new_buf mem n) d = Ret d' ∧ sd_wf d' ∧
    content d' (hdr (freeMapFile fs)) = BitMap.map_bytes b ∧
    ∀ x, 0 ≤ x < NumSectors → x ∉ blocks (hdr (freeMapFile fs)) → sd_sector d' x = sd_sector d x.
Proof.
  intros [Hd Hh _ Hs _ _] Hm Hb Hn. destruct (ho_buf mem Hm n) as [Hbl Hbb].
  by apply BitMap_WriteBack_spec.
Qed.

Lemma flush_dir_map fs mem n n' (d : D) b dir :
  two_files fs d → heap_ok mem → BitMap.wf b → BitMap.numBits b = NumSectors → dir_ok dir →
  ∃ d1 d2, Directory.WriteBack dir (directoryFile fs) (new_buf mem n) d = Ret d1 ∧
    BitMap_WriteBack b (freeMapFile fs) (new_buf mem n') d1 = Ret d2 ∧ flushed fs d d2 b dir.
Proof.
  intros Ht Hm Hb Hn Hdir.
  destruct (flush_dir fs mem n d dir Ht Hm Hdir) as (d1 & E1 & Hd1 & Hs1 & Hk1).
  assert (two_files fs d1) as Ht1 by (destruct Ht; by split).
  destruct (flush_map fs mem n' d1 b Ht1 Hm Hb Hn) as (d2 & E2 & Hd2 & Hc2 & Hk2).
  exists d1, d2. split; [done|]. split; [done|]. split_and!; [done|done| |].
  - unfold Directory.stores. rewrite (content_frame d1); [done|apply Ht|].
    intros x Hx Hxb. apply Hk2; [done|]. intros Hxm. by apply (tf_disjoint _ _ Ht x).
  - intros x Hx Hxm Hxd. by rewrite Hk2, Hk1.
Qed.

Lemma flush_map_dir fs mem n n' (d : D) b dir :
  two_files fs d → heap_ok mem → BitMap.wf b → BitMap.numBits b = NumSectors → dir_ok dir →
  ∃ d1 d2, BitMap_WriteBack b (freeMapFile fs) (new_buf mem n) d = Ret d1 ∧
    Directory.WriteBack dir (directoryFile fs) (new_buf mem n') d1 = Ret d2 ∧ flushed fs d d2 b dir.
Proof.
  intros Ht Hm Hb Hn Hdir.
  destruct (flush_map fs mem n d b Ht Hm Hb Hn) as (d1 & E1 & Hd1 & Hc1 & Hk1).
  assert (two_files fs d1) as Ht1 by (destruct Ht; by split).
  destruct (flush_dir fs mem n' d1 dir Ht1 Hm Hdir) as (d2 & E2 & Hd2 & Hs2 & Hk2).
  exists d1, d2. split; [done|]. split; [done|]. split_and!; [done| |done|].
  - rewrite (content_frame d1); [done|apply Ht|].
    intros x Hx Hxb. apply Hk2; [done|]. by apply (tf_disjoint _ _ Ht x).
  - intros x Hx Hxm Hxd. by rewrite Hk2, Hk1.
Qed.

(** *** What an update keeps *)

Lemma fs_inv_two_files fs (d : D) b dir : fs_inv fs d b dir → two_files fs d.
Proof.
  intros Hi. pose proof (fi_map_hdr _ _ _ _ Hi) as E0. pose proof (fi_dir_hdr _ _ _ _ Hi) as E1.
  assert (FreeMapSector ∈ roots (Directory.dmap dir)) as Hr0 by constructor.
  assert (DirectorySector ∈ roots (Directory.dmap dir)) as Hr1 by (right; constructor).
  split; try apply Hi.
  - rewrite <- E0. by apply Hi.
  - rewrite <- E1. by apply Hi.
  - intros x. rewrite <- E0, <- E1. by apply (blocks_disjoint fs d b dir).
Qed.

(** Nothing but the two system files, the sectors of [extra], changed. *)
Definition frame (fs : FileSystem) (d d' : D) (extra : list Z) : Prop :=
  ∀ x, 0 ≤ x < NumSectors → x ∉ blocks (hdr (freeMapFile fs)) →
    x ∉ blocks (hdr (directoryFile fs)) → x ∉ extra → sd_sector d' x = sd_sector d x.

Lemma frame_root fs (d d' : D) b dir extra s :
  fs_inv fs d b dir → frame fs d d' extra → s ∈ roots (Directory.dmap dir) → s ∉ extra →
  sd_sector d' s = sd_sector d s.
Proof.
  intros Hi Hf Hs He. apply Hf; [| | |done].
  - apply (owned_range fs d b dir s Hi). apply (owned_root d _ s); [done|constructor].
  - rewrite <- (fi_map_hdr _ _ _ _ Hi). apply (root_not_block fs d b dir); [done|done|constructor].
  - rewrite <- (fi_dir_hdr _ _ _ _ Hi). apply (root_not_block fs d b dir); [done|done|right; constructor].
Qed.

Lemma frame_content fs (d d' : D) b dir extra s :
  fs_inv fs d b dir → frame fs d d' extra → s ∈ roots (Directory.dmap dir) →
  s ≠ FreeMapSector → s ≠ DirectorySector → (∀ x, x ∈ file_sectors d s → x ∉ extra) →
  content d' (hdr_at d s) = content d (hdr_at d s).
Proof.
  intros Hi Hf Hs H0s H1s He. unfold content. f_equal. apply raw_ext. intros x Hx. apply Hf.
  - apply (owned_range fs d b dir x Hi). apply (owned_root d _ s); [done|by right].
  - rewrite <- (fi_map_hdr _ _ _ _ Hi). apply (blocks_disjoint fs d b dir s); try done. constructor.
  - rewrite <- (fi_dir_hdr _ _ _ _ Hi). apply (blocks_disjoint fs d b dir s); try done.
    right. constructor.
  - apply He. by right.
Qed.

(** The header sector of a listed file is not one of the two fixed ones. *)
Lemma file_sector_fresh fs (d : D) b dir k s :
  fs_inv fs d b dir → Directory.dmap dir !! k = Some s →
  s ∈ roots (Directory.dmap dir) ∧ s ≠ FreeMapSector ∧ s ≠ DirectorySector.
Proof.
  intros Hi Hk. split; [apply elem_of_roots; eauto|].
  pose proof (fi_nodup _ _ _ _ Hi) as Hnd. unfold owned in Hnd.
  rewrite (roots_delete k s) in Hnd by done. rewrite bind_cons in Hnd.
  apply NoDup_app in Hnd as (_ & Hd & _). specialize (Hd s ltac:(constructor)).
  split; intros ->; apply Hd.
  - apply (owned_root d _ FreeMapSector); constructor.
  - apply (owned_root d _ DirectorySector); [right|]; constructor.
Qed.

(** Two names do not share a header sector. *)
Lemma file_sector_inj fs (d : D) b dir k k' s :
  fs_inv fs d b dir → Directory.dmap dir !! k = Some s → Directory.dmap dir !! k' = Some s → k = k'.
Proof.
  intros Hi Hk Hk'. destruct (decide (k = k')) as [|Hne]; [done|exfalso].
  pose proof (fi_nodup _ _ _ _ Hi) as Hnd. unfold owned in Hnd.
  rewrite (roots_delete k s) in Hnd by done. rewrite bind_cons in Hnd.
  apply NoDup_app in Hnd as (_ & Hd & _). apply (Hd s ltac:(constructor)).
  apply (owned_root d _ s); [|constructor]. apply elem_of_roots. right. right.
  exists k'. by rewrite lookup_delete_ne.
Qed.

(** The free sectors are the ones nobody owns. *)
Lemma free_count fs (d : D) b dir :
  fs_inv fs d b dir →
  (length (owned d (Directory.dmap dir)) + num_clear (BitMap.bits b))%nat = Z.to_nat NumSectors.
Proof.
  intros Hi. pose proof (set_bits_size (BitMap.bits b)) as Hs.
  rewrite (fi_used _ _ _ _ Hi), size_list_to_set in Hs by apply Hi.
  rewrite BitMap.bits_length in Hs. by rewrite (proj2 (fi_bits _ _ _ _ Hi)) in Hs.
Qed.

(** *** Create *)

(** The new file's header is on sector [s], the two system files are written. *)
Lemma Create_inv fs (d d' : D) b dir b' dir' k s h :
  fs_inv fs d b dir → Directory.dmap dir !! k = None → hdr_wf h → 0 ≤ s < NumSectors →
  s ∉ set_bits (BitMap.bits b) → list_to_set (blocks h) ## {[s]} ∪ set_bits (BitMap.bits b) →
  set_bits (BitMap.bits b') = list_to_set (blocks h) ∪ ({[s]} ∪ set_bits (BitMap.bits b)) →
  BitMap.wf b' → BitMap.numBits b' = NumSectors → dir_ok dir' →
  Directory.dmap dir' = <[k := s]> (Directory.dmap dir) →
  sd_wf d' → sd_sector d' s = hdr_bytes h → frame fs d d' [s] →
  content d' (hdr (freeMapFile fs)) = BitMap.map_bytes b' →
  Directory.stores d' (hdr (directoryFile fs)) (Directory.table dir') →
  fs_inv fs d' b' dir' ∧
  files d' (Directory.dmap dir') = <[k := content d' h]> (files d (Directory.dmap dir)).
Proof.
  intros Hi Hk Hh Hs Hsf Hdisj Hused Hb' Hn' Hdir' Hm' Hd' Hsec Hf Hmap Hst.
  rewrite (fi_used _ _ _ _ Hi) in Hsf, Hdisj, Hused.
  assert (∀ t, t ∈ roots (Directory.dmap dir) → t ≠ s) as Hne.
  { intros t Ht ->. apply Hsf, elem_of_list_to_set. apply (owned_root d _ s); [done|constructor]. }
  assert (∀ t, t ∈ roots (Directory.dmap dir) → hdr_at d' t = hdr_at d t) as Hkeep.
  { intros t Ht. unfold hdr_at. f_equal. apply (frame_root fs d d' b dir [s] t); try done.
    intros ->%list_elem_of_singleton. by apply (Hne s). }
  assert (hdr_at d' s = h) as Hat.
  { unfold hdr_at. rewrite Hsec. apply bytes_hdr_bytes. apply Hh. }
  assert (roots (Directory.dmap dir') ≡ₚ s :: roots (Directory.dmap dir)) as Hroots
    by (rewrite Hm'; by apply roots_insert).
  assert (owned d' (Directory.dmap dir') ≡ₚ (s :: blocks h) ++ owned d (Directory.dmap dir)) as Howned.
  { unfold owned at 1. rewrite Hroots, bind_cons. unfold file_sectors at 1. rewrite Hat.
    apply Permutation_app_head. fold (owned d' (Directory.dmap dir)).
    rewrite (owned_ext d d'); [done|]. intros t Ht.
    apply (frame_root fs d d' b dir [s] t); try done.
    intros ->%list_elem_of_singleton. by apply (Hne s). }
  split.
  - split; try done.
    + rewrite Hkeep by constructor. apply Hi.
    + rewrite Hkeep by (right; constructor). apply Hi.
    + apply Hi.
    + apply Hi.
    + intros t. rewrite Hroots. intros [->|Ht]%elem_of_cons; [by rewrite Hat|].
      rewrite Hkeep by done. by apply Hi.
    + rewrite Howned. apply NoDup_app. split_and!.
      * apply NoDup_cons. split; [|apply Hh]. intros Hsb.
        apply (Hdisj s); [by apply elem_of_list_to_set|]. apply elem_of_union. left.
        by apply elem_of_singleton.
      * intros x Hx Hxo. pose proof (proj2 (elem_of_list_to_set (C := gset Z) x _) Hxo) as Hxo'.
        apply elem_of_cons in Hx as [->|Hx]; [done|].
        apply (Hdisj x); [by apply elem_of_list_to_set|]. apply elem_of_union. by right.
      * apply Hi.
    + rewrite Hused, Howned, list_to_set_app_L, list_to_set_cons.
      by rewrite (assoc_L (∪)), (comm_L (∪) (list_to_set (blocks h))).
  - rewrite Hm'. unfold files. rewrite fmap_insert, Hat. f_equal. apply map_fmap_ext.
    intros k' t Hk'. destruct (file_sector_fresh fs d b dir k' t Hi Hk') as (Hr & Hn0 & Hn1).
    rewrite Hkeep by done. apply (frame_content fs d d' b dir [s]); try done.
    intros x Hx ->%list_elem_of_singleton. apply Hsf, elem_of_list_to_set.
    by apply (owned_root d _ t).
Qed.

(** When [Create] succeeds. *)
Definition can_create (b : BitMap.BitMap) (dir : Directory.Directory) (k : list Z) (n : Z) : bool :=
  bool_decide (Directory.dmap dir !! k = None) &&
  bool_decide (Z.of_nat (size (Directory.dmap dir)) < NumDirEntries) &&
  bool_decide (1 + divRoundUp n SectorSize ≤ Z.of_nat (num_clear (BitMap.bits b))).

Lemma fi_find fs (d : D) b dir k :
  fs_inv fs d b dir →
  match Directory.dmap dir !! k with
  | Some s => 0 ≤ s < NumSectors
  | None => True
  end.
Proof.
  intros Hi. destruct (Directory.dmap dir !! k) as [s|] eqn:E; [|done].
  apply (owned_range fs d b dir s Hi). apply (owned_root d _ s); [|constructor].
  apply elem_of_roots. eauto.
Qed.

Lemma Create_spec fs mem name n (d : D) b dir :
  fs_inv fs d b dir → heap_ok mem → Forall is_byte name → 0 ≤ n ≤ MaxFileSize →
  let k := Directory.name_key name in
  ∃ d' b' dir', Create fs mem name n d = Ret (d', can_create b dir k n) ∧ fs_inv fs d' b' dir' ∧
    if can_create b dir k n then
      ∃ c, Z.of_nat (length c) = n ∧
        files d' (Directory.dmap dir') = <[k := c]> (files d (Directory.dmap dir))
    else b' = b ∧ dir' = dir ∧ files d' (Directory.dmap dir') = files d (Directory.dmap dir).
Proof.
  intros Hi Hm Hname Hn k. unfold Create.
  destruct (fetch_directory_spec fs mem d b dir Hi Hm) as (d1 & -> & Hd1 & Hk1).
  cbn [mbind outcome_bind]. destruct (fs_inv_same fs d d1 b dir Hi Hd1 Hk1) as [Hi1 <-].
  destruct (fi_dir_wf _ _ _ _ Hi) as (Hw & Hts & Hents).
  rewrite Directory.dir_Find_spec by done. cbn [mbind outcome_bind]. fold k.
  pose proof (fi_find fs d b dir k Hi) as Hrange.
  unfold can_create. destruct (Directory.dmap dir !! k) as [s|] eqn:Ek; cbn [default from_option id].
  { rewrite eqb_false by lia. cbn [negb]. rewrite bool_decide_false by done. cbn [andb].
    exists d1, b, dir. eauto. }
  cbn [Z.eqb Pos.eqb negb]. rewrite bool_decide_true by done. cbn [andb].
  destruct (fetch_map_spec fs mem d1 b dir Hi1 Hm) as (d2 & -> & Hd2 & Hk2).
  cbn [mbind outcome_bind]. destruct (fs_inv_same fs d1 d2 b dir Hi1 Hd2 Hk2) as [Hi2 <-].
  destruct (fi_bits _ _ _ _ Hi) as [Hb Hnb].
  destruct (decide (num_clear (BitMap.bits b) = 0%nat)) as [Hfull|Hfree].
  { pose proof (BitMap.Find_spec b Hb) as Hfind. apply first_clear_None in Hfull as Hf0.
    rewrite Hf0 in Hfind. rewrite Hfind. cbn [mbind outcome_bind Z.eqb Pos.eqb].
    pose proof (divRoundUp_nonneg n SectorSize ltac:(lia) ltac:(done)).
    rewrite (bool_decide_false (1 + _ ≤ _)) by lia. rewrite andb_false_r.
    exists d2, b, dir. eauto. }
  destruct (Find_takes (B := BitMap.BitMap) b) as (b1 & s & Ef & Hb1 & Hl1 & Hs & Hsf & Hu1 & Hc1);
    [exact Hb|change (bm_bits b) with (BitMap.bits b); lia|].
  change (bm_Find b) with (BitMap.Find b) in Ef. rewrite Ef. cbn [mbind outcome_bind].
  change (bm_bits b) with (BitMap.bits b) in *. change (bm_bits b1) with (BitMap.bits b1) in *.
  rewrite <- BitMap.numBits_bits, Hnb in Hs by done.
  rewrite eqb_false by lia.
  pose proof (Directory.Add_spec dir name s Hw) as Hadd. fold k in Hadd. rewrite Ek in Hadd.
  rewrite Directory.dmap_size, Hts in Hadd by done.
  destruct (decide (Z.of_nat (size (Directory.dmap dir)) < NumDirEntries)) as [Hroom|Hroom].
  2: { rewrite bool_decide_false in Hadd by done. rewrite Hadd. cbn [mbind outcome_bind negb].
       rewrite (bool_decide_false (_ < _)) by done. cbn [andb]. exists d2, b, dir. eauto. }
  rewrite bool_decide_true in Hadd |- * by done. cbn [andb].
  destruct Hadd as (dir1 & Ea & Hw1 & Hts1 & Hm1). rewrite Ea. cbn [mbind outcome_bind negb].
  pose proof (Allocate_spec (B := BitMap.BitMap) (new_hdr mem 0) b1 n) as Hall.
  change (bm_bits b1) with (BitMap.bits b1) in Hall.
  assert (Z.of_nat (length (BitMap.bits b1)) = NumSectors) as Hlen1
    by (rewrite Hl1, <- BitMap.numBits_bits; done).
  specialize (Hall Hb1 Hlen1 (ho_hdr mem Hm 0) Hn).
  destruct (Z.ltb_spec (Z.of_nat (num_clear (BitMap.bits b1))) (divRoundUp n SectorSize)) as [Hlt|Hge].
  { destruct Hall as (h' & ->). cbn [mbind outcome_bind negb].
    rewrite bool_decide_false by lia. exists d2, b, dir. eauto. }
  rewrite bool_decide_true by lia.
  destruct Hall as (h & b2 & -> & Hh & Hhn & Hb2 & Hl2 & Hdisj & Hu2). cbn [mbind outcome_bind negb].
  change (bm_bits b2) with (BitMap.bits b2) in *. rewrite Hu1 in Hdisj, Hu2.
  destruct (WriteBack_spec h d2 s Hd2 Hs) as (d3 & -> & Hd3 & Hs3 & Hk3); [apply Hh|].
  cbn [mbind outcome_bind].
  assert (two_files fs d3) as Htf.
  { destruct (fs_inv_two_files _ _ _ _ Hi2). by split. }
  assert (dir_ok dir1) as Hdir1.
  { split; [done|]. split; [congruence|]. eapply Directory.Add_entries_ok; [exact Hents|exact Hname| |exact Ea].
    change NumSectors with 1024 in Hs. unfold is_s32. lia. }
  assert (BitMap.numBits b2 = NumSectors) as Hnb2
    by (rewrite BitMap.numBits_bits, Hl2; done).
  destruct (flush_dir_map fs mem 0 1 d3 b2 dir1 Htf Hm Hb2 Hnb2 Hdir1)
    as (d4 & d5 & -> & E5 & Hd5 & Hc5 & Hst5 & Hk5).
  cbn [mbind outcome_bind]. rewrite E5. cbn [mbind outcome_bind].
  assert (sd_sector d5 s = hdr_bytes h) as Hs5.
  { rewrite <- Hs3. apply Hk5; [done|..]; intros Hx; apply Hsf;
      rewrite (fi_used _ _ _ _ Hi2); apply elem_of_list_to_set.
    - apply (owned_root d2 _ FreeMapSector); [constructor|right]. by rewrite (fi_map_hdr _ _ _ _ Hi2).
    - apply (owned_root d2 _ DirectorySector); [right; constructor|right].
      by rewrite (fi_dir_hdr _ _ _ _ Hi2). }
  destruct (Create_inv fs d2 d5 b dir b2 dir1 k s h Hi2 Ek Hh Hs Hsf Hdisj Hu2 Hb2 Hnb2 Hdir1 Hm1 Hd5 Hs5)
    as [Hi5 Hfiles]; [|done|done|].
  - intros x Hx Hxm Hxd Hxs. rewrite Hk5 by done. apply Hk3; [done|]. set_solver.
  - exists d5, b2, dir1. split; [done|]. split; [done|].
    exists (content d5 h). split; [|exact Hfiles].
    rewrite content_length by done. exact Hhn.
Qed.

(** *** Remove *)

Lemma Remove_inv fs (d d' : D) b dir b' dir' k s :
  fs_inv fs d b dir → Directory.dmap dir !! k = Some s →
  set_bits (BitMap.bits b') = set_bits (BitMap.bits b) ∖ list_to_set (blocks (hdr_at d s)) ∖ {[s]} →
  BitMap.wf b' → BitMap.numBits b' = NumSectors → dir_ok dir' →
  Directory.dmap dir' = delete k (Directory.dmap dir) →
  flushed fs d d' b' dir' →
  fs_inv fs d' b' dir' ∧
  files d' (Directory.dmap dir') = delete k (files d (Directory.dmap dir)).
Proof.
  intros Hi Hk Hused Hb' Hn' Hdir' Hm' (Hd' & Hmap & Hst & Hf).
  assert (frame fs d d' []) as Hfr by (intros x Hx Hxm Hxd _; by apply Hf).
  assert (∀ t, t ∈ roots (Directory.dmap dir) → hdr_at d' t = hdr_at d t) as Hkeep.
  { intros t Ht. unfold hdr_at. f_equal. apply (frame_root fs d d' b dir [] t); try done.
    apply not_elem_of_nil. }
  pose proof (roots_delete k s _ Hk) as Hroots. rewrite <- Hm' in Hroots.
  assert (∀ t, t ∈ roots (Directory.dmap dir') → t ∈ roots (Directory.dmap dir)) as Hsub.
  { intros t Ht. rewrite Hroots. by right. }
  assert (owned d (Directory.dmap dir) ≡ₚ
    (s :: blocks (hdr_at d s)) ++ owned d' (Directory.dmap dir')) as Howned.
  { unfold owned at 1. rewrite Hroots, bind_cons. apply Permutation_app_head.
    fold (owned d (Directory.dmap dir')). rewrite (owned_ext d d'); [done|].
    intros t Ht. apply (frame_root fs d d' b dir [] t); auto using not_elem_of_nil. }
  pose proof (fi_nodup _ _ _ _ Hi) as Hnd. rewrite Howned in Hnd.
  apply NoDup_app in Hnd as (Hnds & Hdisj & Hnd).
  split.
  - split; try done.
    + rewrite Hkeep by constructor. apply Hi.
    + rewrite Hkeep by (right; constructor). apply Hi.
    + apply Hi.
    + apply Hi.
    + intros t Ht. rewrite Hkeep by auto. apply Hi; auto.
    + rewrite Hused, (fi_used _ _ _ _ Hi), Howned. apply set_eq. intros x.
      rewrite !elem_of_difference, elem_of_singleton, !elem_of_list_to_set, elem_of_app, elem_of_cons.
      split; [tauto|]. intros Hx. split_and!; [by right| |]; intros Hxs; apply (Hdisj x); try done.
      * by right.
      * subst x. constructor.
  - rewrite Hm'. unfold files. rewrite fmap_delete. apply map_eq. intros k'.
    destruct (decide (k' = k)) as [->|Hne]; [by rewrite !lookup_delete_eq|].
    rewrite !lookup_delete_ne, !lookup_fmap by done.
    destruct (Directory.dmap dir !! k') as [t|] eqn:Hk'; [|done]. cbn [fmap option_fmap option_map]. f_equal.
    destruct (file_sector_fresh fs d b dir k' t Hi Hk') as (Hr & Hn0 & Hn1).
    rewrite Hkeep by done. apply (frame_content fs d d' b dir []); auto using not_elem_of_nil.
Qed.

Lemma fs_Remove_spec fs mem name (d : D) b dir :
  fs_inv fs d b dir → heap_ok mem →
  let k := Directory.name_key name in
  ∃ d' b' dir', Remove fs mem name d =
      Ret (d', bool_decide (is_Some (Directory.dmap dir !! k))) ∧ fs_inv fs d' b' dir' ∧
    Directory.dmap dir' = delete k (Directory.dmap dir) ∧
    files d' (Directory.dmap dir') = delete k (files d (Directory.dmap dir)).
Proof.
  intros Hi Hm k. unfold Remove.
  destruct (fetch_directory_spec fs mem d b dir Hi Hm) as (d1 & -> & Hd1 & Hk1).
  cbn [mbind outcome_bind]. destruct (fs_inv_same fs d d1 b dir Hi Hd1 Hk1) as [Hi1 <-].
  destruct (fi_dir_wf _ _ _ _ Hi) as (Hw & Hts & Hents).
  rewrite Directory.dir_Find_spec by done. cbn [mbind outcome_bind]. fold k.
  pose proof (fi_find fs d b dir k Hi) as Hrange.
  destruct (Directory.dmap dir !! k) as [s|] eqn:Ek; cbn [default from_option id].
  2: { rewrite bool_decide_false by (by intros [? ?]). exists d1, b, dir.
       rewrite delete_id by done. split_and!; [done|done|done|].
       rewrite delete_id; [done|]. unfold files. by rewrite lookup_fmap, Ek. }
  rewrite eqb_false by lia. rewrite bool_decide_true by eauto.
  destruct (FetchFrom_spec d1 s Hd1 Hrange) as (d2 & -> & Hd2 & Hk2). cbn [mbind outcome_bind].
  destruct (fs_inv_same fs d1 d2 b dir Hi1 Hd2 Hk2) as [Hi2 <-].
  assert (bytes_hdr (sd_sector d1 s) = hdr_at d2 s) as -> by (unfold hdr_at; by rewrite Hk2).
  destruct (fetch_map_spec fs mem d2 b dir Hi2 Hm) as (d3 & -> & Hd3 & Hk3).
  cbn [mbind outcome_bind]. destruct (fs_inv_same fs d2 d3 b dir Hi2 Hd3 Hk3) as [Hi3 <-].
  assert (hdr_at d2 s = hdr_at d3 s) as -> by (unfold hdr_at; by rewrite Hk3).
  destruct (fi_bits _ _ _ _ Hi) as [Hb Hnb].
  destruct (file_sector_fresh fs d3 b dir k s Hi3 Ek) as (Hr & Hn0 & Hn1).
  assert (Z.of_nat (length (BitMap.bits b)) = NumSectors) as Hlen
    by (rewrite <- BitMap.numBits_bits; done).
  destruct (Deallocate_spec (B := BitMap.BitMap) (hdr_at d3 s) b) as (b1 & -> & Hb1 & Hl1 & Hu1).
  { by apply (fi_hdrs _ _ _ _ Hi3). }
  { exact Hb. }
  { exact Hlen. }
  { change (bm_bits b) with (BitMap.bits b). rewrite (fi_used _ _ _ _ Hi3). intros x Hx.
    apply elem_of_list_to_set, (owned_root d3 _ s); [done|right].
    by apply elem_of_list_to_set in Hx. }
  cbn [mbind outcome_bind]. change (bm_bits b) with (BitMap.bits b) in *.
  change (bm_bits b1) with (BitMap.bits b1) in *.
  destruct (BitMap.Clear_spec b1 s Hb1) as (b2 & -> & Hb2 & Hbits2); [lia|]. cbn [mbind outcome_bind].
  assert (set_bits (BitMap.bits b2) =
    set_bits (BitMap.bits b) ∖ list_to_set (blocks (hdr_at d3 s)) ∖ {[s]}) as Hu2.
  { rewrite Hbits2, set_bits_insert_false, Hu1, Z2Nat.id by lia. done. }
  assert (BitMap.numBits b2 = NumSectors) as Hnb2.
  { rewrite BitMap.numBits_bits, Hbits2, length_insert, Hl1; done. }
  pose proof (Directory.dir_Remove_spec dir name Hw) as Hrem. fold k in Hrem. rewrite Ek in Hrem.
  destruct Hrem as (dir1 & Er & Hw1 & Hts1 & Hm1). rewrite Er. cbn [mbind outcome_bind].
  assert (dir_ok dir1) as Hdir1.
  { split; [done|]. split; [congruence|]. by eapply Directory.Remove_entries_ok. }
  destruct (flush_map_dir fs mem 0 1 d3 b2 dir1 (fs_inv_two_files _ _ _ _ Hi3) Hm Hb2 Hnb2 Hdir1)
    as (d4 & d5 & -> & E5 & Hfl). cbn [mbind outcome_bind]. rewrite E5. cbn [mbind outcome_bind].
  destruct (Remove_inv fs d3 d5 b dir b2 dir1 k s) as [Hi5 Hf5]; try done.
  exists d5, b2, dir1. done.
Qed.

(** *** Open, and writing to an open file *)

Lemma OpenFile_new_spec (d : D) s :
  sd_wf d → 0 ≤ s < NumSectors →
  ∃ d', OpenFile_new d s = Ret (d', mkOpen (hdr_at d s) 0) ∧ sd_wf d' ∧
    ∀ x, 0 ≤ x < NumSectors → sd_sector d' x = sd_sector d x.
Proof.
  intros Hd Hs. unfold OpenFile_new.
  destruct (FetchFrom_spec d s Hd Hs) as (d1 & -> & Hd1 & Hk1). cbn [mbind outcome_bind]. eauto.
Qed.

Lemma Open_spec fs mem name (d : D) b dir :
  fs_inv fs d b dir → heap_ok mem →
  ∃ d', Open fs mem name d =
      Ret (d', (λ s, mkOpen (hdr_at d s) 0) <$> Directory.dmap dir !! Directory.name_key name) ∧
    fs_inv fs d' b dir ∧ (∀ x, 0 ≤ x < NumSectors → sd_sector d' x = sd_sector d x).
Proof.
  intros Hi Hm. unfold Open.
  destruct (fetch_directory_spec fs mem d b dir Hi Hm) as (d1 & -> & Hd1 & Hk1).
  cbn [mbind outcome_bind]. destruct (fs_inv_same fs d d1 b dir Hi Hd1 Hk1) as [Hi1 _].
  destruct (fi_dir_wf _ _ _ _ Hi) as (Hw & _).
  rewrite Directory.dir_Find_spec by done. cbn [mbind outcome_bind].
  pose proof (fi_find fs d b dir (Directory.name_key name) Hi) as Hrange.
  destruct (Directory.dmap dir !! _) as [s|]; cbn [default from_option id fmap option_fmap option_map].
  - rewrite (proj2 (Z.leb_le 0 s)) by lia.
    destruct (OpenFile_new_spec d1 s Hd1 Hrange) as (d2 & -> & Hd2 & Hk2). cbn [mbind outcome_bind].
    exists d2. destruct (fs_inv_same fs d1 d2 b dir Hi1 Hd2 Hk2) as [Hi2 _].
    split_and!; [|done|].
    + unfold hdr_at. by rewrite Hk1.
    + intros x Hx. by rewrite Hk2, Hk1.
  - exists d1. done.
Qed.

(** The content of one file changed, nothing else. *)
Lemma write_inv fs (d d' : D) b dir k s c :
  fs_inv fs d b dir → Directory.dmap dir !! k = Some s → sd_wf d' →
  (∀ x, 0 ≤ x < NumSectors → x ∉ blocks (hdr_at d s) → sd_sector d' x = sd_sector d x) →
  content d' (hdr_at d s) = c →
  fs_inv fs d' b dir ∧
  files d' (Directory.dmap dir) = <[k := c]> (files d (Directory.dmap dir)).
Proof.
  intros Hi Hk Hd' Hf Hc.
  destruct (file_sector_fresh fs d b dir k s Hi Hk) as (Hr & Hn0 & Hn1).
  assert (∀ t, t ∈ roots (Directory.dmap dir) → sd_sector d' t = sd_sector d t) as Hsec.
  { intros t Ht. apply Hf.
    - apply (owned_range fs d b dir t Hi). apply (owned_root d _ t); [done|constructor].
    - by apply (root_not_block fs d b dir). }
  assert (∀ t, t ∈ roots (Directory.dmap dir) → hdr_at d' t = hdr_at d t) as Hkeep.
  { intros t Ht. unfold hdr_at. by rewrite Hsec. }
  assert (∀ t, t ∈ roots (Directory.dmap dir) → t ≠ s →
    content d' (hdr_at d t) = content d (hdr_at d t)) as Hcont.
  { intros t Ht Hne. apply content_frame; [by apply Hi|]. intros x Hx Hxb. apply Hf; [done|].
    by apply (blocks_disjoint fs d b dir t s). }
  assert (owned d' (Directory.dmap dir) = owned d (Directory.dmap dir)) as Ho by by apply owned_ext.
  assert (FreeMapSector ∈ roots (Directory.dmap dir)) as Hr0 by constructor.
  assert (DirectorySector ∈ roots (Directory.dmap dir)) as Hr1 by (right; constructor).
  split.
  - split; try done.
    + rewrite Hkeep by done. apply Hi.
    + rewrite Hkeep by done. apply Hi.
    + apply Hi.
    + apply Hi.
    + intros t Ht. rewrite Hkeep by done. by apply Hi.
    + rewrite <- (fi_map_hdr _ _ _ _ Hi), Hcont by done. rewrite (fi_map_hdr _ _ _ _ Hi). apply Hi.
    + apply Hi.
    + unfold Directory.stores. rewrite <- (fi_dir_hdr _ _ _ _ Hi), Hcont by done.
      rewrite (fi_dir_hdr _ _ _ _ Hi). apply Hi.
    + apply Hi.
    + rewrite Ho. apply Hi.
    + rewrite Ho. apply Hi.
  - unfold files. apply map_eq. intros k'. destruct (decide (k' = k)) as [->|Hne].
    + rewrite lookup_insert_eq, lookup_fmap, Hk. cbn [fmap option_fmap option_map]. by rewrite Hkeep, Hc.
    + rewrite lookup_insert_ne, !lookup_fmap by done.
      destruct (Directory.dmap dir !! k') as [t|] eqn:Hk'; [|done]. cbn [fmap option_fmap option_map]. f_equal.
      destruct (file_sector_fresh fs d b dir k' t Hi Hk') as (Hrt & _).
      rewrite Hkeep by done. apply Hcont; [done|]. intros ->. apply Hne.
      symmetry. by eapply file_sector_inj.
Qed.

(** *** Formatting, and opening a formatted disk *)

Lemma num_clear_replicate n : num_clear (replicate n false) = n.
Proof. induction n as [|n IH]; cbn; congruence. Qed.

Lemma set_bits_replicate n : set_bits (replicate n false) = ∅.
Proof.
  apply set_eq. intros x. rewrite elem_of_set_bits. split; [|set_solver].
  intros (i & _ & [? _]%lookup_replicate). done.
Qed.

(** [Mark] of a free sector. *)
Lemma Mark_free b s :
  BitMap.wf b → BitMap.numBits b = NumSectors → 0 ≤ s < NumSectors → s ∉ set_bits (BitMap.bits b) →
  ∃ b', BitMap.Mark b s = Ret b' ∧ BitMap.wf b' ∧ BitMap.numBits b' = NumSectors ∧
    set_bits (BitMap.bits b') = {[s]} ∪ set_bits (BitMap.bits b).
Proof.
  intros Hb Hn Hs Hf. destruct (BitMap.Mark_spec b s Hb) as (b' & -> & Hb' & Hbits).
  { by rewrite <- BitMap.numBits_bits, Hn. }
  exists b'. split; [done|]. split; [done|]. split.
  - by rewrite BitMap.numBits_bits, Hbits, length_insert, <- BitMap.numBits_bits.
  - rewrite Hbits, set_bits_insert_true, Z2Nat.id; [done|lia|].
    rewrite BitMap.bits_length, Hn. lia.
Qed.

(** [Allocate] when there certainly is room. *)
Lemma Allocate_room this b n used :
  BitMap.wf b → BitMap.numBits b = NumSectors → table_ok this → 0 ≤ n ≤ MaxFileSize →
  set_bits (BitMap.bits b) = list_to_set used → (length used ≤ 900)%nat →
  ∃ h b', Allocate this b n = Ret (h, b', true) ∧ hdr_wf h ∧ numBytes h = n ∧
    BitMap.wf b' ∧ BitMap.numBits b' = NumSectors ∧
    (∀ x, x ∈ blocks h → x ∉ used) ∧ set_bits (BitMap.bits b') = list_to_set (blocks h ++ used).
Proof.
  intros Hb Hn Ht Hsz Hu Hl.
  pose proof (Allocate_spec (B := BitMap.BitMap) this b n) as Hall.
  change (bm_bits b) with (BitMap.bits b) in Hall.
  assert (Z.of_nat (length (BitMap.bits b)) = NumSectors) as Hlen
    by by rewrite <- BitMap.numBits_bits.
  specialize (Hall Hb Hlen Ht Hsz).
  pose proof (set_bits_size (BitMap.bits b)) as Hs.
  assert (size (set_bits (BitMap.bits b)) ≤ length used)%nat as Hsu.
  { rewrite Hu. clear. induction used as [|x l IH]; [by rewrite list_to_set_nil, size_empty|].
    rewrite list_to_set_cons. cbn [length].
    rewrite size_union_alt, size_singleton.
    pose proof (subseteq_size (list_to_set l ∖ {[x]}) (list_to_set l : gset Z) ltac:(set_solver)). lia. }
  assert (divRoundUp n SectorSize ≤ 30) as Hdiv.
  { pose proof (divRoundUp_bounds n SectorSize ltac:(lia) ltac:(done)) as Hd.
    change MaxFileSize with 3840 in Hsz. change SectorSize with 128 in *. lia. }
  rewrite ltb_false in Hall by (change NumSectors with 1024 in Hlen; lia).
  destruct Hall as (h & b' & -> & Hh & Hhn & Hb' & Hl' & Hd & Hu'). change (bm_bits b') with (BitMap.bits b') in *.
  exists h, b'. split_and!; try done.
  - by rewrite BitMap.numBits_bits, Hl'.
  - intros x Hx Hxu. apply (Hd x); [by apply elem_of_list_to_set|].
    rewrite Hu. by apply elem_of_list_to_set.
  - by rewrite Hu', Hu, list_to_set_app_L.
Qed.

Lemma format_spec debug mem (d : D) :
  sd_wf d → heap_ok mem →
  ∃ d' fs b dir, FileSystem_new true debug mem d = Ret (d', fs) ∧ fs_inv fs d' b dir ∧
    Directory.dmap dir = ∅.
Proof.
  intros Hd Hm. unfold FileSystem_new.
  destruct (new_map mem Hm) as (b0 & -> & Hb0 & Hn0 & Hbits0). cbn [mbind outcome_bind].
  destruct (ho_table mem Hm) as [Htl Hte].
  destruct (Directory.Directory_new_spec NumDirEntries (new_table mem))
    as (dir & -> & Hw & Hts & Hdm & Hnu & HP); [done| |].
  { eapply Forall_impl; [exact Hte|]. by intros e [_ _ [? _] _]. }
  cbn [mbind outcome_bind].
  assert (set_bits (BitMap.bits b0) = ∅) as Hu0 by (rewrite Hbits0; apply set_bits_replicate).
  destruct (Mark_free b0 FreeMapSector Hb0 Hn0) as (b1 & -> & Hb1 & Hn1 & Hu1);
    [done|rewrite Hu0; apply not_elem_of_empty|].
  cbn [mbind outcome_bind].
  destruct (Mark_free b1 DirectorySector Hb1 Hn1) as (b2 & -> & Hb2 & Hn2 & Hu2).
  { done. }
  { rewrite Hu1, Hu0, union_empty_r_L, elem_of_singleton. done. }
  cbn [mbind outcome_bind].
  assert (set_bits (BitMap.bits b2) = list_to_set [DirectorySector; FreeMapSector]) as Hu2'
    by (rewrite Hu2, Hu1, Hu0; done).
  destruct (Allocate_room (new_hdr mem 0) b2 FreeMapFileSize [DirectorySector; FreeMapSector] Hb2 Hn2)
    as (mh & b3 & -> & Hmh & Hmn & Hb3 & Hn3 & Hd3 & Hu3); [apply Hm|done|done|cbn; lia|].
  cbn [mbind outcome_bind ASSERT].
  pose proof (blocks_length mh Hmh) as Hmbl. rewrite (hw_sectors mh Hmh), Hmn in Hmbl.
  change (divRoundUp FreeMapFileSize SectorSize) with 1 in Hmbl.
  destruct (Allocate_room (new_hdr mem 1) b3 DirectoryFileSize _ Hb3 Hn3 (ho_hdr mem Hm 1) ltac:(done) Hu3)
    as (dh & b4 & -> & Hdh & Hdn & Hb4 & Hn4 & Hd4 & Hu4).
  { rewrite length_app. cbn [length]. lia. }
  cbn [mbind outcome_bind ASSERT].
  destruct (WriteBack_spec mh d FreeMapSector Hd) as (d1 & -> & Hwd1 & Hs1 & Hk1); [done|apply Hmh|].
  cbn [mbind outcome_bind].
  destruct (WriteBack_spec dh d1 DirectorySector Hwd1) as (d2 & -> & Hwd2 & Hs2 & Hk2); [done|apply Hdh|].
  cbn [mbind outcome_bind].
  destruct (OpenFile_new_spec d2 FreeMapSector Hwd2) as (d3 & -> & Hwd3 & Hk3); [done|].
  cbn [mbind outcome_bind].
  assert (hdr_at d2 FreeMapSector = mh) as E0.
  { unfold hdr_at. rewrite Hk2, Hs1 by done. apply bytes_hdr_bytes, Hmh. }
  rewrite E0.
  destruct (OpenFile_new_spec d3 DirectorySector Hwd3) as (d4 & -> & Hwd4 & Hk4); [done|].
  cbn [mbind outcome_bind].
  assert (hdr_at d3 DirectorySector = dh) as E1.
  { unfold hdr_at. rewrite Hk3, Hs2 by done. apply bytes_hdr_bytes, Hdh. }
  rewrite E1. set (fs := mkFS (mkOpen mh 0) (mkOpen dh 0)).
  assert (dir_ok dir) as Hdir.
  { split; [done|]. split; [done|]. apply HP; [|done]. intros e [? ? ? ?]. by split. }
  destruct (flush_map_dir fs mem 0 1 d4 b4 dir) as (d5 & d6 & E5 & E6 & Hwd6 & Hc6 & Hst6 & Hk6).
  { split; try done. intros x Hx Hx'. apply (Hd4 x Hx'). apply elem_of_app. by left. }
  { done. }
  { done. }
  { done. }
  { done. }
  change (BitMap_WriteBack b4 (mkOpen mh 0)) with (BitMap_WriteBack b4 (freeMapFile fs)). rewrite E5.
  cbn [mbind outcome_bind].
  change (Directory.WriteBack dir (mkOpen dh 0)) with (Directory.WriteBack dir (directoryFile fs)). rewrite E6.
  cbn [mbind outcome_bind].
  rewrite BitMap.Print_spec by done. cbn [mbind outcome_bind].
  rewrite Directory.Print_empty by done. cbn [mbind outcome_bind].
  exists d6, fs, b4, dir. split; [by destruct debug|]. split; [|done].
  assert (∀ s, s = FreeMapSector ∨ s = DirectorySector → s ∉ blocks mh ∧ s ∉ blocks dh) as Hnb.
  { intros s Hs. assert (s ∈ [DirectorySector; FreeMapSector]) as Hin
      by (destruct Hs as [->| ->]; [right|]; constructor).
    split; intros Hx; [by apply (Hd3 s Hx)|]. apply (Hd4 s Hx). apply elem_of_app. by right. }
  assert (hdr_at d6 FreeMapSector = mh) as F0.
  { unfold hdr_at. rewrite Hk6; [|done|apply Hnb; by left|apply Hnb; by left].
    rewrite Hk4, Hk3 by done. exact E0. }
  assert (hdr_at d6 DirectorySector = dh) as F1.
  { unfold hdr_at. rewrite Hk6; [|done|apply Hnb; by right|apply Hnb; by right].
    rewrite Hk4 by done. exact E1. }
  assert (owned d6 (Directory.dmap dir) = FreeMapSector :: blocks mh ++ DirectorySector :: blocks dh) as Ho.
  { rewrite Hdm. unfold owned, roots. rewrite map_to_list_empty. cbn [fmap list_fmap].
    rewrite !bind_cons. unfold file_sectors. rewrite F0, F1. cbn [mbind list_bind app].
    by rewrite app_nil_r. }
  split; try done.
  - rewrite Hdm. intros s Hs. apply elem_of_roots in Hs as [->|[->|[k Hk]]];
      [by rewrite F0|by rewrite F1|by rewrite lookup_empty in Hk].
  - rewrite Ho. apply NoDup_cons. split.
    { rewrite elem_of_app, elem_of_cons. destruct (Hnb FreeMapSector) as [? ?]; [by left|].
      intros [?|[?|?]]; done. }
    apply NoDup_app. split; [apply Hmh|]. split.
    { intros x Hx [->|Hx']%elem_of_cons; [by apply (proj1 (Hnb DirectorySector (or_intror eq_refl)))|].
      apply (Hd4 x Hx'). apply elem_of_app. by left. }
    apply NoDup_cons. split; [apply Hnb; by right|apply Hdh].
  - rewrite Hu4, Ho. apply set_eq. intros x.
    rewrite !elem_of_list_to_set. rewrite !elem_of_app, !elem_of_cons, !elem_of_app, elem_of_cons.
    rewrite elem_of_nil. tauto.
Qed.

(** Opening a disk that is in order finds the same files. *)
Lemma reopen_spec fs debug mem (d : D) b dir :
  fs_inv fs d b dir →
  ∃ d' fs', FileSystem_new false debug mem d = Ret (d', fs') ∧ fs_inv fs' d' b dir ∧
    files d' (Directory.dmap dir) = files d (Directory.dmap dir).
Proof.
  intros Hi. unfold FileSystem_new.
  destruct (OpenFile_new_spec d FreeMapSector) as (d1 & -> & Hd1 & Hk1); [apply Hi|done|].
  cbn [mbind outcome_bind]. destruct (fs_inv_same fs d d1 b dir Hi Hd1 Hk1) as [Hi1 <-].
  destruct (OpenFile_new_spec d1 DirectorySector) as (d2 & -> & Hd2 & Hk2); [done|done|].
  cbn [mbind outcome_bind]. destruct (fs_inv_same fs d1 d2 b dir Hi1 Hd2 Hk2) as [Hi2 Hf2].
  eexists _, _. split; [done|]. split; [|done].
  rewrite (fi_map_hdr _ _ _ _ Hi), (fi_dir_hdr _ _ _ _ Hi1). destruct Hi2. by split.
Qed.

(** *** The abstract file system

    [represents fs d F]: the disk [d] holds the files [F].  The room that is left is a
    function of [F] alone: a file takes a sector for its header and its blocks, and the
    two system files take five sectors. *)

Definition represents (fs : FileSystem) (d : D) (F : gmap (list Z) (list Z)) : Prop :=
  ∃ b dir, fs_inv fs d b dir ∧ files d (Directory.dmap dir) = F.

Definition file_cost (c : list Z) : nat :=
  S (Z.to_nat (divRoundUp (Z.of_nat (length c)) SectorSize)).
Definition cost (F : gmap (list Z) (list Z)) : nat :=
  sum_list_with (λ kc, file_cost kc.2) (map_to_list F).

Definition may_create (F : gmap (list Z) (list Z)) (k : list Z) (n : Z) : bool :=
  bool_decide (F !! k = None) && bool_decide (Z.of_nat (size F) < NumDirEntries) &&
  bool_decide (1 + divRoundUp n SectorSize + Z.of_nat (cost F) + 5 ≤ NumSectors).

Lemma file_sectors_length fs (d : D) b dir s :
  fs_inv fs d b dir → s ∈ roots (Directory.dmap dir) →
  length (file_sectors d s) = file_cost (content d (hdr_at d s)).
Proof.
  intros Hi Hs. pose proof (fi_hdrs _ _ _ _ Hi s Hs) as Hh. unfold file_sectors, file_cost.
  cbn [length]. f_equal. pose proof (blocks_length _ Hh) as Hl.
  rewrite content_length by (done || apply Hi). rewrite (hw_sectors _ Hh) in Hl. lia.
Qed.

Lemma owned_cost fs (d : D) b dir :
  fs_inv fs d b dir →
  length (owned d (Directory.dmap dir)) = (5 + cost (files d (Directory.dmap dir)))%nat.
Proof.
  intros Hi. unfold owned, roots. rewrite !bind_cons, !length_app.
  rewrite (file_sectors_length fs d b dir FreeMapSector) by (done || constructor).
  rewrite (file_sectors_length fs d b dir DirectorySector) by (done || (right; constructor)).
  rewrite (fi_map_hdr _ _ _ _ Hi), (fi_dir_hdr _ _ _ _ Hi).
  destruct (fs_inv_two_files _ _ _ _ Hi) as [Hd Hmh Hdh Hms Hds _].
  unfold file_cost at 1 2. rewrite !content_length, Hms, Hds by done.
  change (S (Z.to_nat (divRoundUp FreeMapFileSize SectorSize))) with 2%nat.
  change (S (Z.to_nat (divRoundUp DirectoryFileSize SectorSize))) with 3%nat.
  assert (length ((map_to_list (Directory.dmap dir)).*2 ≫= file_sectors d) =
    cost (files d (Directory.dmap dir))) as ->; [|lia].
  unfold cost, files. rewrite map_to_list_fmap.
  assert (∀ k s, (k, s) ∈ map_to_list (Directory.dmap dir) → s ∈ roots (Directory.dmap dir)) as Hin.
  { intros k s Hk%elem_of_map_to_list. apply elem_of_roots. eauto. }
  induction (map_to_list (Directory.dmap dir)) as [|[k s] l IH]; [done|].
  rewrite fmap_cons, bind_cons, length_app. cbn [fmap list_fmap sum_list_with snd prod_map].
  rewrite IH by (intros k' s' ?; apply (Hin k' s'); by right).
  rewrite (file_sectors_length fs d b dir s) by (done || apply (Hin k s); constructor). done.
Qed.

Lemma may_create_spec fs (d : D) b dir k n :
  fs_inv fs d b dir → 0 ≤ n → can_create b dir k n = may_create (files d (Directory.dmap dir)) k n.
Proof.
  intros Hi Hn. pose proof (free_count fs d b dir Hi) as Hf.
  rewrite (owned_cost fs d b dir Hi) in Hf. unfold can_create, may_create.
  pose proof (divRoundUp_nonneg n SectorSize Hn ltac:(done)).
  f_equal; [f_equal|].
  - apply bool_decide_ext. unfold files. rewrite lookup_fmap.
    by destruct (Directory.dmap dir !! k).
  - apply bool_decide_ext. unfold files. by rewrite map_size_fmap.
  - apply bool_decide_ext. change NumSectors with 1024 in *. lia.
Qed.

(** An open file on the file [k]. *)
Definition opened (fs : FileSystem) (d : D) (F : gmap (list Z) (list Z)) (k : list Z) (f : OpenFile) :
    Prop :=
  ∃ b dir s, fs_inv fs d b dir ∧ files d (Directory.dmap dir) = F ∧
    Directory.dmap dir !! k = Some s ∧ hdr f = hdr_at d s.

Lemma opened_represents fs (d : D) F k f :
  opened fs d F k f → represents fs d F ∧ sd_wf d ∧ hdr_wf (hdr f) ∧ F !! k = Some (content d (hdr f)).
Proof.
  intros (b & dir & s & Hi & <- & Hk & Ehdr). split; [by exists b, dir|]. split; [apply Hi|].
  rewrite Ehdr. split.
  - apply (fi_hdrs _ _ _ _ Hi). apply elem_of_roots. eauto.
  - unfold files. by rewrite lookup_fmap, Hk.
Qed.

(** A change that touches only the blocks of the open file. *)
Lemma opened_update fs (d d' : D) F k f f' :
  opened fs d F k f → hdr f' = hdr f → sd_wf d' →
  (∀ x, 0 ≤ x < NumSectors → x ∉ blocks (hdr f) → sd_sector d' x = sd_sector d x) →
  opened fs d' (<[k := content d' (hdr f)]> F) k f'.
Proof.
  intros (b & dir & s & Hi & <- & Hk & Ehdr) Ef Hd' Hx. rewrite Ehdr in *.
  destruct (write_inv fs d d' b dir k s _ Hi Hk Hd' Hx eq_refl) as [Hi' Hf'].
  exists b, dir, s. split_and!; [done|done|done|].
  rewrite Ef. unfold hdr_at. f_equal. symmetry. apply Hx.
  - apply (owned_range fs d b dir s Hi). apply (owned_root d _ s); [|constructor].
    apply elem_of_roots. eauto.
  - apply (root_not_block fs d b dir); [done|..]; apply elem_of_roots; eauto.
Qed.

Lemma opened_same fs (d d' : D) F k f f' :
  opened fs d F k f → hdr f' = hdr f → sd_wf d' →
  (∀ x, 0 ≤ x < NumSectors → sd_sector d' x = sd_sector d x) → opened fs d' F k f'.
Proof.
  intros Ho Ef Hd' Hx. destruct (opened_represents _ _ _ _ _ Ho) as (_ & _ & Hh & Hk).
  rewrite <- (insert_id F k _ Hk). rewrite <- (content_frame d d') by auto.
  apply (opened_update fs d d' F k f f'); auto.
Qed.

Lemma Open_opened fs mem name (d : D) F :
  represents fs d F → heap_ok mem →
  ∃ d' r, Open fs mem name d = Ret (d', r) ∧ represents fs d' F ∧
    match r with
    | None => F !! Directory.name_key name = None
    | Some f => seekPosition f = 0 ∧ opened fs d' F (Directory.name_key name) f
    end.
Proof.
  intros (b & dir & Hi & <-) Hm.
  destruct (Open_spec fs mem name d b dir Hi Hm) as (d' & -> & Hi' & Hk). eexists d', _.
  split; [done|].
  destruct (fs_inv_same fs d d' b dir Hi (fi_dev _ _ _ _ Hi') Hk) as [_ Hf].
  split; [by exists b, dir|].
  destruct (Directory.dmap dir !! Directory.name_key name) as [s|] eqn:Es;
    cbn [fmap option_fmap option_map].
  - split; [done|]. exists b, dir, s. split_and!; [done|done|done|]. cbn [hdr].
    unfold hdr_at. f_equal. symmetry. apply Hk.
    apply (owned_range fs d b dir s Hi). apply (owned_root d _ s); [|constructor].
    apply elem_of_roots. eauto.
  - unfold files. by rewrite lookup_fmap, Es.
Qed.

Lemma Create_represents fs mem name n (d : D) F :
  represents fs d F → heap_ok mem → Forall is_byte name → 0 ≤ n ≤ MaxFileSize →
  let k := Directory.name_key name in
  ∃ d', Create fs mem name n d = Ret (d', may_create F k n) ∧
    if may_create F k n then ∃ c, Z.of_nat (length c) = n ∧ represents fs d' (<[k := c]> F)
    else represents fs d' F.
Proof.
  intros (b & dir & Hi & <-) Hm Hname Hn k.
  destruct (Create_spec fs mem name n d b dir Hi Hm Hname Hn) as (d' & b' & dir' & -> & Hi' & Hr).
  fold k in Hr |- *. rewrite (may_create_spec fs d b dir k n Hi) in Hr |- * by lia.
  exists d'. split; [done|].
  destruct (may_create _ k n).
  - destruct Hr as (c & Hc & Hf). exists c. split; [done|]. by exists b', dir'.
  - destruct Hr as (-> & -> & Hf). by exists b, dir.
Qed.
End invariant.


(** ** filesys/fstest.cc *)

Definition TransferSize : Z := 10.

Inductive CopyResult := CouldNotOpenInput | CouldNotCreateOutput | Copied.

Inductive PerfMessage := CannotCreate | UnableToOpen | UnableToWrite | UnableToRead | UnableToRemove.

(** ["TestFile"] and ["1234567890"] *)
Definition FileName : list Z := [84; 101; 115; 116; 70; 105; 108; 101].
Definition Contents : list Z := [49; 50; 51; 52; 53; 54; 55; 56; 57; 48].
Definition ContentSize : Z := 10.
Definition FileSize : Z := ContentSize * 5000.

Section fstest.
Context {D : Type} `{SectorDevice D}.

(** The copying loop; [rest] is what [fread] has not returned yet. *)
Definition Copy_body (mem : Heap) (st : OpenFile * D * list Z) :
    outcome (OpenFile * D * list Z + D) :=
  let '(openFile, d, rest) := st in
  let buffer := take (Z.to_nat TransferSize) rest in
  let amountRead := Z.of_nat (length buffer) in
  if 0 <? amountRead then
    '(openFile, d, _) ← Write openFile d (new_buf mem 2) buffer amountRead;
    Ret (inl (openFile, d, drop (Z.to_nat TransferSize) rest))
  else Ret (inr d).

(** [from] is the content of the UNIX file, if it can be opened. *)
Definition Copy (fuel : nat) (fs : FileSystem) (mem : Heap) (from : option (list Z))
    (to : list Z) (d : D) : outcome (D * CopyResult) :=
  match from with
  | None => Ret (d, CouldNotOpenInput)
  | Some bytes =>
      '(d, ok) ← Create fs mem to (Z.of_nat (length bytes)) d;
      if negb ok then Ret (d, CouldNotCreateOutput)
      else
        '(d, openFile) ← Open fs mem to d;
        match openFile with
        | None => AssertFails
        | Some openFile =>
            d ← loop (Copy_body mem) fuel (openFile, d, bytes);
            Ret (d, Copied)
        end
  end.

Definition Print_body (st : OpenFile * D * list Z) : outcome (OpenFile * D * list Z + D * list Z) :=
  let '(openFile, d, out) := st in
  '(openFile, d, buffer) ← Read openFile d TransferSize;
  if 0 <? Z.of_nat (length buffer) then Ret (inl (openFile, d, out ++ buffer))
  else Ret (inr (d, out)).

(** [None]: the file could not be opened. *)
Definition Print_file (fuel : nat) (fs : FileSystem) (mem : Heap) (name : list Z) (d : D) :
    outcome (D * option (list Z)) :=
  '(d, openFile) ← Open fs mem name d;
  match openFile with
  | None => Ret (d, None)
  | Some openFile =>
      '(d, out) ← loop Print_body fuel (openFile, d, []);
      Ret (d, Some out)
  end.

Definition FileWrite_body (mem : Heap) (st : Z * OpenFile * D) :
    outcome (Z * OpenFile * D + D * list PerfMessage) :=
  let '(i, openFile, d) := st in
  if i <? FileSize then
    '(openFile, d, numBytes) ← Write openFile d (new_buf mem 2) Contents ContentSize;
    if numBytes <? 10 then Ret (inr (d, [UnableToWrite]))
    else Ret (inl (i + ContentSize, openFile, d))
  else Ret (inr (d, [])).

Definition FileWrite (fuel : nat) (fs : FileSystem) (mem : Heap) (d : D) :
    outcome (D * list PerfMessage) :=
  '(d, ok) ← Create fs mem FileName 0 d;
  if negb ok then Ret (d, [CannotCreate])
  else
    '(d, openFile) ← Open fs mem FileName d;
    match openFile with
    | None => Ret (d, [UnableToOpen])
    | Some openFile => loop (FileWrite_body mem) fuel (0, openFile, d)
    end.

Definition FileRead_body (st : Z * OpenFile * D) :
    outcome (Z * OpenFile * D + D * list PerfMessage) :=
  let '(i, openFile, d) := st in
  if i <? FileSize then
    '(openFile, d, buffer) ← Read openFile d ContentSize;
    if (Z.of_nat (length buffer) <? 10) || negb (bool_decide (buffer = Contents))
    then Ret (inr (d, [UnableToRead]))
    else Ret (inl (i + ContentSize, openFile, d))
  else Ret (inr (d, [])).

Definition FileRead (fuel : nat) (fs : FileSystem) (mem : Heap) (d : D) :
    outcome (D * list PerfMessage) :=
  '(d, openFile) ← Open fs mem FileName d;
  match openFile with
  | None => Ret (d, [UnableToOpen])
  | Some openFile => loop FileRead_body fuel (0, openFile, d)
  end.

Definition PerformanceTest (fuel : nat) (fs : FileSystem) (mem : Heap) (d : D) :
    outcome (D * list PerfMessage) :=
  '(d, out1) ← FileWrite fuel fs mem d;
  '(d, out2) ← FileRead fuel fs mem d;
  '(d, ok) ← Remove fs mem FileName d;
  Ret (d, out1 ++ out2 ++ (if (ok : bool) then [] else [UnableToRemove])).

(** *** The copying loop *)

Lemma Write_spec fs mem (d : D) F k f from :
  opened fs d F k f → heap_ok mem → 0 ≤ seekPosition f → Forall is_byte from →
  seekPosition f + Z.of_nat (length from) ≤ numBytes (hdr f) →
  ∃ d', Write f d (new_buf mem 2) from (Z.of_nat (length from)) =
      Ret (mkOpen (hdr f) (seekPosition f + Z.of_nat (length from)), d', Z.of_nat (length from)) ∧
    content d' (hdr f) = blit (content d (hdr f)) (Z.to_nat (seekPosition f)) from ∧
    opened fs d' (<[k := content d' (hdr f)]> F) k (mkOpen (hdr f) (seekPosition f + Z.of_nat (length from))).
Proof.
  intros Ho Hm Hp Hb Hle. destruct (opened_represents _ _ _ _ _ Ho) as (_ & Hd & Hh & Hk).
  destruct (ho_buf mem Hm 2) as [Hjl Hj]. pose proof (hw_direct _ Hh) as Hdir.
  destruct (WriteAt_spec f d (new_buf mem 2) from (Z.of_nat (length from)) (seekPosition f))
    as (d' & E & Hd' & Hc & Hkeep);
    [done..|by apply sum_fits_inside|done|done|done|change SectorSize with 128 in *; lia|].
  pose proof (numBytes_max _ Hh).
  unfold Write. rewrite E. cbn [mbind outcome_bind].
  assert (clipped (hdr f) (Z.of_nat (length from)) (seekPosition f) = Z.of_nat (length from)) as Ecl
    by (unfold clipped; lia).
  rewrite Ecl, Nat2Z.id, firstn_all in Hc. exists d'. rewrite Ecl, s32_small by (unfold is_s32; lia).
  split; [done|]. split; [done|].
  by apply (opened_update fs d d' F k f).
Qed.

Lemma Copy_loop fs mem (d : D) F k f bytes fuel :
  opened fs d F k f → heap_ok mem → seekPosition f = 0 → Forall is_byte bytes →
  numBytes (hdr f) = Z.of_nat (length bytes) → (length bytes < fuel)%nat →
  ∃ d', loop (Copy_body mem) fuel (f, d, bytes) = Ret d' ∧ represents fs d' (<[k := bytes]> F).
Proof.
  intros Ho Hm Hp Hb Hl Hfuel.
  apply (loop_total (Copy_body mem)
    (λ '(f', d', rest), ∃ F', opened fs d' F' k f' ∧ <[k := bytes]> F' = <[k := bytes]> F ∧
       hdr f' = hdr f ∧ seekPosition f' = Z.of_nat (length bytes) - Z.of_nat (length rest) ∧
       (length rest ≤ length bytes)%nat ∧ rest = drop (length bytes - length rest) bytes ∧
       take (length bytes - length rest) (content d' (hdr f)) = take (length bytes - length rest) bytes)
    (λ d', represents fs d' (<[k := bytes]> F)) (λ '(_, _, rest), length rest)); [..|done].
  2: { exists F. split_and!; try done; try lia; [|].
       - by rewrite Nat.sub_diag, drop_0.
       - by rewrite Nat.sub_diag, !take_0. }
  intros [[f' d'] rest] (F' & Ho' & HF & Eh & Es & Hle & Hr & Ht). unfold Copy_body.
  change (Z.to_nat TransferSize) with 10%nat.
  destruct (opened_represents _ _ _ _ _ Ho') as (Hrep & Hd' & Hh & Hk). rewrite Eh in Hh, Hk.
  pose proof (content_length d' (hdr f) Hd' Hh) as Hcl.
  destruct (Z.ltb_spec 0 (Z.of_nat (length (take 10 rest)))) as [Hpos|Hz].
  - destruct (Write_spec fs mem d' F' k f' (take 10 rest) Ho' Hm) as (d2 & -> & Hc & Ho2).
    { lia. }
    { apply Forall_take. rewrite Hr. by apply Forall_drop. }
    { rewrite Eh, length_take. lia. }
    cbn [mbind outcome_bind]. rewrite Eh in *. eexists. split; [done|].
    rewrite length_take in Hpos |- *. split; [|rewrite length_drop; lia].
    exists (<[k := content d2 (hdr f)]> F'). split; [by rewrite length_take in Ho2|].
    split; [by rewrite insert_insert_eq|]. cbn [hdr seekPosition]. split; [done|].
    rewrite length_drop. split; [lia|]. split; [lia|].
    set (p := (length bytes - length rest)%nat) in *.
    replace (length bytes - (length rest - 10))%nat with (p + length (take 10 rest))%nat
      by (rewrite length_take; lia).
    split.
    + rewrite Hr at 1. rewrite drop_drop. rewrite length_take.
      destruct (decide (10 ≤ length rest)%nat); [by rewrite Nat.min_l by lia|].
      by rewrite !drop_ge by lia.
    + rewrite Hc, Es. replace (Z.to_nat (Z.of_nat (length bytes) - Z.of_nat (length rest))) with p by lia.
      unfold blit. rewrite Ht.
      rewrite app_assoc, take_app_length'
        by (rewrite length_app, !length_take; unfold p; lia).
      rewrite Hr at 1. rewrite take_take_drop, length_take.
      destruct (decide (10 ≤ length rest)%nat); [by rewrite Nat.min_l by lia|].
      by rewrite !take_ge by (unfold p; lia).
  - eexists. split; [done|]. rewrite length_take in Hz.
    assert (length rest = 0)%nat as E0 by lia. rewrite E0, Nat.sub_0_r in Ht.
    rewrite (take_ge bytes) in Ht by done. rewrite take_ge in Ht by lia.
    rewrite Ht in Hk. rewrite <- HF, insert_id by done. exact Hrep.
Qed.

Lemma Print_loop fs (d : D) F k f fuel :
  opened fs d F k f → seekPosition f = 0 → numBytes (hdr f) < Z.of_nat fuel →
  ∃ d', loop Print_body fuel (f, d, []) = Ret (d', content d (hdr f)) ∧ represents fs d' F.
Proof.
  intros Ho Hp Hfuel. destruct (opened_represents _ _ _ _ _ Ho) as (_ & Hd & Hh & Hk).
  pose proof (content_length d (hdr f) Hd Hh) as Hcl. set (c := content d (hdr f)) in *.
  pose proof (numBytes_max _ Hh) as Hmax.
  destruct (loop_total Print_body
    (λ '(f', d', out), opened fs d' F k f' ∧ hdr f' = hdr f ∧ out = take (length out) c ∧
       seekPosition f' = Z.of_nat (length out) ∧ content d' (hdr f) = c ∧ (length out ≤ length c)%nat)
    (λ '(d', out), represents fs d' F ∧ out = c) (λ '(_, _, out), (length c - length out)%nat)
    fuel (f, d, [])) as ([d' out] & E & Hrep & ->).
  - intros [[f' d'] out] (Ho' & Eh & Eout & Es & Ec & Hle). unfold Print_body, Read.
    destruct (opened_represents _ _ _ _ _ Ho') as (Hrep & Hd' & _).
    destruct (ReadAt_spec f' d' TransferSize (seekPosition f')) as (d2 & -> & Hd2 & Hk2);
      [by rewrite Eh|done|lia|intros _; change TransferSize with 10; lia|].
    rewrite Eh, Ec, Es, Nat2Z.id in *. cbn [mbind outcome_bind].
    change TransferSize with 10. set (bs := take _ (drop (length out) c)).
    assert (length bs = Nat.min 10 (length c - length out)) as Hbl.
    { unfold bs, clipped. rewrite length_take, length_drop. lia. }
    rewrite s32_small by (unfold is_s32; lia).
    assert (opened fs d2 F k (mkOpen (hdr f) (Z.of_nat (length out) + Z.of_nat (length bs)))) as Ho2
      by (by apply (opened_same fs d' d2 F k f')).
    destruct (Z.ltb_spec 0 (Z.of_nat (length bs))) as [Hpos|Hz].
    + eexists. split; [done|]. split; [|rewrite length_app; lia]. split_and!; [done|done| | | |].
      * rewrite length_app. rewrite <- (take_take_drop c (length out) (length bs)). f_equal; [done|].
        unfold bs at 1. assert (length bs = Z.to_nat (clipped (hdr f) 10 (Z.of_nat (length out)))) as ->;
          [|done]. unfold clipped. lia.
      * cbn [seekPosition]. rewrite length_app. lia.
      * rewrite <- Ec. apply content_frame; [done|]. auto.
      * rewrite length_app. lia.
    + eexists. split; [done|]. split; [by eapply opened_represents|].
      rewrite Eout. apply take_ge. lia.
  - split_and!; try done. cbn. lia.
  - cbn [length]. lia.
  - eauto.
Qed.
End fstest.


(** ** Properties *)

(** A concrete heap full of junk, and the disk of [OpenFile]. *)
Definition demo_heap : Heap :=
  mkHeap (replicate 10 Directory.blank_entry) (replicate 32 7)
    (λ _, blank_hdr) (λ n, replicate 3840 (Z.of_nat n `mod` 256)).

Lemma demo_heap_ok : heap_ok demo_heap.
Proof.
  split; cbn [demo_heap new_table new_words new_hdr new_buf].
  - split; [done|]. apply Forall_replicate.
    split; cbn; unfold is_s32; try (split; [done|]); try lia; repeat constructor; done.
  - split; [done|]. apply Forall_replicate. unfold is_u32. lia.
  - intros _. exact blank_hdr_ok.
  - intros n. split; [by rewrite length_replicate|]. apply Forall_replicate.
    unfold is_byte. pose proof (Z.mod_pos_bound (Z.of_nat n) 256). lia.
Qed.

(** formatting a disk of any content succeeds and leaves an empty file system, and starting
    again on that disk without formatting finds the same, empty, file system. *)
Theorem format_represents_empty {D} `{SectorDevice D} debug mem (d : D) :
  sd_wf d → heap_ok mem →
  ∃ d' fs, FileSystem_new true debug mem d = Ret (d', fs) ∧ represents fs d' ∅ ∧
    ∃ d'' fs', FileSystem_new false debug mem d' = Ret (d'', fs') ∧ represents fs' d'' ∅.
Proof.
  intros Hd Hm. destruct (format_spec debug mem d Hd Hm) as (d' & fs & b & dir & E & Hi & Hdm).
  exists d', fs. split; [done|].
  assert (files d' (Directory.dmap dir) = ∅) as Hf by (unfold files; by rewrite Hdm, fmap_empty).
  split; [by exists b, dir|].
  destruct (reopen_spec fs debug mem d' b dir Hi) as (d'' & fs' & E' & Hi' & Hf').
  exists d'', fs'. split; [done|]. exists b, dir. by rewrite Hf'.
Qed.

Lemma format_represents_empty_witness :
  ∃ d fs, FileSystem_new (H := example_ops) true true demo_heap example_disk = Ret (d, fs) ∧
    represents (H := example_ops) (H0 := example_device) fs d ∅.
Proof.
  destruct (format_represents_empty (H0 := example_device) true demo_heap example_disk
    example_disk_wf demo_heap_ok) as (d & fs & E & Hr & _).
  exists d, fs. split; [exact E|exact Hr].
Defined.

(** A formatted disk, for the witnesses below. *)
Lemma formatted_example :
  ∃ d fs, FileSystem_new (H := example_ops) true false demo_heap example_disk = Ret (d, fs) ∧
    represents (H := example_ops) (H0 := example_device) fs d ∅.
Proof.
  destruct (format_spec (H0 := example_device) false demo_heap example_disk
    example_disk_wf demo_heap_ok) as (d & fs & b & dir & E & Hi & Hdm).
  exists d, fs. split; [done|]. exists b, dir. split; [done|]. unfold files. by rewrite Hdm, fmap_empty.
Qed.

(** The same disk with one file of 300 bytes. *)
Lemma created_example :
  ∃ d fs d' c, FileSystem_new (H := example_ops) true false demo_heap example_disk = Ret (d, fs) ∧
    Create (H := example_ops) fs demo_heap [102] 300 d = Ret (d', true) ∧
    Z.of_nat (length c) = 300 ∧
    represents (H := example_ops) (H0 := example_device) fs d'
      (<[Directory.name_key [102] := c]> ∅).
Proof.
  destruct formatted_example as (d & fs & E & Hr).
  destruct (Create_represents (H0 := example_device) fs demo_heap [102] 300 d ∅ Hr demo_heap_ok)
    as (d' & Ec & Hres).
  - by repeat constructor.
  - change MaxFileSize with 3840. lia.
  - assert (may_create ∅ (Directory.name_key [102]) 300 = true) as Em by (vm_compute; reflexivity).
    rewrite Em in Ec, Hres. destruct Hres as (c & Hc & Hr').
    exists d, fs, d', c. exact (conj E (conj Ec (conj Hc Hr'))).
Qed.

(** C1: [Create] inserts: it succeeds exactly when the name (its first nine characters) is new,
    fewer than ten files exist and the header and the blocks fit on the disk; the new file
    has the size asked for, every other file keeps its content; when it fails the file system
    stays as it was. *)
Theorem Create_refines {D} `{SectorDevice D} fs mem name n (d : D) F :
  represents fs d F → heap_ok mem → Forall is_byte name → 0 ≤ n ≤ MaxFileSize →
  let k := Directory.name_key name in
  ∃ d', Create fs mem name n d = Ret (d', may_create F k n) ∧
    if may_create F k n then ∃ c, Z.of_nat (length c) = n ∧ represents fs d' (<[k := c]> F)
    else represents fs d' F.
Proof. apply Create_represents. Qed.

Lemma Create_refines_witness :
  ∃ d fs d', FileSystem_new (H := example_ops) true false demo_heap example_disk = Ret (d, fs) ∧
    Create (H := example_ops) fs demo_heap [102] 300 d = Ret (d', true).
Proof.
  destruct formatted_example as (d & fs & E & Hr). exists d, fs.
  destruct (Create_refines (H0 := example_device) fs demo_heap [102] 300 d ∅ Hr demo_heap_ok)
    as (d' & Ec & _).
  - by repeat constructor.
  - change MaxFileSize with 3840. lia.
  - assert (may_create ∅ (Directory.name_key [102]) 300 = true) as Em by (vm_compute; reflexivity).
    rewrite Em in Ec. exists d'. split; [exact E|exact Ec].
Defined.

(** C3: [Remove] deletes the file, frees its header and its blocks, and reports whether there was
    one; every other file keeps its content. *)
Theorem Remove_refines {D} `{SectorDevice D} fs mem name (d : D) F :
  represents fs d F → heap_ok mem →
  let k := Directory.name_key name in
  ∃ d', Remove fs mem name d = Ret (d', bool_decide (is_Some (F !! k))) ∧
    represents fs d' (delete k F).
Proof.
  intros (b & dir & Hi & <-) Hm k.
  destruct (fs_Remove_spec fs mem name d b dir Hi Hm) as (d' & b' & dir' & -> & Hi' & _ & Hf).
  exists d'. split; [|by exists b', dir'].
  do 2 f_equal. apply bool_decide_ext. unfold files. rewrite lookup_fmap. fold k.
  by rewrite fmap_is_Some.
Qed.

Lemma Remove_refines_witness :
  ∃ d fs d1 d2 d3, FileSystem_new (H := example_ops) true false demo_heap example_disk = Ret (d, fs) ∧
    Create (H := example_ops) fs demo_heap [102] 300 d = Ret (d1, true) ∧
    Remove (H := example_ops) fs demo_heap [102] d1 = Ret (d2, true) ∧
    Remove (H := example_ops) fs demo_heap [102] d2 = Ret (d3, false).
Proof.
  destruct created_example as (d & fs & d1 & c & E & Ec & _ & Hr). exists d, fs, d1.
  destruct (Remove_refines (H0 := example_device) fs demo_heap [102] d1 _ Hr demo_heap_ok)
    as (d2 & Er & Hr2).
  rewrite bool_decide_true in Er by (rewrite lookup_insert_eq; eauto).
  destruct (Remove_refines (H0 := example_device) fs demo_heap [102] d2 _ Hr2 demo_heap_ok)
    as (d3 & Er3 & _).
  rewrite bool_decide_false in Er3 by (rewrite lookup_delete_eq; by intros []).
  exists d2, d3. exact (conj E (conj Ec (conj Er Er3))).
Defined.

(** C2: [Open] finds exactly the files there are; reading the open file returns a piece of its
    content and changes no file, and writing it replaces a piece of the content of that
    file and of no other, whenever [position + n] is an [int] ([sum_fits]); a read whose sum
    overflows is not clipped: it runs off the table of sectors or copies from outside its
    buffer. *)
Theorem Open_refines {D} `{SectorDevice D} fs mem name (d : D) F :
  represents fs d F → heap_ok mem →
  let k := Directory.name_key name in
  ∃ d' r, Open fs mem name d = Ret (d', r) ∧ represents fs d' F ∧
    match F !! k with
    | None => r = None
    | Some c => ∃ f, r = Some f ∧ Length f = Z.of_nat (length c) ∧
        (∀ n position, 0 ≤ position → sum_fits (hdr f) n position →
           ∃ d'', ReadAt f d' n position =
             Ret (d'', take (Z.to_nat (clipped (hdr f) n position)) (drop (Z.to_nat position) c)) ∧
             represents fs d'' F) ∧
        (∀ n position res, is_s32 n → 0 ≤ position < Length f → 2 ^ 31 ≤ position + n →
           ReadAt f d' n position ≠ Ret res) ∧
        (∀ from position, 0 ≤ position → Forall is_byte from →
           sum_fits (hdr f) (Z.of_nat (length from)) position →
           let m := clipped (hdr f) (Z.of_nat (length from)) position in
           ∃ d'', WriteAt f d' (new_buf mem 0) from (Z.of_nat (length from)) position = Ret (d'', m) ∧
             represents fs d'' (<[k := blit c (Z.to_nat position) (take (Z.to_nat m) from)]> F))
    end.
Proof.
  intros Hr Hm k. destruct (Open_opened fs mem name d F Hr Hm) as (d' & r & -> & Hr' & Hres).
  fold k in Hres. exists d', r. split; [done|]. split; [done|].
  destruct r as [f|]; [|by rewrite Hres]. destruct Hres as [_ Ho].
  destruct (opened_represents _ _ _ _ _ Ho) as (_ & Hd & Hh & Hk). rewrite Hk.
  exists f. split; [done|]. split; [by rewrite content_length|]. split_and!.
  - intros n position Hp Hov.
    destruct (ReadAt_spec f d' n position Hh Hd Hp Hov) as (d'' & E & Hd'' & Hkeep).
    exists d''. split; [done|]. eapply opened_represents. by apply (opened_same fs d' d'' F k f f).
  - intros n position res. by apply ReadAt_overflow.
  - intros from position Hp Hfrom Hov m. destruct (ho_buf mem Hm 0) as [Hjl Hj].
    pose proof (hw_direct _ Hh).
    destruct (WriteAt_spec f d' (new_buf mem 0) from (Z.of_nat (length from)) position)
      as (d'' & E & Hd'' & Hc & Hkeep); [done..|change SectorSize with 128 in *; lia|].
    exists d''. split; [done|]. fold m in Hc. rewrite <- Hc.
    eapply opened_represents. by apply (opened_update fs d' d'' F k f f).
Qed.

(** A file of 300 bytes on that disk is found, its last 50 bytes are read by a request for 200
    at 250, and a request for [2^31 - 1] bytes at 1 does not return. *)
Lemma Open_refines_witness :
  ∃ d fs d1 d2 f, FileSystem_new (H := example_ops) true false demo_heap example_disk = Ret (d, fs) ∧
    Create (H := example_ops) fs demo_heap [102] 300 d = Ret (d1, true) ∧
    Open (H := example_ops) fs demo_heap [102] d1 = Ret (d2, Some f) ∧ Length f = 300 ∧
    (∃ d3 bs, ReadAt (H := example_ops) f d2 200 250 = Ret (d3, bs) ∧ length bs = 50%nat) ∧
    ∀ res, ReadAt (H := example_ops) f d2 (2 ^ 31 - 1) 1 ≠ Ret res.
Proof.
  destruct created_example as (d & fs & d1 & c & E & Ec & Hc & Hr).
  exists d, fs, d1.
  destruct (Open_refines (H0 := example_device) fs demo_heap [102] d1 _ Hr demo_heap_ok)
    as (d2 & r & Eo & _ & Hres).
  rewrite lookup_insert_eq in Hres. destruct Hres as (f & -> & El & Hread & Hover & _).
  rewrite Hc in El. exists d2, f. refine (conj E (conj Ec (conj Eo (conj El (conj _ _))))).
  - destruct (Hread 200 250) as (d3 & Ed & _); [lia|by intros _ _|].
    eexists d3, _. refine (conj Ed _). unfold clipped. unfold Length, FileLength in El.
    rewrite El. rewrite length_take, length_drop. lia.
  - intros res. apply Hover; clear -El; unfold is_s32 in *; lia.
Defined.

(** C15: copying a UNIX file into the file system and printing the copy gives back its bytes, for
    every length up to the largest file; copying returns (the loops end within the bounds
    given) and touches no other file. *)
Theorem Copy_then_Print {D} `{SectorDevice D} fs mem bytes to (d : D) F fuel :
  represents fs d F → heap_ok mem → Forall is_byte to → Forall is_byte bytes →
  Z.of_nat (length bytes) ≤ MaxFileSize → (length bytes < fuel)%nat →
  may_create F (Directory.name_key to) (Z.of_nat (length bytes)) = true →
  ∃ d' d'', Copy fuel fs mem (Some bytes) to d = Ret (d', Copied) ∧
    represents fs d' (<[Directory.name_key to := bytes]> F) ∧
    Print_file fuel fs mem to d' = Ret (d'', Some bytes).
Proof.
  intros Hr Hm Hto Hb Hl Hfuel Hmay. set (k := Directory.name_key to) in *.
  destruct (Create_represents fs mem to (Z.of_nat (length bytes)) d F Hr Hm Hto) as (d1 & Ec & Hres);
    [lia|]. fold k in Ec, Hres. rewrite Hmay in Ec, Hres. destruct Hres as (c & Hc & Hr1).
  unfold Copy. rewrite Ec. cbn [mbind outcome_bind negb].
  destruct (Open_opened fs mem to d1 _ Hr1 Hm) as (d2 & r & -> & Hr2 & Hopen). cbn [mbind outcome_bind].
  fold k in Hopen. rewrite lookup_insert_eq in Hopen. destruct r as [f|]; [|done].
  destruct Hopen as [Hpos Ho].
  destruct (opened_represents _ _ _ _ _ Ho) as (_ & Hd2 & Hh & Hk).
  rewrite lookup_insert_eq in Hk. injection Hk as Hk.
  pose proof (content_length d2 (hdr f) Hd2 Hh) as Hcl. rewrite <- Hk in Hcl.
  destruct (Copy_loop fs mem d2 _ k f bytes fuel Ho Hm Hpos Hb) as (d3 & -> & Hr3); [lia|done|].
  rewrite insert_insert_eq in Hr3. cbn [mbind outcome_bind]. exists d3.
  unfold Print_file. destruct (Open_opened fs mem to d3 _ Hr3 Hm) as (d4 & r4 & -> & Hr4 & Hopen4).
  fold k in Hopen4. rewrite lookup_insert_eq in Hopen4. destruct r4 as [f4|]; [|done].
  destruct Hopen4 as [Hpos4 Ho4]. cbn [mbind outcome_bind].
  destruct (opened_represents _ _ _ _ _ Ho4) as (_ & Hd4 & Hh4 & Hk4).
  rewrite lookup_insert_eq in Hk4. injection Hk4 as Hk4.
  pose proof (content_length d4 (hdr f4) Hd4 Hh4) as Hcl4. rewrite <- Hk4 in Hcl4.
  destruct (Print_loop fs d4 _ k f4 fuel Ho4 Hpos4) as (d5 & -> & _); [lia|].
  exists d5. cbn [mbind outcome_bind]. by rewrite <- Hk4.
Qed.

Lemma Copy_then_Print_witness :
  ∃ d fs d' d'', FileSystem_new (H := example_ops) true false demo_heap example_disk = Ret (d, fs) ∧
    Copy (H := example_ops) 301 fs demo_heap (Some (replicate 300 65)) [102] d = Ret (d', Copied) ∧
    Print_file (H := example_ops) 301 fs demo_heap [102] d' = Ret (d'', Some (replicate 300 65)).
Proof.
  destruct formatted_example as (d & fs & E & Hr). exists d, fs.
  destruct (Copy_then_Print (H0 := example_device) fs demo_heap (replicate 300 65) [102] d ∅ 301 Hr
    demo_heap_ok) as (d' & d'' & Ec & _ & Ep).
  - by repeat constructor.
  - apply Forall_replicate. unfold is_byte. lia.
  - rewrite length_replicate. change MaxFileSize with 3840. lia.
  - rewrite length_replicate. lia.
  - rewrite length_replicate. vm_compute. reflexivity.
  - exists d', d''. split; [exact E|]. split; [exact Ec|exact Ep].
Defined.

(** the performance test cannot work on this file system: it creates its file with size 0,
    so the first write and the first read fall short; it reports both and removes the file
    again. *)
Theorem PerformanceTest_cannot_write {D} `{SectorDevice D} fs mem (d : D) F fuel :
  represents fs d F → heap_ok mem → (0 < fuel)%nat →
  may_create F (Directory.name_key FileName) 0 = true →
  ∃ d', PerformanceTest fuel fs mem d = Ret (d', [UnableToWrite; UnableToRead]) ∧
    represents fs d' F.
Proof.
  intros Hr Hm Hfuel Hmay. destruct fuel as [|fuel]; [lia|]. set (k := Directory.name_key FileName) in *.
  destruct (Create_represents fs mem FileName 0 d F Hr Hm) as (d1 & Ec & Hres);
    [by repeat constructor|by change (0 ≤ 0 ≤ 3840)|].
  fold k in Ec, Hres. rewrite Hmay in Ec, Hres. destruct Hres as (c & Hc & Hr1).
  destruct c; [|done]. unfold PerformanceTest, FileWrite. rewrite Ec. cbn [mbind outcome_bind negb].
  assert (∀ d (f : OpenFile), opened fs d (<[k := []]> F) k f → Length f = 0) as Hlen.
  { intros d0 f Ho. destruct (opened_represents _ _ _ _ _ Ho) as (_ & Hd0 & Hh & Hk).
    rewrite lookup_insert_eq in Hk. injection Hk as Hk.
    pose proof (content_length d0 (hdr f) Hd0 Hh) as Hcl. by rewrite <- Hk in Hcl. }
  destruct (Open_opened fs mem FileName d1 _ Hr1 Hm) as (d2 & r & -> & Hr2 & Hopen). fold k in Hopen.
  rewrite lookup_insert_eq in Hopen. destruct r as [f|]; [|done]. destruct Hopen as [Hpos Ho].
  cbn [mbind outcome_bind]. rewrite (loop_stop _ _ _ (d2, [UnableToWrite])).
  2: { unfold FileWrite_body, Write, WriteAt. rewrite Hpos. unfold Length in Hlen.
       by rewrite (Hlen d2 f Ho). }
  cbn [mbind outcome_bind]. unfold FileRead.
  destruct (Open_opened fs mem FileName d2 _ Hr2 Hm) as (d3 & r3 & -> & Hr3 & Hopen3). fold k in Hopen3.
  rewrite lookup_insert_eq in Hopen3. destruct r3 as [f3|]; [|done]. destruct Hopen3 as [Hpos3 Ho3].
  cbn [mbind outcome_bind]. rewrite (loop_stop _ _ _ (d3, [UnableToRead])).
  2: { unfold FileRead_body, Read, ReadAt. rewrite Hpos3. unfold Length in Hlen.
       by rewrite (Hlen d3 f3 Ho3). }
  cbn [mbind outcome_bind]. destruct Hr3 as (b & dir & Hi & Hf).
  destruct (fs_Remove_spec fs mem FileName d3 b dir Hi Hm) as (d4 & b' & dir' & -> & Hi' & _ & Hf').
  fold k in Hf' |- *. rewrite Hf in Hf'. cbn [mbind outcome_bind].
  assert (is_Some (Directory.dmap dir !! k)) as Hin.
  { apply (f_equal (.!! k)) in Hf. rewrite lookup_insert_eq in Hf. unfold files in Hf.
    rewrite lookup_fmap in Hf. destruct (Directory.dmap dir !! k); [eauto|done]. }
  rewrite bool_decide_true by done. exists d4. split; [done|]. exists b', dir'. split; [done|].
  rewrite Hf'. rewrite delete_insert_id; [done|]. unfold may_create in Hmay.
  apply andb_true_iff in Hmay as [[Hk%bool_decide_eq_true _]%andb_true_iff _]. done.
Qed.

Lemma PerformanceTest_cannot_write_witness :
  ∃ d fs d', FileSystem_new (H := example_ops) true false demo_heap example_disk = Ret (d, fs) ∧
    PerformanceTest (H := example_ops) 1 fs demo_heap d = Ret (d', [UnableToWrite; UnableToRead]).
Proof.
  destruct formatted_example as (d & fs & E & Hr). exists d, fs.
  destruct (PerformanceTest_cannot_write (H0 := example_device) fs demo_heap d ∅ 1 Hr demo_heap_ok)
    as (d' & Ep & _).
  - lia.
  - vm_compute. reflexivity.
  - exists d'. split; [exact E|exact Ep].
Defined.

End FileSys.
