(* ===== verification/Kernel.v ===== *)
(** * threads/thread.h, thread.cc, scheduler.h, scheduler.cc, synch.h, synch.cc: the thread kernel

    Threads, the scheduler, semaphores, locks and condition variables, as one state and the
    operations of the sources on it.  A thread that gave up the processor inside a routine
    is suspended at the call of [Sleep]; the routines it has still to finish are the
    [frame]s of its stack, the innermost first.  [Semaphore::P] and [Lock::Acquire] are the
    loops of the sources: a thread that is woken checks the condition again and may have
    to wait again.

    On the machine, time passes, and a timer interrupt can force a context switch, only when
    interrupts are turned on again at the end of one of these routines.  So a
    routine runs without interruption up to its end or to the call of [Sleep], and what user
    code does between two kernel calls is one action.  [schedule] says which of
    the things that can happen next does happen: the current thread goes on, the timer
    preempts it, a device interrupt handler performs a [V], or the idle loop finds a
    ready thread.

    [U] is the state of the code a thread runs, [G] the memory the threads share, and
    [ustep] what that code does up to its next kernel call ([None]: it returns). *)

From S2P Require Import Prelude CInt NList.
From stdpp Require Import sorting.

Open Scope Z_scope.

Module Kernel.

Inductive ThreadStatus := JUST_CREATED | RUNNING | READY | BLOCKED.
#[export] Instance ThreadStatus_eq_dec : EqDecision ThreadStatus.
Proof. solve_decision. Defined.

(** Threads and synchronisation objects are named by numbers that are not used twice. *)
Abbreviation tid := nat (only parsing).
Abbreviation queue := (list (Z * nat)) (only parsing).

(** Where a suspended thread is: in the loop of [P] or [Acquire], in [Wait] after the
    [Sleep], in [Join] after the [P], in [Finish] before the end, or in its own code. *)
Inductive frame (U : Type) :=
  | InP (s : nat)
  | InAcquire (l : nat)
  | InWait (c l : nat)
  | InJoin (t : tid)
  | InFinish
  | InUser (u : U).
Arguments InP {U}. Arguments InAcquire {U}. Arguments InWait {U}.
Arguments InJoin {U}. Arguments InFinish {U}. Arguments InUser {U}.

(** [started] tells whether the thread has ever been dispatched.  [exitStatus] is [None] until it is
    set: the constructor leaves it uninitialised. *)
Record Thread (U : Type) := mkThread {
  status : ThreadStatus; key : Z; joining : bool; joinSignal : nat; mayDie : nat;
  exitStatus : option Z; started : bool; frames : list (frame U) }.
Arguments mkThread {U}. Arguments status {U}. Arguments key {U}. Arguments joining {U}.
Arguments joinSignal {U}. Arguments mayDie {U}. Arguments exitStatus {U}.
Arguments started {U}. Arguments frames {U}.

Record Semaphore := mkSem { value : Z; s_queue : queue }.
Record Lock := mkLock { isLocked : bool; l_queue : queue; currThread : option tid }.
Record Condition := mkCond { c_queue : queue }.

(** What has happened, the oldest first.  The code keeps no such record: events are only
    ever added, and nothing reads them. *)
Inductive event :=
  | NewSemaphore (s : nat) (initialValue : Z)
  | DidP (t s : nat) | DidV (s : nat)
  | Acquired (t l : nat) | Released (t l : nat)
  | Finished (t : nat) | Joined (t by_ : nat) | Deleted (t : nat).
#[export] Instance event_eq_dec : EqDecision event.
Proof. solve_decision. Defined.

Record Kernel (U G : Type) := mkKernel {
  currentThread : tid;
  idle : bool;
  readyList : queue;
  threads : gmap nat (Thread U);
  semaphores : gmap nat Semaphore;
  locks : gmap nat Lock;
  conditions : gmap nat Condition;
  threadToBeDestroyed : option tid;
  next_id : nat;
  shared : G;
  history : list event }.
Arguments mkKernel {U G}. Arguments currentThread {U G}. Arguments idle {U G}.
Arguments readyList {U G}. Arguments threads {U G}. Arguments semaphores {U G}.
Arguments locks {U G}. Arguments conditions {U G}. Arguments threadToBeDestroyed {U G}.
Arguments next_id {U G}. Arguments shared {U G}. Arguments history {U G}.

(** The kernel calls of user code. *)
Inductive call (U : Type) :=
  | CallYield
  | CallP (s : nat) | CallV (s : nat)
  | CallAcquire (l : nat) | CallRelease (l : nat)
  | CallWait (c l : nat) | CallSignal (c l : nat) | CallBroadcast (c l : nat)
  | CallNewThread (code : U) (join : bool)
  | CallFork (t : tid)
  | CallJoin (t : tid)
  | CallSetPriority (t : tid) (priority : Z)
  | CallSetExitStatus (st : Z)
  | CallFinish
  | CallNewSemaphore (initialValue : Z) | CallDeleteSemaphore (s : nat)
  | CallNewLock | CallDeleteLock (l : nat)
  | CallNewCondition | CallDeleteCondition (c : nat).
Arguments CallYield {U}. Arguments CallP {U}. Arguments CallV {U}. Arguments CallAcquire {U}.
Arguments CallRelease {U}. Arguments CallWait {U}. Arguments CallSignal {U}.
Arguments CallBroadcast {U}. Arguments CallNewThread {U}. Arguments CallFork {U}.
Arguments CallJoin {U}. Arguments CallSetPriority {U}. Arguments CallSetExitStatus {U}.
Arguments CallFinish {U}. Arguments CallNewSemaphore {U}. Arguments CallDeleteSemaphore {U}.
Arguments CallNewLock {U}. Arguments CallDeleteLock {U}. Arguments CallNewCondition {U}.
Arguments CallDeleteCondition {U}.

Definition call_map {A B : Type} (f : A → B) (c : call A) : call B :=
  match c with
  | CallYield => CallYield
  | CallP s => CallP s | CallV s => CallV s
  | CallAcquire l => CallAcquire l | CallRelease l => CallRelease l
  | CallWait c l => CallWait c l | CallSignal c l => CallSignal c l
  | CallBroadcast c l => CallBroadcast c l
  | CallNewThread code join => CallNewThread (f code) join
  | CallFork t => CallFork t | CallJoin t => CallJoin t
  | CallSetPriority t p => CallSetPriority t p | CallSetExitStatus st => CallSetExitStatus st
  | CallFinish => CallFinish
  | CallNewSemaphore v => CallNewSemaphore v | CallDeleteSemaphore s => CallDeleteSemaphore s
  | CallNewLock => CallNewLock | CallDeleteLock l => CallDeleteLock l
  | CallNewCondition => CallNewCondition | CallDeleteCondition c => CallDeleteCondition c
  end.

(** The queues threads wait on. *)
Inductive qid := QSem (s : nat) | QLock (l : nat) | QCond (c : nat).
#[export] Instance qid_eq_dec : EqDecision qid.
Proof. solve_decision. Defined.

Definition qid_id (q : qid) : nat := match q with QSem s => s | QLock l => l | QCond c => c end.

Section kernel.
Context {U G : Type}.
Abbreviation K := (Kernel U G).

(** *** Field updates *)
Definition with_current (t : tid) (k : K) : K :=
  mkKernel t (idle k) (readyList k) (threads k) (semaphores k) (locks k) (conditions k)
    (threadToBeDestroyed k) (next_id k) (shared k) (history k).
Definition with_idle (b : bool) (k : K) : K :=
  mkKernel (currentThread k) b (readyList k) (threads k) (semaphores k) (locks k) (conditions k)
    (threadToBeDestroyed k) (next_id k) (shared k) (history k).
Definition with_ready (q : queue) (k : K) : K :=
  mkKernel (currentThread k) (idle k) q (threads k) (semaphores k) (locks k) (conditions k)
    (threadToBeDestroyed k) (next_id k) (shared k) (history k).
Definition with_threads (m : gmap nat (Thread U)) (k : K) : K :=
  mkKernel (currentThread k) (idle k) (readyList k) m (semaphores k) (locks k) (conditions k)
    (threadToBeDestroyed k) (next_id k) (shared k) (history k).
Definition with_semaphores (m : gmap nat Semaphore) (k : K) : K :=
  mkKernel (currentThread k) (idle k) (readyList k) (threads k) m (locks k) (conditions k)
    (threadToBeDestroyed k) (next_id k) (shared k) (history k).
Definition with_locks (m : gmap nat Lock) (k : K) : K :=
  mkKernel (currentThread k) (idle k) (readyList k) (threads k) (semaphores k) m (conditions k)
    (threadToBeDestroyed k) (next_id k) (shared k) (history k).
Definition with_conditions (m : gmap nat Condition) (k : K) : K :=
  mkKernel (currentThread k) (idle k) (readyList k) (threads k) (semaphores k) (locks k) m
    (threadToBeDestroyed k) (next_id k) (shared k) (history k).
Definition with_destroy (t : option tid) (k : K) : K :=
  mkKernel (currentThread k) (idle k) (readyList k) (threads k) (semaphores k) (locks k)
    (conditions k) t (next_id k) (shared k) (history k).
Definition with_next_id (n : nat) (k : K) : K :=
  mkKernel (currentThread k) (idle k) (readyList k) (threads k) (semaphores k) (locks k)
    (conditions k) (threadToBeDestroyed k) n (shared k) (history k).
Definition with_shared (g : G) (k : K) : K :=
  mkKernel (currentThread k) (idle k) (readyList k) (threads k) (semaphores k) (locks k)
    (conditions k) (threadToBeDestroyed k) (next_id k) g (history k).
Definition log (e : event) (k : K) : K :=
  mkKernel (currentThread k) (idle k) (readyList k) (threads k) (semaphores k) (locks k)
    (conditions k) (threadToBeDestroyed k) (next_id k) (shared k) (history k ++ [e]).

Definition set_status (st : ThreadStatus) (th : Thread U) : Thread U :=
  mkThread st (key th) (joining th) (joinSignal th) (mayDie th) (exitStatus th) (started th)
    (frames th).
Definition set_frames (fs : list (frame U)) (th : Thread U) : Thread U :=
  mkThread (status th) (key th) (joining th) (joinSignal th) (mayDie th) (exitStatus th)
    (started th) fs.
Definition set_started (th : Thread U) : Thread U :=
  mkThread (status th) (key th) (joining th) (joinSignal th) (mayDie th) (exitStatus th) true
    (frames th).
Definition set_key (p : Z) (th : Thread U) : Thread U :=
  mkThread (status th) p (joining th) (joinSignal th) (mayDie th) (exitStatus th) (started th)
    (frames th).
Definition set_exit (st : option Z) (th : Thread U) : Thread U :=
  mkThread (status th) (key th) (joining th) (joinSignal th) (mayDie th) st (started th)
    (frames th).

(** A pointer to an object that is not there is dangling. *)
Definition find {A} (m : gmap nat A) (i : nat) : outcome A :=
  match m !! i with Some a => Ret a | None => Undefined end.

Definition update_thread (t : tid) (f : Thread U → Thread U) (k : K) : outcome K :=
  th ← find (threads k) t;
  Ret (with_threads (<[t := f th]> (threads k)) k).

(** *** threads/scheduler.cc *)

Definition Scheduler_new : queue := [].

Definition ReadyToRun (thread : tid) (k : K) : outcome K :=
  k ← update_thread thread (set_status READY) k;
  th ← find (threads k) thread;
  Ret (with_ready (k_insert (key th) thread (readyList k)) k).

Definition FindNextToRun (k : K) : K * option tid :=
  match k_remove (readyList k) with
  | None => (k, None)
  | Some ((_, t), q) => (with_ready q k, Some t)
  end.

(** The threads [Scheduler::Print] names, in order. *)
Definition Scheduler_Print (k : K) : list tid := (readyList k).*2.

(** [delete threadToBeDestroyed], with the semaphores of the thread. *)
Definition delete_thread (t : tid) (k : K) : outcome K :=
  assert! negb (bool_decide (t = currentThread k));;
  th ← find (threads k) t;
  let sems := delete (mayDie th) (semaphores k) in
  let sems := if joining th then delete (joinSignal th) sems else sems in
  Ret (log (Deleted t) (with_threads (delete t (threads k)) (with_semaphores sems k))).

(** After [SWITCH] a thread that ran before comes back into [Run] and deletes the carcass; one
    that runs for the first time starts in [ThreadRoot]. *)
Definition Run (nextThread : tid) (k : K) : outcome K :=
  th ← find (threads k) nextThread;
  let first := negb (started th) in
  k ← update_thread nextThread (λ th, set_started (set_status RUNNING th)) k;
  let k := with_current nextThread k in
  if first then Ret k
  else
    match threadToBeDestroyed k with
    | None => Ret k
    | Some t => k ← delete_thread t k; Ret (with_destroy None k)
    end.

(** *** threads/thread.cc *)

(** The loop of [Sleep] around [Idle]; [idle] marks a processor that waits for an interrupt. *)
Definition dispatch (k : K) : outcome K :=
  match FindNextToRun k with
  | (k, Some nextThread) => Run nextThread (with_idle false k)
  | (k, None) => Ret (with_idle true k)
  end.

Definition Sleep (k : K) : outcome K :=
  k ← update_thread (currentThread k) (set_status BLOCKED) k;
  dispatch k.

Definition Yield (k : K) : outcome K :=
  match FindNextToRun k with
  | (k, Some nextThread) =>
      k ← ReadyToRun (currentThread k) k;
      Run nextThread k
  | (k, None) => Ret k
  end.

(** [Sleep] inside the routine [f]. *)
Definition sleep_in (f : frame U) (k : K) : outcome K :=
  k ← update_thread (currentThread k) (λ th, set_frames (f :: frames th) th) k;
  Sleep k.

(** The priority of the current thread. *)
Definition current_key (k : K) : outcome Z :=
  th ← find (threads k) (currentThread k);
  Ret (key th).

(** *** threads/synch.cc: semaphores *)

(** [new Semaphore(..., initialValue)] *)
Definition new_semaphore (initialValue : Z) (k : K) : K * nat :=
  let s := next_id k in
  (log (NewSemaphore s initialValue) (with_next_id (S s)
     (with_semaphores (<[s := mkSem (s32 initialValue) []]> (semaphores k)) k)), s).

(** The queue goes with the semaphore, and the threads on it are not told. *)
Definition delete_semaphore (s : nat) (k : K) : outcome K :=
  _ ← find (semaphores k) s;
  Ret (with_semaphores (delete s (semaphores k)) k).

Definition P (s : nat) (k : K) : outcome K :=
  sem ← find (semaphores k) s;
  if value sem =? 0 then
    p ← current_key k;
    sleep_in (InP s) (with_semaphores (<[s := mkSem (value sem)
      (k_insert p (currentThread k) (s_queue sem))]> (semaphores k)) k)
  else
    Ret (log (DidP (currentThread k) s)
      (with_semaphores (<[s := mkSem (s32 (value sem - 1)) (s_queue sem)]> (semaphores k)) k)).

Definition V (s : nat) (k : K) : outcome K :=
  sem ← find (semaphores k) s;
  '(k, q) ← match k_remove (s_queue sem) with
            | Some ((_, thread), q) => k ← ReadyToRun thread k; Ret (k, q)
            | None => Ret (k, [])
            end;
  Ret (log (DidV s) (with_semaphores (<[s := mkSem (s32 (value sem + 1)) q]> (semaphores k)) k)).

(** *** threads/synch.cc: locks *)

Definition new_lock (k : K) : K * nat :=
  let l := next_id k in
  (with_next_id (S l) (with_locks (<[l := mkLock false [] None]> (locks k)) k), l).

Definition delete_lock (l : nat) (k : K) : outcome K :=
  lk ← find (locks k) l;
  assert! negb (isLocked lk);;
  Ret (with_locks (delete l (locks k)) k).

Definition isHeldByCurrentThread (lk : Lock) (k : K) : bool :=
  bool_decide (currThread lk = Some (currentThread k)).

Definition acquire_loop (l : nat) (k : K) : outcome K :=
  lk ← find (locks k) l;
  if isLocked lk then
    p ← current_key k;
    sleep_in (InAcquire l) (with_locks (<[l := mkLock true
      (k_insert p (currentThread k) (l_queue lk)) (currThread lk)]> (locks k)) k)
  else
    Ret (log (Acquired (currentThread k) l)
      (with_locks (<[l := mkLock true (l_queue lk) (Some (currentThread k))]> (locks k)) k)).

Definition Acquire (l : nat) (k : K) : outcome K :=
  lk ← find (locks k) l;
  assert! negb (isHeldByCurrentThread lk k);;
  acquire_loop l k.

Definition Release (l : nat) (k : K) : outcome K :=
  lk ← find (locks k) l;
  assert! isHeldByCurrentThread lk k;;
  '(k, q) ← match k_remove (l_queue lk) with
            | Some ((_, thread), q) => k ← ReadyToRun thread k; Ret (k, q)
            | None => Ret (k, [])
            end;
  Ret (log (Released (currentThread k) l)
    (with_locks (<[l := mkLock false q None]> (locks k)) k)).

(** *** threads/synch.cc: condition variables *)

(** The lock a condition makes for itself is never used, and left out. *)
Definition new_condition (k : K) : K * nat :=
  let c := next_id k in
  (with_next_id (S c) (with_conditions (<[c := mkCond []]> (conditions k)) k), c).

Definition delete_condition (c : nat) (k : K) : outcome K :=
  cond ← find (conditions k) c;
  assert! match k_remove (c_queue cond) with None => true | Some _ => false end;;
  Ret (with_conditions (delete c (conditions k)) k).

Definition Wait (c l : nat) (k : K) : outcome K :=
  lk ← find (locks k) l;
  assert! isHeldByCurrentThread lk k;;
  k ← Release l k;
  cond ← find (conditions k) c;
  p ← current_key k;
  sleep_in (InWait c l) (with_conditions (<[c := mkCond
    (k_insert p (currentThread k) (c_queue cond))]> (conditions k)) k).

Definition Signal (c l : nat) (k : K) : outcome K :=
  lk ← find (locks k) l;
  assert! isHeldByCurrentThread lk k;;
  cond ← find (conditions k) c;
  match k_remove (c_queue cond) with
  | Some ((_, thread), q) =>
      ReadyToRun thread (with_conditions (<[c := mkCond q]> (conditions k)) k)
  | None => Ret k
  end.

(** The [while] loop of [Broadcast], over the threads that wait. *)
Fixpoint ready_all (q : queue) (k : K) : outcome K :=
  match q with
  | [] => Ret k
  | (_, thread) :: q' => k ← ReadyToRun thread k; ready_all q' k
  end.

Definition Broadcast (c l : nat) (k : K) : outcome K :=
  lk ← find (locks k) l;
  assert! isHeldByCurrentThread lk k;;
  cond ← find (conditions k) c;
  ready_all (c_queue cond) (with_conditions (<[c := mkCond []]> (conditions k)) k).

(** *** threads/thread.cc: creation, death and joining *)

(** The constructor; the [P] on [mayDie], whose value is 1, does not wait. *)
Definition Thread_new (code : U) (join : bool) (k : K) : outcome (K * tid) :=
  let t := next_id k in
  let '(k, die) := new_semaphore 1 (with_next_id (S t) k) in
  k ← (if join then P die k else Ret k);
  let '(k, sig) := if join then new_semaphore 0 k else (k, die) in
  Ret (with_threads (<[t := mkThread JUST_CREATED 0 join sig die None false [InUser code]]>
    (threads k)) k, t).

(** *** threads/system.cc: [Initialize] makes a thread of the program it runs in. *)
Definition empty (g : G) : K := mkKernel O false Scheduler_new ∅ ∅ ∅ ∅ None O g [].

Definition boot (main : U) (g : G) : outcome K :=
  '(k, t) ← Thread_new main false (empty g);
  k ← update_thread t (λ th, set_started (set_status RUNNING th)) k;
  Ret (with_current t k).

(** A second [Fork] of a thread is left out of the model. *)
Definition Fork (t : tid) (k : K) : outcome K :=
  th ← find (threads k) t;
  _ ← defined_if (bool_decide (status th = JUST_CREATED));
  ReadyToRun t k.

(** The end of [Finish]: the thread sleeps and is not in any queue. *)
Definition finish (k : K) : outcome K :=
  let t := currentThread k in
  k ← update_thread t (set_frames []) (log (Finished t) (with_destroy (Some t) k));
  Sleep k.

Definition Finish (k : K) : outcome K :=
  th ← find (threads k) (currentThread k);
  if joining th then
    k ← V (joinSignal th) k;
    k ← update_thread (currentThread k) (set_frames [InFinish]) k;
    P (mayDie th) k
  else finish k.

Definition Join (t : tid) (k : K) : outcome K :=
  assert! negb (bool_decide (t = currentThread k));;
  th ← find (threads k) t;
  _ ← defined_if (joining th);
  k ← update_thread (currentThread k) (λ th, set_frames (InJoin t :: frames th) th) k;
  P (joinSignal th) k.

(** [Join] after the [P]. *)
Definition join_rest (t : tid) (k : K) : outcome K :=
  th ← find (threads k) t;
  k ← update_thread (currentThread k) (set_exit (exitStatus th)) k;
  V (mayDie th) (log (Joined t (currentThread k)) k).

(** *** Execution *)

Definition do_call (c : call U) (k : K) : outcome K :=
  match c with
  | CallYield => Yield k
  | CallP s => P s k
  | CallV s => V s k
  | CallAcquire l => Acquire l k
  | CallRelease l => Release l k
  | CallWait c l => Wait c l k
  | CallSignal c l => Signal c l k
  | CallBroadcast c l => Broadcast c l k
  | CallNewThread code join => '(k, _) ← Thread_new code join k; Ret k
  | CallFork t => Fork t k
  | CallJoin t => Join t k
  | CallSetPriority t p => update_thread t (set_key p) k
  | CallSetExitStatus st => update_thread (currentThread k) (set_exit (Some st)) k
  | CallFinish => Finish k
  | CallNewSemaphore v => Ret (new_semaphore v k).1
  | CallDeleteSemaphore s => delete_semaphore s k
  | CallNewLock => Ret (new_lock k).1
  | CallDeleteLock l => delete_lock l k
  | CallNewCondition => Ret (new_condition k).1
  | CallDeleteCondition c => delete_condition c k
  end.

(** The routine on top of the stack goes on, without the frame it was suspended in. *)
Definition resume (f : frame U) (k : K) : outcome K :=
  match f with
  | InP s => P s k
  | InAcquire l => acquire_loop l k
  | InWait _ l => Acquire l k
  | InJoin t => join_rest t k
  | InFinish => finish k
  | InUser _ => Ret k
  end.

(** What user code does up to its next call; the call's result is the name of the object
    that a call that makes one returns. *)
Variable ustep : U → G → option (G * call U * (nat → U)).

(** What can happen next. *)
Inductive choice := Go | Preempt | DeviceV (s : nat) | WakeUp.
#[export] Instance choice_eq_dec : EqDecision choice.
Proof. solve_decision. Defined.

Definition pop_frame (k : K) : outcome (frame U * K) :=
  th ← find (threads k) (currentThread k);
  match frames th with
  | [] => Undefined
  | f :: rest =>
      k ← update_thread (currentThread k) (set_frames rest) k;
      Ret (f, k)
  end.

Definition go (k : K) : outcome K :=
  '(f, k') ← pop_frame k;
  match f with
  | InUser u =>
      match ustep u (shared k) with
      | None => Finish k'
      | Some (g, c, next) =>
          k ← update_thread (currentThread k') (set_frames [InUser (next (next_id k'))]) k';
          do_call c (with_shared g k)
      end
  | _ => resume f k'
  end.

(** Interrupts are on: user code, or [Join] between its two operations. *)
Definition interruptible (k : K) : bool :=
  match threads k !! currentThread k with
  | Some th => match frames th with InUser _ :: _ | InJoin _ :: _ => true | _ => false end
  | None => false
  end.

(** A device handler runs while the processor idles or at a tick; the timer's
    handler asks for the [Yield]. *)
Definition schedule (ch : choice) (k : K) : outcome K :=
  match ch with
  | Go => _ ← defined_if (negb (idle k)); go k
  | Preempt => _ ← defined_if (negb (idle k) && interruptible k); Yield k
  | DeviceV s => _ ← defined_if (idle k || interruptible k); V s k
  | WakeUp => _ ← defined_if (idle k); dispatch k
  end.

Definition steps_to (k k' : K) : Prop := ∃ ch, schedule ch k = Ret k'.

Fixpoint run (chs : list choice) (k : K) : outcome K :=
  match chs with
  | [] => Ret k
  | ch :: chs' => k ← schedule ch k; run chs' k
  end.

(** Without a timer and devices the kernel is deterministic: [play] runs it for [fuel] steps, or until
    nothing can run. *)
Fixpoint play (fuel : nat) (k : K) : outcome K :=
  match fuel with
  | O => Ret k
  | S fuel =>
      if idle k then match readyList k with [] => Ret k | _ => k ← dispatch k; play fuel k end
      else k ← go k; play fuel k
  end.
End kernel.

End Kernel.
