(* ===== verification/Threads.v ===== *)
(** * Where the threads are

    Every thread of [Kernel] is at the place its status names: on the processor, in the ready list,
    in the queue of the synchronisation object it waits for, or dead.  The first part is
    about single moves, the second about each routine of the kernel; every step of
    execution keeps it. *)

From S2P Require Import Prelude CInt NList Kernel.
From stdpp Require Import sorting.
Import Kernel.Kernel.

Open Scope Z_scope.

Module Threads.

Section placement.
Context {U G : Type}.
Abbreviation K := (Kernel U G).
Implicit Types (k : K) (th : Thread U).

Definition queue_of (k : K) (q : qid) : option queue :=
  match q with
  | QSem s => s_queue <$> semaphores k !! s
  | QLock l => l_queue <$> locks k !! l
  | QCond c => c_queue <$> conditions k !! c
  end.

(** The queue a thread suspended in a routine waits on. *)
Definition waits_on (f : frame U) : option qid :=
  match f with
  | InP s => Some (QSem s)
  | InAcquire l => Some (QLock l)
  | InWait c _ => Some (QCond c)
  | _ => None
  end.

(** The thread does not sleep in a queue. *)
Definition calm (fs : list (frame U)) : Prop :=
  match fs with InP _ :: _ | InAcquire _ :: _ | InWait _ _ :: _ => False | _ => True end.

(** A stack of routines ends in the thread's own code, or in [Finish]. *)
Fixpoint stack_ok (fs : list (frame U)) : Prop :=
  match fs with
  | [] => False
  | [InUser _] | [InFinish] => True
  | InUser _ :: _ | InFinish :: _ => False
  | _ :: fs' => calm fs' ∧ stack_ok fs'
  end.

(** [running] is the thread on the processor; the threads of [limbo] are on their way from one
    place to another inside a routine.  What a blocked thread waits on may have been
    deleted. *)
Record placed (k : K) (running : option tid) (limbo : gset nat) : Prop := {
  pl_ready_nodup : NoDup ((readyList k).*2);
  pl_ready t : t ∈ (readyList k).*2 →
    t ∉ limbo ∧ ∃ th, threads k !! t = Some th ∧ status th = READY;
  pl_queue q l : queue_of k q = Some l → NoDup (l.*2) ∧
    ∀ t, t ∈ l.*2 → t ∉ limbo ∧ ∃ th f rest, threads k !! t = Some th ∧ status th = BLOCKED ∧
      frames th = f :: rest ∧ waits_on f = Some q;
  pl_thread t th : threads k !! t = Some th → t ∉ limbo →
    match status th with
    | JUST_CREATED => ∃ u, frames th = [InUser u]
    | RUNNING => running = Some t
    | READY => t ∈ (readyList k).*2 ∧ stack_ok (frames th)
    | BLOCKED => frames th = [] ∨ stack_ok (frames th) ∧ ∃ f rest q, frames th = f :: rest ∧ waits_on f = Some q ∧
        match queue_of k q with Some l => t ∈ l.*2 | None => True end
    end;
  pl_limbo t : t ∈ limbo → running ≠ Some t ∧ threadToBeDestroyed k ≠ Some t ∧
    ∃ th, threads k !! t = Some th ∧ stack_ok (frames th);
  pl_running t : running = Some t → ∃ th, threads k !! t = Some th ∧ status th = RUNNING;
  pl_destroy t : threadToBeDestroyed k = Some t →
    ∃ th, threads k !! t = Some th ∧ status th = BLOCKED ∧ frames th = [];
  pl_ids_threads t th : threads k !! t = Some th → (t < next_id k)%nat;
  pl_ids_queues q l : queue_of k q = Some l → (qid_id q < next_id k)%nat;
  pl_ids_waits t th f rest q : threads k !! t = Some th → status th = BLOCKED →
    frames th = f :: rest → waits_on f = Some q → (qid_id q < next_id k)%nat;
}.

(** Between two steps. *)
Definition wf (k : K) : Prop :=
  if idle k then placed k None ∅ ∧ is_Some (threads k !! currentThread k)
  else placed k (Some (currentThread k)) ∅ ∧
    ∃ th, threads k !! currentThread k = Some th ∧ stack_ok (frames th).

(** What moving threads about does not touch. *)
Record same_sync (k k' : K) : Prop := {
  ss_semaphores : semaphores k' = semaphores k;
  ss_locks : locks k' = locks k;
  ss_conditions : conditions k' = conditions k;
  ss_destroy : threadToBeDestroyed k' = threadToBeDestroyed k;
  ss_next_id : next_id k' = next_id k;
  ss_shared : shared k' = shared k;
  ss_history : history k' = history k;
}.

Lemma same_sync_queue k k' q : same_sync k k' → queue_of k' q = queue_of k q.
Proof. intros [H1 H2 H3 _ _ _ _]. destruct q; cbn; by rewrite ?H1, ?H2, ?H3. Qed.

Lemma placed_found k r L t th :
  placed k r L → threads k !! t = Some th → find (threads k) t = Ret th.
Proof. intros _ Ht. unfold find. by rewrite Ht. Qed.

(** *** Moving a thread *)

(** Nothing moved. *)
Lemma placed_same k k' r L :
  placed k r L → readyList k' = readyList k → threads k' = threads k →
  (∀ q, queue_of k' q = queue_of k q) → threadToBeDestroyed k' = threadToBeDestroyed k →
  (next_id k ≤ next_id k')%nat → placed k' r L.
Proof.
  intros [] Er Et Eq Ed Hn. split; rewrite ?Er, ?Et, ?Ed; try done.
  - intros q l. rewrite Eq. auto.
  - intros t th Ht Hl. specialize (pl_thread0 t th Ht Hl).
    destruct (status th); try done. destruct pl_thread0 as [|(? & f & rest & q & ? & ? & ?)]; [by left|].
    right. split; [done|]. exists f, rest, q. by rewrite Eq.
  - intros t th Ht. specialize (pl_ids_threads0 t th Ht). lia.
  - intros q l. rewrite Eq. intros E. specialize (pl_ids_queues0 q l E). lia.
  - intros t th f rest q H1 H2 H3 H4. specialize (pl_ids_waits0 t th f rest q H1 H2 H3 H4). lia.
Qed.

(** The first thread of a queue is taken out. *)
Lemma placed_dequeue k k' r L q p t l :
  placed k r L → queue_of k q = Some ((p, t) :: l) → queue_of k' q = Some l →
  (∀ q', q' ≠ q → queue_of k' q' = queue_of k q') → readyList k' = readyList k →
  threads k' = threads k → threadToBeDestroyed k' = threadToBeDestroyed k →
  next_id k' = next_id k → placed k' r ({[t]} ∪ L).
Proof.
  intros Hp Eq Eq' Eo Er Et Ed En.
  destruct (pl_queue _ _ _ Hp q _ Eq) as [Hnd Hin]. cbn in Hnd, Hin.
  apply NoDup_cons in Hnd as [Htl Hnd].
  destruct (Hin t) as (HtL & th0 & f0 & rest0 & Hth0 & Hst0 & Hf0 & Hw0); [constructor|].
  destruct Hp. split; rewrite ?Er, ?Et, ?Ed, ?En; try done.
  - intros t' Ht'. destruct (pl_ready0 t' Ht') as (? & th & Hth & Hst). split; [|eauto].
    rewrite elem_of_union, elem_of_singleton. intros [->|?]; congruence.
  - intros q' l' E'. destruct (decide (q' = q)) as [->|Hne].
    + rewrite Eq' in E'. injection E' as <-. split; [done|]. intros t' Ht'.
      destruct (Hin t') as (? & Hrest); [by right|]. split; [|exact Hrest].
      rewrite elem_of_union, elem_of_singleton. by intros [->|?].
    + rewrite Eo in E' by done. destruct (pl_queue0 q' l' E') as [? Hin']. split; [done|].
      intros t' Ht'. destruct (Hin' t' Ht') as (? & th & f & rest & Hth & Hst & Hf & Hw).
      split; [|eauto 10]. rewrite elem_of_union, elem_of_singleton. intros [->|?]; congruence.
  - intros t' th Hth Hl. rewrite elem_of_union, elem_of_singleton in Hl.
    specialize (pl_thread0 t' th Hth ltac:(tauto)). destruct (status th); try done.
    destruct pl_thread0 as [|(? & f & rest & q' & ? & ? & Hq)]; [by left|]. right.
    split; [done|]. exists f, rest, q'.
    split; [done|]. split; [done|]. destruct (decide (q' = q)) as [->|Hne]; [|by rewrite Eo].
    rewrite Eq'. rewrite Eq in Hq. cbn in Hq. apply elem_of_cons in Hq. tauto.
  - intros t'. rewrite elem_of_union, elem_of_singleton. intros [->|Hl]; [|by apply pl_limbo0].
    split_and!.
    + intros E. destruct (pl_running0 t E) as (th & Hth & Hst). congruence.
    + intros E. destruct (pl_destroy0 t E) as (th & Hth & _ & Hf). congruence.
    + exists th0. split; [done|]. specialize (pl_thread0 t th0 Hth0 HtL). rewrite Hst0 in pl_thread0.
      destruct pl_thread0 as [|[? _]]; [congruence|done].
  - intros q' l' E'. destruct (decide (q' = q)) as [->|Hne]; [by eapply pl_ids_queues0|].
    rewrite Eo in E' by done. by eapply pl_ids_queues0.
Qed.

(** [ReadyToRun] of a thread in limbo. *)
Lemma ReadyToRun_placed k r L t :
  placed k r L → t ∈ L →
  ∃ k', ReadyToRun t k = Ret k' ∧ placed k' r (L ∖ {[t]}) ∧ same_sync k k' ∧
    currentThread k' = currentThread k ∧ idle k' = idle k ∧
    (∀ t', t' ≠ t → threads k' !! t' = threads k !! t') ∧
    (∀ th, threads k !! t = Some th → threads k' !! t = Some (set_status READY th) ∧
       readyList k' = k_insert (key th) t (readyList k)).
Proof.
  intros Hp Ht. destruct (pl_limbo _ _ _ Hp t Ht) as (Hr & Hd & th & Hth & Hf).
  unfold ReadyToRun, update_thread, find. rewrite Hth. cbn [mbind outcome_bind threads with_threads].
  rewrite lookup_insert_eq. cbn [mbind outcome_bind]. eexists. split; [done|].
  assert (t ∉ (readyList k).*2) as Hnr by (intros Hin; by destruct (pl_ready _ _ _ Hp t Hin)).
  split; [|split; [by split|split; [done|split; [done|split]]]].
  2: { intros t' Hne. cbn. by rewrite lookup_insert_ne. }
  2: { intros th' [= <-]. cbn. by rewrite lookup_insert_eq. }
  destruct Hp. split; cbn [readyList with_ready with_threads threads threadToBeDestroyed next_id semaphores].
  - by apply k_insert_items_nodup.
  - intros t'. rewrite k_insert_items, elem_of_difference, elem_of_singleton. intros [->|Hin].
    + split; [tauto|]. exists (set_status READY th). by rewrite lookup_insert_eq.
    + destruct (pl_ready0 t' Hin) as (? & th' & ? & ?). split; [tauto|]. exists th'.
      rewrite lookup_insert_ne; [done|]. by intros ->.
  - intros q l E. change (queue_of _ q) with (queue_of k q) in E.
    destruct (pl_queue0 q l E) as [? Hin]. split; [done|]. intros t' Ht'.
    destruct (Hin t' Ht') as (Hl & th' & f & rest & ? & ?).
    rewrite elem_of_difference. split; [tauto|]. exists th', f, rest.
    rewrite lookup_insert_ne; [done|]. by intros ->.
  - intros t' th' E Hl. rewrite elem_of_difference, elem_of_singleton in Hl.
    destruct (decide (t' = t)) as [->|Hne].
    + rewrite lookup_insert_eq in E. injection E as <-. cbn. rewrite k_insert_items. auto.
    + rewrite lookup_insert_ne in E by done. specialize (pl_thread0 t' th' E ltac:(tauto)).
      destruct (status th'); try done. rewrite k_insert_items. tauto.
  - intros t'. rewrite elem_of_difference, elem_of_singleton. intros [Hl Hne].
    rewrite lookup_insert_ne by done. auto.
  - intros t' E. rewrite lookup_insert_ne; [auto|]. congruence.
  - intros t' E. rewrite lookup_insert_ne; [auto|]. congruence.
  - intros t' th' E. destruct (decide (t' = t)) as [->|Hne]; [by eapply pl_ids_threads0|].
    rewrite lookup_insert_ne in E by done. eauto.
  - done.
  - intros t' th' f rest q E. destruct (decide (t' = t)) as [->|Hne].
    + rewrite lookup_insert_eq in E. by injection E as <-.
    + rewrite lookup_insert_ne in E by done. eauto.
Qed.

(** The thread on the processor leaves it. *)
Lemma placed_stop k t L th :
  placed k (Some t) L → threads k !! t = Some th → stack_ok (frames th) → placed k None ({[t]} ∪ L).
Proof.
  intros Hp Hth Hf. destruct (pl_running _ _ _ Hp t eq_refl) as (th0 & Hth0 & Hst).
  rewrite Hth in Hth0. injection Hth0 as <-.
  assert (∀ t' th', threads k !! t' = Some th' → status th' ≠ RUNNING → t' ∉ L → t' ∉ {[t]} ∪ L) as Hlim.
  { intros t' th' E Hs Hl. rewrite elem_of_union, elem_of_singleton. intros [->|]; congruence. }
  destruct Hp. split; try done.
  - intros t' Hin. destruct (pl_ready0 t' Hin) as (Hl & th' & E & Hs). split; [|eauto].
    eapply Hlim; [done|congruence|done].
  - intros q l E. destruct (pl_queue0 q l E) as [? Hin]. split; [done|]. intros t' Ht'.
    destruct (Hin t' Ht') as (Hl & th' & f & rest & E' & Hs & ?). split; [|eauto 10].
    eapply Hlim; [done|congruence|done].
  - intros t' th' E Hl. rewrite elem_of_union, elem_of_singleton in Hl.
    specialize (pl_thread0 t' th' E ltac:(tauto)). destruct (status th'); try done.
    injection pl_thread0 as ->. tauto.
  - intros t'. rewrite elem_of_union, elem_of_singleton. intros [->|Hl].
    + split; [done|]. split; [|eauto]. intros E. destruct (pl_destroy0 t E) as (? & ? & ? & ?). congruence.
    + destruct (pl_limbo0 t' Hl) as (? & ? & ?). done.
Qed.

(** [FindNextToRun] finds a thread. *)
Lemma placed_take k r L p t q :
  placed k r L → readyList k = (p, t) :: q → placed (with_ready q k) r ({[t]} ∪ L).
Proof.
  intros Hp Eq. pose proof (pl_ready_nodup _ _ _ Hp) as Hnd. rewrite Eq in Hnd. cbn in Hnd.
  apply NoDup_cons in Hnd as [Htq Hnd].
  destruct (pl_ready _ _ _ Hp t) as (HtL & th0 & Hth0 & Hst0); [rewrite Eq; constructor|].
  assert (∀ t', t' ∈ q.*2 → t' ∈ (readyList k).*2) as Hsub by (intros; rewrite Eq; by right).
  destruct Hp. split; cbn [readyList with_ready threads threadToBeDestroyed next_id semaphores]; try done.
  - intros t' Hin. destruct (pl_ready0 t' (Hsub t' Hin)) as (? & th' & ?). split; [|eauto].
    rewrite elem_of_union, elem_of_singleton. by intros [->|?].
  - intros q' l E. change (queue_of _ q') with (queue_of k q') in E.
    destruct (pl_queue0 q' l E) as [? Hin]. split; [done|]. intros t' Ht'.
    destruct (Hin t' Ht') as (? & th' & f & rest & ? & ? & ?). split; [|eauto 10].
    rewrite elem_of_union, elem_of_singleton. intros [->|?]; congruence.
  - intros t' th' E Hl. rewrite elem_of_union, elem_of_singleton in Hl.
    specialize (pl_thread0 t' th' E ltac:(tauto)). destruct (status th'); try done.
    rewrite Eq in pl_thread0. cbn in pl_thread0. rewrite elem_of_cons in pl_thread0. tauto.
  - intros t'. rewrite elem_of_union, elem_of_singleton. intros [->|Hl]; [|auto].
    specialize (pl_thread0 t th0 Hth0 HtL). rewrite Hst0 in pl_thread0. split_and!.
    + intros E. destruct (pl_running0 t E) as (? & ? & ?). congruence.
    + intros E. destruct (pl_destroy0 t E) as (? & ? & ? & ?). congruence.
    + exists th0. tauto.
Qed.

(** What a change of threads on the processor keeps. *)
Definition core (th : Thread U) := (key th, joining th, joinSignal th, mayDie th, exitStatus th, frames th).

Record quiet (k k' : K) : Prop := {
  qu_locks : locks k' = locks k;
  qu_conditions : conditions k' = conditions k;
  qu_shared : shared k' = shared k;
  qu_next_id : next_id k' = next_id k;
  qu_semaphores : semaphores k' ⊆ semaphores k;
  qu_history : ∃ dead, history k' = history k ++ (Deleted <$> dead);
  qu_threads t th' : threads k' !! t = Some th' → ∃ th, threads k !! t = Some th ∧ core th' = core th;
  qu_alive t th : threads k !! t = Some th → frames th ≠ [] → is_Some (threads k' !! t);
}.

Lemma quiet_refl k : quiet k k.
Proof. split; try done; [exists []; by rewrite app_nil_r|eauto..]. Qed.

(** Threads keep what [core] says. *)
Lemma quiet_same k k' :
  locks k' = locks k → conditions k' = conditions k → shared k' = shared k →
  next_id k' = next_id k → semaphores k' = semaphores k → history k' = history k →
  threads k' = threads k → quiet k k'.
Proof.
  intros ? ? ? ? Es Eh Et. split; try done; rewrite ?Es, ?Et; eauto.
  exists []. by rewrite app_nil_r.
Qed.

Lemma quiet_trans k1 k2 k3 : quiet k1 k2 → quiet k2 k3 → quiet k1 k3.
Proof.
  intros [] []. split; try congruence.
  - by trans (semaphores k2).
  - destruct qu_history0 as [d1 E1], qu_history1 as [d2 E2]. exists (d1 ++ d2).
    by rewrite E2, E1, fmap_app, app_assoc.
  - intros t th' E. destruct (qu_threads1 t th' E) as (th & E1 & Hc).
    destruct (qu_threads0 t th E1) as (th0 & E0 & Hc0). exists th0. split; [done|congruence].
  - intros t th E Hf. destruct (qu_alive0 t th E Hf) as [th1 E1].
    destruct (qu_threads0 t th1 E1) as (th0 & E0 & Hc). rewrite E in E0. injection E0 as <-.
    apply (qu_alive1 t th1 E1). unfold core in Hc. congruence.
Qed.

(** Deleting the carcass leaves no dangling pointer to it in a queue. *)
Lemma delete_placed k r d :
  placed k r ∅ → threadToBeDestroyed k = Some d → currentThread k ≠ d →
  ∃ k', delete_thread d k = Ret k' ∧ placed (with_destroy None k') r ∅ ∧ quiet k (with_destroy None k') ∧
    currentThread k' = currentThread k ∧ idle k' = idle k ∧
    (∀ t, t ≠ d → threads k' !! t = threads k !! t).
Proof.
  intros Hp Hd Hc. destruct (pl_destroy _ _ _ Hp d Hd) as (th & Hth & Hst & Hf).
  unfold delete_thread. rewrite bool_decide_false by congruence. cbn [negb ASSERT mbind outcome_bind].
  unfold find. rewrite Hth. cbn [mbind outcome_bind].
  set (sems := if joining th then _ else _).
  assert (sems ⊆ semaphores k) as Hsub.
  { unfold sems. destruct (joining th); repeat (etrans; [apply delete_subseteq|]); done. }
  eexists. split; [done|]. split.
  - assert (∀ q l, queue_of (log (Deleted d) (with_threads (delete d (threads k)) (with_semaphores sems k))) q
      = Some l → queue_of k q = Some l) as Hq.
    { intros [s|l'|c] l E; [|done|done]. cbn in E |- *. apply fmap_Some in E as (sem & E & ->).
      by rewrite (lookup_weaken _ _ _ _ E Hsub). }
    destruct Hp. split; try done.
    + intros t Hin. destruct (pl_ready0 t Hin) as (? & th' & E & ?). split; [done|]. exists th'.
      cbn. rewrite lookup_delete_ne; [done|]. intros ->. congruence.
    + intros q l E. apply Hq in E. destruct (pl_queue0 q l E) as [? Hin]. split; [done|]. intros t Ht.
      destruct (Hin t Ht) as (? & th' & f & rest & E' & ? & ? & ?). split; [done|]. exists th', f, rest.
      cbn. rewrite lookup_delete_ne; [done|]. intros ->. congruence.
    + intros t th' E Hl. cbn in E. apply lookup_delete_Some in E as [Hne E].
      specialize (pl_thread0 t th' E Hl). destruct (status th'); try done.
      destruct pl_thread0 as [|(? & f & rest & q & ? & ? & Hin)]; [by left|]. right.
      split; [done|]. exists f, rest, q.
      split; [done|]. split; [done|].
      destruct (queue_of (with_destroy _ _) q) as [l|] eqn:Eq; [|done].
      change (queue_of (log (Deleted d) (with_threads (delete d (threads k)) (with_semaphores sems k))) q
        = Some l) in Eq. apply Hq in Eq. by rewrite Eq in Hin.
    + intros t E. destruct (pl_running0 t E) as (th' & E' & ?). exists th'. cbn.
      rewrite lookup_delete_ne; [done|]. intros ->. congruence.
    + intros t th' E. cbn in E. apply lookup_delete_Some in E as [_ E]. by eapply pl_ids_threads0.
    + intros q l E. apply Hq in E. by eapply pl_ids_queues0.
    + intros t th' f rest q E. cbn in E. apply lookup_delete_Some in E as [_ E]. by eapply pl_ids_waits0.
  - split; [|split; [done|split; [done|]]].
    + split; try done.
      * by exists [d].
      * intros t th' E. cbn in E. apply lookup_delete_Some in E as [_ E]. eauto.
      * intros t th' E Hne. cbn. rewrite lookup_delete_ne; [eauto|]. intros <-. congruence.
    + intros t Hne. cbn. by rewrite lookup_delete_ne.
Qed.

Lemma Run_placed k t :
  placed k None {[t]} →
  ∃ k', Run t k = Ret k' ∧ placed k' (Some t) ∅ ∧ quiet k k' ∧ currentThread k' = t ∧ idle k' = idle k ∧
    ∃ th, threads k' !! t = Some th ∧ stack_ok (frames th).
Proof.
  intros Hp. destruct (pl_limbo _ _ _ Hp t) as (_ & Hd & th & Hth & Hf); [by apply elem_of_singleton|].
  unfold Run, update_thread, find. rewrite Hth. cbn [mbind outcome_bind].
  set (th' := set_started (set_status RUNNING th)).
  set (k1 := with_current t (with_threads (<[t := th']> (threads k)) k)).
  assert (placed k1 (Some t) ∅) as Hp1.
  { destruct Hp. split; try done.
    - intros t' Hin. destruct (pl_ready0 t' Hin) as (Hl & th0 & E & ?). rewrite elem_of_singleton in Hl.
      split; [apply not_elem_of_empty|]. exists th0. cbn. by rewrite lookup_insert_ne.
    - intros q l E. destruct (pl_queue0 q l E) as [? Hin]. split; [done|]. intros t' Ht'.
      destruct (Hin t' Ht') as (Hl & th0 & f & rest & E' & ?). rewrite elem_of_singleton in Hl.
      split; [apply not_elem_of_empty|]. exists th0, f, rest. cbn. by rewrite lookup_insert_ne.
    - intros t' th0 E _. cbn in E. apply lookup_insert_Some in E as [[-> <-]|[Hne E]]; [done|].
      specialize (pl_thread0 t' th0 E). rewrite elem_of_singleton in pl_thread0.
      specialize (pl_thread0 ltac:(congruence)). by destruct (status th0).
    - intros t' [= <-]. exists th'. cbn. by rewrite lookup_insert_eq.
    - intros t' E. destruct (pl_destroy0 t' E) as (th0 & E' & ?). exists th0. cbn.
      rewrite lookup_insert_ne; [done|]. cbn in E. congruence.
    - intros t' th0 E. cbn in E. apply lookup_insert_Some in E as [[-> <-]|[Hne E]]; by eapply pl_ids_threads0.
    - intros t' th0 f rest q E. cbn in E. apply lookup_insert_Some in E as [[-> <-]|[Hne E]]; [done|].
      by eapply pl_ids_waits0. }
  assert (quiet k k1) as Hq1.
  { split; try done; [exists []; by rewrite app_nil_r|..].
    - intros t' th0 E. cbn in E. apply lookup_insert_Some in E as [[-> <-]|[Hne E]]; eauto.
    - intros t' th0 E _. cbn. rewrite lookup_insert_is_Some. destruct (decide (t = t')); eauto. }
  assert (threads k1 !! t = Some th') as Hth1 by apply lookup_insert_eq.
  destruct (negb (started th)); [by eexists; eauto 10|].
  change (threadToBeDestroyed k) with (threadToBeDestroyed k1) in Hd.
  destruct (threadToBeDestroyed k1) as [d|] eqn:Ed; [|exists k1; split_and!; eauto].
  destruct (delete_placed k1 (Some t) d Hp1 Ed) as (k2 & E2 & Hp2 & Hq2 & Hc2 & Hi2 & Hth2).
  { cbn. congruence. }
  rewrite E2. cbn [mbind outcome_bind]. eexists. split; [done|].
  split; [done|]. split; [by eapply quiet_trans|]. split; [done|]. split; [done|].
  exists th'. split; [|done]. cbn. rewrite Hth2; [done|congruence].
Qed.

(** The processor goes to the next ready thread, or idles. *)
Lemma dispatch_wf k :
  placed k None ∅ → is_Some (threads k !! currentThread k) →
  ∃ k', dispatch k = Ret k' ∧ wf k' ∧ quiet k k'.
Proof.
  intros Hp Hc. unfold dispatch, FindNextToRun.
  destruct (readyList k) as [|[p t] q] eqn:Er; cbn [k_remove].
  - eexists. split; [done|]. split; [|by apply quiet_same].
    unfold wf. cbn [idle with_idle]. split; [|done].
    by eapply placed_same.
  - pose proof (placed_take k None ∅ p t q Hp Er) as Hp1. rewrite union_empty_r_L in Hp1.
    assert (placed (with_idle false (with_ready q k)) None {[t]}) as Hp2.
    { by eapply placed_same. }
    destruct (Run_placed _ t Hp2) as (k' & -> & Hp' & Hq & Hc' & Hi & th & Hth & Hf).
    exists k'. split; [done|]. split.
    + unfold wf. rewrite Hi. cbn [idle with_idle]. rewrite Hc'. split; [done|]. eauto.
    + eapply quiet_trans; [|exact Hq]. by apply quiet_same.
Qed.

(** A thread that stays where it is may change. *)
Lemma placed_set k t th th' r L :
  placed k r L → threads k !! t = Some th → status th' = status th → t ∉ L →
  frames th' = frames th ∨ status th = RUNNING →
  placed (with_threads (<[t := th']> (threads k)) k) r L.
Proof.
  intros Hp Hth Hst HL Hf.
  assert (∀ t' th0, threads k !! t' = Some th0 → status th0 ≠ RUNNING →
    ∃ th1, <[t := th']> (threads k) !! t' = Some th1 ∧ status th1 = status th0 ∧ frames th1 = frames th0) as Hkeep.
  { intros t' th0 E Hs. rewrite lookup_insert. case_decide as Ht; [|eauto].
    subst. rewrite Hth in E. injection E as <-. destruct Hf; [eauto|congruence]. }
  destruct Hp. split; cbn [readyList with_threads threads threadToBeDestroyed next_id]; try done.
  - intros t' Hin. destruct (pl_ready0 t' Hin) as (? & th0 & E & Hs). split; [done|].
    destruct (Hkeep t' th0 E) as (th1 & E1 & Hs1 & _); [congruence|]. exists th1. split; [done|congruence].
  - intros q l E. destruct (pl_queue0 q l E) as [? Hin]. split; [done|]. intros t' Ht'.
    destruct (Hin t' Ht') as (? & th0 & f & rest & E' & Hs & Hf' & ?). split; [done|].
    destruct (Hkeep t' th0 E') as (th1 & E1 & Hs1 & Hf1); [congruence|].
    exists th1, f, rest. split_and!; [done|congruence..].
  - intros t' th0 E Hl. apply lookup_insert_Some in E as [[<- <-]|[_ E]]; [|by eapply pl_thread0].
    specialize (pl_thread0 t th Hth Hl). rewrite Hst. destruct Hf as [->|Hs]; [done|].
    by rewrite Hs in pl_thread0 |- *.
  - intros t' Hl. destruct (pl_limbo0 t' Hl) as (? & ? & th0 & ? & ?). split_and!; try done.
    exists th0. rewrite lookup_insert_ne; [done|]. by intros ->.
  - intros t' E. destruct (pl_running0 t' E) as (th0 & E0 & ?). rewrite lookup_insert.
    case_decide; [|eauto]. subst. exists th'. split; [done|congruence].
  - intros t' E. destruct (pl_destroy0 t' E) as (th0 & E0 & Hs & ?).
    destruct (Hkeep t' th0 E0) as (th1 & E1 & Hs1 & Hf1); [congruence|]. exists th1. split_and!; [done|congruence..].
  - intros t' th0 E. apply lookup_insert_Some in E as [[<- <-]|[_ E]]; by eapply pl_ids_threads0.
  - intros t' th0 f rest q E Hs0 Hf0. apply lookup_insert_Some in E as [[<- <-]|[_ E]]; [|by eapply pl_ids_waits0].
    intros Hw. apply (pl_ids_waits0 t th f rest q); [done|congruence| |done]. destruct Hf; congruence.
Qed.

(** A thread in limbo waits in a queue. *)
Lemma placed_park k k' t th' p q l f rest L :
  placed k None ({[t]} ∪ L) → t ∉ L →
  status th' = BLOCKED → frames th' = f :: rest → stack_ok (f :: rest) → waits_on f = Some q →
  queue_of k q = Some l → queue_of k' q = Some (k_insert p t l) →
  (∀ q', q' ≠ q → queue_of k' q' = queue_of k q') →
  threads k' = <[t := th']> (threads k) → readyList k' = readyList k →
  threadToBeDestroyed k' = threadToBeDestroyed k → next_id k' = next_id k →
  placed k' None L.
Proof.
  intros Hp HtL Hst Hf Hok Hw Eq Eq' Eo Et Er Ed En.
  destruct (pl_limbo _ _ _ Hp t) as (_ & Hd & th0 & Hth0 & _); [set_solver|].
  assert (∀ t', t' ∉ {[t]} ∪ L ↔ t' ≠ t ∧ t' ∉ L) as HL by set_solver.
  destruct Hp. split; rewrite ?Er, ?Et, ?Ed, ?En; try done.
  - intros t' Hin. destruct (pl_ready0 t' Hin) as (Hl & th & Hth & ?). apply HL in Hl as [? ?].
    split; [done|]. exists th. by rewrite lookup_insert_ne.
  - intros q' l' E'. assert (∀ l0 t', queue_of k q' = Some l0 → t' ∈ l0.*2 →
      t' ≠ t ∧ t' ∉ L ∧ ∃ th f rest, <[t := th']> (threads k) !! t' = Some th ∧ status th = BLOCKED ∧
        frames th = f :: rest ∧ waits_on f = Some q') as Hold.
    { intros l0 t' E0 Hin. destruct (pl_queue0 q' l0 E0) as [_ Hq].
      destruct (Hq t' Hin) as (Hl & th & f0 & rest0 & ?). apply HL in Hl as [? ?].
      split; [done|]. split; [done|]. exists th, f0, rest0. by rewrite lookup_insert_ne. }
    destruct (decide (q' = q)) as [->|Hne].
    + rewrite Eq' in E'. injection E' as <-. split.
      * apply k_insert_items_nodup; [|by apply (pl_queue0 q)]. intros Hin.
        by destruct (Hold l t Eq Hin) as [? _].
      * intros t'. rewrite k_insert_items. intros [->|Hin]; [|by apply (Hold l)].
        split; [done|]. exists th', f, rest. by rewrite lookup_insert_eq.
    + rewrite Eo in E' by done. split; [by apply (pl_queue0 q')|]. intros t' Hin. by apply (Hold l').
  - intros t' th E Hl. apply lookup_insert_Some in E as [[<- <-]|[Hne E]].
    + rewrite Hst. right. rewrite Hf. split; [done|]. exists f, rest, q. split_and!; [done..|].
      rewrite Eq', k_insert_items. by left.
    + specialize (pl_thread0 t' th E). rewrite HL in pl_thread0. specialize (pl_thread0 ltac:(done)).
      destruct (status th); try done.
      destruct pl_thread0 as [|(? & f0 & rest0 & q0 & ? & ? & Hin)]; [by left|]. right.
      split; [done|]. exists f0, rest0, q0. split_and!; [done..|].
      destruct (decide (q0 = q)) as [->|]; [|by rewrite Eo].
      rewrite Eq', k_insert_items. rewrite Eq in Hin. by right.
  - intros t' Hl. destruct (pl_limbo0 t') as (? & ? & th & ? & ?); [set_solver|]. split_and!; try done.
    exists th. rewrite lookup_insert_ne; [done|]. by intros ->.
  - intros t' E. destruct (pl_destroy0 t' E) as (th & ? & ?). exists th.
    rewrite lookup_insert_ne; [done|]. intros ->. done.
  - intros t' th E. apply lookup_insert_Some in E as [[<- <-]|[_ E]]; by eapply pl_ids_threads0.
  - intros q' l' E'. destruct (decide (q' = q)) as [->|]; [by eapply pl_ids_queues0|].
    rewrite Eo in E' by done. by eapply pl_ids_queues0.
  - intros t' th f0 rest0 q0 E Hs0 Hf0 Hw0. apply lookup_insert_Some in E as [[<- <-]|[_ E]].
    + rewrite Hf in Hf0. injection Hf0 as <- <-. rewrite Hw in Hw0. injection Hw0 as <-. by eapply pl_ids_queues0.
    + by eapply pl_ids_waits0.
Qed.

(** A thread in limbo dies. *)
Lemma placed_die k t th' L :
  placed k None ({[t]} ∪ L) → t ∉ L → status th' = BLOCKED → frames th' = [] →
  placed (with_destroy (Some t) (with_threads (<[t := th']> (threads k)) k)) None L.
Proof.
  intros Hp HtL Hst Hf. destruct (pl_limbo _ _ _ Hp t) as (_ & Hd & th0 & Hth0 & _); [set_solver|].
  assert (∀ t', t' ∉ {[t]} ∪ L ↔ t' ≠ t ∧ t' ∉ L) as HL by set_solver.
  destruct Hp. split; cbn [readyList with_threads with_destroy threads threadToBeDestroyed next_id]; try done.
  - intros t' Hin. destruct (pl_ready0 t' Hin) as (Hl & th & Hth & ?). apply HL in Hl as [? ?].
    split; [done|]. exists th. by rewrite lookup_insert_ne.
  - intros q l E. destruct (pl_queue0 q l E) as [? Hin]. split; [done|]. intros t' Ht'.
    destruct (Hin t' Ht') as (Hl & th & f & rest & ?). apply HL in Hl as [? ?]. split; [done|].
    exists th, f, rest. by rewrite lookup_insert_ne.
  - intros t' th E Hl. apply lookup_insert_Some in E as [[<- <-]|[Hne E]]; [rewrite Hst; by left|].
    apply (pl_thread0 t' th E). by apply HL.
  - intros t' Hl. destruct (pl_limbo0 t') as (? & ? & th & ? & ?); [set_solver|]. split_and!; try done.
    + intros [= <-]. done.
    + exists th. rewrite lookup_insert_ne; [done|]. by intros ->.
  - intros t' [= <-]. exists th'. by rewrite lookup_insert_eq.
  - intros t' th E. apply lookup_insert_Some in E as [[<- <-]|[_ E]]; by eapply pl_ids_threads0.
  - intros t' th f0 rest0 q0 E Hs0 Hf0 Hw0. apply lookup_insert_Some in E as [[<- <-]|[_ E]]; [congruence|].
    by eapply pl_ids_waits0.
Qed.

(** *** The queues of changed objects *)
Lemma queue_of_sem s sem k q :
  queue_of (with_semaphores (<[s := sem]> (semaphores k)) k) q =
  if decide (q = QSem s) then Some (s_queue sem) else queue_of k q.
Proof.
  destruct q as [s'|l|c]; cbn; try done. rewrite lookup_insert.
  destruct (decide (QSem s' = QSem s)) as [[= ->]|]; [by rewrite decide_True|].
  rewrite decide_False; [done|congruence].
Qed.

Lemma queue_of_lock l lk k q :
  queue_of (with_locks (<[l := lk]> (locks k)) k) q =
  if decide (q = QLock l) then Some (l_queue lk) else queue_of k q.
Proof.
  destruct q as [s|l'|c]; cbn; try done. rewrite lookup_insert.
  destruct (decide (QLock l' = QLock l)) as [[= ->]|]; [by rewrite decide_True|].
  rewrite decide_False; [done|congruence].
Qed.

Lemma queue_of_cond c cond k q :
  queue_of (with_conditions (<[c := cond]> (conditions k)) k) q =
  if decide (q = QCond c) then Some (c_queue cond) else queue_of k q.
Proof.
  destruct q as [s|l|c']; cbn; try done. rewrite lookup_insert.
  destruct (decide (QCond c' = QCond c)) as [[= ->]|]; [by rewrite decide_True|].
  rewrite decide_False; [done|congruence].
Qed.

End placement.

Ltac queue_cases :=
  repeat first [rewrite queue_of_sem | rewrite queue_of_lock | rewrite queue_of_cond];
  repeat case_decide; simplify_eq; try done.

(** ** The routines

    What a routine does to the objects comes before the threads move: each lemma gives the state
    after the change of the objects, and [moved] or [quiet] says that the rest is a matter of who
    runs. *)

Section routines.
Context {U G : Type}.
Abbreviation K := (Kernel U G).
Implicit Types (k : K) (th : Thread U).

(** Threads became ready, nothing else happened. *)
Record moved (k k' : K) : Prop := {
  mv_current : currentThread k' = currentThread k;
  mv_idle : idle k' = idle k;
  mv_sync : same_sync k k';
  mv_threads : core <$> threads k' = core <$> threads k;
}.

Lemma moved_refl k : moved k k.
Proof. by split. Qed.

Lemma moved_trans k1 k2 k3 : moved k1 k2 → moved k2 k3 → moved k1 k3.
Proof. intros [?? [] ?] [?? [] ?]. split; [congruence..| |congruence]. split; congruence. Qed.

Lemma moved_thread k k' t th :
  moved k k' → threads k !! t = Some th → ∃ th', threads k' !! t = Some th' ∧ core th' = core th.
Proof.
  intros Hm E. pose proof (f_equal (lookup t) (mv_threads _ _ Hm)) as Ht.
  rewrite !lookup_fmap, E in Ht. cbn in Ht. apply fmap_Some in Ht as (th' & ? & ->). eauto.
Qed.

Lemma moved_thread' k k' t th' :
  moved k k' → threads k' !! t = Some th' → ∃ th, threads k !! t = Some th ∧ core th' = core th.
Proof.
  intros Hm E. pose proof (f_equal (lookup t) (mv_threads _ _ Hm)) as Ht.
  rewrite !lookup_fmap, E in Ht. cbn in Ht. symmetry in Ht. apply fmap_Some in Ht as (th & ? & ?). eauto.
Qed.

Lemma moved_quiet k k' : moved k k' → quiet k k'.
Proof.
  intros Hm. destruct (mv_sync _ _ Hm) as [Es ???? Hsh Hh]. split; try done.
  - by rewrite Es.
  - exists []. by rewrite Hh, app_nil_r.
  - intros t th'. by apply moved_thread'.
  - intros t th E _. destruct (moved_thread _ _ t th Hm E) as (? & ? & _). eauto.
Qed.

Lemma ReadyToRun_eq t th k :
  threads k !! t = Some th →
  ReadyToRun t k = Ret (with_ready (k_insert (key th) t (readyList k))
    (with_threads (<[t := set_status READY th]> (threads k)) k)).
Proof.
  intros E. unfold ReadyToRun, update_thread, find. rewrite E. cbn [mbind outcome_bind threads with_threads].
  by rewrite lookup_insert_eq.
Qed.

Lemma ready_moved k r L t :
  placed k r L → t ∈ L →
  ∃ k', ReadyToRun t k = Ret k' ∧ placed k' r (L ∖ {[t]}) ∧ moved k k'.
Proof.
  intros Hp Ht. destruct (pl_limbo _ _ _ Hp t Ht) as (_ & _ & th & Hth & _).
  destruct (ReadyToRun_placed k r L t Hp Ht) as (k' & Ek & Hp' & Hs & Hc & Hi & Ho & Hn).
  exists k'. split; [done|]. split; [done|]. split; [done..|]. apply map_eq. intros t'.
  rewrite !lookup_fmap. destruct (decide (t' = t)) as [->|Hne]; [|by rewrite Ho].
  destruct (Hn th Hth) as [-> _]. by rewrite Hth.
Qed.

(** The first thread of a queue is woken. *)
Lemma wake_placed k k0 r q p t l :
  placed k r ∅ → queue_of k q = Some ((p, t) :: l) → queue_of k0 q = Some l →
  (∀ q', q' ≠ q → queue_of k0 q' = queue_of k q') → readyList k0 = readyList k →
  threads k0 = threads k → threadToBeDestroyed k0 = threadToBeDestroyed k → next_id k0 = next_id k →
  ∃ k', ReadyToRun t k0 = Ret k' ∧ placed k' r ∅ ∧ moved k0 k'.
Proof.
  intros Hp Eq Eq0 Eo Er Et Ed En.
  pose proof (placed_dequeue k k0 r ∅ q p t l Hp Eq Eq0 Eo Er Et Ed En) as Hp0.
  rewrite union_empty_r_L in Hp0.
  destruct (ready_moved k0 r {[t]} t Hp0) as (k' & ? & Hp' & ?); [by apply elem_of_singleton|].
  exists k'. rewrite difference_diag_L in Hp'. done.
Qed.

(** The processor runs a thread whose unfinished routines are [fs]. *)
Record running (k : K) (fs : list (frame U)) : Prop := {
  rn_idle : idle k = false;
  rn_placed : placed k (Some (currentThread k)) ∅;
  rn_thread : ∃ th, threads k !! currentThread k = Some th ∧ frames th = fs;
}.

Lemma running_wf k fs : running k fs → stack_ok fs → wf k.
Proof. intros [Hi Hp (th & ? & <-)] ?. unfold wf. rewrite Hi. eauto. Qed.

Lemma wf_running k : wf k → idle k = false → ∃ fs, running k fs ∧ stack_ok fs.
Proof. unfold wf. intros Hwf Hi. rewrite Hi in Hwf. destruct Hwf as (? & th & ? & ?). exists (frames th). split; [split|]; eauto. Qed.

Lemma running_moved k k' fs :
  running k fs → moved k k' → placed k' (Some (currentThread k)) ∅ → running k' fs.
Proof.
  intros [Hi Hp (th & Hth & <-)] Hm Hp'. split; rewrite ?(mv_current _ _ Hm), ?(mv_idle _ _ Hm); try done.
  destruct (moved_thread _ _ _ _ Hm Hth) as (th' & ? & Hc). exists th'. split; [done|].
  unfold core in Hc. congruence.
Qed.

(** Only the objects changed. *)
Lemma running_same k k' fs :
  running k fs → placed k' (Some (currentThread k)) ∅ →
  currentThread k' = currentThread k → idle k' = idle k → threads k' = threads k → running k' fs.
Proof. intros [] ? Ec Ei Et. split; rewrite ?Ec, ?Ei, ?Et; done. Qed.

(** The current thread as it is while it sleeps in the routine [f]. *)
Definition blocked (f : frame U) (k : K) : K :=
  with_threads (alter (λ th, set_status BLOCKED (set_frames (f :: frames th) th)) (currentThread k)
    (threads k)) k.

Lemma sleep_in_eq f k th :
  threads k !! currentThread k = Some th → sleep_in f k = dispatch (blocked f k).
Proof.
  intros E. unfold sleep_in, Sleep, update_thread, find, blocked. rewrite E.
  cbn [mbind outcome_bind threads with_threads currentThread]. rewrite lookup_insert_eq.
  cbn [mbind outcome_bind]. rewrite insert_insert_eq. f_equal.
  change (with_threads ?a (with_threads ?b k)) with (with_threads a k). f_equal.
  apply map_eq. intros t. destruct (decide (t = currentThread k)) as [->|].
  - by rewrite lookup_insert_eq, lookup_alter_eq, E.
  - by rewrite lookup_insert_ne, lookup_alter_ne.
Qed.

(** The current thread goes to sleep in a queue. *)
Lemma sleep_in_wf k k0 fs f q p l :
  running k fs → calm fs → stack_ok fs → waits_on f = Some q →
  queue_of k q = Some l → queue_of k0 q = Some (k_insert p (currentThread k) l) →
  (∀ q', q' ≠ q → queue_of k0 q' = queue_of k q') → readyList k0 = readyList k →
  threads k0 = threads k → threadToBeDestroyed k0 = threadToBeDestroyed k → next_id k0 = next_id k →
  currentThread k0 = currentThread k →
  ∃ k', sleep_in f k0 = Ret k' ∧ wf k' ∧ quiet (blocked f k0) k'.
Proof.
  intros [Hi Hp (th & Hth & <-)] Hcalm Hok Hw Eq Eq0 Eo Er Et Ed En Ec.
  rewrite (sleep_in_eq f k0 th) by congruence. apply dispatch_wf.
  2: { cbn. rewrite Ec, Et, lookup_alter_eq, Hth. by eexists. }
  pose proof (placed_stop k _ ∅ th Hp Hth Hok) as Hp1.
  eapply (placed_park k _ (currentThread k) (set_status BLOCKED (set_frames (f :: frames th) th)) p q l
    f (frames th)); try done.
  - by destruct f.
  - cbn. rewrite Ec, Et. apply map_eq. intros t. destruct (decide (t = currentThread k)) as [->|].
    + by rewrite lookup_insert_eq, lookup_alter_eq, Hth.
    + by rewrite lookup_insert_ne, lookup_alter_ne.
Qed.

(** *** Semaphores *)

(** The states after [P] without waiting, [P] up to the [Sleep], and [V] before the
    thread it wakes is ready. *)
Definition p_done (s : nat) (sem : Semaphore) (k : K) : K :=
  log (DidP (currentThread k) s)
    (with_semaphores (<[s := mkSem (s32 (value sem - 1)) (s_queue sem)]> (semaphores k)) k).
Definition p_waits (s : nat) (sem : Semaphore) (p : Z) (k : K) : K :=
  with_semaphores (<[s := mkSem (value sem) (k_insert p (currentThread k) (s_queue sem))]>
    (semaphores k)) k.
Definition v_done (s : nat) (sem : Semaphore) (k : K) : K :=
  log (DidV s) (with_semaphores (<[s := mkSem (s32 (value sem + 1)) (tail (s_queue sem))]> (semaphores k)) k).

Lemma find_Some {A} (m : gmap nat A) i a : m !! i = Some a → find m i = Ret a.
Proof. unfold find. by intros ->. Qed.

Lemma current_key_running k fs : running k fs → ∃ p, current_key k = Ret p.
Proof.
  intros [_ _ (th & Hth & _)]. unfold current_key. rewrite (find_Some _ _ _ Hth). by eexists.
Qed.

Lemma P_passes s k fs sem :
  running k fs → semaphores k !! s = Some sem → value sem ≠ 0 →
  P s k = Ret (p_done s sem k) ∧ running (p_done s sem k) fs.
Proof.
  intros Hr Hs Hv. unfold P. rewrite (find_Some _ _ _ Hs). cbn [mbind outcome_bind].
  rewrite (proj2 (Z.eqb_neq _ _) Hv). split; [done|].
  apply (running_same k); try done. eapply placed_same; [apply Hr|try done..].
  intros q. change (queue_of (p_done s sem k) q) with (queue_of (with_semaphores
    (<[s := mkSem (s32 (value sem - 1)) (s_queue sem)]> (semaphores k)) k) q).
  queue_cases. cbn. by rewrite Hs.
Qed.

Lemma P_sleeps s k fs sem :
  running k fs → calm fs → stack_ok fs → semaphores k !! s = Some sem → value sem = 0 →
  ∃ p k', P s k = Ret k' ∧ wf k' ∧ quiet (blocked (InP s) (p_waits s sem p k)) k'.
Proof.
  intros Hr Hcalm Hok Hs Hv. destruct (current_key_running _ _ Hr) as [p Hp]. exists p.
  unfold P. rewrite (find_Some _ _ _ Hs). cbn [mbind outcome_bind]. rewrite Hv. cbn [Z.eqb].
  rewrite Hp. cbn [mbind outcome_bind]. rewrite <- Hv.
  eapply (sleep_in_wf k _ fs (InP s) (QSem s) p (s_queue sem)); try done.
  - cbn. by rewrite Hs.
  - queue_cases.
  - intros q Hne. queue_cases.
Qed.

Lemma V_placed s k r sem :
  placed k r ∅ → semaphores k !! s = Some sem →
  ∃ k', V s k = Ret k' ∧ placed k' r ∅ ∧ moved (v_done s sem k) k'.
Proof.
  intros Hp Hs. unfold V. rewrite (find_Some _ _ _ Hs). cbn [mbind outcome_bind].
  assert (∀ q', q' ≠ QSem s → queue_of (v_done s sem k) q' = queue_of k q') as Ho.
  { intros q' Hne. change (queue_of (v_done s sem k) q') with (queue_of (with_semaphores
      (<[s := mkSem (s32 (value sem + 1)) (tail (s_queue sem))]> (semaphores k)) k) q'). queue_cases. }
  destruct (s_queue sem) as [|[p t] l] eqn:Eq; cbn [k_remove mbind outcome_bind].
  - exists (v_done s sem k). split; [unfold v_done; by rewrite Eq|].
    split; [|apply moved_refl]. eapply placed_same; [exact Hp|try done..].
    intros q. destruct (decide (q = QSem s)) as [->|]; [|by apply Ho]. cbn.
    by rewrite lookup_insert_eq, Hs; cbn; rewrite Eq.
  - destruct (wake_placed k (v_done s sem k) r (QSem s) p t l) as (k' & Ek & Hp' & Hm); try done.
    { cbn. by rewrite Hs; cbn; rewrite Eq. }
    { cbn. rewrite lookup_insert_eq. cbn. by rewrite Eq. }
    exists k'. split; [|done].
    destruct (pl_queue _ _ _ Hp (QSem s) (s_queue sem)) as [_ Hin]; [cbn; by rewrite Hs|].
    destruct (Hin t) as (_ & th & _ & _ & Hth & _); [rewrite Eq; constructor|].
    rewrite (ReadyToRun_eq t th) in Ek |- * by done. cbn [mbind outcome_bind].
    rewrite <- Ek. unfold v_done. rewrite Eq. done.
Qed.

Lemma V_running s k fs sem :
  running k fs → semaphores k !! s = Some sem →
  ∃ k', V s k = Ret k' ∧ running k' fs ∧ moved (v_done s sem k) k'.
Proof.
  intros Hr Hs. destruct (V_placed s k _ sem (rn_placed _ _ Hr) Hs) as (k' & E & Hp & Hm).
  exists k'. split; [done|]. split; [|done].
  destruct Hr as [Hi Hp0 (th & Hth & <-)].
  destruct (moved_thread _ k' (currentThread k) th Hm) as (th' & Hth' & Hc); [done|].
  split; rewrite ?(mv_current _ _ Hm), ?(mv_idle _ _ Hm); try done.
  exists th'. split; [done|]. unfold core in Hc. congruence.
Qed.

Lemma running_moved_placed k k0 k' fs :
  running k fs → currentThread k0 = currentThread k → idle k0 = idle k → threads k0 = threads k →
  moved k0 k' → placed k' (Some (currentThread k)) ∅ → running k' fs.
Proof.
  intros [Hi Hp0 (th & Hth & <-)] Ec Ei Et Hm Hp.
  destruct (moved_thread k0 k' (currentThread k) th Hm) as (th' & Hth' & Hc); [by rewrite Et|].
  split; rewrite ?(mv_current _ _ Hm), ?(mv_idle _ _ Hm), ?Ec, ?Ei; try done.
  exists th'. split; [done|]. unfold core in Hc. congruence.
Qed.

(** *** Locks *)
Definition a_done (l : nat) (lk : Lock) (k : K) : K :=
  log (Acquired (currentThread k) l)
    (with_locks (<[l := mkLock true (l_queue lk) (Some (currentThread k))]> (locks k)) k).
Definition a_waits (l : nat) (lk : Lock) (p : Z) (k : K) : K :=
  with_locks (<[l := mkLock true (k_insert p (currentThread k) (l_queue lk)) (currThread lk)]> (locks k)) k.
Definition r_done (l : nat) (lk : Lock) (k : K) : K :=
  log (Released (currentThread k) l) (with_locks (<[l := mkLock false (tail (l_queue lk)) None]> (locks k)) k).

Lemma acquire_passes l k fs lk :
  running k fs → locks k !! l = Some lk → isLocked lk = false →
  acquire_loop l k = Ret (a_done l lk k) ∧ running (a_done l lk k) fs.
Proof.
  intros Hr Hl Hb. unfold acquire_loop. rewrite (find_Some _ _ _ Hl). cbn [mbind outcome_bind].
  rewrite Hb. split; [done|]. apply (running_same k); try done. eapply placed_same; [apply Hr|try done..].
  intros q. change (queue_of (a_done l lk k) q) with (queue_of (with_locks
    (<[l := mkLock true (l_queue lk) (Some (currentThread k))]> (locks k)) k) q).
  queue_cases. cbn. by rewrite Hl.
Qed.

Lemma acquire_sleeps l k fs lk :
  running k fs → calm fs → stack_ok fs → locks k !! l = Some lk → isLocked lk = true →
  ∃ p k', acquire_loop l k = Ret k' ∧ wf k' ∧ quiet (blocked (InAcquire l) (a_waits l lk p k)) k'.
Proof.
  intros Hr Hcalm Hok Hl Hb. destruct (current_key_running _ _ Hr) as [p Hp]. exists p.
  unfold acquire_loop. rewrite (find_Some _ _ _ Hl). cbn [mbind outcome_bind]. rewrite Hb, Hp.
  cbn [mbind outcome_bind].
  eapply (sleep_in_wf k _ fs (InAcquire l) (QLock l) p (l_queue lk)); try done.
  - cbn. by rewrite Hl.
  - queue_cases.
  - intros q Hne. queue_cases.
Qed.

Lemma Release_running l k fs lk :
  running k fs → locks k !! l = Some lk → currThread lk = Some (currentThread k) →
  ∃ k', Release l k = Ret k' ∧ running k' fs ∧ moved (r_done l lk k) k'.
Proof.
  intros Hr Hl Ho. unfold Release. rewrite (find_Some _ _ _ Hl). cbn [mbind outcome_bind].
  unfold isHeldByCurrentThread. rewrite bool_decide_true by done. cbn [ASSERT mbind outcome_bind].
  assert (∀ q', q' ≠ QLock l → queue_of (r_done l lk k) q' = queue_of k q') as Hq.
  { intros q' Hne. change (queue_of (r_done l lk k) q') with (queue_of (with_locks
      (<[l := mkLock false (tail (l_queue lk)) None]> (locks k)) k) q'). queue_cases. }
  pose proof (rn_placed _ _ Hr) as Hp.
  destruct (l_queue lk) as [|[p t] q] eqn:Eq; cbn [k_remove mbind outcome_bind].
  - exists (r_done l lk k). split; [unfold r_done; by rewrite Eq|]. split; [|apply moved_refl].
    apply (running_same k); try done. eapply placed_same; [exact Hp|try done..].
    intros q. destruct (decide (q = QLock l)) as [->|]; [|by apply Hq]. cbn.
    by rewrite lookup_insert_eq, Hl; cbn; rewrite Eq.
  - destruct (wake_placed k (r_done l lk k) _ (QLock l) p t q Hp) as (k' & Ek & Hp' & Hm); try done.
    { cbn. by rewrite Hl; cbn; rewrite Eq. }
    { cbn. rewrite lookup_insert_eq. cbn. by rewrite Eq. }
    exists k'. split; [|split; [by apply (running_moved_placed k (r_done l lk k))|done]].
    destruct (pl_queue _ _ _ Hp (QLock l) (l_queue lk)) as [_ Hin]; [cbn; by rewrite Hl|].
    destruct (Hin t) as (_ & th & _ & _ & Hth & _); [rewrite Eq; constructor|].
    rewrite (ReadyToRun_eq t th) in Ek |- * by done. cbn [mbind outcome_bind].
    rewrite <- Ek. unfold r_done. rewrite Eq. done.
Qed.

Lemma Release_assert l k fs lk :
  running k fs → locks k !! l = Some lk → currThread lk ≠ Some (currentThread k) →
  Release l k = AssertFails.
Proof.
  intros _ Hl Ho. unfold Release. rewrite (find_Some _ _ _ Hl). cbn [mbind outcome_bind].
  unfold isHeldByCurrentThread. by rewrite bool_decide_false.
Qed.

(** *** Condition variables *)
Definition w_waits (c : nat) (cond : Condition) (p : Z) (k : K) : K :=
  with_conditions (<[c := mkCond (k_insert p (currentThread k) (c_queue cond))]> (conditions k)) k.
Definition s_done (c : nat) (q : queue) (k : K) : K :=
  with_conditions (<[c := mkCond q]> (conditions k)) k.

Lemma Wait_sleeps c l k fs lk cond :
  running k fs → calm fs → stack_ok fs → locks k !! l = Some lk → currThread lk = Some (currentThread k) →
  conditions k !! c = Some cond →
  ∃ p k1 k', Wait c l k = Ret k' ∧ wf k' ∧ moved (r_done l lk k) k1 ∧
    quiet (blocked (InWait c l) (w_waits c cond p k1)) k'.
Proof.
  intros Hr Hcalm Hok Hl Ho Hc. unfold Wait. rewrite (find_Some _ _ _ Hl). cbn [mbind outcome_bind].
  unfold isHeldByCurrentThread. rewrite bool_decide_true by done. cbn [ASSERT mbind outcome_bind].
  destruct (Release_running l k fs lk Hr Hl Ho) as (k1 & -> & Hr1 & Hm). cbn [mbind outcome_bind].
  destruct (current_key_running _ _ Hr1) as [p Hp]. exists p, k1.
  assert (conditions k1 !! c = Some cond) as Hc1.
  { by rewrite (ss_conditions _ _ (mv_sync _ _ Hm)). }
  rewrite (find_Some _ _ _ Hc1), Hp. cbn [mbind outcome_bind].
  destruct (sleep_in_wf k1 (w_waits c cond p k1) fs (InWait c l) (QCond c) p (c_queue cond))
    as (k' & ? & ? & ?); try done.
  - cbn. by rewrite Hc1.
  - unfold w_waits. queue_cases.
  - intros q Hne. unfold w_waits. queue_cases.
  - by exists k'.
Qed.

Lemma Signal_running c l k fs lk cond :
  running k fs → locks k !! l = Some lk → currThread lk = Some (currentThread k) →
  conditions k !! c = Some cond →
  ∃ k', Signal c l k = Ret k' ∧ running k' fs ∧ moved (s_done c (tail (c_queue cond)) k) k'.
Proof.
  intros Hr Hl Ho Hc. unfold Signal. rewrite (find_Some _ _ _ Hl). cbn [mbind outcome_bind].
  unfold isHeldByCurrentThread. rewrite bool_decide_true by done. cbn [ASSERT mbind outcome_bind].
  rewrite (find_Some _ _ _ Hc). cbn [mbind outcome_bind]. pose proof (rn_placed _ _ Hr) as Hp.
  destruct (c_queue cond) as [|[p t] q] eqn:Eq; cbn [k_remove tail].
  - exists k. split; [done|]. split; [done|]. replace (s_done c [] k) with k; [apply moved_refl|].
    unfold s_done. rewrite insert_id; [by destruct k|]. rewrite Hc, <- Eq. by destruct cond.
  - destruct (wake_placed k (s_done c q k) _ (QCond c) p t q Hp) as (k' & Ek & Hp' & Hm); try done.
    { cbn. by rewrite Hc; cbn; rewrite Eq. }
    { unfold s_done. queue_cases. }
    { intros q' Hne. unfold s_done. queue_cases. }
    exists k'. split; [done|]. split; [by apply (running_moved_placed k (s_done c q k))|done].
Qed.

Lemma ready_all_placed c r l k :
  placed (s_done c l k) r ∅ →
  ∃ k', ready_all l (s_done c [] k) = Ret k' ∧ placed k' r ∅ ∧ moved (s_done c [] k) k'.
Proof.
  revert k. induction l as [|[p t] l IH]; intros k Hp; cbn [ready_all].
  - exists (s_done c [] k). split; [done|]. split; [done|apply moved_refl].
  - destruct (wake_placed (s_done c ((p, t) :: l) k) (s_done c l k) r (QCond c) p t l Hp)
      as (k1 & Ek & Hp1 & Hm1); try done.
    { unfold s_done. queue_cases. }
    { unfold s_done. queue_cases. }
    { intros q' Hne. unfold s_done. queue_cases. }
    destruct (pl_queue _ _ _ Hp (QCond c) ((p, t) :: l)) as [_ Hin]; [unfold s_done; queue_cases|].
    destruct (Hin t) as (_ & th & _ & _ & Hth & _); [constructor|].
    rewrite (ReadyToRun_eq t th) in Ek |- * by done. cbn [mbind outcome_bind].
    injection Ek as <-. set (k2 := with_ready (k_insert (key th) t (readyList k))
      (with_threads (<[t := set_status READY th]> (threads k)) k)).
    destruct (IH k2 Hp1) as (k' & E' & Hp' & Hm). exists k'. split; [done|]. split; [done|].
    eapply moved_trans; [|exact Hm]. destruct Hm1 as [? ? [] ?]. by split.
Qed.

Lemma Broadcast_running c l k fs lk cond :
  running k fs → locks k !! l = Some lk → currThread lk = Some (currentThread k) →
  conditions k !! c = Some cond →
  ∃ k', Broadcast c l k = Ret k' ∧ running k' fs ∧ moved (s_done c [] k) k'.
Proof.
  intros Hr Hl Ho Hc. unfold Broadcast. rewrite (find_Some _ _ _ Hl). cbn [mbind outcome_bind].
  unfold isHeldByCurrentThread. rewrite bool_decide_true by done. cbn [ASSERT mbind outcome_bind].
  rewrite (find_Some _ _ _ Hc). cbn [mbind outcome_bind]. fold (s_done c [] k).
  destruct (ready_all_placed c (Some (currentThread k)) (c_queue cond) k) as (k' & E & Hp & Hm).
  { replace (s_done c (c_queue cond) k) with k; [apply Hr|].
    unfold s_done. rewrite insert_id; [by destruct k|]. rewrite Hc. by destruct cond. }
  exists k'. split; [done|]. split; [by apply (running_moved_placed k (s_done c [] k))|done].
Qed.

(** *** The current thread itself *)
Definition current_with (f : Thread U → Thread U) (k : K) : K :=
  with_threads (alter f (currentThread k) (threads k)) k.

Lemma alter_insert (m : gmap nat (Thread U)) t f th : m !! t = Some th → alter f t m = <[t := f th]> m.
Proof.
  intros E. apply map_eq. intros t'. destruct (decide (t' = t)) as [->|].
  - by rewrite lookup_insert_eq, lookup_alter_eq, E.
  - by rewrite lookup_insert_ne, lookup_alter_ne.
Qed.

Lemma update_current f k fs fs' :
  running k fs → (∀ th, status (f th) = status th) → (∀ th, frames th = fs → frames (f th) = fs') →
  update_thread (currentThread k) f k = Ret (current_with f k) ∧ running (current_with f k) fs'.
Proof.
  intros [Hi Hp (th & Hth & Hfs)] Hst Hf. unfold update_thread, current_with.
  rewrite (find_Some _ _ _ Hth), (alter_insert _ _ _ th Hth). split; [done|]. split; [done|..].
  - destruct (pl_running _ _ _ Hp _ eq_refl) as (th0 & Hth0 & Hs0). rewrite Hth in Hth0.
    injection Hth0 as <-. eapply placed_set; eauto. apply not_elem_of_empty.
  - exists (f th). cbn. rewrite lookup_insert_eq. auto.
Qed.

(** Setting the priority of any thread. *)
Lemma set_key_running t p k fs :
  running k fs → is_Some (threads k !! t) →
  ∃ k', update_thread t (set_key p) k = Ret k' ∧ running k' fs.
Proof.
  intros [Hi Hp (th & Hth & Hfs)] [th0 Hth0]. unfold update_thread. rewrite (find_Some _ _ _ Hth0).
  eexists. split; [done|]. split; [done|..].
  - eapply placed_set; eauto. apply not_elem_of_empty.
  - cbn. rewrite lookup_insert. case_decide as E; [|eauto]. subst. rewrite Hth in Hth0.
    injection Hth0 as <-. eexists. split; [done|]. done.
Qed.

Lemma Yield_wf k fs :
  running k fs → stack_ok fs → ∃ k', Yield k = Ret k' ∧ wf k' ∧ quiet k k'.
Proof.
  intros Hr Hok. destruct Hr as [Hi Hp (th & Hth & <-)] eqn:Er.
  unfold Yield, FindNextToRun. destruct (readyList k) as [|[p t] q] eqn:Eq; cbn [k_remove].
  - exists k. split; [done|]. split; [by eapply running_wf|apply quiet_refl].
  - pose proof (placed_take k _ ∅ p t q Hp Eq) as Hp1.
    assert (t ≠ currentThread k) as Hne.
    { destruct (pl_ready _ _ _ Hp t) as (_ & th1 & Hth1 & Hs1); [rewrite Eq; constructor|].
      destruct (pl_running _ _ _ Hp _ eq_refl) as (th2 & Hth2 & Hs2). congruence. }
    pose proof (placed_stop _ _ _ th Hp1 Hth Hok) as Hp2.
    destruct (ready_moved _ _ _ (currentThread k) Hp2) as (k1 & E1 & Hp3 & Hm); [set_solver|].
    replace (({[currentThread k]} ∪ ({[t]} ∪ ∅)) ∖ {[currentThread k]}) with ({[t]} : gset nat) in Hp3 by set_solver.
    change (currentThread (with_ready q k)) with (currentThread k) in E1 |- *. rewrite E1. cbn [mbind outcome_bind].
    destruct (Run_placed k1 t Hp3) as (k' & E' & Hp' & Hq & Hc & Hi' & Hex).
    exists k'. split; [done|]. split.
    + unfold wf. rewrite Hi', (mv_idle _ _ Hm). change (idle (with_ready q k)) with (idle k). rewrite Hi, Hc. done.
    + eapply quiet_trans; [|exact Hq]. eapply quiet_trans; [|by apply moved_quiet]. by apply quiet_same.
Qed.

(** *** Death *)

(** The current thread at the end of [Finish]. *)
Definition dead (k : K) : K :=
  log (Finished (currentThread k)) (with_destroy (Some (currentThread k))
    (current_with (λ th, set_status BLOCKED (set_frames [] th)) k)).

Lemma finish_wf k fs :
  running k fs → ∃ k', finish k = Ret k' ∧ wf k' ∧ quiet (dead k) k'.
Proof.
  intros Hr. pose proof Hr as [Hi Hp (th & Hth & <-)].
  destruct (pl_running _ _ _ Hp _ eq_refl) as (th0 & Hth0 & Hs0). rewrite Hth in Hth0. injection Hth0 as <-.
  assert (finish k = dispatch (dead k)) as ->.
  { unfold finish, Sleep, update_thread, find. cbn [threads log with_destroy]. rewrite Hth.
    cbn [mbind outcome_bind threads with_threads currentThread log with_destroy]. rewrite lookup_insert_eq.
    cbn [mbind outcome_bind]. unfold dead, current_with. rewrite (alter_insert _ _ _ th Hth).
    by rewrite insert_insert_eq. }
  apply dispatch_wf.
  - pose proof (placed_set k _ th (set_frames [InFinish] th) _ _ Hp Hth eq_refl (not_elem_of_empty _)
      (or_intror Hs0)) as Hp1.
    pose proof (placed_stop _ _ _ (set_frames [InFinish] th) Hp1 (lookup_insert_eq _ _ _) I) as Hp2.
    pose proof (placed_die _ _ (set_status BLOCKED (set_frames [] th)) ∅ Hp2 (not_elem_of_empty _) eq_refl eq_refl) as Hp3.
    eapply placed_same; [exact Hp3|try done..]. cbn. rewrite (alter_insert _ _ _ th Hth).
    by rewrite insert_insert_eq.
  - cbn. rewrite lookup_alter_eq, Hth. by eexists.
Qed.

(** *** Objects that come and go *)
Lemma queue_fresh k r L q : placed k r L → qid_id q = next_id k → queue_of k q = None.
Proof.
  intros Hp Hq. destruct (queue_of k q) as [l|] eqn:E; [|done].
  pose proof (pl_ids_queues _ _ _ Hp q l E). lia.
Qed.

Lemma placed_new_queue k k' r L q :
  placed k r L → qid_id q = next_id k → queue_of k' q = Some [] →
  (∀ q', q' ≠ q → queue_of k' q' = queue_of k q') → readyList k' = readyList k →
  threads k' = threads k → threadToBeDestroyed k' = threadToBeDestroyed k →
  next_id k' = S (next_id k) → placed k' r L.
Proof.
  intros Hp Hq Eq Eo Er Et Ed En. destruct Hp. split; rewrite ?Er, ?Et, ?Ed, ?En; try done.
  - intros q' l E. destruct (decide (q' = q)) as [->|].
    + rewrite Eq in E. injection E as <-. split; [constructor|]. intros t Ht. by apply elem_of_nil in Ht.
    + rewrite Eo in E by done. by apply pl_queue0.
  - intros t th E Hl. specialize (pl_thread0 t th E Hl). destruct (status th) eqn:Hs; try done.
    destruct pl_thread0 as [|(? & f & rest & q' & Hf & Hw & Hin)]; [by left|]. right.
    split; [done|]. exists f, rest, q'. split_and!; [done..|]. rewrite Eo; [done|]. intros ->.
    pose proof (pl_ids_waits0 t th f rest q E Hs Hf Hw). lia.
  - intros t th E. specialize (pl_ids_threads0 t th E). lia.
  - intros q' l E. destruct (decide (q' = q)) as [->|]; [lia|]. rewrite Eo in E by done.
    specialize (pl_ids_queues0 q' l E). lia.
  - intros t th f rest q' H1 H2 H3 H4. specialize (pl_ids_waits0 t th f rest q' H1 H2 H3 H4). lia.
Qed.

Lemma placed_delete_queue k k' r L q :
  placed k r L → queue_of k' q = None → (∀ q', q' ≠ q → queue_of k' q' = queue_of k q') →
  readyList k' = readyList k → threads k' = threads k →
  threadToBeDestroyed k' = threadToBeDestroyed k → next_id k' = next_id k → placed k' r L.
Proof.
  intros Hp Eq Eo Er Et Ed En. destruct Hp. split; rewrite ?Er, ?Et, ?Ed, ?En; try done.
  - intros q' l E. destruct (decide (q' = q)) as [->|]; [congruence|]. rewrite Eo in E by done.
    by apply pl_queue0.
  - intros t th E Hl. specialize (pl_thread0 t th E Hl). destruct (status th) eqn:Hs; try done.
    destruct pl_thread0 as [|(? & f & rest & q' & Hf & Hw & Hin)]; [by left|]. right.
    split; [done|]. exists f, rest, q'. split_and!; [done..|].
    destruct (decide (q' = q)) as [->|]; [by rewrite Eq|by rewrite Eo].
  - intros q' l E. destruct (decide (q' = q)) as [->|]; [congruence|]. rewrite Eo in E by done.
    by eapply pl_ids_queues0.
Qed.

(** A thread that was not there. *)
Lemma placed_new_thread k t th r L :
  placed k r L → threads k !! t = None → (t < next_id k)%nat →
  status th = JUST_CREATED → (∃ u, frames th = [InUser u]) →
  placed (with_threads (<[t := th]> (threads k)) k) r L.
Proof.
  intros Hp Hn Ht Hs Hf.
  assert (∀ t' th', threads k !! t' = Some th' → <[t := th]> (threads k) !! t' = Some th') as Hk.
  { intros t' th' E. rewrite lookup_insert_ne; [done|congruence]. }
  destruct Hp. split; cbn [readyList with_threads threads threadToBeDestroyed next_id]; try done.
  - intros t' Hin. destruct (pl_ready0 t' Hin) as (? & th' & E & ?). eauto.
  - intros q l E. destruct (pl_queue0 q l E) as [? Hin]. split; [done|]. intros t' Ht'.
    destruct (Hin t' Ht') as (? & th' & f & rest & E' & ?). eauto 10.
  - intros t' th' E Hl. apply lookup_insert_Some in E as [[<- <-]|[_ E]]; [by rewrite Hs|by apply pl_thread0].
  - intros t' Hl. destruct (pl_limbo0 t' Hl) as (? & ? & th' & ? & ?). eauto 10.
  - intros t' E. destruct (pl_running0 t' E) as (th' & ? & ?). eauto.
  - intros t' E. destruct (pl_destroy0 t' E) as (th' & ? & ?). eauto.
  - intros t' th' E. apply lookup_insert_Some in E as [[<- <-]|[_ E]]; [done|by eapply pl_ids_threads0].
  - intros t' th' f rest q E Hs' Hf' Hw. apply lookup_insert_Some in E as [[<- <-]|[_ E]]; [congruence|].
    by eapply pl_ids_waits0.
Qed.

(** A created thread is on its way to the ready list. *)
Lemma placed_fork k t th r L :
  placed k r L → threads k !! t = Some th → status th = JUST_CREATED → t ∉ L →
  placed k r ({[t]} ∪ L).
Proof.
  intros Hp Hth Hs HL.
  assert (∀ t' th', threads k !! t' = Some th' → status th' ≠ JUST_CREATED → t' ∉ L → t' ∉ {[t]} ∪ L) as Hlim.
  { intros t' th' E Hn Hl. rewrite elem_of_union, elem_of_singleton. intros [->|]; congruence. }
  destruct Hp. split; try done.
  - intros t' Hin. destruct (pl_ready0 t' Hin) as (Hl & th' & E & ?). split; [|eauto].
    eapply Hlim; [done|congruence|done].
  - intros q l E. destruct (pl_queue0 q l E) as [? Hin]. split; [done|]. intros t' Ht'.
    destruct (Hin t' Ht') as (Hl & th' & f & rest & E' & ? & ?). split; [|eauto 10].
    eapply Hlim; [done|congruence|done].
  - intros t' th' E Hl. apply pl_thread0; [done|]. intros ?. apply Hl. by apply elem_of_union_r.
  - intros t'. rewrite elem_of_union, elem_of_singleton. intros [->|Hl]; [|by apply pl_limbo0].
    specialize (pl_thread0 t th Hth HL). rewrite Hs in pl_thread0. split_and!.
    + intros E. destruct (pl_running0 t E) as (? & ? & ?). congruence.
    + intros E. destruct (pl_destroy0 t E) as (? & ? & ? & ?). congruence.
    + exists th. split; [done|]. by destruct pl_thread0 as [u ->].
Qed.

Lemma Fork_running t k fs th :
  running k fs → threads k !! t = Some th → status th = JUST_CREATED →
  ∃ k', Fork t k = Ret k' ∧ running k' fs ∧ moved k k'.
Proof.
  intros Hr Hth Hs. unfold Fork. rewrite (find_Some _ _ _ Hth). cbn [mbind outcome_bind].
  rewrite bool_decide_true by done. cbn [defined_if mbind outcome_bind].
  pose proof (placed_fork k t th _ ∅ (rn_placed _ _ Hr) Hth Hs (not_elem_of_empty _)) as Hp.
  destruct (ready_moved _ _ _ t Hp) as (k' & E & Hp' & Hm); [set_solver|].
  exists k'. split; [done|]. split; [|done]. apply (running_moved k); [done|done|].
  by replace (({[t]} ∪ ∅) ∖ {[t]}) with (∅ : gset nat) in Hp' by set_solver.
Qed.
End routines.

End Threads.
