(* ===== verification/Steps.v ===== *)
(** * Every step of the kernel

    A step of [Kernel.schedule] is a sequence of a few kinds of atomic changes ([atom]), and
    keeps every thread in its place ([Threads.wf]).  An invariant of the objects therefore
    has one case per kind of change.  The changes are relative to [rules], which say what the code
    of the threads does not do, for invariants that hold for some programs only. *)

From S2P Require Import Prelude CInt NList Kernel Threads.
From stdpp Require Import sorting.
Import Kernel.Kernel Threads.Threads.

Open Scope Z_scope.

Module Steps.

Section steps.
Context {U G : Type}.
Abbreviation K := (Kernel U G).
Implicit Types (k : K) (th : Thread U).

(** [P] and [Acquire] start again when the thread is woken: the frame they were suspended in goes
    away together with their next change of the object. *)
Definition popped (f : frame U) (k k0 : K) : Prop :=
  (k0 = k ∧ ∃ th, threads k !! currentThread k = Some th ∧ calm (frames th)) ∨
  ∃ th rest, threads k !! currentThread k = Some th ∧ frames th = f :: rest ∧ calm rest ∧
    k0 = current_with (set_frames rest) k.

(** Threads on a queue sleep in the routine that the queue belongs to. *)
Definition sleepers (k : K) (q : qid) (l : queue) : Prop :=
  NoDup (l.*2) ∧ ∀ t, t ∈ l.*2 → ∃ th f rest, threads k !! t = Some th ∧
    frames th = f :: rest ∧ waits_on f = Some q.

(** What a change may do: the locks it may touch, the code of the threads it may make, the code
    that may end, and whether the code of the current thread may go on. *)
Record rules := mkRules {
  may_lock : nat → Prop; may_start : U → Prop; may_end : U → Prop; may_go_on : Prop }.
Definition everything : rules := mkRules (λ _, True) (λ _, True) (λ _, True) True.

Context (R : rules).

(** [asks]: the next thing the thread does is to ask for a semaphore or a lock. *)
Definition asks (f : frame U) : Prop := match f with InP _ | InAcquire _ => True | _ => False end.
Definition unasking (fs : list (frame U)) : Prop := ∀ f rest, fs = f :: rest → ¬ asks f.

(** How the stack of the current thread may change. *)
Inductive turns (fs : list (frame U)) : list (frame U) → Prop :=
  | turn_same : turns fs fs
  | turn_join t : calm fs → turns fs (InJoin t :: fs)
  | turn_pop f rest : fs = f :: rest → calm rest →
      match f with InJoin _ | InFinish => True | InWait _ l => may_lock R l | _ => False end →
      turns fs rest
  | turn_finish fs' : fs = [] ∨ (∃ u, fs = [InUser u] ∧ may_end R u) →
      fs' = [] ∨ fs' = [InFinish] → turns fs fs'
  | turn_any fs' : may_go_on R → turns fs fs'.

Inductive atom (k : K) : K → Prop :=
  | at_quiet k' : quiet k k' → atom k k'
  | at_p_done s sem k0 : popped (InP s) k k0 → semaphores k !! s = Some sem → value sem ≠ 0 →
      atom k (p_done s sem k0)
  | at_p_waits s sem p k0 : popped (InP s) k k0 → semaphores k !! s = Some sem → value sem = 0 →
      atom k (blocked (InP s) (p_waits s sem p k0))
  | at_v_done s sem : semaphores k !! s = Some sem → sleepers k (QSem s) (s_queue sem) →
      atom k (v_done s sem k)
  | at_a_done l lk k0 : may_lock R l → popped (InAcquire l) k k0 → locks k !! l = Some lk →
      isLocked lk = false → atom k (a_done l lk k0)
  | at_a_waits l lk p k0 : may_lock R l → popped (InAcquire l) k k0 → locks k !! l = Some lk →
      isLocked lk = true → atom k (blocked (InAcquire l) (a_waits l lk p k0))
  | at_r_done l lk : may_lock R l → locks k !! l = Some lk → currThread lk = Some (currentThread k) →
      sleepers k (QLock l) (l_queue lk) → atom k (r_done l lk k)
  | at_w_waits c cond p l : may_lock R l → (∀ th, threads k !! currentThread k = Some th → calm (frames th)) →
      atom k (blocked (InWait c l) (w_waits c cond p k))
  | at_s_done c q : atom k (s_done c q k)
  | at_new_semaphore v : atom k (new_semaphore v k).1
  | at_new_lock : locks k !! next_id k = None → atom k (new_lock k).1
  | at_new_condition : atom k (new_condition k).1
  | at_delete_semaphore s : atom k (with_semaphores (delete s (semaphores k)) k)
  | at_delete_lock l lk : locks k !! l = Some lk → isLocked lk = false →
      atom k (with_locks (delete l (locks k)) k)
  | at_delete_condition c : atom k (with_conditions (delete c (conditions k)) k)
  | at_new_thread t th u : threads k !! t = None → frames th = [InUser u] → may_start R u →
      atom k (with_threads (<[t := th]> (threads k)) k)
  | at_thread t th f : threads k !! t = Some th → frames (f th) = frames th →
      atom k (with_threads (<[t := f th]> (threads k)) k)
  | at_current f : (∀ th, threads k !! currentThread k = Some th →
      unasking (frames th) ∧ turns (frames th) (frames (f th))) → atom k (current_with f k)
  | at_next_id : atom k (with_next_id (S (next_id k)) k)
  | at_shared g : may_go_on R → atom k (with_shared g k)
  | at_joined t : atom k (log (Joined t (currentThread k)) k)
  | at_finished : atom k (log (Finished (currentThread k)) (with_destroy (Some (currentThread k)) k)).

Abbreviation atoms := (rtc atom).

(** What a routine that returns has done. *)
Record done_by (k k' : K) : Prop := { db_wf : wf k'; db_atoms : atoms k k' }.

Lemma one k k' : atom k k' → atoms k k'.
Proof. apply rtc_once. Qed.

Lemma atoms_moved k k0 k' : atom k k0 → moved k0 k' → atoms k k'.
Proof. intros ? ?. eapply rtc_l; [done|]. apply one, at_quiet. by apply moved_quiet. Qed.

Lemma atoms_quiet k k0 k' : atom k k0 → quiet k0 k' → atoms k k'.
Proof. intros ? ?. eapply rtc_l; [done|]. by apply one, at_quiet. Qed.

Lemma placed_sleepers k r L q l : placed k r L → queue_of k q = Some l → sleepers k q l.
Proof.
  intros Hp E. destruct (pl_queue _ _ _ Hp q l E) as [? Hin]. split; [done|]. intros t Ht.
  destruct (Hin t Ht) as (_ & th & f & rest & ? & _ & ? & ?). eauto 10.
Qed.

Lemma find_inv {A} (m : gmap nat A) i a : find m i = Ret a → m !! i = Some a.
Proof. unfold find. destruct (m !! i); [|done]. by intros [= ->]. Qed.

Lemma popped_here f k fs : running k fs → calm fs → popped f k k.
Proof. intros [_ _ (th & ? & <-)] ?. left. eauto. Qed.

Lemma current_calm k fs : running k fs → calm fs → ∀ th, threads k !! currentThread k = Some th → calm (frames th).
Proof. intros [_ _ (th0 & Hth0 & <-)] ? th Hth. rewrite Hth in Hth0. by injection Hth0 as <-. Qed.

Lemma calm_unasking fs : calm fs → unasking fs.
Proof. intros Hc f rest -> Ha. by destruct f. Qed.

Lemma at_current_running f k fs fs' :
  running k fs → (∀ th, frames th = fs → frames (f th) = fs') → unasking fs → turns fs fs' →
  atom k (current_with f k).
Proof.
  intros [_ _ (th0 & Hth0 & <-)] Hf Hu Ht. apply at_current. intros th Hth. rewrite Hth in Hth0.
  injection Hth0 as <-. split; [done|]. by rewrite (Hf th).
Qed.

(** *** Each routine, from a thread at its start or woken in it *)

Lemma popped_semaphores f k k0 : popped f k k0 → semaphores k0 = semaphores k.
Proof. by intros [[-> _]|(? & ? & ? & ? & ? & ->)]. Qed.

Lemma popped_locks f k k0 : popped f k k0 → locks k0 = locks k.
Proof. by intros [[-> _]|(? & ? & ? & ? & ? & ->)]. Qed.

Lemma P_done_by s k k0 fs k' :
  popped (InP s) k k0 → running k0 fs → calm fs → stack_ok fs → P s k0 = Ret k' → done_by k k'.
Proof.
  intros Hpop Hr Hc Hok E. assert (∃ sem, semaphores k0 !! s = Some sem) as [sem Hs].
  { unfold P in E. inv_ret. eauto using find_inv. }
  pose proof Hs as Hs'. rewrite (popped_semaphores _ _ _ Hpop) in Hs'.
  destruct (decide (value sem = 0)) as [Hv|Hv].
  - destruct (P_sleeps s k0 fs sem Hr Hc Hok Hs Hv) as (p & k1 & E1 & Hwf & Hq).
    rewrite E1 in E. injection E as <-. split; [done|]. eapply atoms_quiet; [|done]. by eapply at_p_waits.
  - destruct (P_passes s k0 fs sem Hr Hs Hv) as [E1 Hr1]. rewrite E1 in E. injection E as <-.
    split; [by eapply running_wf|]. apply one. by eapply at_p_done.
Qed.

Lemma V_done s k r k' :
  placed k r ∅ → V s k = Ret k' →
  placed k' r ∅ ∧ atoms k k' ∧ ∃ sem, semaphores k !! s = Some sem ∧ moved (v_done s sem k) k'.
Proof.
  intros Hp E. assert (∃ sem, semaphores k !! s = Some sem) as [sem Hs].
  { unfold V in E. inv_ret. eauto using find_inv. }
  destruct (V_placed s k r sem Hp Hs) as (k1 & E1 & Hp1 & Hm). rewrite E1 in E. injection E as <-.
  split; [done|]. split; [|eauto]. eapply atoms_moved; [|done]. apply at_v_done; [done|].
  eapply placed_sleepers; [done|]. cbn. by rewrite Hs.
Qed.

Lemma V_done_by s k fs k' :
  running k fs → V s k = Ret k' → running k' fs ∧ atoms k k'.
Proof.
  intros Hr E. destruct (V_done s k _ k' (rn_placed _ _ Hr) E) as (_ & Ha & sem & Hs & _).
  destruct (V_running s k fs sem Hr Hs) as (k1 & E1 & Hr1 & _). rewrite E1 in E. by injection E as <-.
Qed.

Lemma acquire_done_by l k k0 fs k' :
  may_lock R l → popped (InAcquire l) k k0 → running k0 fs → calm fs → stack_ok fs →
  acquire_loop l k0 = Ret k' → done_by k k'.
Proof.
  intros HR Hpop Hr Hc Hok E. assert (∃ lk, locks k0 !! l = Some lk) as [lk Hl].
  { unfold acquire_loop in E. inv_ret. eauto using find_inv. }
  pose proof Hl as Hl'. rewrite (popped_locks _ _ _ Hpop) in Hl'.
  destruct (isLocked lk) eqn:Hb.
  - destruct (acquire_sleeps l k0 fs lk Hr Hc Hok Hl Hb) as (p & k1 & E1 & Hwf & Hq).
    rewrite E1 in E. injection E as <-. split; [done|]. eapply atoms_quiet; [|done]. by eapply at_a_waits.
  - destruct (acquire_passes l k0 fs lk Hr Hl Hb) as [E1 Hr1]. rewrite E1 in E. injection E as <-.
    split; [by eapply running_wf|]. apply one. by eapply at_a_done.
Qed.

Lemma Acquire_done_by l k fs k' :
  may_lock R l → running k fs → calm fs → stack_ok fs → Acquire l k = Ret k' → done_by k k'.
Proof.
  intros HR Hr Hc Hok E. unfold Acquire in E. inv_ret. eapply acquire_done_by; try done. by eapply popped_here.
Qed.

Lemma held_inv lk k : isHeldByCurrentThread lk k = true → currThread lk = Some (currentThread k).
Proof. unfold isHeldByCurrentThread. by intros ?%bool_decide_eq_true. Qed.

Lemma Release_done_by l k fs k' :
  may_lock R l → running k fs → Release l k = Ret k' → running k' fs ∧ atoms k k'.
Proof.
  intros HR Hr E. pose proof E as E'. unfold Release in E'. inv_ret. apply find_inv in Hrun.
  apply held_inv in Hrun0.
  destruct (Release_running l k fs r Hr Hrun Hrun0) as (k1 & E1 & Hr1 & Hm).
  rewrite E1 in E. injection E as <-. split; [done|]. eapply atoms_moved; [|done].
  apply at_r_done; [done..|]. eapply placed_sleepers; [apply Hr|]. cbn. by rewrite Hrun.
Qed.

Lemma Wait_done_by c l k fs k' :
  may_lock R l → running k fs → calm fs → stack_ok fs → Wait c l k = Ret k' → done_by k k'.
Proof.
  intros HR Hr Hcalm Hok E. pose proof E as E'. unfold Wait in E'. inv_ret.
  apply find_inv in Hrun. apply held_inv in Hrun0. apply find_inv in Hrun2.
  destruct (Release_running l k fs r Hr Hrun Hrun0) as (k2 & E2 & _ & Hm2). rewrite E2 in Hrun1.
  injection Hrun1 as <-. rewrite (ss_conditions _ _ (mv_sync _ _ Hm2)) in Hrun2.
  destruct (Wait_sleeps c l k fs r r2 Hr Hcalm Hok Hrun Hrun0 ltac:(done)) as (p & k1 & k3 & E3 & Hwf & Hm & Hq).
  rewrite E3 in E. injection E as <-. split; [done|].
  transitivity k1; [|eapply atoms_quiet; [apply at_w_waits; [done|]|done]].
  - eapply atoms_moved; [|done]. apply at_r_done; [done..|].
    eapply placed_sleepers; [apply Hr|]. cbn. by rewrite Hrun.
  - intros th Hth. rewrite (mv_current _ _ Hm) in Hth.
    destruct (moved_thread' _ _ _ _ Hm Hth) as (th0 & Hth0 & Hcore). unfold core in Hcore.
    injection Hcore as _ _ _ _ _ ->. by eapply current_calm.
Qed.

Lemma Signal_done_by c l k fs k' :
  running k fs → Signal c l k = Ret k' → running k' fs ∧ atoms k k'.
Proof.
  intros Hr E. pose proof E as E'. unfold Signal in E'. inv_ret.
  apply find_inv in Hrun. apply held_inv in Hrun0. apply find_inv in Hrun1.
  destruct (Signal_running c l k fs r r1 Hr Hrun Hrun0 Hrun1) as (k1 & E1 & Hr1 & Hm).
  rewrite E1 in E. injection E as <-. split; [done|]. eapply atoms_moved; [apply at_s_done|done].
Qed.

Lemma Broadcast_done_by c l k fs k' :
  running k fs → Broadcast c l k = Ret k' → running k' fs ∧ atoms k k'.
Proof.
  intros Hr E. pose proof E as E'. unfold Broadcast in E'. inv_ret.
  apply find_inv in Hrun. apply held_inv in Hrun0. apply find_inv in Hrun1.
  destruct (Broadcast_running c l k fs r r1 Hr Hrun Hrun0 Hrun1) as (k1 & E1 & Hr1 & Hm).
  rewrite E1 in E. injection E as <-. split; [done|]. eapply atoms_moved; [apply at_s_done|done].
Qed.

Lemma Fork_done_by t k fs k' :
  running k fs → Fork t k = Ret k' → running k' fs ∧ atoms k k'.
Proof.
  intros Hr E. pose proof E as E'. unfold Fork in E'. inv_ret. apply find_inv in Hrun.
  apply bool_decide_eq_true in Hrun0.
  destruct (Fork_running t k fs r Hr Hrun Hrun0) as (k1 & E1 & Hr1 & Hm).
  rewrite E1 in E. injection E as <-. split; [done|]. by apply one, at_quiet, moved_quiet.
Qed.

(** *** New objects *)
Lemma new_semaphore_running v k fs : running k fs → running (new_semaphore v k).1 fs.
Proof.
  intros Hr. apply (running_same k); [done|..]; try done.
  apply (placed_new_queue k _ _ _ (QSem (next_id k)) (rn_placed _ _ Hr)); try done.
  - cbn. by rewrite lookup_insert_eq.
  - intros q Hne. change (queue_of (new_semaphore v k).1 q) with (queue_of (with_semaphores
      (<[next_id k := mkSem (s32 v) []]> (semaphores k)) k) q). queue_cases.
Qed.

Lemma new_lock_running k fs : running k fs → running (new_lock k).1 fs.
Proof.
  intros Hr. apply (running_same k); [done|..]; try done.
  apply (placed_new_queue k _ _ _ (QLock (next_id k)) (rn_placed _ _ Hr)); try done.
  - cbn. by rewrite lookup_insert_eq.
  - intros q Hne. change (queue_of (new_lock k).1 q) with (queue_of (with_locks
      (<[next_id k := mkLock false [] None]> (locks k)) k) q). queue_cases.
Qed.

Lemma new_condition_running k fs : running k fs → running (new_condition k).1 fs.
Proof.
  intros Hr. apply (running_same k); [done|..]; try done.
  apply (placed_new_queue k _ _ _ (QCond (next_id k)) (rn_placed _ _ Hr)); try done.
  - cbn. by rewrite lookup_insert_eq.
  - intros q Hne. change (queue_of (new_condition k).1 q) with (queue_of (with_conditions
      (<[next_id k := mkCond []]> (conditions k)) k) q). queue_cases.
Qed.

Lemma delete_semaphore_done_by s k fs k' :
  running k fs → delete_semaphore s k = Ret k' → running k' fs ∧ atoms k k'.
Proof.
  intros Hr E. unfold delete_semaphore in E. inv_ret. split; [|apply one, at_delete_semaphore].
  apply (running_same k); [done|..]; try done.
  apply (placed_delete_queue k _ _ _ (QSem s) (rn_placed _ _ Hr)); try done.
  - cbn. by rewrite lookup_delete_eq.
  - intros [s'|l|c] Hne; cbn; try done. rewrite lookup_delete_ne; [done|congruence].
Qed.

Lemma delete_lock_done_by l k fs k' :
  running k fs → delete_lock l k = Ret k' → running k' fs ∧ atoms k k'.
Proof.
  intros Hr E. unfold delete_lock in E. inv_ret. apply negb_true_iff in Hrun0. apply find_inv in Hrun.
  split; [|by eapply one, at_delete_lock].
  apply (running_same k); [done|..]; try done.
  apply (placed_delete_queue k _ _ _ (QLock l) (rn_placed _ _ Hr)); try done.
  - cbn. by rewrite lookup_delete_eq.
  - intros [s'|l'|c] Hne; cbn; try done. rewrite lookup_delete_ne; [done|congruence].
Qed.

Lemma delete_condition_done_by c k fs k' :
  running k fs → delete_condition c k = Ret k' → running k' fs ∧ atoms k k'.
Proof.
  intros Hr E. unfold delete_condition in E. inv_ret. split; [|apply one, at_delete_condition].
  apply (running_same k); [done|..]; try done.
  apply (placed_delete_queue k _ _ _ (QCond c) (rn_placed _ _ Hr)); try done.
  - cbn. by rewrite lookup_delete_eq.
  - intros [s'|l'|c'] Hne; cbn; try done. rewrite lookup_delete_ne; [done|congruence].
Qed.

Lemma next_id_running k fs : running k fs → running (with_next_id (S (next_id k)) k) fs.
Proof.
  intros Hr. apply (running_same k); [done|..]; try done.
  eapply placed_same; [apply Hr|try done..]. cbn. lia.
Qed.

(** The new thread's name is the first free number, and its stack its code. *)
Lemma Thread_new_spec code join k fs :
  may_start R code → running k fs → calm fs → ∃ k' th, Thread_new code join k = Ret (k', next_id k) ∧ running k' fs ∧ atoms k k' ∧
    threads k' = <[next_id k := th]> (threads k) ∧ status th = JUST_CREATED ∧ frames th = [InUser code] ∧
    joining th = join.
Proof.
  intros HR Hr Hcalm. set (t := next_id k). set (k1 := with_next_id (S t) k).
  assert (threads k !! t = None) as Hfree.
  { destruct (threads k !! t) as [th|] eqn:E; [|done].
    pose proof (pl_ids_threads _ _ _ (rn_placed _ _ Hr) t th E). lia. }
  assert (running k1 fs) as Hr1 by by apply next_id_running.
  assert (atoms k k1) as Ha1 by apply one, at_next_id.
  set (k2 := (new_semaphore 1 k1).1). assert (running k2 fs) as Hr2 by by apply new_semaphore_running.
  assert (atoms k k2) as Ha2 by (eapply rtc_r; [exact Ha1|apply at_new_semaphore]).
  assert (∀ k3 th, running k3 fs → atoms k k3 → threads k3 = threads k → (t < next_id k3)%nat →
    status th = JUST_CREATED → frames th = [InUser code] →
    running (with_threads (<[t := th]> (threads k3)) k3) fs ∧
    atoms k (with_threads (<[t := th]> (threads k3)) k3)) as Hend.
  { intros k3 th Hr3 Ha3 Et Hlt Hs Hf. split.
    - pose proof Hr3 as [Hi Hp (th0 & Hth0 & Hfs)]. split; [done|..].
      + apply placed_new_thread; try done; [by rewrite Et|eauto].
      + exists th0. cbn. rewrite lookup_insert_ne; [done|]. congruence.
    - eapply rtc_r; [exact Ha3|]. eapply at_new_thread; [by rewrite Et|done|done]. }
  unfold Thread_new. fold t. change (new_semaphore 1 (with_next_id (S t) k)) with (k2, S t).
  destruct join.
  - assert (semaphores k2 !! S t = Some (mkSem 1 [])) as Hs2 by apply lookup_insert_eq.
    destruct (P_passes (S t) k2 fs _ Hr2 Hs2) as [-> Hr3]; [done|]. cbn [mbind outcome_bind].
    set (k3 := p_done _ _ k2) in *.
    assert (atoms k k3) as Ha3 by (eapply rtc_r; [exact Ha2|]; apply at_p_done; [by eapply popped_here|done|done]).
    set (th := mkThread JUST_CREATED 0 true (next_id k3) (S t) None false [InUser code]).
    destruct (Hend (new_semaphore 0 k3).1 th) as [Hr4 Ha4]; try done.
    { by apply new_semaphore_running. }
    { eapply rtc_r; [exact Ha3|apply at_new_semaphore]. }
    { cbn. lia. }
    by exists (with_threads (<[t := th]> (threads (new_semaphore 0 k3).1)) (new_semaphore 0 k3).1), th.
  - cbn [mbind outcome_bind]. set (th := mkThread JUST_CREATED 0 false (S t) (S t) None false [InUser code]).
    destruct (Hend k2 th) as [Hr4 Ha4]; try done; [cbn; lia|].
    by exists (with_threads (<[t := th]> (threads k2)) k2), th.
Qed.

(** *** Death and joining *)

(** The code that ends may end. *)
Definition ending (fs : list (frame U)) : Prop := fs = [] ∨ ∃ u, fs = [InUser u] ∧ may_end R u.

Lemma ending_calm fs : ending fs → calm fs.
Proof. by intros [->|(u & -> & _)]. Qed.
Hint Resolve ending_calm calm_unasking : core.

Lemma finish_done_by k fs k' : running k fs → ending fs → finish k = Ret k' → done_by k k'.
Proof.
  intros Hr Hc E. destruct (finish_wf k fs Hr) as (k1 & E1 & Hwf & Hq). rewrite E1 in E. injection E as <-.
  split; [done|].
  eapply rtc_l; [eapply (at_current_running (λ th, set_status BLOCKED (set_frames [] th)) k fs []); eauto|].
  { apply turn_finish; [done|by left]. }
  eapply atoms_quiet; [apply at_finished|done].
Qed.

Lemma Finish_done_by k fs k' : running k fs → ending fs → Finish k = Ret k' → done_by k k'.
Proof.
  intros Hr Hc E. unfold Finish in E. inv_ret. destruct (joining r); [|by eapply finish_done_by].
  inv_ret. destruct (V_done_by _ _ _ _ Hr Hrun0) as [Hr1 Ha1].
  destruct (update_current (set_frames [InFinish]) _ fs [InFinish] Hr1) as [E2 Hr2]; [done..|].
  rewrite E2 in Hrun1. injection Hrun1 as <-.
  destruct (P_done_by (mayDie r) _ _ _ k' (popped_here _ _ _ Hr2 I) Hr2 I I E) as [Hwf Ha].
  split; [done|]. transitivity r0; [done|]. eapply rtc_l; [|exact Ha].
  eapply (at_current_running _ _ fs [InFinish]); [done|done|by eauto|]. apply turn_finish; [done|by right].
Qed.

Lemma Join_done_by t k fs k' :
  running k fs → calm fs → stack_ok fs → Join t k = Ret k' → done_by k k'.
Proof.
  intros Hr Hc Hok E. unfold Join in E. inv_ret.
  destruct (update_current (λ th, set_frames (InJoin t :: frames th) th) k fs (InJoin t :: fs) Hr) as [E2 Hr2];
    [done|by intros th <-|]. rewrite E2 in Hrun2. injection Hrun2 as <-.
  destruct (P_done_by _ _ _ _ k' (popped_here _ _ _ Hr2 I) Hr2 I (conj Hc Hok) E) as [Hwf Ha].
  split; [done|]. eapply rtc_l; [|exact Ha].
  eapply (at_current_running _ k fs (InJoin t :: fs)); [done|by intros th <-|by eauto|by apply turn_join].
Qed.

Lemma join_rest_done_by t k fs k' :
  running k fs → join_rest t k = Ret k' → running k' fs ∧ atoms k k'.
Proof.
  intros Hr E. unfold join_rest in E. inv_ret.
  destruct (update_current (set_exit (exitStatus r)) k fs fs Hr) as [E2 Hr2]; [done..|].
  rewrite E2 in Hrun0. injection Hrun0 as <-.
  destruct (V_done_by (mayDie r) (log (Joined t (currentThread k)) (current_with (set_exit (exitStatus r)) k)) fs k')
    as [Hr3 Ha3]; [|exact E|].
  { apply (running_same _ _ fs Hr2); try done. eapply placed_same; [apply Hr2|done..]. }
  split; [done|]. destruct Hr as [_ _ (th & Hth & _)].
  eapply rtc_l; [apply (at_thread k (currentThread k) th (set_exit (exitStatus r)) Hth); done|].
  unfold current_with in Ha3. rewrite (alter_insert _ _ _ _ Hth) in Ha3.
  eapply rtc_l; [|exact Ha3]. apply (at_joined (with_threads _ k)).
Qed.

(** *** A step *)

(** The call keeps to the rules. *)
Definition allowed (c : call U) (fs : list (frame U)) : Prop :=
  match c with
  | CallAcquire l | CallRelease l | CallWait _ l => may_lock R l
  | CallNewThread code _ => may_start R code
  | CallFinish => ending fs
  | _ => True
  end.

Lemma do_call_done_by c k fs k' :
  allowed c fs → running k fs → calm fs → stack_ok fs → do_call c k = Ret k' → done_by k k'.
Proof.
  intros HR Hr Hc Hok E.
  assert (∀ k1, running k1 fs ∧ atoms k k1 → k1 = k' → done_by k k') as Hrun.
  { intros k1 [Hr1 Ha] <-. split; [by eapply running_wf|done]. }
  destruct c as [|s|s|l|l|c l|c l|c l|code join|t|t|t p|st| |v|s| |l| |c]; cbn [do_call] in E.
  - destruct (Yield_wf k fs Hr Hok) as (k1 & E1 & Hwf & Hq). rewrite E1 in E. injection E as <-.
    split; [done|]. by apply one, at_quiet.
  - by eapply P_done_by; [eapply popped_here|..].
  - by eapply Hrun; [eapply V_done_by|].
  - by eapply Acquire_done_by.
  - by eapply Hrun; [eapply Release_done_by|].
  - by eapply Wait_done_by.
  - by eapply Hrun; [eapply Signal_done_by|].
  - by eapply Hrun; [eapply Broadcast_done_by|].
  - destruct (Thread_new_spec code join k fs HR Hr Hc) as (k1 & th & E1 & Hr1 & Ha1 & _). rewrite E1 in E.
    cbn [mbind outcome_bind] in E. injection E as E. by eapply Hrun.
  - by eapply Hrun; [eapply Fork_done_by|].
  - by eapply Join_done_by.
  - unfold update_thread in E. inv_ret. apply find_inv in Hrun0.
    destruct (set_key_running t p k fs Hr) as (k1 & E1 & Hr1); [by eexists|].
    unfold update_thread in E1. rewrite (find_Some _ _ _ Hrun0) in E1. injection E1 as <-.
    split; [by eapply running_wf|]. by apply one, at_thread.
  - destruct (update_current (set_exit (Some st)) k fs fs Hr) as [E1 Hr1]; [done..|]. rewrite E1 in E.
    injection E as <-. split; [by eapply running_wf|].
    eapply one, (at_current_running _ _ fs fs); [done|done|by eauto|apply turn_same].
  - by eapply Finish_done_by.
  - injection E as <-. eapply Hrun; [|done]. split; [by apply new_semaphore_running|apply one, at_new_semaphore].
  - by eapply Hrun; [eapply delete_semaphore_done_by|].
  - injection E as <-. eapply Hrun; [|done]. split; [by apply new_lock_running|apply one, at_new_lock].
    destruct (locks k !! next_id k) as [lk|] eqn:El; [|done].
    pose proof (queue_fresh k _ _ (QLock (next_id k)) (rn_placed _ _ Hr) eq_refl) as Hq. cbn in Hq. by rewrite El in Hq.
  - by eapply Hrun; [eapply delete_lock_done_by|].
  - injection E as <-. eapply Hrun; [|done].
    split; [by apply new_condition_running|apply one, at_new_condition].
  - by eapply Hrun; [eapply delete_condition_done_by|].
Qed.

Definition allowed_frame (f : frame U) : Prop :=
  match f with InAcquire l | InWait _ l => may_lock R l | _ => True end.

(** The current thread goes on in the routine on top of its stack. *)
Lemma resume_done_by f rest k k' :
  allowed_frame f → running k (f :: rest) → stack_ok (f :: rest) → (∀ u, f ≠ InUser u) →
  resume f (current_with (set_frames rest) k) = Ret k' → done_by k k'.
Proof.
  intros HR Hr Hok Hu E.
  destruct (update_current (set_frames rest) k (f :: rest) rest Hr) as [_ Hr1]; [done..|].
  assert (calm rest) as Hcr.
  { destruct f; try (by destruct Hok); by destruct rest. }
  assert (popped f k (current_with (set_frames rest) k)) as Hpop.
  { right. destruct Hr as [_ _ (th & ? & ?)]. eauto 10. }
  assert (¬ asks f → match f with InUser _ => False | _ => True end → atom k (current_with (set_frames rest) k)) as Ha.
  { intros Hn Hf. eapply (at_current_running _ _ (f :: rest) rest); [done|done| |].
    - by intros f' rest' [= -> ->].
    - eapply turn_pop; [done|done|]. by destruct f. }
  destruct f as [s|l|c l|t| |u]; cbn in E.
  - destruct Hok. by eapply P_done_by.
  - destruct Hok. by eapply acquire_done_by.
  - destruct Hok as [Hc' Hok]. destruct (Acquire_done_by l _ _ k' HR Hr1 Hc' Hok E) as [? ?].
    split; [done|]. eapply rtc_l; [by apply Ha; cbn; [tauto|]|done].
  - destruct Hok as [_ Hok]. destruct (join_rest_done_by t _ _ k' Hr1 E) as [? ?].
    split; [by eapply running_wf|]. eapply rtc_l; [by apply Ha; cbn; [tauto|]|done].
  - destruct rest as [|? ?]; [|done].
    destruct (finish_done_by _ _ k' Hr1 (or_introl eq_refl) E) as [? ?].
    split; [done|]. eapply rtc_l; [by apply Ha; cbn; [tauto|]|done].
  - by destruct (Hu u).
Qed.

Context (ustep : U → G → option (G * call U * (nat → U))).

(** The two ways the current thread goes on: in a routine of the kernel, or in its own code,
    which ends in [Finish] or in a call. *)
Lemma go_cases k k' :
  wf k → idle k = false → go ustep k = Ret k' →
  (∃ f rest, running k (f :: rest) ∧ stack_ok (f :: rest) ∧ (∀ u, f ≠ InUser u) ∧
     resume f (current_with (set_frames rest) k) = Ret k') ∨
  ∃ u, running k [InUser u] ∧ running (current_with (set_frames []) k) [] ∧
    match ustep u (shared k) with
    | None => Finish (current_with (set_frames []) k) = Ret k'
    | Some (g, c, next) => ∃ k3, running k3 [InUser (next (next_id k))] ∧
        k3 = with_shared g (current_with (set_frames [InUser (next (next_id k))])
          (current_with (set_frames []) k)) ∧ do_call c k3 = Ret k'
    end.
Proof.
  intros Hwf Hi E. destruct (wf_running k Hwf Hi) as (fs & Hr & Hok).
  destruct fs as [|f rest]; [done|]. unfold go in E. inv_ret. destruct r as [f' k1].
  assert (f' = f ∧ k1 = current_with (set_frames rest) k) as [-> ->].
  { unfold pop_frame in Hrun. inv_ret. apply find_inv in Hrun0. destruct Hr as [_ _ (th & Hth & Hf)].
    rewrite Hth in Hrun0. injection Hrun0 as <-. rewrite Hf in Hrun. inv_ret.
    unfold update_thread in Hrun0. rewrite (find_Some _ _ _ Hth) in Hrun0. inv_ret.
    unfold current_with. by rewrite (alter_insert _ _ _ _ Hth). }
  clear Hrun. destruct f as [s|l|c l|t| |u]; try (left; eexists _, _; split_and!; eauto; done).
  right. exists u. destruct rest as [|]; [|done].
  destruct (update_current (set_frames []) k [InUser u] [] Hr) as [_ Hr1]; [done..|].
  split; [done|]. split; [done|]. destruct (ustep u (shared k)) as [[[g c] next]|]; [|done].
  inv_ret. destruct (update_current (set_frames [InUser (next (next_id k))])
    (current_with (set_frames []) k) [] [InUser (next (next_id k))] Hr1) as [E2 Hr2]; [done..|].
  change (next_id (current_with (set_frames []) k)) with (next_id k) in Hrun.
  rewrite E2 in Hrun. injection Hrun as <-. eexists. split; [|split; [reflexivity|exact E]].
  apply (running_same _ _ _ Hr2); try done. eapply placed_same; [apply Hr2|done..].
Qed.

(** What happens without the current thread's doing. *)
Lemma event_done_by ch k k' : ch ≠ Go → wf k → schedule ustep ch k = Ret k' → done_by k k'.
Proof.
  intros Hne Hwf E. destruct ch as [| |s|]; cbn in E; inv_ret.
  - apply andb_true_iff in Hrun as [Hi%negb_true_iff _].
    destruct (wf_running k Hwf Hi) as (fs & Hr & Hok).
    destruct (Yield_wf k fs Hr Hok) as (k1 & E1 & Hwf1 & Hq). rewrite E1 in E. injection E as <-.
    split; [done|]. by apply one, at_quiet.
  - destruct (idle k) eqn:Hi.
    + pose proof Hwf as Hwf'. unfold wf in Hwf'. rewrite Hi in Hwf'. destruct Hwf' as [Hp [th Hth]].
      destruct (V_done s k None k' Hp E) as (Hp' & Ha & sem & Hs & Hm). split; [|done].
      unfold wf. rewrite (mv_idle _ _ Hm). cbn. rewrite Hi. split; [done|].
      rewrite (mv_current _ _ Hm). destruct (moved_thread _ _ (currentThread k) th Hm) as (? & ? & _); [done|].
      by eexists.
    + destruct (wf_running k Hwf Hi) as (fs & Hr & Hok). destruct (V_done_by s k fs k' Hr E) as [? ?].
      split; [by eapply running_wf|done].
  - unfold wf in Hwf. rewrite Hrun in Hwf. destruct Hwf as [Hp Hc].
    destruct (dispatch_wf k Hp Hc) as (k1 & E1 & Hwf1 & Hq). rewrite E1 in E. injection E as <-.
    split; [done|]. by apply one, at_quiet.
Qed.
End steps.

(** ** Any program *)
Section programs.
Context {U G : Type}.
Abbreviation K := (Kernel U G).
Implicit Types (k : K) (th : Thread U).
Context (ustep : U → G → option (G * call U * (nat → U))).
Abbreviation all := (everything (U := U)).

Lemma ending_all (fs : list (frame U)) : fs = [] ∨ (∃ u, fs = [InUser u]) → ending all fs.
Proof. intros [->|[u ->]]; [by left|by right; exists u]. Qed.

Lemma go_done_by k k' : wf k → idle k = false → go ustep k = Ret k' → done_by all k k'.
Proof.
  intros Hwf Hi E.
  destruct (go_cases ustep k k' Hwf Hi E) as [(f & rest & Hr & Hok & Hu & E')|(u & Hr & Hr0 & E')].
  - apply (resume_done_by all f rest); try done. by destruct f.
  - assert (atom all k (current_with (set_frames []) k)) as Ha.
    { eapply (at_current_running _ _ _ [InUser u] []); [done|done|by apply calm_unasking|by apply turn_any]. }
    destruct (ustep u (shared k)) as [[[g c] next]|].
    + destruct E' as (k3 & Hr3 & -> & E').
      assert (allowed all c [InUser (next (next_id k))]) as Hal.
      { destruct c; try done. apply ending_all. eauto. }
      destruct (do_call_done_by all c _ _ k' Hal Hr3 I I E') as [? Has]. split; [done|].
      eapply rtc_l; [exact Ha|]. eapply rtc_l; [|eapply rtc_l; [by apply at_shared|exact Has]].
      eapply (at_current_running _ _ _ [] [InUser (next (next_id k))]); [done|done| |by apply turn_any].
      by apply calm_unasking.
    + destruct (Finish_done_by all _ [] k' Hr0 (or_introl eq_refl) E') as [? Has].
      split; [done|]. by eapply rtc_l.
Qed.

Lemma schedule_done_by ch k k' : wf k → schedule ustep ch k = Ret k' → done_by all k k'.
Proof.
  intros Hwf E. destruct (decide (ch = Go)) as [->|Hne].
  - cbn in E. inv_ret. apply negb_true_iff in Hrun. by apply go_done_by.
  - by eapply event_done_by.
Qed.

(** ** Reachable states *)

(** The states of a machine that was booted with the program [main] and memory [g]. *)
Definition run_of (main : U) (g : G) : K → Prop :=
  reachable (λ k, boot main g = Ret k) (steps_to ustep).

Definition booted (main : U) (g : G) : K :=
  mkKernel O false [] {[O := mkThread RUNNING 0 false 1%nat 1%nat None true [InUser main]]}
    {[1%nat := mkSem 1 []]} ∅ ∅ None 2 g [NewSemaphore 1 1].

Lemma boot_eq main g k : boot main g = Ret k → k = booted main g.
Proof. intros E. vm_compute in E. by injection E as <-. Qed.

Lemma boot_wf main g k : boot main g = Ret k → wf k.
Proof.
  intros E. set (th := mkThread RUNNING 0 false 1%nat 1%nat None true [InUser main]).
  assert (threads k = {[O := th]} ∧ currentThread k = O ∧ idle k = false ∧ readyList k = [] ∧
    semaphores k = {[1%nat := mkSem 1 []]} ∧ locks k = ∅ ∧ conditions k = ∅ ∧
    threadToBeDestroyed k = None ∧ next_id k = 2%nat) as (Et & Ec & Ei & Er & Es & El & Eco & Ed & En).
  { by rewrite (boot_eq _ _ _ E). }
  clear E. assert (∀ t th', threads k !! t = Some th' → t = O ∧ th' = th) as Hone.
  { intros t th'. rewrite Et. intros [<- <-]%lookup_singleton_Some. done. }
  assert (∀ q l, queue_of k q = Some l → q = QSem 1 ∧ l = []) as Hq.
  { intros [s|l'|c] l; cbn; rewrite ?Es, ?El, ?Eco; [|by rewrite lookup_empty..].
    rewrite fmap_Some. intros (sem & [<- <-]%lookup_singleton_Some & ->). done. }
  unfold wf. rewrite Ei, Ec. split.
  - split; rewrite ?Er, ?Ed, ?En; try done.
    + constructor.
    + intros t Ht. by apply elem_of_nil in Ht.
    + intros q l [-> ->]%Hq. split; [constructor|]. intros t Ht. by apply elem_of_nil in Ht.
    + intros t th' [-> ->]%Hone. done.
    + intros t [= <-]. exists th. by rewrite Et, lookup_singleton_eq.
    + intros t th' [-> ->]%Hone. lia.
    + intros q l [-> ->]%Hq. cbn. lia.
    + intros t th' f rest q [-> ->]%Hone. done.
  - exists th. by rewrite Et, lookup_singleton_eq.
Qed.

Lemma run_wf main g k : run_of main g k → wf k.
Proof.
  apply invariant_reachable; [apply boot_wf|]. intros k1 k2 _ Hwf [ch E].
  by destruct (schedule_done_by ch k1 k2 Hwf E).
Qed.

(** What every atomic change keeps holds in every reachable state. *)
Lemma run_invariant (I : K → Prop) main g k :
  (∀ k, boot main g = Ret k → I k) → (∀ k k', I k → atom all k k' → I k') → run_of main g k → I k.
Proof.
  intros Hi Hs Hr. apply (invariant_reachable _ _ I Hi) in Hr; [done|].
  intros k1 k2 Hr1 HI [ch E]. apply run_wf in Hr1. destruct (schedule_done_by ch k1 k2 Hr1 E) as [_ Ha].
  revert HI. clear E Hr1. induction Ha; eauto.
Qed.
End programs.

End Steps.
