(* ===== verification/Synch.v ===== *)
(** * What synchronisation guarantees

    Invariants of semaphores and locks under every schedule, from the atomic changes of
    [Steps]. *)

From S2P Require Import Prelude CInt NList Kernel Threads Steps.
From stdpp Require Import sorting.
Import Kernel.Kernel Threads.Threads Steps.Steps.

Open Scope Z_scope.

Module Synch.

Section invariants.
Context {U G : Type}.
Abbreviation K := (Kernel U G).
Implicit Types (k : K) (th : Thread U).
Context (ustep : U → G → option (G * call U * (nat → U))).
Abbreviation all := (everything (U := U)).

(** *** Semaphores count *)

(** The initial value, plus the [V]s and less the [P]s since. *)
Definition sem_count (s : nat) (h : list event) : Z :=
  foldl (λ n e, match e with
    | NewSemaphore s' v => if decide (s' = s) then v else n
    | DidP _ s' => if decide (s' = s) then n - 1 else n
    | DidV s' => if decide (s' = s) then n + 1 else n
    | _ => n
    end) 0 h.

Lemma sem_count_snoc s h e :
  sem_count s (h ++ [e]) = match e with
    | NewSemaphore s' v => if decide (s' = s) then v else sem_count s h
    | DidP _ s' => if decide (s' = s) then sem_count s h - 1 else sem_count s h
    | DidV s' => if decide (s' = s) then sem_count s h + 1 else sem_count s h
    | _ => sem_count s h
    end.
Proof. unfold sem_count. by rewrite foldl_app. Qed.

Lemma sem_count_deleted s h dead : sem_count s (h ++ (Deleted <$> dead)) = sem_count s h.
Proof.
  induction dead as [|d dead IH] using rev_ind; [by rewrite app_nil_r|].
  rewrite fmap_app. change (Deleted <$> [d]) with [Deleted d]. by rewrite app_assoc, sem_count_snoc.
Qed.

Definition nonneg_start (e : event) : Prop := match e with NewSemaphore _ v => 0 ≤ v | _ => True end.

(** The value, an [int], is the count, and the count is not negative when no semaphore starts below
    zero. *)
Definition counted (k : K) : Prop :=
  ∀ s sem, semaphores k !! s = Some sem → value sem = s32 (sem_count s (history k)) ∧
    (Forall nonneg_start (history k) → 0 ≤ sem_count s (history k)).

Lemma popped_history f k k0 : popped f k k0 → history k0 = history k.
Proof. by intros [[-> _]|(? & ? & ? & ? & ? & ->)]. Qed.

Lemma counted_same k k' :
  counted k → history k' = history k →
  (∀ s sem', semaphores k' !! s = Some sem' → ∃ sem, semaphores k !! s = Some sem ∧ value sem' = value sem) →
  counted k'.
Proof. intros Hc Eh Hs s sem' E. destruct (Hs s sem' E) as (sem & E1 & ->). rewrite Eh. auto. Qed.

(** The history grew by one event. *)
Lemma counted_event k k' e :
  counted k → history k' = history k ++ [e] →
  (∀ s sem', semaphores k' !! s = Some sem' →
    match e with NewSemaphore s' v => s' = s ∧ value sem' = s32 v | _ => False end ∨
    ∃ sem, semaphores k !! s = Some sem ∧ value sem' = match e with
      | DidP _ s' => if decide (s' = s) then s32 (value sem - 1) else value sem
      | DidV s' => if decide (s' = s) then s32 (value sem + 1) else value sem
      | NewSemaphore s' _ => if decide (s' = s) then 0 else value sem
      | _ => value sem end ∧
      match e with DidP _ s' => s' = s → value sem ≠ 0 | NewSemaphore s' _ => s' ≠ s | _ => True end) →
  counted k'.
Proof.
  intros Hc Eh Hs s sem' E. rewrite Eh, sem_count_snoc.
  destruct (Hs s sem' E) as [Hnew|(sem & E1 & Hv & Hok)].
  - destruct e; try done. destruct Hnew as [-> ->]. rewrite decide_True by done. split; [done|].
    intros Hf. apply Forall_app in Hf as [_ Hf]. by inversion Hf.
  - destruct (Hc s sem E1) as [Hcount Hpos]. rewrite Hv. split.
    + rewrite Hcount. destruct e; try done; case_decide; try done; [apply s32_pred|apply s32_succ].
    + intros Hf. apply Forall_app in Hf as [Hf _]. specialize (Hpos Hf).
      destruct e as [s' v|t s'|s'| | | | |]; try done; case_decide as Es; try done; [|lia].
      assert (sem_count s (history k) ≠ 0) by (intros E0; rewrite E0 in Hcount; by apply (Hok Es)). lia.
Qed.

Lemma counted_atom k k' : counted k → atom all k k' → counted k'.
Proof.
  intros Hc Ha. destruct Ha as [k' Hq|s sem k0 Hp Hs Hv|s sem p k0 Hp Hs Hv|s sem Hs _|l lk k0 _ Hp _ _
    |l lk p k0 _ Hp _ _| | | |v| | |s'| | | | | | | | | ].
  - destruct (qu_history _ _ Hq) as [dead Eh]. intros s sem E.
    pose proof (lookup_weaken _ _ _ _ E (qu_semaphores _ _ Hq)) as E1. destruct (Hc s sem E1) as [H1 H2].
    rewrite Eh, sem_count_deleted. split; [done|]. intros [Hf _]%Forall_app. auto.
  - eapply counted_event; [exact Hc| |].
    { cbn. by rewrite (popped_history _ _ _ Hp). }
    intros s' sem' E. cbn in E. rewrite (popped_semaphores _ _ _ Hp) in E. right.
    apply lookup_insert_Some in E as [[<- <-]|[Hne E]].
    + exists sem. rewrite decide_True by done. done.
    + exists sem'. rewrite decide_False by done. done.
  - eapply counted_same; [exact Hc|by rewrite <- (popped_history _ _ _ Hp)|].
    intros s' sem' E. cbn in E. rewrite (popped_semaphores _ _ _ Hp) in E.
    apply lookup_insert_Some in E as [[<- <-]|[Hne E]]; eauto.
  - eapply counted_event; [exact Hc|done|]. intros s' sem' E. cbn in E. right.
    apply lookup_insert_Some in E as [[<- <-]|[Hne E]].
    + exists sem. rewrite decide_True by done. done.
    + exists sem'. rewrite decide_False by done. done.
  - eapply counted_event; [exact Hc|cbn; by rewrite (popped_history _ _ _ Hp)|].
    intros s' sem' E. cbn in E. rewrite (popped_semaphores _ _ _ Hp) in E. eauto 10.
  - eapply counted_same; [exact Hc|by rewrite <- (popped_history _ _ _ Hp)|].
    intros s' sem' E. cbn in E. rewrite (popped_semaphores _ _ _ Hp) in E. eauto.
  - eapply counted_event; [exact Hc|done|]. cbn. eauto 10.
  - eapply counted_same; [exact Hc|done|]. cbn. eauto.
  - eapply counted_same; [exact Hc|done|]. cbn. eauto.
  - eapply counted_event; [exact Hc|done|]. intros s' sem' E. cbn in E.
    apply lookup_insert_Some in E as [[<- <-]|[Hne E]]; [by left|]. right. exists sem'.
    rewrite decide_False by done. done.
  - eapply counted_same; [exact Hc|done|]. cbn. eauto.
  - eapply counted_same; [exact Hc|done|]. cbn. eauto.
  - eapply counted_same; [exact Hc|done|]. cbn. intros s sem [_ E]%lookup_delete_Some. eauto.
  - eapply counted_same; [exact Hc|done|]. cbn. eauto.
  - eapply counted_same; [exact Hc|done|]. cbn. eauto.
  - eapply counted_same; [exact Hc|done|]. cbn. eauto.
  - eapply counted_same; [exact Hc|done|]. cbn. eauto.
  - eapply counted_same; [exact Hc|done|]. cbn. eauto.
  - eapply counted_same; [exact Hc|done|]. cbn. eauto.
  - eapply counted_same; [exact Hc|done|]. cbn. eauto.
  - eapply counted_event; [exact Hc|done|]. cbn. eauto 10.
  - eapply counted_event; [exact Hc|done|]. cbn. eauto 10.
Qed.

Lemma boot_counted main g k : boot main g = Ret k → counted k.
Proof.
  intros ->%boot_eq s sem. cbn [semaphores booted]. intros [<- <-]%lookup_singleton_Some. done.
Qed.

(** *** Locks exclude *)

(** Who holds the lock after the history, when every event was one the lock allows. *)
Definition hold (l : nat) (o : option (option nat)) (e : event) : option (option nat) :=
  match e with
  | Acquired t l' => if decide (l' = l) then match o with Some None => Some (Some t) | _ => None end else o
  | Released t l' => if decide (l' = l)
      then (if decide (o = Some (Some t)) then Some None else None) else o
  | _ => o
  end.
Definition holder_of (l : nat) (h : list event) : option (option nat) := foldl (hold l) (Some None) h.
Arguments holder_of : simpl never.

Lemma holder_of_snoc l h e : holder_of l (h ++ [e]) = hold l (holder_of l h) e.
Proof. unfold holder_of. by rewrite foldl_app. Qed.

Lemma holder_of_deleted l h dead : holder_of l (h ++ (Deleted <$> dead)) = holder_of l h.
Proof.
  induction dead as [|d dead IH] using rev_ind; [by rewrite app_nil_r|].
  rewrite fmap_app. change (Deleted <$> [d]) with [Deleted d]. by rewrite app_assoc, holder_of_snoc.
Qed.

Lemma hold_None l h : foldl (hold l) None h = None.
Proof.
  induction h as [|e h IH]; [done|]. cbn. rewrite <- IH at 2. f_equal.
  destruct e; cbn; try done; by case_decide.
Qed.

(** Without a release by the holder the lock stays held, and nobody acquires it. *)
Lemma hold_released l t h1 h2 :
  foldl (hold l) (Some (Some t)) (h1 ++ h2) ≠ None → Released t l ∉ h1 →
  foldl (hold l) (Some (Some t)) h1 = Some (Some t) ∧ (∀ t', Acquired t' l ∉ h1).
Proof.
  revert h2. induction h1 as [|e h1 IH]; intros h2 Hok Hn.
  - split; [done|]. intros t' Ht. by apply elem_of_nil in Ht.
  - apply not_elem_of_cons in Hn as [Hne Hn]. cbn in Hok |- *.
    assert (hold l (Some (Some t)) e = Some (Some t) ∧ ∀ t', e ≠ Acquired t' l) as [He Ha].
    { destruct e; cbn in Hok |- *; try done.
      - case_decide as Hl; [|split; [done|congruence]]. exfalso. apply Hok. apply hold_None.
      - case_decide as Hl; [|done]. case_decide as Ht; [congruence|]. exfalso. apply Hok. apply hold_None. }
    rewrite He in Hok |- *. destruct (IH h2 Hok Hn) as [E Hin]. split; [done|].
    intros t' [Heq|Ht]%elem_of_cons; [by destruct (Ha t')|by apply (Hin t')].
Qed.

Definition guarded (k : K) : Prop :=
  (∀ l lk, locks k !! l = Some lk → isLocked lk = bool_decide (is_Some (currThread lk))) ∧
  ∀ l, holder_of l (history k) = Some (locks k !! l ≫= currThread).

(** The locks did not change, and nothing happened to a lock. *)
Lemma guarded_same k k' :
  guarded k → (∀ l, holder_of l (history k') = holder_of l (history k)) →
  (∀ l, (λ lk, (isLocked lk, currThread lk)) <$> locks k' !! l =
        (λ lk, (isLocked lk, currThread lk)) <$> locks k !! l) → guarded k'.
Proof.
  intros [Hb Hh] Eh El. split.
  - intros l lk E. specialize (El l). rewrite E in El. cbn in El. symmetry in El.
    apply fmap_Some in El as (lk0 & E0 & [= -> ->]). eauto.
  - intros l. rewrite Eh, Hh. f_equal. specialize (El l).
    destruct (locks k' !! l), (locks k !! l); cbn in El |- *; congruence.
Qed.

Lemma guarded_keep k k' :
  guarded k → (∀ l, holder_of l (history k') = holder_of l (history k)) → locks k' = locks k → guarded k'.
Proof. intros Hg Eh El. eapply guarded_same; [done|done|by rewrite El]. Qed.

(** One lock changed. *)
Lemma guarded_update k k' l lk' :
  guarded k → locks k' = <[l := lk']> (locks k) →
  isLocked lk' = bool_decide (is_Some (currThread lk')) →
  holder_of l (history k') = Some (currThread lk') →
  (∀ l', l' ≠ l → holder_of l' (history k') = holder_of l' (history k)) → guarded k'.
Proof.
  intros [Hb Hh] El Hlk Hl Ho. split; rewrite El.
  - intros l0 lk [[<- <-]|[_ E]]%lookup_insert_Some; eauto.
  - intros l0. destruct (decide (l0 = l)) as [->|Hne].
    + by rewrite lookup_insert_eq.
    + rewrite lookup_insert_ne by done. by rewrite Ho.
Qed.

Lemma guarded_atom k k' : guarded k → atom all k k' → guarded k'.
Proof.
  intros Hg Ha. pose proof Hg as [Hb Hh].
  destruct Ha as [k' Hq|s sem k0 Hp _ _|s sem p k0 Hp _ _| |l lk k0 _ Hp Hl Hf
    |l lk p k0 _ Hp Hl Ht|l lk _ Hl Ho _| | | |Hn| | |l lk Hl Hf| | | | | | | | ];
    try (eapply guarded_keep; [exact Hg|intros l'; cbn; rewrite ?holder_of_snoc; done|done]).
  - destruct (qu_history _ _ Hq) as [dead Eh]. eapply guarded_keep; [exact Hg| |apply Hq].
    intros l. by rewrite Eh, holder_of_deleted.
  - eapply guarded_keep; [exact Hg| |by cbn; rewrite (popped_locks _ _ _ Hp)].
    intros l. cbn. by rewrite holder_of_snoc, (popped_history _ _ _ Hp).
  - eapply guarded_keep; [exact Hg| |by cbn; rewrite (popped_locks _ _ _ Hp)].
    intros l. cbn. by rewrite (popped_history _ _ _ Hp).
  - eapply (guarded_update k _ l); [done|cbn; by rewrite (popped_locks _ _ _ Hp)|done|..].
    + cbn. rewrite holder_of_snoc, (popped_history _ _ _ Hp), Hh, Hl. cbn.
      rewrite decide_True by done. specialize (Hb l lk Hl). rewrite Hf in Hb. symmetry in Hb.
      apply bool_decide_eq_false in Hb. destruct (currThread lk); [|done]. exfalso. eauto.
    + intros l' Hne. cbn. rewrite holder_of_snoc, (popped_history _ _ _ Hp). cbn. by rewrite decide_False.
  - eapply guarded_same; [done|intros l'; cbn; by rewrite (popped_history _ _ _ Hp)|].
    intros l'. cbn. rewrite (popped_locks _ _ _ Hp), lookup_insert. case_decide as E; [|done].
    subst. rewrite Hl. cbn. by rewrite Ht.
  - eapply (guarded_update k _ l); [done..| |].
    + cbn. rewrite holder_of_snoc, Hh, Hl. cbn. by rewrite Ho, !decide_True.
    + intros l' Hne. cbn. rewrite holder_of_snoc. cbn. by rewrite decide_False.
  - eapply (guarded_update k _ (next_id k)); [done..| |done]. cbn. by rewrite Hh, Hn.
  - split; cbn.
    + intros l' lk' [_ E]%lookup_delete_Some. eauto.
    + intros l'. rewrite Hh. f_equal. destruct (decide (l' = l)) as [->|]; [|by rewrite lookup_delete_ne].
      rewrite lookup_delete_eq, Hl. specialize (Hb l lk Hl). rewrite Hf in Hb. symmetry in Hb.
      apply bool_decide_eq_false in Hb. cbn. destruct (currThread lk); [|done]. exfalso. eauto.
Qed.

Lemma boot_guarded main g k : boot main g = Ret k → guarded k.
Proof.
  intros ->%boot_eq. split; cbn [locks booted].
  - intros l lk. by rewrite lookup_empty.
  - intros l. by rewrite lookup_empty.
Qed.

(** *** Nobody sleeps through a wakeup *)

(** The thread has been woken and is going to ask again. *)
Definition on_way (k : K) (f : frame U) (q : queue) (t : nat) : Prop :=
  ∃ th rest, threads k !! t = Some th ∧ frames th = f :: rest ∧ t ∉ q.*2.

Definition sem_awake (k : K) (s : nat) (sem : Semaphore) : Prop :=
  s_queue sem ≠ [] → ∃ (n : Z) (W : gset nat), value sem = s32 n ∧ 0 ≤ n ≤ Z.of_nat (size W) ∧
    ∀ t, t ∈ W → on_way k (InP s) (s_queue sem) t.
Definition lock_awake (k : K) (l : nat) (lk : Lock) : Prop :=
  l_queue lk ≠ [] → isLocked lk = false → ∃ t, on_way k (InAcquire l) (l_queue lk) t.

Definition awake (k : K) : Prop :=
  (∀ s sem, semaphores k !! s = Some sem → sem_awake k s sem) ∧
  (∀ l lk, locks k !! l = Some lk → lock_awake k l lk).

(** The threads that are in the routine [f] stay in it. *)
Definition stays (k k' : K) (f : frame U) : Prop :=
  ∀ t th rest, threads k !! t = Some th → frames th = f :: rest →
    ∃ th', threads k' !! t = Some th' ∧ frames th' = f :: rest.

Lemma sem_awake_keep k k' s sem sem' :
  sem_awake k s sem → stays k k' (InP s) → s_queue sem' = s_queue sem → value sem' = value sem →
  sem_awake k' s sem'.
Proof.
  intros Ha Hst Eq Ev Hne. rewrite Eq in Hne. destruct (Ha Hne) as (n & W & Hv & Hnr & HW). exists n, W.
  split; [by rewrite Ev|]. split; [done|]. intros t Ht. destruct (HW t Ht) as (th & rest & Hth & Hf & Hn).
  destruct (Hst t th rest Hth Hf) as (th' & ? & ?). exists th', rest. by rewrite Eq.
Qed.

Lemma lock_awake_keep k k' l lk lk' :
  lock_awake k l lk → stays k k' (InAcquire l) → l_queue lk' = l_queue lk → isLocked lk' = isLocked lk →
  lock_awake k' l lk'.
Proof.
  intros Ha Hst Eq Eb Hne Hb. rewrite Eq in Hne. rewrite Eb in Hb. destruct (Ha Hne Hb) as (t & th & rest & Hth & Hf & Hn).
  destruct (Hst t th rest Hth Hf) as (th' & ? & ?). exists t, th', rest. by rewrite Eq.
Qed.

Lemma awake_keep k k' :
  awake k → (∀ f, asks f → stays k k' f) → semaphores k' ⊆ semaphores k → locks k' ⊆ locks k → awake k'.
Proof.
  intros [Hs Hl] Hst Es El. split.
  - intros s sem E. eapply sem_awake_keep; [by eapply Hs, lookup_weaken|by apply Hst|done|done].
  - intros l lk E. eapply lock_awake_keep; [by eapply Hl, lookup_weaken|by apply Hst|done|done].
Qed.

Lemma stays_same k k' f : threads k' = threads k → stays k k' f.
Proof. intros E t th rest Hth Hf. exists th. by rewrite E. Qed.

(** Only the current thread changed, and it was not in the routine. *)
Lemma stays_current k k' f th0 :
  threads k !! currentThread k = Some th0 → (∀ rest, frames th0 ≠ f :: rest) →
  (∀ t, t ≠ currentThread k → threads k' !! t = threads k !! t) → stays k k' f.
Proof.
  intros Hc Hn Ho t th rest Hth Hf. exists th. split; [|done]. rewrite Ho; [done|]. intros ->.
  rewrite Hc in Hth. injection Hth as <-. by apply (Hn rest).
Qed.

Lemma calm_asks (fs : list (frame U)) f rest : calm fs → asks f → fs ≠ f :: rest.
Proof. intros Hc Ha ->. by destruct f. Qed.

Lemma popped_thread f f' k k0 :
  popped f k k0 → asks f' → f' ≠ f →
  ∃ th0, threads k !! currentThread k = Some th0 ∧ ∀ rest, frames th0 ≠ f' :: rest.
Proof.
  intros [[-> (th & Hth & Hc)]|(th & rest & Hth & Hf & _ & ->)] Ha Hne; exists th; (split; [done|]); intros rest'.
  - by apply calm_asks.
  - congruence.
Qed.

Lemma popped_current f k k0 : popped f k k0 → currentThread k0 = currentThread k.
Proof. by intros [[-> _]|(? & ? & ? & ? & ? & ->)]. Qed.

Lemma popped_others f k k0 t : popped f k k0 → t ≠ currentThread k → threads k0 !! t = threads k !! t.
Proof. intros [[-> _]|(? & ? & ? & ? & ? & ->)] Hne; [done|]. cbn. by rewrite lookup_alter_ne. Qed.

(** After the change of the object the current thread may sleep. *)
Lemma popped_stays f f' k k0 k' :
  popped f k k0 → asks f' → f' ≠ f →
  (∀ t, t ≠ currentThread k → threads k' !! t = threads k0 !! t) → stays k k' f'.
Proof.
  intros Hp Ha Hne Ho. destruct (popped_thread f f' k k0 Hp Ha Hne) as (th0 & Hth0 & Hn).
  eapply stays_current; [done..|]. intros t Ht. rewrite Ho by done. by eapply popped_others.
Qed.

Lemma calm_stays f k k' :
  (∀ th, threads k !! currentThread k = Some th → unasking (frames th)) → asks f →
  (∀ t, t ≠ currentThread k → threads k' !! t = threads k !! t) →
  stays k k' f.
Proof.
  intros Hc Ha Ho t th rest Hth Hf. exists th. split; [|done]. rewrite Ho; [done|]. intros ->.
  by apply (Hc th Hth f rest Hf).
Qed.

Lemma awake_sem k k' s sem' :
  awake k → semaphores k' = <[s := sem']> (semaphores k) → locks k' = locks k →
  (∀ f, asks f → f ≠ InP s → stays k k' f) → sem_awake k' s sem' → awake k'.
Proof.
  intros [Hs Hl] Es El Hst Hok. split.
  - intros s0 sem E. rewrite Es in E. apply lookup_insert_Some in E as [[<- <-]|[Hne E]]; [done|].
    eapply sem_awake_keep; [by apply Hs|apply Hst; [done|congruence]|done|done].
  - intros l lk E. rewrite El in E. eapply lock_awake_keep; [by apply Hl|by apply Hst|done|done].
Qed.

Lemma awake_lock k k' l lk' :
  awake k → locks k' = <[l := lk']> (locks k) → semaphores k' = semaphores k →
  (∀ f, asks f → f ≠ InAcquire l → stays k k' f) → lock_awake k' l lk' → awake k'.
Proof.
  intros [Hs Hl] El Es Hst Hok. split.
  - intros s sem E. rewrite Es in E. eapply sem_awake_keep; [by apply Hs|by apply Hst|done|done].
  - intros l0 lk E. rewrite El in E. apply lookup_insert_Some in E as [[<- <-]|[Hne E]]; [done|].
    eapply lock_awake_keep; [by apply Hl|apply Hst; [done|congruence]|done|done].
Qed.

Lemma waits_on_sem (f : frame U) s : waits_on f = Some (QSem s) → f = InP s.
Proof. destruct f; cbn; try done. by intros [= ->]. Qed.

Lemma waits_on_lock (f : frame U) l : waits_on f = Some (QLock l) → f = InAcquire l.
Proof. destruct f; cbn; try done. by intros [= ->]. Qed.

Lemma p_done_awake k k0 s sem :
  sem_awake k s sem → value sem ≠ 0 → (∀ t, t ≠ currentThread k → threads k0 !! t = threads k !! t) →
  sem_awake (p_done s sem k0) s (mkSem (s32 (value sem - 1)) (s_queue sem)).
Proof.
  intros Ha Hv0 Ho Hne. cbn in Hne |- *. destruct (Ha Hne) as (n & W & Hv & Hnr & HW).
  assert (n ≠ 0) by (intros ->; by apply Hv0).
  exists (n - 1), (W ∖ {[currentThread k]}). split; [by rewrite Hv, s32_pred|]. split.
  - assert (size W ≤ size ({[currentThread k]} ∪ (W ∖ {[currentThread k]})))%nat as Hsz.
    { apply subseteq_size. intros t Ht. destruct (decide (t = currentThread k)) as [->|]; set_solver. }
    rewrite size_union in Hsz by set_solver. rewrite size_singleton in Hsz. lia.
  - intros t [Ht Hc]%elem_of_difference. rewrite elem_of_singleton in Hc.
    destruct (HW t Ht) as (th & rest & Hth & Hf & Hn). exists th, rest. split; [|done].
    cbn. by rewrite Ho.
Qed.

Lemma v_done_awake k s sem :
  sem_awake k s sem → sleepers k (QSem s) (s_queue sem) →
  sem_awake (v_done s sem k) s (mkSem (s32 (value sem + 1)) (tail (s_queue sem))).
Proof.
  intros Ha [Hnd Hin] Hne. cbn in Hne |- *. destruct (s_queue sem) as [|[p t] q] eqn:Eq; [done|].
  cbn in Hne, Hnd, Hin |- *. apply NoDup_cons in Hnd as [Htq Hnd].
  destruct Ha as (n & W & Hv & Hnr & HW); [by rewrite Eq|]. rewrite Eq in HW.
  destruct (Hin t) as (th & f & rest & Hth & Hf & Hw); [constructor|]. apply waits_on_sem in Hw as ->.
  exists (n + 1), ({[t]} ∪ W). split; [by rewrite Hv, s32_succ|]. split.
  - rewrite size_union; [rewrite size_singleton; lia|]. apply disjoint_singleton_l. intros Ht.
    destruct (HW t Ht) as (? & ? & _ & _ & Hn). apply Hn. cbn. constructor.
  - intros t' [->%elem_of_singleton|Ht]%elem_of_union; [by exists th, rest|].
    destruct (HW t' Ht) as (th' & rest' & ? & ? & Hn). exists th', rest'. split_and!; [done..|].
    intros Hq. apply Hn. cbn. by constructor.
Qed.

Lemma r_done_awake k l lk :
  sleepers k (QLock l) (l_queue lk) →
  lock_awake (r_done l lk k) l (mkLock false (tail (l_queue lk)) None).
Proof.
  intros [Hnd Hin] Hne _. cbn in Hne |- *. destruct (l_queue lk) as [|[p t] q]; [done|].
  cbn in Hnd, Hin |- *. apply NoDup_cons in Hnd as [Htq Hnd].
  destruct (Hin t) as (th & f & rest & Hth & Hf & Hw); [constructor|]. apply waits_on_lock in Hw as ->.
  by exists t, th, rest.
Qed.

(** What [blocked] does to the other threads. *)
Lemma blocked_others f k t : t ≠ currentThread k → threads (blocked f k) !! t = threads k !! t.
Proof. intros Hne. cbn. by rewrite lookup_alter_ne. Qed.

Lemma awake_atom k k' : awake k → atom all k k' → awake k'.
Proof.
  intros Hg Ha. pose proof Hg as [Hs Hl].
  destruct Ha as [k' Hq|s sem k0 Hp E Hv0|s sem p k0 Hp E Hv|s sem E Hsl|l lk k0 _ Hp E _
    |l lk p k0 _ Hp E _|l lk _ E _ Hsl|c cond p l _ Hc| |v|Hn| |s| | |t th u Hn _ _|t th f Hth Hf|f Hc| | | | ];
    try (eapply awake_keep; [exact Hg|intros f' _; by apply stays_same|done|done]).
  - eapply awake_keep; [exact Hg| |apply Hq|by rewrite (qu_locks _ _ Hq)].
    intros f _ t th rest Hth Hf. destruct (qu_alive _ _ Hq t th Hth) as [th' Hth']; [congruence|].
    exists th'. split; [done|]. destruct (qu_threads _ _ Hq t th' Hth') as (th0 & Hth0 & Hcore).
    rewrite Hth in Hth0. injection Hth0 as <-. unfold core in Hcore. congruence.
  - eapply (awake_sem k _ s); [done|cbn; by rewrite (popped_semaphores _ _ _ Hp)|
      cbn; by rewrite (popped_locks _ _ _ Hp)|..].
    + intros f Hf Hne. by eapply popped_stays.
    + apply (p_done_awake k); [by apply Hs|done|]. intros t Hne. by eapply popped_others.
  - eapply (awake_sem k _ s); [done|cbn; by rewrite (popped_semaphores _ _ _ Hp)|
      cbn; by rewrite (popped_locks _ _ _ Hp)|..].
    + intros f Hf Hne. eapply popped_stays; [done..|]. intros t Ht. apply (blocked_others (InP s) (p_waits s sem p k0)).
      cbn. by rewrite (popped_current _ _ _ Hp).
    + intros _. exists 0, ∅. rewrite size_empty. cbn. split; [done|]. split; [lia|]. intros t Ht. set_solver.
  - eapply (awake_sem k _ s); [done..| |].
    + intros f _ _. by apply stays_same.
    + apply v_done_awake; [by apply Hs|done].
  - eapply (awake_lock k _ l); [done|cbn; by rewrite (popped_locks _ _ _ Hp)|
      cbn; by rewrite (popped_semaphores _ _ _ Hp)|..|done].
    intros f Hf Hne. by eapply popped_stays.
  - eapply (awake_lock k _ l); [done|cbn; by rewrite (popped_locks _ _ _ Hp)|
      cbn; by rewrite (popped_semaphores _ _ _ Hp)|..|done].
    intros f Hf Hne. eapply popped_stays; [done..|]. intros t Ht. apply (blocked_others (InAcquire l) (a_waits l lk p k0)).
    cbn. by rewrite (popped_current _ _ _ Hp).
  - eapply (awake_lock k _ l); [done..| |by apply r_done_awake]. intros f _ _. by apply stays_same.
  - eapply awake_keep; [exact Hg| |done|done]. intros f' Hf'.
    apply (calm_stays _ _ _ (λ th Hth, calm_unasking _ (Hc th Hth)) Hf').
    intros t Ht. by apply (blocked_others (InWait c l) (w_waits c cond p k)).
  - eapply (awake_sem k _ (next_id k)); [done..| |by intros []]. intros f _ _. by apply stays_same.
  - eapply (awake_lock k _ (next_id k)); [done..| |by intros []]. intros f _ _. by apply stays_same.
  - eapply awake_keep; [exact Hg|intros f' _; by apply stays_same|apply delete_subseteq|done].
  - eapply awake_keep; [exact Hg|intros f' _; by apply stays_same|done|apply delete_subseteq].
  - eapply awake_keep; [exact Hg| |done|done]. intros f' _ t' th' rest Hth' Hf'. exists th'.
    cbn. rewrite lookup_insert_ne; [done|]. intros ->. congruence.
  - eapply awake_keep; [exact Hg| |done|done]. intros f' _ t' th' rest Hth' Hf'.
    cbn. rewrite lookup_insert. case_decide as E; [|by exists th']. subst. rewrite Hth in Hth'.
    injection Hth' as <-. exists (f th). by rewrite Hf.
  - eapply awake_keep; [exact Hg| |done|done]. intros f' Hf'.
    apply (calm_stays _ _ _ (λ th Hth, proj1 (Hc th Hth)) Hf').
    intros t Ht. cbn. by rewrite lookup_alter_ne.
Qed.

Lemma boot_awake main g k : boot main g = Ret k → awake k.
Proof.
  intros ->%boot_eq. split; cbn [locks semaphores booted].
  - intros s sem [<- <-]%lookup_singleton_Some. by intros [].
  - intros l lk. by rewrite lookup_empty.
Qed.
End invariants.

(** ** The guarantees *)
Section guarantees.
Context {U G : Type} (ustep : U → G → option (G * call U * (nat → U))).
Abbreviation K := (Kernel U G).
Implicit Types (k : K) (th : Thread U).

Lemma run_reaches main g k chs k' :
  boot main g = Ret k → run ustep chs k = Ret k' → run_of ustep main g k'.
Proof.
  intros Hb. assert (run_of ustep main g k) as Hr by by apply reach_init. clear Hb. revert k Hr.
  induction chs as [|ch chs IH]; intros k Hr E; cbn in E; [by injection E as <-|]. inv_ret.
  eapply IH; [|done]. eapply reach_step; [done|]. by exists ch.
Qed.

(** C29: in every state the kernel can reach, every thread is at the one place its status names:
    the ready list holds exactly the [READY] threads, each once; the queue of a semaphore, lock or
    condition holds exactly the [BLOCKED] threads that sleep in a routine of that object, each once;
    and a thread is [RUNNING] when it is the current thread and the processor is not idle. *)
Theorem every_thread_in_its_place main g k :
  run_of ustep main g k →
  NoDup ((readyList k).*2) ∧
  (∀ t, t ∈ (readyList k).*2 ↔ ∃ th, threads k !! t = Some th ∧ status th = READY) ∧
  (∀ q l, queue_of k q = Some l → NoDup (l.*2) ∧ ∀ t, t ∈ l.*2 ↔
     ∃ th f rest, threads k !! t = Some th ∧ status th = BLOCKED ∧ frames th = f :: rest ∧ waits_on f = Some q) ∧
  (∀ t th, threads k !! t = Some th → status th = RUNNING ↔ idle k = false ∧ t = currentThread k).
Proof.
  intros Hr. apply run_wf in Hr. unfold wf in Hr.
  assert (∃ r, placed k r ∅ ∧ ∀ t, r = Some t ↔ idle k = false ∧ t = currentThread k) as (r & Hp & Hrun).
  { destruct (idle k); destruct Hr as [Hp _]; eexists; (split; [exact Hp|]); intros t.
    - by split; [|intros [? _]].
    - split; [by intros [= <-]|by intros [_ ->]]. }
  clear Hr. destruct Hp. assert (∀ t : nat, t ∉ (∅ : gset nat)) as HL by (intros; apply not_elem_of_empty).
  split_and!; [done| | |].
  - intros t. split; [intros Hin; by apply pl_ready0|]. intros (th & Hth & Hs).
    specialize (pl_thread0 t th Hth (HL t)). rewrite Hs in pl_thread0. apply pl_thread0.
  - intros q l E. destruct (pl_queue0 q l E) as [Hnd Hin]. split; [done|]. intros t.
    split; [intros Ht; by apply Hin|]. intros (th & f & rest & Hth & Hs & Hf & Hw).
    specialize (pl_thread0 t th Hth (HL t)). rewrite Hs in pl_thread0.
    destruct pl_thread0 as [|(_ & f' & rest' & q' & Hf' & Hw' & Hq')]; [congruence|].
    rewrite Hf in Hf'. injection Hf' as <- <-. rewrite Hw in Hw'. injection Hw' as <-. by rewrite E in Hq'.
  - intros t th Hth. rewrite <- Hrun. split.
    + intros Hs. specialize (pl_thread0 t th Hth (HL t)). by rewrite Hs in pl_thread0.
    + intros Ht. destruct (pl_running0 t Ht) as (th' & Hth' & Hs). congruence.
Qed.

(** C30: the value of a semaphore, an [int], is its initial value, plus the [V]s and less the completed
    [P]s since it was made, wrapped to 32 bits, whoever waits and in whatever order threads run; the
    value is that count itself as long as the count is an [int].  When no semaphore is made with a
    negative value the count never goes below zero, and neither does the value before the count
    reaches [2^31], where [V] makes it negative. *)
Theorem semaphore_value_is_count main g k s sem :
  run_of ustep main g k → semaphores k !! s = Some sem →
  value sem = s32 (sem_count s (history k)) ∧
  (is_s32 (sem_count s (history k)) → value sem = sem_count s (history k)) ∧
  (Forall nonneg_start (history k) → 0 ≤ sem_count s (history k) ∧
     (sem_count s (history k) < 2 ^ 31 → 0 ≤ value sem) ∧
     (sem_count s (history k) = 2 ^ 31 → value sem = - 2 ^ 31)).
Proof.
  intros Hr E.
  destruct (run_invariant ustep counted main g k (boot_counted main g) counted_atom Hr s sem E) as [Hv Hn].
  split; [done|]. split; [intros Hi; by rewrite Hv, s32_small|]. intros Hf. specialize (Hn Hf).
  split; [done|]. rewrite Hv. split; intros Hc; [rewrite s32_small by (unfold is_s32; lia); lia|by rewrite Hc].
Qed.

(** C31: locks exclude: between two acquisitions of a lock it is released by the thread that made
    the first, and the lock's fields say whether it is held and by whom. *)
Theorem lock_mutual_exclusion main g k l :
  run_of ustep main g k →
  (∀ h1 t h2 t' h3, history k = h1 ++ Acquired t l :: h2 ++ Acquired t' l :: h3 → Released t l ∈ h2) ∧
  (∀ lk, locks k !! l = Some lk → isLocked lk = bool_decide (is_Some (currThread lk)) ∧
     holder_of l (history k) = Some (currThread lk)).
Proof.
  intros Hr. destruct (run_invariant ustep guarded main g k (boot_guarded main g) guarded_atom Hr) as [Hb Hh].
  split.
  - intros h1 t h2 t' h3 E. destruct (decide (Released t l ∈ h2)) as [|Hn]; [done|]. exfalso.
    specialize (Hh l). rewrite E in Hh. unfold holder_of in Hh. rewrite foldl_app in Hh. cbn in Hh.
    rewrite decide_True in Hh by done.
    destruct (foldl (hold l) (Some None) h1) as [[t0|]|]; try (rewrite hold_None in Hh; done).
    assert (foldl (hold l) (Some (Some t)) (h2 ++ Acquired t' l :: h3) ≠ None) as Hok by congruence.
    destruct (hold_released l t h2 _ Hok Hn) as [E2 _].
    rewrite foldl_app, E2 in Hok. cbn in Hok. rewrite decide_True in Hok by done. by rewrite hold_None in Hok.
  - intros lk E. split; [by apply (Hb l)|]. by rewrite Hh, E.
Qed.

(** C32: no wakeup is lost: when the processor idles and no thread is ready, a thread that waits
    for a semaphore waits at value zero or less, and a thread that waits for a lock waits for one that
    is held. *)
Theorem no_lost_wakeup main g k :
  run_of ustep main g k → idle k = true → readyList k = [] →
  (∀ s sem, semaphores k !! s = Some sem → s_queue sem ≠ [] → value sem ≤ 0) ∧
  (∀ l lk, locks k !! l = Some lk → l_queue lk ≠ [] → isLocked lk = true).
Proof.
  intros Hr Hi Hre. pose proof Hr as Hwf. apply run_wf in Hwf. unfold wf in Hwf. rewrite Hi in Hwf.
  destruct Hwf as [Hp _].
  destruct (run_invariant ustep awake main g k (boot_awake main g) awake_atom Hr) as [Hs Hl].
  assert (∀ f q l t, waits_on f = Some q → queue_of k q = Some l → ¬ on_way k f l t) as Hno.
  { intros f q l t Hw Hq (th & rest & Hth & Hf & Hn).
    pose proof (pl_thread _ _ _ Hp t th Hth (not_elem_of_empty t)) as Ht.
    destruct (status th); try done.
    - destruct Ht as [u Ht]. rewrite Hf in Ht. injection Ht as -> _. done.
    - destruct Ht as [Ht _]. rewrite Hre in Ht. by apply elem_of_nil in Ht.
    - destruct Ht as [|(_ & f' & rest' & q' & Hf' & Hw' & Hin)]; [congruence|].
      rewrite Hf in Hf'. injection Hf' as <- <-. rewrite Hw in Hw'. injection Hw' as <-.
      by rewrite Hq in Hin. }
  split.
  - intros s sem E Hne. destruct (Hs s sem E Hne) as (n & W & Hv & Hnr & HW).
    assert (W = ∅) as ->.
    { apply set_eq. intros t. split; [|set_solver]. intros Ht. exfalso.
      apply (Hno (InP s) (QSem s) (s_queue sem) t); [done| |by apply HW]. cbn. by rewrite E. }
    rewrite size_empty in Hnr. replace n with 0 in Hv by lia. by rewrite Hv.
  - intros l lk E Hne. destruct (isLocked lk) eqn:Hb; [done|]. exfalso.
    destruct (Hl l lk E Hne Hb) as [t Ht]. apply (Hno (InAcquire l) (QLock l) (l_queue lk) t); [done| |done].
    cbn. by rewrite E.
Qed.
End guarantees.

(** ** A program for the witnesses

    The main thread makes a semaphore (2) and a lock (3), forks a thread (4), takes the lock and
    waits at the semaphore; the forked thread waits for the lock. *)
Definition demo (pc : nat) (_ : unit) : option (unit * call nat * (nat → nat)) :=
  match pc with
  | 0 => Some (tt, CallNewSemaphore 0, λ _, 1)
  | 1 => Some (tt, CallNewLock, λ _, 2)
  | 2 => Some (tt, CallNewThread 10 false, λ _, 3)
  | 3 => Some (tt, CallFork 4, λ _, 4)
  | 4 => Some (tt, CallAcquire 3, λ _, 5)
  | 5 => Some (tt, CallP 2, λ _, 6)
  | 6 => Some (tt, CallRelease 3, λ _, 7)
  | 10 => Some (tt, CallAcquire 3, λ _, 11)
  | 11 => Some (tt, CallRelease 3, λ _, 12)
  | _ => None
  end%nat.

Definition demo_after (chs : list choice) : Kernel nat unit :=
  match run demo chs (booted 0%nat tt) with Ret k => k | _ => booted 0%nat tt end.

(** Both threads sleep; later both have had the lock. *)
Definition demo_stuck : Kernel nat unit := demo_after (replicate 7 Go).
Definition demo_end : Kernel nat unit := demo_after (replicate 7 Go ++ [DeviceV 2; WakeUp] ++ replicate 6 Go).

Lemma demo_stuck_run : run_of demo 0%nat tt demo_stuck.
Proof. apply (run_reaches demo 0%nat tt (booted 0%nat tt) (replicate 7 Go)); vm_compute; reflexivity. Qed.

Lemma demo_end_run : run_of demo 0%nat tt demo_end.
Proof.
  apply (run_reaches demo 0%nat tt (booted 0%nat tt) (replicate 7 Go ++ [DeviceV 2; WakeUp] ++ replicate 6 Go));
    vm_compute; reflexivity.
Qed.

Lemma every_thread_in_its_place_witness :
  (∀ t, t ∈ (readyList demo_stuck).*2 ↔ ∃ th, threads demo_stuck !! t = Some th ∧ status th = READY) ∧
  queue_of demo_stuck (QSem 2) = Some [(0, 0%nat)] ∧ queue_of demo_stuck (QLock 3) = Some [(0, 4%nat)].
Proof.
  split; [|vm_compute; done]. apply (every_thread_in_its_place demo 0%nat tt demo_stuck demo_stuck_run).
Defined.

Lemma semaphore_value_is_count_witness :
  ∃ sem, semaphores demo_end !! 2%nat = Some sem ∧ value sem = sem_count 2 (history demo_end) ∧
    sem_count 2 (history demo_end) = 0.
Proof.
  eexists. split; [vm_compute; reflexivity|]. split; [|vm_compute; reflexivity].
  apply (semaphore_value_is_count demo 0%nat tt demo_end 2 _ demo_end_run); vm_compute;
    [reflexivity|split; congruence].
Defined.

Lemma lock_mutual_exclusion_witness :
  ∃ h1 h2 h3, history demo_end = h1 ++ Acquired 0 3 :: h2 ++ Acquired 4 3 :: h3 ∧ Released 0 3 ∈ h2.
Proof.
  assert (∃ h1 h2 h3, history demo_end = h1 ++ Acquired 0 3 :: h2 ++ Acquired 4 3 :: h3) as (h1 & h2 & h3 & E).
  { exists [NewSemaphore 1 1; NewSemaphore 2 0; NewSemaphore 5 1], [DidV 2; DidP 0 2; Released 0 3; Finished 0; Deleted 0],
      (drop 10 (history demo_end)). vm_compute. reflexivity. }
  exists h1, h2, h3. split; [exact E|].
  apply (proj1 (lock_mutual_exclusion demo 0%nat tt demo_end 3 demo_end_run) h1 0%nat h2 4%nat h3 E).
Defined.

Lemma no_lost_wakeup_witness :
  idle demo_stuck = true ∧ readyList demo_stuck = [] ∧
  ∃ lk, locks demo_stuck !! 3%nat = Some lk ∧ l_queue lk = [(0, 4%nat)] ∧ isLocked lk = true.
Proof.
  split; [vm_compute; reflexivity|]. split; [vm_compute; reflexivity|].
  eexists. split; [vm_compute; reflexivity|]. split; [reflexivity|].
  apply (proj2 (no_lost_wakeup demo 0%nat tt demo_stuck demo_stuck_run ltac:(vm_compute; reflexivity)
    ltac:(vm_compute; reflexivity)) 3%nat); [vm_compute; reflexivity|done].
Defined.

End Synch.
