(* ===== verification/Monitor.v ===== *)
(** * Data under a lock

    The rule for programs in which a lock protects data that threads share.  The client says
    which states of its code are inside the monitor ([inside]) and what holds of the shared
    memory, as a function of the state of the thread that holds the lock, if any
    ([J]).  If every step of its code keeps to that ([client]), then in every reachable state only the
    holder of the lock is inside, and [J] holds: whatever the schedule, the
    priorities and the wakeups. *)

From S2P Require Import Prelude NList Kernel Threads Steps.
From stdpp Require Import sorting.
Import Kernel.Kernel Threads.Threads Steps.Steps.

Open Scope Z_scope.

Module Monitor.

Section monitor.
Context {U G : Type}.
Abbreviation K := (Kernel U G).
Implicit Types (k : K) (th : Thread U) (fs : list (frame U)) (u : U) (g : G).
Context (l : nat) (inside : U → bool) (J : G → option U → Prop).

(** The code a thread goes on with after the routines of the kernel. *)
Definition bottom fs : option U := match last fs with Some (InUser u) => Some u | _ => None end.

(** The thread is to take the lock before it goes on. *)
Definition waits fs : bool :=
  match fs with InAcquire l' :: _ | InWait _ l' :: _ => bool_decide (l' = l) | _ => false end.

Definition enter u : Prop := inside u = true ∧ ∀ g, J g None → J g (Some u).

Definition holder k : option nat := locks k !! l ≫= currThread.

Definition thread_ok (h : option nat) (t : nat) fs : Prop :=
  match bottom fs with
  | Some u => if waits fs then enter u ∧ h ≠ Some t else inside u = true ↔ h = Some t
  | None => h ≠ Some t ∧ waits fs = false
  end.

(** The code of the holder. *)
Definition holder_code k : option U := holder k ≫= λ t, threads k !! t ≫= λ th, bottom (frames th).

(** All threads but the current one, which may be on its way. *)
Record monitor_but k : Prop := {
  mb_threads t th : t ≠ currentThread k → threads k !! t = Some th → thread_ok (holder k) t (frames th);
  mb_holder t : holder k = Some t → is_Some (threads k !! t);
  mb_lock lk : locks k !! l = Some lk → isLocked lk = bool_decide (is_Some (currThread lk));
}.

Record monitor k : Prop := {
  mo_but : monitor_but k;
  mo_current th : threads k !! currentThread k = Some th → thread_ok (holder k) (currentThread k) (frames th);
  mo_data : J (shared k) (holder_code k);
}.

Lemma mo_threads k t th : monitor k → threads k !! t = Some th → thread_ok (holder k) t (frames th).
Proof.
  intros Hm E. destruct (decide (t = currentThread k)) as [->|Hne]; [by apply mo_current|].
  by apply mb_threads; [apply Hm|..].
Qed.

Lemma thread_ok_other h h' t fs : thread_ok h t fs → h ≠ Some t → h' ≠ Some t → thread_ok h' t fs.
Proof.
  unfold thread_ok. destruct (bottom fs) as [u|]; [|tauto]. destruct (waits fs); [tauto|].
  intros Hi Hn Hn'. split; [|done]. intros Hu. by destruct Hn; apply Hi.
Qed.

(** Only the holder is inside. *)
Lemma monitor_exclusion k t th u :
  monitor k → threads k !! t = Some th → bottom (frames th) = Some u → waits (frames th) = false →
  inside u = true ↔ holder k = Some t.
Proof.
  intros Hm E Hb Hw. pose proof (mo_threads k t th Hm E) as Ht. unfold thread_ok in Ht.
  by rewrite Hb, Hw in Ht.
Qed.

(** *** Stacks *)
Definition same_view fs fs' : Prop := bottom fs' = bottom fs ∧ waits fs' = waits fs.

Lemma same_view_refl fs : same_view fs fs.
Proof. done. Qed.

Lemma same_view_trans fs1 fs2 fs3 : same_view fs1 fs2 → same_view fs2 fs3 → same_view fs1 fs3.
Proof. intros [] []. split; congruence. Qed.

Lemma bottom_cons f fs : (∀ u, f ≠ InUser u) → bottom (f :: fs) = bottom fs.
Proof. intros Hu. destruct fs as [|f' fs]; [|done]. unfold bottom. cbn. destruct f; try done. destruct (Hu _ eq_refl). Qed.

Lemma waits_calm fs : calm fs → waits fs = false.
Proof. by destruct fs as [|[] ?]. Qed.

(** A routine that does not take the lock. *)
Definition other_frame (f : frame U) : Prop :=
  match f with InAcquire l' | InWait _ l' => l' ≠ l | InUser _ => False | _ => True end.

Lemma same_view_push f fs : other_frame f → calm fs → same_view fs (f :: fs).
Proof.
  intros Hf Hc. split; [by apply bottom_cons; destruct f|]. rewrite (waits_calm fs) by done.
  destruct f; cbn; try done; by rewrite bool_decide_false.
Qed.

Lemma same_view_pop f fs : other_frame f → calm fs → same_view (f :: fs) fs.
Proof. intros. destruct (same_view_push f fs); [done..|]. by split. Qed.

(** *** Nothing happened to the lock *)
Lemma monitor_keep k k' :
  monitor k → (∀ lk, locks k' !! l = Some lk → isLocked lk = bool_decide (is_Some (currThread lk))) →
  holder k' = holder k → shared k' = shared k →
  (∀ t th', threads k' !! t = Some th' →
     (∃ th, threads k !! t = Some th ∧ same_view (frames th) (frames th')) ∨
     (holder k ≠ Some t ∧ thread_ok None t (frames th'))) →
  (∀ t, holder k = Some t → is_Some (threads k' !! t)) → monitor k'.
Proof.
  intros Hm Hlk Hh Hsh Ht Hal.
  assert (∀ t th', threads k' !! t = Some th' → thread_ok (holder k') t (frames th')) as Hok.
  { intros t th' E. rewrite Hh. destruct (Ht t th' E) as [(th & Eth & Hb & Hw)|[Hn Hok]].
    - pose proof (mo_threads k t th Hm Eth) as Hok. unfold thread_ok in *. by rewrite Hb, Hw.
    - by eapply thread_ok_other. }
  split; [split|..]; eauto.
  - intros t. rewrite Hh. apply Hal.
  - rewrite Hsh. replace (holder_code k') with (holder_code k); [apply Hm|].
    unfold holder_code. rewrite Hh. destruct (holder k) as [t|] eqn:Eh; [|done]. cbn.
    destruct (Hal t eq_refl) as [th' E]. rewrite E. destruct (Ht t th' E) as [(th & Eth & Hb & _)|[Hn _]].
    + rewrite Eth. cbn. by rewrite Hb.
    + by destruct Hn.
Qed.

(** Changes of the kernel that keep out of the monitor. *)
Definition outside : rules := mkRules (λ l', l' ≠ l) (λ u, inside u = false) (λ u, inside u = false) False.

Lemma popped_view f k k0 t th' :
  popped f k k0 → other_frame f → threads k0 !! t = Some th' →
  ∃ th, threads k !! t = Some th ∧ same_view (frames th) (frames th') ∧
    (t = currentThread k → calm (frames th')).
Proof.
  intros [[-> (thc & Hc & Hcalm)]|(thc & rest & Hc & Hf & Hcalm & ->)] Hof E.
  - exists th'. split; [done|]. split; [done|]. intros ->. rewrite Hc in E. by injection E as <-.
  - cbn in E. rewrite lookup_alter in E. case_decide as Ht.
    + subst. rewrite Hc in E. injection E as <-. exists thc. split; [done|]. rewrite Hf. split; [|done].
      by apply same_view_pop.
    + exists th'. split; [done|]. split; [done|by intros ->].
Qed.

Lemma blocked_view f k t th' :
  other_frame f → threads (blocked f k) !! t = Some th' →
  (∀ th, threads k !! t = Some th → t = currentThread k → calm (frames th)) →
  ∃ th, threads k !! t = Some th ∧ same_view (frames th) (frames th').
Proof.
  intros Hof E Hc. cbn in E. rewrite lookup_alter in E. case_decide as Ht; [|by exists th'].
  subst t. apply fmap_Some in E as (th & Eth & ->). exists th. split; [done|]. cbn.
  apply same_view_push; [done|]. by apply Hc.
Qed.

Lemma popped_alive f k k0 t : popped f k k0 → is_Some (threads k !! t) → is_Some (threads k0 !! t).
Proof.
  intros [[-> _]|(thc & rest & Hc & Hf & Hcalm & ->)] Hs; [done|]. cbn. rewrite lookup_alter.
  case_decide; [subst t|done]. by rewrite fmap_is_Some.
Qed.

Lemma blocked_alive f k t : is_Some (threads k !! t) → is_Some (threads (blocked f k) !! t).
Proof. intros Hs. cbn. rewrite lookup_alter. case_decide; [subst t|done]. by rewrite fmap_is_Some. Qed.

Lemma turns_view fs fs' h t :
  turns outside fs fs' → unasking fs → thread_ok h t fs →
  same_view fs fs' ∨ (h ≠ Some t ∧ thread_ok None t fs').
Proof.
  intros Ht Hu Hok. destruct Ht as [|t' Hc|f rest -> Hc Hf|fs' Hend Hfs'|fs' []].
  - by left.
  - left. by apply same_view_push.
  - left. apply same_view_pop; [|done]. by destruct f.
  - right. assert (h ≠ Some t) as Hn.
    { destruct Hend as [->|(u & -> & Hiu)]; [apply Hok|]. cbn in Hiu. unfold thread_ok in Hok. cbn in Hok.
      intros Ht. apply Hok in Ht. congruence. }
    split; [done|]. by destruct Hfs' as [-> | ->].
Qed.

Lemma monitor_same_threads k k' :
  monitor k → (∀ lk, locks k' !! l = Some lk → isLocked lk = bool_decide (is_Some (currThread lk))) →
  holder k' = holder k → shared k' = shared k → threads k' = threads k → monitor k'.
Proof.
  intros Hm Hlk Hh Hsh Et. eapply monitor_keep; try done; rewrite Et.
  - intros t th' E. left. by exists th'.
  - apply Hm.
Qed.

(** The change of a lock other than [l]. *)
Lemma other_lock k k' l' lk' :
  monitor k → l' ≠ l → locks k' = <[l' := lk']> (locks k) →
  (∀ lk, locks k' !! l = Some lk → isLocked lk = bool_decide (is_Some (currThread lk))) ∧
  holder k' = holder k.
Proof.
  intros Hm Hne El. unfold holder. rewrite El, lookup_insert_ne by done. split; [apply Hm|done].
Qed.

(** A routine that sleeps or goes on in a queue other than that of [l]. *)
Lemma monitor_asked f k k0 k' :
  monitor k → popped f k k0 → other_frame f →
  (∀ lk, locks k' !! l = Some lk → isLocked lk = bool_decide (is_Some (currThread lk))) →
  holder k' = holder k → shared k' = shared k →
  threads k' = threads k0 ∨ (∃ k1, threads k' = threads (blocked f k1) ∧ threads k1 = threads k0 ∧
    currentThread k1 = currentThread k) → monitor k'.
Proof.
  intros Hm Hp Hof Hlk Hh Hsh Ht. eapply monitor_keep; try done.
  - intros t th' E. left. destruct Ht as [Et|(k1 & Et & E1 & Ec)]; rewrite Et in E.
    + destruct (popped_view f k k0 t th' Hp Hof E) as (th & ? & ? & _). eauto.
    + destruct (blocked_view f k1 t th' Hof E) as (th1 & Eth1 & Hv).
      * intros th Eth ->. rewrite E1, Ec in Eth.
        destruct (popped_view f k k0 _ th Hp Hof Eth) as (? & _ & _ & Hcalm). by apply Hcalm.
      * rewrite E1 in Eth1. destruct (popped_view f k k0 t th1 Hp Hof Eth1) as (th & ? & ? & _).
        exists th. split; [done|]. by eapply same_view_trans.
  - intros t Hh0. pose proof (mb_holder _ (mo_but _ Hm) t Hh0) as Hs.
    apply (popped_alive f k k0) in Hs; [|done]. destruct Ht as [->|(k1 & -> & E1 & _)]; [done|].
    apply blocked_alive. by rewrite E1.
Qed.

Lemma monitor_lock k : monitor k →
  ∀ lk, locks k !! l = Some lk → isLocked lk = bool_decide (is_Some (currThread lk)).
Proof. intros Hm. apply Hm. Qed.

Lemma popped_shared f k k0 : popped f k k0 → shared k0 = shared k.
Proof. by intros [[-> _]|(? & ? & ? & ? & ? & ->)]. Qed.

Lemma popped_currentThread f k k0 : popped f k k0 → currentThread k0 = currentThread k.
Proof. by intros [[-> _]|(? & ? & ? & ? & ? & ->)]. Qed.

Lemma monitor_quiet k k' : monitor k → quiet k k' → monitor k'.
Proof.
  intros Hm Hq. eapply monitor_keep; [exact Hm| | |apply Hq|..].
  - rewrite (qu_locks _ _ Hq). apply Hm.
  - unfold holder. by rewrite (qu_locks _ _ Hq).
  - intros t th' E. left. destruct (qu_threads _ _ Hq t th' E) as (th & Eth & Hc). exists th.
    split; [done|]. unfold core in Hc. injection Hc as _ _ _ _ _ ->. apply same_view_refl.
  - intros t Hh. destruct (mb_holder _ (mo_but _ Hm) t Hh) as [th E].
    apply (qu_alive _ _ Hq t th E). intros Hf. pose proof (mo_threads k t th Hm E) as Hok.
    rewrite Hf in Hok. by destruct Hok.
Qed.

Lemma monitor_atom k k' : monitor k → atom outside k k' → monitor k'.
Proof.
  intros Hm Ha. destruct Ha as [k' Hq|s sem k0 Hp _ _|s sem p k0 Hp _ _|s sem _ _|l' lk k0 HR Hp E Hf
    |l' lk p k0 HR Hp E Hb|l' lk HR E Hc _|c cond p l' HR Hcalm|c q|v|Hn| |s|l' lk E Hf|c|t th u Hn Hf HR
    |t th f Hth Hf|f Hf| |g []|t|];
    try (by apply (monitor_same_threads k); [done|apply Hm|..]).
  - by eapply monitor_quiet.
  - eapply (monitor_asked (InP s)); [done|done|done|..|by left].
    + cbn. rewrite (popped_locks _ _ _ Hp). apply Hm.
    + unfold holder. cbn. by rewrite (popped_locks _ _ _ Hp).
    + cbn. by rewrite (popped_shared _ _ _ Hp).
  - eapply (monitor_asked (InP s)); [done|done|done|..].
    + cbn. rewrite (popped_locks _ _ _ Hp). apply Hm.
    + unfold holder. cbn. by rewrite (popped_locks _ _ _ Hp).
    + cbn. by rewrite (popped_shared _ _ _ Hp).
    + right. eexists. split; [reflexivity|]. split; [done|]. cbn. by rewrite (popped_currentThread _ _ _ Hp).
  - destruct (other_lock k (a_done l' lk k0) l' (mkLock true (l_queue lk) (Some (currentThread k0))))
      as [H1 H2]; [done|done|cbn; by rewrite (popped_locks _ _ _ Hp)|].
    eapply (monitor_asked (InAcquire l')); [done|done|done|done|done| |by left].
    cbn. by rewrite (popped_shared _ _ _ Hp).
  - destruct (other_lock k (a_waits l' lk p k0) l' (mkLock true (k_insert p (currentThread k0) (l_queue lk)) (currThread lk)))
      as [H1 H2]; [done|done|cbn; by rewrite (popped_locks _ _ _ Hp)|].
    eapply (monitor_asked (InAcquire l')); [done|done|done|done|done|..].
    + cbn. by rewrite (popped_shared _ _ _ Hp).
    + right. eexists. split; [reflexivity|]. split; [done|]. cbn. by rewrite (popped_currentThread _ _ _ Hp).
  - destruct (other_lock k (r_done l' lk k) l' (mkLock false (tail (l_queue lk)) None)) as [H1 H2]; [done..|].
    by eapply monitor_same_threads.
  - eapply monitor_keep; [done|apply Hm|done|done|..].
    + intros t th' E. left. eapply (blocked_view (InWait c l')); [done|exact E|]. intros th Eth ->. by apply Hcalm.
    + intros t Ht. apply blocked_alive. cbn. by apply Hm.
  - eapply monitor_same_threads; [done|..|done|done].
    + intros lk E. cbn in E. apply lookup_insert_Some in E as [[_ <-]|[_ E]]; [done|]. by apply Hm.
    + unfold holder. cbn. rewrite lookup_insert. case_decide as El; [|done]. by rewrite <- El, Hn.
  - eapply monitor_same_threads; [done|..|done|done].
    + intros lk' E'. cbn in E'. apply lookup_delete_Some in E' as [_ E']. by apply Hm.
    + unfold holder. cbn. rewrite lookup_delete. case_decide as El; [|done]. subst l'. rewrite E. cbn.
      pose proof (monitor_lock k Hm lk E) as Hb. rewrite Hf in Hb. symmetry in Hb.
      apply bool_decide_eq_false in Hb. destruct (currThread lk); [|done]. by destruct Hb.
  - eapply monitor_keep; [done|apply Hm|done|done|..].
    + intros t' th' E. cbn in E. apply lookup_insert_Some in E as [[<- <-]|[_ E]]; [right|left; by exists th'].
      split; [|rewrite Hf; unfold thread_ok; cbn; cbn in HR; rewrite HR; done].
      intros Hh. destruct (mb_holder _ (mo_but _ Hm) t Hh). congruence.
    + intros t' Ht. cbn. rewrite lookup_insert. case_decide; [by eexists|]. by apply Hm.
  - eapply monitor_keep; [done|apply Hm|done|done|..].
    + intros t' th' E. left. cbn in E. apply lookup_insert_Some in E as [[<- <-]|[_ E]].
      * exists th. split; [done|]. by rewrite Hf.
      * by exists th'.
    + intros t' Ht. cbn. rewrite lookup_insert. case_decide; [by eexists|]. by apply Hm.
  - eapply monitor_keep; [done|apply Hm|done|done|..].
    + intros t th' E. cbn in E. rewrite lookup_alter in E. case_decide as Ht; [|left; by exists th'].
      subst t. apply fmap_Some in E as (th & Eth & ->). destruct (Hf th Eth) as [Hu Ht].
      destruct (turns_view _ _ _ _ Ht Hu (mo_current _ Hm th Eth)) as [Hv|Hv]; [left; by exists th|by right].
    + intros t Ht. cbn. rewrite lookup_alter. case_decide; [subst t; rewrite fmap_is_Some|]; by apply Hm.
Qed.

Lemma atoms_monitor k k' : monitor k → rtc (atom outside) k k' → monitor k'.
Proof. intros Hm Ha. induction Ha; [done|]. apply IHHa. by eapply monitor_atom. Qed.

(** ** The client's obligations *)
Context (ustep : U → G → option (G * call U * (nat → U))).

(** A step that does not take or give back the lock. *)
Definition plain u g g' (next : nat → U) : Prop :=
  ∀ n, inside (next n) = inside u ∧
    if inside u then J g (Some u) → J g' (Some (next n)) else ∀ o, J g o → J g' o.

Definition obligation u g g' (c : call U) (next : nat → U) : Prop :=
  match c with
  | CallAcquire l' =>
      if decide (l' = l) then inside u = false ∧ (∀ o, J g o → J g' o) ∧ ∀ n, enter (next n)
      else plain u g g' next
  | CallRelease l' =>
      if decide (l' = l) then inside u = true ∧ (J g (Some u) → J g' None) ∧ ∀ n, inside (next n) = false
      else plain u g g' next
  | CallWait _ l' =>
      if decide (l' = l) then inside u = true ∧ (J g (Some u) → J g' None) ∧ ∀ n, enter (next n)
      else plain u g g' next
  | CallNewThread code _ => inside code = false ∧ plain u g g' next
  | CallFinish => inside u = false ∧ plain u g g' next
  | _ => plain u g g' next
  end.

Record client : Prop := {
  cl_step u g g' c next : ustep u g = Some (g', c, next) → obligation u g g' c next;
  cl_end u g : ustep u g = None → inside u = false;
}.

(** *** Taking the lock *)
Lemma acquire_monitor k fs u k' :
  monitor_but k → running k fs → calm fs → stack_ok fs → bottom fs = Some u → enter u →
  holder k ≠ Some (currentThread k) → J (shared k) (holder_code k) →
  acquire_loop l k = Ret k' → monitor k'.
Proof.
  intros [Ht Hh Hlk] Hr Hc Hok Hb He Hn HJ E.
  assert (∃ lk, locks k !! l = Some lk) as [lk El].
  { unfold acquire_loop in E. inv_ret. eauto using find_inv. }
  destruct (isLocked lk) eqn:Hl.
  - destruct (acquire_sleeps l k fs lk Hr Hc Hok El Hl) as (p & k1 & E1 & _ & Hq).
    rewrite E1 in E. injection E as <-. eapply monitor_quiet; [|exact Hq]. clear E1 Hq.
    assert (holder (blocked (InAcquire l) (a_waits l lk p k)) = holder k) as Hhold.
    { unfold holder. cbn. by rewrite lookup_insert_eq, El. }
    assert (∀ t, t ≠ currentThread k →
      threads (blocked (InAcquire l) (a_waits l lk p k)) !! t = threads k !! t) as Hother.
    { intros t Hne. cbn. by rewrite lookup_alter_ne. }
    split; [split|..].
    + intros t th Hne Eth. rewrite Hhold. rewrite Hother in Eth by done. by apply Ht.
    + intros t. rewrite Hhold. intros Ht'. apply blocked_alive. by apply Hh.
    + intros lk' E'. cbn in E'. rewrite lookup_insert_eq in E'. injection E' as <-. cbn. rewrite <- Hl. by apply Hlk.
    + intros th Eth. rewrite Hhold. cbn in Eth |- *. destruct Hr as [_ _ (th0 & Eth0 & <-)].
      rewrite lookup_alter_eq, Eth0 in Eth. injection Eth as <-. unfold thread_ok.
      cbn [frames set_status set_frames]. rewrite bottom_cons, Hb by done. cbn. by rewrite bool_decide_true.
    + replace (holder_code _) with (holder_code k); [done|]. unfold holder_code. rewrite Hhold.
      destruct (holder k) as [t|] eqn:Eh; [|done]. cbn [mbind option_bind]. rewrite Hother; [done|congruence].
  - destruct (acquire_passes l k fs lk Hr El Hl) as [E1 _]. rewrite E1 in E. injection E as <-.
    assert (holder k = None) as Hnone.
    { unfold holder. rewrite El. cbn. specialize (Hlk lk El). rewrite Hl in Hlk. symmetry in Hlk.
      apply bool_decide_eq_false in Hlk. destruct (currThread lk); [|done]. by destruct Hlk. }
    assert (holder (a_done l lk k) = Some (currentThread k)) as Hhold.
    { unfold holder. cbn. by rewrite lookup_insert_eq. }
    destruct Hr as [_ _ (th0 & Eth0 & Hfs)]. split; [split|..].
    + intros t th Hne Eth. rewrite Hhold. apply (thread_ok_other (holder k)).
      * by apply Ht.
      * by rewrite Hnone.
      * cbn in Hne. congruence.
    + intros t. rewrite Hhold. intros [= <-]. cbn. by rewrite Eth0.
    + intros lk' E'. cbn in E'. rewrite lookup_insert_eq in E'. by injection E' as <-.
    + intros th Eth. rewrite Hhold. cbn in Eth. rewrite Eth0 in Eth. injection Eth as <-. rewrite Hfs.
      unfold thread_ok. rewrite Hb, (waits_calm fs) by done. split; [done|]. intros _. apply He.
    + unfold holder_code. rewrite Hhold. cbn. rewrite Eth0. cbn. rewrite Hfs, Hb. apply He.
      unfold holder_code in HJ. by rewrite Hnone in HJ.
Qed.

(** *** Giving it back *)
Lemma release_but k fs lk :
  monitor_but k → running k fs → locks k !! l = Some lk → holder k = Some (currentThread k) →
  monitor_but (r_done l lk k) ∧ holder (r_done l lk k) = None.
Proof.
  intros [Ht Hh Hlk] Hr El Ho.
  assert (holder (r_done l lk k) = None) as Hn by (unfold holder; cbn; by rewrite lookup_insert_eq).
  split; [|done]. split.
  - intros t th Hne Eth. rewrite Hn. apply (thread_ok_other (holder k)); [by apply Ht| |done].
    rewrite Ho. cbn in Hne. congruence.
  - intros t. by rewrite Hn.
  - intros lk' E'. cbn in E'. rewrite lookup_insert_eq in E'. by injection E' as <-.
Qed.

Lemma moved_but k k' : moved k k' → monitor_but k → monitor_but k' ∧ holder k' = holder k.
Proof.
  intros Hmv [Ht Hh Hlk]. assert (locks k' = locks k) as El by apply (mv_sync _ _ Hmv).
  assert (holder k' = holder k) as Ho by (unfold holder; by rewrite El). split; [|done]. split.
  - intros t th Hne Eth. rewrite Ho. rewrite (mv_current _ _ Hmv) in Hne.
    destruct (moved_thread' k k' t th Hmv Eth) as (th0 & Eth0 & Hc). unfold core in Hc.
    injection Hc as _ _ _ _ _ ->. by apply Ht.
  - intros t. rewrite Ho. intros Ht'. destruct (Hh t Ht') as [th Eth].
    destruct (moved_thread k k' t th Hmv Eth) as (th' & E & _). eauto.
  - rewrite El. apply Hlk.
Qed.

Lemma release_monitor k u k' :
  monitor_but k → running k [InUser u] → inside u = false → holder k = Some (currentThread k) →
  J (shared k) None → Release l k = Ret k' → monitor k'.
Proof.
  intros Hm Hr Hu Ho HJ E. assert (∃ lk, locks k !! l = Some lk) as [lk El].
  { unfold Release in E. inv_ret. eauto using find_inv. }
  assert (currThread lk = Some (currentThread k)) as Hc by (unfold holder in Ho; by rewrite El in Ho).
  destruct (Release_running l k _ lk Hr El Hc) as (k1 & E1 & _ & Hmv). rewrite E1 in E. injection E as <-.
  eapply monitor_quiet; [|by apply moved_quiet].
  destruct (release_but k _ lk Hm Hr El Ho) as [Hb Hn]. split; [done|..].
  - intros th Eth. rewrite Hn. destruct Hr as [_ _ (th0 & Eth0 & Hf)]. cbn in Eth. rewrite Eth0 in Eth.
    injection Eth as <-. rewrite Hf. unfold thread_ok. cbn. by rewrite Hu.
  - unfold holder_code. by rewrite Hn.
Qed.

Lemma wait_monitor c k u k' :
  monitor_but k → running k [InUser u] → enter u → holder k = Some (currentThread k) →
  J (shared k) None → Wait c l k = Ret k' → monitor k'.
Proof.
  intros Hm Hr Hu Ho HJ E. assert (∃ lk cond, locks k !! l = Some lk ∧ conditions k !! c = Some cond) as (lk & cond & El & Ec).
  { unfold Wait in E. inv_ret. apply find_inv in Hrun. apply find_inv in Hrun2. exists r.
    destruct (Release_running l k _ r Hr Hrun) as (k1 & E1 & _ & Hmv); [by apply held_inv|].
    rewrite E1 in Hrun1. injection Hrun1 as <-. rewrite (ss_conditions _ _ (mv_sync _ _ Hmv)) in Hrun2. eauto. }
  assert (currThread lk = Some (currentThread k)) as Hc by (unfold holder in Ho; by rewrite El in Ho).
  destruct (Wait_sleeps c l k _ lk cond Hr I I El Hc Ec) as (p & k1 & k2 & E1 & _ & Hmv & Hq).
  rewrite E1 in E. injection E as <-. eapply monitor_quiet; [|exact Hq].
  destruct (release_but k _ lk Hm Hr El Ho) as [Hb Hn].
  destruct (moved_but _ _ Hmv Hb) as [[Ht Hh Hlk] Hn1]. rewrite Hn in Hn1.
  split; [split|..].
  - intros t th Hne Eth. cbn in Hne, Eth. rewrite lookup_alter_ne in Eth by done. by apply Ht.
  - intros t Ht'. apply blocked_alive. by apply Hh.
  - apply Hlk.
  - intros th Eth. change (holder (blocked _ _)) with (holder k1). rewrite Hn1. cbn in Eth.
    rewrite lookup_alter_eq in Eth. apply fmap_Some in Eth as (th1 & Eth1 & ->).
    rewrite (mv_current _ _ Hmv) in Eth1. destruct (moved_thread' _ k1 _ th1 Hmv Eth1) as (th0 & Eth0 & Hcore).
    destruct Hr as [_ _ (th2 & Eth2 & Hf)]. cbn in Eth0. rewrite Eth2 in Eth0. injection Eth0 as <-.
    unfold core in Hcore. injection Hcore as _ _ _ _ _ Hf1.
    cbn [frames set_status set_frames]. rewrite Hf1, Hf. unfold thread_ok. cbn. by rewrite bool_decide_true.
  - unfold holder_code. change (holder (blocked _ _)) with (holder k1). rewrite Hn1. cbn.
    by rewrite (ss_shared _ _ (mv_sync _ _ Hmv)).
Qed.

(** *** Steps of the current thread *)
Lemma pop_but k f rest : running k (f :: rest) → monitor_but k → monitor_but (current_with (set_frames rest) k).
Proof.
  intros _ [Ht Hh Hlk]. split; [|..|done].
  - intros t th Hne Eth. cbn in Eth. rewrite lookup_alter_ne in Eth; [by apply Ht|]. cbn in Hne. congruence.
  - intros t Ht'. cbn. rewrite lookup_alter. case_decide; [subst t; rewrite fmap_is_Some|]; by apply Hh.
Qed.

Lemma resume_monitor f rest k k' :
  monitor k → running k (f :: rest) → stack_ok (f :: rest) → (∀ u, f ≠ InUser u) →
  resume f (current_with (set_frames rest) k) = Ret k' → monitor k'.
Proof.
  intros Hm Hr Hok Hu E.
  destruct (decide (waits (f :: rest) = true)) as [Hw|Hw].
  - destruct (update_current (set_frames rest) k (f :: rest) rest Hr) as [_ Hr1]; [done..|].
    pose proof Hr as [_ _ (th & Eth & Hf)]. pose proof (mo_current _ Hm th Eth) as Hth. rewrite Hf in Hth.
    unfold thread_ok in Hth. rewrite Hw in Hth. destruct (bottom (f :: rest)) as [u|] eqn:Hb; [|by destruct Hth].
    destruct Hth as [He Hn]. rewrite bottom_cons in Hb by done.
    assert (calm rest ∧ stack_ok rest) as [Hc Hs] by (by destruct f).
    assert (acquire_loop l (current_with (set_frames rest) k) = Ret k') as E'.
    { destruct f as [|l'|c l'| | |]; cbn in Hw; try done; apply bool_decide_eq_true in Hw as ->; [done|].
      cbn [resume] in E. unfold Acquire in E. by inv_ret. }
    eapply (acquire_monitor _ rest u); try done; [by eapply pop_but, Hm|].
    replace (holder_code _) with (holder_code k); [apply Hm|].
    unfold holder_code. change (holder (current_with _ k)) with (holder k).
    destruct (holder k) as [t|] eqn:Eh; [|done]. cbn. rewrite lookup_alter_ne; [done|congruence].
  - destruct (resume_done_by (outside) f rest k k') as [_ Ha]; try done.
    { destruct f; cbn in Hw |- *; try done; intros ->; by rewrite bool_decide_true in Hw. }
    by eapply atoms_monitor.
Qed.

(** The current thread after a step of its own code. *)
Definition after_user g u k : K :=
  with_shared g (current_with (set_frames [InUser u]) (current_with (set_frames []) k)).

Lemma after_user_but g u k : monitor_but k → monitor_but (after_user g u k).
Proof.
  intros [Ht Hh Hlk]. split; [|..|done].
  - intros t th Hne Eth. cbn in Hne, Eth. rewrite !lookup_alter_ne in Eth by done. by apply Ht.
  - intros t Ht'. cbn. rewrite !lookup_alter. destruct (Hh t Ht') as [th E].
    destruct (decide (currentThread k = t)) as [<-|]; rewrite E, ?decide_True by done; by eexists.
Qed.

Lemma after_user_code g u u0 k :
  running k [InUser u0] →
  holder_code (after_user g u k) = if decide (holder k = Some (currentThread k)) then Some u else holder_code k.
Proof.
  intros [_ _ (th & Eth & _)]. unfold holder_code. change (holder (after_user g u k)) with (holder k).
  destruct (holder k) as [t|] eqn:Eh; [|done]. case_decide as Ht.
  - injection Ht as ->. cbn. by rewrite !lookup_alter_eq, Eth.
  - cbn. rewrite !lookup_alter_ne by congruence. done.
Qed.

Lemma go_monitor k k' :
  client → wf k → monitor k → idle k = false → go ustep k = Ret k' → monitor k'.
Proof.
  intros Hcl Hwf Hm Hi E.
  destruct (go_cases ustep k k' Hwf Hi E) as [(f & rest & Hr & Hok & Hu & E')|(u & Hr & Hr0 & E')].
  - by eapply resume_monitor.
  - pose proof Hr as [_ _ (th & Eth & Hf)].
    assert (inside u = true ↔ holder k = Some (currentThread k)) as Hin.
    { apply (monitor_exclusion k (currentThread k) th); try done; by rewrite Hf. }
    assert (holder k = Some (currentThread k) → J (shared k) (Some u)) as HJu.
    { intros Hh. pose proof (mo_data _ Hm) as HJ. unfold holder_code in HJ. rewrite Hh in HJ. cbn in HJ.
      by rewrite Eth in HJ; cbn in HJ; rewrite Hf in HJ. }
    destruct (ustep u (shared k)) as [[[g c] next]|] eqn:Es.
    + destruct E' as (k3 & Hr3 & -> & E'). set (u' := next (next_id k)) in *.
      change (with_shared g _) with (after_user g u' k) in *.
      pose proof (after_user_but g u' k (mo_but _ Hm)) as Hb3.
      pose proof (after_user_code g u' u k Hr) as Hcode.
      assert (holder (after_user g u' k) = holder k) as Hh3 by done.
      pose proof (cl_step Hcl u (shared k) g c next Es) as Hob.
      assert (plain u (shared k) g next → allowed outside c [InUser u'] → monitor k') as Hplain.
      { intros Hp Hal. destruct (Hp (next_id k)) as [Hin' HJ']. fold u' in Hin', HJ'.
        assert (monitor (after_user g u' k)) as Hm3.
        { split; [done|..].
          - intros th3 Eth3. destruct Hr3 as [_ _ (th4 & Eth4 & Hf4)]. rewrite Eth4 in Eth3.
            injection Eth3 as <-. rewrite Hf4. unfold thread_ok. cbn. by rewrite Hin'.
          - rewrite Hcode. change (shared (after_user g u' k)) with g.
            case_decide as Hh; destruct (inside u) eqn:Hiu.
            + by apply HJ', HJu.
            + apply Hin in Hh. congruence.
            + destruct Hh. by apply Hin.
            + apply HJ', Hm. }
        destruct (do_call_done_by outside c _ _ k' Hal Hr3 I I E') as [_ Ha].
        by eapply atoms_monitor. }
      destruct c as [|s|s|l'|l'|c l'|c l'|c l'|code join|t|t|t p|st| |v|s| |l'| |c]; cbn [obligation] in Hob;
        try (by apply Hplain).
      * case_decide as Hl; [subst l'|by apply Hplain]. destruct Hob as (Hiu & HJ' & He).
        assert (holder k ≠ Some (currentThread k)) as Hn by (rewrite <- Hin; congruence).
        cbn [do_call] in E'. unfold Acquire in E'. inv_ret.
        eapply (acquire_monitor _ [InUser u'] u'); try done; [apply He|].
        rewrite Hcode, decide_False by done. apply HJ', Hm.
      * case_decide as Hl; [subst l'|by apply Hplain]. destruct Hob as (Hiu & HJ' & He).
        eapply (release_monitor _ u'); try done; [apply He|by apply Hin|by apply HJ', HJu, Hin].
      * case_decide as Hl; [subst l'|by apply Hplain]. destruct Hob as (Hiu & HJ' & He).
        eapply (wait_monitor c _ u'); try done; [apply He|by apply Hin|by apply HJ', HJu, Hin].
      * destruct Hob as [Hiu Hp]. by apply Hplain.
      * destruct Hob as [Hiu Hp]. apply Hplain; [done|]. right. exists u'. split; [done|]. cbn.
        destruct (Hp (next_id k)) as [Hp1 _]. fold u' in Hp1. congruence.
    + pose proof (cl_end Hcl u (shared k) Es) as Hiu.
      destruct (Finish_done_by outside _ [] k' Hr0 (or_introl eq_refl) E') as [_ Ha].
      eapply atoms_monitor; [|exact Ha]. eapply monitor_atom; [exact Hm|].
      eapply (at_current_running _ _ _ [InUser u] []); [done|done|by apply calm_unasking|].
      apply turn_finish; [right; by exists u|by left].
Qed.

Lemma schedule_monitor ch k k' :
  client → wf k → monitor k → schedule ustep ch k = Ret k' → monitor k'.
Proof.
  intros Hcl Hwf Hm E. destruct (decide (ch = Go)) as [->|Hne].
  - cbn in E. inv_ret. apply negb_true_iff in Hrun. by apply (go_monitor k).
  - destruct (event_done_by outside ustep ch k k' Hne Hwf E) as [_ Ha]. by eapply atoms_monitor.
Qed.

(** From a state in which the monitor is in order, it stays so. *)
Definition later (k0 : K) : K → Prop := reachable (λ k, k = k0) (steps_to ustep).

Lemma monitor_later k0 k : client → wf k0 → monitor k0 → later k0 k → wf k ∧ monitor k.
Proof.
  intros Hcl Hwf Hm. apply (invariant_reachable _ _ (λ k, wf k ∧ monitor k)); [by intros ? ->|].
  intros k1 k2 _ [Hwf1 Hm1] [ch E]. destruct (schedule_done_by ustep ch k1 k2 Hwf1 E) as [Hwf2 _].
  split; [done|]. by apply (schedule_monitor ch k1 k2).
Qed.
End monitor.

(** ** A machine whose objects are made

    One thread, [main]; locks, conditions and semaphores are numbered from 0. *)
Section machine.
Context {U G : Type}.
Abbreviation K := (Kernel U G).
Implicit Types (k : K).

Definition machine (nlocks nconds : nat) (values : list Z) (main : U) (g : G) : K :=
  mkKernel O false [] {[O := mkThread RUNNING 0 false O O None true [InUser main]]}
    (map_seq 0 ((λ v, mkSem v []) <$> values))
    (gset_to_gmap (mkLock false [] None) (set_seq 0 nlocks))
    (gset_to_gmap (mkCond []) (set_seq 0 nconds))
    None (S (nlocks + nconds + length values)) g [].

Lemma machine_queue nl nc vs main g q l :
  queue_of (machine nl nc vs main g) q = Some l → l = [] ∧ (qid_id q < S (nl + nc + length vs))%nat.
Proof.
  destruct q as [s|l'|c]; cbn.
  - rewrite fmap_Some. intros (sem & E & ->). rewrite lookup_map_seq_0 in E.
    rewrite list_lookup_fmap in E. apply fmap_Some in E as (v & E & ->). apply lookup_lt_Some in E. split; [done|lia].
  - rewrite fmap_Some. intros (lk & E & ->). apply lookup_gset_to_gmap_Some in E as [E <-].
    apply elem_of_set_seq in E. split; [done|lia].
  - rewrite fmap_Some. intros (cond & E & ->). apply lookup_gset_to_gmap_Some in E as [E <-].
    apply elem_of_set_seq in E. split; [done|lia].
Qed.

Lemma machine_wf nl nc vs main g : wf (machine nl nc vs main g).
Proof.
  set (th := mkThread RUNNING 0 false O O None true [InUser main]).
  assert (∀ t th', threads (machine nl nc vs main g) !! t = Some th' → t = O ∧ th' = th) as Hone.
  { intros t th'. cbn. intros [<- <-]%lookup_singleton_Some. done. }
  assert (threads (machine nl nc vs main g) !! O = Some th) as Hth by apply lookup_singleton_eq.
  unfold wf. cbn [idle machine]. split; [|by exists th].
  split; try done.
  - constructor.
  - intros t Ht. by apply elem_of_nil in Ht.
  - intros q l [-> _]%machine_queue. split; [constructor|]. intros t Ht. by apply elem_of_nil in Ht.
  - intros t th' [-> ->]%Hone. done.
  - intros t [= <-]. by exists th.
  - intros t th' [-> ->]%Hone. cbn. lia.
  - intros q l [_ ?]%machine_queue. done.
  - intros t th' f rest q [-> ->]%Hone. done.
Qed.

Lemma machine_lock nl nc vs main g l :
  locks (machine nl nc vs main g) !! l = if decide (l < nl)%nat then Some (mkLock false [] None) else None.
Proof.
  cbn. rewrite lookup_gset_to_gmap. destruct (decide (l < nl)%nat) as [Hl|Hl].
  - rewrite option_guard_True; [done|]. apply elem_of_set_seq. lia.
  - rewrite option_guard_False; [done|]. rewrite elem_of_set_seq. lia.
Qed.

Lemma machine_monitor l inside J nl nc vs main g :
  inside main = false → J g None → monitor l inside J (machine nl nc vs main g).
Proof.
  intros Hm HJ. assert (holder l (machine nl nc vs main g) = None) as Hh.
  { unfold holder. rewrite machine_lock. by case_decide. }
  assert (∀ t th, threads (machine nl nc vs main g) !! t = Some th → thread_ok l inside J None t (frames th)) as Ht.
  { intros t th. cbn. intros [<- <-]%lookup_singleton_Some. unfold thread_ok. cbn. by rewrite Hm. }
  split; [split|..].
  - intros t th _. rewrite Hh. apply Ht.
  - intros t. by rewrite Hh.
  - intros lk. rewrite machine_lock. case_decide; [|done]. by intros [= <-].
  - intros th. rewrite Hh. apply Ht.
  - unfold holder_code. by rewrite Hh.
Qed.

(** The rule, from the beginning: at any time the holder of the lock, and nobody else, is inside, and
    the shared data is in order. *)
Lemma monitor_rule l inside J ustep nl nc vs main g k :
  client l inside J ustep → inside main = false → J g None →
  later ustep (machine nl nc vs main g) k →
  wf k ∧ monitor l inside J k.
Proof.
  intros Hcl Hm HJ Hl. eapply monitor_later; [exact Hcl|apply machine_wf| |exact Hl].
  by apply machine_monitor.
Qed.

Lemma later_run ustep (k0 k k' : K) chs : later ustep k0 k → run ustep chs k = Ret k' → later ustep k0 k'.
Proof.
  revert k. induction chs as [|ch chs IH]; intros k Hl E; cbn in E; [by injection E as <-|]. inv_ret.
  eapply IH; [|done]. eapply reach_step; [done|]. by exists ch.
Qed.

Lemma later_play ustep (k0 k k' : K) fuel : later ustep k0 k → play ustep fuel k = Ret k' → later ustep k0 k'.
Proof.
  revert k. induction fuel as [|fuel IH]; intros k Hl E; cbn [play] in E; [by injection E as <-|].
  destruct (idle k) eqn:Hi.
  - destruct (readyList k); [by injection E as <-|]. inv_ret. eapply IH; [|done].
    eapply reach_step; [done|]. exists WakeUp. cbn. by rewrite Hi.
  - inv_ret. eapply IH; [|done]. eapply reach_step; [done|]. exists Go. cbn. by rewrite Hi.
Qed.
End machine.

End Monitor.
