(* ===== verification/Mailbox.v ===== *)
(** * threads/synch.cc: Mailbox

    Threads whose own code is arbitrary use one mailbox by [Send] and [Receive].  What a
    routine does between two calls of the kernel is one step.  The mailbox's lock
    is lock 0; [mailSnd] and [mailRcv] are conditions 0 and 1. *)

From S2P Require Import Prelude Kernel Threads Steps Monitor.
From stdpp Require Import sorting.
Import Kernel.Kernel Monitor.Monitor.

Open Scope Z_scope.

Module Mailbox.

Section mailbox.
(** The memory the threads share apart from the mailbox. *)
Context {W : Type}.

(** The fields that the routines use. *)
Record Mailbox := mkMailbox { buffer : list Z; numPendingSends : Z; numPendingRecs : Z }.

Definition Mailbox_new : Mailbox := mkMailbox [] 0 0.

(** What has happened: the messages in the order they were sent and delivered, how many [Receive]s
    have begun and how many [Send]s are past their wait, and whether a [NULL] from the buffer
    was dereferenced. *)
Record Log := mkLog {
  sent : list Z; delivered : list Z; receives : Z; passed : Z; null_dereferenced : bool }.

Record Memory := mkMemory { mailbox : Mailbox; logged : Log; world : W }.

Definition lock : nat := 0.
Definition mailSnd : nat := 0.
Definition mailRcv : nat := 1.

(** The code of a thread: what it does to the memory up to its next call of the kernel, of
    [Send] or of [Receive]. *)
Inductive action (C : Type) :=
  | DoCall (c : call C) (next : nat → C)
  | DoSend (message : Z) (next : C)
  | DoReceive (next : Z → C).
#[global] Arguments DoCall {C}.
#[global] Arguments DoSend {C}.
#[global] Arguments DoReceive {C}.
#[warnings="-register-all"]
Inductive code := Code (step : W → option (W * action code)).

(** Where a thread is: in its own code, or in [Send] or [Receive]: with the lock just taken, before
    the test of the loop, or after the [Signal]. *)
Inductive state :=
  | At (c : code)
  | SendLocked (message : Z) (k : code)
  | SendLoop (k : code)
  | SendSignalled (k : code)
  | RecvLocked (k : Z → code)
  | RecvLoop (k : Z → code)
  | RecvSignalled (k : code).

(** The steps of a routine end in a call of the kernel. *)
Abbreviation step := (Memory * call state * (nat → state))%type (only parsing).

Definition Send_test (k : code) (g : Memory) : step :=
  if numPendingRecs (mailbox g) =? 0
  then (g, CallWait mailSnd lock, λ _, SendLoop k)
  else (g, CallSignal mailRcv lock, λ _, SendSignalled k).

Definition Send_locked (message : Z) (k : code) (g : Memory) : step :=
  let 'mkMailbox buf sends recs := mailbox g in
  let 'mkLog s d r p n := logged g in
  Send_test k (mkMemory (mkMailbox (buf ++ [message]) (sends + 1) recs)
    (mkLog (s ++ [message]) d r p n) (world g)).

Definition Send_signalled (k : code) (g : Memory) : step :=
  let 'mkMailbox buf sends recs := mailbox g in
  let 'mkLog s d r p n := logged g in
  (mkMemory (mkMailbox buf sends (recs - 1)) (mkLog s d r (p + 1) n) (world g),
   CallRelease lock, λ _, At k).

(** [*(int* ) buffer->Remove()]: [Remove] gives [NULL] when the buffer is empty, and what follows
    then has no meaning. *)
Definition Recv_test (k : Z → code) (g : Memory) : step :=
  let 'mkMailbox buf sends recs := mailbox g in
  let 'mkLog s d r p n := logged g in
  if sends =? 0 then (g, CallWait mailRcv lock, λ _, RecvLoop k)
  else match buf with
    | [] => (mkMemory (mailbox g) (mkLog s d r p true) (world g),
        CallSignal mailSnd lock, λ _, RecvSignalled (k 0))
    | v :: buf => (mkMemory (mkMailbox buf sends recs) (mkLog s (d ++ [v]) r p n) (world g),
        CallSignal mailSnd lock, λ _, RecvSignalled (k v))
    end.

Definition Recv_locked (k : Z → code) (g : Memory) : step :=
  let 'mkMailbox buf sends recs := mailbox g in
  let 'mkLog s d r p n := logged g in
  Recv_test k (mkMemory (mkMailbox buf sends (recs + 1)) (mkLog s d (r + 1) p n) (world g)).

Definition Recv_signalled (k : code) (g : Memory) : step :=
  let 'mkMailbox buf sends recs := mailbox g in
  (mkMemory (mkMailbox buf (sends - 1) recs) (logged g) (world g), CallRelease lock, λ _, At k).

(** The mailbox's lock is private. *)
Definition permitted (c : call code) : bool :=
  match c with CallAcquire l | CallRelease l | CallWait _ l => negb (l =? lock)%nat | _ => true end.

Definition mailbox_step (s : state) (g : Memory) : option step :=
  match s with
  | At (Code f) =>
      match f (world g) with
      | None => None
      | Some (w, a) =>
          let g := mkMemory (mailbox g) (logged g) w in
          match a with
          | DoCall c next => if permitted c then Some (g, call_map At c, λ n, At (next n)) else None
          | DoSend message next => Some (g, CallAcquire lock, λ _, SendLocked message next)
          | DoReceive next => Some (g, CallAcquire lock, λ _, RecvLocked next)
          end
      end
  | SendLocked message k => Some (Send_locked message k g)
  | SendLoop k => Some (Send_test k g)
  | SendSignalled k => Some (Send_signalled k g)
  | RecvLocked k => Some (Recv_locked k g)
  | RecvLoop k => Some (Recv_test k g)
  | RecvSignalled k => Some (Recv_signalled k g)
  end.

(** *** The monitor of the mailbox *)
Definition inside (s : state) : bool := match s with At _ => false | _ => true end.

Definition in_order (g : Memory) (o : option state) : Prop :=
  let mb := mailbox g in let lg := logged g in
  numPendingSends mb = Z.of_nat (length (buffer mb)) + (match o with Some (RecvSignalled _) => 1 | _ => 0 end) ∧
  sent lg = delivered lg ++ buffer mb ∧
  numPendingRecs mb = receives lg - passed lg ∧ 0 ≤ numPendingRecs mb ∧
  (match o with Some (SendSignalled _) => numPendingRecs mb ≠ 0 | _ => True end) ∧
  null_dereferenced lg = false.

Lemma mailbox_client : client lock inside in_order mailbox_step.
Proof.
  split.
  - intros u [[buf sends recs] [s d r p n] w] g' c next E.
    destruct u as [[f]|m k|k|k|k|k|k]; cbn in E.
    + destruct (f w) as [[w' a]|]; [|done].
      assert (∀ next, plain inside in_order (At (Code f)) (mkMemory (mkMailbox buf sends recs) (mkLog s d r p n) w)
        (mkMemory (mkMailbox buf sends recs) (mkLog s d r p n) w') (λ n, At (next n))) as Hp.
      { intros nx m. split; [done|]. intros o Ho. exact Ho. }
      destruct a as [c0 next0|m next0|next0].
      * destruct (permitted c0) eqn:Hc; [|done]. injection E as <- <- <-.
        destruct c0; cbn [call_map obligation]; try done;
          (rewrite decide_False; [apply Hp|intros ->; done]).
      * injection E as <- <- <-. cbn [obligation]. rewrite decide_True by done.
        split; [done|]. split; [done|]. intros _. split; [done|]. intros g Hg. exact Hg.
      * injection E as <- <- <-. cbn [obligation]. rewrite decide_True by done.
        split; [done|]. split; [done|]. intros _. split; [done|]. intros g Hg. exact Hg.
    + unfold Send_test in E. cbn in E. destruct (Z.eqb_spec recs 0) as [->|Hr]; injection E as <- <- <-;
        cbn [obligation].
      * rewrite decide_True by done. split; [done|]. split; [|intros _; split; [done|]; intros g Hg; exact Hg].
        intros (H1 & H2 & H3 & H4 & _ & H6). cbn in *. split_and!; cbn; try done.
        -- rewrite length_app. cbn. lia.
        -- rewrite H2. by rewrite app_assoc.
      * intros _. split; [done|]. intros (H1 & H2 & H3 & H4 & _ & H6). cbn in *. split_and!; cbn; try done.
        -- rewrite length_app. cbn. lia.
        -- rewrite H2. by rewrite app_assoc.
    + unfold Send_test in E. cbn in E. destruct (Z.eqb_spec recs 0) as [->|Hr]; injection E as <- <- <-;
        cbn [obligation].
      * rewrite decide_True by done. split; [done|]. split; [done|].
        intros _. split; [done|]. intros g Hg. exact Hg.
      * intros _. split; [done|]. by intros (H1 & H2 & H3 & H4 & _ & H6).
    + injection E as <- <- <-. cbn [obligation]. rewrite decide_True by done.
      split; [done|]. split; [|done]. intros (H1 & H2 & H3 & H4 & H5 & H6). cbn in *.
      split_and!; cbn; try done; lia.
    + unfold Recv_test in E. cbn in E. destruct (Z.eqb_spec sends 0) as [->|Hs].
      * injection E as <- <- <-. cbn [obligation]. rewrite decide_True by done. split; [done|].
        split; [|intros _; split; [done|]; intros g Hg; exact Hg].
        intros (H1 & H2 & H3 & H4 & _ & H6). cbn in *. split_and!; cbn; try done; lia.
      * destruct buf as [|v buf]; injection E as <- <- <-; cbn [obligation].
        -- intros _. split; [done|]. intros (H1 & H2 & H3 & H4 & _ & H6). cbn in *. lia.
        -- intros _. split; [done|]. intros (H1 & H2 & H3 & H4 & _ & H6). cbn in *.
           split_and!; cbn; try done; [lia|by rewrite H2, <- app_assoc|lia|lia].
    + unfold Recv_test in E. cbn in E. destruct (Z.eqb_spec sends 0) as [->|Hs].
      * injection E as <- <- <-. cbn [obligation]. rewrite decide_True by done. split; [done|].
        split; [done|]. intros _. split; [done|]. intros g Hg. exact Hg.
      * destruct buf as [|v buf]; injection E as <- <- <-; cbn [obligation].
        -- intros _. split; [done|]. intros (H1 & H2 & H3 & H4 & _ & H6). cbn in *. lia.
        -- intros _. split; [done|]. intros (H1 & H2 & H3 & H4 & _ & H6). cbn in *.
           split_and!; cbn; try done; [lia|by rewrite H2, <- app_assoc].
    + injection E as <- <- <-. cbn [obligation]. rewrite decide_True by done.
      split; [done|]. split; [|done]. intros (H1 & H2 & H3 & H4 & H5 & H6). cbn in *.
      split_and!; cbn; try done; lia.
  - intros u [[buf sends recs] [s d r p n] w] E. destruct u as [[f]|m k|k|k|k|k|k]; try done; cbn in E.
Qed.

(** C33: whatever the threads do and however they are scheduled, as long as they use the mailbox by
    [Send] and [Receive] only: messages are delivered in the order in which they were sent, each once, and
    those not delivered are in the buffer; [Receive] never dereferences the [NULL] of an empty buffer;
    no more [Send]s get past their wait than [Receive]s have begun; and while a
    thread is inside one of the routines it holds the lock. *)
Theorem mailbox_delivers_in_order nl nc values c w k :
  later mailbox_step (machine nl nc values (At c)
    (mkMemory Mailbox_new (mkLog [] [] 0 0 false) w)) k →
  let mb := mailbox (shared k) in let lg := logged (shared k) in
  sent lg = delivered lg ++ buffer mb ∧ null_dereferenced lg = false ∧
  numPendingRecs mb = receives lg - passed lg ∧ passed lg ≤ receives lg ∧
  (holder lock k = None → numPendingSends mb = Z.of_nat (length (buffer mb))) ∧
  (∀ t th s, threads k !! t = Some th → bottom (frames th) = Some s → waits lock (frames th) = false →
     inside s = true ↔ holder lock k = Some t).
Proof.
  intros Hl. destruct (monitor_rule lock inside in_order mailbox_step nl nc values (At c)
    (mkMemory Mailbox_new (mkLog [] [] 0 0 false) w) k mailbox_client eq_refl) as [_ Hm]; [done|done|].
  destruct (mo_data _ _ _ _ Hm) as (H1 & H2 & H3 & H4 & _ & H6). cbn zeta. split_and!; try done.
  - lia.
  - intros Hn. unfold holder_code in H1. rewrite Hn in H1. cbn in H1. lia.
  - intros t th s Ht Hb Hw. by eapply monitor_exclusion.
Qed.
End mailbox.

(** ** A sender and a receiver *)
Definition receiver : code (W := list Z) :=
  Code (λ w, Some (w, DoReceive (λ v, Code (λ w, Some (w ++ [v], DoCall CallFinish (λ _, Code (λ _, None))))))).
Definition sender_main : code (W := list Z) :=
  Code (λ w, Some (w, DoCall (CallNewThread receiver false) (λ t,
    Code (λ w, Some (w, DoCall (CallFork t) (λ _,
      Code (λ w, Some (w, DoSend 1347 (Code (λ _, None)))))))))).

Definition mailbox_start : Kernel (state (W := list Z)) (Memory (W := list Z)) :=
  machine 1 2 [] (At sender_main) (mkMemory Mailbox_new (mkLog [] [] 0 0 false) []).
Definition mailbox_end : Kernel (state (W := list Z)) (Memory (W := list Z)) :=
  match play mailbox_step 40 mailbox_start with Ret k => k | _ => mailbox_start end.

Lemma mailbox_delivers_in_order_witness :
  later mailbox_step mailbox_start mailbox_end ∧ delivered (logged (shared mailbox_end)) = [1347] ∧
  sent (logged (shared mailbox_end)) = delivered (logged (shared mailbox_end)) ++ buffer (mailbox (shared mailbox_end)).
Proof.
  assert (later mailbox_step mailbox_start mailbox_end) as Hl.
  { apply (later_play _ _ mailbox_start _ 40); [by apply reach_init|vm_compute; reflexivity]. }
  split; [exact Hl|]. split; [vm_compute; reflexivity|].
  apply (mailbox_delivers_in_order 1 2 [] sender_main [] mailbox_end Hl).
Defined.

End Mailbox.
