(* ===== verification/SynchList.v ===== *)
(** * threads/synchlist.h, synchlist.cc: lists that threads share

    Threads whose own code is arbitrary share one [SynchList] by [Append], [Remove] and [Mapcar]; a
    step is what a routine does between two calls of the kernel.  The list's lock is lock 0, and
    [listEmpty] condition 0.  An item is a pointer; 0 is [NULL].  The routines of
    [List] that work at the ends are those of a sequence ([NList]). *)

From S2P Require Import Prelude Kernel Threads Steps Monitor.
From stdpp Require Import sorting.
Import Kernel.Kernel Monitor.Monitor.

Open Scope Z_scope.

Module SynchList.

Section synchlist.
(** The memory the threads share apart from the list. *)
Context {W : Type}.

(** [items] is the list; the rest records what has happened: the items appended and removed, in order, and
    whether the [ASSERT] of [Remove] failed. *)
Record SynchList := mkSynchList {
  items : list Z; appended : list Z; removed : list Z; assertion_failed : bool; world : W }.

Definition SynchList_new (w : W) : SynchList := mkSynchList [] [] [] false w.

Definition lock : nat := 0.
Definition listEmpty : nat := 0.

(** The code of a thread, up to its next call; [Mapcar] hands the items to its function in
    order. *)
Inductive action (C : Type) :=
  | DoCall (c : call C) (next : nat → C)
  | DoAppend (item : Z) (next : C)
  | DoRemove (next : Z → C)
  | DoMapcar (func : Z → W → W) (next : C).
#[global] Arguments DoCall {C}.
#[global] Arguments DoAppend {C}.
#[global] Arguments DoRemove {C}.
#[global] Arguments DoMapcar {C}.
#[warnings="-register-all"]
Inductive code := Code (step : W → option (W * action code)).

(** Where a thread is: in its own code, or inside a routine: with the lock just taken, after the
    [Wait], or before the [Release]. *)
Inductive state :=
  | At (c : code)
  | AppendLocked (item : Z) (k : code)
  | RemoveLoop (k : Z → code)
  | MapcarLocked (func : Z → W → W) (k : code)
  | Releasing (k : code).

Abbreviation step := (SynchList * call state * (nat → state))%type (only parsing).

Definition Append (item : Z) (k : code) (sl : SynchList) : step :=
  (mkSynchList (items sl ++ [item]) (appended sl ++ [item]) (removed sl) (assertion_failed sl) (world sl),
   CallSignal listEmpty lock, λ _, Releasing k).

Definition Remove (k : Z → code) (sl : SynchList) : step :=
  match items sl with
  | [] => (sl, CallWait listEmpty lock, λ _, RemoveLoop k)
  | item :: rest =>
      (mkSynchList rest (appended sl) (removed sl ++ [item]) (assertion_failed sl || (item =? 0)) (world sl),
       CallRelease lock, λ _, At (k item))
  end.

Definition Mapcar (func : Z → W → W) (k : code) (sl : SynchList) : step :=
  (mkSynchList (items sl) (appended sl) (removed sl) (assertion_failed sl)
     (foldl (λ w item, func item w) (world sl) (items sl)),
   CallRelease lock, λ _, At k).

(** The list's lock is private. *)
Definition permitted (c : call code) : bool :=
  match c with CallAcquire l | CallRelease l | CallWait _ l => negb (l =? lock)%nat | _ => true end.

Definition list_step (s : state) (sl : SynchList) : option step :=
  match s with
  | At (Code f) =>
      match f (world sl) with
      | None => None
      | Some (w, a) =>
          let sl := mkSynchList (items sl) (appended sl) (removed sl) (assertion_failed sl) w in
          match a with
          | DoCall c next => if permitted c then Some (sl, call_map At c, λ n, At (next n)) else None
          | DoAppend item next => Some (sl, CallAcquire lock, λ _, AppendLocked item next)
          | DoRemove next => Some (sl, CallAcquire lock, λ _, RemoveLoop next)
          | DoMapcar func next => Some (sl, CallAcquire lock, λ _, MapcarLocked func next)
          end
      end
  | AppendLocked item k => Some (Append item k sl)
  | RemoveLoop k => Some (Remove k sl)
  | MapcarLocked func k => Some (Mapcar func k sl)
  | Releasing k => Some (sl, CallRelease lock, λ _, At k)
  end.

Definition inside (s : state) : bool := match s with At _ => false | _ => true end.

Definition in_order (sl : SynchList) (_ : option state) : Prop :=
  appended sl = removed sl ++ items sl ∧ (assertion_failed sl = true → 0 ∈ removed sl).

Lemma list_client : client lock inside in_order list_step.
Proof.
  split.
  - intros u [its ap re af w] sl' c next E. destruct u as [[f]|item k|k|func k|k]; cbn in E.
    + destruct (f w) as [[w' a]|]; [|done].
      assert (∀ next, plain inside in_order (At (Code f)) (mkSynchList its ap re af w)
        (mkSynchList its ap re af w') (λ n, At (next n))) as Hp.
      { intros nx m. split; [done|]. intros o Ho. exact Ho. }
      destruct a as [c0 next0|item next0|next0|func next0].
      * destruct (permitted c0) eqn:Hc; [|done]. injection E as <- <- <-.
        destruct c0; cbn [call_map obligation]; try done;
          (rewrite decide_False; [apply Hp|intros ->; done]).
      * injection E as <- <- <-. cbn [obligation]. by rewrite decide_True.
      * injection E as <- <- <-. cbn [obligation]. by rewrite decide_True.
      * injection E as <- <- <-. cbn [obligation]. by rewrite decide_True.
    + injection E as <- <- <-. cbn [obligation]. intros _. split; [done|].
      intros [H1 H2]. cbn in *. split; [|done]. cbn. by rewrite H1, app_assoc.
    + unfold Remove in E. cbn in E. destruct its as [|item its]; injection E as <- <- <-;
        cbn [obligation]; rewrite decide_True by done; split; try done; split; try done.
      intros [H1 H2]. cbn in *. split; cbn; [by rewrite H1, <- app_assoc|].
      rewrite orb_true_iff, elem_of_app, Z.eqb_eq. intros [Haf|Hi]; [left; by apply H2|right; subst item; apply list_elem_of_here].
    + injection E as <- <- <-. cbn [obligation]. by rewrite decide_True.
    + injection E as <- <- <-. cbn [obligation]. by rewrite decide_True.
  - intros u sl E. destruct u as [[f]|item k|k|func k|k]; done.
Qed.

(** C34: whatever the threads do and however they are scheduled, as long as they use the list by its
    routines only: [Remove] gives the items in the order of their [Append]s, each once, what is not
    removed is on the list; the [ASSERT] in [Remove] fails only if a [NULL] was appended; and only the
    holder of the lock is inside a routine. *)
Theorem synchlist_is_queue nl nc values c w k :
  later list_step (machine nl nc values (At c) (SynchList_new w)) k →
  let sl := shared k in
  appended sl = removed sl ++ items sl ∧ (0 ∉ appended sl → assertion_failed sl = false) ∧
  (∀ t th s, threads k !! t = Some th → bottom (frames th) = Some s → waits lock (frames th) = false →
     inside s = true ↔ holder lock k = Some t).
Proof.
  intros Hl. destruct (monitor_rule lock inside in_order list_step nl nc values (At c)
    (SynchList_new w) k list_client eq_refl) as [_ Hm]; [done|done|].
  destruct (mo_data _ _ _ _ Hm) as [H1 H2]. cbn zeta. split_and!; [done|..].
  - intros Hn. destruct (assertion_failed (shared k)); [|done]. destruct Hn. rewrite H1.
    apply elem_of_app. left. auto.
  - intros t th s Ht Hb Hw. by eapply monitor_exclusion.
Qed.
End synchlist.

(** ** The main thread waits for an item that a second thread appends. *)
Definition appender : code (W := list Z) :=
  Code (λ w, Some (w, DoAppend 7 (Code (λ w, Some (w, DoAppend 8 (Code (λ _, None))))))).
Definition remover : code (W := list Z) :=
  Code (λ w, Some (w, DoCall (CallNewThread appender false) (λ t,
    Code (λ w, Some (w, DoCall (CallFork t) (λ _,
      Code (λ w, Some (w, DoRemove (λ v, Code (λ w, Some (w ++ [v], DoCall CallFinish (λ _, Code (λ _, None)))))))))))))
  .
Definition list_start : Kernel (state (W := list Z)) (SynchList (W := list Z)) :=
  machine 1 1 [] (At remover) (SynchList_new []).
Definition list_end : Kernel (state (W := list Z)) (SynchList (W := list Z)) :=
  match play list_step 40 list_start with Ret k => k | _ => list_start end.

Lemma synchlist_is_queue_witness :
  later list_step list_start list_end ∧ world (shared list_end) = [7] ∧
  appended (shared list_end) = removed (shared list_end) ++ items (shared list_end) ∧
  items (shared list_end) = [8].
Proof.
  assert (later list_step list_start list_end) as Hl.
  { apply (later_play _ _ list_start _ 40); [by apply reach_init|vm_compute; reflexivity]. }
  split; [exact Hl|]. split; [vm_compute; reflexivity|]. split; [|vm_compute; reflexivity].
  apply (synchlist_is_queue 1 1 [] remover [] list_end Hl).
Defined.

End SynchList.
