(* ===== verification/Whale.v ===== *)
(** * threads/synch.cc: Whale

    A male, a female and a matchmaker meet.  A step is what a routine does between two calls of the kernel.
    The lock is lock 0; [maleSnd], [femaleSnd], [matchSnd] and [matchWait] are conditions 0 to 3.
    The main thread creates and forks one thread after the other, and yields, as the tests of
    threadtest.cc do. *)

From S2P Require Import Prelude Kernel Threads Steps Monitor.
From stdpp Require Import sorting.
Import Kernel.Kernel Monitor.Monitor.

Open Scope Z_scope.

Module Whale.

Record Whale := mkWhale {
  numPendingMale : Z; numPendingFemale : Z; numPendingMatch : Z;
  numCompleteMale : Z; numCompleteFemale : Z }.

Definition Whale_new : Whale := mkWhale 0 0 0 0 0.

Inductive role := AMale | AFemale | AMatchmaker.

(** The whale, and who has returned from its routine, in order. *)
Record Memory := mkMemory { whale : Whale; returned : list role }.

Definition lock : nat := 0.
Definition maleSnd : nat := 0.
Definition femaleSnd : nat := 1.
Definition matchSnd : nat := 2.
Definition matchWait : nat := 3.

(** Where a thread is: the main thread, or a thread of one role: at the start, with the lock just taken,
    before the test of a loop, after the first, second or third [Signal], or at the end. *)
Inductive state :=
  | Main (todo : list role) | Created (t : nat) (todo : list role) | Yielded
  | Start (r : role) | Locked (r : role) | Loop (r : role)
  | Signal1 (r : role) | Signal2 (r : role) | Signal3 (r : role)
  | WaitLoop | Returned (r : role).

Abbreviation step := (Memory * call state * (nat → state))%type (only parsing).

Definition test (r : role) (w : Whale) : bool :=
  match r with
  | AMale => (numPendingFemale w =? 0) || (numPendingMatch w =? 0) || negb (numCompleteMale w =? 0)
  | AFemale => (numPendingMale w =? 0) || (numPendingMatch w =? 0) || negb (numCompleteFemale w =? 0)
  | AMatchmaker => (numPendingFemale w =? 0) || (numPendingMale w =? 0)
  end.

Definition own_condition (r : role) : nat :=
  match r with AMale => maleSnd | AFemale => femaleSnd | AMatchmaker => matchSnd end.

(** The first assignment of each routine. *)
Definition arrive (r : role) (w : Whale) : Whale :=
  let 'mkWhale pm pf pk cm cf := w in
  match r with
  | AMale => mkWhale (pm + 1) pf pk cm cf
  | AFemale => mkWhale pm (pf + 1) pk cm cf
  | AMatchmaker => mkWhale pm pf (pk + 1) cm cf
  end.

(** The increment after the loop of [Male] and [Female]. *)
Definition complete (r : role) (w : Whale) : Whale :=
  let 'mkWhale pm pf pk cm cf := w in
  match r with
  | AMale => mkWhale pm pf pk (cm + 1) cf
  | AFemale => mkWhale pm pf pk cm (cf + 1)
  | AMatchmaker => w
  end.

(** The first loop, and what comes after it up to the first [Signal]. *)
Definition loop_step (r : role) (g : Memory) : step :=
  if test r (whale g) then (g, CallWait (own_condition r) lock, λ _, Loop r)
  else (mkMemory (complete r (whale g)) (returned g),
        CallSignal (match r with AMatchmaker => femaleSnd | _ => matchSnd end) lock, λ _, Signal1 r).

(** The second loop of [Matchmaker] and what follows it. *)
Definition match_step (g : Memory) : step :=
  let 'mkWhale pm pf pk cm cf := whale g in
  if (cm =? 0) && (cf =? 0) then (g, CallWait matchWait lock, λ _, WaitLoop)
  else (mkMemory (mkWhale (pm - 1) (pf - 1) (pk - 1) (cm - 1) (cf - 1)) (returned g),
        CallRelease lock, λ _, Returned AMatchmaker).

Definition whale_step (s : state) (g : Memory) : option step :=
  match s with
  | Main [] => Some (g, CallYield, λ _, Yielded)
  | Main (r :: todo) => Some (g, CallNewThread (Start r) false, λ t, Created t todo)
  | Created t todo => Some (g, CallFork t, λ _, Main todo)
  | Yielded => None
  | Start r => Some (g, CallAcquire lock, λ _, Locked r)
  | Locked r => Some (loop_step r (mkMemory (arrive r (whale g)) (returned g)))
  | Loop r => Some (loop_step r g)
  | Signal1 AMale => Some (g, CallSignal femaleSnd lock, λ _, Signal2 AMale)
  | Signal1 AFemale => Some (g, CallSignal maleSnd lock, λ _, Signal2 AFemale)
  | Signal1 AMatchmaker => Some (g, CallSignal maleSnd lock, λ _, WaitLoop)
  | Signal2 r => Some (g, CallSignal matchWait lock, λ _, Signal3 r)
  | Signal3 r => Some (g, CallRelease lock, λ _, Returned r)
  | WaitLoop => Some (match_step g)
  | Returned r => Some (mkMemory (whale g) (returned g ++ [r]), CallFinish, λ _, Yielded)
  end.

Definition whale_start (arrivals : list role) : Kernel state Memory :=
  machine 1 4 [] (Main arrivals) (mkMemory Whale_new []).

(** The run without a timer, to the point where no thread can run. *)
Definition whale_run (arrivals : list role) : outcome (Kernel state Memory) :=
  play whale_step 200 (whale_start arrivals).

(** [WhaleTest] and [WhaleMaidenTest] *)
Definition WhaleTest : list role := [AMale; AFemale; AMatchmaker].
Definition WhaleMaidenTest : list role := [AMale; AFemale; AFemale; AMatchmaker].

(** *** The whale is only touched inside the monitor *)
Definition inside (s : state) : bool :=
  match s with Main _ | Created _ _ | Yielded | Start _ | Returned _ => false | _ => true end.

Lemma whale_client : client lock inside (λ _ _, True) whale_step.
Proof.
  split.
  - intros u g g' c next E. destruct u as [[|r todo]|t todo| |r|r|r|r|r|r| |r]; cbn in E; try done;
      try (injection E as <- <- <-; cbn [obligation]; try (rewrite decide_True by done); done).
    + unfold loop_step in E. destruct (test _ _); injection E as <- <- <-; cbn [obligation];
        try (rewrite decide_True by done); done.
    + unfold loop_step in E. destruct (test _ _); injection E as <- <- <-; cbn [obligation];
        try (rewrite decide_True by done); done.
    + destruct r; injection E as <- <- <-; done.
    + unfold match_step in E. destruct (whale g). destruct (_ && _); injection E as <- <- <-;
        cbn [obligation]; rewrite decide_True by done; done.
  - intros u g E. destruct u as [[|r todo]|t todo| |r|r|r|r|r|r| |r]; try done. by destruct r.
Qed.

(** C37: under every schedule only one thread at a time is inside [Male], [Female] and [Matchmaker]; the
    tests of threadtest.cc, run without a timer, end with everybody returned but the extra
    female; but when the matchmaker comes first, then the male, then the female, the second loop of
    [Matchmaker] ([&&]) is left when only the female is complete: the matchmaker and the female
    return, the male sleeps for good, and [numCompleteMale] is -1. *)
Theorem Matchmaker_leaves_one_behind arrivals k :
  later whale_step (whale_start arrivals) k →
  (∀ t th s, threads k !! t = Some th → bottom (frames th) = Some s → waits lock (frames th) = false →
     inside s = true ↔ holder lock k = Some t) ∧
  (∃ k, whale_run WhaleTest = Ret k ∧ returned (shared k) = [AFemale; AMale; AMatchmaker] ∧
     whale (shared k) = mkWhale 0 0 0 0 0) ∧
  (∃ k, whale_run [AMatchmaker; AMale; AFemale] = Ret k ∧ idle k = true ∧ readyList k = [] ∧
     returned (shared k) = [AFemale; AMatchmaker] ∧ numCompleteMale (whale (shared k)) = -1 ∧
     c_queue <$> conditions k !! maleSnd = Some [(0, 8%nat)]).
Proof.
  intros Hl. split; [|split].
  - intros t th s Ht Hb Hw.
    destruct (monitor_rule lock inside (λ _ _, True) whale_step 1 4 [] (Main arrivals)
      (mkMemory Whale_new []) k whale_client eq_refl I Hl) as [_ Hm].
    by eapply monitor_exclusion.
  - eexists. split; [vm_compute; reflexivity|]. split; reflexivity.
  - eexists. split; [vm_compute; reflexivity|]. split_and!; reflexivity.
Qed.

Definition whale_end : Kernel state Memory :=
  match whale_run WhaleMaidenTest with Ret k => k | _ => whale_start [] end.

Lemma Matchmaker_leaves_one_behind_witness :
  later whale_step (whale_start WhaleMaidenTest) whale_end ∧
  (∀ t th s, threads whale_end !! t = Some th → bottom (frames th) = Some s → waits lock (frames th) = false →
     inside s = true ↔ holder lock whale_end = Some t) ∧
  (∃ th, threads whale_end !! 10%nat = Some th ∧ bottom (frames th) = Some (Loop AFemale)).
Proof.
  assert (later whale_step (whale_start WhaleMaidenTest) whale_end) as Hl.
  { apply (later_play _ _ (whale_start WhaleMaidenTest) _ 200); [by apply reach_init|vm_compute; reflexivity]. }
  split; [exact Hl|]. split; [apply (Matchmaker_leaves_one_behind WhaleMaidenTest whale_end Hl)|].
  eexists. split; [vm_compute; reflexivity|reflexivity].
Defined.

End Whale.
