(* ===== verification/Table.v ===== *)
(** * threads/table.h, table.cc: a table of pointers with a lock

    The routines of one thread [me] on the table.  A pointer is an integer, 0 is [NULL].
    The array is whatever [new void*[size]] finds in memory.  A routine that is called while
    another thread holds the lock sleeps ([None]); [Acquire] asserts that the caller does not hold it. *)

From S2P Require Import Prelude.

Open Scope Z_scope.

Module Table.

Record Table := mkTable {
  backing : list Z; last_element : Z; max_elements : Z; access_lock : option nat }.

(** [contents] is the memory the array gets. *)
Definition Table_new (contents : list Z) : Table :=
  mkTable contents 0 (Z.of_nat (length contents)) None.

Definition set_lock (o : option nat) (tb : Table) : Table :=
  mkTable (backing tb) (last_element tb) (max_elements tb) o.
Definition set_backing (b : list Z) (tb : Table) : Table :=
  mkTable b (last_element tb) (max_elements tb) (access_lock tb).
Definition set_last (n : Z) (tb : Table) : Table :=
  mkTable (backing tb) n (max_elements tb) (access_lock tb).

(** [access_lock->Acquire()]; [None]: another thread holds the lock. *)
Definition acquire (me : nat) (tb : Table) : outcome (option Table) :=
  match access_lock tb with
  | None => Ret (Some (set_lock (Some me) tb))
  | Some t => if decide (t = me) then AssertFails else Ret None
  end.

Definition release (me : nat) (tb : Table) : outcome Table :=
  assert! bool_decide (access_lock tb = Some me);;
  Ret (set_lock None tb).

(** The loop of [Alloc], from [next_element]. *)
Definition Alloc_body (object : Z) (tb : Table) (next_element : Z) : outcome (Z + option (Z * list Z)) :=
  if next_element <? max_elements tb + last_element tb then
    e ← rd (backing tb) next_element;
    if e =? 0 then
      b ← wr (backing tb) next_element object;
      Ret (inr (Some (next_element, b)))
    else Ret (inl (next_element + 1))
  else Ret (inr None).

Definition Alloc (me : nat) (object : Z) (tb : Table) : outcome (option (Table * Z)) :=
  o ← acquire me tb;
  match o with
  | None => Ret None
  | Some tb =>
      r ← loop (Alloc_body object tb) (S (Z.to_nat (max_elements tb))) (last_element tb);
      match r with
      | Some (next_element, b) =>
          tb ← release me (set_backing b tb);
          Ret (Some (set_last (next_element + 1) tb, next_element + 1))
      | None => Ret (Some (tb, -1))
      end
  end.

Definition Get (index : Z) (tb : Table) : outcome Z := rd (backing tb) (index - 1).

Definition Release (me : nat) (index : Z) (tb : Table) : outcome (option Table) :=
  o ← acquire me tb;
  match o with
  | None => Ret None
  | Some tb =>
      b ← wr (backing tb) (index - 1) 0;
      tb ← release me (set_backing b tb);
      Ret (Some tb)
  end.

(** A table made in cleared memory and used by its routines. *)
Record table_ok (tb : Table) : Prop := {
  tb_length : Z.of_nat (length (backing tb)) = max_elements tb;
  tb_last : 0 ≤ last_element tb ≤ max_elements tb;
  tb_free i : last_element tb ≤ i < max_elements tb → rd (backing tb) i = Ret 0;
  tb_lock : access_lock tb = None;
}.

Lemma Table_new_ok n : table_ok (Table_new (replicate n 0)).
Proof.
  split; cbn; try done; rewrite ?length_replicate; try lia.
  intros i Hi. apply rd_Ret. rewrite length_replicate. split; [lia|]. apply lookup_replicate_2. lia.
Qed.

Lemma Alloc_Ret me object tb :
  table_ok tb → last_element tb < max_elements tb →
  Alloc me object tb = Ret (Some (mkTable (<[Z.to_nat (last_element tb) := object]> (backing tb))
    (last_element tb + 1) (max_elements tb) None, last_element tb + 1)).
Proof.
  intros [Hlen Hlast Hfree Hlock] Hlt. destruct tb as [b n mx o]. cbn in *. subst o.
  unfold Alloc. cbn [acquire access_lock mbind outcome_bind max_elements last_element set_lock].
  rewrite (loop_stop _ _ _ (Some (n, <[Z.to_nat n := object]> b))).
  - cbn [mbind outcome_bind]. unfold release. cbn [access_lock set_backing set_lock].
    by rewrite bool_decide_true.
  - unfold Alloc_body. cbn [max_elements last_element set_lock backing].
    rewrite ltb_true by lia. rewrite Hfree by lia. cbn [mbind outcome_bind Z.eqb].
    rewrite wr_ok by lia. done.
Qed.

(** The kept properties of the other entries. *)
Lemma alloc_ok me object tb tb' i :
  table_ok tb → last_element tb < max_elements tb → Alloc me object tb = Ret (Some (tb', i)) → table_ok tb'.
Proof.
  intros Hok Hlt E. rewrite Alloc_Ret in E by done. injection E as <- <-.
  destruct Hok as [Hlen Hlast Hfree Hlock]. split; cbn; try done; rewrite ?length_insert; try lia.
  intros j Hj. rewrite <- (Hfree j) by lia. eapply rd_wr_ne; [apply wr_ok|]; lia.
Qed.

(** in a table that is not used up, [Alloc] gives a new index above all earlier ones,
    [Get] finds the object there and what the other indices hold unchanged, the lock is free again, and
    [Release] clears the entry. *)
Theorem Alloc_Get_Release me object tb :
  table_ok tb → last_element tb < max_elements tb →
  ∃ tb', Alloc me object tb = Ret (Some (tb', last_element tb + 1)) ∧ table_ok tb' ∧
    Get (last_element tb + 1) tb' = Ret object ∧
    (∀ i, i ≠ last_element tb + 1 → Get i tb' = Get i tb) ∧
    ∃ tb'', Release me (last_element tb + 1) tb' = Ret (Some tb'') ∧ table_ok tb'' ∧
      Get (last_element tb + 1) tb'' = Ret 0.
Proof.
  intros Hok Hlt. pose proof (Alloc_Ret me object tb Hok Hlt) as E. eexists. split; [exact E|].
  pose proof (alloc_ok _ _ _ _ _ Hok Hlt E) as Hok'. split; [done|].
  destruct Hok as [Hlen Hlast Hfree Hlock]. unfold Get. cbn [backing].
  pose proof (wr_ok (backing tb) (last_element tb) object ltac:(lia)) as Hw.
  split; [|split].
  - replace (last_element tb + 1 - 1) with (last_element tb) by lia. by eapply rd_wr_eq.
  - intros i Hi. eapply rd_wr_ne; [exact Hw|lia].
  - set (tb' := mkTable _ _ _ _) in *. unfold Release. cbn [acquire access_lock tb' mbind outcome_bind].
    pose proof (wr_ok (backing tb') (last_element tb) 0) as Hw'. cbn [tb' backing] in Hw'.
    rewrite length_insert in Hw'. specialize (Hw' ltac:(lia)).
    cbn [backing set_lock tb']. replace (last_element tb + 1 - 1) with (last_element tb) by lia.
    rewrite Hw'. cbn [mbind outcome_bind]. unfold release. cbn [access_lock set_backing set_lock].
    rewrite bool_decide_true by done. cbn [ASSERT mbind outcome_bind]. eexists. split; [done|].
    split.
    + split; cbn; try done; rewrite ?length_insert; try lia. intros j Hj.
      erewrite rd_wr_ne by (exact Hw' || lia). destruct Hok' as [_ _ Hf _]. apply Hf. cbn. lia.
    + cbn. by eapply rd_wr_eq.
Qed.

Lemma Alloc_Get_Release_witness :
  ∃ tb', Alloc 0 77 (Table_new (replicate 2 0)) = Ret (Some (tb', 1)) ∧ Get 1 tb' = Ret 77.
Proof.
  destruct (Alloc_Get_Release 0 77 (Table_new (replicate 2 0)) (Table_new_ok 2) eq_refl)
    as (tb' & E & _ & G & _). exists tb'. split; [exact E|exact G].
Defined.

(** Once the last entry has been given out the search runs off the array. *)
Lemma Alloc_runs_off me object tb :
  table_ok tb → last_element tb = max_elements tb → 0 < max_elements tb → Alloc me object tb = Undefined.
Proof.
  intros [Hlen Hlast Hfree Hlock] Hl Hmx. unfold Alloc, acquire. rewrite Hlock. cbn [mbind outcome_bind].
  assert (Alloc_body object (set_lock (Some me) tb) (last_element tb) = Undefined) as Hb.
  { unfold Alloc_body. cbn [max_elements last_element set_lock backing]. rewrite ltb_true by lia.
    unfold rd. destruct (Z.leb_spec 0 (last_element tb)); [|lia]. by rewrite lookup_ge_None_2 by lia. }
  rewrite loop_unfold. cbn [last_element set_lock]. by rewrite Hb.
Qed.

(** two faults of [Alloc].  Once the last entry has been given out the search starts behind the array
    and runs off it, whatever has been released; and when every entry of the (uncleared) array is
    taken it returns -1 without releasing the lock, so that the next call asserts, or sleeps
    for good in another thread. *)
Theorem Alloc_faults me object tb :
  (table_ok tb → last_element tb = max_elements tb → 0 < max_elements tb → Alloc me object tb = Undefined) ∧
  (∀ contents other, 0 ∉ contents → other ≠ me →
     ∃ tb', Alloc me object (Table_new contents) = Ret (Some (tb', -1)) ∧
       Alloc me object tb' = AssertFails ∧ Alloc other object tb' = Ret None).
Proof.
  split.
  - apply Alloc_runs_off.
  - intros contents other Hz Hne. exists (set_lock (Some me) (Table_new contents)).
    assert (Alloc me object (Table_new contents) = Ret (Some (set_lock (Some me) (Table_new contents), -1))) as E.
    { unfold Alloc. cbn [acquire Table_new access_lock mbind outcome_bind].
      set (tb0 := set_lock (Some me) _).
      assert (∀ n j, (n + j = length contents)%nat →
        loop (Alloc_body object tb0) (S n) (Z.of_nat j) = Ret None) as Hloop.
      { induction n as [|n IH]; intros j Hj.
        - apply loop_stop. unfold Alloc_body. cbn [tb0 max_elements last_element set_lock Table_new].
          by rewrite ltb_false by lia.
        - rewrite (loop_step _ _ _ (Z.of_nat (S j))); [apply IH; lia|].
          unfold Alloc_body. cbn [tb0 max_elements last_element set_lock backing Table_new].
          rewrite ltb_true by lia. destruct (rd_in_range contents (Z.of_nat j)) as [e He]; [lia|].
          rewrite He. cbn [mbind outcome_bind]. apply rd_Ret in He as [_ He].
          rewrite eqb_false; [do 2 f_equal; lia|]. intros ->. apply Hz.
          rewrite Nat2Z.id in He. by eapply list_elem_of_lookup_2. }
      replace (S (Z.to_nat (max_elements tb0))) with (S (length contents)) by (cbn; lia).
      change (last_element tb0) with (Z.of_nat 0). by rewrite (Hloop (length contents) O) by lia. }
    split; [exact E|]. unfold Alloc, acquire. cbn [access_lock set_lock].
    rewrite decide_True by done. rewrite decide_False by congruence. done.
Qed.

Lemma Alloc_faults_witness :
  Alloc 0 5 (mkTable [0; 3] 2 2 None) = Undefined ∧
  ∃ tb', Alloc 0 5 (Table_new [9; 8]) = Ret (Some (tb', -1)) ∧ Alloc 0 5 tb' = AssertFails.
Proof.
  split.
  - apply (proj1 (Alloc_faults 0 5 (mkTable [0; 3] 2 2 None))); [|reflexivity|reflexivity].
    split; cbn; [reflexivity|lia|intros i Hi; lia|reflexivity].
  - destruct (proj2 (Alloc_faults 0 5 (Table_new [])) [9; 8] 1%nat) as (tb' & E & A & _).
    + rewrite !elem_of_cons, elem_of_nil. lia.
    + done.
    + exists tb'. split; [exact E|exact A].
Defined.

End Table.
