(* ===== verification/ReadersWriters.v ===== *)
(** * threads/threadtest.cc: readers and writers

    The [Reader] and [Writer] of the condition variable test, for any number of either in any
    order of arrival and under every schedule.  [l] is lock 0, [wGo] and [rGo] are conditions 0 and
    1.  A step is what a routine does between two calls of the kernel. *)

From S2P Require Import Prelude Kernel Threads Steps Monitor.
From stdpp Require Import strings sorting.
Import Kernel.Kernel Monitor.Monitor.

Open Scope Z_scope.

Module ReadersWriters.

Inductive role := AReader | AWriter.

(** What is printed, with the name of the thread. *)
Inductive line :=
  | WantsToWrite | ThereIsAReader | Writing | FinishedWriting
  | WantsToRead | IsReading | HasFinished | ReadersLeft (n : Z).

(** [entered] and [left_] record who has gone in and come out, in order; [written_among] records, for each
    writing, how many had gone in and how many had come out. *)
Record Memory := mkMemory {
  nReaders : Z; wantToWrite : bool; output : list (string * line);
  entered : list string; left_ : list string; written_among : list (nat * nat) }.

Definition print (name : string) (s : line) (m : Memory) : Memory :=
  mkMemory (nReaders m) (wantToWrite m) (output m ++ [(name, s)]) (entered m) (left_ m) (written_among m).
Definition enter_reader (name : string) (m : Memory) : Memory :=
  mkMemory (nReaders m + 1) (wantToWrite m) (output m) (entered m ++ [name]) (left_ m) (written_among m).
Definition leave_reader (name : string) (m : Memory) : Memory :=
  mkMemory (nReaders m - 1) (wantToWrite m) (output m) (entered m) (left_ m ++ [name]) (written_among m).
Definition set_want (b : bool) (m : Memory) : Memory :=
  mkMemory (nReaders m) b (output m) (entered m) (left_ m) (written_among m).
Definition write (m : Memory) : Memory :=
  mkMemory (nReaders m) (wantToWrite m) (output m) (entered m) (left_ m)
    (written_among m ++ [(length (entered m), length (left_ m))]).

Definition l : nat := 0.
Definition wGo : nat := 0.
Definition rGo : nat := 1.

(** Where a thread is: the main thread, with the threads it is to create and fork, one or two
    at a time; a writer at its start, with the lock, at the test, about to write, before the
    [Release]; a reader at its start, with the lock, at the test, outside with the right to read, with the
    lock again, before the last [Release]; or at the end. *)
Inductive arrivals := One (a : role * string) | Two (a b : role * string).
Inductive state :=
  | Main (todo : list arrivals)
  | Fork1 (t : nat) (todo : list arrivals)
  | Create2 (t : nat) (b : role * string) (todo : list arrivals)
  | Fork2 (t t2 : nat) (todo : list arrivals)
  | Start (a : role * string)
  | WriterLocked (name : string) | WriterLoop (name : string) | WriterWriting (name : string) | WriterDone
  | ReaderLocked (name : string) | ReaderLoop (name : string)
  | ReaderYields (name : string) | ReaderReading (name : string)
  | ReaderLockedAgain (name : string) | ReaderDone
  | Ended.

Abbreviation step := (Memory * call state * (nat → state))%type (only parsing).

Definition Writer_test (name : string) (m : Memory) : step :=
  if 0 <? nReaders m then (print name ThereIsAReader m, CallWait wGo l, λ _, WriterLoop name)
  else (m, CallYield, λ _, WriterWriting name).

Definition Reader_test (name : string) (m : Memory) : step :=
  if wantToWrite m then (m, CallWait rGo l, λ _, ReaderLoop name)
  else (enter_reader name m, CallRelease l, λ _, ReaderYields name).

(** The end of [Reader], with the lock. *)
Definition Reader_end (name : string) (m : Memory) : step :=
  let m := leave_reader name (print name HasFinished m) in
  let m := print name (ReadersLeft (nReaders m)) m in
  if nReaders m =? 0 then (m, CallSignal wGo l, λ _, ReaderDone) else (m, CallRelease l, λ _, Ended).

Definition rw_step (s : state) (m : Memory) : option step :=
  match s with
  | Main [] => None
  | Main (One a :: todo) => Some (m, CallNewThread (Start a) false, λ t, Fork1 t todo)
  | Main (Two a b :: todo) => Some (m, CallNewThread (Start a) false, λ t, Create2 t b todo)
  | Fork1 t todo => Some (m, CallFork t, λ _, Main todo)
  | Create2 t b todo => Some (m, CallNewThread (Start b) false, λ t2, Fork2 t t2 todo)
  | Fork2 t t2 todo => Some (m, CallFork t, λ _, Fork1 t2 todo)
  | Start (AWriter, name) => Some (m, CallAcquire l, λ _, WriterLocked name)
  | WriterLocked name => Some (Writer_test name (print name WantsToWrite (set_want true m)))
  | WriterLoop name => Some (Writer_test name m)
  | WriterWriting name =>
      Some (print name FinishedWriting (set_want false (write (print name Writing m))), CallBroadcast rGo l, λ _, WriterDone)
  | WriterDone => Some (m, CallRelease l, λ _, Ended)
  | Start (AReader, name) => Some (m, CallAcquire l, λ _, ReaderLocked name)
  | ReaderLocked name => Some (Reader_test name (print name WantsToRead m))
  | ReaderLoop name => Some (Reader_test name m)
  | ReaderYields name => Some (m, CallYield, λ _, ReaderReading name)
  | ReaderReading name => Some (print name IsReading m, CallAcquire l, λ _, ReaderLockedAgain name)
  | ReaderLockedAgain name => Some (Reader_end name m)
  | ReaderDone => Some (m, CallRelease l, λ _, Ended)
  | Ended => None
  end.

Definition rw_start (todo : list arrivals) : Kernel state Memory :=
  machine 1 2 [] (Main todo) (mkMemory 0 false [] [] [] []).

(** [ReadersAndWriters] *)
Definition ReadersAndWriters : list arrivals :=
  [Two (AReader, "one") (AReader, "2.one"); One (AReader, "six"); One (AReader, "2.three");
   One (AWriter, "two"); Two (AReader, "three") (AReader, "2.two"); One (AReader, "four");
   One (AWriter, "five")].

(** *** Writers exclude readers *)
Definition inside (s : state) : bool :=
  match s with
  | WriterLocked _ | WriterLoop _ | WriterWriting _ | WriterDone
  | ReaderLocked _ | ReaderLoop _ | ReaderLockedAgain _ | ReaderDone => true
  | _ => false
  end.

(** The number of readers is right, and nobody reads while a writer writes. *)
Definition in_order (m : Memory) (o : option state) : Prop :=
  nReaders m = Z.of_nat (length (entered m)) - Z.of_nat (length (left_ m)) ∧
  match o with Some (WriterWriting _) => nReaders m ≤ 0 | _ => True end ∧
  Forall (λ '(i, j), (i ≤ j)%nat) (written_among m).

Lemma in_order_weaken m o : in_order m o → ∀ o', (∀ name, o' ≠ Some (WriterWriting name)) → in_order m o'.
Proof. intros (H1 & _ & H3) o' Hn. split; [done|]. split; [|done]. destruct o' as [[]|]; try done. by destruct (Hn name). Qed.

Lemma in_order_enter name m o : in_order m None → in_order (enter_reader name m) o ↔
  match o with Some (WriterWriting _) => nReaders m + 1 ≤ 0 | _ => True end.
Proof.
  intros (H1 & _ & H3). unfold in_order. cbn. rewrite length_app. cbn.
  split; [intros (_ & ? & _); done|intros ?; split; [lia|done]].
Qed.

Lemma in_order_leave name m : in_order m None → in_order (leave_reader name m) None.
Proof. intros (H1 & _ & H3). split; [|done]. cbn. rewrite length_app. cbn. lia. Qed.

(** A step that leaves the numbers alone. *)
Lemma in_order_same m m' o o' :
  in_order m o → (∀ name, o' ≠ Some (WriterWriting name)) → nReaders m' = nReaders m →
  entered m' = entered m → left_ m' = left_ m → written_among m' = written_among m → in_order m' o'.
Proof.
  intros Ho Hn E1 E2 E3 E4. destruct (in_order_weaken m o Ho o' Hn) as (H1 & _ & H3).
  split; [congruence|]. split; [|congruence]. destruct o' as [[]|]; try done. by destruct (Hn name).
Qed.

(** The test of a writer, entered in order, ends in order. *)
Lemma Writer_test_ok u name m0 m m' c next :
  inside u = true → (in_order m0 (Some u) → in_order m None) →
  Writer_test name m = (m', c, next) → obligation l inside in_order u m0 m' c next.
Proof.
  intros Hu Hm E. unfold Writer_test in E. destruct (Z.ltb_spec 0 (nReaders m)); injection E as <- <- <-;
    cbn [obligation].
  - rewrite decide_True by done. split; [done|]. split; [intros Ho; by eapply in_order_same; [by apply Hm|..]|].
    intros _. split; [done|]. intros g Hg. by eapply in_order_same.
  - intros _. rewrite Hu. split; [done|]. intros Ho. destruct (Hm Ho) as (H1 & _ & H3). done.
Qed.

Lemma Reader_test_ok u name m0 m m' c next :
  inside u = true → (in_order m0 (Some u) → in_order m None) →
  Reader_test name m = (m', c, next) → obligation l inside in_order u m0 m' c next.
Proof.
  intros Hu Hm E. unfold Reader_test in E. destruct (wantToWrite m); injection E as <- <- <-;
    cbn [obligation]; rewrite decide_True by done; (split; [done|]).
  - split; [done|]. intros _. split; [done|]. intros g Hg. by eapply in_order_same.
  - split; [|done]. intros Ho. by apply in_order_enter; [apply Hm|].
Qed.

Lemma rw_client : client l inside in_order rw_step.
Proof.
  split.
  - intros u m m' c next E.
    assert (∀ m' f, in_order m' = in_order m → inside u = false → (∀ n, inside (f n) = false) →
      plain inside in_order u m m' f) as Hout.
    { intros m1 f Hm Hu Hf n. rewrite Hu, Hf, Hm. split; [done|]. intros o Ho. exact Ho. }
    destruct u as [[|[a|a b] todo]|t todo|t b todo|t t2 todo|[[] name]|name|name|name| |name|name|name|name|name| |];
      cbn [rw_step] in E; try done; first [injection E as <- <- <-|injection E as E]; cbn [obligation].
    + split; [done|]. by apply Hout.
    + split; [done|]. by apply Hout.
    + by apply Hout.
    + split; [done|]. by apply Hout.
    + by apply Hout.
    + by rewrite decide_True.
    + by rewrite decide_True.
    + eapply Writer_test_ok; [done| |exact E]. intros Ho. by eapply in_order_same.
    + eapply Writer_test_ok; [done| |exact E]. intros Ho. by eapply in_order_same.
    + intros _. split; [done|]. intros (H1 & H2 & H3). split; [done|]. split; [done|].
      cbn. apply Forall_app. split; [done|]. apply Forall_singleton. lia.
    + rewrite decide_True by done. split; [done|]. split; [|done]. intros Ho. by eapply in_order_same.
    + eapply Reader_test_ok; [done| |exact E]. intros Ho. by eapply in_order_same.
    + eapply Reader_test_ok; [done| |exact E]. intros Ho. by eapply in_order_same.
    + by apply Hout.
    + rewrite decide_True by done. split; [done|]. split; [done|]. intros _. split; [done|].
      intros g Hg. by eapply in_order_same.
    + assert (in_order m (Some (ReaderLockedAgain name)) → ∀ o, (∀ name, o ≠ Some (WriterWriting name)) →
        in_order (print name (ReadersLeft (nReaders m - 1)) (leave_reader name (print name HasFinished m))) o) as Hm.
      { intros Ho o Hn. eapply (in_order_same (leave_reader name m) _ None); try done.
        apply in_order_leave. by eapply in_order_same. }
      unfold Reader_end in E. cbn [nReaders leave_reader print] in E.
      destruct (nReaders m - 1 =? 0); injection E as <- <- <-; cbn [obligation].
      * intros _. split; [done|]. intros Ho. by apply Hm.
      * rewrite decide_True by done. split; [done|]. split; [|done]. intros Ho. by apply Hm.
    + rewrite decide_True by done. split; [done|]. split; [|done]. intros Ho. by eapply in_order_same.
  - intros u m E.
    by destruct u as [[|[a|a b] todo]|t todo|t b todo|t t2 todo|[[] name]|name|name|name| |name|name|name|name|name| |].
Qed.

(** The run of a test without a timer. *)
Definition rw_run (todo : list arrivals) : outcome (Kernel state Memory) := play rw_step 400 (rw_start todo).

(** C35: for any readers and writers and under every schedule: the number of readers is the number of those that
    went in less those that came out; whenever a writer has written, everybody who had gone in had
    come out; and when a writer holds the lock and is past its test nobody is in.  In the test
    itself, run without a timer, all seven readers and both writers come to their end. *)
Theorem writers_exclude_readers todo k :
  later rw_step (rw_start todo) k →
  let m := shared k in
  nReaders m = Z.of_nat (length (entered m)) - Z.of_nat (length (left_ m)) ∧
  Forall (λ '(i, j), (i ≤ j)%nat) (written_among m) ∧
  (∀ t th name, threads k !! t = Some th → bottom (frames th) = Some (WriterWriting name) →
     waits l (frames th) = false → holder l k = Some t ∧ nReaders m ≤ 0) ∧
  (∃ k, rw_run ReadersAndWriters = Ret k ∧ idle k = true ∧ nReaders (shared k) = 0 ∧
     length (left_ (shared k)) = 7%nat ∧ written_among (shared k) = [(4, 4); (7, 7)]%nat).
Proof.
  intros Hl. destruct (monitor_rule l inside in_order rw_step 1 2 [] (Main todo)
    (mkMemory 0 false [] [] [] []) k rw_client eq_refl) as [_ Hm]; [done|done|].
  destruct (mo_data _ _ _ _ Hm) as (H1 & H2 & H3). cbn zeta. split_and!; [done|done| |].
  - intros t th name Ht Hb Hw.
    assert (holder l k = Some t) as Hh by by apply (monitor_exclusion l inside in_order k t th (WriterWriting name)).
    split; [done|]. unfold holder_code in H2. rewrite Hh in H2. cbn in H2. rewrite Ht in H2. cbn in H2.
    by rewrite Hb in H2.
  - eexists. split; [vm_compute; reflexivity|]. split_and!; reflexivity.
Qed.

Definition rw_middle : Kernel state Memory :=
  match play rw_step 60 (rw_start ReadersAndWriters) with Ret k => k | _ => rw_start [] end.

Lemma writers_exclude_readers_witness :
  later rw_step (rw_start ReadersAndWriters) rw_middle ∧ (0 < length (entered (shared rw_middle)))%nat ∧
  nReaders (shared rw_middle) = Z.of_nat (length (entered (shared rw_middle))) -
    Z.of_nat (length (left_ (shared rw_middle))).
Proof.
  assert (later rw_step (rw_start ReadersAndWriters) rw_middle) as Hl.
  { apply (later_play _ _ (rw_start ReadersAndWriters) _ 60); [by apply reach_init|vm_compute; reflexivity]. }
  split; [exact Hl|]. split; [vm_compute; lia|].
  apply (writers_exclude_readers ReadersAndWriters rw_middle Hl).
Defined.
End ReadersWriters.
