(* ===== verification/ThreadTest.v ===== *)
(** * threads/threadtest.cc: the tests of the thread system

    The test routines as programs of the kernel: a piece of code between two calls of the kernel is one
    step, and what it prints is added to the output.  [ThreadTest_run] runs a test from the
    main thread without a timer, to the point where no thread can run or an assertion
    fails.  The DEBUG output is kept where it is the point of the test.  A thread of the model
    is created with its code; the argument of a [Fork] that is only known later, the joinee of
    [JoinTest1], is passed through the memory.  The tests of the mailbox are at the end, as programs of [Mailbox]; those of
    the whale are in [Whale], the readers and writers in [ReadersWriters]. *)

From S2P Require Import Prelude Kernel Threads Steps Monitor Mailbox.
From stdpp Require Import strings.
Import Kernel.Kernel Monitor.Monitor.

Open Scope Z_scope.

Module ThreadTest.

(** The global variables, the argument of a [Fork], and the output. *)
Record Memory := mkMemory { locktest : nat; fork_arg : nat; output : list (string * Z) }.

Definition say (s : string) (n : Z) (m : Memory) : Memory :=
  mkMemory (locktest m) (fork_arg m) (output m ++ [(s, n)]).
Definition print (s : string) : Memory → Memory := say s 0.
Definition set_locktest (l : nat) (m : Memory) : Memory := mkMemory l (fork_arg m) (output m).
Definition set_fork_arg (a : nat) (m : Memory) : Memory := mkMemory (locktest m) a (output m).

(** The code of a thread: what it does up to its next call, and what it goes on with. *)
#[warnings="-register-all"]
Inductive code := Step (f : Memory → option (Memory * call code * (nat → code))).

(** [f], then the call, then [next] with what the call returns. *)
Definition act (f : Memory → Memory) (c : Memory → call code) (next : nat → code) : code :=
  Step (λ m, Some (f m, c (f m), next)).
Definition stop : code := Step (λ _, None).
Definition last_act (f : Memory → Memory) : code := act f (λ _, CallFinish) (λ _, stop).
Definition yield (f : Memory → Memory) (next : code) : code := act f (λ _, CallYield) (λ _, next).

(** [new Thread] with a priority, then [Fork]. *)
Definition new_thread (join : bool) (body : code) (next : nat → code) : code :=
  act (λ m, m) (λ _, CallNewThread body join) next.
Definition fork (t : nat) (next : code) : code := act (λ m, m) (λ _, CallFork t) (λ _, next).
Definition set_priority (t : nat) (p : Z) (next : code) : code :=
  act (λ m, m) (λ _, CallSetPriority t p) (λ _, next).
Definition start (body : code) (next : code) : code := new_thread false body (λ t, fork t next).

(** The objects of the file: [l] is lock 0, [wGo] condition 0. *)
Definition l : nat := 0.
Definition wGo : nat := 0.

(** *** Yielding *)
Fixpoint SimpleThread_from (num : Z) (n : nat) (which : Z) (next : code) : code :=
  match n with
  | O => next
  | S n => yield (say "*** thread looped" (10 * which + num)) (SimpleThread_from (num + 1) n which next)
  end.
Definition SimpleThread (which : Z) (next : code) : code := SimpleThread_from 0 5 which next.
Definition ThreadTest1 : code := start (SimpleThread 1 stop) (SimpleThread 0 stop).

(** *** Condition variables *)
Definition badConditionTest1 : code := act (λ m, m) (λ _, CallSignal wGo l) (λ _, stop).
Definition badConditionTest2 : code := act (λ m, m) (λ _, CallBroadcast wGo l) (λ _, stop).
Definition CondTest1 : code := start badConditionTest1 stop.
Definition CondTest2 : code := start badConditionTest2 stop.

(** *** Locks *)
Definition locked (body : code) : code := act (λ m, m) (λ m, CallAcquire (locktest m)) (λ _, body).
Definition released (f : Memory → Memory) (next : code) : code :=
  act f (λ m, CallRelease (locktest m)) (λ _, next).

Definition LockThread (one : string) : code :=
  act (print (one +:+ ":0")) (λ m, CallAcquire (locktest m)) (λ _,
    yield (print (one +:+ ":1")) (released (print (one +:+ ":2")) (last_act (print (one +:+ ":3"))))).
Definition LockThread1 : code := LockThread "L1".
Definition LockThread2 : code := LockThread "L2".

(** An assignment before the code. *)
Definition assign (f : Memory → Memory) (c : code) : code :=
  match c with Step g => Step (λ m, g (f m)) end.

(** [locktest = new Lock] *)
Definition with_new_lock (next : code) : code :=
  act (λ m, m) (λ _, CallNewLock) (λ n, assign (set_locktest n) next).

Definition LockTest1 : code := with_new_lock (start LockThread1 (start LockThread2 stop)).

Definition Lock2Thread1 : code :=
  locked (released (λ m, m) (act (λ m, m) (λ m, CallDeleteLock (locktest m)) (λ _,
    with_new_lock (locked (act (print "SUCCESS") (λ m, CallDeleteLock (locktest m)) (λ _,
      released (print "FAILURE!") stop)))))).
Definition LockTest2 : code := with_new_lock (start Lock2Thread1 stop).

Definition LockTest3Thread : code := locked (locked stop).
Definition LockTest3 : code := with_new_lock (start LockTest3Thread stop).

(** *** Joining *)
Fixpoint yields (s : string) (n : nat) (next : code) : code :=
  match n with O => next | S n => yield (print s) (yields s n next) end.

Definition Joinee : code :=
  assign (print "Joinee needs to poo") (yields "Joinee still pooping!" 5 (yield (λ m, m)
    (yield (print "Joinee is Done") stop))).
(** The joinee is the argument of the thread. *)
Definition Joiner : code :=
  yield (λ m, m) (act (print "Is you done") (λ m, CallJoin (fork_arg m)) (λ _,
    yield (print "Joinee should be done pooping") (yield (λ m, m) stop))).
Definition JoinTest1 : code :=
  assign (print "Sublime entrance of JoinTest1...")
    (new_thread false Joiner (λ joiner, new_thread true Joinee (λ joinee,
      assign (set_fork_arg joinee)
        (fork joiner (fork joinee (last_act (print "Graceful exit of JoinTest1..."))))))).

Definition JoinTask2 : code :=
  last_act (λ m, print "Me first!" (print "We're in the join thread" m)).
Definition JoinStart2 : code :=
  new_thread true JoinTask2 (λ th, fork th (yield (λ m, m)
    (act (λ m, m) (λ _, CallJoin th) (λ _, last_act (print "I've completed my duty..."))))).
Definition JoinTest2 : code :=
  assign (print "Immaculate entrance of JoinTest2...")
    (start JoinStart2 (last_act (print "Perfect exit of JoinTest2..."))).

(** *** Priorities; the output is the order of the DEBUG lines. *)
Definition PriorityYieldTask (p : Z) : code := yield (say "enter" p) (last_act (say "exit" p)).
Definition PriorityEmptyTask (p : Z) : code := last_act (say "run" p).

Definition with_priorities (body : Z → code) (next : code) : code :=
  new_thread false (body 1) (λ t1, set_priority t1 1 (fork t1
    (new_thread false (body 5) (λ t5, set_priority t5 5 (fork t5
      (new_thread false (body 3) (λ t3, set_priority t3 3 (fork t3 next)))))))).

Definition main_thread : nat := 0.
Definition PriorityOrderTest : code :=
  with_priorities PriorityEmptyTask (set_priority main_thread 8 (yield (print "main") (last_act (print "main again")))).
Definition PriorityOrderYieldTest : code :=
  with_priorities PriorityYieldTask (set_priority main_thread 8 (yield (print "main") (last_act (print "main again")))).

Definition PriorityLockTaskIce : code := locked (yield (λ m, m) (yield (print "Ice ") (released (λ m, m) stop))).
Definition PriorityLockTaskCream : code := locked (yield (λ m, m) (released (print "cream ") stop)).
Definition PriorityLockTaskDonuts : code := locked (yield (λ m, m) (released (print "donuts!") stop)).
Definition PriorityLockOrderTest : code :=
  new_thread false PriorityLockTaskCream (λ p1, new_thread false PriorityLockTaskDonuts (λ p2,
    new_thread false PriorityLockTaskIce (λ p3,
      set_priority p1 1 (set_priority p2 2 (set_priority p3 3 (with_new_lock
        (fork p3 (yield (λ m, m) (fork p2 (yield (λ m, m) (fork p1 stop))))))))))).

(** *** Running a test *)
Definition test_step (c : code) (m : Memory) : option (Memory * call code * (nat → code)) :=
  match c with Step f => f m end.

Definition test_start (c : code) : Kernel code Memory :=
  machine 1 2 [] c (mkMemory 0 0 []).
Definition ThreadTest_run (c : code) : outcome (Kernel code Memory) := play test_step 400 (test_start c).

(** What a test prints, when it comes to an end. *)
Definition prints (c : code) : outcome (list (string * Z)) :=
  k ← ThreadTest_run c; Ret (output (shared k)).

(** *** The mailbox *)
Definition MailboxSend (param : Z) : Mailbox.Mailbox.code (W := list Z) :=
  Mailbox.Mailbox.Code (λ w, Some (w, Mailbox.Mailbox.DoSend param (Mailbox.Mailbox.Code (λ _, None)))).
Definition MailboxReceive : Mailbox.Mailbox.code (W := list Z) :=
  Mailbox.Mailbox.Code (λ w, Some (w, Mailbox.Mailbox.DoReceive (λ v, Mailbox.Mailbox.Code (λ w,
    Some (w ++ [v], Mailbox.Mailbox.DoCall CallFinish (λ _, Mailbox.Mailbox.Code (λ _, None))))))).

(** Fork the threads in order: a sender of a number, or a receiver. *)
Fixpoint mailbox_test (threads : list (option Z)) : Mailbox.Mailbox.code (W := list Z) :=
  match threads with
  | [] => Mailbox.Mailbox.Code (λ _, None)
  | o :: threads =>
      Mailbox.Mailbox.Code (λ w, Some (w, Mailbox.Mailbox.DoCall
        (CallNewThread (match o with Some n => MailboxSend n | None => MailboxReceive end) false) (λ t,
          Mailbox.Mailbox.Code (λ w, Some (w, Mailbox.Mailbox.DoCall (CallFork t) (λ _, mailbox_test threads))))))
  end.
Definition MailboxTest1 : Mailbox.Mailbox.code := mailbox_test [Some 1347; None].
Definition MailboxTest2 : Mailbox.Mailbox.code := mailbox_test [None; Some 1337].
Definition MailboxTest3 : Mailbox.Mailbox.code := mailbox_test [None; None; Some 4; Some 5; Some 3].
Definition MailboxTest4 : Mailbox.Mailbox.code := mailbox_test [None; None; None; Some 4; Some 5].

(** What the receivers print, in order, and what is left in the buffer. *)
Definition mailbox_prints (c : Mailbox.Mailbox.code) : outcome (list Z * list Z) :=
  k ← play Mailbox.Mailbox.mailbox_step 400 (machine 1 2 [] (Mailbox.Mailbox.At c)
    (Mailbox.Mailbox.mkMemory Mailbox.Mailbox.Mailbox_new (Mailbox.Mailbox.mkLog [] [] 0 0 false) []));
  Ret (Mailbox.Mailbox.world (shared k), Mailbox.Mailbox.buffer (Mailbox.Mailbox.mailbox (shared k))).

(** *** The tests, run

    They end as their comments say: the two loopers alternate; the holder of the lock finishes
    before the other locker goes in; the joiner goes on after the joinee is done; threads run
    in the documented order of their priorities; and the receivers get the messages in the order
    in which they were sent. *)
Example ThreadTest1_alternates :
  prints ThreadTest1 = Ret ((λ n, ("*** thread looped", n)) <$> [0; 10; 1; 11; 2; 12; 3; 13; 4; 14]).
Proof. vm_compute. reflexivity. Qed.

Example LockTest1_excludes : prints LockTest1 = Ret ((λ s, (s, 0)) <$>
  ["L1:0"; "L1:1"; "L2:0"; "L1:2"; "L1:3"; "L2:1"; "L2:2"; "L2:3"]).
Proof. vm_compute. reflexivity. Qed.

Example JoinTest1_joins : ∃ out, prints JoinTest1 =
  Ret (out ++ [("Joinee is Done", 0); ("Joinee should be done pooping", 0)]).
Proof. eexists [_; _; _; _; _; _; _; _; _]. vm_compute. reflexivity. Qed.

Example JoinTest2_joins : prints JoinTest2 = Ret ((λ s, (s, 0)) <$>
  ["Immaculate entrance of JoinTest2..."; "Perfect exit of JoinTest2..."; "We're in the join thread";
   "Me first!"; "I've completed my duty..."]).
Proof. vm_compute. reflexivity. Qed.

Example PriorityOrderTest_order :
  prints PriorityOrderTest = Ret [("main", 0); ("run", 1); ("run", 3); ("run", 5); ("main again", 0)].
Proof. vm_compute. reflexivity. Qed.

Example PriorityOrderYieldTest_order :
  prints PriorityOrderYieldTest = Ret [("main", 0); ("enter", 1); ("enter", 3); ("exit", 1); ("exit", 3);
    ("enter", 5); ("main again", 0); ("exit", 5)].
Proof. vm_compute. reflexivity. Qed.

Example PriorityLockOrderTest_order :
  prints PriorityLockOrderTest = Ret ((λ s, (s, 0)) <$> ["Ice "; "cream "; "donuts!"]).
Proof. vm_compute. reflexivity. Qed.

Example MailboxTests_order :
  mailbox_prints MailboxTest1 = Ret ([1347], []) ∧ mailbox_prints MailboxTest2 = Ret ([1337], []) ∧
  mailbox_prints MailboxTest3 = Ret ([4; 5], [3]) ∧ mailbox_prints MailboxTest4 = Ret ([4; 5], []).
Proof. split_and!; vm_compute; reflexivity. Qed.

End ThreadTest.
