(* ===== verification/Network.v ===== *)
(** * machine/network.h, network.cc: the network device

    The device of one machine.  A packet on the wire is [MaxWireSize] bytes: the header, as its
    bytes in memory, and the data.  The UNIX socket is the list of packets that wait in it; the
    interrupts the device asks for are added to [scheduled].  What [new char[...]] finds in
    memory is a parameter ([junk]), and so is the random number. *)

From S2P Require Import Prelude CInt.
From Stdlib Require Import QArith.

Open Scope Z_scope.

Module Network.

Record PacketHeader := mkPacketHeader { to : Z; from : Z; length_ : Z }.

Definition MaxWireSize : Z := 64.
Definition sizeof_PacketHeader : Z := 12.
Definition MaxPacketSize : Z := MaxWireSize - sizeof_PacketHeader.

(** The header as it lies in memory: two ints and an unsigned. *)
Definition header_bytes (h : PacketHeader) : list Z := words_bytes [to h; from h; length_ h].
Definition bytes_header (bs : list Z) : PacketHeader :=
  match bytes_words 3 bs with
  | [a; b; c] => mkPacketHeader (s32 a) (s32 b) c
  | _ => mkPacketHeader 0 0 0
  end.

Definition header_ok (h : PacketHeader) : Prop := is_s32 (to h) ∧ is_s32 (from h) ∧ is_u32 (length_ h).

Lemma header_bytes_length h : length (header_bytes h) = 12%nat.
Proof. done. Qed.

Lemma bytes_header_bytes h rest : header_ok h → bytes_header (header_bytes h ++ rest) = h.
Proof.
  intros (Ht & Hf & Hl). unfold bytes_header, header_bytes.
  pose proof (bytes_words_roundtrip [to h; from h; length_ h] rest) as E. cbn [length] in E. rewrite E.
  cbn [fmap list_fmap]. rewrite !s32_u32, !s32_small, u32_small by done. by destruct h.
Qed.

Inductive interrupt := ReadPoll | SendDoneInt.
#[export] Instance interrupt_eq_dec : EqDecision interrupt.
Proof. solve_decision. Defined.

Fixpoint remove_one (i : interrupt) (l : list interrupt) : list interrupt :=
  match l with
  | [] => []
  | j :: l => if decide (j = i) then l else j :: remove_one i l
  end.

Record Network := mkNetwork {
  ident : Z; chanceToWork : Q; sendBusy : bool; inHdr : PacketHeader; inbox : list Z;
  numPacketsSent : Z; numPacketsRecvd : Z; scheduled : list interrupt }.

Definition Network_new (addr : Z) (reliability : Q) (junk : list Z) : Network :=
  let chance := if negb (Qle_bool 0 reliability) then 0%Q
                else if negb (Qle_bool reliability 1) then 1%Q else reliability in
  mkNetwork addr chance false (mkPacketHeader 0 0 0) junk 0 0 [ReadPoll].

Definition schedule (i : interrupt) (n : Network) : Network :=
  mkNetwork (ident n) (chanceToWork n) (sendBusy n) (inHdr n) (inbox n)
    (numPacketsSent n) (numPacketsRecvd n) (scheduled n ++ [i]).

(** The interrupt fires: it is no longer pending. *)
Definition take_interrupt (i : interrupt) (n : Network) : Network :=
  mkNetwork (ident n) (chanceToWork n) (sendBusy n) (inHdr n) (inbox n)
    (numPacketsSent n) (numPacketsRecvd n) (remove_one i (scheduled n)).

(** A packet that was read is divided into header and data. *)
Definition accept (buffer : list Z) (n : Network) : outcome Network :=
  let hdr := bytes_header buffer in
  assert! (to hdr =? ident n) && (length_ hdr <=? MaxPacketSize);;
  let data := take (Z.to_nat (length_ hdr)) (drop (Z.to_nat sizeof_PacketHeader) buffer) in
  Ret (mkNetwork (ident n) (chanceToWork n) (sendBusy n) hdr (blit (inbox n) 0 data)
         (numPacketsSent n) (numPacketsRecvd n + 1) (scheduled n)).

(** The handler of the poll; the result says whether the post office is told of a packet. *)
Definition CheckPktAvail (sock : list (list Z)) (n : Network) : outcome (Network * list (list Z) * bool) :=
  let n := schedule ReadPoll n in
  if negb (length_ (inHdr n) =? 0) then Ret (n, sock, false)
  else match sock with
    | [] => Ret (n, [], false)
    | buffer :: sock => n ← accept buffer n; Ret (n, sock, true)
    end.

Definition SendDone (n : Network) : Network :=
  mkNetwork (ident n) (chanceToWork n) false (inHdr n) (inbox n)
    (numPacketsSent n + 1) (numPacketsRecvd n) (scheduled n).

(** [Random() % 100 >= chanceToWork * 100] *)
Definition lost (n : Network) (random : Z) : bool :=
  Qle_bool (chanceToWork n * 100) (inject_Z (random `rem` 100)).

(** The packet that goes out, if it is not lost, with the machine it goes to. *)
Definition Send (hdr : PacketHeader) (data : list Z) (random : Z) (junk : list Z) (n : Network) :
    outcome (Network * option (Z * list Z)) :=
  assert! negb (sendBusy n) && (0 <? length_ hdr) && (length_ hdr <=? MaxPacketSize) && (from hdr =? ident n);;
  let n := schedule SendDoneInt n in
  if lost n random then Ret (n, None)
  else
    _ ← defined_if (Z.to_nat (length_ hdr) <=? length data)%nat;
    let buffer := blit (blit junk 0 (header_bytes hdr)) 12 (take (Z.to_nat (length_ hdr)) data) in
    Ret (n, Some (to hdr, buffer)).

(** The header is that of the packet that was buffered; without one the data is left alone. *)
Definition Receive (data : list Z) (n : Network) : Network * PacketHeader * list Z :=
  let hdr := inHdr n in
  let n := mkNetwork (ident n) (chanceToWork n) (sendBusy n) (mkPacketHeader (to hdr) (from hdr) 0)
             (inbox n) (numPacketsSent n) (numPacketsRecvd n) (scheduled n) in
  (n, hdr, if negb (length_ hdr =? 0) then blit data 0 (take (Z.to_nat (length_ hdr)) (inbox n)) else data).

(** ** A packet on the wire *)
Lemma blit_start (buf bs1 bs2 : list Z) :
  (length bs1 + length bs2 ≤ length buf)%nat →
  blit (blit buf 0 bs1) (length bs1) bs2 = bs1 ++ bs2 ++ drop (length bs1 + length bs2) buf.
Proof.
  intros H. pose proof (blit_blit buf 0 bs1 bs2) as E. cbn [Nat.add] in E. rewrite E by lia.
  unfold blit. cbn [Nat.add take app]. by rewrite length_app, <- app_assoc.
Qed.

(** What [CheckPktAvail] reads is what [Send] wrote. *)
Lemma packet_read h (data rest : list Z) :
  header_ok h → length data = Z.to_nat (length_ h) →
  bytes_header (header_bytes h ++ data ++ rest) = h ∧
  take (Z.to_nat (length_ h)) (drop (Z.to_nat sizeof_PacketHeader) (header_bytes h ++ data ++ rest)) = data.
Proof.
  intros Hh Hd. split; [by apply bytes_header_bytes|].
  change (Z.to_nat sizeof_PacketHeader) with 12%nat.
  rewrite drop_app_length' by done. by apply take_app_length'.
Qed.

End Network.
