(* ===== verification/Sockets.v ===== *)
(** * machine/sysdep.cc: sockets, and the network device on them

    [Network] has the socket of a machine as a queue of packets and names machines by their addresses.  Here the calls of
    sysdep.cc are the ones the device makes: a datagram socket that is bound to a file name, SOCKET_ and the address.  Any
    number of Nachos processes start, send, poll, end in order or crash, in any order; [sockets_refine] says that they do
    what the queues of [Network] do, with an abstract table of who answers at an address.

    Of UNIX: a name is bound to at most one socket; to send to a name that is not there, or whose socket is closed, is an
    error; a socket is a queue of datagrams that are not cut.  That a sender waits when the queue is full is left out. *)

From S2P Require Import Prelude CInt Network.
From stdpp Require Import strings pretty.
From Stdlib Require Import QArith.
Import Network.Network.

Open Scope Z_scope.

Module Sockets.

(** *** Sockets of UNIX: who has which name, and what waits; the next socket is [next]. *)
Record Sockets := mkSockets { bound : gmap string nat; queues : gmap nat (list (list Z)); next : nat }.

Definition unlink (name : string) (u : Sockets) : Sockets := mkSockets (delete name (bound u)) (queues u) (next u).
Definition close (sockID : nat) (u : Sockets) : Sockets := mkSockets (bound u) (delete sockID (queues u)) (next u).

(** The result of [bind], and of [sendto], is negative when it fails. *)
Definition bind (sockID : nat) (name : string) (u : Sockets) : Sockets * Z :=
  match bound u !! name, queues u !! sockID with
  | None, Some _ => (mkSockets (<[name := sockID]> (bound u)) (queues u) (next u), 0)
  | _, _ => (u, -1)
  end.
Definition sendto (packet : list Z) (name : string) (u : Sockets) : Sockets * Z :=
  match bound u !! name with
  | Some s =>
      match queues u !! s with
      | Some q => (mkSockets (bound u) (<[s := q ++ [packet]]> (queues u)) (next u), Z.of_nat (length packet))
      | None => (u, -1)
      end
  | None => (u, -1)
  end.

(** *** machine/sysdep.cc *)
Definition OpenSocket (u : Sockets) : Sockets * nat :=
  (mkSockets (bound u) (<[next u := []]> (queues u)) (S (next u)), next u).
Definition CloseSocket := close.

(** [sun_path] has 108 characters. *)
Definition InitSocketName (name : string) : outcome string :=
  _ ← defined_if (String.length name <? 108)%nat; Ret name.

Definition AssignNameToSocket (socketName : string) (sockID : nat) (u : Sockets) : outcome Sockets :=
  let u := unlink socketName u in
  uName ← InitSocketName socketName;
  let '(u, retVal) := bind sockID uName u in
  assert! 0 <=? retVal;;
  Ret u.

Definition DeAssignNameToSocket (socketName : string) (u : Sockets) : Sockets := unlink socketName u.

Definition PollSocket (sockID : nat) (u : Sockets) : bool :=
  match queues u !! sockID with Some (_ :: _) => true | _ => false end.

(** [recvfrom] does not return when nothing comes. *)
Definition ReadFromSocket (sockID : nat) (packetSize : Z) (u : Sockets) : outcome (list Z * Sockets) :=
  match queues u !! sockID with
  | Some (packet :: q) =>
      let u := mkSockets (bound u) (<[sockID := q]> (queues u)) (next u) in
      let buffer := take (Z.to_nat packetSize) packet in
      let retVal := Z.of_nat (length buffer) in
      assert! retVal =? packetSize;;
      Ret (buffer, u)
  | Some [] => OutOfFuel
  | None => AssertFails
  end.

Definition SendToSocket (buffer : list Z) (packetSize : Z) (toName : string) (u : Sockets) : outcome Sockets :=
  uName ← InitSocketName toName;
  let '(u, retVal) := sendto (take (Z.to_nat packetSize) buffer) uName u in
  assert! retVal =? packetSize;;
  Ret u.

(** *** machine/network.cc: what the device does with the socket *)
Record Station := mkStation { dev : Network; sock : nat; sockName : string }.
Definition with_dev (n : Network) (st : Station) : Station := mkStation n (sock st) (sockName st).

(** [sprintf(sockName, "SOCKET_%d", (int)addr)], into 32 characters. *)
Definition socket_name (addr : Z) : string := "SOCKET_" +:+ pretty addr.
Definition sprintf_name (addr : Z) : outcome string :=
  _ ← defined_if (String.length (socket_name addr) <? 32)%nat; Ret (socket_name addr).

Definition Station_new (addr : Z) (reliability : Q) (junk : list Z) (u : Sockets) : outcome (Station * Sockets) :=
  let '(u, sock) := OpenSocket u in
  sockName ← sprintf_name addr;
  u ← AssignNameToSocket sockName sock u;
  Ret (mkStation (Network_new addr reliability junk) sock sockName, u).

Definition Station_delete (st : Station) (u : Sockets) : Sockets :=
  DeAssignNameToSocket (sockName st) (CloseSocket (sock st) u).

Definition CheckPktAvail (st : Station) (u : Sockets) : outcome (Station * Sockets * bool) :=
  let n := schedule ReadPoll (dev st) in
  if negb (length_ (inHdr n) =? 0) then Ret (with_dev n st, u, false)
  else if negb (PollSocket (sock st) u) then Ret (with_dev n st, u, false)
  else
    '(buffer, u) ← ReadFromSocket (sock st) MaxWireSize u;
    n ← accept buffer n;
    Ret (with_dev n st, u, true).

Definition Send (hdr : PacketHeader) (data : list Z) (random : Z) (junk : list Z) (st : Station) (u : Sockets) :
    outcome (Station * Sockets) :=
  toName ← sprintf_name (to hdr);
  '(n, out) ← Network.Send hdr data random junk (dev st);
  match out with
  | None => Ret (with_dev n st, u)
  | Some (_, buffer) => u ← SendToSocket buffer MaxWireSize toName u; Ret (with_dev n st, u)
  end.

(** *** Names *)
Lemma socket_name_inj a b : socket_name a = socket_name b → a = b.
Proof. intros E. by apply (inj (String.app "SOCKET_")), (inj pretty) in E. Qed.

Lemma pretty_N_go_length k x s : (x < 10 ^ N.of_nat k)%N → (String.length (pretty_N_go x s) ≤ k + String.length s)%nat.
Proof.
  revert x s. induction k as [|k IH]; intros x s Hx.
  - assert (x = 0%N) as -> by (cbn in Hx; lia). by rewrite pretty_N_go_0.
  - destruct (decide (x = 0%N)) as [->|Hne]; [rewrite pretty_N_go_0; lia|].
    rewrite pretty_N_go_step by lia. etrans; [apply IH|cbn; lia].
    rewrite Nat2N.inj_succ, N.pow_succ_r' in Hx. apply N.Div0.div_lt_upper_bound. lia.
Qed.

Lemma pretty_length a : is_s32 a → (String.length (pretty a) ≤ 11)%nat.
Proof.
  assert (∀ n, (n ≤ 2 ^ 31)%N → (String.length (pretty n) ≤ 10)%nat) as HN.
  { intros n Hn. unfold pretty, pretty_N. case_decide; [cbn; lia|].
    etrans; [apply (pretty_N_go_length 10)|cbn; lia]. change (10 ^ N.of_nat 10)%N with 10000000000%N. lia. }
  intros Ha. unfold is_s32 in Ha. destruct a as [|p|p]; [cbn; lia| |].
  - change (pretty (Z.pos p)) with (pretty (N.pos p)). etrans; [apply HN|]; lia.
  - change (String.length (pretty (Z.neg p))) with (S (String.length (pretty (N.pos p)))).
    apply le_n_S, HN. lia.
Qed.

Lemma socket_name_length a : is_s32 a → (String.length (socket_name a) ≤ 18)%nat.
Proof.
  intros Ha. pose proof (pretty_length a Ha).
  change (String.length (socket_name a)) with (7 + String.length (pretty a))%nat. lia.
Qed.

Lemma sprintf_name_ok a : is_s32 a → sprintf_name a = Ret (socket_name a).
Proof.
  intros Ha. pose proof (socket_name_length a Ha). unfold sprintf_name. by rewrite (proj2 (Nat.ltb_lt _ _)) by lia.
Qed.

Lemma InitSocketName_ok a : is_s32 a → InitSocketName (socket_name a) = Ret (socket_name a).
Proof.
  intros Ha. pose proof (socket_name_length a Ha). unfold InitSocketName. by rewrite (proj2 (Nat.ltb_lt _ _)) by lia.
Qed.

(** *** Processes on one UNIX *)
Inductive event :=
  | Start (addr : Z) (reliability : Q) (junk : list Z)
  | Poll (i : nat) | Sent (i : nat)
  | Transmit (i : nat) (hdr : PacketHeader) (data : list Z) (random : Z) (junk : list Z)
  | Get (i : nat) (data : list Z)
  | Stop (i : nat) | Crash (i : nat).

(** The processes in the order of their starts; [None] is one that has ended. *)
Record Net := mkNet { unix : Sockets; stations : list (option Station) }.

(** What happens to a process that is not there does nothing. *)
Definition on_station (i : nat) (f : Station → Sockets → outcome (option Station * Sockets)) (c : Net) : outcome Net :=
  match stations c !! i with
  | Some (Some st) => '(st, u) ← f st (unix c); Ret (mkNet u (<[i := st]> (stations c)))
  | _ => Ret c
  end.

Definition step (e : event) (c : Net) : outcome Net :=
  match e with
  | Start addr reliability junk =>
      '(st, u) ← Station_new addr reliability junk (unix c);
      Ret (mkNet u (stations c ++ [Some st]))
  | Poll i => on_station i (λ st u,
      '(st, u, _) ← CheckPktAvail (with_dev (take_interrupt ReadPoll (dev st)) st) u; Ret (Some st, u)) c
  | Sent i => on_station i (λ st u, Ret (Some (with_dev (SendDone (take_interrupt SendDoneInt (dev st))) st), u)) c
  | Transmit i hdr data random junk => on_station i (λ st u,
      '(st, u) ← Send hdr data random junk st u; Ret (Some st, u)) c
  | Get i data => on_station i (λ st u, Ret (Some (with_dev (Receive data (dev st)).1.1 st), u)) c
  | Stop i => on_station i (λ st u, Ret (None, Station_delete st u)) c
  | Crash i => on_station i (λ st u, Ret (None, close (sock st) u)) c
  end.

Fixpoint run (es : list event) (c : Net) : outcome Net :=
  match es with [] => Ret c | e :: es => c ← step e c; run es c end.

(** *** The machines of [Network] and who answers at an address: the last that was started with it, unless a machine with
    that address has been stopped since *)
Record Wire := mkWire { machines : list (option (Network * list (list Z))); answers : gmap Z nat }.

Definition on_machine (i : nat) (f : Network * list (list Z) → outcome (Network * list (list Z))) (w : Wire) : outcome Wire :=
  match machines w !! i with
  | Some (Some m) => m ← f m; Ret (mkWire (<[i := Some m]> (machines w)) (answers w))
  | _ => Ret w
  end.

Definition deliver (dest : Z) (packet : list Z) (w : Wire) : outcome Wire :=
  match answers w !! dest with
  | Some j =>
      match machines w !! j with
      | Some (Some (n, q)) => Ret (mkWire (<[j := Some (n, q ++ [packet])]> (machines w)) (answers w))
      | _ => AssertFails
      end
  | None => AssertFails
  end.

Definition wire_step (e : event) (w : Wire) : outcome Wire :=
  match e with
  | Start addr reliability junk =>
      Ret (mkWire (machines w ++ [Some (Network_new addr reliability junk, [])]) (<[addr := length (machines w)]> (answers w)))
  | Poll i => on_machine i (λ '(n, q),
      '(n, q, _) ← Network.CheckPktAvail q (take_interrupt ReadPoll n); Ret (n, q)) w
  | Sent i => on_machine i (λ '(n, q), Ret (SendDone (take_interrupt SendDoneInt n), q)) w
  | Transmit i hdr data random junk =>
      match machines w !! i with
      | Some (Some (n, q)) =>
          '(n, out) ← Network.Send hdr data random junk n;
          let w := mkWire (<[i := Some (n, q)]> (machines w)) (answers w) in
          match out with None => Ret w | Some (dest, packet) => deliver dest packet w end
      | _ => Ret w
      end
  | Get i data => on_machine i (λ '(n, q), Ret ((Receive data n).1.1, q)) w
  | Stop i =>
      match machines w !! i with
      | Some (Some (n, q)) => Ret (mkWire (<[i := None]> (machines w)) (delete (ident n) (answers w)))
      | _ => Ret w
      end
  | Crash i =>
      match machines w !! i with
      | Some (Some (n, q)) => Ret (mkWire (<[i := None]> (machines w)) (answers w))
      | _ => Ret w
      end
  end.

Fixpoint wire_run (es : list event) (w : Wire) : outcome Wire :=
  match es with [] => Ret w | e :: es => w ← wire_step e w; wire_run es w end.

(** Addresses are ints, and a new buffer has [MaxWireSize] bytes. *)
Definition event_ok (e : event) : Prop :=
  match e with
  | Start addr _ _ => is_s32 addr
  | Transmit _ hdr _ _ junk => is_s32 (to hdr) ∧ length junk = 64%nat
  | _ => True
  end.

(** *** The representation *)
Definition station_of (i : nat) (m : Network * list (list Z)) : Station := mkStation m.1 i (socket_name (ident m.1)).

Record rep (c : Net) (w : Wire) : Prop := {
  rep_next : next (unix c) = length (machines w);
  rep_stations : length (stations c) = length (machines w) ∧
    ∀ i, stations c !! i = fmap (station_of i) <$> machines w !! i;
  rep_queues i : queues (unix c) !! i = snd <$> mjoin (machines w !! i);
  rep_bound a : is_s32 a → bound (unix c) !! socket_name a = answers w !! a;
  rep_packets i n q : machines w !! i = Some (Some (n, q)) → is_s32 (ident n) ∧ Forall (λ p : list Z, length p = 64%nat) q }.

(** Both end the same way. *)
Definition agree {A B} (P : A → B → Prop) (x : outcome A) (y : outcome B) : Prop :=
  match x, y with
  | Ret a, Ret b => P a b
  | AssertFails, AssertFails | Undefined, Undefined => True
  | _, _ => False
  end.

Lemma agree_bind {A B A' B'} (P : A → B → Prop) (Q : A' → B' → Prop) x y f g :
  agree P x y → (∀ a b, P a b → agree Q (f a) (g b)) → agree Q (x ≫= f) (y ≫= g).
Proof. destruct x, y; try done. intros Hp Hf. by apply Hf. Qed.

(** A machine and its queue change. *)
Lemma rep_change c w i m m' st' qs :
  rep c w → machines w !! i = Some (Some m) → st' = station_of i m' → is_s32 (ident m'.1) →
  Forall (λ p : list Z, length p = 64%nat) m'.2 → qs = <[i := m'.2]> (queues (unix c)) →
  rep (mkNet (mkSockets (bound (unix c)) qs (next (unix c))) (<[i := Some st']> (stations c)))
      (mkWire (<[i := Some m']> (machines w)) (answers w)).
Proof.
  intros [H1 [H2 H2'] H3 H4 H5] Em -> Hid Hq ->. pose proof (lookup_lt_Some _ _ _ Em) as Hlt. split; cbn.
  - by rewrite length_insert.
  - rewrite !length_insert. split; [done|]. intros j. destruct (decide (j = i)) as [->|Hne].
    + rewrite !list_lookup_insert_eq by lia. done.
    + by rewrite !list_lookup_insert_ne by done.
  - intros j. destruct (decide (j = i)) as [->|Hne].
    + by rewrite lookup_insert_eq, list_lookup_insert_eq by lia.
    + rewrite lookup_insert_ne, list_lookup_insert_ne by done. apply H3.
  - done.
  - intros j n q [(<- & [= Eq] & _)|[_ Ej]]%list_lookup_insert_Some; [|by eapply H5]. by rewrite Eq in *.
Qed.

(** A process ends; [gone] are the names that go with it. *)
Lemma rep_end c w i m u' gone :
  rep c w → machines w !! i = Some (Some m) →
  u' = mkSockets (bound u') (delete i (queues (unix c))) (next (unix c)) →
  (∀ a, is_s32 a → bound u' !! socket_name a = gone !! a) →
  rep (mkNet u' (<[i := None]> (stations c))) (mkWire (<[i := None]> (machines w)) gone).
Proof.
  intros [H1 [H2 H2'] H3 H4 H5] Em -> Hb. pose proof (lookup_lt_Some _ _ _ Em) as Hlt. split; cbn.
  - by rewrite length_insert.
  - rewrite !length_insert. split; [done|]. intros j. destruct (decide (j = i)) as [->|Hne].
    + by rewrite !list_lookup_insert_eq by lia.
    + by rewrite !list_lookup_insert_ne by done.
  - intros j. destruct (decide (j = i)) as [->|Hne].
    + by rewrite lookup_delete_eq, list_lookup_insert_eq by lia.
    + rewrite lookup_delete_ne, list_lookup_insert_ne by done. apply H3.
  - done.
  - intros j n q [(_ & [=] & _)|[_ Ej]]%list_lookup_insert_Some. by eapply H5.
Qed.

Lemma Start_agrees addr reliability junk c w :
  rep c w → is_s32 addr → agree rep (step (Start addr reliability junk) c) (wire_step (Start addr reliability junk) w).
Proof.
  intros [H1 [H2 H2'] H3 H4 H5] Ha. cbn [step wire_step]. unfold Station_new, OpenSocket, AssignNameToSocket, unlink.
  rewrite sprintf_name_ok by done. cbn [mbind outcome_bind]. rewrite InitSocketName_ok by done. cbn [mbind outcome_bind].
  unfold bind. cbn [bound queues next]. rewrite lookup_delete_eq, lookup_insert_eq. cbn [mbind outcome_bind Z.leb Z.compare ASSERT].
  split; cbn.
  - rewrite length_app, H1. cbn. lia.
  - rewrite !length_app, H2. split; [done|]. intros j. destruct (decide (j < length (machines w))%nat) as [Hj|Hj].
    + by rewrite !lookup_app_l by lia.
    + rewrite !lookup_app_r by lia. rewrite H2. destruct (j - length (machines w))%nat as [|n] eqn:Ej; [|done]. cbn.
      unfold station_of. cbn. do 3 f_equal. lia.
  - intros j. rewrite H1. destruct (decide (j = length (machines w))) as [->|Hne].
    + by rewrite lookup_insert_eq, list_lookup_middle by done.
    + rewrite lookup_insert_ne, H3 by done. destruct (decide (j < length (machines w))%nat).
      * by rewrite lookup_app_l by done.
      * rewrite (proj2 (lookup_ge_None (machines w) j)) by lia.
        by rewrite (proj2 (lookup_ge_None (_ ++ _) j)) by (rewrite length_app; cbn; lia).
  - intros a Hs. destruct (decide (a = addr)) as [->|Hne].
    + by rewrite !lookup_insert_eq, H1.
    + rewrite lookup_insert_ne, lookup_delete_ne by (by intros E%socket_name_inj).
      rewrite lookup_insert_ne by done. by apply H4.
  - intros j n q [Ej|[Hj Ej]]%lookup_app_Some; [by eapply H5|].
    apply list_lookup_singleton_Some in Ej as [_ [= <- <-]]. done.
Qed.

(** The process an event is about, on both sides. *)
Lemma rep_machine c w i :
  rep c w → (∃ n q, machines w !! i = Some (Some (n, q)) ∧ stations c !! i = Some (Some (station_of i (n, q))) ∧
      queues (unix c) !! i = Some q ∧ is_s32 (ident n) ∧ Forall (λ p : list Z, length p = 64%nat) q) ∨
    ((machines w !! i = Some None ∧ stations c !! i = Some None) ∨ (machines w !! i = None ∧ stations c !! i = None)).
Proof.
  intros [H1 [H2 H2'] H3 H4 H5]. destruct (machines w !! i) as [[[n q]|]|] eqn:Em.
  - left. exists n, q. split; [done|]. split; [by rewrite H2', Em|]. split; [by rewrite H3, Em|]. by eapply H5.
  - right. left. split; [done|]. by rewrite H2', Em.
  - right. right. split; [done|]. by rewrite H2', Em.
Qed.

(** Only the device changes. *)
Lemma device_agrees c w i n q n' :
  rep c w → machines w !! i = Some (Some (n, q)) → ident n' = ident n →
  rep (mkNet (unix c) (<[i := Some (with_dev n' (station_of i (n, q)))]> (stations c)))
      (mkWire (<[i := Some (n', q)]> (machines w)) (answers w)).
Proof.
  intros Hr Em Hid. destruct (rep_packets _ _ Hr _ _ _ Em) as [Hi Hq].
  replace (unix c) with (mkSockets (bound (unix c)) (queues (unix c)) (next (unix c))) by (by destruct (unix c)).
  apply (rep_change c w i (n, q) (n', q)); try done.
  - unfold with_dev, station_of. cbn. by rewrite Hid.
  - cbn. by rewrite Hid.
  - symmetry. apply insert_id. by rewrite (rep_queues _ _ Hr), Em.
Qed.

Lemma accept_ident buffer n n' : accept buffer n = Ret n' → ident n' = ident n.
Proof. unfold accept. intros H. destruct (_ && _); [|done]. by injection H as <-. Qed.

Lemma Poll_agrees i c w : rep c w → agree rep (step (Poll i) c) (wire_step (Poll i) w).
Proof.
  intros Hr. cbn [step wire_step]. unfold on_station, on_machine.
  destruct (rep_machine c w i Hr) as [(n & q & Em & Es & Eq & Hid & Hq)|[[-> ->]|[-> ->]]]; [|done..]. rewrite Em, Es.
  unfold CheckPktAvail, Network.CheckPktAvail. cbn [dev station_of with_dev fst].
  set (n1 := schedule ReadPoll (take_interrupt ReadPoll n)). cbn [sock].
  destruct (negb (length_ (inHdr n1) =? 0)); [exact (device_agrees c w i n q n1 Hr Em eq_refl)|].
  unfold PollSocket, ReadFromSocket. cbn [sock with_dev station_of]. rewrite Eq. destruct q as [|packet q]; cbn [negb].
  { exact (device_agrees c w i n [] n1 Hr Em eq_refl). }
  apply Forall_cons in Hq as [Hp Hq]. change (Z.to_nat MaxWireSize) with 64%nat. rewrite take_ge by lia. rewrite Hp.
  change (Z.of_nat 64 =? MaxWireSize) with true. cbn [ASSERT mbind outcome_bind].
  destruct (accept packet n1) as [n2| | |] eqn:Ea; cbn [mbind outcome_bind]; try done.
  2: { unfold accept in Ea. by destruct (_ && _) in Ea. }
  pose proof (accept_ident _ _ _ Ea) as Hid2.
  apply (rep_change c w i (n, packet :: q) (n2, q)); try done; [|cbn; by rewrite Hid2].
  unfold with_dev, station_of. cbn. by rewrite Hid2.
Qed.

Lemma Send_packet hdr data random junk n n' out :
  Network.Send hdr data random junk n = Ret (n', out) → length junk = 64%nat → ident n' = ident n ∧
    match out with Some (dest, packet) => dest = to hdr ∧ length packet = 64%nat | None => True end.
Proof.
  unfold Network.Send. intros H Hj. destruct (negb (sendBusy n) && _ && _ && _) eqn:Ha; [|done]. cbn [ASSERT mbind outcome_bind] in H.
  destruct (lost _ random); [by injection H as <- <-|]. destruct (Z.to_nat (length_ hdr) <=? length data)%nat eqn:Hd; [|done].
  cbn [defined_if mbind outcome_bind] in H. injection H as <- <-. split; [done|]. split; [done|].
  apply andb_true_iff in Ha as [[[_ Hl]%andb_true_iff Hm]%andb_true_iff _]. apply Z.ltb_lt in Hl. apply Z.leb_le in Hm.
  apply Nat.leb_le in Hd. change MaxPacketSize with 52 in Hm.
  assert (length (blit junk 0 (header_bytes hdr)) = 64%nat) as H0 by (by rewrite blit_length by (rewrite header_bytes_length; lia)).
  rewrite blit_length; [done|]. rewrite length_take, H0. lia.
Qed.

Lemma deliver_agrees c w dest packet :
  rep c w → is_s32 dest → length packet = 64%nat →
  agree (λ u w', rep (mkNet u (stations c)) w') (SendToSocket packet MaxWireSize (socket_name dest) (unix c)) (deliver dest packet w).
Proof.
  intros Hr Hd Hp. unfold SendToSocket, deliver. rewrite InitSocketName_ok by done. cbn [mbind outcome_bind].
  change (Z.to_nat MaxWireSize) with 64%nat. rewrite take_ge by lia. unfold sendto. rewrite (rep_bound _ _ Hr) by done.
  destruct (answers w !! dest) as [j|]; [|done]. rewrite (rep_queues _ _ Hr).
  destruct (machines w !! j) as [[[n q]|]|] eqn:Em; cbn; try done. rewrite Hp. cbn.
  destruct (rep_packets _ _ Hr _ _ _ Em) as [Hid Hq].
  replace (stations c) with (<[j := Some (station_of j (n, q))]> (stations c)).
  2: { apply list_insert_id. by rewrite (proj2 (rep_stations _ _ Hr)), Em. }
  apply (rep_change c w j (n, q) (n, q ++ [packet])); try done. cbn. apply Forall_app. by split; [|apply Forall_singleton].
Qed.

Lemma Transmit_agrees i hdr data random junk c w :
  rep c w → is_s32 (to hdr) → length junk = 64%nat →
  agree rep (step (Transmit i hdr data random junk) c) (wire_step (Transmit i hdr data random junk) w).
Proof.
  intros Hr Ht Hj. cbn [step wire_step]. unfold on_station.
  destruct (rep_machine c w i Hr) as [(n & q & Em & Es & Eq & Hid & Hq)|[[-> ->]|[-> ->]]]; [|done..]. rewrite Em, Es.
  unfold Send. rewrite sprintf_name_ok by done. cbn [mbind outcome_bind dev station_of fst].
  destruct (Network.Send hdr data random junk n) as [[n' out]| | |] eqn:Esend; cbn [mbind outcome_bind]; try done.
  2: { unfold Network.Send in Esend. destruct (_ && _); [|done]. cbn [ASSERT mbind outcome_bind] in Esend.
       destruct (lost _ random); [done|]. by destruct (_ <=? _)%nat in Esend. }
  destruct (Send_packet _ _ _ _ _ _ _ Esend Hj) as [Hid' Hout].
  pose proof (device_agrees c w i n q n' Hr Em Hid') as Hr'.
  destruct out as [[dest packet]|]; [|exact Hr']. destruct Hout as [-> Hp].
  pose proof (deliver_agrees _ _ (to hdr) packet Hr' Ht Hp) as Hd. cbn [unix stations] in Hd.
  destruct (SendToSocket packet MaxWireSize (socket_name (to hdr)) (unix c)), (deliver _ packet _); done.
Qed.

Lemma step_agrees e c w : rep c w → event_ok e → agree rep (step e c) (wire_step e w).
Proof.
  intros Hr He. destruct e as [addr reliability junk|i|i|i hdr data random junk|i data|i|i].
  - by apply Start_agrees.
  - by apply Poll_agrees.
  - cbn. unfold on_station, on_machine.
    destruct (rep_machine c w i Hr) as [(n & q & Em & Es & Eq & Hid & Hq)|[[-> ->]|[-> ->]]]; [|done..]. rewrite Em, Es.
    by apply (device_agrees c w i n q).
  - by destruct He; apply Transmit_agrees.
  - cbn. unfold on_station, on_machine.
    destruct (rep_machine c w i Hr) as [(n & q & Em & Es & Eq & Hid & Hq)|[[-> ->]|[-> ->]]]; [|done..]. rewrite Em, Es.
    by apply (device_agrees c w i n q).
  - cbn. unfold on_station.
    destruct (rep_machine c w i Hr) as [(n & q & Em & Es & Eq & Hid & Hq)|[[-> ->]|[-> ->]]]; [|done..]. rewrite Em, Es.
    apply (rep_end c w i (n, q)); try done. intros a Ha. cbn. destruct (decide (a = ident n)) as [->|Hne].
    + by rewrite !lookup_delete_eq.
    + rewrite !lookup_delete_ne by (done || by intros E%socket_name_inj). by apply Hr.
  - cbn. unfold on_station.
    destruct (rep_machine c w i Hr) as [(n & q & Em & Es & Eq & Hid & Hq)|[[-> ->]|[-> ->]]]; [|done..]. rewrite Em, Es.
    apply (rep_end c w i (n, q)); try done. apply Hr.
Qed.

Lemma runs_agree es : ∀ c w, rep c w → Forall event_ok es → agree rep (run es c) (wire_run es w).
Proof.
  induction es as [|e es IH]; intros c w Hr Hes; [done|]. apply Forall_cons in Hes as [He Hes]. cbn [run wire_run].
  eapply agree_bind; [by apply step_agrees|]. intros c' w' Hr'. by apply IH.
Qed.

(** C38: Any number of Nachos processes on one UNIX, started, stopped or killed at any time: the sockets of sysdep.cc and their
    names do what the queues of packets of [Network] do, with one table of the machine that answers at an address.  A packet
    is put at the end of the queue of the machine that was started last with its address, the names never run over their
    buffers, a poll never waits, and the ASSERT of SendToSocket fails exactly when nobody answers: the address is not
    taken, its machine has ended, or a machine with the same address has been stopped since. *)
Theorem sockets_refine es c w : rep c w → Forall event_ok es → agree rep (run es c) (wire_run es w).
Proof. apply runs_agree. Qed.

Definition no_processes : Net := mkNet (mkSockets ∅ ∅ 0) [].
Definition no_machines : Wire := mkWire [] ∅.

Lemma no_processes_rep : rep no_processes no_machines.
Proof. by split. Qed.

Definition to_one : event := Transmit 0 (mkPacketHeader 1 0 3) [7; 8; 9] 0 (replicate 64 0).

(** Two machines are started with the address 1.  The second gets the packet; when the first is stopped it takes the name
    with it, and nothing can be sent to the second any more. *)
Definition same_address : list event :=
  [Start 0 1 []; Start 1 1 (replicate 52 0); Start 1 1 (replicate 52 0); to_one; Poll 1; Poll 2].

Example second_gets_it :
  match run same_address no_processes with
  | Ret c => (λ st, length_ (inHdr (dev st))) <$> omap id (stations c) = [0; 0; 3]
  | _ => False
  end.
Proof. vm_compute. reflexivity. Qed.

Example nobody_gets_it : run (same_address ++ [Sent 0; Stop 1; to_one]) no_processes = AssertFails.
Proof. vm_compute. reflexivity. Qed.

(** A machine that is killed leaves its name; it can be started again. *)
Example started_again :
  match run [Start 0 1 []; Start 1 1 []; Crash 1; Start 1 1 (replicate 52 0); to_one; Poll 2] no_processes with
  | Ret c => (λ st, length_ (inHdr (dev st))) <$> omap id (stations c) = [0; 3]
  | _ => False
  end.
Proof. vm_compute. reflexivity. Qed.

Lemma sockets_refine_witness :
  ∃ c w, run same_address no_processes = Ret c ∧ wire_run same_address no_machines = Ret w ∧ rep c w ∧
    answers w !! 1 = Some 2%nat.
Proof.
  assert (Forall event_ok same_address) as He.
  { unfold same_address, to_one. rewrite !Forall_cons, Forall_nil. unfold event_ok, is_s32. cbn [to length].
    split_and!; try done; lia. }
  pose proof (sockets_refine same_address no_processes no_machines no_processes_rep He) as Hr.
  destruct (run same_address no_processes) as [c| | |] eqn:Ec; [|vm_compute in Ec; discriminate Ec..].
  destruct (wire_run same_address no_machines) as [w| | |] eqn:Ew; [|contradiction Hr..].
  exists c, w. split; [reflexivity|]. split; [reflexivity|]. split; [exact Hr|].
  vm_compute in Ew. injection Ew as <-. reflexivity.
Defined.

End Sockets.
