(* ===== verification/Post.v ===== *)
(** * network/post.h, post.cc, nettest.cc: the post office

    Machines that send mail to each other's boxes.  The kernel's objects appear by their
    specifications: a lock is the thread that holds it, a semaphore its value ([Synch]), a
    [SynchList] the sequence of its items ([SynchList]); a step is what a thread does
    between two points at which it can lose the processor.  Any number of
    threads run on a machine; their own code is arbitrary.  Machine [a] has
    network address [a].  The sockets deliver in order and lose nothing; packets are lost by the
    emulation in [Network::Send]. *)

From S2P Require Import Prelude CInt Network.
From Stdlib Require Import QArith.
Import Network.Network.

Open Scope Z_scope.

Module Post.

Record MailHeader := mkMailHeader { mto : Z; mfrom : Z; mlength : Z }.
Definition sizeof_MailHeader : Z := 12.
Definition MaxMailSize : Z := MaxPacketSize - sizeof_MailHeader.

Definition mail_bytes (h : MailHeader) : list Z := words_bytes [mto h; mfrom h; mlength h].
Definition bytes_mail (bs : list Z) : MailHeader :=
  let h := bytes_header bs in mkMailHeader (to h) (from h) (length_ h).

(** The bytes of [data] that are set. *)
Record Mail := mkMail { pktHdr : PacketHeader; mailHdr : MailHeader; data : list Z }.

Definition Mail_new (pktH : PacketHeader) (mailH : MailHeader) (msgData : list Z) : outcome Mail :=
  assert! mlength mailH <=? MaxMailSize;;
  _ ← defined_if (Z.to_nat (mlength mailH) <=? length msgData)%nat;
  Ret (mkMail pktH mailH (take (Z.to_nat (mlength mailH)) msgData)).

(** A box is the items of its [SynchList]. *)
Definition MailBox_new : list Mail := [].

Definition Put (pktH : PacketHeader) (mailH : MailHeader) (msgData : list Z) (messages : list Mail) :
    outcome (list Mail) :=
  mail ← Mail_new pktH mailH msgData;
  Ret (messages ++ [mail]).

(** [None]: the caller waits.  The data go to the start of the caller's buffer. *)
Definition Get (buffer : list Z) (messages : list Mail) : option (outcome (Mail * list Z * list Mail)) :=
  match messages with
  | [] => None
  | mail :: messages =>
      Some (_ ← defined_if (length (data mail) <=? length buffer)%nat;
            Ret (mail, blit buffer 0 (data mail), messages))
  end.

Record PostOffice := mkPostOffice {
  network : Network; netAddr : Z; boxes : list (list Mail); numBoxes : Z;
  messageAvailable : Z; messageSent : Z; sendLock : option nat }.

Definition PostOffice_new (addr : Z) (reliability : Q) (nBoxes : nat) (junk : list Z) : PostOffice :=
  mkPostOffice (Network_new addr reliability junk) addr (replicate nBoxes MailBox_new) (Z.of_nat nBoxes)
    0 0 None.

Definition with_network (n : Network) (po : PostOffice) : PostOffice :=
  mkPostOffice n (netAddr po) (boxes po) (numBoxes po) (messageAvailable po) (messageSent po) (sendLock po).
Definition with_boxes (bs : list (list Mail)) (po : PostOffice) : PostOffice :=
  mkPostOffice (network po) (netAddr po) bs (numBoxes po) (messageAvailable po) (messageSent po) (sendLock po).
Definition with_available (v : Z) (po : PostOffice) : PostOffice :=
  mkPostOffice (network po) (netAddr po) (boxes po) (numBoxes po) v (messageSent po) (sendLock po).
Definition with_sent (v : Z) (po : PostOffice) : PostOffice :=
  mkPostOffice (network po) (netAddr po) (boxes po) (numBoxes po) (messageAvailable po) v (sendLock po).
Definition with_lock (l : option nat) (po : PostOffice) : PostOffice :=
  mkPostOffice (network po) (netAddr po) (boxes po) (numBoxes po) (messageAvailable po) (messageSent po) l.

(** The handlers the network calls. *)
Definition IncomingPacket (po : PostOffice) : PostOffice := with_available (messageAvailable po + 1) po.
Definition PacketSent (po : PostOffice) : PostOffice := with_sent (messageSent po + 1) po.

(** [PostOffice::Send] up to the lock: the header for the network and the buffer. *)
Definition Send (hdr : PacketHeader) (mh : MailHeader) (msg : list Z) (junk : list Z) (po : PostOffice) :
    outcome (PacketHeader * list Z) :=
  assert! mlength mh <=? MaxMailSize;;
  assert! (0 <=? mto mh) && (mto mh <? numBoxes po);;
  _ ← defined_if (Z.to_nat (mlength mh) <=? length msg)%nat;
  Ret (mkPacketHeader (to hdr) (netAddr po) (u32 (mlength mh + sizeof_MailHeader)),
       blit (blit junk 0 (mail_bytes mh)) (Z.to_nat sizeof_MailHeader) (take (Z.to_nat (mlength mh)) msg)).

(** [PostalDelivery]: after the [P], and then with the packet in its buffer. *)
Definition PostalDelivery_receive (buffer : list Z) (po : PostOffice) : PostOffice * PacketHeader * list Z :=
  let '(n, hdr, buffer) := Receive buffer (network po) in
  (with_network n po, hdr, buffer).

Definition PostalDelivery_put (hdr : PacketHeader) (buffer : list Z) (po : PostOffice) : outcome PostOffice :=
  let mh := bytes_mail buffer in
  assert! (0 <=? mto mh) && (mto mh <? numBoxes po);;
  assert! mlength mh <=? MaxMailSize;;
  box ← rd (boxes po) (mto mh);
  box ← Put hdr mh (drop (Z.to_nat sizeof_MailHeader) buffer) box;
  bs ← wr (boxes po) (mto mh) box;
  Ret (with_boxes bs po).

Definition PostOffice_Receive (box : Z) (buffer : list Z) (po : PostOffice) :
    option (outcome (Mail * list Z * PostOffice)) :=
  if negb ((0 <=? box) && (box <? numBoxes po)) then Some AssertFails
  else match boxes po !! Z.to_nat box with
    | None => Some Undefined
    | Some messages =>
        match Get buffer messages with
        | None => None
        | Some r => Some (
            '(mail, buffer, messages) ← r;
            assert! mlength (mailHdr mail) <=? MaxMailSize;;
            Ret (mail, buffer, with_boxes (<[Z.to_nat box := messages]> (boxes po)) po))
        end
    end.

(** *** Threads and machines *)
Section world.
(** The code of a thread, up to its next call of the post office. *)
Context {C : Type}.
Inductive action :=
  | DoSend (hdr : PacketHeader) (mh : MailHeader) (msg : list Z) (next : C)
  | DoReceive (box : Z) (buffer : list Z) (next : PacketHeader → MailHeader → list Z → C).
Variable client : C → option action.

(** A thread in its own code, or in [Send]: before [Acquire], before [network->Send], before the
    [P], before [Release].  The mail is what it was asked to send. *)
Inductive thread :=
  | Client (c : C)
  | ToAcquire (hdr : PacketHeader) (buffer : list Z) (mail : Mail) (c : C)
  | ToSend (hdr : PacketHeader) (buffer : list Z) (mail : Mail) (c : C)
  | ToAwait (c : C)
  | ToRelease (c : C).

(** The postal worker: before the [P], before [network->Receive], before [Put]. *)
Inductive worker_at := ToP | ToReceive | ToPut (hdr : PacketHeader).

(** [sock]: the packets that wait in the socket.  Recorded, but not read by the code: the mail put on
    the wire for the machine, what went into its boxes, and what [Receive] handed out. *)
Record Machine := mkMachine {
  office : PostOffice; threads : list thread; worker : worker_at; buffer : list Z; sock : list (list Z);
  wire : list Mail; delivered : list Mail; received : list (Z * Mail) }.

Definition with_office (po : PostOffice) (M : Machine) : Machine :=
  mkMachine po (threads M) (worker M) (buffer M) (sock M) (wire M) (delivered M) (received M).
Definition with_thread (t : nat) (th : thread) (M : Machine) : Machine :=
  mkMachine (office M) (<[t := th]> (threads M)) (worker M) (buffer M) (sock M) (wire M) (delivered M)
    (received M).
Definition with_worker (w : worker_at) (b : list Z) (M : Machine) : Machine :=
  mkMachine (office M) (threads M) w b (sock M) (wire M) (delivered M) (received M).
Definition with_sock (s : list (list Z)) (M : Machine) : Machine :=
  mkMachine (office M) (threads M) (worker M) (buffer M) s (wire M) (delivered M) (received M).
Definition log_wire (mail : Mail) (M : Machine) : Machine :=
  mkMachine (office M) (threads M) (worker M) (buffer M) (sock M) (wire M ++ [mail]) (delivered M)
    (received M).
Definition log_delivered (mail : Mail) (M : Machine) : Machine :=
  mkMachine (office M) (threads M) (worker M) (buffer M) (sock M) (wire M) (delivered M ++ [mail])
    (received M).
Definition log_received (box : Z) (mail : Mail) (M : Machine) : Machine :=
  mkMachine (office M) (threads M) (worker M) (buffer M) (sock M) (wire M) (delivered M)
    (received M ++ [(box, mail)]).

Definition machine (addr : nat) (reliability : Q) (nBoxes : nat) (cs : list C) : Machine :=
  mkMachine (PostOffice_new (Z.of_nat addr) reliability nBoxes (replicate 52 0)) (Client <$> cs) ToP
    (replicate 52 0) [] [] [] [].

(** What a thread does next, with the packet it puts on the wire; [None]: it waits or is done. *)
Definition put_on_wire : Type := (Z * list Z * Mail)%type.

Definition client_step (t : nat) (a : action) (junk : list Z) (M : Machine) :
    option (outcome (Machine * option put_on_wire)) :=
  let po := office M in
  match a with
  | DoSend hdr mh msg c => Some (
      '(hdr', buf) ← Send hdr mh msg (take 52 junk) po;
      let mail := mkMail hdr' mh (take (Z.to_nat (mlength mh)) msg) in
      Ret (with_thread t (ToAcquire hdr' buf mail c) M, None))
  | DoReceive box buf next =>
      match PostOffice_Receive box buf po with
      | None => None
      | Some r => Some (
          '(mail, buf, po) ← r;
          let th := Client (next (pktHdr mail) (mailHdr mail) buf) in
          Ret (log_received box mail (with_office po (with_thread t th M)), None))
      end
  end.

Definition send_step (t : nat) (hdr : PacketHeader) (buf : list Z) (mail : Mail) (c : C) (random : Z)
    (junk : list Z) (M : Machine) : outcome (Machine * option put_on_wire) :=
  '(n, out) ← Network.Send hdr buf random junk (network (office M));
  Ret (with_office (with_network n (office M)) (with_thread t (ToAwait c) M),
       match out with Some (dest, packet) => Some (dest, packet, mail) | None => None end).

Definition thread_step (t : nat) (random : Z) (junk : list Z) (M : Machine) :
    option (outcome (Machine * option put_on_wire)) :=
  let po := office M in
  match threads M !! t with
  | None => None
  | Some (Client c) => match client c with None => None | Some a => client_step t a junk M end
  | Some (ToAcquire hdr buf mail c) =>
      match sendLock po with
      | Some _ => None
      | None => Some (Ret (with_office (with_lock (Some t) po) (with_thread t (ToSend hdr buf mail c) M), None))
      end
  | Some (ToSend hdr buf mail c) => Some (send_step t hdr buf mail c random junk M)
  | Some (ToAwait c) =>
      if messageSent po =? 0 then None
      else Some (Ret (with_office (with_sent (messageSent po - 1) po) (with_thread t (ToRelease c) M), None))
  | Some (ToRelease c) => Some (
      assert! bool_decide (sendLock po = Some t);;
      Ret (with_office (with_lock None po) (with_thread t (Client c) M), None))
  end.

Definition worker_step (M : Machine) : option (outcome Machine) :=
  let po := office M in
  match worker M with
  | ToP =>
      if messageAvailable po =? 0 then None
      else Some (Ret (with_office (with_available (messageAvailable po - 1) po)
                        (with_worker ToReceive (buffer M) M)))
  | ToReceive =>
      let '(po, hdr, buf) := PostalDelivery_receive (buffer M) po in
      Some (Ret (with_office po (with_worker (ToPut hdr) buf M)))
  | ToPut hdr => Some (
      po ← PostalDelivery_put hdr (buffer M) po;
      let mh := bytes_mail (buffer M) in
      Ret (log_delivered (mkMail hdr mh (take (Z.to_nat (mlength mh)) (drop 12 (buffer M))))
             (with_office po (with_worker ToP (buffer M) M))))
  end.

(** The interrupts that [interrupt->Schedule] was called for. *)
Definition poll_step (M : Machine) : option (outcome Machine) :=
  let po := office M in
  if bool_decide (ReadPoll ∈ scheduled (network po)) then Some (
    '(n, s, arrived) ← CheckPktAvail (sock M) (take_interrupt ReadPoll (network po));
    let po := with_network n po in
    Ret (with_sock s (with_office (if arrived : bool then IncomingPacket po else po) M)))
  else None.

Definition sent_step (M : Machine) : option (outcome Machine) :=
  let po := office M in
  if bool_decide (SendDoneInt ∈ scheduled (network po)) then
    Some (Ret (with_office (PacketSent (with_network
      (SendDone (take_interrupt SendDoneInt (network po))) po)) M))
  else None.

Inductive event :=
  | Thread (a t : nat) (random : Z) (junk : list Z)
  | Worker (a : nat) | Poll (a : nat) | Sent (a : nat).

(** A thread's packet goes to the socket of the machine it is for; there must be one. *)
Definition deliver (out : option put_on_wire) (w : list Machine) : outcome (list Machine) :=
  match out with
  | None => Ret w
  | Some (dest, packet, mail) =>
      match (if 0 <=? dest then w !! Z.to_nat dest else None) with
      | None => AssertFails
      | Some D => Ret (<[Z.to_nat dest := log_wire mail (with_sock (sock D ++ [packet]) D)]> w)
      end
  end.

Definition on_machine (a : nat) (w : list Machine) (f : Machine → option (outcome Machine)) :
    option (outcome (list Machine)) :=
  match w !! a with
  | None => None
  | Some M => match f M with
      | None => None
      | Some r => Some (M ← r; Ret (<[a := M]> w))
      end
  end.

Definition world_step (e : event) (w : list Machine) : option (outcome (list Machine)) :=
  match e with
  | Thread a t random junk =>
      match w !! a with
      | None => None
      | Some M => match thread_step t random junk M with
          | None => None
          | Some r => Some ('(M, out) ← r; deliver out (<[a := M]> w))
          end
      end
  | Worker a => on_machine a w worker_step
  | Poll a => on_machine a w poll_step
  | Sent a => on_machine a w sent_step
  end.


(** *** What the code keeps to

    [n] machines, with [nBoxes] boxes each. *)
Context (n nBoxes : nat).

(** A mail as [Send] makes it: the numbers fit their types, the machine and the box exist, the data is
    what the header says. *)
Record mail_ok (m : Mail) : Prop := {
  ml_to : 0 ≤ to (pktHdr m) < Z.of_nat n;
  ml_typed : header_ok (pktHdr m);
  ml_from : is_s32 (mfrom (mailHdr m));
  ml_box : 0 ≤ mto (mailHdr m) < Z.of_nat nBoxes;
  ml_box_typed : is_s32 (mto (mailHdr m));
  ml_data : Z.of_nat (length (data m)) = mlength (mailHdr m);
  ml_max : mlength (mailHdr m) ≤ MaxMailSize;
  ml_length : length_ (pktHdr m) = mlength (mailHdr m) + sizeof_MailHeader }.

Definition payload (m : Mail) : list Z := mail_bytes (mailHdr m) ++ data m.
Definition starts_with (bs buf : list Z) : Prop := ∃ rest, buf = bs ++ rest.

(** What a thread may ask for. *)
Definition good_action (a : action) : Prop :=
  match a with
  | DoSend hdr mh msg _ =>
      0 ≤ to hdr < Z.of_nat n ∧ is_s32 (mfrom mh) ∧ is_s32 (mto mh) ∧ 0 ≤ mto mh < Z.of_nat nBoxes ∧
      0 ≤ mlength mh ≤ MaxMailSize ∧ (Z.to_nat (mlength mh) ≤ length msg)%nat
  | DoReceive box buf _ => 0 ≤ box < Z.of_nat nBoxes ∧ (Z.to_nat MaxMailSize ≤ length buf)%nat
  end.

Definition good_event (w : list Machine) (e : event) : Prop :=
  match e with
  | Thread a t _ junk =>
      length junk = Z.to_nat MaxWireSize ∧
      match w !! a ≫= λ M, threads M !! t with
      | Some (Client c) => match client c with Some act => good_action act | None => True end
      | _ => True
      end
  | _ => True
  end.

#[local] Instance good_action_dec a : Decision (good_action a).
Proof. destruct a; cbn; unfold is_s32; apply _. Defined.
#[local] Instance good_event_dec w e : Decision (good_event w e).
Proof.
  destruct e as [a t random junk| | |]; try (by left). cbn.
  destruct (w !! a ≫= λ M, threads M !! t) as [[]|]; try apply _. destruct (client c); apply _.
Defined.

(** The sending side. *)
Definition holds_lock (th : thread) : bool :=
  match th with ToSend _ _ _ _ | ToAwait _ | ToRelease _ => true | _ => false end.

Definition thread_ok (a : nat) (th : thread) : Prop :=
  match th with
  | ToAcquire hdr buf m _ | ToSend hdr buf m _ =>
      mail_ok m ∧ hdr = pktHdr m ∧ from hdr = Z.of_nat a ∧ starts_with (payload m) buf
  | _ => True
  end.

Definition awaiting (ths : list thread) (l : option nat) : Z :=
  match l ≫= λ t, ths !! t with Some (ToAwait _) => 1 | _ => 0 end.

Definition sends_pending (nw : Network) : Z :=
  Z.of_nat (length (filter (λ i, i = SendDoneInt) (scheduled nw))).

Record sending_ok (a : nat) (po : PostOffice) (ths : list thread) : Prop := {
  sd_addr : netAddr po = Z.of_nat a;
  sd_busy : sendBusy (network po) = false;
  sd_threads t th : ths !! t = Some th → thread_ok a th ∧ (holds_lock th = true ↔ sendLock po = Some t);
  sd_holder t : sendLock po = Some t → is_Some (ths !! t);
  sd_count : 0 ≤ messageSent po ∧
    sends_pending (network po) + messageSent po = awaiting ths (sendLock po) }.

(** The receiving side: between the wire and the boxes. *)
Definition arrived (nw : Network) (ms : list Mail) : Prop :=
  match ms with
  | [] => length_ (inHdr nw) = 0
  | [m] => inHdr nw = pktHdr m ∧ starts_with (payload m) (inbox nw)
  | _ => False
  end.

Definition taken (w : worker_at) (buf : list Z) (ms : list Mail) : Prop :=
  match w, ms with
  | ToPut hdr, [m] => hdr = pktHdr m ∧ starts_with (payload m) buf
  | ToPut _, _ => False
  | _, _ => ms = []
  end.

Definition on_wire (m : Mail) (packet : list Z) : Prop :=
  starts_with (header_bytes (pktHdr m) ++ payload m) packet.

(** The mail on the wire for [M], from there to the boxes. *)
Record receiving_ok (a : nat) (M : Machine) : Prop := {
  rc_ident : ident (network (office M)) = Z.of_nat a;
  rc_sizes : length (inbox (network (office M))) = Z.to_nat MaxPacketSize ∧
             length (buffer M) = Z.to_nat MaxPacketSize;
  rc_boxes : numBoxes (office M) = Z.of_nat nBoxes ∧ length (boxes (office M)) = nBoxes;
  rc_wire : ∃ put inb soc,
    wire M = delivered M ++ put ++ inb ++ soc ∧
    taken (worker M) (buffer M) put ∧ arrived (network (office M)) inb ∧ Forall2 on_wire soc (sock M) ∧
    messageAvailable (office M) + (match worker M with ToReceive => 1 | _ => 0 end) = Z.of_nat (length inb) ∧
    0 ≤ messageAvailable (office M);
  rc_mail : Forall (λ m, mail_ok m ∧ to (pktHdr m) = Z.of_nat a) (wire M);
  rc_filed b box : boxes (office M) !! b = Some box →
    filter (λ m, mto (mailHdr m) = Z.of_nat b) (delivered M) =
    (filter (λ r, r.1 = Z.of_nat b) (received M)).*2 ++ box }.

Definition machine_ok (a : nat) (M : Machine) : Prop :=
  sending_ok a (office M) (threads M) ∧ receiving_ok a M.

Definition world_ok (w : list Machine) : Prop :=
  length w = n ∧ ∀ a M, w !! a = Some M → machine_ok a M.


(** *** Mail in memory and on the wire *)
Lemma payload_length m :
  mail_ok m → Z.of_nat (length (payload m)) = length_ (pktHdr m) ∧ 12 ≤ length_ (pktHdr m) ≤ MaxPacketSize.
Proof.
  intros []. unfold payload. rewrite length_app. change (length (mail_bytes (mailHdr m))) with 12%nat.
  change MaxMailSize with 40 in *. change MaxPacketSize with 52. change sizeof_MailHeader with 12 in *. lia.
Qed.

Lemma bytes_mail_bytes h rest :
  is_s32 (mto h) → is_s32 (mfrom h) → is_u32 (mlength h) → bytes_mail (mail_bytes h ++ rest) = h.
Proof.
  intros. unfold bytes_mail, mail_bytes.
  pose proof (bytes_header_bytes (mkPacketHeader (mto h) (mfrom h) (mlength h)) rest) as E.
  unfold header_bytes in E. cbn [to from length_] in E. rewrite E by done. by destruct h.
Qed.

Lemma read_payload m buf :
  mail_ok m → starts_with (payload m) buf →
  bytes_mail buf = mailHdr m ∧ take (Z.to_nat (mlength (mailHdr m))) (drop 12 buf) = data m ∧
  (Z.to_nat (mlength (mailHdr m)) ≤ length (drop 12 buf))%nat.
Proof.
  intros [] [rest ->]. unfold payload. rewrite <- app_assoc. split.
  - apply bytes_mail_bytes; [done..|]. unfold is_u32. change MaxMailSize with 40 in *. lia.
  - rewrite drop_app_length' by done. split; [apply take_app_length'; lia|]. rewrite length_app. lia.
Qed.

Lemma starts_with_blit bs buf :
  (length bs ≤ length buf)%nat → starts_with bs (blit buf 0 bs) ∧ length (blit buf 0 bs) = length buf.
Proof. intros H. split; [by exists (drop (length bs) buf)|]. apply blit_length. lia. Qed.

Lemma starts_with_take bs buf k : length bs = k → starts_with bs buf → take k buf = bs.
Proof. intros <- [rest ->]. by apply take_app_length. Qed.

(** What [Send] prepares. *)
Lemma Send_good a hdr mh msg junk po ths c :
  sending_ok a po ths → numBoxes po = Z.of_nat nBoxes → (a < n)%nat → Z.of_nat n ≤ 2 ^ 31 →
  length junk = 52%nat → good_action (DoSend hdr mh msg c) →
  ∃ hdr' buf, Send hdr mh msg junk po = Ret (hdr', buf) ∧
    let m := mkMail hdr' mh (take (Z.to_nat (mlength mh)) msg) in
    mail_ok m ∧ from hdr' = Z.of_nat a ∧ to hdr' = to hdr ∧ starts_with (payload m) buf.
Proof.
  intros Hs Hb Ha Hn Hj (Hto & Hf & Ht & Hbox & Hlen & Hmsg). change MaxMailSize with 40 in *.
  unfold Send. rewrite (ASSERT_true (mlength mh <=? MaxMailSize)) by (apply Z.leb_le; change MaxMailSize with 40; lia).
  cbn [mbind outcome_bind]. rewrite ASSERT_true by (rewrite Hb; exact (in_range_true _ _ Hbox)).
  cbn [mbind outcome_bind]. rewrite (proj2 (Nat.leb_le _ _) Hmsg). cbn [defined_if mbind outcome_bind].
  rewrite (sd_addr _ _ _ Hs). do 2 eexists. split; [reflexivity|]. cbn zeta.
  change sizeof_MailHeader with 12. rewrite u32_small by (unfold is_u32; lia).
  assert (length (take (Z.to_nat (mlength mh)) msg) = Z.to_nat (mlength mh)) as Hd
    by (rewrite length_take; lia).
  split_and!; [|done|done|].
  - split; cbn [pktHdr mailHdr data to from length_]; try done; try lia.
    + unfold header_ok, is_s32, is_u32. cbn [to from length_]. lia.
    + change MaxMailSize with 40. lia.
  - eexists. unfold payload. cbn [mailHdr data]. change (Z.to_nat 12) with (length (mail_bytes mh)).
    rewrite blit_start; [by rewrite <- app_assoc|]. change (length (mail_bytes mh)) with 12%nat. lia.
Qed.

(** What [Network::Send] puts on the wire. *)
Lemma Network_Send_good nw buf m random junk :
  sendBusy nw = false → ident nw = from (pktHdr m) → mail_ok m → starts_with (payload m) buf →
  length junk = 64%nat →
  ∃ out, Network.Send (pktHdr m) buf random junk nw = Ret (Network.schedule SendDoneInt nw, out) ∧
    match out with
    | None => lost nw random = true
    | Some (dest, packet) => lost nw random = false ∧ dest = to (pktHdr m) ∧ on_wire m packet
    end.
Proof.
  intros Hb Hi Hm Hbuf Hj. destruct (payload_length m Hm) as [Hl1 Hl2]. change MaxPacketSize with 52 in Hl2.
  unfold Network.Send. rewrite ASSERT_true.
  2: { rewrite Hb, Hi, Z.eqb_refl. change MaxPacketSize with 52. cbn [negb andb].
       by rewrite ltb_true, (proj2 (Z.leb_le _ _)) by lia. }
  cbn [mbind outcome_bind]. change (lost (Network.schedule SendDoneInt nw) random) with (lost nw random).
  destruct (lost nw random) eqn:El; [by eexists|].
  assert (length (payload m) = Z.to_nat (length_ (pktHdr m))) as Hp by lia.
  rewrite (proj2 (Nat.leb_le _ _)). 2: { destruct Hbuf as [rest ->]. rewrite length_app. lia. }
  cbn [defined_if mbind outcome_bind]. eexists. split; [reflexivity|]. split_and!; [done..|].
  rewrite (starts_with_take (payload m) buf) by done.
  eexists. rewrite <- (header_bytes_length (pktHdr m)).
  rewrite blit_start by (rewrite header_bytes_length, Hp, Hj; lia). by rewrite <- app_assoc.
Qed.

(** *** The sending side *)
Lemma awaiting_holder ths t th th' :
  ths !! t = Some th →
  awaiting (<[t := th']> ths) (Some t) = match th' with ToAwait _ => 1 | _ => 0 end.
Proof. intros E. unfold awaiting. cbn. by rewrite list_lookup_insert_eq by (by eapply lookup_lt_Some). Qed.

Lemma awaiting_other ths t th' l : l ≠ Some t → awaiting (<[t := th']> ths) l = awaiting ths l.
Proof.
  intros Hl. destruct l as [t'|]; [|done]. unfold awaiting. cbn.
  rewrite list_lookup_insert_ne; [done|]. by intros ->.
Qed.

Lemma sends_pending_schedule i nw :
  sends_pending (Network.schedule i nw) = sends_pending nw + match i with SendDoneInt => 1 | _ => 0 end.
Proof.
  unfold sends_pending. cbn. rewrite filter_app, length_app, filter_cons, filter_nil.
  destruct i; case_decide; try done; cbn [length]; lia.
Qed.

Lemma filter_remove_one i l :
  Z.of_nat (length (filter (λ j, j = SendDoneInt) (remove_one i l))) =
  Z.of_nat (length (filter (λ j, j = SendDoneInt) l)) -
    (if decide (i = SendDoneInt ∧ i ∈ l) then 1 else 0).
Proof.
  induction l as [|j l IH]; [by rewrite decide_False by (intros [_ []%elem_of_nil])|].
  cbn [remove_one]. destruct (decide (j = i)) as [->|Hne].
  - rewrite filter_cons. destruct i.
    + rewrite decide_False by done. rewrite decide_False by (by intros []). lia.
    + rewrite decide_True by done.
      rewrite decide_True by (split; [done|apply list_elem_of_here]). cbn [length]. lia.
  - rewrite !filter_cons. destruct (decide (i = SendDoneInt ∧ i ∈ l)) as [[H1 H2]|Hn].
    + cbn iota in IH.
      rewrite (decide_True (P := i = SendDoneInt ∧ i ∈ j :: l)) by (split; [done|by apply list_elem_of_further]).
      destruct (decide (j = SendDoneInt)); cbn; lia.
    + cbn iota in IH.
      rewrite (decide_False (P := i = SendDoneInt ∧ i ∈ j :: l)).
      2: { intros [H1 [<-|H2]%elem_of_cons]; [done|]. by apply Hn. }
      destruct (decide (j = SendDoneInt)); cbn; lia.
Qed.

(** Thread [t] moves on. *)
Lemma sending_set a po po' ths t th th' :
  sending_ok a po ths → ths !! t = Some th → thread_ok a th' →
  netAddr po' = netAddr po → sendBusy (network po') = false →
  (sendLock po' = sendLock po ∧ holds_lock th' = holds_lock th) ∨
  (sendLock po = None ∧ sendLock po' = Some t ∧ holds_lock th' = true) ∨
  (sendLock po = Some t ∧ sendLock po' = None ∧ holds_lock th' = false) →
  0 ≤ messageSent po' →
  sends_pending (network po') + messageSent po' = awaiting (<[t := th']> ths) (sendLock po') →
  sending_ok a po' (<[t := th']> ths).
Proof.
  intros Hs Et Hth Ha Hb Hl Hv Hc. pose proof (proj2 (sd_threads _ _ _ Hs t th Et)) as Hold.
  split; [by rewrite Ha; apply Hs|done|..|by split].
  - intros t' th'' E. destruct (decide (t' = t)) as [->|Hne].
    + rewrite list_lookup_insert_eq in E by (by eapply lookup_lt_Some). injection E as <-. split; [done|].
      destruct Hl as [[-> ->]|[(_ & -> & ->)|(_ & -> & ->)]]; [done|done|].
      split; [done|]. intros [=].
    + rewrite list_lookup_insert_ne in E by done. destruct (sd_threads _ _ _ Hs t' th'' E) as [H1 H2].
      split; [done|]. rewrite H2. destruct Hl as [[-> _]|[(-> & -> & _)|(-> & -> & _)]]; [done|..].
      all: split; intros [=]; congruence.
  - intros t' E. assert (is_Some (ths !! t')) as [x Ex].
    { destruct Hl as [[H1 _]|[(_ & H1 & _)|(_ & H1 & _)]]; rewrite H1 in E.
      - by apply Hs in E.
      - injection E as <-. by eexists.
      - done. }
    apply lookup_lt_is_Some. rewrite length_insert. by eapply lookup_lt_Some.
Qed.

Lemma sent_sending a po ths :
  sending_ok a po ths → SendDoneInt ∈ scheduled (network po) →
  sending_ok a (PacketSent (with_network (SendDone (take_interrupt SendDoneInt (network po))) po)) ths.
Proof.
  intros Hs Hin. destruct (sd_count _ _ _ Hs) as [Hv Hc]. split; try apply Hs; [done|]. split.
  - cbn. lia.
  - cbn. rewrite <- Hc. unfold sends_pending. cbn. rewrite filter_remove_one, decide_True by done. lia.
Qed.

(** *** The receiving side *)
Lemma arrived_length nw ms :
  Forall mail_ok ms → arrived nw ms →
  (length_ (inHdr nw) = 0 ∧ ms = []) ∨
  (∃ m, ms = [m] ∧ mail_ok m ∧ inHdr nw = pktHdr m ∧ starts_with (payload m) (inbox nw) ∧
     0 < length_ (inHdr nw)).
Proof.
  intros Hm Ha. destruct ms as [|m [|m' ms]]; [by left| |done]. right. exists m.
  apply Forall_cons in Hm as [Hm _]. destruct Ha as [Hh Hs]. split_and!; try done.
  rewrite Hh. apply payload_length in Hm. lia.
Qed.

Lemma rc_mail_parts a M ms1 ms2 ms3 ms4 :
  receiving_ok a M → wire M = ms1 ++ ms2 ++ ms3 ++ ms4 →
  Forall mail_ok ms1 ∧ Forall mail_ok ms2 ∧ Forall mail_ok ms3 ∧
  Forall (λ m, mail_ok m ∧ to (pktHdr m) = Z.of_nat a) ms4.
Proof.
  intros Hr E. pose proof (rc_mail _ _ Hr) as Hm. rewrite E, !Forall_app in Hm.
  destruct Hm as (H1 & H2 & H3 & H4). split_and!; [..|done];
    (eapply Forall_impl; [eassumption|]; intros ? []; done).
Qed.

Lemma poll_step_good a M r :
  machine_ok a M → poll_step M = Some r → ∃ M', r = Ret M' ∧ machine_ok a M'.
Proof.
  intros [Hs Hr] E. unfold poll_step in E. case_bool_decide as Hin; [|done]. injection E as <-.
  destruct (rc_wire _ _ Hr) as (put & inb & soc & Hw & Htk & Harr & Hsoc & Hcnt & Hnn).
  destruct (rc_mail_parts _ _ _ _ _ _ Hr Hw) as (_ & _ & Hmi & Hms).
  assert (∀ nw' po', po' = with_network nw' (office M) ∨ po' = IncomingPacket (with_network nw' (office M)) →
    sendBusy nw' = sendBusy (network (office M)) → sends_pending nw' = sends_pending (network (office M)) →
    sending_ok a po' (threads M)) as Hsend.
  { intros nw' po' Hpo Hb Hp. destruct (sd_count _ _ _ Hs) as [Hv Hc].
    destruct Hpo as [-> | ->]; (split; try apply Hs; cbn; [by rewrite Hb; apply Hs|split; [done|]; by rewrite Hp]). }
  assert (∀ j, sends_pending (Network.schedule ReadPoll (take_interrupt ReadPoll j)) = sends_pending j) as Hpend.
  { intros j. rewrite sends_pending_schedule. unfold sends_pending. cbn.
    rewrite filter_remove_one, decide_False by (by intros []). lia. }
  unfold CheckPktAvail, accept. cbn [inHdr Network.schedule take_interrupt ident inbox].
  destruct (arrived_length _ _ Hmi Harr) as [[Hz ->]|(m & -> & Hm & Hh & Hst & Hpos)].
  - rewrite Hz. cbn [Z.eqb negb]. destruct (sock M) as [|packet socks] eqn:Esock.
    + eexists. split; [reflexivity|]. split; [by eapply Hsend; [by left|done|exact (Hpend (network (office M)))]|].
      apply Forall2_nil_inv_r in Hsoc as ->.
      destruct Hr. split; try done. exists put, [], []. split_and!; try done.
    + apply Forall2_cons_inv_r in Hsoc as (m & soc' & [rest Hp] & Hsoc & ->).
      apply Forall_cons in Hms as [[Hm Hto] Hms]. destruct (payload_length m Hm) as [Hl1 Hl2].
      rewrite <- app_assoc in Hp.
      destruct (packet_read (pktHdr m) (payload m) rest) as [Eh Et]; [apply Hm|lia|]. rewrite <- Hp in Eh, Et.
      rewrite Eh, Et. rewrite ASSERT_true.
      2: { rewrite Hto, (rc_ident _ _ Hr), Z.eqb_refl. cbn [andb]. apply Z.leb_le. lia. }
      cbn [mbind outcome_bind]. eexists. split; [reflexivity|].
      split; [by eapply Hsend; [by right|done|exact (Hpend (network (office M)))]|].
      destruct Hr as [H1 [H2 H2'] H3 H4 H5 H6]. change (Z.to_nat MaxPacketSize) with 52%nat in *.
      change MaxPacketSize with 52 in Hl2.
      destruct (starts_with_blit (payload m) (inbox (network (office M)))) as [Hsw Hbl]; [lia|].
      split; try done; [split; [exact (eq_trans Hbl H2)|done]|].
      exists put, [m], soc'. split_and!; try done; cbn; cbn in Hcnt; lia.
  - rewrite (eqb_false (length_ _)) by lia. cbn [negb mbind outcome_bind]. eexists. split; [reflexivity|].
    split; [by eapply Hsend; [by left|done|exact (Hpend (network (office M)))]|].
    destruct Hr. by split.
Qed.

Lemma PostalDelivery_put_good a M m :
  receiving_ok a M → mail_ok m → starts_with (payload m) (buffer M) →
  ∃ box, boxes (office M) !! Z.to_nat (mto (mailHdr m)) = Some box ∧
    PostalDelivery_put (pktHdr m) (buffer M) (office M) =
      Ret (with_boxes (<[Z.to_nat (mto (mailHdr m)) := box ++ [m]]> (boxes (office M))) (office M)).
Proof.
  intros Hr Hm Hst. destruct (read_payload m _ Hm Hst) as (Eh & Et & El). destruct (rc_boxes _ _ Hr) as [Hb1 Hb2].
  pose proof (ml_box _ Hm) as Hbox. unfold PostalDelivery_put. rewrite Eh.
  destruct (lookup_lt_is_Some_2 (boxes (office M)) (Z.to_nat (mto (mailHdr m)))) as [box Ebox]; [lia|].
  exists box. split; [done|]. cbn zeta.
  rewrite (ASSERT_true (_ && _)) by (rewrite Hb1; exact (in_range_true _ _ Hbox)).
  rewrite (ASSERT_true (_ <=? _)) by (apply Z.leb_le, Hm). cbn [mbind outcome_bind].
  rewrite (rd_lookup _ _ box) by (done || lia). cbn [mbind outcome_bind]. unfold Put, Mail_new.
  rewrite (ASSERT_true (_ <=? _)) by (apply Z.leb_le, Hm). cbn [mbind outcome_bind].
  change (Z.to_nat sizeof_MailHeader) with 12%nat.
  rewrite (proj2 (Nat.leb_le _ _) El), Et. cbn [defined_if mbind outcome_bind].
  rewrite wr_ok by lia. cbn [mbind outcome_bind]. by destruct m.
Qed.

Lemma worker_step_good a M r :
  machine_ok a M → worker_step M = Some r → ∃ M', r = Ret M' ∧ machine_ok a M'.
Proof.
  intros [Hs Hr] E. unfold worker_step in E.
  destruct (rc_wire _ _ Hr) as (put & inb & soc & Hw & Htk & Harr & Hsoc & Hcnt & Hnn).
  destruct (rc_mail_parts _ _ _ _ _ _ Hr Hw) as (_ & Hmp & Hmi & Hms).
  destruct (worker M) as [| |hdr] eqn:Ew.
  - destruct (Z.eqb_spec (messageAvailable (office M)) 0) as [|Hne]; [done|]. injection E as <-.
    eexists. split; [reflexivity|]. split; [by destruct Hs; split|].
    destruct Hr. split; try done. exists put, inb, soc. split_and!; try done; cbn; lia.
  - destruct (arrived_length _ _ Hmi Harr) as [[Hz ->]|(m & -> & Hm & Hh & Hst & Hpos)];
      [cbn in Hcnt; lia|]. cbn in Htk. subst put.
    unfold PostalDelivery_receive, Receive in E. rewrite eqb_false in E by lia. cbn [negb] in E.
    injection E as <-. eexists. split; [reflexivity|]. split; [by destruct Hs; split|].
    destruct (payload_length m Hm) as [Hl1 Hl2]. rewrite Hh in *.
    rewrite (starts_with_take (payload m)) by (done || lia).
    destruct Hr as [H1 [H2 H2'] H3 H4 H5 H6]. change (Z.to_nat MaxPacketSize) with 52%nat in *.
    change MaxPacketSize with 52 in Hl2.
    destruct (starts_with_blit (payload m) (buffer M)) as [Hsw Hbl]; [lia|].
    split; try done; [split; [done|exact (eq_trans Hbl H2')]|].
    exists [m], [], soc. split_and!; try done. cbn in Hcnt |- *. lia.
  - destruct put as [|m [|]]; try done. destruct Htk as [-> Hst]. apply Forall_cons in Hmp as [Hm _].
    destruct (PostalDelivery_put_good a M m Hr Hm Hst) as (box & Ebox & Eput).
    destruct (read_payload m _ Hm Hst) as (Eh & Et & El). cbn zeta in E. rewrite Eput, Eh, Et in E.
    replace (mkMail (pktHdr m) (mailHdr m) (data m)) with m in E by (by destruct m).
    cbn [mbind outcome_bind] in E. injection E as <-. eexists. split; [reflexivity|].
    split; [by destruct Hs; split|]. pose proof (ml_box _ Hm) as Hbox.
    destruct Hr as [H1 H2 [H3 H3'] H4 H5 H6]. split; try done.
    + split; [done|]. cbn. by rewrite length_insert.
    + exists [], inb, soc. split_and!; try done. cbn [wire delivered log_delivered with_office with_worker].
      rewrite Hw, <- app_assoc. done.
    + cbn. intros b box' Eb. rewrite filter_app, filter_cons, filter_nil.
      destruct (decide (mto (mailHdr m) = Z.of_nat b)) as [Hto|Hto].
      * rewrite Hto, Nat2Z.id in Eb, Ebox. rewrite list_lookup_insert_eq in Eb by (by eapply lookup_lt_Some).
        injection Eb as <-. by rewrite (H6 b box Ebox), app_assoc.
      * rewrite list_lookup_insert_ne in Eb by lia. by rewrite app_nil_r, (H6 b box' Eb).
Qed.

Lemma PostOffice_Receive_good a M box buf r :
  receiving_ok a M → 0 ≤ box < Z.of_nat nBoxes → (40 ≤ length buf)%nat →
  PostOffice_Receive box buf (office M) = Some r →
  ∃ m rest buf', r = Ret (m, buf', with_boxes (<[Z.to_nat box := rest]> (boxes (office M))) (office M)) ∧
    boxes (office M) !! Z.to_nat box = Some (m :: rest).
Proof.
  intros Hr Hbox Hbuf E. destruct (rc_boxes _ _ Hr) as [Hb1 Hb2]. unfold PostOffice_Receive in E.
  rewrite Hb1 in E. change ((0 <=? box) && (box <? Z.of_nat nBoxes)) with (in_range box (Z.of_nat nBoxes)) in E.
  rewrite in_range_true in E by done. cbn [negb] in E.
  destruct (boxes (office M) !! Z.to_nat box) as [[|m rest]|] eqn:Ebox; [done| |].
  2: { apply lookup_ge_None in Ebox. lia. }
  cbn [Get] in E. injection E as <-.
  destruct (rc_wire _ _ Hr) as (put & inb & soc & Hw & _). 
  assert (mail_ok m) as Hm.
  { destruct (rc_mail_parts _ _ _ _ _ _ Hr Hw) as (Hd & _). rewrite Forall_forall in Hd. apply Hd.
    pose proof (rc_filed _ _ Hr _ _ Ebox) as Hf.
    assert (m ∈ filter (λ m, mto (mailHdr m) = Z.of_nat (Z.to_nat box)) (delivered M)) as Hin
      by (rewrite Hf; apply elem_of_app; right; apply list_elem_of_here).
    by apply list_elem_of_filter in Hin as [_ Hin]. }
  pose proof (ml_data _ Hm) as Hd. pose proof (ml_max _ Hm) as Hmax. change MaxMailSize with 40 in Hmax.
  rewrite (proj2 (Nat.leb_le _ _)) by lia. cbn [defined_if mbind outcome_bind].
  rewrite (ASSERT_true (_ <=? _)) by (apply Z.leb_le, Hm). cbn [mbind outcome_bind].
  by exists m, rest, (blit buf 0 (data m)).
Qed.

(** *** A step of a thread *)
Lemma receiving_office a M po ths :
  receiving_ok a M → boxes po = boxes (office M) → numBoxes po = numBoxes (office M) →
  messageAvailable po = messageAvailable (office M) → ident (network po) = ident (network (office M)) →
  inHdr (network po) = inHdr (network (office M)) → inbox (network po) = inbox (network (office M)) →
  receiving_ok a (mkMachine po ths (worker M) (buffer M) (sock M) (wire M) (delivered M) (received M)).
Proof.
  intros [] E1 E2 E3 E4 E5 E6. split; cbn; rewrite ?E1, ?E2, ?E3, ?E4, ?E5, ?E6; try done.
  destruct rc_wire0 as (put & inb & soc & H1 & H2 & H3 & H4). exists put, inb, soc. split_and!; try apply H4; try done.
  destruct inb as [|m [|]]; cbn in *; try done; by rewrite E5, ?E6.
Qed.

Lemma client_step_good a M t c act junk r :
  machine_ok a M → threads M !! t = Some (Client c) → client c = Some act → good_action act →
  (a < n)%nat → Z.of_nat n ≤ 2 ^ 31 → length junk = 64%nat → client_step t act junk M = Some r →
  ∃ M', r = Ret (M', None) ∧ machine_ok a M'.
Proof.
  intros [Hs Hr] Et Ec Hg Ha Hn Hj E.
  assert (sendLock (office M) ≠ Some t) as Hl.
  { intros Hl. apply (sd_threads _ _ _ Hs t _ Et) in Hl. done. }
  destruct (sd_count _ _ _ Hs) as [Hv Hc].
  destruct act as [hdr mh msg next|box buf next]; cbn [client_step] in E.
  - destruct (Send_good a hdr mh msg (take 52 junk) (office M) (threads M) next)
      as (hdr' & buf & Esend & Hm & Hf & Hto & Hst); try done; [apply Hr|rewrite length_take; lia|].
    rewrite Esend in E. cbn [mbind outcome_bind] in E. injection E as <-. eexists. split; [reflexivity|].
    split; [|by apply (receiving_office a M)].
    eapply sending_set; try done; [apply Hs|by left|]. cbn [office with_thread]. by rewrite awaiting_other.
  - destruct (PostOffice_Receive box buf (office M)) as [r0|] eqn:Er; [|done]. injection E as <-.
    destruct Hg as [Hbox Hbuf]. change (Z.to_nat MaxMailSize) with 40%nat in Hbuf.
    destruct (PostOffice_Receive_good a M box buf r0 Hr Hbox Hbuf Er) as (m & rest & buf' & -> & Ebox).
    cbn [mbind outcome_bind]. eexists. split; [reflexivity|]. split.
    + eapply sending_set; try done; [apply Hs|by left|].
      cbn [office with_thread log_received with_office sendLock with_boxes network messageSent].
      by rewrite awaiting_other.
    + destruct Hr as [H1 H2 [H3 H3'] H4 H5 H6]. split; try done; [split; [done|]; cbn; by rewrite length_insert|].
      cbn. intros b box' Eb. rewrite filter_app, filter_cons, filter_nil, fmap_app. cbn [fst].
      destruct (decide (box = Z.of_nat b)) as [->|Hne].
      * rewrite Nat2Z.id in Eb, Ebox. rewrite list_lookup_insert_eq in Eb by (by eapply lookup_lt_Some).
        injection Eb as <-. rewrite (H6 b _ Ebox). cbn. by rewrite <- app_assoc.
      * rewrite list_lookup_insert_ne in Eb by lia. cbn. by rewrite app_nil_r, (H6 b box' Eb).
Qed.

Definition wire_ok (out : option put_on_wire) : Prop :=
  match out with
  | Some (dest, packet, m) => mail_ok m ∧ dest = to (pktHdr m) ∧ on_wire m packet
  | None => True
  end.

Lemma thread_step_good a M t random junk r :
  machine_ok a M → (a < n)%nat → Z.of_nat n ≤ 2 ^ 31 → length junk = 64%nat →
  (∀ c act, threads M !! t = Some (Client c) → client c = Some act → good_action act) →
  thread_step t random junk M = Some r →
  ∃ M' out, r = Ret (M', out) ∧ machine_ok a M' ∧ wire_ok out.
Proof.
  intros [Hs Hr] Ha Hn Hj Hg E. unfold thread_step in E. destruct (sd_count _ _ _ Hs) as [Hv Hc].
  destruct (threads M !! t) as [th|] eqn:Et; [|done].
  destruct (sd_threads _ _ _ Hs t th Et) as [Hth Hl].
  destruct th as [c|hdr buf m c|hdr buf m c|c|c]; cbn [holds_lock] in Hl.
  - destruct (client c) as [act|] eqn:Ec; [|done].
    destruct (client_step_good a M t c act junk r) as (M' & -> & HM); try done; [by apply (Hg c)|].
    by exists M', None.
  - destruct (sendLock (office M)) as [t'|] eqn:El; [done|]. injection E as <-.
    do 2 eexists. split; [reflexivity|]. split; [|done]. split; [|by apply (receiving_office a M)].
    eapply sending_set; try done; [apply Hs|by right; left|].
    cbn [office with_thread with_office sendLock with_lock]. rewrite (awaiting_holder _ _ _ _ Et). exact Hc.
  - injection E as <-. destruct Hth as (Hm & -> & Hf & Hst). unfold send_step.
    destruct (Network_Send_good (network (office M)) buf m random junk) as (out & -> & Hout);
      try done; [apply Hs|by rewrite (rc_ident _ _ Hr)|].
    cbn [mbind outcome_bind]. do 2 eexists. split; [reflexivity|].
    assert (sendLock (office M) = Some t) as El by (by apply Hl).
    rewrite El in Hc. unfold awaiting in Hc. cbn in Hc. rewrite Et in Hc.
    split; [split; [|by apply (receiving_office a M)]|].
    + eapply sending_set; try done; [apply Hs|by left|].
      cbn [office with_thread with_office sendLock with_network network messageSent].
      rewrite El, (awaiting_holder _ _ _ _ Et), sends_pending_schedule. lia.
    + destruct out as [[dest packet]|]; [|done]. by destruct Hout as (_ & -> & Hw).
  - destruct (Z.eqb_spec (messageSent (office M)) 0) as [|Hne]; [done|]. injection E as <-.
    do 2 eexists. split; [reflexivity|]. split; [|done]. split; [|by apply (receiving_office a M)].
    assert (sendLock (office M) = Some t) as El by (by apply Hl).
    rewrite El in Hc. unfold awaiting in Hc. cbn in Hc. rewrite Et in Hc.
    eapply sending_set; try done; [apply Hs|by left|cbn; lia|].
    cbn [office with_thread with_office sendLock with_sent network messageSent].
    rewrite El, (awaiting_holder _ _ _ _ Et). lia.
  - injection E as <-. assert (sendLock (office M) = Some t) as El by (by apply Hl).
    rewrite bool_decide_true by done. cbn [ASSERT mbind outcome_bind].
    do 2 eexists. split; [reflexivity|]. split; [|done]. split; [|by apply (receiving_office a M)].
    rewrite El in Hc. unfold awaiting in Hc. cbn in Hc. rewrite Et in Hc.
    eapply sending_set; try done; [apply Hs|by right; right].
Qed.

(** *** The world *)
Lemma world_insert w a M :
  world_ok w → machine_ok a M → world_ok (<[a := M]> w).
Proof.
  intros [Hl Hw] HM. split; [by rewrite length_insert|]. intros a' M' E.
  apply list_lookup_insert_Some in E as [(<- & <- & _)|[_ E]]; [done|]. by apply Hw.
Qed.

Lemma deliver_good w out :
  world_ok w → wire_ok out → ∃ w', deliver out w = Ret w' ∧ world_ok w'.
Proof.
  intros Hw Hout. destruct out as [[[dest packet] m]|]; [|by exists w].
  destruct Hout as (Hm & -> & Hp). pose proof (ml_to _ Hm) as Hto. cbn [deliver].
  rewrite (proj2 (Z.leb_le _ _)) by lia.
  destruct (lookup_lt_is_Some_2 w (Z.to_nat (to (pktHdr m)))) as [D ED]; [destruct Hw; lia|].
  rewrite ED. eexists. split; [reflexivity|]. apply world_insert; [done|].
  destruct (proj2 Hw _ _ ED) as [Hs Hr]. split; [done|].
  destruct Hr as [H1 H2 H3 (put & inb & soc & E1 & E2 & E3 & E4 & E5) H5 H6]. split; try done.
  - exists put, inb, (soc ++ [m]). split_and!; try done; [cbn; by rewrite E1, <- !app_assoc| |apply E5..].
    by apply Forall2_app; [|constructor].
  - cbn. apply Forall_app. split; [done|]. constructor; [|done]. split; [done|]. lia.
Qed.

Lemma world_step_good w e r :
  Z.of_nat n ≤ 2 ^ 31 → world_ok w → good_event w e → world_step e w = Some r →
  ∃ w', r = Ret w' ∧ world_ok w'.
Proof.
  intros Hn Hw Hg E.
  assert (∀ a f, (∀ M r, machine_ok a M → f M = Some r → ∃ M', r = Ret M' ∧ machine_ok a M') →
    on_machine a w f = Some r → ∃ w', r = Ret w' ∧ world_ok w') as Hon.
  { intros a f Hf E'. unfold on_machine in E'. destruct (w !! a) as [M|] eqn:EM; [|done].
    destruct (f M) as [r0|] eqn:Ef; [|done]. injection E' as <-.
    destruct (Hf M r0) as (M' & -> & HM); [by apply Hw|done|]. eexists. split; [reflexivity|].
    by apply world_insert. }
  destruct e as [a t random junk|a|a|a]; cbn [world_step] in E.
  - destruct (w !! a) as [M|] eqn:EM; [|done].
    destruct (thread_step t random junk M) as [r0|] eqn:Et; [|done]. injection E as <-.
    destruct Hg as [Hj Hg]. change (Z.to_nat MaxWireSize) with 64%nat in Hj.
    destruct (thread_step_good a M t random junk r0) as (M' & out & -> & HM & Hout); try done.
    + by apply Hw.
    + apply lookup_lt_Some in EM. destruct Hw. lia.
    + intros c act Ec Eact. cbn in Hg. rewrite EM in Hg. cbn in Hg. by rewrite Ec, Eact in Hg.
    + cbn [mbind outcome_bind]. apply deliver_good; [by apply world_insert|done].
  - by apply (Hon a worker_step (worker_step_good a)).
  - by apply (Hon a poll_step (poll_step_good a)).
  - apply (Hon a sent_step); [|done]. intros M r' [Hs Hr] E'. unfold sent_step in E'.
    case_bool_decide; [|done]. injection E' as <-. eexists. split; [reflexivity|].
    split; [by apply sent_sending|]. by apply (receiving_office a M).
Qed.

(** The machines at the start. *)
Definition post_start (reliability : Q) (cs : list (list C)) : list Machine :=
  imap (λ a c, machine a reliability nBoxes c) cs.

Lemma start_ok reliability cs : length cs = n → world_ok (post_start reliability cs).
Proof.
  intros Hl. split; [by unfold post_start; rewrite length_imap|]. intros a M E.
  apply list_lookup_imap_Some in E as (c & Ec & ->). split.
  - split; try done.
    + cbn. intros t th Et. rewrite list_lookup_fmap in Et. apply fmap_Some in Et as (x & _ & ->).
      split; [done|]. split; [done|]. intros [=].
  - split; try done; cbn.
    + by rewrite length_replicate.
    + exists [], [], []. split_and!; try done.
    + intros b box Eb. by apply lookup_replicate in Eb as [-> _].
Qed.

Definition world_steps (w w' : list Machine) : Prop :=
  ∃ e, good_event w e ∧ world_step e w = Some (Ret w').
Definition post_reachable (reliability : Q) (cs : list (list C)) : list Machine → Prop :=
  reachable (λ w, w = post_start reliability cs) world_steps.

Lemma reachable_ok reliability cs w :
  Z.of_nat n ≤ 2 ^ 31 → length cs = n → post_reachable reliability cs w → world_ok w.
Proof.
  intros Hn Hl. apply invariant_reachable.
  - intros ? ->. by apply start_ok.
  - intros w1 w2 _ Hw (e & Hg & E). by destruct (world_step_good w1 e (Ret w2) Hn Hw Hg E) as (w' & [= ->] & ?).
Qed.

(** What has not arrived yet: the mail the worker holds, the packet in the device, the packets in the
    socket. *)
Definition under_way (M : Machine) : nat :=
  match worker M with ToPut _ => 1 | _ => 0 end +
  (if length_ (inHdr (network (office M))) =? 0 then 0 else 1) + length (sock M).

(** C39: whatever the threads of any number of machines do, and however they, the postal workers and
    the interrupts are interleaved, the mail put on the wire for a box is, in this order and
    with its headers and its data: what [Receive] handed out from the box, what waits in the box,
    and what is still under way; every mail arrives at the machine it was for. *)
Theorem post_delivers_in_order reliability cs w a M b box :
  Z.of_nat n ≤ 2 ^ 31 → length cs = n → post_reachable reliability cs w →
  w !! a = Some M → boxes (office M) !! b = Some box →
  ∃ coming, length coming = under_way M ∧
    (∃ before, wire M = before ++ coming) ∧
    filter (λ m, mto (mailHdr m) = Z.of_nat b) (wire M) =
      (filter (λ r, r.1 = Z.of_nat b) (received M)).*2 ++ box ++
      filter (λ m, mto (mailHdr m) = Z.of_nat b) coming ∧
    Forall (λ m, to (pktHdr m) = Z.of_nat a) (wire M).
Proof.
  intros Hn Hl Hw EM Eb. destruct (proj2 (reachable_ok _ _ _ Hn Hl Hw) a M EM) as [_ Hr].
  destruct (rc_wire _ _ Hr) as (put & inb & soc & E & Htk & Harr & Hsoc & _).
  destruct (rc_mail_parts _ _ _ _ _ _ Hr E) as (_ & _ & Hmi & _).
  exists (put ++ inb ++ soc). split_and!.
  - unfold under_way. rewrite !length_app, (Forall2_length _ _ _ Hsoc).
    assert (length put = match worker M with ToPut _ => 1 | _ => 0 end)%nat as ->.
    { destruct (worker M), put as [|m [|]]; done. }
    destruct (arrived_length _ _ Hmi Harr) as [[-> ->]|(m & -> & _ & _ & _ & Hp)]; [cbn; lia|].
    rewrite eqb_false by lia. cbn. lia.
  - by exists (delivered M).
  - rewrite E, filter_app, (rc_filed _ _ Hr b box Eb). by rewrite <- app_assoc.
  - eapply Forall_impl; [apply Hr|]. by intros m [].
Qed.

(** C40: no [ASSERT] of [post.cc] and [network.cc] fails, and no buffer is overrun, as long as threads ask
    for mail that fits, to machines and boxes there are; a machine has at most one packet
    unconfirmed, and none while nobody holds the lock. *)
Theorem post_asserts_hold reliability cs w :
  Z.of_nat n ≤ 2 ^ 31 → length cs = n → post_reachable reliability cs w →
  (∀ e r, good_event w e → world_step e w = Some r → ∃ w', r = Ret w') ∧
  (∀ a M, w !! a = Some M →
    0 ≤ sends_pending (network (office M)) + messageSent (office M) ≤ 1 ∧
    (sendLock (office M) = None → sends_pending (network (office M)) + messageSent (office M) = 0)).
Proof.
  intros Hn Hl Hw. pose proof (reachable_ok _ _ _ Hn Hl Hw) as Hok. split.
  - intros e r Hg E. destruct (world_step_good w e r Hn Hok Hg E) as (w' & -> & _). by exists w'.
  - intros a M EM. destruct (proj2 Hok a M EM) as [Hs _]. destruct (sd_count _ _ _ Hs) as [_ ->].
    unfold awaiting. split.
    + repeat case_match; lia.
    + by intros ->.
Qed.

(** *** Running the machines: steps that cannot happen are skipped. *)
Fixpoint post_run (es : list event) (w : list Machine) : outcome (list Machine) :=
  match es with
  | [] => Ret w
  | e :: es =>
      match world_step e w with
      | None => post_run es w
      | Some r => _ ← defined_if (bool_decide (good_event w e)); w ← r; post_run es w
      end
  end.

Lemma post_run_reachable reliability cs es w w' :
  post_reachable reliability cs w → post_run es w = Ret w' → post_reachable reliability cs w'.
Proof.
  revert w. induction es as [|e es IH]; intros w Hw E; cbn [post_run] in E; [by injection E as <-|].
  destruct (world_step e w) as [r|] eqn:Es; [|by apply (IH w)]. inv_ret.
  apply (IH r1); [|done]. eapply reach_step; [done|]. exists e. split; [|done].
  by apply bool_decide_eq_true in Hrun.
Qed.
End world.

(** ** network/nettest.cc *)
Module MailTest.

(** The strings of the test, with their NUL. *)
Definition hello : list Z := [72; 101; 108; 108; 111; 32; 116; 104; 101; 114; 101; 33; 0].
Definition got_it : list Z := [71; 111; 116; 32; 105; 116; 33; 0].

(** Where [MailTest] is; [out] is what it has printed: the text and the two numbers. *)
Inductive mail_test :=
  | First (farAddr : Z)
  | AwaitFirst
  | Acknowledge (from_machine from_box : Z) (out : list (list Z * Z * Z))
  | AwaitAck (out : list (list Z * Z * Z))
  | Done (out : list (list Z * Z * Z)).

(** [printf] with [%s] stops at the NUL. *)
Fixpoint text (bs : list Z) : list Z :=
  match bs with [] => [] | b :: bs => if b =? 0 then [] else b :: text bs end.

Definition strlen (bs : list Z) : Z := Z.of_nat (length (text bs)).

(** The buffer, whose contents [printf] reads only after [Receive] filled it. *)
Definition buffer0 : list Z := replicate 40 0.

Definition MailTest (s : mail_test) : option action :=
  match s with
  | First farAddr =>
      Some (DoSend (mkPacketHeader farAddr 0 0) (mkMailHeader 0 1 (strlen hello + 1)) hello AwaitFirst)
  | AwaitFirst =>
      Some (DoReceive 0 buffer0 (λ inPktHdr inMailHdr buffer,
        Acknowledge (from inPktHdr) (mfrom inMailHdr) [(text buffer, from inPktHdr, mfrom inMailHdr)]))
  | Acknowledge machine box out =>
      Some (DoSend (mkPacketHeader machine 0 0) (mkMailHeader box 1 (strlen got_it + 1)) got_it (AwaitAck out))
  | AwaitAck out =>
      Some (DoReceive 1 buffer0 (λ inPktHdr inMailHdr buffer,
        Done (out ++ [(text buffer, from inPktHdr, mfrom inMailHdr)])))
  | Done _ => None
  end.

(** Two machines that never lose a packet, with the ten boxes of [system.cc], each started with the other's
    address. *)
Definition two_machines : list (Machine (C := mail_test)) := post_start 10 1 [[First 1]; [First 0]].

Definition round : list event :=
  [Thread 0 0 0 (replicate 64 7); Thread 1 0 0 (replicate 64 7); Sent 0; Sent 1; Poll 0; Poll 1; Worker 0; Worker 1].
Fixpoint rounds (k : nat) : list event := match k with O => [] | S k => round ++ rounds k end.

Definition ending : list Machine :=
  match post_run MailTest 2 10 (rounds 12) two_machines with Ret w => w | _ => [] end.

Lemma ending_reachable : post_reachable MailTest 2 10 1 [[First 1]; [First 0]] ending.
Proof.
  apply (post_run_reachable _ _ _ _ _ (rounds 12) two_machines); [by constructor|vm_compute; reflexivity].
Qed.

(** In the end both machines have printed both texts. *)
Lemma post_delivers_in_order_witness :
  threads <$> ending =
    [[Client (Done [(text hello, 1, 1); (text got_it, 1, 1)])];
     [Client (Done [(text hello, 0, 1); (text got_it, 0, 1)])]] ∧
  ∃ M, ending !! 0%nat = Some M ∧ length (wire M) = 2%nat ∧
    filter (λ m, mto (mailHdr m) = 0) (wire M) = (filter (λ r, r.1 = 0) (received M)).*2.
Proof.
  split; [vm_compute; reflexivity|].
  assert (∃ M, ending !! 0%nat = Some M) as [M EM] by (vm_compute; by eexists).
  assert (boxes (office M) !! 0%nat = Some [] ∧ under_way M = 0%nat ∧ length (wire M) = 2%nat) as (Eb & Eu & El).
  { revert EM. vm_compute. intros [= <-]. done. }
  exists M. split; [done|]. split; [done|].
  assert (Z.of_nat 2 ≤ 2 ^ 31) as H2 by lia.
  destruct (post_delivers_in_order MailTest 2 10 1 [[First 1]; [First 0]] ending 0 M 0 []
    H2 eq_refl ending_reachable EM Eb) as (coming & Hc & _ & Hw & _).
  rewrite Eu in Hc. apply nil_length_inv in Hc as ->. cbn [app] in Hw. rewrite filter_nil, app_nil_r in Hw.
  exact Hw.
Defined.

Lemma post_asserts_hold_witness :
  ∃ M, ending !! 1%nat = Some M ∧ sends_pending (network (office M)) + messageSent (office M) = 0.
Proof.
  assert (∃ M, ending !! 1%nat = Some M) as [M EM] by (vm_compute; by eexists).
  exists M. split; [exact EM|]. assert (Z.of_nat 2 ≤ 2 ^ 31) as H2 by lia.
  apply (proj2 (post_asserts_hold MailTest 2 10 1 [[First 1]; [First 0]] ending H2 eq_refl
    ending_reachable) 1%nat M EM).
  revert EM. vm_compute. by intros [= <-].
Defined.

End MailTest.
End Post.
