(* ===== verification/UnixFile.v ===== *)
(** * filesys/filesys.h, openfile.h (FILESYS_STUB), machine/sysdep.cc: files kept by UNIX

    The builds that run user programs call UNIX for files.  A UNIX file is its bytes; names
    lead to files, and a file that lost its name stays while it is open.  Permissions and a
    full disk are left out: [open] for writing and [write] succeed. *)

From S2P Require Import Prelude.
From stdpp Require Export strings.

Open Scope Z_scope.

Module UnixFile.

Record Unix := mkUnix { names : gmap string nat; inodes : gmap nat (list Z) }.

Definition unix0 : Unix := mkUnix ∅ ∅.

Definition content (u : Unix) (fd : nat) : list Z := default [] (inodes u !! fd).
Definition set_content (fd : nat) (bs : list Z) (u : Unix) : Unix := mkUnix (names u) (<[fd := bs]> (inodes u)).

(** *** machine/sysdep.cc *)

(** [O_CREAT | O_TRUNC]: a file of that name is emptied, for everybody who has it open. *)
Definition OpenForWrite (name : string) (u : Unix) : Unix * nat :=
  match names u !! name with
  | Some fd => (set_content fd [] u, fd)
  | None =>
      let fd := fresh (dom (inodes u)) in
      (mkUnix (<[name := fd]> (names u)) (<[fd := []]> (inodes u)), fd)
  end.

Definition OpenForReadWrite (name : string) (crashOnError : bool) (u : Unix) : outcome (option nat) :=
  let fd := names u !! name in
  assert! negb crashOnError || bool_decide (is_Some fd);;
  Ret fd.

(** [read] and [write] at the position [Lseek] left. *)
Definition Lseek (offset : Z) : outcome Z :=
  assert! 0 <=? offset;;
  Ret offset.

Definition ReadPartial (u : Unix) (fd : nat) (pos nBytes : Z) : list Z :=
  take (Z.to_nat nBytes) (drop (Z.to_nat pos) (content u fd)).

Definition Read (u : Unix) (fd : nat) (pos nBytes : Z) : outcome (list Z) :=
  let bs := ReadPartial u fd pos nBytes in
  assert! Z.of_nat (length bs) =? nBytes;;
  Ret bs.

(** Beyond the end a gap is filled with zeros. *)
Definition write_at (bs : list Z) (pos : nat) (file : list Z) : list Z :=
  take pos (file ++ replicate (pos - length file) 0) ++ bs ++ drop (pos + length bs) file.

Definition WriteFile (bs : list Z) (fd : nat) (pos : Z) (u : Unix) : Unix :=
  set_content fd (write_at bs (Z.to_nat pos) (content u fd)) u.

(** The result of [unlink] as a [bool]: [false] (0) when it succeeds. *)
Definition Unlink (name : string) (u : Unix) : Unix * bool :=
  match names u !! name with
  | Some _ => (mkUnix (delete name (names u)) (inodes u), false)
  | None => (u, true)
  end.

(** *** filesys/filesys.h *)
Record OpenFile := mkOpenFile { file : nat; currentOffset : Z }.

(** [initialSize] is not used. *)
Definition Create (name : string) (initialSize : Z) (u : Unix) : Unix * bool :=
  let '(u, fd) := OpenForWrite name u in (u, true).

Definition Open (name : string) (u : Unix) : outcome (option OpenFile) :=
  fd ← OpenForReadWrite name false u;
  Ret (match fd with Some fd => Some (mkOpenFile fd 0) | None => None end).

Definition Remove (name : string) (u : Unix) : Unix * bool :=
  let '(u, r) := Unlink name u in (u, negb r).

(** *** filesys/openfile.h *)

(** The bytes read; the code returns their number. *)
Definition ReadAt (f : OpenFile) (numBytes position : Z) (u : Unix) : outcome (list Z) :=
  pos ← Lseek position;
  _ ← defined_if (0 <=? numBytes);
  Ret (ReadPartial u (file f) pos numBytes).

Definition WriteAt (f : OpenFile) (from : list Z) (numBytes position : Z) (u : Unix) : outcome (Unix * Z) :=
  pos ← Lseek position;
  _ ← defined_if (in_range numBytes (Z.of_nat (length from) + 1));
  Ret (WriteFile (take (Z.to_nat numBytes) from) (file f) pos u, numBytes).

Definition Read_next (f : OpenFile) (numBytes : Z) (u : Unix) : outcome (OpenFile * list Z) :=
  bs ← ReadAt f numBytes (currentOffset f) u;
  Ret (mkOpenFile (file f) (currentOffset f + Z.of_nat (length bs)), bs).

Definition Write_next (f : OpenFile) (from : list Z) (numBytes : Z) (u : Unix) : outcome (OpenFile * Unix * Z) :=
  '(u, n) ← WriteAt f from numBytes (currentOffset f) u;
  Ret (mkOpenFile (file f) (currentOffset f + n), u, n).

Definition Length (f : OpenFile) (u : Unix) : Z := Z.of_nat (length (content u (file f))).

(** *** Laws *)
Lemma content_set fd fd' bs u :
  content (set_content fd bs u) fd' = if decide (fd = fd') then bs else content u fd'.
Proof. unfold content. cbn. rewrite lookup_insert. by case_decide. Qed.

Lemma write_at_length bs pos file :
  length (write_at bs pos file) = Nat.max (length file) (pos + length bs).
Proof. unfold write_at. rewrite !length_app, length_take, length_drop, length_app, length_replicate. lia. Qed.

(** What is read after a write: the new bytes, and elsewhere the old ones. *)
Lemma read_write_at bs pos file :
  take (length bs) (drop pos (write_at bs pos file)) = bs.
Proof.
  unfold write_at. rewrite drop_app_length' by (rewrite length_take, length_app, length_replicate; lia).
  apply take_app_length.
Qed.

Lemma read_write_at_other bs pos file k n :
  (k + n ≤ length file)%nat → (k + n ≤ pos)%nat ∨ (pos + length bs ≤ k)%nat →
  take n (drop k (write_at bs pos file)) = take n (drop k file).
Proof.
  intros Hk Ho. apply list_eq. intros i. destruct (decide (i < n)%nat) as [Hi|Hi].
  2: { rewrite !lookup_take_ge by lia. done. }
  rewrite !lookup_take_lt, !lookup_drop by lia. unfold write_at. destruct Ho as [Ho|Ho].
  - rewrite lookup_app_l by (rewrite length_take, length_app, length_replicate; lia).
    rewrite lookup_take_lt by lia. by rewrite lookup_app_l by lia.
  - rewrite lookup_app_r by (rewrite length_take, length_app, length_replicate; lia).
    rewrite length_take, length_app, length_replicate.
    rewrite lookup_app_r by lia. rewrite lookup_drop. f_equal. lia.
Qed.

End UnixFile.
