(* ===== verification/VirtMem.v ===== *)
(** * userprog/addrspace.h, addrspace.cc, backingstore.h, backingstore.cc: demand paging

    The page table of an address space is an array shared with the machine ([Machine.tables]); the
    frames come from an allocator that keeps [FrameAllocSpec]; pages that do not fit in memory are
    kept in a file.  Uninitialised memory ([clock_hand], the header before it is read) is a
    parameter. *)

From S2P Require Import Prelude CInt MemManage Machine UnixFile.
From stdpp Require Import pretty.
Import Machine.Machine UnixFile.UnixFile.

Open Scope Z_scope.

Module VirtMem.

(** *** bin/noff.h *)
Definition NOFFMAGIC : Z := 0xbadfad.
Record Segment := mkSegment { virtualAddr : Z; inFileAddr : Z; size_ : Z }.
Record NoffHeader := mkNoff { noffMagic : Z; code : Segment; initData : Segment; uninitData : Segment }.
Definition sizeof_NoffHeader : Z := 40.

Definition UserStackSize : Z := 1024.

Section virtmem.
Context {M : Type} `{FrameAllocSpec M}.
(** [HOST_IS_BIG_ENDIAN], and the switch [-b]. *)
Variable big_endian use_fifo : bool.

(** What the kernel has besides threads: the machine, [memmanage], the files, and the counters of
    [stats] that the paging code changes. *)
Record Sys := mkSys {
  mach : Machine; memmanage : M; files : Unix; numPageFaults : Z; numPageIns : Z; numPageOuts : Z }.

Record BackingStore := mkBacking { fname : string; bs_file : OpenFile }.

Record AddrSpace := mkSpace {
  clock_hand : Z; backing : BackingStore; stored_executable : OpenFile; pageTable : nat; numPages : Z }.

Definition with_mach (m : Machine) (s : Sys) : Sys :=
  mkSys m (memmanage s) (files s) (numPageFaults s) (numPageIns s) (numPageOuts s).
Definition with_memmanage (mm : M) (s : Sys) : Sys :=
  mkSys (mach s) mm (files s) (numPageFaults s) (numPageIns s) (numPageOuts s).
Definition with_files (u : Unix) (s : Sys) : Sys :=
  mkSys (mach s) (memmanage s) u (numPageFaults s) (numPageIns s) (numPageOuts s).
Definition count_fault (s : Sys) : Sys :=
  mkSys (mach s) (memmanage s) (files s) (s32 (numPageFaults s + 1)) (numPageIns s) (numPageOuts s).
Definition count_in (s : Sys) : Sys :=
  mkSys (mach s) (memmanage s) (files s) (numPageFaults s) (s32 (numPageIns s + 1)) (numPageOuts s).
Definition count_out (s : Sys) : Sys :=
  mkSys (mach s) (memmanage s) (files s) (numPageFaults s) (numPageIns s) (s32 (numPageOuts s + 1)).
Definition with_clock (c : Z) (sp : AddrSpace) : AddrSpace :=
  mkSpace c (backing sp) (stored_executable sp) (pageTable sp) (numPages sp).

(** *** Page table entries *)
Definition entry (t : nat) (i : Z) (s : Sys) : outcome TranslationEntry :=
  match tables (mach s) !! t with None => Undefined | Some tab => rd tab i end.
Definition set_entry (t : nat) (i : Z) (e : TranslationEntry) (s : Sys) : outcome Sys :=
  match tables (mach s) !! t with
  | None => Undefined
  | Some tab =>
      tab ← wr tab i e;
      Ret (with_mach (with_tables (mach s) (<[t := tab]> (tables (mach s)))) s)
  end.

Definition set_physicalPage (p : Z) (e : TranslationEntry) : TranslationEntry :=
  mkTE (virtualPage e) p (valid e) (readOnly e) (use e) (dirty e).
Definition set_valid (b : bool) (e : TranslationEntry) : TranslationEntry :=
  mkTE (virtualPage e) (physicalPage e) b (readOnly e) (use e) (dirty e).
Definition set_use (b : bool) (e : TranslationEntry) : TranslationEntry :=
  mkTE (virtualPage e) (physicalPage e) (valid e) (readOnly e) b (dirty e).
Definition set_dirty (b : bool) (e : TranslationEntry) : TranslationEntry :=
  mkTE (virtualPage e) (physicalPage e) (valid e) (readOnly e) (use e) b.
Definition modify (t : nat) (i : Z) (f : TranslationEntry → TranslationEntry) (s : Sys) : outcome Sys :=
  e ← entry t i s; set_entry t i (f e) s.

(** [bcopy] into [mainMemory]. *)
Definition fill_memory (pa : Z) (bs : list Z) (s : Sys) : outcome Sys :=
  m ← store_bytes (mach s) pa bs;
  Ret (with_mach m s).

(** *** backingstore.cc *)
Definition backing_name (start_size : Z) : string := "bs" +:+ pretty (Z.to_N start_size).

(** [Open] gives NULL when there is no such file; [Create] has just made it. *)
Definition BackingStore_new (start_size : Z) (s : Sys) : outcome (BackingStore * Sys) :=
  let fname := backing_name start_size in
  let '(u, _) := Create fname start_size (files s) in
  f ← Open fname u;
  match f with
  | None => Undefined
  | Some f => Ret (mkBacking fname f, with_files u s)
  end.

Definition PageOut (b : BackingStore) (t : nat) (i : Z) (s : Sys) : outcome Sys :=
  s ← modify t i (set_valid false) s;
  pte ← entry t i s;
  s ← (if dirty pte then
         bs ← memory_bytes (mach s) (physicalPage pte * PageSize) PageSize;
         '(u, _) ← WriteAt (bs_file b) bs PageSize (s32 (virtualPage pte * PageSize)) (files s);
         Ret (with_files u (count_out s))
       else Ret s);
  mm ← fa_FreePage (memmanage s) (physicalPage pte);
  Ret (with_memmanage mm s).

Definition PageIn (b : BackingStore) (t : nat) (i : Z) (s : Sys) : outcome Sys :=
  s ← modify t i (set_valid true) s;
  let s := count_in s in
  pte ← entry t i s;
  bs ← ReadAt (bs_file b) PageSize (s32 (virtualPage pte * PageSize)) (files s);
  s ← fill_memory (physicalPage pte * PageSize) bs s;
  modify t i (set_dirty false) s.

Definition BackingStore_delete (b : BackingStore) (s : Sys) : Sys :=
  with_files (fst (Remove (fname b) (files s))) s.

(** *** addrspace.cc *)
Definition word_at (bs : list Z) (i : nat) : Z := s32 (host_load big_endian (take 4 (drop (4 * i) bs))).

Definition bytes_noff (bs : list Z) : NoffHeader :=
  let segment i := mkSegment (word_at bs i) (word_at bs (i + 1)) (word_at bs (i + 2)) in
  mkNoff (word_at bs 0) (segment 1%nat) (segment 4%nat) (segment 7%nat).

Definition swap (w : Z) : Z := s32 (WordToHost big_endian (u32 w)).
Definition SwapHeader (h : NoffHeader) : NoffHeader :=
  let segment sg := mkSegment (swap (virtualAddr sg)) (swap (inFileAddr sg)) (swap (size_ sg)) in
  mkNoff (swap (noffMagic h)) (segment (code h)) (segment (initData h)) (segment (uninitData h)).

(** The start of [Initialize] and of [demandpage]; [junk] is what [noffH] held before. *)
Definition read_noff (executable : OpenFile) (junk : list Z) (s : Sys) : outcome NoffHeader :=
  bs ← ReadAt executable sizeof_NoffHeader 0 (files s);
  let noffH := bytes_noff (blit junk 0 bs) in
  let noffH := if negb (noffMagic noffH =? NOFFMAGIC) && (swap (noffMagic noffH) =? NOFFMAGIC)
               then SwapHeader noffH else noffH in
  assert! noffMagic noffH =? NOFFMAGIC;;
  Ret noffH.

Definition space_pages (h : NoffHeader) : Z :=
  divRoundUp (u32 (size_ (code h) + size_ (initData h) + size_ (uninitData h) + UserStackSize)) PageSize.

Definition Initialize (executable : OpenFile) (clock0 : Z) (junk : list Z) (s : Sys) :
    outcome (AddrSpace * Sys) :=
  noffH ← read_noff executable junk s;
  let numPages := space_pages noffH in
  '(backing, s) ← BackingStore_new (u32 (numPages * PageSize)) s;
  let t := fresh (dom (tables (mach s))) in
  let table := (λ i, mkTE i (-1) false false false false) <$> seqZ 0 numPages in
  let m := with_tables (mach s) (<[t := table]> (tables (mach s))) in
  Ret (mkSpace clock0 backing executable t numPages, with_mach m s).

(** One turn of the loop of [ClearPage]. *)
Definition ClearPage_body (sp : AddrSpace) (st : Z * Sys) : outcome (Z * Sys + Z * Sys) :=
  let '(clock, s) := st in
  e ← entry (pageTable sp) clock s;
  if valid e && (negb (use e) || use_fifo) && (0 <=? physicalPage e) then
    s ← PageOut (backing sp) (pageTable sp) clock s;
    Ret (inr (clock, s))
  else
    s ← modify (pageTable sp) clock (set_use false) s;
    Ret (inl (u32 (clock + 1) mod numPages sp, s)).

(** The bound on the turns of the loop is [fuel]. *)
Variable fuel : nat.

Definition ClearPage (sp : AddrSpace) (s : Sys) : outcome (AddrSpace * Sys) :=
  '(clock, s) ← loop (ClearPage_body sp) fuel (clock_hand sp, s);
  Ret (with_clock clock sp, s).

(** [pageTable[page_num].physicalPage = memmanage->AllocPage()], with the new value. *)
Definition alloc_for (sp : AddrSpace) (page_num : Z) (s : Sys) : outcome (Sys * Z) :=
  '(mm, p) ← fa_AllocPage (memmanage s);
  s ← modify (pageTable sp) page_num (set_physicalPage p) (with_memmanage mm s);
  Ret (s, p).

(** A page that was in memory before. *)
Definition demandpage_again (sp : AddrSpace) (page_num : Z) (s : Sys) : outcome (AddrSpace * Sys * bool) :=
  s ← modify (pageTable sp) page_num (set_valid false) s;
  '(s, p) ← alloc_for sp page_num s;
  '(sp, s) ←
    (if p <? 0 then
       '(sp, s) ← ClearPage sp s;
       '(s, p) ← alloc_for sp page_num s;
       if p <? 0 then
         '(sp, s) ← ClearPage sp s;
         '(s, p) ← alloc_for sp page_num s;
         assert! negb (p <? 0);;
         Ret (sp, s)
       else Ret (sp, s)
     else Ret (sp, s));
  s ← PageIn (backing sp) (pageTable sp) page_num s;
  Ret (sp, s, true).

(** Whether the page begins in the segment. *)
Definition in_segment (sg : Segment) (page_addr : Z) : bool :=
  (virtualAddr sg <=? page_addr) && (page_addr <? s32 (virtualAddr sg + size_ sg)).

Definition load_segment (sp : AddrSpace) (sg : Segment) (page_num phys : Z) (s : Sys) : outcome Sys :=
  let offset := s32 (s32 (page_num * PageSize) - virtualAddr sg) in
  bs ← ReadAt (stored_executable sp) PageSize (s32 (inFileAddr sg + offset)) (files s);
  s ← fill_memory (phys * PageSize) bs s;
  Ret (count_in s).

(** A page that is touched for the first time. *)
Definition demandpage_first (sp : AddrSpace) (page_num : Z) (junk : list Z) (s : Sys) :
    outcome (AddrSpace * Sys * bool) :=
  let page_addr := s32 (page_num * PageSize) in
  noffH ← read_noff (stored_executable sp) junk s;
  '(s, p) ← alloc_for sp page_num s;
  '(sp, s, p) ←
    (if p <? 0 then
       '(sp, s) ← ClearPage sp s;
       '(s, p) ← alloc_for sp page_num s;
       Ret (sp, s, p)
     else Ret (sp, s, p));
  if p <? 0 then Ret (sp, s, false)
  else
    s ← (if in_segment (code noffH) page_addr then load_segment sp (code noffH) page_num p s
         else if in_segment (initData noffH) page_addr then load_segment sp (initData noffH) page_num p s
         else fill_memory (p * PageSize) (replicate (Z.to_nat PageSize) 0) s);
    s ← modify (pageTable sp) page_num (set_dirty true) s;
    s ← modify (pageTable sp) page_num (set_valid true) s;
    Ret (sp, s, true).

Definition demandpage (sp : AddrSpace) (page_num : Z) (junk : list Z) (s : Sys) :
    outcome (AddrSpace * Sys * bool) :=
  e ← entry (pageTable sp) page_num s;
  if 0 <=? physicalPage e then demandpage_again sp page_num s
  else demandpage_first sp page_num junk s.

Definition InitRegisters (sp : AddrSpace) (s : Sys) : outcome Sys :=
  m ← for_range (λ i m, WriteRegister m i 0) 0 (Z.to_nat NumTotalRegs) (mach s);
  m ← WriteRegister m PCReg 0;
  m ← WriteRegister m NextPCReg 4;
  m ← WriteRegister m StackReg (s32 (numPages sp * PageSize - 16));
  Ret (with_mach m s).

Definition SaveState (sp : AddrSpace) (s : Sys) : Sys := s.

Definition RestoreState (sp : AddrSpace) (s : Sys) : Sys :=
  let m := mach s in
  with_mach (mkMachine (mainMemory m) (registers m) (tables m) (tlb m) (Some (pageTable sp)) (numPages sp)
    (singleStep m) (runUntilTime m)) s.

Definition ClearState (sp : AddrSpace) (s : Sys) : outcome Sys :=
  for_range (λ page s,
    e ← entry (pageTable sp) page s;
    if valid e && (0 <=? physicalPage e) then
      mm ← fa_FreePage (memmanage s) (physicalPage e);
      Ret (with_memmanage mm s)
    else Ret s) 0 (Z.to_nat (numPages sp)) s.

(** [~AddrSpace]; closing a file changes nothing here. *)
Definition AddrSpace_delete (sp : AddrSpace) (s : Sys) : Sys :=
  let m := mach s in
  BackingStore_delete (backing sp) (with_mach (with_tables m (delete (pageTable sp) (tables m))) s).

End virtmem.
End VirtMem.
