(* ===== verification/Paging.v ===== *)
(** * Demand paging is transparent

    The pages of an address space as its program sees them ([holds]), wherever they are kept: in a
    frame or in the backing file.  A page fault makes one page resident and changes no page; the
    clock of [ClearPage] stops if and only if a page can be evicted. *)

From S2P Require Import Prelude CInt MemManage Machine UnixFile VirtMem.
Import Machine.Machine UnixFile.UnixFile VirtMem.VirtMem.

Open Scope Z_scope.

Module Paging.
Section paging.
Context {M : Type} `{FrameAllocSpec M}.
Variable big_endian use_fifo : bool.
Implicit Types (s : Sys (M := M)) (sp : AddrSpace) (tab : list TranslationEntry) (e : TranslationEntry).

(** *** Where a page is *)
Definition page_bytes (k : nat) (bs : list Z) : list Z := take 128 (drop (128 * k) bs).
Definition frame s (f : Z) : list Z := page_bytes (Z.to_nat f) (mainMemory (mach s)).
Definition backing_bytes sp s : list Z := content (files s) (file (bs_file (backing sp))).
Definition piece sp s (i : nat) : list Z := page_bytes i (backing_bytes sp s).

Definition put_table sp tab s : Sys :=
  with_mach (with_tables (mach s) (<[pageTable sp := tab]> (tables (mach s)))) s.

(** The state of the paging data of [sp], whose page table is [tab]. *)
Record vm_ok sp s tab : Prop := {
  vo_tab : tables (mach s) !! pageTable sp = Some tab;
  vo_len : Z.of_nat (length tab) = numPages sp;
  vo_pages : 0 < numPages sp ∧ numPages sp * PageSize < 2 ^ 31;
  vo_clock : 0 ≤ clock_hand sp < numPages sp;
  vo_memory : length (mainMemory (mach s)) = Z.to_nat MemorySize;
  vo_frames : fa_wf (memmanage s) ∧ fa_total (memmanage s) = NumPhysPages;
  vo_entry i e : tab !! i = Some e → virtualPage e = Z.of_nat i ∧
    (valid e = true → 0 ≤ physicalPage e < NumPhysPages ∧ physicalPage e ∈ fa_used (memmanage s));
  vo_distinct i j ei ej : tab !! i = Some ei → tab !! j = Some ej → valid ei = true → valid ej = true →
    physicalPage ei = physicalPage ej → i = j;
  vo_clean i e : tab !! i = Some e → valid e = true → dirty e = false →
    piece sp s i = frame s (physicalPage e) }.

(** Page [i] was loaded and contains [c]. *)
Definition holds sp s tab (i : nat) (c : list Z) : Prop :=
  length c = 128%nat ∧ ∃ e, tab !! i = Some e ∧
    if valid e then frame s (physicalPage e) = c else 0 ≤ physicalPage e ∧ piece sp s i = c.

(** Frames of other address spaces. *)
Definition foreign s tab (q : Z) : Prop :=
  q ∈ fa_used (memmanage s) ∧ ∀ j ej, tab !! j = Some ej → valid ej = true → physicalPage ej ≠ q.

(** The machine apart from its memory and tables. *)
Definition cpu (m : Machine) :=
  (registers m, tlb m, Machine.pageTable m, pageTableSize m, singleStep m, runUntilTime m).

(** No file is made or deleted. *)
Definition same_files (u u' : Unix) : Prop :=
  names u' = names u ∧ ∀ fd, is_Some (inodes u !! fd) → is_Some (inodes u' !! fd).

(** What paging leaves alone, apart from the pages of [sp]. *)
Record quiet sp s tab s' : Prop := {
  qu_frames q : foreign s tab q → q ∈ fa_used (memmanage s') ∧ frame s' q = frame s q;
  qu_files fd : fd ≠ file (bs_file (backing sp)) → content (files s') fd = content (files s) fd;
  qu_names : same_files (files s) (files s');
  qu_tables t : t ≠ pageTable sp → tables (mach s') !! t = tables (mach s) !! t;
  qu_cpu : cpu (mach s') = cpu (mach s) }.

(** *** Pages of a byte sequence *)
Lemma page_bytes_write k bs i file :
  length bs = 128%nat →
  page_bytes i (write_at bs (128 * k) file) = if decide (i = k) then bs else
    if decide (128 * (i + 1) ≤ length file)%nat then page_bytes i file
    else page_bytes i (write_at bs (128 * k) file).
Proof.
  intros Hl. unfold page_bytes. case_decide as Hi; [subst|].
  - rewrite <- Hl at 1. apply read_write_at.
  - case_decide; [|done]. apply read_write_at_other; lia.
Qed.

Lemma page_bytes_full i bs : length (page_bytes i bs) = 128%nat → (128 * (i + 1) ≤ length bs)%nat.
Proof. unfold page_bytes. rewrite length_take, length_drop. lia. Qed.

Lemma page_bytes_blit k bs i (mem : list Z) :
  (length bs ≤ 128)%nat → (128 * (k + 1) ≤ length mem)%nat → i ≠ k →
  page_bytes i (blit mem (128 * k) bs) = page_bytes i mem.
Proof.
  intros Hl Hk Hi. unfold page_bytes. apply list_eq. intros j.
  destruct (decide (j < 128)%nat) as [Hj|Hj]; [|by rewrite !lookup_take_ge by lia].
  rewrite !lookup_take_lt, !lookup_drop, lookup_blit by lia. rewrite decide_False by lia. done.
Qed.

(** The frame that is filled: the new bytes, and behind them what was there. *)
Lemma page_bytes_blit_same k bs (mem : list Z) :
  (length bs ≤ 128)%nat → (128 * (k + 1) ≤ length mem)%nat →
  page_bytes k (blit mem (128 * k) bs) = bs ++ drop (length bs) (page_bytes k mem).
Proof.
  intros Hl Hk. unfold page_bytes. apply list_eq. intros j.
  destruct (decide (j < 128)%nat) as [Hj|Hj].
  - rewrite lookup_take_lt, lookup_drop, lookup_blit by lia. case_decide as Hc.
    + rewrite lookup_app_l by lia. f_equal. lia.
    + rewrite lookup_app_r, lookup_drop, lookup_take_lt, lookup_drop by lia. f_equal. lia.
  - rewrite lookup_take_ge by lia. symmetry. apply lookup_ge_None.
    rewrite length_app, length_drop, length_take, length_drop. lia.
Qed.

(** *** The page table *)
Lemma entry_ok sp s tab i e :
  tables (mach s) !! pageTable sp = Some tab → tab !! i = Some e →
  entry (pageTable sp) (Z.of_nat i) s = Ret e.
Proof. intros Et Ee. unfold entry. rewrite Et. apply rd_lookup; [lia|]. by rewrite Nat2Z.id. Qed.

Lemma modify_ok sp s tab i e f :
  tables (mach s) !! pageTable sp = Some tab → tab !! i = Some e →
  modify (pageTable sp) (Z.of_nat i) f s = Ret (put_table sp (<[i := f e]> tab) s).
Proof.
  intros Et Ee. unfold modify. rewrite (entry_ok sp s tab i e) by done. cbn [mbind outcome_bind].
  unfold set_entry. rewrite Et. rewrite wr_ok by (apply lookup_lt_Some in Ee; lia).
  cbn [mbind outcome_bind]. by rewrite Nat2Z.id.
Qed.

Lemma put_table_lookup sp s tab : tables (mach (put_table sp tab s)) !! pageTable sp = Some tab.
Proof. cbn. apply lookup_insert_eq. Qed.

Lemma put_table_twice sp s tab tab' : put_table sp tab' (put_table sp tab s) = put_table sp tab' s.
Proof. unfold put_table, with_mach, with_tables. cbn. by rewrite insert_insert_eq. Qed.

Lemma put_table_same sp s tab : tables (mach s) !! pageTable sp = Some tab → put_table sp tab s = s.
Proof.
  intros E. unfold put_table, with_mach, with_tables. rewrite insert_id by done. by destruct s as [[]].
Qed.

Lemma quiet_table sp s tab tab' : quiet sp s tab (put_table sp tab' s).
Proof. split; try done; [by intros q []|]. intros t Ht. cbn. by rewrite lookup_insert_ne. Qed.

Lemma quiet_paging_trans sp s tab s' tab' s'' :
  quiet sp s tab s' → (∀ q, foreign s tab q → foreign s' tab' q) → quiet sp s' tab' s'' → quiet sp s tab s''.
Proof.
  intros H1 Hf H2. split.
  - intros q Hq. destruct (qu_frames _ _ _ _ H1 q Hq) as [_ <-]. by apply H2, Hf.
  - intros fd Hfd. rewrite (qu_files _ _ _ _ H2) by done. by apply H1.
  - destruct (qu_names _ _ _ _ H1), (qu_names _ _ _ _ H2). split; [congruence|auto].
  - intros t Ht. rewrite (qu_tables _ _ _ _ H2) by done. by apply H1.
  - rewrite (qu_cpu _ _ _ _ H2). apply H1.
Qed.

(** Changes of an entry that leave the page where it is. *)
Definition same_page e e' : Prop :=
  virtualPage e' = virtualPage e ∧ physicalPage e' = physicalPage e ∧ valid e' = valid e ∧
  (valid e = true → dirty e = true → dirty e' = true).


Lemma vm_ok_same sp s tab tab' :
  vm_ok sp s tab → Forall2 same_page tab tab' → vm_ok sp (put_table sp tab' s) tab'.
Proof.
  intros Hok H2. assert (∀ i e', tab' !! i = Some e' → ∃ e, tab !! i = Some e ∧ same_page e e') as Hb.
  { intros i e' Ee. by apply (Forall2_lookup_r _ _ _ _ _ H2). }
  split; try apply Hok.
  - apply put_table_lookup.
  - rewrite <- (Forall2_length _ _ _ H2). apply Hok.
  - intros i e' Ee. destruct (Hb i e' Ee) as (e & E & -> & -> & -> & _). by apply (vo_entry _ _ _ Hok).
  - intros i j ei ej Ei Ej. destruct (Hb i ei Ei) as (e1 & E1 & _ & -> & -> & _).
    destruct (Hb j ej Ej) as (e2 & E2 & _ & -> & -> & _). by apply (vo_distinct _ _ _ Hok i j e1 e2).
  - intros i e' Ee Hv Hd. destruct (Hb i e' Ee) as (e & E & _ & Ep & Ev & Edi). rewrite Ep.
    apply (vo_clean _ _ _ Hok i e E); [congruence|]. destruct (dirty e); [|done].
    rewrite Edi in Hd by (done || congruence). done.
Qed.

Lemma holds_same sp s tab tab' i c :
  Forall2 same_page tab tab' → holds sp s tab i c → holds sp (put_table sp tab' s) tab' i c.
Proof.
  intros H2 (Hl & e & E & Hc). split; [done|].
  destruct (Forall2_lookup_l _ _ _ _ _ H2 E) as (e' & E' & _ & Ep & Ev & _). exists e'. split; [done|].
  by rewrite Ev, Ep.
Qed.

Lemma frame_bytes sp s tab f :
  vm_ok sp s tab → 0 ≤ f < NumPhysPages → memory_bytes (mach s) (f * PageSize) PageSize = Ret (frame s f) ∧
  length (frame s f) = 128%nat.
Proof.
  intros Hok Hf. pose proof (vo_memory _ _ _ Hok) as Hm. change (Z.to_nat MemorySize) with 512%nat in Hm.
  change NumPhysPages with 4 in Hf. change PageSize with 128. unfold memory_bytes, frame, page_bytes. split.
  - rewrite in_range_true by lia. change (Z.to_nat 128) with 128%nat. do 3 f_equal. lia.
  - rewrite length_take, length_drop. lia.
Qed.

Lemma page_address sp s tab i e :
  vm_ok sp s tab → tab !! i = Some e → s32 (virtualPage e * PageSize) = Z.of_nat (128 * i).
Proof.
  intros Hok E. destruct (vo_entry _ _ _ Hok i e E) as [-> _]. apply lookup_lt_Some in E.
  pose proof (vo_len _ _ _ Hok). pose proof (vo_pages _ _ _ Hok) as [_ Hp]. change PageSize with 128 in *.
  rewrite s32_small; [lia|]. unfold is_s32. lia.
Qed.

(** Writing page [i] to the backing file. *)
Lemma piece_write sp s i bs (s' : Sys) :
  length bs = 128%nat →
  files s' = WriteFile bs (file (bs_file (backing sp))) (Z.of_nat (128 * i)) (files s) →
  piece sp s' i = bs ∧ ∀ j, j ≠ i → length (piece sp s j) = 128%nat → piece sp s' j = piece sp s j.
Proof.
  intros Hl Ef. unfold piece, backing_bytes. rewrite Ef. unfold WriteFile.
  rewrite content_set, decide_True, Nat2Z.id by done. split.
  - rewrite page_bytes_write by done. by rewrite decide_True.
  - intros j Hj Hlen. rewrite page_bytes_write by done. rewrite decide_False by done.
    by rewrite decide_True by (by apply page_bytes_full).
Qed.

(** [PageOut] up to the allocator: the page is in the backing file. *)
Lemma PageOut_saves sp s tab i e :
  vm_ok sp s tab → tab !! i = Some e → valid e = true →
  ∃ s', (∃ mm', PageOut (backing sp) (pageTable sp) (Z.of_nat i) s = Ret (with_memmanage mm' s') ∧
           fa_wf mm' ∧ fa_total mm' = NumPhysPages ∧
           fa_used mm' = fa_used (memmanage s) ∖ {[physicalPage e]}) ∧
    mach s' = mach (put_table sp (<[i := set_valid false e]> tab) s) ∧
    piece sp s' i = frame s (physicalPage e) ∧
    (∀ j, j ≠ i → length (piece sp s j) = 128%nat → piece sp s' j = piece sp s j) ∧
    same_files (files s) (files s') ∧
    (∀ fd, fd ≠ file (bs_file (backing sp)) → content (files s') fd = content (files s) fd).
Proof.
  intros Hok E Hv. destruct (vo_entry _ _ _ Hok i e E) as [Evp Hp]. destruct (Hp Hv) as [Hr Hu].
  destruct (vo_frames _ _ _ Hok) as [Hwf Ht].
  destruct (fa_FreePage_spec (memmanage s) (physicalPage e) Hwf) as (mm' & Efree & Hwf' & Ht' & Hu'); [by rewrite Ht|].
  rewrite Ht in Ht'. destruct (frame_bytes sp s tab (physicalPage e) Hok Hr) as [Emem Hlen].
  pose proof (page_address _ _ _ _ _ Hok E) as Hpa.
  unfold PageOut. rewrite (modify_ok sp s tab i e) by (done || apply Hok). cbn [mbind outcome_bind].
  rewrite (entry_ok sp _ _ i (set_valid false e) (put_table_lookup sp s _))
    by (apply list_lookup_insert_eq; by eapply lookup_lt_Some).
  cbn [mbind outcome_bind dirty set_valid physicalPage virtualPage]. destruct (dirty e) eqn:Hd.
  - change (memory_bytes (mach (put_table sp (<[i:=set_valid false e]> tab) s)))
      with (memory_bytes (mach s)). rewrite Emem. cbn [mbind outcome_bind].
    unfold WriteAt, Lseek. rewrite Hpa, ASSERT_true by (apply Z.leb_le; lia). cbn [mbind outcome_bind].
    rewrite in_range_true by (rewrite Hlen; change PageSize with 128; lia). cbn [defined_if mbind outcome_bind].
    change (Z.to_nat PageSize) with 128%nat. rewrite take_ge by lia.
    cbn [memmanage with_files count_out put_table with_mach fst]. rewrite Efree. cbn [mbind outcome_bind].
    eexists. split; [by exists mm'|]. split; [done|].
    match goal with |- context [piece sp ?s' i] => destruct (piece_write sp s i _ s' Hlen eq_refl) as [H1 H2] end.
    split_and!; [exact H1|exact H2| |].
    { split; [done|]. intros fd Hfd. cbn. rewrite lookup_insert. by case_decide. }
    intros fd Hfd. cbn. unfold WriteFile.
    by rewrite content_set, decide_False.
  - cbn [mbind outcome_bind memmanage put_table with_mach]. rewrite Efree. cbn [mbind outcome_bind].
    eexists. split; [by exists mm'|]. split_and!; try done. by apply (vo_clean _ _ _ Hok).
Qed.


(** [PageOut] of a valid page: the page moves to the backing file and its frame is free. *)
Lemma PageOut_ok sp s tab i e :
  vm_ok sp s tab → tab !! i = Some e → valid e = true →
  ∃ s', PageOut (backing sp) (pageTable sp) (Z.of_nat i) s = Ret s' ∧
    let tab' := <[i := set_valid false e]> tab in
    vm_ok sp s' tab' ∧ quiet sp s tab s' ∧
    (∀ j c, holds sp s tab j c → holds sp s' tab' j c) ∧
    (∀ j, j ≠ i → length (piece sp s j) = 128%nat → piece sp s' j = piece sp s j) ∧
    fa_used (memmanage s') = fa_used (memmanage s) ∖ {[physicalPage e]}.
Proof.
  intros Hok E Hv. destruct (vo_entry _ _ _ Hok i e E) as [Evp Hp]. destruct (Hp Hv) as [Hr Hu].
  destruct (PageOut_saves sp s tab i e Hok E Hv) as (s' & (mm' & -> & Hwf & Htot & Hused) & Emach & Ei & Ej & En & Ef).
  exists (with_memmanage mm' s'). split; [done|]. cbn zeta.
  set (tab' := <[i := set_valid false e]> tab) in *.
  assert (∀ f, frame (with_memmanage mm' s') f = frame s f) as Hframe by (intros f; unfold frame; cbn; by rewrite Emach).
  assert (∀ j, piece sp (with_memmanage mm' s') j = piece sp s' j) as Hpiece by done.
  assert (∀ j ej, tab' !! j = Some ej → valid ej = true → j ≠ i ∧ tab !! j = Some ej) as Hother.
  { intros j ej Ejj Hvj. apply list_lookup_insert_Some in Ejj as [(-> & <- & _)|[Hne Ejj]]; [done|]. done. }
  destruct (frame_bytes sp s tab (physicalPage e) Hok Hr) as [_ Hlen].
  split_and!.
  - split; try apply Hok; try done.
    + cbn. rewrite Emach. apply put_table_lookup.
    + unfold tab'. rewrite length_insert. apply Hok.
    + cbn. rewrite Emach. apply Hok.
    + intros j ej Ejj. split.
      * apply list_lookup_insert_Some in Ejj as [(-> & <- & _)|[_ Ejj]]; [done|]. by apply (vo_entry _ _ _ Hok).
      * intros Hvj. destruct (Hother j ej Ejj Hvj) as [Hne Eo]. destruct (vo_entry _ _ _ Hok j ej Eo) as [_ Hj].
        destruct (Hj Hvj) as [Hrj Huj]. split; [done|]. cbn. rewrite Hused. apply elem_of_difference.
        split; [done|]. rewrite elem_of_singleton. intros Heq. by apply Hne, (vo_distinct _ _ _ Hok j i ej e).
    + intros j k ej ek Ej1 Ek1 Hvj Hvk. destruct (Hother j ej Ej1 Hvj), (Hother k ek Ek1 Hvk).
      by apply (vo_distinct _ _ _ Hok j k ej ek).
    + intros j ej Ejj Hvj Hdj. destruct (Hother j ej Ejj Hvj) as [Hne Eo]. rewrite Hframe, Hpiece.
      pose proof (vo_clean _ _ _ Hok j ej Eo Hvj Hdj) as Hc. rewrite Ej; [done..|]. rewrite Hc.
      by apply (frame_bytes sp s tab _ Hok), (vo_entry _ _ _ Hok j ej Eo).
  - split; try done.
    + intros q [Hq1 Hq2]. rewrite Hframe. split; [|done]. cbn. rewrite Hused. apply elem_of_difference.
      split; [done|]. rewrite elem_of_singleton. intros ->. by apply (Hq2 i e E).
    + intros t Ht. cbn. rewrite Emach. cbn. by rewrite lookup_insert_ne.
    + cbn. by rewrite Emach.
  - intros j c (Hc & ej & Eej & Hloc). split; [done|]. destruct (decide (j = i)) as [->|Hne].
    + rewrite E in Eej. injection Eej as <-. rewrite Hv in Hloc. exists (set_valid false e).
      split; [by apply list_lookup_insert_eq; eapply lookup_lt_Some|]. cbn [valid set_valid physicalPage]. split; [lia|]. rewrite Hpiece. congruence.
    + exists ej. split; [by unfold tab'; rewrite list_lookup_insert_ne|]. rewrite Hframe, Hpiece.
      destruct (valid ej); [done|]. destruct Hloc as [? <-]. split; [done|]. by apply Ej.
  - done.
  - cbn. by rewrite Hused.
Qed.


(** *** The clock *)
Lemma same_page_refl e : same_page e e.
Proof. done. Qed.

Lemma same_pages_refl tab : Forall2 same_page tab tab.
Proof. apply Forall_Forall2_diag, Forall_true. intros. apply same_page_refl. Qed.

Lemma same_pages_insert tab tab1 k e1 e2 :
  Forall2 same_page tab tab1 → tab1 !! k = Some e1 → same_page e1 e2 → Forall2 same_page tab (<[k := e2]> tab1).
Proof.
  intros H2 E (H3 & H4 & H5 & H6). destruct (Forall2_lookup_r _ _ _ _ _ H2 E) as (e & Ee & G1 & G2 & G3 & G4).
  rewrite <- (list_insert_id tab k e) by done. apply Forall2_insert; [done|].
  split_and!; try congruence. intros Hv Hd. apply H6; [congruence|]. by apply G4.
Qed.

Lemma vm_ok_clock sp s tab c : vm_ok sp s tab → 0 ≤ c < numPages sp → vm_ok (with_clock c sp) s tab.
Proof. intros Hok Hc. by split; try apply Hok. Qed.

(** What [ClearPage] achieves: one page moved to the backing file. *)
Record cleared sp s tab (c : Z) (s' : Sys) tab' : Prop := {
  cl_ok : vm_ok (with_clock c sp) s' tab';
  cl_quiet : quiet sp s tab s';
  cl_holds j d : holds sp s tab j d → holds sp s' tab' j d;
  cl_pieces j e : tab !! j = Some e → valid e = false → length (piece sp s j) = 128%nat →
    piece sp s' j = piece sp s j;
  cl_entries : Forall2 (λ e e', virtualPage e' = virtualPage e ∧ physicalPage e' = physicalPage e ∧
    (valid e' = true → valid e = true)) tab tab';
  cl_frame : ∃ i e, tab !! i = Some e ∧ valid e = true ∧
    fa_used (memmanage s') = fa_used (memmanage s) ∖ {[physicalPage e]} }.

(** How far the clock is from page [v], counting a second round when it is in use. *)
Definition clock_distance sp (v : nat) (st : Z * Sys (M := M)) : nat :=
  let '(clock, s) := st in
  Z.to_nat (if clock <=? Z.of_nat v then Z.of_nat v - clock else Z.of_nat v - clock + numPages sp) +
  match tables (mach s) !! pageTable sp ≫= (λ tab, tab !! v) with
  | Some e => if use e then Z.to_nat (numPages sp) else 0
  | None => 0
  end.

Lemma ClearPage_turn sp s tab v ev clock tab1 :
  vm_ok sp s tab → tab !! v = Some ev → valid ev = true → 0 ≤ clock < numPages sp →
  Forall2 same_page tab tab1 →
  ∃ r, ClearPage_body use_fifo sp (clock, put_table sp tab1 s) = Ret r ∧
    match r with
    | inl st => (∃ tab2, st.2 = put_table sp tab2 s ∧ Forall2 same_page tab tab2 ∧ 0 ≤ st.1 < numPages sp) ∧
        (clock_distance sp v st < clock_distance sp v (clock, put_table sp tab1 s))%nat
    | inr (c, s') => ∃ tab', cleared sp s tab c s' tab'
    end.
Proof.
  intros Hok Ev Hv Hc H2. pose proof (vm_ok_same sp s tab tab1 Hok H2) as Hok1.
  pose proof (vo_len _ _ _ Hok1) as Hl1. destruct (vo_pages _ _ _ Hok) as [Hn Hmax]. change PageSize with 128 in Hmax.
  destruct (lookup_lt_is_Some_2 tab1 (Z.to_nat clock)) as [e Ee]; [lia|].
  unfold ClearPage_body. rewrite <- (Z2Nat.id clock) by lia. set (k := Z.to_nat clock) in *.
  rewrite (entry_ok sp _ tab1 k e) by (done || apply Hok1). cbn [mbind outcome_bind].
  destruct (valid e && (negb (use e) || use_fifo) && (0 <=? physicalPage e)) eqn:Hcond.
  - apply andb_true_iff in Hcond as [[Hve _]%andb_true_iff _].
    destruct (PageOut_ok sp _ tab1 k e Hok1 Ee Hve) as (s' & -> & Hok' & Hq & Hh & Hp & Hu).
    cbn [mbind outcome_bind]. eexists. split; [reflexivity|]. exists (<[k := set_valid false e]> tab1).
    destruct (Forall2_lookup_r _ _ _ _ _ H2 Ee) as (e0 & Ee0 & G1 & G2 & G3 & _). split.
    + apply vm_ok_clock; [done|lia].
    + eapply (quiet_paging_trans sp s tab (put_table sp tab1 s) tab1); [apply quiet_table| |exact Hq].
      intros q [Hq1 Hq2]. split; [done|]. intros j ej Ej. destruct (Forall2_lookup_r _ _ _ _ _ H2 Ej) as (e1 & E1 & _ & -> & -> & _).
      by apply (Hq2 j).
    + intros j d Hd. apply Hh. by apply (holds_same sp s tab).
    + intros j ej Ej Hvj Hlj. apply (Hp j); [|done]. intros ->. rewrite Ee0 in Ej. injection Ej as ->. congruence.
    + rewrite <- (list_insert_id tab k e0) by done. apply Forall2_insert.
      * eapply Forall2_impl; [exact H2|]. intros x y (-> & -> & -> & _). done.
      * cbn. by split_and!.
    + exists k, e0. split_and!; [done|congruence|]. by rewrite Hu, G2.
  - rewrite (modify_ok sp _ tab1 k e) by (done || apply Hok1). cbn [mbind outcome_bind].
    eexists. split; [reflexivity|]. rewrite put_table_twice. cbn [fst snd].
    assert (0 ≤ u32 (Z.of_nat k + 1) mod numPages sp < numPages sp) as Hm by (apply Z.mod_pos_bound; lia).
    split; [exists (<[k := set_use false e]> tab1); split_and!; [done| |lia..]|].
    { eapply same_pages_insert; done. }
    unfold clock_distance. rewrite !put_table_lookup. cbn [mbind option_bind].
    rewrite u32_small by (unfold is_u32; lia).
    destruct (lookup_lt_is_Some_2 tab1 v) as [e1 Ee1].
    { rewrite <- (Forall2_length _ _ _ H2). by eapply lookup_lt_Some. }
    pose proof (lookup_lt_Some _ _ _ Ee1) as Hlv. rewrite Ee1.
    destruct (decide (k = v)) as [->|Hne].
    + rewrite list_lookup_insert_eq by done. cbn [use set_use]. rewrite Ee1 in Ee. injection Ee as ->.
      destruct (Forall2_lookup_r _ _ _ _ _ H2 Ee1) as (e0 & Ee0 & _ & G2 & G3 & _). rewrite Ev in Ee0. injection Ee0 as <-.
      destruct (vo_entry _ _ _ Hok1 v e Ee1) as [_ Hpv].
      assert (valid e = true) as Hve by congruence. destruct (Hpv Hve) as [Hr _].
      rewrite Hve, (proj2 (Z.leb_le _ _)) in Hcond by lia. destruct (use e); [|done].
      rewrite Z.leb_refl. destruct (Z.leb_spec ((Z.of_nat v + 1) mod numPages sp) (Z.of_nat v)) as [Hle|Hgt].
      * destruct (decide (Z.of_nat v + 1 = numPages sp)) as [Hend|Hend].
        -- rewrite Hend, Z_mod_same_full. lia.
        -- rewrite Z.mod_small in Hle by lia. lia.
      * destruct (decide (Z.of_nat v + 1 = numPages sp)) as [Hend|Hend].
        -- rewrite Hend, Z_mod_same_full in Hgt. lia.
        -- rewrite Z.mod_small by lia. lia.
    + rewrite list_lookup_insert_ne, Ee1 by done. apply Nat.add_lt_mono_r.
      destruct (decide (Z.of_nat k + 1 = numPages sp)) as [Hend|Hend].
      * rewrite Hend, Z_mod_same_full. rewrite (proj2 (Z.leb_le 0 _)) by lia.
        rewrite (proj2 (Z.leb_gt _ _)) by lia. lia.
      * rewrite Z.mod_small by lia.
        destruct (Z.leb_spec (Z.of_nat k) (Z.of_nat v)), (Z.leb_spec (Z.of_nat k + 1) (Z.of_nat v)); lia.
Qed.

Lemma ClearPage_ok fuel sp s tab v ev :
  vm_ok sp s tab → tab !! v = Some ev → valid ev = true → (2 * length tab ≤ fuel)%nat →
  ∃ c s' tab', ClearPage use_fifo fuel sp s = Ret (with_clock c sp, s') ∧ cleared sp s tab c s' tab'.
Proof.
  intros Hok Ev Hv Hf. unfold ClearPage. pose proof (vo_clock _ _ _ Hok) as Hc. pose proof (vo_len _ _ _ Hok) as Hl.
  destruct (loop_total (ClearPage_body use_fifo sp)
    (λ st, ∃ tab1, st.2 = put_table sp tab1 s ∧ Forall2 same_page tab tab1 ∧ 0 ≤ st.1 < numPages sp)
    (λ r, ∃ tab', cleared sp s tab r.1 r.2 tab')
    (clock_distance sp v) fuel (clock_hand sp, s)) as ([c s'] & -> & tab' & Hcl).
  - intros [clock s1] (tab1 & Es & H2 & Hcl). cbn in Es, Hcl. subst s1.
    destruct (ClearPage_turn sp s tab v ev clock tab1 Hok Ev Hv Hcl H2) as (r & Er & Hr).
    exists r. split; [done|]. by destruct r as [st|[c s']].
  - exists tab. cbn. rewrite put_table_same by apply Hok. split_and!; [done|apply same_pages_refl|lia..].
  - unfold clock_distance. rewrite (vo_tab _ _ _ Hok). cbn. rewrite Ev. apply lookup_lt_Some in Ev.
    destruct (use ev); destruct (Z.leb_spec (clock_hand sp) (Z.of_nat v)); lia.
  - cbn [mbind outcome_bind]. by exists c, s', tab'.
Qed.

(** Without a page of its own in memory, the address space looks for one for ever. *)
Lemma ClearPage_stuck fuel sp s tab :
  vm_ok sp s tab → (∀ i e, tab !! i = Some e → valid e = false) → ClearPage use_fifo fuel sp s = OutOfFuel.
Proof.
  intros Hok Hnone. unfold ClearPage.
  assert (∀ fuel clock tab1, 0 ≤ clock < numPages sp → Forall2 same_page tab tab1 →
    loop (ClearPage_body use_fifo sp) fuel (clock, put_table sp tab1 s) = OutOfFuel) as Hloop.
  { clear fuel. intros fuel. induction fuel as [|fuel IH]; intros clock tab1 Hc H2; [done|].
    pose proof (vm_ok_same sp s tab tab1 Hok H2) as Hok1. pose proof (vo_len _ _ _ Hok1) as Hl1.
    destruct (vo_pages _ _ _ Hok) as [Hn _].
    destruct (Z_of_nat_complete clock) as [j ->]; [lia|].
    destruct (lookup_lt_is_Some_2 tab1 j) as [e Ee]; [lia|].
    destruct (Forall2_lookup_r _ _ _ _ _ H2 Ee) as (e0 & Ee0 & _ & _ & Ev & _).
    assert (valid e = false) as Hv by (rewrite Ev; by eapply Hnone).
    rewrite (loop_step _ _ _ (u32 (Z.of_nat j + 1) mod numPages sp,
      put_table sp (<[j := set_use false e]> tab1) s)).
    - apply IH; [apply Z.mod_pos_bound; lia|]. by eapply same_pages_insert.
    - unfold ClearPage_body. rewrite (entry_ok sp _ tab1 j e) by (done || apply Hok1).
      cbn [mbind outcome_bind]. rewrite Hv. cbn [andb].
      rewrite (modify_ok sp _ tab1 j e) by (done || apply Hok1). cbn [mbind outcome_bind].
      by rewrite put_table_twice. }
  rewrite <- (put_table_same sp s tab) by apply Hok.
  rewrite Hloop; [done|apply Hok|apply same_pages_refl].
Qed.


(** *** A frame for page [p] *)
Lemma vm_ok_invalid sp s tab p e e' :
  vm_ok sp s tab → tab !! p = Some e → valid e' = false → virtualPage e' = virtualPage e →
  vm_ok sp (put_table sp (<[p := e']> tab) s) (<[p := e']> tab).
Proof.
  intros Hok E Hv' Hp.
  assert (∀ j ej, <[p := e']> tab !! j = Some ej → valid ej = true → tab !! j = Some ej) as Hother.
  { intros j ej Ej Hvj. apply list_lookup_insert_Some in Ej as [(-> & <- & _)|[_ Ej]]; congruence. }
  split; try apply Hok.
  - apply put_table_lookup.
  - rewrite length_insert. apply Hok.
  - intros j ej Ej. split.
    + apply list_lookup_insert_Some in Ej as [(-> & <- & _)|[_ Ej]]; [rewrite Hp|]; by apply (vo_entry _ _ _ Hok).
    + intros Hvj. by apply (vo_entry _ _ _ Hok j ej (Hother j ej Ej Hvj)).
  - intros j k ej ek Ej Ek Hvj Hvk. apply (vo_distinct _ _ _ Hok); auto.
  - intros j ej Ej Hvj. apply (vo_clean _ _ _ Hok); auto.
Qed.

Lemma holds_other sp s tab p e' j c :
  j ≠ p → holds sp s tab j c → holds sp (put_table sp (<[p := e']> tab) s) (<[p := e']> tab) j c.
Proof.
  intros Hne (Hl & e & E & Hc). split; [done|]. exists e. split; [by rewrite list_lookup_insert_ne|done].
Qed.

(** Page [p] owns frame [f] and is not yet valid. *)
Record got_frame sp s tab (p : nat) sp' s' tab' (f : Z) : Prop := {
  gt_space : ∃ c, sp' = with_clock c sp;
  gt_ok : vm_ok sp' s' tab';
  gt_entry : ∃ e', tab' !! p = Some e' ∧ valid e' = false ∧ physicalPage e' = f;
  gt_range : 0 ≤ f < NumPhysPages ∧ f ∈ fa_used (memmanage s');
  gt_own j ej : tab' !! j = Some ej → valid ej = true → physicalPage ej ≠ f;
  gt_not_foreign : ¬ foreign s tab f;
  gt_quiet : quiet sp s tab s';
  gt_foreign q : foreign s tab q → foreign s' tab' q;
  gt_holds j c : j ≠ p → holds sp s tab j c → holds sp s' tab' j c;
  gt_piece : length (piece sp s p) = 128%nat → piece sp s' p = piece sp s p;
  gt_loaded j ej : j ≠ p → tab' !! j = Some ej → ∃ e, tab !! j = Some e ∧ physicalPage ej = physicalPage e }.

Lemma with_memmanage_ok sp s tab mm f :
  vm_ok sp s tab → fa_wf mm → fa_total mm = NumPhysPages → fa_used mm = {[f]} ∪ fa_used (memmanage s) →
  vm_ok sp (with_memmanage mm s) tab.
Proof.
  intros Hok Hwf Ht Hu. split; try apply Hok; [done|]. intros i e E. split; [by apply (vo_entry _ _ _ Hok)|].
  intros Hv. destruct (vo_entry _ _ _ Hok i e E) as [_ Hp]. destruct (Hp Hv) as [Hr Hin]. split; [done|].
  cbn. rewrite Hu. set_solver.
Qed.

Lemma alloc_for_ok sp s tab p e :
  vm_ok sp s tab → tab !! p = Some e → valid e = false →
  (∃ f s' tab', alloc_for sp (Z.of_nat p) s = Ret (s', f) ∧ got_frame sp s tab p sp s' tab' f) ∨
  (alloc_for sp (Z.of_nat p) s = Ret (put_table sp (<[p := set_physicalPage (-1) e]> tab) s, -1) ∧
   ∀ f, 0 ≤ f < NumPhysPages → f ∈ fa_used (memmanage s)).
Proof.
  intros Hok E Hv. destruct (vo_frames _ _ _ Hok) as [Hwf Ht]. unfold alloc_for.
  destruct (fa_AllocPage_spec (memmanage s) Hwf) as [(mm & f & -> & Hwf' & Ht' & Hf & Hnew & Hused & _)|[-> Hall]].
  - left. cbn [mbind outcome_bind]. rewrite (modify_ok sp _ tab p e) by (done || apply Hok). cbn [mbind outcome_bind].
    exists f. do 2 eexists. split; [reflexivity|]. rewrite Ht in *.
    pose proof (with_memmanage_ok sp s tab mm f Hok Hwf' Ht' Hused) as Hok'.
    assert (∀ j ej, <[p := set_physicalPage f e]> tab !! j = Some ej → valid ej = true → tab !! j = Some ej) as Hother.
    { intros j ej Ej Hvj. apply list_lookup_insert_Some in Ej as [(-> & <- & _)|[_ Ej]]; [|done].
      cbn in Hvj. congruence. }
    split.
    + exists (clock_hand sp). by destruct sp.
    + by eapply vm_ok_invalid.
    + exists (set_physicalPage f e). split; [by apply list_lookup_insert_eq; eapply lookup_lt_Some|done].
    + split; [done|]. cbn. rewrite Hused. set_solver.
    + intros j ej Ej Hvj Heq. apply Hnew. rewrite <- Heq. apply (vo_entry _ _ _ Hok j ej); [by apply Hother|done].
    + intros [Hq _]. done.
    + eapply (quiet_paging_trans _ _ _ (with_memmanage mm s) tab); [| |apply quiet_table].
      2: { intros q [Hq1 Hq2]. split; [cbn; rewrite Hused; set_solver|done]. }
      split; try done. intros q [Hq _]. split; [|done]. cbn. rewrite Hused. set_solver.
    + intros q [Hq1 Hq2]. split; [cbn; rewrite Hused; set_solver|]. intros j ej Ej Hvj. apply (Hq2 j); auto.
    + intros j c Hne Hc. by apply (holds_other sp (with_memmanage mm s)).
    + done.
    + intros j ej Hne Ej. rewrite list_lookup_insert_ne in Ej by done. by exists ej.
  - right. cbn [mbind outcome_bind]. replace (with_memmanage (memmanage s) s) with s by (by destruct s).
    rewrite (modify_ok sp _ tab p e) by (done || apply Hok). by rewrite Ht in Hall.
Qed.

(** [AllocPage], and if that fails [ClearPage] and [AllocPage] again. *)
Lemma get_frame fuel sp s tab p e :
  vm_ok sp s tab → tab !! p = Some e → valid e = false → (2 * length tab ≤ fuel)%nat →
  (∃ f, 0 ≤ f < NumPhysPages ∧ f ∉ fa_used (memmanage s)) ∨
    (∃ v ev, tab !! v = Some ev ∧ valid ev = true) →
  (∃ f s' tab', alloc_for sp (Z.of_nat p) s = Ret (s', f) ∧ got_frame sp s tab p sp s' tab' f) ∨
  (∃ s1 sp2 s2 f s' tab', alloc_for sp (Z.of_nat p) s = Ret (s1, -1) ∧
     ClearPage use_fifo fuel sp s1 = Ret (sp2, s2) ∧ alloc_for sp2 (Z.of_nat p) s2 = Ret (s', f) ∧
     got_frame sp s tab p sp2 s' tab' f).
Proof.
  intros Hok E Hv Hfuel Hroom. destruct (alloc_for_ok sp s tab p e Hok E Hv) as [?|[Ea Hall]]; [by left|right].
  destruct Hroom as [(f & Hf & Hn)|(v & ev & Ev & Hvv)]; [by destruct Hn; apply Hall|].
  assert (v ≠ p) as Hvp by (intros ->; congruence).
  set (e1 := set_physicalPage (-1) e) in *. set (tab1 := <[p := e1]> tab) in *. set (s1 := put_table sp tab1 s) in *.
  assert (vm_ok sp s1 tab1) as Hok1 by (by apply (vm_ok_invalid sp s tab p e e1)).
  assert (tab1 !! p = Some e1) as E1 by (by apply list_lookup_insert_eq; eapply lookup_lt_Some).
  destruct (ClearPage_ok fuel sp s1 tab1 v ev Hok1) as (c & s2 & tab2 & Ec & Hcl).
  { unfold tab1. by rewrite list_lookup_insert_ne. } { done. } { unfold tab1. by rewrite length_insert. }
  destruct Hcl as [Hok2 Hq2 Hh2 Hp2 He2 (i & ei & Ei & Hvi & Hu2)].
  destruct (Forall2_lookup_l _ _ _ _ _ He2 E1) as (e2 & E2 & _ & _ & Hve2).
  assert (valid e2 = false) as Hv2.
  { destruct (valid e2); [|done]. specialize (Hve2 eq_refl). cbn in Hve2. congruence. }
  assert (i ≠ p ∧ tab !! i = Some ei) as [Hip Ei0].
  { unfold tab1 in Ei. apply list_lookup_insert_Some in Ei as [(-> & <- & _)|[? ?]]; [|done]. cbn in Hvi. congruence. }
  destruct (vo_entry _ _ _ Hok i ei Ei0) as [_ Hpi]. destruct (Hpi Hvi) as [Hri Hui].
  assert (∀ q, foreign s tab q → foreign s2 tab2 q) as Hfor.
  { intros q [Hq1 Hq3]. split.
    - rewrite Hu2. apply elem_of_difference. split; [done|]. rewrite elem_of_singleton. intros ->. by apply (Hq3 i ei).
    - intros j ej Ej Hvj. destruct (Forall2_lookup_r _ _ _ _ _ He2 Ej) as (e0 & Ee0 & _ & -> & Hb).
      unfold tab1 in Ee0. apply list_lookup_insert_Some in Ee0 as [(-> & <- & _)|[_ Ee0]].
      + specialize (Hb Hvj). cbn in Hb. congruence.
      + apply (Hq3 j e0 Ee0). by apply Hb. }
  assert (quiet sp s tab s2) as Hquiet.
  { eapply (quiet_paging_trans _ _ _ s1 tab1); [apply quiet_table| |exact Hq2]. intros q [Hq1 Hq3]. split; [done|].
    intros j ej Ej Hvj. unfold tab1 in Ej. apply list_lookup_insert_Some in Ej as [(-> & <- & _)|[_ Ej]]; [|by apply (Hq3 j)].
    cbn in Hvj. congruence. }
  destruct (alloc_for_ok (with_clock c sp) s2 tab2 p e2 Hok2 E2 Hv2) as [(f & s3 & tab3 & Ea3 & Hg)|[_ Hall2]].
  2: { exfalso. specialize (Hall2 (physicalPage ei) Hri). rewrite Hu2 in Hall2. set_solver. }
  exists s1, (with_clock c sp), s2, f, s3, tab3. split_and!; [done..|].
  destruct Hg as [G1 G2 G3 G4 G5 G6 G7 G8 G9 G10 G11]. split; try done.
  - intros Hf. apply G6. by apply Hfor.
  - eapply quiet_paging_trans; [exact Hquiet|exact Hfor|]. split; apply G7.
  - intros q Hq. by apply G8, Hfor.
  - intros j d Hne Hd. apply (G9 j d Hne). apply Hh2. by apply holds_other.
  - intros Hl. assert (piece sp s2 p = piece sp s p) as Hps by (by apply (Hp2 p e1 E1)).
    rewrite <- Hps. apply G10. change (length (piece sp s2 p) = 128%nat). by rewrite Hps.
  - intros j ej Hne Ej. destruct (G11 j ej Hne Ej) as (e3 & E3 & ->).
    destruct (Forall2_lookup_r _ _ _ _ _ He2 E3) as (e4 & E4 & _ & -> & _).
    unfold tab1 in E4. rewrite list_lookup_insert_ne in E4 by done. by exists e4.
Qed.


(** *** Filling the frame *)
Definition filled (f : Z) (bs : list Z) s : Sys :=
  with_mach (with_memory (mach s) (blit (mainMemory (mach s)) (128 * Z.to_nat f) bs)) s.

Lemma fill_memory_ok f bs s :
  length (mainMemory (mach s)) = Z.to_nat MemorySize → 0 ≤ f < NumPhysPages → (length bs ≤ 128)%nat →
  fill_memory (f * PageSize) bs s = Ret (filled f bs s).
Proof.
  intros Hm Hf Hl. change (Z.to_nat MemorySize) with 512%nat in Hm. change NumPhysPages with 4 in Hf.
  change PageSize with 128. unfold fill_memory, store_bytes. rewrite in_range_true by lia.
  cbn [mbind outcome_bind]. unfold filled, blit. by replace (Z.to_nat (f * 128)) with (128 * Z.to_nat f)%nat by lia.
Qed.

Lemma frame_filled f bs s q :
  length (mainMemory (mach s)) = Z.to_nat MemorySize → 0 ≤ f < NumPhysPages → (length bs ≤ 128)%nat → 0 ≤ q →
  frame (filled f bs s) q = if decide (q = f) then bs ++ drop (length bs) (frame s f) else frame s q.
Proof.
  intros Hm Hf Hl Hq. change (Z.to_nat MemorySize) with 512%nat in Hm. change NumPhysPages with 4 in Hf.
  unfold frame. cbn. case_decide as Hqf; [subst q; apply page_bytes_blit_same; lia|].
  apply page_bytes_blit; lia.
Qed.

(** Frame [f] is filled and page [p] becomes valid. *)
Lemma finish_page sp s tab p e e' f bs :
  vm_ok sp s tab → tab !! p = Some e → valid e = false →
  0 ≤ f < NumPhysPages → f ∈ fa_used (memmanage s) →
  (∀ j ej, tab !! j = Some ej → valid ej = true → physicalPage ej ≠ f) → (length bs ≤ 128)%nat →
  virtualPage e' = virtualPage e → physicalPage e' = f → valid e' = true →
  (dirty e' = false → piece sp s p = bs ++ drop (length bs) (frame s f)) →
  let s' := put_table sp (<[p := e']> tab) (filled f bs s) in let tab' := <[p := e']> tab in
  vm_ok sp s' tab' ∧ holds sp s' tab' p (bs ++ drop (length bs) (frame s f)) ∧
  (∀ j c, j ≠ p → holds sp s tab j c → holds sp s' tab' j c) ∧
  (∀ q, q ≠ f → 0 ≤ q → frame s' q = frame s q).
Proof.
  intros Hok E Hv Hf Hfu Hown Hl Hvp Hpp Hv' Hdirty s' tab'. pose proof (vo_memory _ _ _ Hok) as Hm.
  assert (∀ q, 0 ≤ q → frame s' q = if decide (q = f) then bs ++ drop (length bs) (frame s f) else frame s q) as Hframe
    by (intros q Hq; by apply frame_filled).
  destruct (frame_bytes sp s tab f Hok Hf) as [_ Hfl].
  assert (∀ j ej, tab' !! j = Some ej → (j = p ∧ ej = e') ∨ (j ≠ p ∧ tab !! j = Some ej)) as Hcase.
  { intros j ej Ej. apply list_lookup_insert_Some in Ej as [(-> & <- & _)|[Hne Ej]]; auto. }
  assert (∀ j ej, tab !! j = Some ej → valid ej = true → frame s' (physicalPage ej) = frame s (physicalPage ej)) as Hsame.
  { intros j ej Ej Hvj. destruct (vo_entry _ _ _ Hok j ej Ej) as [_ Hpj]. destruct (Hpj Hvj) as [Hrj _].
    rewrite Hframe by lia. by rewrite decide_False by (by apply (Hown j ej)). }
  split_and!.
  - split; try apply Hok.
    + apply put_table_lookup.
    + unfold tab'. rewrite length_insert. apply Hok.
    + cbn. rewrite <- Hm. apply blit_length. change (Z.to_nat MemorySize) with 512%nat in Hm.
      change NumPhysPages with 4 in Hf. lia.
    + intros j ej Ej. destruct (Hcase j ej Ej) as [[-> ->]|[_ Ej']]; [|by apply (vo_entry _ _ _ Hok)].
      rewrite Hvp, Hpp. split; [by apply (vo_entry _ _ _ Hok)|done].
    + intros j k ej ek Ej Ek Hvj Hvk Heq. destruct (Hcase j ej Ej) as [[-> ->]|[Hj Ej']], (Hcase k ek Ek) as [[-> ->]|[Hk Ek']].
      * done.
      * destruct (Hown k ek Ek' Hvk). congruence.
      * destruct (Hown j ej Ej' Hvj). congruence.
      * by apply (vo_distinct _ _ _ Hok j k ej ek).
    + intros j ej Ej Hvj Hdj. change (piece sp s' j) with (piece sp s j).
      destruct (Hcase j ej Ej) as [[-> ->]|[_ Ej']].
      * rewrite Hpp, Hframe, decide_True by (done || lia). by apply Hdirty.
      * rewrite (Hsame j ej) by done. by apply (vo_clean _ _ _ Hok).
  - split; [rewrite length_app, length_drop; lia|]. exists e'.
    split; [by apply list_lookup_insert_eq; eapply lookup_lt_Some|].
    rewrite Hv', Hpp, Hframe by lia. by rewrite decide_True.
  - intros j c Hne (Hc & ej & Ej & Hloc). split; [done|]. exists ej. split; [by unfold tab'; rewrite list_lookup_insert_ne|].
    destruct (valid ej) eqn:Hvj; [|done]. by rewrite (Hsame j ej).
  - intros q Hne Hq. rewrite Hframe by done. by rewrite decide_False.
Qed.

(** The foreign frames survive the fill. *)
Lemma quiet_fill sp s0 tab0 p sp1 s tab e' f bs :
  got_frame sp s0 tab0 p sp1 s tab f → fa_wf (memmanage s0) → (length bs ≤ 128)%nat →
  quiet sp s0 tab0 (put_table sp1 (<[p := e']> tab) (filled f bs s)).
Proof.
  intros Hg Hwf Hl. destruct (gt_quiet _ _ _ _ _ _ _ _ Hg) as [Q1 Q2 Q3 Q4 Q5].
  destruct (gt_space _ _ _ _ _ _ _ _ Hg) as [c ->]. split; try done.
  - intros q Hq. destruct (Q1 q Hq) as [Hu Hfr]. split; [done|]. rewrite <- Hfr.
    destruct (gt_range _ _ _ _ _ _ _ _ Hg) as [Hf _].
    pose proof (fa_used_range _ _ Hwf (proj1 Hq)) as Hr.
    change (frame (filled f bs s) q = frame s q).
    rewrite frame_filled by (done || lia || apply Hg). rewrite decide_False; [done|].
    intros ->. by apply (gt_not_foreign _ _ _ _ _ _ _ _ Hg).
  - intros t Ht. cbn. rewrite lookup_insert_ne by done. by apply Q4.
Qed.

Lemma foreign_fill sp s0 tab0 p sp1 s tab e' f bs q :
  got_frame sp s0 tab0 p sp1 s tab f → physicalPage e' = f → foreign s0 tab0 q →
  foreign (put_table sp1 (<[p := e']> tab) (filled f bs s)) (<[p := e']> tab) q.
Proof.
  intros Hg Hf Hq. destruct (gt_foreign _ _ _ _ _ _ _ _ Hg q Hq) as [Hu Hother]. split; [exact Hu|].
  intros j ej [(-> & <- & _)|[_ Ej]]%list_lookup_insert_Some Hv; [|by apply (Hother j)].
  rewrite Hf. intros ->. by apply (gt_not_foreign _ _ _ _ _ _ _ _ Hg).
Qed.

(** *** The two kinds of page fault *)
Lemma vm_ok_count sp s tab : vm_ok sp s tab → vm_ok sp (count_in s) tab.
Proof. intros Hok. split; apply Hok. Qed.

Lemma piece_read sp s i pos :
  length (piece sp s i) = 128%nat → pos = Z.of_nat (128 * i) →
  ReadAt (bs_file (backing sp)) PageSize pos (files s) = Ret (piece sp s i).
Proof.
  intros Hl ->. unfold ReadAt, Lseek. rewrite ASSERT_true by (apply Z.leb_le; lia). cbn [mbind outcome_bind].
  unfold ReadPartial, piece, page_bytes, backing_bytes. by rewrite Nat2Z.id.
Qed.

Lemma PageIn_ok sp s tab p e f :
  vm_ok sp s tab → tab !! p = Some e → physicalPage e = f → 0 ≤ f < NumPhysPages →
  length (piece sp s p) = 128%nat →
  PageIn (backing sp) (pageTable sp) (Z.of_nat p) s =
    Ret (put_table sp (<[p := set_dirty false (set_valid true e)]> tab) (filled f (piece sp s p) (count_in s))).
Proof.
  intros Hok E Hp Hf Hl. pose proof (page_address _ _ _ _ _ Hok E) as Hpa. unfold PageIn.
  rewrite (modify_ok sp s tab p e) by (done || apply Hok). cbn [mbind outcome_bind].
  set (e1 := set_valid true e). set (s1 := count_in _).
  assert (tables (mach s1) !! pageTable sp = Some (<[p := e1]> tab)) as Et1 by apply lookup_insert_eq.
  assert (<[p := e1]> tab !! p = Some e1) as E1 by (by apply list_lookup_insert_eq; eapply lookup_lt_Some).
  rewrite (entry_ok sp s1 _ p e1) by done. cbn [mbind outcome_bind].
  change (virtualPage e1) with (virtualPage e). change (physicalPage e1) with (physicalPage e).
  change (files s1) with (files s). rewrite (piece_read sp s p) by done. cbn [mbind outcome_bind]. rewrite Hp.
  rewrite fill_memory_ok by (apply Hok || done || lia). cbn [mbind outcome_bind].
  rewrite (modify_ok sp _ (<[p := e1]> tab) p e1) by done.
  rewrite list_insert_insert_eq. f_equal.
  unfold put_table, filled, with_mach, with_tables, with_memory. cbn. by rewrite insert_insert_eq.
Qed.

Lemma got_frame_count sp s tab p sp1 s1 tab1 f :
  got_frame sp s tab p sp1 s1 tab1 f → got_frame sp s tab p sp1 (count_in s1) tab1 f.
Proof.
  intros Hg. split; try apply Hg; [by apply vm_ok_count; apply Hg|split; apply (gt_quiet _ _ _ _ _ _ _ _ Hg)].
Qed.

(** Everything a page fault leaves as it should be, with page [p] valid. *)
Record faulted sp s tab (p : nat) sp' s' tab' : Prop := {
  ft_space : ∃ c, sp' = with_clock c sp;
  ft_ok : vm_ok sp' s' tab';
  ft_valid : ∃ e', tab' !! p = Some e' ∧ valid e' = true;
  ft_holds j c : j ≠ p → holds sp s tab j c → holds sp s' tab' j c;
  ft_loaded j ej : j ≠ p → tab' !! j = Some ej → ∃ e, tab !! j = Some e ∧ physicalPage ej = physicalPage e;
  ft_quiet : quiet sp s tab s';
  ft_foreign q : foreign s tab q → foreign s' tab' q }.

Lemma loaded_entries (tab tab' : list TranslationEntry) p e' :
  (∀ j ej, j ≠ p → tab' !! j = Some ej → ∃ e, tab !! j = Some e ∧ physicalPage ej = physicalPage e) →
  ∀ j ej, j ≠ p → <[p := e']> tab' !! j = Some ej → ∃ e, tab !! j = Some e ∧ physicalPage ej = physicalPage e.
Proof. intros Hl j ej Hne Ej. rewrite list_lookup_insert_ne in Ej by done. by apply Hl. Qed.

Lemma page_in_faulted sp s tab p sp1 s1 tab1 f c :
  vm_ok sp s tab → got_frame sp s tab p sp1 s1 tab1 f → piece sp s p = c → length c = 128%nat →
  ∃ s' tab', PageIn (backing sp1) (pageTable sp1) (Z.of_nat p) s1 = Ret s' ∧
    faulted sp s tab p sp1 s' tab' ∧ holds sp s' tab' p c.
Proof.
  intros Hok Hg Hc Hl. pose proof Hg as [Gsp Gok (e1 & E1 & Ev1 & Ep1) [Gr Gu] Gown Gnf Gq Gf Gh Gp Gl].
  destruct Gsp as [clock ->].
  assert (piece sp s1 p = c) as Hpc by (by rewrite Gp by congruence).
  assert (length (piece (with_clock clock sp) s1 p) = 128%nat) as Hl1 by (change (length (piece sp s1 p) = 128%nat); congruence).
  rewrite (PageIn_ok _ s1 tab1 p e1 f) by done. do 2 eexists. split; [reflexivity|].
  change (piece (with_clock clock sp) s1 p) with (piece sp s1 p). rewrite Hpc.
  assert (drop (length c) (frame s1 f) = []) as Hd.
  { apply drop_ge. destruct (frame_bytes _ s1 tab1 f Gok Gr) as [_ ->]. lia. }
  destruct (finish_page (with_clock clock sp) (count_in s1) tab1 p e1 (set_dirty false (set_valid true e1)) f c)
    as (K1 & K2 & K3 & K4); try done; [by apply vm_ok_count|lia| |].
  { intros _. change (piece sp s1 p = c ++ drop (length c) (frame s1 f)). by rewrite Hd, app_nil_r. }
  split.
  - split; [by exists clock|exact K1| | | | |].
    + exists (set_dirty false (set_valid true e1)). split; [|done]. apply list_lookup_insert_eq. by eapply lookup_lt_Some.
    + intros j d Hne Hd'. apply (K3 j d Hne). by apply Gh.
    + by apply loaded_entries.
    + apply (quiet_fill sp s tab p (with_clock clock sp) (count_in s1) tab1); [|apply Hok|lia].
      by apply got_frame_count.
    + intros q. apply (foreign_fill sp s tab p (with_clock clock sp) (count_in s1) tab1); [|done].
      by apply got_frame_count.
  - change (frame (count_in s1) f) with (frame s1 f) in K2. rewrite Hd, app_nil_r in K2. exact K2.
Qed.

Lemma demandpage_again_ok fuel sp s tab p e c :
  vm_ok sp s tab → tab !! p = Some e → valid e = false → piece sp s p = c → length c = 128%nat →
  (2 * length tab ≤ fuel)%nat →
  (∃ f, 0 ≤ f < NumPhysPages ∧ f ∉ fa_used (memmanage s)) ∨ (∃ v ev, tab !! v = Some ev ∧ valid ev = true) →
  ∃ sp' s' tab', demandpage_again use_fifo fuel sp (Z.of_nat p) s = Ret (sp', s', true) ∧
    faulted sp s tab p sp' s' tab' ∧ holds sp s' tab' p c.
Proof.
  intros Hok E Hv Hc Hl Hfuel Hroom. unfold demandpage_again.
  rewrite (modify_ok sp s tab p e) by (done || apply Hok). cbn [mbind outcome_bind].
  replace (set_valid false e) with e by (destruct e; cbn in Hv; by subst).
  rewrite list_insert_id by done. rewrite put_table_same by apply Hok.
  destruct (get_frame fuel sp s tab p e Hok E Hv Hfuel Hroom)
    as [(f & s1 & tab1 & Ea & Hg)|(s1 & sp2 & s2 & f & s3 & tab3 & Ea & Ec & Ea2 & Hg)];
    rewrite Ea; cbn [mbind outcome_bind]; pose proof (gt_range _ _ _ _ _ _ _ _ Hg) as [Hr _];
    destruct (page_in_faulted sp s tab p _ _ _ f c Hok Hg Hc Hl) as (s' & tab' & Ep & Hft & Hh).
  - rewrite ltb_false by lia. cbn [mbind outcome_bind]. rewrite Ep. cbn [mbind outcome_bind]. by exists sp, s', tab'.
  - change (-1 <? 0) with true. cbn iota. rewrite Ec. cbn [mbind outcome_bind]. rewrite Ea2. cbn [mbind outcome_bind].
    rewrite ltb_false by lia. cbn [mbind outcome_bind]. rewrite Ep. cbn [mbind outcome_bind]. by exists sp2, s', tab'.
Qed.


(** The position in the file of the page at an address, an [int]. *)
Definition file_position (sg : Segment) (page_addr : Z) : Z :=
  s32 (inFileAddr sg + s32 (page_addr - virtualAddr sg)).

(** Where the executable has the page, if it has it. *)
Definition source (h : NoffHeader) (p : nat) : option Z :=
  let page_addr := Z.of_nat (128 * p) in
  if in_segment (code h) page_addr then Some (file_position (code h) page_addr)
  else if in_segment (initData h) page_addr then Some (file_position (initData h) page_addr)
  else None.

(** What is put at the start of the frame. *)
Definition first_bytes sp s (h : NoffHeader) (p : nat) : list Z :=
  match source h p with
  | Some pos => take 128 (drop (Z.to_nat pos) (content (files s) (file (stored_executable sp))))
  | None => replicate 128 0
  end.

Lemma first_bytes_length sp s h p : (length (first_bytes sp s h p) ≤ 128)%nat.
Proof. unfold first_bytes. destruct (source h p); [rewrite length_take|rewrite length_replicate]; lia. Qed.

Lemma load_segment_ok sp s sg p f :
  length (mainMemory (mach s)) = Z.to_nat MemorySize → 0 ≤ f < NumPhysPages → s32 (Z.of_nat p * PageSize) = Z.of_nat (128 * p) →
  let pos := file_position sg (Z.of_nat (128 * p)) in 0 ≤ pos →
  load_segment sp sg (Z.of_nat p) f s =
    Ret (filled f (take 128 (drop (Z.to_nat pos) (content (files s) (file (stored_executable sp))))) (count_in s)).
Proof.
  intros Hm Hf Hpa pos Hpos. unfold load_segment. rewrite Hpa. cbn zeta. fold (file_position sg (Z.of_nat (128 * p))). fold pos. unfold ReadAt, Lseek.
  rewrite ASSERT_true by (by apply Z.leb_le). cbn [mbind outcome_bind]. change (defined_if (0 <=? PageSize)) with (Ret ()).
  cbn [mbind outcome_bind]. unfold ReadPartial. change (Z.to_nat PageSize) with 128%nat.
  rewrite fill_memory_ok by (done || rewrite length_take; lia). done.
Qed.

(** The three-way choice of [demandpage]. *)
Lemma load_ok sp s h p f :
  length (mainMemory (mach s)) = Z.to_nat MemorySize → 0 ≤ f < NumPhysPages → s32 (Z.of_nat p * PageSize) = Z.of_nat (128 * p) →
  (∀ pos, source h p = Some pos → 0 ≤ pos) →
  ∃ s1, (s1 = s ∨ s1 = count_in s) ∧
    (if in_segment (code h) (s32 (Z.of_nat p * PageSize)) then load_segment sp (code h) (Z.of_nat p) f s
     else if in_segment (initData h) (s32 (Z.of_nat p * PageSize)) then load_segment sp (initData h) (Z.of_nat p) f s
     else fill_memory (f * PageSize) (replicate (Z.to_nat PageSize) 0) s) =
    Ret (filled f (first_bytes sp s h p) s1).
Proof.
  intros Hm Hf Hpa Hpos. rewrite Hpa. unfold first_bytes. unfold source in *.
  destruct (in_segment (code h) _); [|destruct (in_segment (initData h) _)].
  1,2: rewrite load_segment_ok by auto; exists (count_in s); auto.
  rewrite fill_memory_ok by (done || rewrite length_replicate; change (Z.to_nat PageSize) with 128%nat; lia).
  exists s. auto.
Qed.

Lemma load_faulted sp s tab p sp1 s1 tab1 f h :
  vm_ok sp s tab → got_frame sp s tab p sp1 s1 tab1 f → (p < length tab)%nat →
  file (stored_executable sp) ≠ file (bs_file (backing sp)) → (∀ pos, source h p = Some pos → 0 ≤ pos) →
  ∃ s2 s3 s' tab', 
    (if in_segment (code h) (s32 (Z.of_nat p * PageSize)) then load_segment sp1 (code h) (Z.of_nat p) f s1
     else if in_segment (initData h) (s32 (Z.of_nat p * PageSize)) then load_segment sp1 (initData h) (Z.of_nat p) f s1
     else fill_memory (f * PageSize) (replicate (Z.to_nat PageSize) 0) s1) = Ret s2 ∧
    modify (pageTable sp1) (Z.of_nat p) (set_dirty true) s2 = Ret s3 ∧
    modify (pageTable sp1) (Z.of_nat p) (set_valid true) s3 = Ret s' ∧
    faulted sp s tab p sp1 s' tab' ∧
    ∃ old, holds sp s' tab' p (first_bytes sp s h p ++ old).
Proof.
  intros Hok Hg Hp Hexe Hpos. pose proof Hg as [Gsp Gok (e1 & E1 & Ev1 & Ep1) [Gr Gu] Gown Gnf Gq Gf Gh Gp Gl].
  destruct Gsp as [clock ->]. pose proof (page_address _ _ _ _ _ Gok E1) as Hpa.
  destruct (vo_entry _ _ _ Gok p e1 E1) as [Evp _]. rewrite Evp in Hpa.
  destruct (load_ok (with_clock clock sp) s1 h p f) as (s2 & Hs2 & El); [apply Gok|done..|]. rewrite El.
  assert (got_frame sp s tab p (with_clock clock sp) s2 tab1 f) as Hg2
    by (destruct Hs2 as [-> | ->]; [done|by apply got_frame_count]).
  assert (first_bytes (with_clock clock sp) s1 h p = first_bytes sp s h p) as Hfb.
  { unfold first_bytes. destruct (source h p); [|done]. cbn [stored_executable with_clock].
    by rewrite (qu_files _ _ _ _ Gq). }
  rewrite Hfb. set (bs := first_bytes sp s h p) in *. pose proof (first_bytes_length sp s h p) as Hbl. fold bs in Hbl.
  pose proof Hg2 as [_ Gok2 (e2 & E2 & Ev2 & Ep2) _ _ _ _ _ Gh2 _ _]. rewrite E1 in E2. injection E2 as <-.
  assert (tables (mach (filled f bs s2)) !! pageTable sp = Some tab1) as Et2 by apply (vo_tab _ _ _ Gok2).
  assert (∀ e, <[p := e]> tab1 !! p = Some e) as Ein by (intros; by apply list_lookup_insert_eq; eapply lookup_lt_Some).
  do 4 eexists. split; [reflexivity|]. cbn [pageTable with_clock].
  split; [by apply (modify_ok sp _ tab1 p e1)|].
  split; [by apply (modify_ok sp _ (<[p := set_dirty true e1]> tab1) p); [apply put_table_lookup|]|].
  rewrite put_table_twice, list_insert_insert_eq.
  set (e' := set_valid true (set_dirty true e1)).
  destruct (finish_page (with_clock clock sp) s2 tab1 p e1 e' f bs) as (K1 & K2 & K3 & K4); try done; [apply Hg2..|].
  split; [|by eexists].
  split; [by exists clock|exact K1|by exists e'| | | |].
  - intros j d Hne Hd. apply (K3 j d Hne). by apply Gh2.
  - by apply loaded_entries.
  - apply (quiet_fill sp s tab p (with_clock clock sp) s2 tab1); [done|apply Hok|done].
  - intros q. by apply (foreign_fill sp s tab p (with_clock clock sp) s2 tab1).
Qed.

Lemma demandpage_first_ok fuel sp s tab p e junk h :
  vm_ok sp s tab → tab !! p = Some e → valid e = false → (2 * length tab ≤ fuel)%nat →
  file (stored_executable sp) ≠ file (bs_file (backing sp)) →
  read_noff big_endian (stored_executable sp) junk s = Ret h → (∀ pos, source h p = Some pos → 0 ≤ pos) →
  (∃ f, 0 ≤ f < NumPhysPages ∧ f ∉ fa_used (memmanage s)) ∨ (∃ v ev, tab !! v = Some ev ∧ valid ev = true) →
  ∃ sp' s' tab' old, demandpage_first big_endian use_fifo fuel sp (Z.of_nat p) junk s = Ret (sp', s', true) ∧
    faulted sp s tab p sp' s' tab' ∧ holds sp s' tab' p (first_bytes sp s h p ++ old).
Proof.
  intros Hok E Hv Hfuel Hexe Hh Hpos Hroom. unfold demandpage_first. rewrite Hh. cbn [mbind outcome_bind].
  pose proof (lookup_lt_Some _ _ _ E) as Hp.
  destruct (get_frame fuel sp s tab p e Hok E Hv Hfuel Hroom)
    as [(f & s1 & tab1 & Ea & Hg)|(s1 & sp2 & s2 & f & s3 & tab3 & Ea & Ec & Ea2 & Hg)];
    rewrite Ea; cbn [mbind outcome_bind]; pose proof (gt_range _ _ _ _ _ _ _ _ Hg) as [Hr _];
    destruct (load_faulted sp s tab p _ _ _ f h Hok Hg Hp Hexe Hpos) as (s4 & s5 & s' & tab' & El & Ed & Ev & Hft & old & Hc).
  - rewrite ltb_false by lia. cbn [mbind outcome_bind]. rewrite ltb_false by lia.
    rewrite El. cbn [mbind outcome_bind]. rewrite Ed. cbn [mbind outcome_bind]. rewrite Ev. cbn [mbind outcome_bind].
    by exists sp, s', tab', old.
  - change (-1 <? 0) with true. cbn iota. rewrite Ec. cbn [mbind outcome_bind]. rewrite Ea2. cbn [mbind outcome_bind].
    rewrite ltb_false by lia. rewrite El. cbn [mbind outcome_bind]. rewrite Ed. cbn [mbind outcome_bind].
    rewrite Ev. cbn [mbind outcome_bind]. by exists sp2, s', tab', old.
Qed.
End paging.
End Paging.
