(* ===== verification/FlatMemory.v ===== *)
(** * What virtual memory promises

    A user program sees each page of its address space as a fixed sequence of bytes that only its own
    stores change: [view].  Page faults, evictions and the hardware's loads and stores implement
    it. *)

From S2P Require Import Prelude CInt BitMap MemManage Machine UnixFile VirtMem Paging.
From stdpp Require Import pretty.
Import Machine.Machine UnixFile.UnixFile VirtMem.VirtMem Paging.Paging.

Open Scope Z_scope.

Module FlatMemory.
Section flat.
Context {M : Type} `{FrameAllocSpec M}.
Variable big_endian use_fifo : bool.
Implicit Types (s : Sys (M := M)) (sp : AddrSpace) (tab : list TranslationEntry).

(** The contents of page [i], if it was ever touched. *)
Definition view sp s tab (i : nat) : option (list Z) :=
  match tab !! i with
  | None => None
  | Some e =>
      if valid e then Some (frame s (physicalPage e))
      else if 0 <=? physicalPage e then Some (piece sp s i) else None
  end.

Record vm_inv sp s tab : Prop := {
  vi_ok : vm_ok sp s tab;
  vi_pages i c : view sp s tab i = Some c → length c = 128%nat;
  vi_apart : file (stored_executable sp) ≠ file (bs_file (backing sp)) }.

Lemma holds_view sp s tab i c : holds sp s tab i c → view sp s tab i = Some c.
Proof.
  intros (_ & e & E & Hc). unfold view. rewrite E. destruct (valid e); [by rewrite Hc|].
  destruct Hc as [Hp <-]. by rewrite (proj2 (Z.leb_le _ _)).
Qed.

Lemma view_holds sp s tab i c : vm_inv sp s tab → view sp s tab i = Some c → holds sp s tab i c.
Proof.
  intros Hi Hc. split; [by eapply vi_pages|]. unfold view in Hc. destruct (tab !! i) as [e|]; [|done].
  exists e. split; [done|]. destruct (valid e); [by injection Hc|].
  destruct (Z.leb_spec 0 (physicalPage e)); [|done]. by injection Hc.
Qed.

(** A page that was not touched stays so. *)
Lemma view_None sp s tab i :
  vm_ok sp s tab → view sp s tab i = None ↔ ∀ e, tab !! i = Some e → physicalPage e < 0.
Proof.
  intros Hok. unfold view. destruct (tab !! i) as [e|] eqn:E; [|by split].
  destruct (vo_entry _ _ _ Hok i e E) as [_ Hp]. destruct (valid e) eqn:Hv.
  - destruct (Hp eq_refl) as [Hr _]. split; [done|]. intros Hn. specialize (Hn e eq_refl). lia.
  - destruct (Z.leb_spec 0 (physicalPage e)) as [Hle|Hlt]; split; try done.
    + intros Hn. specialize (Hn e eq_refl). lia.
    + intros _ e' [= <-]. done.
Qed.

Lemma faulted_views sp s tab p sp' s' tab' j :
  vm_inv sp s tab → faulted sp s tab p sp' s' tab' → j ≠ p → view sp' s' tab' j = view sp s tab j.
Proof.
  intros Hi Hf Hne. pose proof (ft_ok _ _ _ _ _ _ _ Hf) as Hok'.
  destruct (view sp s tab j) as [c|] eqn:Ev.
  - destruct (ft_space _ _ _ _ _ _ _ Hf) as [clock ->].
    apply (holds_view sp), (ft_holds _ _ _ _ _ _ _ Hf j c Hne). by apply view_holds.
  - apply (view_None _ _ _ _ Hok'). intros e' E'.
    destruct (ft_loaded _ _ _ _ _ _ _ Hf j e' Hne E') as (e & E & ->).
    by apply (proj1 (view_None sp s tab j (vi_ok _ _ _ Hi))).
Qed.

Lemma faulted_inv sp s tab p sp' s' tab' c :
  vm_inv sp s tab → faulted sp s tab p sp' s' tab' → holds sp s' tab' p c → vm_inv sp' s' tab'.
Proof.
  intros Hi Hf Hc. split; [apply Hf| |].
  - intros j d Hd. destruct (decide (j = p)) as [->|Hne].
    + destruct (ft_space _ _ _ _ _ _ _ Hf) as [clock ->]. change (view sp s' tab' p = Some d) in Hd.
      rewrite (holds_view _ _ _ _ _ Hc) in Hd. injection Hd as <-. apply Hc.
    + rewrite (faulted_views sp s tab p) in Hd by done. by apply (vi_pages _ _ _ Hi j).
  - destruct (ft_space _ _ _ _ _ _ _ Hf) as [clock ->]. apply Hi.
Qed.

(** There is a frame to take: a free one, or one of a page of this address space. *)
Definition room s tab : Prop :=
  (∃ f, 0 ≤ f < NumPhysPages ∧ f ∉ fa_used (memmanage s)) ∨ (∃ v ev, tab !! v = Some ev ∧ valid ev = true).

Lemma demandpage_spec fuel sp s tab p e junk :
  vm_inv sp s tab → tab !! p = Some e → valid e = false → (2 * length tab ≤ fuel)%nat → room s tab →
  (view sp s tab p = None → ∃ h, read_noff big_endian (stored_executable sp) junk s = Ret h ∧
     ∀ pos, source h p = Some pos → 0 ≤ pos) →
  ∃ sp' s' tab', demandpage big_endian use_fifo fuel sp (Z.of_nat p) junk s = Ret (sp', s', true) ∧
    (∃ c, sp' = with_clock c sp) ∧ vm_inv sp' s' tab' ∧ quiet sp s tab s' ∧
    (∀ q, foreign s tab q → foreign s' tab' q) ∧ (∃ e', tab' !! p = Some e' ∧ valid e' = true) ∧
    (∀ j, j ≠ p → view sp' s' tab' j = view sp s tab j) ∧
    match view sp s tab p with
    | Some c => view sp' s' tab' p = Some c
    | None => ∀ h, read_noff big_endian (stored_executable sp) junk s = Ret h →
        ∃ old, view sp' s' tab' p = Some (first_bytes sp s h p ++ old)
    end.
Proof.
  intros Hi E Hv Hfuel Hroom Hfirst. pose proof (vi_ok _ _ _ Hi) as Hok. unfold demandpage.
  rewrite (entry_ok sp s tab p e) by (done || apply Hok). cbn [mbind outcome_bind].
  assert (view sp s tab p = if 0 <=? physicalPage e then Some (piece sp s p) else None) as Ev
    by (unfold view; by rewrite E, Hv).
  destruct (Z.leb_spec 0 (physicalPage e)) as [Hp|Hp]; rewrite Ev in *.
  - destruct (demandpage_again_ok use_fifo fuel sp s tab p e (piece sp s p))
      as (sp' & s' & tab' & -> & Hf & Hc); try done; [by apply (vi_pages _ _ _ Hi p)|].
    exists sp', s', tab'. split_and!; [done|apply Hf|by eapply faulted_inv|apply Hf|apply (ft_foreign _ _ _ _ _ _ _ Hf)|apply Hf| |].
    + intros j Hj. by eapply faulted_views.
    + destruct (ft_space _ _ _ _ _ _ _ Hf) as [clock ->]. by apply (holds_view sp).
  - destruct (Hfirst eq_refl) as (h & Hh & Hpos).
    destruct (demandpage_first_ok big_endian use_fifo fuel sp s tab p e junk h)
      as (sp' & s' & tab' & old & -> & Hf & Hc); try done; [apply Hi|].
    exists sp', s', tab'. split_and!; [done|apply Hf|by eapply faulted_inv|apply Hf|apply (ft_foreign _ _ _ _ _ _ _ Hf)|apply Hf| |].
    + intros j Hj. by eapply faulted_views.
    + intros h' Hh'. rewrite Hh in Hh'. injection Hh' as <-. exists old.
      destruct (ft_space _ _ _ _ _ _ _ Hf) as [clock ->]. by apply (holds_view sp).
Qed.

(** C4: demand paging is transparent: a page fault returns with the page valid; no page of the address
    space changes, wherever it is kept; a page touched for the first time gets the bytes of
    the executable, or zeros, at its start; the frames of other address spaces, the other files and
    the registers are left alone. *)
Theorem demandpage_transparent fuel sp s tab p e junk :
  vm_inv sp s tab → tab !! p = Some e → valid e = false → (2 * length tab ≤ fuel)%nat → room s tab →
  (view sp s tab p = None → ∃ h, read_noff big_endian (stored_executable sp) junk s = Ret h ∧
     ∀ pos, source h p = Some pos → 0 ≤ pos) →
  ∃ sp' s' tab', demandpage big_endian use_fifo fuel sp (Z.of_nat p) junk s = Ret (sp', s', true) ∧
    (∃ c, sp' = with_clock c sp) ∧ vm_inv sp' s' tab' ∧ quiet sp s tab s' ∧
    (∀ q, foreign s tab q → foreign s' tab' q) ∧ (∃ e', tab' !! p = Some e' ∧ valid e' = true) ∧
    (∀ j, j ≠ p → view sp' s' tab' j = view sp s tab j) ∧
    match view sp s tab p with
    | Some c => view sp' s' tab' p = Some c
    | None => ∀ h, read_noff big_endian (stored_executable sp) junk s = Ret h →
        ∃ old, view sp' s' tab' p = Some (first_bytes sp s h p ++ old)
    end.
Proof. apply demandpage_spec. Qed.

(** C18: the loop of [ClearPage] ends exactly when the address space has a page in memory to evict: then two
    rounds of the clock are enough, with or without the use bits; otherwise it runs for ever. *)
Theorem ClearPage_ends_iff sp s tab :
  vm_ok sp s tab →
  ((∃ v ev, tab !! v = Some ev ∧ valid ev = true) ↔
     ∃ r, ClearPage use_fifo (2 * length tab) sp s = Ret r) ∧
  ((∀ v ev, tab !! v = Some ev → valid ev = false) → ∀ fuel, ClearPage use_fifo fuel sp s = OutOfFuel).
Proof.
  intros Hok. split; [split|].
  - intros (v & ev & Ev & Hv). destruct (ClearPage_ok use_fifo (2 * length tab) sp s tab v ev)
      as (c & s' & tab' & -> & _); try done. by eexists.
  - intros [r Er]. destruct (decide (Exists (λ e, valid e = true) tab)) as [He|Hn].
    + apply Exists_exists in He as (ev & [v Ev]%list_elem_of_lookup & Hv). by exists v, ev.
    + rewrite (ClearPage_stuck use_fifo _ sp s tab Hok) in Er; [done|].
      intros i ei Ei. apply not_true_iff_false. intros Hv. apply Hn, Exists_exists.
      exists ei. split; [by eapply list_elem_of_lookup_2|done].
  - intros Hn fuel. by eapply ClearPage_stuck.
Qed.


(** *** The program's own loads and stores *)
Lemma view_same sp s tab tab' i :
  Forall2 same_page tab tab' → view sp (put_table sp tab' s) tab' i = view sp s tab i.
Proof.
  intros H2. unfold view. destruct (tab !! i) as [e|] eqn:E.
  - destruct (Forall2_lookup_l _ _ _ _ _ H2 E) as (e' & -> & _ & -> & -> & _). done.
  - apply lookup_ge_None in E. rewrite (Forall2_length _ _ _ H2) in E.
    by rewrite (proj2 (lookup_ge_None _ _) E).
Qed.

Lemma vm_inv_same sp s tab tab' :
  vm_inv sp s tab → Forall2 same_page tab tab' → vm_inv sp (put_table sp tab' s) tab'.
Proof.
  intros Hi H2. split; [by apply (vm_ok_same sp s tab); [apply Hi|]| |apply Hi].
  intros i c Hc. rewrite (view_same sp s tab) in Hc by done. by apply (vi_pages _ _ _ Hi i).
Qed.

(** [sp] is the address space the machine runs in ([RestoreState]). *)
Definition current sp s : Prop :=
  tlb (mach s) = None ∧ Machine.pageTable (mach s) = Some (pageTable sp) ∧ pageTableSize (mach s) = numPages sp.

(** An access to [size] bytes at [off] of page [p]. *)
Definition aligned_in_page (off size : Z) : Prop :=
  0 ≤ off ∧ off + size ≤ PageSize ∧ off mod size = 0.

Lemma aligned_address p off size :
  access_size size → aligned_in_page off size → 0 ≤ p → 
  ((size =? 4) && negb (Z.land (p * PageSize + off) 3 =? 0)) ||
  ((size =? 2) && negb (Z.land (p * PageSize + off) 1 =? 0)) = false.
Proof.
  intros Hs (H1 & H2 & H3) Hp. change PageSize with 128 in *.
  change 3 with (Z.ones 2). change 1 with (Z.ones 1). rewrite !Z.land_ones by lia.
  change (2 ^ 2) with 4. change (2 ^ 1) with 2.
  destruct Hs as [-> | [-> | ->]]; cbn [Z.eqb Pos.eqb andb orb]; [done| |].
  - rewrite (proj2 (Z.eqb_eq _ 0)); [done|]. Z.div_mod_to_equations. lia.
  - rewrite (proj2 (Z.eqb_eq _ 0)); [done|]. Z.div_mod_to_equations. lia.
Qed.

(** The hardware finds the frame of a valid page and marks the entry. *)
Lemma page_translates sp s tab p e off size writing :
  vm_ok sp s tab → current sp s → tab !! p = Some e → valid e = true → readOnly e && writing = false →
  access_size size → aligned_in_page off size →
  Translate (mach s) (Z.of_nat p * PageSize + off) size writing =
    Ret (mach (put_table sp (<[p := touch e writing]> tab) s), inr (physicalPage e * PageSize + off)).
Proof.
  intros Hok (Htlb & Hpt & Hps) E Hv Hro Hs Hal. pose proof Hal as (H1 & H2 & H3).
  pose proof (lookup_lt_Some _ _ _ E) as Hp. pose proof (vo_len _ _ _ Hok) as Hlen.
  destruct (vo_pages _ _ _ Hok) as [_ Hmax]. destruct (vo_entry _ _ _ Hok p e E) as [_ Hpp].
  destruct (Hpp Hv) as [Hr _]. change NumPhysPages with 4 in Hr.
  assert (access_size size → 0 < size) as Hpos by (intros [-> | [-> | ->]]; lia). specialize (Hpos Hs).
  assert (u32 (Z.of_nat p * PageSize + off) = Z.of_nat p * PageSize + off) as Hva
    by (change PageSize with 128 in *; apply u32_small; unfold is_u32; lia).
  assert (u32 (physicalPage e) = physicalPage e) as Hpe by (apply u32_small; unfold is_u32; lia).
  rewrite (Translate_hit _ _ _ _ (pageTable sp) (Z.of_nat p) e); try done.
  - rewrite Hva, Hpe. unfold touched. rewrite (vo_tab _ _ _ Hok). cbn [default]. rewrite Nat2Z.id.
    do 3 f_equal. change PageSize with 128 in *. Z.div_mod_to_equations. lia.
  - apply aligned_address; [done..|lia].
  - rewrite Hva. replace ((Z.of_nat p * PageSize + off) / PageSize) with (Z.of_nat p)
      by (change PageSize with 128 in *; Z.div_mod_to_equations; lia).
    unfold find_entry. rewrite Htlb, Hpt, Hps, (vo_tab _ _ _ Hok).
    rewrite (proj2 (Z.leb_gt _ _)) by lia. rewrite (rd_lookup _ _ e) by (lia || by rewrite Nat2Z.id).
    cbn [mbind outcome_bind]. by rewrite Hv.
  - rewrite (vo_tab _ _ _ Hok). cbn [default]. apply rd_lookup; [lia|]. by rewrite Nat2Z.id.
  - rewrite Hpe. change NumPhysPages with 4. lia.
Qed.

(** *** A store into a frame *)
Lemma page_bytes_store k off bs i (mem : list Z) :
  (off + length bs ≤ 128)%nat → (128 * (k + 1) ≤ length mem)%nat →
  page_bytes i (blit mem (128 * k + off) bs) =
    if decide (i = k) then blit (page_bytes k mem) off bs else page_bytes i mem.
Proof.
  intros Hl Hk. assert (length (page_bytes k mem) = 128%nat) as Hpk
    by (unfold page_bytes; rewrite length_take, length_drop; lia).
  apply list_eq. intros j. unfold page_bytes at 1.
  destruct (decide (j < 128)%nat) as [Hj|Hj]; destruct (decide (i = k)) as [->|Hi].
  - rewrite lookup_take_lt, lookup_drop, !lookup_blit by lia. case_decide; case_decide; try lia; [f_equal; lia|].
    unfold page_bytes. by rewrite lookup_take_lt, lookup_drop by lia.
  - rewrite lookup_take_lt, lookup_drop, lookup_blit by lia. rewrite decide_False by lia.
    unfold page_bytes. by rewrite lookup_take_lt, lookup_drop by lia.
  - rewrite lookup_take_ge by lia. symmetry. apply lookup_ge_None. rewrite blit_length; lia.
  - rewrite lookup_take_ge by lia. symmetry. apply lookup_ge_None. unfold page_bytes. rewrite length_take. lia.
Qed.

Lemma store_bytes_blit m pa bs :
  0 ≤ pa → pa + Z.of_nat (length bs) ≤ Z.of_nat (length (mainMemory m)) →
  store_bytes m pa bs = Ret (with_memory m (blit (mainMemory m) (Z.to_nat pa) bs)).
Proof. intros. unfold store_bytes. by rewrite in_range_true by lia. Qed.


Definition poked (f : Z) (off : nat) (bs : list Z) s : Sys :=
  with_mach (with_memory (mach s) (blit (mainMemory (mach s)) (128 * Z.to_nat f + off) bs)) s.

Lemma frame_poked f off bs s q :
  length (mainMemory (mach s)) = Z.to_nat MemorySize → 0 ≤ f < NumPhysPages → (off + length bs ≤ 128)%nat →
  0 ≤ q → frame (poked f off bs s) q = if decide (q = f) then blit (frame s f) off bs else frame s q.
Proof.
  intros Hm Hf Hl Hq. change (Z.to_nat MemorySize) with 512%nat in Hm. change NumPhysPages with 4 in Hf.
  unfold frame. cbn [mach poked with_mach mainMemory with_memory]. rewrite page_bytes_store by lia.
  destruct (decide (q = f)) as [->|Hne]; [by rewrite decide_True|]. by rewrite decide_False by lia.
Qed.

Lemma poked_ok sp s tab p e off bs :
  vm_inv sp s tab → tab !! p = Some e → valid e = true → (off + length bs ≤ 128)%nat →
  let tab' := <[p := touch e true]> tab in let s' := put_table sp tab' (poked (physicalPage e) off bs s) in
  vm_inv sp s' tab' ∧ view sp s' tab' p = Some (blit (frame s (physicalPage e)) off bs) ∧
  ∀ j, j ≠ p → view sp s' tab' j = view sp s tab j.
Proof.
  intros Hi E Hv Hl tab' s'. pose proof (vi_ok _ _ _ Hi) as Hok. pose proof (vo_memory _ _ _ Hok) as Hm.
  destruct (vo_entry _ _ _ Hok p e E) as [_ Hpp]. destruct (Hpp Hv) as [Hr _].
  set (f := physicalPage e) in *.
  assert (∀ q, 0 ≤ q → frame s' q = if decide (q = f) then blit (frame s f) off bs else frame s q) as Hframe
    by (intros q Hq; by apply frame_poked).
  assert (tab' !! p = Some (touch e true)) as Ep by (by apply list_lookup_insert_eq; eapply lookup_lt_Some).
  assert (∀ j ej, tab' !! j = Some ej → (j = p ∧ ej = touch e true) ∨ (j ≠ p ∧ tab !! j = Some ej)) as Hcase.
  { intros j ej Ej. apply list_lookup_insert_Some in Ej as [(-> & <- & _)|[Hne Ej]]; auto. }
  assert (∀ j ej, j ≠ p → tab !! j = Some ej → valid ej = true → 0 ≤ physicalPage ej ∧ frame s' (physicalPage ej) = frame s (physicalPage ej)) as Hsame.
  { intros j ej Hne Ej Hvj. destruct (vo_entry _ _ _ Hok j ej Ej) as [_ Hpj]. destruct (Hpj Hvj) as [Hrj _].
    split; [lia|]. rewrite Hframe by lia. rewrite decide_False; [done|]. intros Heq.
    by apply Hne, (vo_distinct _ _ _ Hok j p ej e). }
  assert (∀ j, j ≠ p → view sp s' tab' j = view sp s tab j) as Hviews.
  { intros j Hne. unfold view, tab'. rewrite list_lookup_insert_ne by done. destruct (tab !! j) as [ej|] eqn:Ej; [|done].
    destruct (valid ej) eqn:Hvj; [|done]. f_equal. by apply (Hsame j ej). }
  assert (view sp s' tab' p = Some (blit (frame s f) off bs)) as Hp.
  { unfold view. rewrite Ep. cbn [valid touch physicalPage]. rewrite Hv. fold f. rewrite Hframe by lia.
    by rewrite decide_True. }
  split_and!; [|exact Hp|exact Hviews]. split; [split; try apply Hok| |apply Hi].
  - apply put_table_lookup.
  - unfold tab'. rewrite length_insert. apply Hok.
  - cbn. rewrite <- Hm. apply blit_length. change (Z.to_nat MemorySize) with 512%nat in Hm.
    change NumPhysPages with 4 in Hr. lia.
  - intros j ej Ej. destruct (Hcase j ej Ej) as [[-> ->]|[_ Ej']]; [|by apply (vo_entry _ _ _ Hok)].
    by apply (vo_entry _ _ _ Hok p e E).
  - intros j k ej ek Ej Ek Hvj Hvk Heq.
    destruct (Hcase j ej Ej) as [[-> ->]|[Hj Ej']], (Hcase k ek Ek) as [[-> ->]|[Hk Ek']]; [done|..].
    + by apply (vo_distinct _ _ _ Hok p k e ek).
    + by apply (vo_distinct _ _ _ Hok j p ej e).
    + by apply (vo_distinct _ _ _ Hok j k ej ek).
  - intros j ej Ej Hvj Hdj. destruct (Hcase j ej Ej) as [[-> ->]|[Hj Ej']]; [done|].
    destruct (Hsame j ej Hj Ej' Hvj) as [_ ->]. by apply (vo_clean _ _ _ Hok).
  - intros j c Hc. destruct (decide (j = p)) as [->|Hne].
    + rewrite Hp in Hc. injection Hc as <-. destruct (frame_bytes sp s tab f Hok Hr) as [_ Hlen].
      rewrite blit_length; lia.
    + rewrite Hviews in Hc by done. by apply (vi_pages _ _ _ Hi j).
Qed.

Section accesses.
Context {K : Type} (setStatus : MachineStatus → K → K).
Context (handler : ExceptionType → Machine → K → outcome (control * Machine * K)).

(** An access to a page in memory: it goes to the frame and marks the entry. *)
Lemma user_load sp s tab p e c off size (k : K) :
  vm_inv sp s tab → current sp s → tab !! p = Some e → valid e = true → view sp s tab p = Some c →
  Forall is_byte (take (Z.to_nat size) (drop (Z.to_nat off) c)) → access_size size → aligned_in_page off size →
  ReadMem big_endian setStatus handler (mach s) k (Z.of_nat p * PageSize + off) size =
    Ret (Resume, mach (put_table sp (<[p := touch e false]> tab) s), k,
      Some (loaded size (le_value (take (Z.to_nat size) (drop (Z.to_nat off) c))))).
Proof.
  intros Hi Hcur E Hv Hc Hbytes Hs Hal. pose proof (vi_ok _ _ _ Hi) as Hok. pose proof Hal as (H1 & H2 & _).
  change PageSize with 128 in H2. destruct (vo_entry _ _ _ Hok p e E) as [_ Hpp]. destruct (Hpp Hv) as [Hr _].
  pose proof (vo_memory _ _ _ Hok) as Hm. change (Z.to_nat MemorySize) with 512%nat in Hm.
  change NumPhysPages with 4 in Hr. assert (0 < size) as Hsz by (destruct Hs as [-> | [-> | ->]]; lia).
  unfold view in Hc. rewrite E, Hv in Hc. injection Hc as <-.
  pose proof (page_translates sp s tab p e off size false Hok Hcur E Hv (andb_false_r _) Hs Hal) as Ht.
  erewrite ReadMem_hit; [reflexivity| exact Hs | exact Ht | | |].
  - unfold memory_bytes. cbn [mach put_table with_mach mainMemory with_tables].
    rewrite in_range_true by (change PageSize with 128; lia). f_equal.
    unfold frame, page_bytes. rewrite skipn_firstn_comm, drop_drop, firstn_firstn.
    change PageSize with 128. f_equal; [lia|]. f_equal. lia.
  - done.
  - rewrite length_take, length_drop. destruct (frame_bytes sp s tab (physicalPage e) Hok Hr) as [_ ->]. lia.
Qed.

Lemma user_store sp s tab p e off size (k : K) v :
  vm_inv sp s tab → current sp s → tab !! p = Some e → valid e = true → readOnly e = false →
  access_size size → aligned_in_page off size →
  WriteMem big_endian setStatus handler (mach s) k (Z.of_nat p * PageSize + off) size v =
    Ret (Resume, mach (put_table sp (<[p := touch e true]> tab)
      (poked (physicalPage e) (Z.to_nat off) (stored size v) s)), k, true).
Proof.
  intros Hi Hcur E Hv Hro Hs Hal. pose proof (vi_ok _ _ _ Hi) as Hok. pose proof Hal as (H1 & H2 & _).
  change PageSize with 128 in H2. destruct (vo_entry _ _ _ Hok p e E) as [_ Hpp]. destruct (Hpp Hv) as [Hr _].
  pose proof (vo_memory _ _ _ Hok) as Hm. change (Z.to_nat MemorySize) with 512%nat in Hm.
  change NumPhysPages with 4 in Hr. assert (0 < size) as Hsz by (destruct Hs as [-> | [-> | ->]]; lia).
  assert (readOnly e && true = false) as Hro' by (by rewrite Hro).
  pose proof (page_translates sp s tab p e off size true Hok Hcur E Hv Hro' Hs Hal) as Ht.
  assert (length (stored size v) = Z.to_nat size) as Hst by apply le_bytes_length.
  rewrite (WriteMem_hit big_endian setStatus handler _ k _ size v _ _ Hs Ht).
  rewrite store_bytes_blit.
  2: { change PageSize with 128. lia. }
  2: { rewrite Hst. cbn [mach put_table with_mach mainMemory with_tables]. change PageSize with 128. lia. }
  cbn [mbind outcome_bind].
  replace (Z.to_nat (physicalPage e * PageSize + off)) with (128 * Z.to_nat (physicalPage e) + Z.to_nat off)%nat
    by (change PageSize with 128; lia).
  reflexivity.
Qed.

Lemma user_memory_spec sp s tab p e c off size (k : K) :
  vm_inv sp s tab → current sp s → tab !! p = Some e → valid e = true → view sp s tab p = Some c →
  Forall is_byte (take (Z.to_nat size) (drop (Z.to_nat off) c)) → access_size size → aligned_in_page off size →
  (∃ m' tab', ReadMem big_endian setStatus handler (mach s) k (Z.of_nat p * PageSize + off) size =
      Ret (Resume, m', k, Some (loaded size (le_value (take (Z.to_nat size) (drop (Z.to_nat off) c))))) ∧
    vm_inv sp (with_mach m' s) tab' ∧ current sp (with_mach m' s) ∧
    ∀ j, view sp (with_mach m' s) tab' j = view sp s tab j) ∧
  (readOnly e = false → ∀ v,
   ∃ m' tab', WriteMem big_endian setStatus handler (mach s) k (Z.of_nat p * PageSize + off) size v =
      Ret (Resume, m', k, true) ∧
    vm_inv sp (with_mach m' s) tab' ∧ current sp (with_mach m' s) ∧
    view sp (with_mach m' s) tab' p = Some (blit c (Z.to_nat off) (stored size v)) ∧
    ∀ j, j ≠ p → view sp (with_mach m' s) tab' j = view sp s tab j).
Proof.
  intros Hi Hcur E Hv Hc Hbytes Hs Hal. split.
  - erewrite user_load by done. do 2 eexists. split; [reflexivity|].
    assert (Forall2 same_page tab (<[p := touch e false]> tab)) as H3
      by (apply (same_pages_insert _ _ _ e); [apply same_pages_refl|done..]).
    split; [by apply (vm_inv_same sp s tab)|]. split; [exact Hcur|]. intros j. by apply (view_same sp s tab).
  - intros Hro v. erewrite user_store by done. do 2 eexists. split; [reflexivity|].
    destruct Hal as (H1 & H2 & _). change PageSize with 128 in H2.
    unfold view in Hc. rewrite E, Hv in Hc. injection Hc as <-.
    destruct (poked_ok sp s tab p e (Z.to_nat off) (stored size v) Hi E Hv) as (K1 & K2 & K3).
    { unfold stored. rewrite le_bytes_length. destruct Hs as [-> | [-> | ->]]; lia. }
    split; [exact K1|]. split; [exact Hcur|]. split; [exact K2|exact K3].
Qed.

(** C8: the memory of a user program is flat: on a page that is in memory, a load of any size gives the bytes
    of the page's contents, and a store replaces them; nothing else of the address space
    changes. *)
Theorem user_memory_is_flat sp s tab p e c off size (k : K) :
  vm_inv sp s tab → current sp s → tab !! p = Some e → valid e = true → view sp s tab p = Some c →
  Forall is_byte (take (Z.to_nat size) (drop (Z.to_nat off) c)) → access_size size → aligned_in_page off size →
  (∃ m' tab', ReadMem big_endian setStatus handler (mach s) k (Z.of_nat p * PageSize + off) size =
      Ret (Resume, m', k, Some (loaded size (le_value (take (Z.to_nat size) (drop (Z.to_nat off) c))))) ∧
    vm_inv sp (with_mach m' s) tab' ∧ current sp (with_mach m' s) ∧
    ∀ j, view sp (with_mach m' s) tab' j = view sp s tab j) ∧
  (readOnly e = false → ∀ v,
   ∃ m' tab', WriteMem big_endian setStatus handler (mach s) k (Z.of_nat p * PageSize + off) size v =
      Ret (Resume, m', k, true) ∧
    vm_inv sp (with_mach m' s) tab' ∧ current sp (with_mach m' s) ∧
    view sp (with_mach m' s) tab' p = Some (blit c (Z.to_nat off) (stored size v)) ∧
    ∀ j, j ≠ p → view sp (with_mach m' s) tab' j = view sp s tab j).
Proof. apply user_memory_spec. Qed.
End accesses.


(** *** A new address space *)
Record unix_ok (u : Unix) : Prop := {
  ux_names n1 n2 fd : names u !! n1 = Some fd → names u !! n2 = Some fd → n1 = n2;
  ux_inodes n fd : names u !! n = Some fd → is_Some (inodes u !! fd) }.

Lemma backing_name_inj a b : 0 ≤ a → 0 ≤ b → backing_name a = backing_name b → a = b.
Proof.
  intros Ha Hb E. unfold backing_name in E. injection E as E. change (pretty (Z.to_N a) = pretty (Z.to_N b)) in E. apply (inj (pretty (A := N))) in E. lia.
Qed.

(** The file [BackingStore] opens: a new one, or one of the same name, emptied. *)
Lemma BackingStore_new_ok size s :
  unix_ok (files s) →
  ∃ fd s', BackingStore_new size s = Ret (mkBacking (backing_name size) (mkOpenFile fd 0), s') ∧
    mach s' = mach s ∧ memmanage s' = memmanage s ∧ unix_ok (files s') ∧
    names (files s') !! backing_name size = Some fd ∧
    (∀ n, n ≠ backing_name size → names (files s') !! n = names (files s) !! n) ∧
    content (files s') fd = [] ∧ (∀ fd', fd' ≠ fd → content (files s') fd' = content (files s) fd') ∧
    (∀ fd', is_Some (inodes (files s) !! fd') → is_Some (inodes (files s') !! fd')) ∧
    match names (files s) !! backing_name size with
    | Some fd0 => fd = fd0
    | None => inodes (files s) !! fd = None
    end.
Proof.
  intros [Hinj Hino]. unfold BackingStore_new, Create, OpenForWrite.
  destruct (names (files s) !! backing_name size) as [fd|] eqn:En.
  - unfold Open, OpenForReadWrite. cbn [negb orb ASSERT mbind outcome_bind]. cbn [names set_content].
    rewrite En. cbn [mbind outcome_bind]. do 2 eexists. split; [reflexivity|].
    split_and!; try done; cbn [files with_files].
    + split; [done|]. intros n fd' En'. cbn. rewrite lookup_insert. case_decide; [done|]. by eapply Hino.
    + by rewrite content_set, decide_True.
    + intros fd' Hne. by rewrite content_set, decide_False.
    + intros fd' Hs. cbn. rewrite lookup_insert. by case_decide.
  - unfold Open, OpenForReadWrite. cbn [negb orb ASSERT mbind outcome_bind]. cbn [names].
    rewrite lookup_insert_eq. cbn [mbind outcome_bind]. set (fd := fresh (dom (inodes (files s)))).
    assert (inodes (files s) !! fd = None) as Hfd by (apply not_elem_of_dom, is_fresh).
    assert (∀ n, names (files s) !! n ≠ Some fd) as Hno.
    { intros n E. apply Hino in E as [? E]. congruence. }
    do 2 eexists. split; [reflexivity|]. split_and!; try done; cbn [files with_files].
    + split.
      * intros n1 n2 fd'. cbn. rewrite !lookup_insert. repeat case_decide; subst; try done.
        -- intros [= <-] E. by destruct (Hno n2).
        -- intros E [= <-]. by destruct (Hno n1).
        -- by apply Hinj.
      * intros n fd'. cbn. rewrite lookup_insert. case_decide.
        -- intros [= <-]. rewrite lookup_insert_eq. by eexists.
        -- intros E. rewrite lookup_insert. case_decide; [by eexists|]. by eapply Hino.
    + cbn. apply lookup_insert_eq.
    + intros n Hne. cbn. by rewrite lookup_insert_ne.
    + unfold content. cbn. by rewrite lookup_insert_eq.
    + intros fd' Hne. unfold content. cbn. by rewrite lookup_insert_ne.
    + intros fd' Hs. cbn. rewrite lookup_insert. by case_decide.
Qed.

Definition initial_table (numPages : Z) : list TranslationEntry :=
  (λ i, mkTE i (-1) false false false false) <$> seqZ 0 numPages.

Lemma initial_table_lookup n i e :
  initial_table n !! i = Some e → e = mkTE (Z.of_nat i) (-1) false false false false.
Proof.
  unfold initial_table. rewrite list_lookup_fmap. intros (z & Hz & ->)%fmap_Some.
  apply lookup_seqZ in Hz as [-> _]. by rewrite Z.add_0_l.
Qed.

(** A program whose header is in order gets an address space none of whose pages is loaded. *)
Lemma Initialize_ok exe clock0 junk s h :
  unix_ok (files s) → read_noff big_endian exe junk s = Ret h →
  let n := space_pages h in
  0 < n → n * PageSize < 2 ^ 31 → 0 ≤ clock0 < n →
  length (mainMemory (mach s)) = Z.to_nat MemorySize →
  fa_wf (memmanage s) → fa_total (memmanage s) = NumPhysPages →
  is_Some (inodes (files s) !! file exe) → names (files s) !! backing_name (n * PageSize) ≠ Some (file exe) →
  ∃ sp s', Initialize big_endian exe clock0 junk s = Ret (sp, s') ∧
    vm_inv sp s' (initial_table n) ∧ (∀ i, view sp s' (initial_table n) i = None) ∧
    numPages sp = n ∧ stored_executable sp = exe ∧ memmanage s' = memmanage s ∧ unix_ok (files s') ∧
    names (files s') !! backing_name (n * PageSize) = Some (file (bs_file (backing sp))) ∧
    (∀ m, m ≠ backing_name (n * PageSize) → names (files s') !! m = names (files s) !! m) ∧
    backing_bytes sp s' = [] ∧
    (∀ fd, fd ≠ file (bs_file (backing sp)) → content (files s') fd = content (files s) fd) ∧
    (∀ fd, is_Some (inodes (files s) !! fd) → is_Some (inodes (files s') !! fd)) ∧
    match names (files s) !! backing_name (n * PageSize) with
    | Some fd0 => file (bs_file (backing sp)) = fd0
    | None => inodes (files s) !! file (bs_file (backing sp)) = None
    end ∧
    tables (mach s) !! pageTable sp = None ∧
    mach s' = with_tables (mach s) (<[pageTable sp := initial_table n]> (tables (mach s))).
Proof.
  intros Hu Hh n Hn Hmax Hc Hm Hwf Ht [eb Hexe] Hname. unfold Initialize. rewrite Hh. cbn [mbind outcome_bind].
  fold n. rewrite (u32_small (n * PageSize)) by (unfold is_u32; change PageSize with 128 in *; lia).
  destruct (BackingStore_new_ok (n * PageSize) s Hu)
    as (fd & s1 & -> & Em & Emm & Hu' & En & Eno & Ec & Eco & Eino & Efd). cbn [mbind outcome_bind].
  rewrite Em. do 2 eexists. split; [reflexivity|]. set (t := fresh (dom (tables (mach s)))).
  assert (file exe ≠ fd) as Hapart.
  { destruct (names (files s) !! backing_name (n * PageSize)) as [fd0|]; intros Heq.
    - apply Hname. congruence.
    - rewrite Heq in Hexe. congruence. }
  split_and!; try done.
  split; [split|..]; cbn [mach with_mach tables with_tables numPages pageTable clock_hand mainMemory memmanage].
  - apply lookup_insert_eq.
  - unfold initial_table. rewrite length_fmap, length_seqZ. lia.
  - done.
  - done.
  - done.
  - by rewrite Emm.
  - intros i e ->%initial_table_lookup. done.
  - intros i j ei ej ->%initial_table_lookup ->%initial_table_lookup. done.
  - intros i e ->%initial_table_lookup. done.
  - intros i c. unfold view. destruct (initial_table n !! i) as [e|] eqn:E; [|done].
    by apply initial_table_lookup in E as ->.
  - done.
  - unfold view. intros i. destruct (initial_table n !! i) as [e|] eqn:E; [|done].
    by apply initial_table_lookup in E as ->.
  - apply not_elem_of_dom, is_fresh.
Qed.

(** C19: the backing file is named after the size of the program: when two programs are started one after the
    other, they share one file exactly when they have the same number of pages, and then starting
    the second one empties the file in which pages of the first one may be. *)
Theorem same_size_programs_share_backing exe1 exe2 c1 c2 junk1 junk2 s sp1 s1 sp2 s2 h1 h2 :
  unix_ok (files s) →
  read_noff big_endian exe1 junk1 s = Ret h1 → read_noff big_endian exe2 junk2 s1 = Ret h2 →
  space_pages h1 * PageSize < 2 ^ 31 → space_pages h2 * PageSize < 2 ^ 31 →
  Initialize big_endian exe1 c1 junk1 s = Ret (sp1, s1) →
  Initialize big_endian exe2 c2 junk2 s1 = Ret (sp2, s2) →
  (numPages sp1 = numPages sp2 → file (bs_file (backing sp2)) = file (bs_file (backing sp1)) ∧
     backing_bytes sp1 s2 = []) ∧
  (numPages sp1 ≠ numPages sp2 → file (bs_file (backing sp2)) ≠ file (bs_file (backing sp1)) ∧
     backing_bytes sp1 s2 = backing_bytes sp1 s1).
Proof.
  intros Hu Hh1 Hh2 Hm1 Hm2 E1 E2.
  assert (∀ h, 0 ≤ space_pages h) as Hpos.
  { intros h. apply divRoundUp_nonneg; [|by change PageSize with 128; lia].
    pose proof (u32_range (size_ (code h) + size_ (initData h) + size_ (uninitData h) + UserStackSize)) as Hr.
    unfold is_u32 in Hr. lia. }
  pose proof (Hpos h1). pose proof (Hpos h2). change PageSize with 128 in *.
  unfold Initialize in E1, E2. rewrite Hh1 in E1. rewrite Hh2 in E2. cbn [mbind outcome_bind] in E1, E2.
  change PageSize with 128 in *.
  rewrite (u32_small (space_pages h1 * 128)) in E1 by (unfold is_u32; lia).
  rewrite (u32_small (space_pages h2 * 128)) in E2 by (unfold is_u32; lia).
  destruct (BackingStore_new_ok (space_pages h1 * 128) s Hu) as (fd1 & s1' & Eb1 & _ & _ & Hu1 & En1 & _).
  rewrite Eb1 in E1. cbn [mbind outcome_bind] in E1. injection E1 as <- <-.
  match type of E2 with context [BackingStore_new _ ?s1] =>
    destruct (BackingStore_new_ok (space_pages h2 * 128) s1 Hu1)
      as (fd2 & s2' & Eb2 & _ & _ & Hu2 & En2 & Eno2 & Ec2 & Eco2 & _ & Efd2) end.
  rewrite Eb2 in E2. cbn [mbind outcome_bind] in E2. injection E2 as <- <-.
  cbn [files with_mach] in Efd2, Eco2. unfold backing_bytes.
  cbn [numPages backing bs_file file files with_mach] in *. split.
  - intros Eq. rewrite <- Eq in *. rewrite En1 in Efd2. subst fd2. done.
  - intros Hne. assert (fd2 ≠ fd1) as Hfd.
    { intros ->. destruct (decide (backing_name (space_pages h1 * 128) = backing_name (space_pages h2 * 128))) as [Eq|Hnn].
      - apply backing_name_inj in Eq; lia.
      - apply Hnn. apply (ux_names _ Hu2 _ _ fd1); [|done]. by rewrite Eno2. }
    split; [done|]. by rewrite Eco2.
Qed.

End flat.

(** ** A program of ten pages *)
Definition demo_segments : list Z := [NOFFMAGIC; 0; 40; 128; 128; 168; 64; 192; 232; 64].
Definition demo_file : list Z := words_bytes demo_segments ++ replicate 128 17 ++ replicate 64 34.
Definition demo_exe : OpenFile := mkOpenFile 0 0.
Definition demo_unix : Unix := mkUnix {[ "prog" := 0%nat ]} {[ 0%nat := demo_file ]}.
Definition demo_frames : MemoryManager.MemoryManager BitMap.BitMap :=
  match MemoryManager.MemoryManager_new NumPhysPages [0] with Ret m => m | _ => MemoryManager.mkMM 0 (BitMap.mkBitMap 0 0 []) end.
Definition demo_sys : Sys (M := MemoryManager.MemoryManager BitMap.BitMap) := mkSys (Machine_new false None) demo_frames demo_unix 0 0 0.
Definition demo_junk : list Z := replicate 40 0.
Definition demo_start : AddrSpace * Sys (M := MemoryManager.MemoryManager BitMap.BitMap) :=
  match Initialize false demo_exe 3 demo_junk demo_sys with
  | Ret r => r
  | _ => (mkSpace 0 (mkBacking "none" demo_exe) demo_exe 0 0, demo_sys)
  end.


Definition demo_header : NoffHeader :=
  mkNoff NOFFMAGIC (mkSegment 0 40 128) (mkSegment 128 168 64) (mkSegment 192 232 64).

Lemma demo_unix_ok : unix_ok demo_unix.
Proof.
  split.
  - intros n1 n2 fd. cbn [names demo_unix]. by intros [<- _]%lookup_singleton_Some [<- _]%lookup_singleton_Some.
  - intros n fd. cbn [names inodes demo_unix]. intros [_ <-]%lookup_singleton_Some. by eexists.
Qed.

Lemma demo_frames_ok : fa_wf demo_frames ∧ fa_total demo_frames = NumPhysPages ∧ fa_used demo_frames = ∅.
Proof.
  destruct (MemoryManager.MemoryManager_new_spec NumPhysPages [0]) as (m & E & Hw & Hn & Hu).
  - done.
  - by repeat constructor.
  - vm_compute. discriminate.
  - unfold demo_frames. rewrite E. done.
Qed.

Lemma demo_ok :
  vm_inv demo_start.1 demo_start.2 (initial_table 10) ∧
  (∀ i, view demo_start.1 demo_start.2 (initial_table 10) i = None) ∧
  Initialize false demo_exe 3 demo_junk demo_sys = Ret demo_start ∧ memmanage demo_start.2 = demo_frames.
Proof.
  destruct demo_frames_ok as (Hw & Ht & _).
  destruct (Initialize_ok false demo_exe 3 demo_junk demo_sys demo_header) as (sp & s' & E & Hi & Hv & _ & _ & Hm & _).
  - apply demo_unix_ok.
  - vm_compute. reflexivity.
  - vm_compute. reflexivity.
  - vm_compute. reflexivity.
  - split; vm_compute; [discriminate|reflexivity].
  - vm_compute. reflexivity.
  - exact Hw.
  - exact Ht.
  - vm_compute. by eexists.
  - vm_compute. discriminate.
  - assert (space_pages demo_header = 10) as En by (vm_compute; reflexivity). rewrite En in Hi, Hv.
    unfold demo_start. rewrite E. cbn [fst snd]. split_and!; [exact Hi|exact Hv|reflexivity|exact Hm].
Qed.

Definition demo_entry : TranslationEntry := mkTE 0 (-1) false false false false.
Definition demo_page : AddrSpace * Sys :=
  match demandpage false false 20 demo_start.1 (Z.of_nat 0) demo_junk demo_start.2 with
  | Ret (sp, s, _) => (sp, s)
  | _ => demo_start
  end.

Lemma demo_room : room demo_start.2 (initial_table 10).
Proof.
  destruct demo_ok as (_ & _ & _ & Hm). destruct demo_frames_ok as (_ & _ & Hu).
  left. exists 0. rewrite Hm, Hu. clear. split; [vm_compute; split; congruence|apply not_elem_of_empty].
Qed.

Lemma demo_source : ∃ h, read_noff false (stored_executable demo_start.1) demo_junk demo_start.2 = Ret h ∧
  ∀ pos, source h 0 = Some pos → 0 ≤ pos.
Proof. eexists. split; [vm_compute; reflexivity|]. vm_compute. by intros pos [= <-]. Qed.

(** The first page of the program is brought in. *)
Lemma demandpage_transparent_witness :
  ∃ sp' s' tab', demandpage false false 20 demo_start.1 (Z.of_nat 0) demo_junk demo_start.2 = Ret (sp', s', true) ∧
    (∃ old, view sp' s' tab' 0 = Some (replicate 128 17 ++ old)) ∧ view sp' s' tab' 1 = None.
Proof.
  destruct demo_ok as (Hi & Hv & _).
  destruct (demandpage_transparent false false 20 demo_start.1 demo_start.2 (initial_table 10) 0 demo_entry
      demo_junk Hi) as (sp' & s' & tab' & E & _ & _ & _ & _ & _ & Hother & Hp);
    [reflexivity|reflexivity|apply Nat.leb_le; vm_compute; reflexivity|apply demo_room|intros _; apply demo_source|].
  exists sp', s', tab'. split; [exact E|]. split; [|by rewrite Hother, Hv].
  rewrite Hv in Hp. apply (Hp demo_header). vm_compute. reflexivity.
Defined.

(** With no page of its own in memory the program cannot make room. *)
Lemma ClearPage_ends_iff_witness : ClearPage false 1000 demo_start.1 demo_start.2 = OutOfFuel.
Proof.
  destruct demo_ok as (Hi & _).
  apply (proj2 (ClearPage_ends_iff false demo_start.1 demo_start.2 (initial_table 10) (vi_ok _ _ _ Hi))).
  intros v ev ->%initial_table_lookup. done.
Defined.

Lemma demo_page_ok : vm_inv demo_page.1 (RestoreState demo_page.1 demo_page.2)
  (default [] (tables (mach demo_page.2) !! pageTable demo_page.1)).
Proof.
  destruct demo_ok as (Hi & _).
  destruct (demandpage_spec false false 20 demo_start.1 demo_start.2 (initial_table 10) 0 demo_entry
      demo_junk Hi) as (sp' & s' & tab' & E & _ & Hi' & _);
    [reflexivity|reflexivity|apply Nat.leb_le; vm_compute; reflexivity|apply demo_room|intros _; apply demo_source|].
  unfold demo_page. rewrite E. cbn [fst snd]. rewrite (vo_tab _ _ _ (vi_ok _ _ _ Hi')). cbn [default].
  destruct Hi' as [[] Hpg Hap]. split; [by split|exact Hpg|exact Hap].
Qed.

(** The running program reads a word of its first page and overwrites it. *)
Lemma user_memory_is_flat_witness :
  let s := RestoreState demo_page.1 demo_page.2 in
  (∃ m, ReadMem false (λ _ k, k) no_handler (mach s) () 4 4 = Ret (Resume, m, (), Some 0x11111111)) ∧
  (∃ m, WriteMem false (λ _ k, k) no_handler (mach s) () 4 4 (-1) = Ret (Resume, m, (), true)).
Proof.
  cbn zeta. set (tab := default [] (tables (mach demo_page.2) !! pageTable demo_page.1)).
  assert (tab !! 0%nat = Some (mkTE 0 0 true false false true)) as Ee by (vm_compute; reflexivity).
  assert (view demo_page.1 (RestoreState demo_page.1 demo_page.2) tab 0 = Some (replicate 128 17)) as Hv
    by (vm_compute; reflexivity).
  destruct (user_memory_is_flat false (λ _ k, k) no_handler _ _ tab 0 (mkTE 0 0 true false false true) (replicate 128 17) 4 4 ()
    demo_page_ok) as [(m & tab1 & Er & _) Hw].
  - split_and!; vm_compute; reflexivity.
  - exact Ee.
  - reflexivity.
  - exact Hv.
  - clear. apply Forall_take, Forall_drop, Forall_replicate. unfold is_byte. lia.
  - right. right. reflexivity.
  - clear. vm_compute. split_and!; congruence.
  - split; [exists m; exact Er|]. destruct (Hw eq_refl (-1)) as (m' & tab2 & Ew & _). exists m'. exact Ew.
Defined.

(** Two programs of one size. *)
Definition demo_second : AddrSpace * Sys (M := MemoryManager.MemoryManager BitMap.BitMap) :=
  match Initialize false demo_exe 0 demo_junk demo_start.2 with Ret r => r | _ => demo_start end.

Lemma same_size_programs_share_backing_witness :
  file (bs_file (backing demo_second.1)) = file (bs_file (backing demo_start.1)).
Proof.
  assert (Initialize false demo_exe 3 demo_junk demo_sys = Ret (demo_start.1, demo_start.2)) as E1
    by (vm_compute; reflexivity).
  assert (Initialize false demo_exe 0 demo_junk demo_start.2 = Ret (demo_second.1, demo_second.2)) as E2
    by (vm_compute; reflexivity).
  apply (same_size_programs_share_backing false demo_exe demo_exe 3 0 demo_junk demo_junk demo_sys demo_start.1
    demo_start.2 demo_second.1 demo_second.2 demo_header demo_header demo_unix_ok).
  - vm_compute. reflexivity.
  - vm_compute. reflexivity.
  - vm_compute. reflexivity.
  - vm_compute. reflexivity.
  - exact E1.
  - exact E2.
  - vm_compute. reflexivity.
Defined.

(** ** What is left behind in a frame

    The data of the program ends in the middle of page 1; its uninitialised data is to follow as
    zeros.  The rest of the frame keeps what it held before. *)
Definition used_sys : Sys := with_mach (with_memory (Machine_new false None) (replicate 512 99)) demo_sys.
Example bss_is_not_cleared :
  match Initialize false demo_exe 0 demo_junk used_sys with
  | Ret (sp, s) =>
      match demandpage false false 20 sp 1 demo_junk s with
      | Ret (sp, s, true) => page_bytes 0 (mainMemory (mach s)) = replicate 64 34 ++ replicate 64 99
      | _ => False
      end
  | _ => False
  end.
Proof. vm_compute. reflexivity. Qed.

End FlatMemory.
