(* ===== verification/Exception.v ===== *)
(** * userprog/exception.cc, progtest.cc, and the user state of threads (threads/thread.cc)

    The entry of the kernel from user programs.  Threads appear through the interface
    [ThreadOps]: [Alloc] of the table, [Fork] and [Join] may let other threads run (a thread that waits
    for the lock of the table, or whose time slice ends when [Fork] enables interrupts), so they
    may change everything.  The handler is
    called again by its own [ReadMem], up to [depth] deep: a page fault inside a system
    call does not fault again. *)

From S2P Require Import Prelude CInt MemManage Machine UnixFile VirtMem.
From stdpp Require Import strings.
From Stdlib Require Import Ascii.
Import Machine.Machine UnixFile.UnixFile VirtMem.VirtMem.

Open Scope Z_scope.

(** What exception.cc uses of threads and of the table of threads.  [S] is the rest of the system: other
    threads change it when they get the processor. *)
Class ThreadOps (T : Type) (S : Type) := {
  th_space : T → option AddrSpace;
  th_set_space : AddrSpace → T → T;
  (** [new Thread("Exec Spawn", 1)] with [space]. *)
  th_new : AddrSpace → T → T * nat;
  th_Fork : nat → S → T → outcome (S * T);
  th_Join : nat → S → T → outcome (S * T);
  th_getExitStatus : T → Z;
  th_setExitStatus : Z → T → T;
  (** [threadlist] *)
  th_Alloc : nat → S → T → outcome (S * T * Z);
  th_Get : Z → T → outcome nat;
}.

Module Exception.

(** *** syscall.h *)
Definition SC_Halt : Z := 0.
Definition SC_Exit : Z := 1.
Definition SC_Exec : Z := 2.
Definition SC_Join : Z := 3.
Definition SC_Write : Z := 7.

Section exception.
Context {M : Type} `{FrameAllocSpec M}.
Context {T : Type} `{ThreadOps T (Sys (M := M))}.
Variable big_endian use_fifo : bool.
(** The bound on the loop of [ClearPage], the bytes [noffH] held, and the [clock_hand] of a
    new address space. *)
Variables (fuel : nat) (junk : list Z) (clock0 : Z).

(** The kernel beside the machine: [sys] without its machine, the threads, the mode. *)
Record K := mkK { sys : Sys (M := M); thr : T; status : MachineStatus }.

Definition setStatus (st : MachineStatus) (k : K) : K := mkK (sys k) (thr k) st.
Definition with_sys (s : Sys) (k : K) : K := mkK s (thr k) (status k).
Definition with_thr (t : T) (k : K) : K := mkK (sys k) t (status k).

(** Run kernel code on the machine [m]. *)
Definition on_sys (m : Machine) (k : K) : Sys := with_mach m (sys k).

Definition result : Type := control * Machine * K.

(** [currentThread->space->ClearState()], [setExitStatus(0)], [Finish()]: the exit and the end of every
    program that fails. *)
Definition Destroy (m : Machine) (k : K) : outcome result :=
  _ ← ReadRegister m 4;
  match th_space (thr k) with
  | None => Undefined
  | Some sp =>
      s ← ClearState sp (on_sys m k);
      Ret (FinishThread, mach s, with_thr (th_setExitStatus 0 (thr k)) (with_sys s k))
  end.

Definition page_fault (pcAfter : Z) (m : Machine) (k : K) : outcome result :=
  let s := count_fault (on_sys m k) in
  input ← ReadRegister m BadVAddrReg;
  match th_space (thr k) with
  | None => Undefined
  | Some sp =>
      '(sp, s, _) ← demandpage big_endian use_fifo fuel sp (input `quot` PageSize) junk s;
      m ← WriteRegister (mach s) PCReg (s32 (pcAfter - 4));
      Ret (Resume, m, with_thr (th_set_space sp (thr k)) (with_sys s k))
  end.

Section exec.
(** The handler that [ReadMem] calls. *)
Variable handler : ExceptionType → Machine → K → outcome result.
Local Abbreviation ReadMem := (ReadMem big_endian setStatus handler).

(** [ReadMem(addr, 1, &v)], and once more if that returns [FALSE]; nothing is read when the thread
    does not come back. *)
Definition read_char (addr : Z) (m : Machine) (k : K) : outcome (result * option Z) :=
  '(c, m, k, r) ← ReadMem m k addr 1;
  match c, r with
  | Resume, Some v => Ret (c, m, k, Some v)
  | Resume, None =>
      '(c, m, k, r) ← ReadMem m k addr 1;
      match c, r with
      | Resume, None => AssertFails
      | _, _ => Ret (c, m, k, r)
      end
  | _, _ => Ret (c, m, k, None)
  end.

(** The loop over at most [n] characters; [None]: the thread does not come back.  The flag tells
    whether the last character was NUL. *)
Fixpoint read_name (n : nat) (addr : Z) (input : list Z) (m : Machine) (k : K) :
    outcome (result * option (list Z * bool)) :=
  match n with
  | O => Ret (Resume, m, k, Some (input, false))
  | S n =>
      '(c, m, k, r) ← read_char addr m k;
      match c, r with
      | Resume, Some v =>
          if v =? 0 then Ret (c, m, k, Some (input, true))
          else read_name n (s32 (addr + 1)) (input ++ [v]) m k
      | _, _ => Ret (c, m, k, None)
      end
  end.

Definition c_string (bs : list Z) : string :=
  foldr (λ b s, String (Ascii.ascii_of_N (Z.to_N (b mod 256))) s) EmptyString bs.

(** The part of Exec after the file name was read. *)
Definition Spawn (name : string) (m : Machine) (k : K) : outcome result :=
  executable ← Open name (files (sys k));
  match executable with
  | None => m ← WriteRegister m 2 0; Ret (Resume, m, k)
  | Some executable =>
      '(space, s) ← Initialize big_endian executable clock0 junk (on_sys m k);
      let '(t, fork) := th_new space (thr k) in
      '(s, t, res) ← th_Alloc fork s t;
      '(s, t) ← th_Fork fork s t;
      m ← WriteRegister (mach s) 2 res;
      Ret (Resume, m, with_thr t (with_sys s k))
  end.

Definition Exec (m : Machine) (k : K) : outcome result :=
  addr ← ReadRegister m 4;
  '(c, m, k, r) ← read_name 1024 addr [] m k;
  match c, r with
  | Resume, Some (_, false) => m ← WriteRegister m 2 0; Ret (Resume, m, k)
  | Resume, Some (input, true) => Spawn (c_string input) m k
  | _, _ => Ret (c, m, k)
  end.
End exec.

Definition Join (m : Machine) (k : K) : outcome result :=
  id ← ReadRegister m 4;
  t ← th_Get id (thr k);
  '(s, t) ← th_Join t (on_sys m k) (thr k);
  m ← WriteRegister (mach s) 2 (th_getExitStatus t);
  Ret (Resume, m, with_thr t (with_sys s k)).

Definition is_syscall (which : ExceptionType) (type sc : Z) : bool :=
  bool_decide (which = SyscallException) && (type =? sc).

Fixpoint ExceptionHandler (depth : nat) (which : ExceptionType) (m : Machine) (k : K) : outcome result :=
  pc ← ReadRegister m PCReg;
  let pcAfter := s32 (pc + 4) in
  m ← WriteRegister m PCReg pcAfter;
  type ← ReadRegister m 2;
  if is_syscall which type SC_Halt then Ret (HaltMachine, m, k)
  else if is_syscall which type SC_Exec then
    match depth with
    | O => OutOfFuel
    | S depth => Exec (ExceptionHandler depth) m k
    end
  else if is_syscall which type SC_Exit then Destroy m k
  else match which with
    | PageFaultException => page_fault pcAfter m k
    | ReadOnlyException | BusErrorException | AddressErrorException
    | OverflowException | IllegalInstrException => Destroy m k
    | _ =>
        if is_syscall which type SC_Join then Join m k
        else if is_syscall which type SC_Write then Destroy m k
        else AssertFails
    end.

(** *** progtest.cc *)

(** What [NewProcess] and [StartProcess] do before [machine->Run()]. *)
Definition enter_user (sp : AddrSpace) (s : Sys (M := M)) : outcome Sys :=
  s ← InitRegisters sp s;
  Ret (RestoreState sp s).

Definition StartProcess (filename : string) (s : Sys (M := M)) : outcome (option (AddrSpace * Sys)) :=
  executable ← Open filename (files s);
  match executable with
  | None => Ret None
  | Some executable =>
      '(space, s) ← Initialize big_endian executable clock0 junk s;
      s ← enter_user space s;
      Ret (Some (space, s))
  end.

(** *** thread.cc: the registers of a user program while its thread does not run *)
Definition SaveUserState (m : Machine) : outcome (list Z) :=
  for_range (λ i rs, v ← ReadRegister m i; Ret (rs ++ [v])) 0 (Z.to_nat NumTotalRegs) [].

Definition RestoreUserState (userRegisters : list Z) (m : Machine) : outcome Machine :=
  for_range (λ i m, v ← rd userRegisters i; WriteRegister m i v) 0 (Z.to_nat NumTotalRegs) m.

(** The user part of [Scheduler::Run]: before the switch, and when the thread comes back. *)
Definition leave_user (sp : AddrSpace) (s : Sys (M := M)) : outcome (list Z * Sys) :=
  regs ← SaveUserState (mach s);
  Ret (regs, SaveState sp s).

Definition return_to_user (userRegisters : list Z) (sp : AddrSpace) (s : Sys (M := M)) : outcome Sys :=
  m ← RestoreUserState userRegisters (mach s);
  Ret (RestoreState sp (with_mach m s)).

End exception.
End Exception.
