(* ===== verification/Trap.v ===== *)
(** * Traps from user programs, with the memory they see

    The handler of exception.cc over demand paging: a page fault restarts the instruction, the
    kernel reads its arguments out of pages that may not be in memory.  What a process is, seen
    from outside, is in [Process]. *)

From S2P Require Import Prelude CInt MemManage Machine Mips Registers UnixFile VirtMem Paging FlatMemory Exception.
From stdpp Require Import strings.
Import Machine.Machine Mips.Mips Registers.Registers UnixFile.UnixFile VirtMem.VirtMem Paging.Paging FlatMemory.FlatMemory
  Exception.Exception.

Open Scope Z_scope.

(** [currentThread->space] is a field: what is stored in it is found in it, and making another thread does
    not change it, nor does entering and forking it while nobody else runs. *)
Class ThreadLaws (T S : Type) `{ThreadOps T S} := {
  th_space_set sp t : th_space (th_set_space sp t) = Some sp;
  th_space_new sp t : th_space (th_new sp t).1 = th_space t;
  th_space_Alloc n s t t' i : th_Alloc n s t = Ret (s, t', i) → th_space t' = th_space t;
  th_space_Fork n s t t' : th_Fork n s t = Ret (s, t') → th_space t' = th_space t }.

Module Trap.

(** The program counter goes forward and back. *)
Lemma s32_plus_minus pc n : is_s32 pc → 0 ≤ n < 2 ^ 31 → s32 (s32 (pc + n) - n) = pc.
Proof.
  intros Hpc Hn. rewrite <- (s32_small pc Hpc) at 2. apply s32_eq_iff. unfold s32, u32, is_s32 in *.
  Z.div_mod_to_equations. lia.
Qed.

Section trap.
Context {M : Type} `{FrameAllocSpec M}.
Context {T : Type} `{!ThreadOps T (Sys (M := M))} `{!ThreadLaws T (Sys (M := M))}.
Variable big_endian use_fifo : bool.
Variables (fuel : nat) (junk : list Z) (clock0 : Z).
Implicit Types (s : Sys (M := M)) (sp : AddrSpace) (tab : list TranslationEntry) (k : K (M := M) (T := T)).

Local Abbreviation handler := (ExceptionHandler big_endian use_fifo fuel junk clock0).

(** *** The memory of a program, whether its pages were touched or not *)
Definition page_shown sp s tab (h : NoffHeader) (p : nat) : list Z :=
  default (first_bytes sp s h p) (view sp s tab p).
Definition byte_at sp s tab (h : NoffHeader) (a : nat) : option Z := page_shown sp s tab h (a / 128) !! (a mod 128)%nat.

Definition loadable sp s (h : NoffHeader) : Prop :=
  read_noff big_endian (stored_executable sp) junk s = Ret h ∧ ∀ p pos, source h p = Some pos → 0 ≤ pos.

(** The files a program has open exist. *)
Definition open_files sp (u : Unix) : Prop :=
  unix_ok u ∧ is_Some (inodes u !! file (bs_file (backing sp))) ∧ is_Some (inodes u !! file (stored_executable sp)).

Lemma open_files_same sp u u' : same_files u u' → open_files sp u → open_files sp u'.
Proof.
  intros [En Ei] ([Hn Hi] & Hb & He). split; [split|by split; apply Ei].
  - rewrite En. apply Hn.
  - intros n fd E. rewrite En in E. by eapply Ei, Hi.
Qed.

(** The running thread has the address space [sp] with the page table [tab], and its program has the header
    [h]. *)
Record process (h : NoffHeader) (m : Machine) k sp tab : Prop := {
  pr_space : th_space (thr k) = Some sp;
  pr_inv : vm_inv sp (on_sys m k) tab;
  pr_current : current sp (on_sys m k);
  pr_regs : regs_wf m;
  pr_room : room (on_sys m k) tab;
  pr_loadable : loadable sp (on_sys m k) h;
  pr_files : open_files sp (files (sys k));
  pr_fuel : (2 * length tab ≤ fuel)%nat }.

(** Nothing in the memory the program sees is lost from one state to the other. *)
Definition keeps_memory sp s tab h sp' s' tab' : Prop :=
  length tab' = length tab ∧ ∀ a b, byte_at sp s tab h a = Some b → byte_at sp' s' tab' h a = Some b.

Lemma keeps_memory_refl sp s tab h : keeps_memory sp s tab h sp s tab.
Proof. by split. Qed.

Lemma keeps_memory_trans sp s tab h sp1 s1 tab1 sp2 s2 tab2 :
  keeps_memory sp s tab h sp1 s1 tab1 → keeps_memory sp1 s1 tab1 h sp2 s2 tab2 → keeps_memory sp s tab h sp2 s2 tab2.
Proof. intros [L1 H1] [L2 H2]. split; [congruence|]. intros a b Hb. by apply H2, H1. Qed.

Lemma read_noff_same exe s s' :
  content (files s') (file exe) = content (files s) (file exe) →
  read_noff big_endian exe junk s' = read_noff big_endian exe junk s.
Proof. intros E. unfold read_noff, ReadAt, ReadPartial. by rewrite E. Qed.

Lemma first_bytes_same sp s sp' s' h p :
  stored_executable sp' = stored_executable sp →
  content (files s') (file (stored_executable sp)) = content (files s) (file (stored_executable sp)) →
  first_bytes sp' s' h p = first_bytes sp s h p.
Proof. intros E1 E2. unfold first_bytes. by rewrite E1, E2. Qed.

Lemma vm_inv_regs sp s tab r : vm_inv sp s tab → vm_inv sp (with_mach (with_registers (mach s) r) s) tab.
Proof. intros Hi. split; [split|..]; apply Hi. Qed.

(** A state that shows the pages as before, or brings one in. *)
Lemma keeps_memory_views sp s tab h sp' s' tab' p :
  length tab' = length tab → (∀ q, first_bytes sp' s' h q = first_bytes sp s h q) →
  (∀ j, j ≠ p → view sp' s' tab' j = view sp s tab j) →
  match view sp s tab p with
  | Some c => view sp' s' tab' p = Some c
  | None => ∃ old, view sp' s' tab' p = Some (first_bytes sp s h p ++ old)
  end → keeps_memory sp s tab h sp' s' tab'.
Proof.
  intros Hl Hf Hother Hp. split; [done|]. intros a b. unfold byte_at, page_shown.
  destruct (decide ((a / 128)%nat = p)) as [<-|Hne]; [|by rewrite Hother, Hf].
  destruct (view sp s tab (a / 128)) as [c|]; [by rewrite Hp|]. destruct Hp as [old ->]. cbn [default from_option id].
  intros Hb. rewrite lookup_app_l; [done|]. by eapply lookup_lt_Some.
Qed.

Lemma handler_page_fault depth m k :
  handler depth PageFaultException m k =
    (pc ← ReadRegister m PCReg; m ← WriteRegister m PCReg (s32 (pc + 4)); _ ← ReadRegister m 2;
     page_fault big_endian use_fifo fuel junk (s32 (pc + 4)) m k).
Proof. by destruct depth. Qed.

(** [ExceptionHandler] on a page fault. *)
Lemma page_fault_ok depth h m k sp tab p e off :
  process h m k sp tab → tab !! p = Some e → valid e = false →
  0 ≤ off < PageSize → reg m BadVAddrReg = Ret (Z.of_nat p * PageSize + off) →
  ∃ m' k' sp' tab', handler depth PageFaultException m k = Ret (Resume, m', k') ∧
    process h m' k' sp' tab' ∧ (∃ e', tab' !! p = Some e' ∧ valid e' = true) ∧
    registers m' = registers m ∧ thr k' = th_set_space sp' (thr k) ∧ status k' = status k ∧
    quiet sp (on_sys m k) tab (on_sys m' k') ∧
    (∀ q, foreign (on_sys m k) tab q → foreign (on_sys m' k') tab' q) ∧ (∃ c, sp' = with_clock c sp) ∧
    keeps_memory sp (on_sys m k) tab h sp' (on_sys m' k') tab'.
Proof.
  intros [Hsp Hi Hcur Hw Hroom [Hh Hpos] Hfiles Hfuel] E Hv Hoff Hbad. rewrite handler_page_fault.
  destruct (ReadRegister_wf m PCReg Hw) as (pc & Epc & Hpc); [regs|]. rewrite Epc. cbn [mbind outcome_bind].
  rewrite WriteRegister_put by (done || regs). cbn [mbind outcome_bind].
  set (m1 := put_reg m PCReg (s32 (pc + 4))).
  assert (regs_wf m1) as Hw1 by (apply put_reg_wf; [done|regs|apply s32_range|regs]).
  destruct (ReadRegister_wf m1 2 Hw1) as (ty & Ety & _); [regs|]. rewrite Ety. cbn [mbind outcome_bind].
  unfold page_fault.
  assert (reg m1 BadVAddrReg = Ret (Z.of_nat p * PageSize + off)) as Hbad1
    by (unfold m1; by rewrite reg_put_ne by (done || regs)).
  rewrite ReadRegister_reg, Hbad1 by regs. cbn [mbind outcome_bind].
  rewrite Hsp. replace ((Z.of_nat p * PageSize + off) `quot` PageSize) with (Z.of_nat p)
    by (change PageSize with 128 in *; rewrite Z.quot_div_nonneg by lia; Z.div_mod_to_equations; lia).
  set (s1 := count_fault (on_sys m1 k)).
  destruct (demandpage_spec big_endian use_fifo fuel sp s1 tab p e junk)
    as (sp' & s' & tab' & -> & [c ->] & Hi' & Hq & Hfor & Hval & Hother & Hp);
    [|exact E|exact Hv|exact Hfuel|exact Hroom|..].
  { split; [split|..]; apply Hi. }
  { intros _. exists h. split; [exact Hh|apply Hpos]. }
  assert (cpu (mach s') = cpu m1) as Hcpu by apply Hq. unfold cpu in Hcpu.
  injection Hcpu as Hregs Htlb Hpt Hps Hss Hru.
  assert (put_reg (mach s') PCReg (s32 (s32 (pc + 4) - 4)) = with_registers (mach s') (registers m)) as Em.
  { unfold put_reg. rewrite Hregs. unfold with_registers. cbn [m1 put_reg registers with_registers].
    rewrite list_insert_insert_eq. rewrite s32_plus_minus by (done || lia). f_equal. apply list_insert_id.
    apply rd_Ret. by rewrite ReadRegister_reg in Epc by regs. }
  assert (regs_wf (mach s')) as Hw' by (by apply (regs_wf_same m1)).
  cbn [mbind outcome_bind]. rewrite WriteRegister_put, Em by (done || regs). cbn [mbind outcome_bind].
  assert (quiet sp (on_sys m k) tab (with_mach (with_registers (mach s') (registers m)) s')) as Hquiet.
  { split; [apply (qu_frames _ _ _ _ Hq)|apply (qu_files _ _ _ _ Hq)|apply Hq|apply (qu_tables _ _ _ _ Hq)|].
    unfold cpu. cbn. by rewrite Htlb, Hpt, Hps, Hss, Hru. }
  assert (content (files s') (file (stored_executable sp)) = content (files (on_sys m k)) (file (stored_executable sp)))
    as Hexe by (apply (qu_files _ _ _ _ Hq), Hi).
  assert (length tab' = length tab) as Hlen.
  { pose proof (vo_len _ _ _ (vi_ok _ _ _ Hi)). pose proof (vo_len _ _ _ (vi_ok _ _ _ Hi')). cbn in *. lia. }
  exists (with_registers (mach s') (registers m)), (with_thr (th_set_space (with_clock c sp) (thr k)) (with_sys s' k)),
    (with_clock c sp), tab'. split; [reflexivity|]. split; [|split_and!; try done; [by exists c|]].
  - split; [apply th_space_set|by apply vm_inv_regs| | | |split; [|exact Hpos]| |by rewrite Hlen].
    + destruct Hcur as (C1 & C2 & C3). cbn in C1, C2, C3.
      split_and!; cbn; [by rewrite Htlb|by rewrite Hpt|by rewrite Hps].
    + by apply (regs_wf_same m).
    + right. destruct Hval as (e' & E' & V'). by exists p, e'.
    + rewrite <- Hh. by apply read_noff_same.
    + exact (open_files_same sp _ _ (qu_names _ _ _ _ Hq) Hfiles).
  - apply (keeps_memory_views _ _ _ _ _ _ _ p); [done| |exact Hother|].
    + intros q. by apply first_bytes_same.
    + change (view sp s1 tab p) with (view sp (on_sys m k) tab p) in Hp.
      destruct (view sp (on_sys m k) tab p); [exact Hp|]. destruct (Hp h Hh) as [old Ho]. by exists old.
Qed.

(** *** Accesses to pages that may not be in memory *)
Lemma Translate_fault sp s tab p e off size writing :
  vm_ok sp s tab → current sp s → tab !! p = Some e → valid e = false → access_size size → aligned_in_page off size →
  Translate (mach s) (Z.of_nat p * PageSize + off) size writing = Ret (mach s, inl PageFaultException).
Proof.
  intros Hok (Htlb & Hpt & Hps) E Hv Hs Hal. pose proof Hal as (H1 & H2 & H3).
  pose proof (lookup_lt_Some _ _ _ E) as Hp. pose proof (vo_len _ _ _ Hok) as Hlen.
  destruct (vo_pages _ _ _ Hok) as [_ Hmax].
  assert (0 < size) as Hpos by (destruct Hs as [-> | [-> | ->]]; lia).
  unfold Translate. rewrite aligned_address by (done || lia).
  rewrite u32_small by (change PageSize with 128 in *; unfold is_u32; lia).
  replace ((Z.of_nat p * PageSize + off) / PageSize) with (Z.of_nat p)
    by (change PageSize with 128 in *; Z.div_mod_to_equations; lia).
  unfold find_entry. rewrite Htlb, Hpt, Hps, (vo_tab _ _ _ Hok).
  rewrite (proj2 (Z.leb_gt _ _)) by lia. rewrite (rd_lookup _ _ e) by (lia || by rewrite Nat2Z.id).
  cbn [mbind outcome_bind]. by rewrite Hv.
Qed.

(** A page fault writes the address space of the running thread back, and changes nothing else of the threads. *)
Definition respaced (t t' : T) : Prop := ∃ sp, t' = th_set_space sp t.

(** The machine and the kernel around a trap. *)
Record trapped (h : NoffHeader) m k sp tab m' k' sp' tab' : Prop := {
  td_process : process h m' k' sp' tab';
  td_memory : keeps_memory sp (on_sys m k) tab h sp' (on_sys m' k') tab';
  td_regs i : i = PCReg ∨ i = NextPCReg → reg m' i = reg m i;
  td_files fd : fd ≠ file (bs_file (backing sp)) → content (files (sys k')) fd = content (files (sys k)) fd;
  td_names : same_files (files (sys k)) (files (sys k'));
  td_backing : backing sp' = backing sp ∧ stored_executable sp' = stored_executable sp;
  td_gprs r : 0 < r < NumGPRegs → settled m' r = settled m r;
  td_pending : R m' LoadReg = 0 ∨ R m' LoadReg = R m LoadReg;
  td_zero : R m 0 = 0 → R m' 0 = 0;
  td_threads : rtc respaced (thr k) (thr k');
  td_foreign q : foreign (on_sys m k) tab q → foreign (on_sys m' k') tab' q }.

Lemma trapped_refl h m k sp tab : process h m k sp tab → trapped h m k sp tab m k sp tab.
Proof. intros Hp. split; [done|apply keeps_memory_refl|done..|by right|done|apply rtc_refl|done]. Qed.

Lemma trapped_trans h m k sp tab m1 k1 sp1 tab1 m2 k2 sp2 tab2 :
  trapped h m k sp tab m1 k1 sp1 tab1 → trapped h m1 k1 sp1 tab1 m2 k2 sp2 tab2 → trapped h m k sp tab m2 k2 sp2 tab2.
Proof.
  intros [P1 M1 R1 F1 N1 [B1 S1] G1 D1 Z1 T1 Q1] [P2 M2 R2 F2 N2 [B2 S2] G2 D2 Z2 T2 Q2]. rewrite B1 in *. rewrite S1 in *. split; try done; [..|tauto|by etrans|auto].
  - by eapply keeps_memory_trans.
  - intros i Hi. by rewrite R2, R1.
  - intros fd Hfd. by rewrite F2, F1.
  - destruct N1, N2. split; [congruence|auto].
  - intros r Hr. by rewrite G2, G1.
  - destruct D2 as [->| ->]; [by left|done].
Qed.

(** A trap does the load that is pending. *)
Lemma trap_registers m va m2 : regs_wf m → is_s32 va → DelayedLoad (put_reg m BadVAddrReg va) 0 0 = Ret m2 →
  R m2 0 = 0 ∧ (∀ r, 0 < r < NumGPRegs → settled m2 r = settled m r) ∧ R m2 LoadReg = 0.
Proof.
  intros Hw Hva E. assert (regs_wf (put_reg m BadVAddrReg va)) as Hw1 by (apply put_reg_wf; done || regs).
  destruct (DelayedLoad_view (put_reg m BadVAddrReg va) 0 0) as (m' & E' & _ & _ & Z & G & L & _); [done|regs|unfold is_s32; lia|].
  rewrite E in E'. injection E' as <-. split; [done|]. split; [|done]. intros r Hr.
  unfold settled at 1. rewrite L, eqb_false, G by lia. unfold settled. rewrite !R_put by (done || regs).
  by rewrite (eqb_false BadVAddrReg LoadReg), (eqb_false BadVAddrReg LoadValueReg), (eqb_false BadVAddrReg r) by regs.
Qed.

(** What the hardware does before it calls the handler. *)
Lemma process_regs h m k sp tab r st :
  process h m k sp tab → regs_wf (with_registers m r) → process h (with_registers m r) (setStatus st k) sp tab.
Proof. intros [P1 P2 P3 P4 P5 P6 P7 P8] Hr. split; try done. by apply (vm_inv_regs sp (on_sys m k)). Qed.

Lemma setStatus_process h m k sp tab st : process h m k sp tab → process h m (setStatus st k) sp tab.
Proof. intros [P1 P2 P3 P4 P5 P6 P7 P8]. by split. Qed.

Lemma raise_page_fault depth h m k sp tab p e off :
  process h m k sp tab → tab !! p = Some e → valid e = false → 0 ≤ off < PageSize →
  ∃ m' k' sp' tab',
    RaiseException setStatus (handler depth) PageFaultException (Z.of_nat p * PageSize + off) m k = Ret (Resume, m', k') ∧
    trapped h m k sp tab m' k' sp' tab' ∧ ∃ e', tab' !! p = Some e' ∧ valid e' = true.
Proof.
  intros Hp E Hv Hoff. pose proof (pr_regs _ _ _ _ _ Hp) as Hw. pose proof (pr_inv _ _ _ _ _ Hp) as Hi.
  destruct (vo_pages _ _ _ (vi_ok _ _ _ Hi)) as [_ Hmax]. pose proof (lookup_lt_Some _ _ _ E) as Hlt.
  pose proof (vo_len _ _ _ (vi_ok _ _ _ Hi)) as Hlen. set (va := Z.of_nat p * PageSize + off).
  assert (is_s32 va) as Hva by (unfold va, is_s32; change PageSize with 128 in *; lia).
  unfold RaiseException. rewrite set_reg_put by (done || regs). cbn [mbind outcome_bind].
  assert (regs_wf (put_reg m BadVAddrReg va)) as Hw1 by (apply put_reg_wf; done || regs).
  destruct (DelayedLoad_regs (put_reg m BadVAddrReg va) 0 0 Hw1) as (m2 & EDL & Hw2 & _ & Em2 & Hk2);
    [regs|by unfold is_s32|]. rewrite EDL. cbn [mbind outcome_bind].
  pose proof (trap_registers m va m2 Hw Hva EDL) as (V0 & V & VL).
  assert (process h m2 (setStatus SystemMode k) sp tab) as Hp2.
  { rewrite Em2 in Hw2 |- *. by apply (process_regs h m k sp tab (registers m2)). }
  assert (on_sys m2 (setStatus SystemMode k) = with_mach (with_registers m (registers m2)) (on_sys m k)) as Esys
    by (by rewrite Em2 at 1).
  destruct (page_fault_ok depth h m2 (setStatus SystemMode k) sp tab p e off Hp2 E Hv Hoff)
    as (m' & k' & sp' & tab' & -> & Hp' & Hval & Hregs & Hthr & _ & Hq & Hfor & [c ->] & Hm).
  { rewrite Hk2 by regs. by apply reg_put; [|regs]. }
  cbn [mbind outcome_bind]. exists m', (setStatus UserMode k'), (with_clock c sp), tab'. split; [reflexivity|]. split; [|done].
  split.
  - by apply setStatus_process.
  - rewrite Esys in Hm. exact Hm.
  - intros i Hi'. transitivity (reg m2 i); [unfold reg; by rewrite Hregs|].
    assert (reg (put_reg m BadVAddrReg va) i = reg m i) as <- by (apply reg_put_ne; [done|regs|]; destruct Hi' as [-> | ->]; done).
    apply Hk2; destruct Hi' as [-> | ->]; regs.
  - apply (qu_files _ _ _ _ Hq).
  - apply (qu_names _ _ _ _ Hq).
  - done.
  - intros r Hr. rewrite <- V by done. unfold settled, R. by rewrite Hregs.
  - left. trans (R m2 LoadReg); [unfold R; by rewrite Hregs|done].
  - intros _. trans (R m2 0); [unfold R; by rewrite Hregs|done].
  - apply rtc_once. by eexists.
  - intros q Hf. apply Hfor. rewrite Esys. exact Hf.
Qed.

(** A piece of the program's memory. *)
Definition bytes_at sp s tab h (a : nat) (bs : list Z) : Prop :=
  ∀ i b, bs !! i = Some b → byte_at sp s tab h (a + i) = Some b.

Lemma keeps_bytes sp s tab h sp' s' tab' a bs :
  keeps_memory sp s tab h sp' s' tab' → bytes_at sp s tab h a bs → bytes_at sp' s' tab' h a bs.
Proof. intros [_ Hk] Hb i b Hi. by apply Hk, Hb. Qed.

(** A load on a page in memory. *)
Lemma load_valid hd h m k sp tab p e off size bs :
  process h m k sp tab → tab !! p = Some e → valid e = true → access_size size → aligned_in_page off size →
  bytes_at sp (on_sys m k) tab h (128 * p + Z.to_nat off) bs → length bs = Z.to_nat size → Forall is_byte bs →
  ∃ m' tab', ReadMem big_endian setStatus hd m k (Z.of_nat p * PageSize + off) size =
      Ret (Resume, m', k, Some (loaded size (le_value bs))) ∧ trapped h m k sp tab m' k sp tab' ∧
    ∃ e', tab' !! p = Some e' ∧ valid e' = true.
Proof.
  intros Hp E Hv Hs Hal Hbs Hlen Hb. pose proof Hp as [P1 Hi Hcur P4 P5 P6 P7 P8]. pose proof Hal as (H1 & H2 & _).
  change PageSize with 128 in H2. assert (0 < size) as Hsz by (destruct Hs as [-> | [-> | ->]]; lia).
  set (c := frame (on_sys m k) (physicalPage e)).
  assert (view sp (on_sys m k) tab p = Some c) as Hc by (unfold view; by rewrite E, Hv).
  assert (take (Z.to_nat size) (drop (Z.to_nat off) c) = bs) as Eb.
  { apply list_eq. intros i. destruct (bs !! i) as [b|] eqn:Ei.
    - pose proof (lookup_lt_Some _ _ _ Ei) as Hli. specialize (Hbs i b Ei). unfold byte_at, page_shown in Hbs.
      replace ((128 * p + Z.to_nat off + i) / 128)%nat with p in Hbs by (apply (Nat.div_unique _ _ _ (Z.to_nat off + i)); lia).
      replace ((128 * p + Z.to_nat off + i) mod 128)%nat with (Z.to_nat off + i)%nat in Hbs
        by (apply (Nat.mod_unique _ _ p); lia).
      rewrite Hc in Hbs. cbn [default from_option id] in Hbs. by rewrite lookup_take_lt, lookup_drop by lia.
    - apply lookup_ge_None in Ei. apply lookup_take_ge. lia. }
  pose proof (user_load big_endian setStatus hd sp (on_sys m k) tab p e c off size k Hi Hcur E Hv Hc) as Hl.
  rewrite Eb in Hl. change (mach (on_sys m k)) with m in Hl. rewrite Hl by done.
  set (tab' := <[p := touch e false]> tab). exists (mach (put_table sp tab' (on_sys m k))), tab'. split; [reflexivity|].
  assert (Forall2 same_page tab tab') as H3 by (apply (same_pages_insert _ _ _ e); [apply same_pages_refl|done..]).
  assert (tab' !! p = Some (touch e false)) as Ep by (by apply list_lookup_insert_eq; eapply lookup_lt_Some).
  split; [|by exists (touch e false)]. split; try done.
  - split; [done|by apply (vm_inv_same sp (on_sys m k) tab)|done| | |done|done|unfold tab'; by rewrite length_insert].
    + by apply (regs_wf_same m).
    + right. by exists p, (touch e false).
  - split; [unfold tab'; by rewrite length_insert|]. intros a b. unfold byte_at, page_shown.
    change (on_sys (mach (put_table sp tab' (on_sys m k))) k) with (put_table sp tab' (on_sys m k)).
    by rewrite (view_same sp (on_sys m k) tab tab').
  - by right.
  - intros q [Hq1 Hq2]. split; [done|]. intros j ej Ej Hvj.
    destruct (Forall2_lookup_r _ _ _ _ _ H3 Ej) as (e0 & E0 & _ & -> & Ev0 & _). apply (Hq2 j e0 E0). congruence.
Qed.

(** A load on a page that is not in memory: the page is there afterwards. *)
Lemma load_faults depth h m k sp tab p e off size :
  process h m k sp tab → tab !! p = Some e → valid e = false → access_size size → aligned_in_page off size →
  ∃ m' k' sp' tab',
    ReadMem big_endian setStatus (handler depth) m k (Z.of_nat p * PageSize + off) size = Ret (Resume, m', k', None) ∧
    trapped h m k sp tab m' k' sp' tab' ∧ ∃ e', tab' !! p = Some e' ∧ valid e' = true.
Proof.
  intros Hp E Hv Hs Hal. pose proof Hal as (H1 & H2 & _).
  assert (0 < size) as Hsz by (destruct Hs as [-> | [-> | ->]]; lia).
  destruct (raise_page_fault depth h m k sp tab p e off Hp E Hv) as (m1 & k1 & sp1 & tab1 & Er & Ht1 & Hval); [lia|].
  exists m1, k1, sp1, tab1. split; [|done].
  pose proof (Translate_fault sp (on_sys m k) tab p e off size false (vi_ok _ _ _ (pr_inv _ _ _ _ _ Hp))
    (pr_current _ _ _ _ _ Hp) E Hv Hs Hal) as Htr. change (mach (on_sys m k)) with m in Htr.
  unfold ReadMem. rewrite Htr. cbn [mbind outcome_bind]. by rewrite Er.
Qed.

(** A load on a page that is not in memory faults, and succeeds when it is repeated. *)
Lemma load_across_fault depth h m k sp tab p off size bs :
  process h m k sp tab → (p < length tab)%nat → access_size size → aligned_in_page off size →
  bytes_at sp (on_sys m k) tab h (128 * p + Z.to_nat off) bs → length bs = Z.to_nat size → Forall is_byte bs →
  let load m k := ReadMem big_endian setStatus (handler depth) m k (Z.of_nat p * PageSize + off) size in
  ∃ m' k' sp' tab', trapped h m k sp tab m' k' sp' tab' ∧
    (load m k = Ret (Resume, m', k', Some (loaded size (le_value bs))) ∨
     ∃ m1 k1, load m k = Ret (Resume, m1, k1, None) ∧
       (∀ i, i = PCReg ∨ i = NextPCReg → reg m1 i = reg m i) ∧
       load m1 k1 = Ret (Resume, m', k', Some (loaded size (le_value bs)))).
Proof.
  intros Hp Hlt Hs Hal Hbs Hlen Hb load. destruct (lookup_lt_is_Some_2 tab p Hlt) as [e E].
  destruct (valid e) eqn:Hv.
  - destruct (load_valid (handler depth) h m k sp tab p e off size bs) as (m' & tab' & El & Ht & _); [done..|].
    exists m', k, sp, tab'. auto.
  - destruct (load_faults depth h m k sp tab p e off size) as (m1 & k1 & sp1 & tab1 & Er & Ht1 & e1 & E1 & Hv1); [done..|].
    destruct (load_valid (handler depth) h m1 k1 sp1 tab1 p e1 off size bs) as (m2 & tab2 & El & Ht2 & _);
      try done; [apply Ht1|by eapply keeps_bytes; [apply Ht1|]|].
    exists m2, k1, sp1, tab2. split; [by eapply trapped_trans|]. right. exists m1, k1. split_and!; [exact Er|apply Ht1|exact El].
Qed.

Lemma read_char_ok depth h m k sp tab a b :
  process h m k sp tab → (a < 128 * length tab)%nat → byte_at sp (on_sys m k) tab h a = Some b → is_byte b →
  ∃ m' k' sp' tab', read_char big_endian (handler depth) (Z.of_nat a) m k = Ret (Resume, m', k', Some (s8 b)) ∧
    trapped h m k sp tab m' k' sp' tab'.
Proof.
  intros Hp Ha Hbyte Hb. pose proof (Nat.div_mod a 128 ltac:(lia)) as Hdm.
  pose proof (Nat.mod_upper_bound a 128 ltac:(lia)) as Hmb.
  destruct (load_across_fault depth h m k sp tab (a / 128) (Z.of_nat (a mod 128)) 1 [b])
    as (m' & k' & sp' & tab' & Ht & Hl); try done.
  - apply Nat.Div0.div_lt_upper_bound. lia.
  - by left.
  - split_and!; [lia|change PageSize with 128; lia|apply Z.mod_1_r].
  - intros i b' Hi. destruct i as [|[]]; [|done..]. injection Hi as <-. rewrite Nat2Z.id. rewrite <- Hbyte. f_equal. lia.
  - by apply Forall_singleton.
  - assert (Z.of_nat (a / 128) * PageSize + Z.of_nat (a mod 128) = Z.of_nat a) as Ea by (change PageSize with 128; lia).
    rewrite Ea in Hl. assert (loaded 1 (le_value [b]) = s8 b) as El by (cbn; f_equal; lia). rewrite El in Hl.
    exists m', k', sp', tab'. split; [|done]. unfold read_char.
    destruct Hl as [->|(m1 & k1 & -> & _ & El1)]; cbn [mbind outcome_bind]; [done|]. by rewrite El1.
Qed.

(** The characters of a string in the program's memory, up to NUL or [n] of them. *)
Lemma read_name_ok depth h name : ∀ n a input m k sp tab,
  process h m k sp tab → Forall (λ b, is_byte b ∧ b ≠ 0) name → (a + length name ≤ 128 * length tab)%nat →
  bytes_at sp (on_sys m k) tab h a name → (length name ≤ n)%nat →
  ((length name < n)%nat → byte_at sp (on_sys m k) tab h (a + length name) = Some 0 ∧ (a + length name < 128 * length tab)%nat) →
  ∃ m' k' sp' tab', read_name big_endian (handler depth) n (Z.of_nat a) input m k =
      Ret (Resume, m', k', Some (input ++ (s8 <$> name), bool_decide (length name < n)%nat)) ∧
    trapped h m k sp tab m' k' sp' tab'.
Proof.
  induction name as [|b name IH]; intros n a input m k sp tab Hp Hname Ha Hbs Hn Hend.
  - destruct n as [|n]; [exists m, k, sp, tab; rewrite app_nil_r; split; [done|by apply trapped_refl]|].
    destruct Hend as [Hend Ha']; [cbn; lia|]. cbn [length] in Hend, Ha'. rewrite Nat.add_0_r in *.
    destruct (read_char_ok depth h m k sp tab a 0) as (m' & k' & sp' & tab' & Er & Ht); [done..|].
    exists m', k', sp', tab'. split; [|done]. cbn [read_name]. rewrite Er. cbn [mbind outcome_bind].
    change (s8 0 =? 0) with true. cbn iota. rewrite app_nil_r. by rewrite bool_decide_eq_true_2 by (cbn; lia).
  - destruct n as [|n]; [cbn in Hn; lia|]. inversion_clear Hname as [|? ? [Hb Hb0] Hname'].
    destruct (read_char_ok depth h m k sp tab a b) as (m1 & k1 & sp1 & tab1 & Er & Ht1);
      [done|cbn in Ha; lia| |done|].
    { rewrite <- (Hbs 0%nat b eq_refl). f_equal. lia. }
    pose proof (td_memory _ _ _ _ _ _ _ _ _ Ht1) as [Hlen _].
    destruct (IH n (a + 1)%nat (input ++ [s8 b]) m1 k1 sp1 tab1) as (m' & k' & sp' & tab' & Er2 & Ht2).
    + apply Ht1.
    + done.
    + rewrite Hlen. cbn in Ha. lia.
    + eapply keeps_bytes; [apply Ht1|]. intros i b' Hi. rewrite <- (Hbs (S i) b' Hi). f_equal. lia.
    + cbn in Hn. lia.
    + intros Hln. destruct Hend as [Hend Ha']; [cbn; lia|]. cbn [length] in Hend, Ha'. rewrite Hlen.
      replace (a + 1 + length name)%nat with (a + S (length name))%nat by lia. split; [|done]. by apply Ht1.
    + exists m', k', sp', tab'. split; [|by eapply trapped_trans]. cbn [read_name]. rewrite Er. cbn [mbind outcome_bind].
      rewrite eqb_false by (unfold s8, is_byte in *; Z.div_mod_to_equations; lia).
      pose proof (vo_pages _ _ _ (vi_ok _ _ _ (pr_inv _ _ _ _ _ Hp))) as [_ Hmax].
      pose proof (vo_len _ _ _ (vi_ok _ _ _ (pr_inv _ _ _ _ _ Hp))) as Hl. change PageSize with 128 in Hmax.
      rewrite s32_small by (unfold is_s32; cbn in Ha; lia). replace (Z.of_nat a + 1) with (Z.of_nat (a + 1)) by lia.
      rewrite Er2. cbn [fmap list_fmap]. rewrite <- app_assoc. cbn [app]. do 4 f_equal.
      apply bool_decide_ext. cbn. lia.
Qed.

Lemma c_string_s8 bs : c_string (s8 <$> bs) = c_string bs.
Proof.
  induction bs as [|b bs IH]; [done|]. cbn. unfold c_string in IH. rewrite IH. do 3 f_equal.
  unfold s8. Z.div_mod_to_equations. lia.
Qed.

Definition is_name (name : list Z) : Prop := Forall (λ b, is_byte b ∧ b ≠ 0) name.

(** Exec as far as the name of the file. *)
Lemma Exec_reads depth h m k sp tab a name :
  process h m k sp tab → reg m 4 = Ret (Z.of_nat a) → is_name name → (length name ≤ 1024)%nat →
  bytes_at sp (on_sys m k) tab h a name → (a + length name ≤ 128 * length tab)%nat →
  ((length name < 1024)%nat → byte_at sp (on_sys m k) tab h (a + length name) = Some 0 ∧
     (a + length name < 128 * length tab)%nat) →
  ∃ m' k' sp' tab', trapped h m k sp tab m' k' sp' tab' ∧
    Exec big_endian junk clock0 (handler depth) m k =
      if bool_decide (length name < 1024)%nat then Spawn big_endian junk clock0 (c_string name) m' k'
      else Ret (Resume, put_reg m' 2 0, k').
Proof.
  intros Hp Hr4 Hn Hlen Hbs Ha Hend. unfold Exec. rewrite ReadRegister_reg, Hr4 by regs. cbn [mbind outcome_bind].
  destruct (read_name_ok depth h name 1024 a [] m k sp tab) as (m' & k' & sp' & tab' & -> & Ht); [done..|].
  cbn [mbind outcome_bind app]. exists m', k', sp', tab'. split; [done|].
  case_bool_decide; [by rewrite c_string_s8|].
  by rewrite WriteRegister_put by (regs || apply (td_process _ _ _ _ _ _ _ _ _ Ht)).
Qed.

(** A process is not disturbed by a new address space whose files are others. *)
Lemma process_beside h m k sp tab m' k' t tab_t :
  process h m k sp tab → th_space (thr k') = Some sp → regs_wf m' →
  m' = with_registers (with_tables m (<[t := tab_t]> (tables m))) (registers m') → t ≠ pageTable sp →
  memmanage (sys k') = memmanage (sys k) →
  (∀ fd, fd = file (bs_file (backing sp)) ∨ fd = file (stored_executable sp) →
     content (files (sys k')) fd = content (files (sys k)) fd) → open_files sp (files (sys k')) →
  process h m' k' sp tab ∧ keeps_memory sp (on_sys m k) tab h sp (on_sys m' k') tab.
Proof.
  intros Hp Hsp Hw Hm Ht Hmm Hf Hof. pose proof Hp as [_ Hi Hcur _ Hroom [Hh Hpos] _ Hfuel].
  pose proof (vi_ok _ _ _ Hi) as Hok.
  assert (∀ f, frame (on_sys m' k') f = frame (on_sys m k) f) as Hframe by (intros f; by rewrite Hm).
  assert (∀ i, piece sp (on_sys m' k') i = piece sp (on_sys m k) i) as Hpiece
    by (intros i; unfold piece, backing_bytes; f_equal; apply Hf; auto).
  assert (∀ i, view sp (on_sys m' k') tab i = view sp (on_sys m k) tab i) as Hview
    by (intros i; unfold view; destruct (tab !! i); [|done]; by rewrite Hframe, Hpiece).
  assert (content (files (sys k')) (file (stored_executable sp)) = content (files (sys k)) (file (stored_executable sp)))
    as Hexe by (apply Hf; auto).
  split; [split|].
  - done.
  - split; [split| |apply Hi].
    + rewrite Hm. cbn. rewrite lookup_insert_ne by done. apply Hok.
    + apply Hok.
    + apply Hok.
    + apply Hok.
    + rewrite Hm. apply Hok.
    + cbn. rewrite Hmm. apply Hok.
    + cbn. rewrite Hmm. apply Hok.
    + apply Hok.
    + intros i e E Hv Hd. rewrite Hframe, Hpiece. by apply (vo_clean _ _ _ Hok).
    + intros i c. rewrite Hview. apply (vi_pages _ _ _ Hi).
  - rewrite Hm. apply Hcur.
  - done.
  - destruct Hroom as [Hr|Hr]; [left|by right]. cbn. by rewrite Hmm.
  - split; [|done]. rewrite <- Hh. by apply read_noff_same.
  - done.
  - done.
  - split; [done|]. intros a b. unfold byte_at, page_shown. rewrite Hview.
    by rewrite (first_bytes_same sp (on_sys m k) sp (on_sys m' k')).
Qed.

(** The file [fd] holds a program that can be started beside [sp]: its header is in order, and a backing file
    of that size, if there is one, is none of the files in use. *)
Record startable sp (u : Unix) (fd : nat) (h : NoffHeader) : Prop := {
  su_header s : files s = u → read_noff big_endian (mkOpenFile fd 0) junk s = Ret h;
  su_size : 0 < space_pages h ∧ space_pages h * PageSize < 2 ^ 31;
  su_clock : 0 ≤ clock0 < space_pages h;
  su_exists : is_Some (inodes u !! fd) ∧ fd ≠ file (bs_file (backing sp));
  su_apart b : names u !! backing_name (space_pages h * PageSize) = Some b →
    b ≠ fd ∧ b ≠ file (bs_file (backing sp)) ∧ b ≠ file (stored_executable sp) }.

Lemma startable_trapped h m k sp tab m' k' sp' tab' fd h2 :
  trapped h m k sp tab m' k' sp' tab' → startable sp (files (sys k)) fd h2 → startable sp' (files (sys k')) fd h2.
Proof.
  intros [_ _ _ Hf [Hn Hi] [Hb He] _ _ _ _ _] [Hh Hs Hc [Hx Hne] Ha]. split; try done.
  - intros s E. rewrite <- (Hh (on_sys m k) eq_refl). apply read_noff_same. rewrite E. by apply Hf.
  - rewrite Hb. split; [by apply Hi|done].
  - rewrite Hb, He, Hn. done.
Qed.

(** The thread for the new program is made, entered in the table, and forked, and no other thread gets the
    processor meanwhile. *)
Definition forked (sp2 : AddrSpace) s (t : T) (res : Z) (t' : T) : Prop :=
  let '(t0, n) := th_new sp2 t in ∃ t1, th_Alloc n s t0 = Ret (s, t1, res) ∧ th_Fork n s t1 = Ret (s, t').

(** With the threads in the state [t], another one can be made, entered in the table, and forked, whatever
    happens to the address space of the caller before: the lock of the table is free, the search for
    an entry ends, and no time slice does.  Or the search runs off the table. *)
Definition may_fork (t : T) : Prop :=
  ∀ s t1 sp2, rtc respaced t t1 → ∃ res t', forked sp2 s t1 res t' ∧ is_s32 res.
Definition used_up (t : T) : Prop :=
  ∀ s t1 sp2, rtc respaced t t1 → let '(t0, n) := th_new sp2 t1 in th_Alloc n s t0 = Undefined.

Lemma may_fork_respaced t t1 : rtc respaced t t1 → may_fork t → may_fork t1.
Proof. intros Hr Hm s t2 sp2 Hr2. apply Hm. by etrans. Qed.

Lemma Spawn_ok h m k sp tab name fd h2 :
  process h m k sp tab → names (files (sys k)) !! name = Some fd → startable sp (files (sys k)) fd h2 →
  may_fork (thr k) →
  let tab2 := initial_table (space_pages h2) in
  ∃ m' k' sp2 s2 res, Spawn big_endian junk clock0 name m k = Ret (Resume, m', k') ∧
    reg m' 2 = Ret res ∧ (∀ i, i ≠ 2 → reg m' i = reg m i) ∧ forked sp2 s2 (thr k) res (thr k') ∧
    process h m' k' sp tab ∧ keeps_memory sp (on_sys m k) tab h sp (on_sys m' k') tab ∧
    vm_inv sp2 (on_sys m' k') tab2 ∧ (∀ i, view sp2 (on_sys m' k') tab2 i = None) ∧
    stored_executable sp2 = mkOpenFile fd 0 ∧
    content (files (sys k')) fd = content (files (sys k)) fd.
Proof.
  intros Hp En [Hh2 [Hn1 Hn2] Hc [Hex _] Hap] Hfork tab2. pose proof Hp as [Hsp Hi _ Hw _ _ (Hu & Hbk & Hexe) _].
  pose proof (vi_ok _ _ _ Hi) as Hok. destruct (vo_frames _ _ _ Hok) as [Hwf Htot].
  unfold Spawn, Open, OpenForReadWrite. rewrite En. cbn [negb orb ASSERT mbind outcome_bind].
  destruct (Initialize_ok big_endian (mkOpenFile fd 0) clock0 junk (on_sys m k) h2)
    as (sp2 & s2 & -> & Hi2 & Hv2 & _ & Eexe & Emm & Hu2 & Eb & Eno & _ & Eco & Eino & Enew & Etf & Em); try done.
  { by apply Hh2. }
  { apply Hok. }
  { intros Eb. by destruct (Hap _ Eb). }
  cbn [mbind outcome_bind].
  destruct (Hfork s2 (thr k) sp2 (rtc_refl _ _)) as (res & t' & Hfk & Hres). pose proof Hfk as Hfk'. unfold forked in Hfk.
  pose proof (th_space_new sp2 (thr k)) as Hspace. destruct (th_new sp2 (thr k)) as [t0 n].
  destruct Hfk as (t1 & Ea & Ef). rewrite Ea. cbn [mbind outcome_bind]. rewrite Ef. cbn [mbind outcome_bind].
  assert (regs_wf (mach s2)) as Hw2 by (apply (regs_wf_same m); [by rewrite Em|done]).
  rewrite WriteRegister_put by (done || regs). cbn [mbind outcome_bind].
  assert (th_space t' = Some sp) as Hsp'
    by (rewrite (th_space_Fork _ _ _ _ Ef), (th_space_Alloc _ _ _ _ _ Ea); cbn in Hspace; congruence).
  assert (∀ b, is_Some (inodes (files (sys k)) !! b) → (names (files (sys k)) !! backing_name (space_pages h2 * PageSize)
     = Some b → False) → b ≠ file (bs_file (backing sp2))) as Hother.
  { intros b [bs Hb] Hnb ->. change (files (on_sys m k)) with (files (sys k)) in Enew.
    destruct (names (files (sys k)) !! backing_name (space_pages h2 * PageSize)) as [b0|]; [apply Hnb|]; congruence. }
  assert (file (bs_file (backing sp)) ≠ file (bs_file (backing sp2)) ∧ file (stored_executable sp) ≠ file (bs_file (backing sp2))
    ∧ fd ≠ file (bs_file (backing sp2))) as (Hne1 & Hne2 & Hne3).
  { split_and!; apply Hother; try done; intros Eb'; by destruct (Hap _ Eb') as (? & ? & ?). }
  exists (put_reg (mach s2) 2 res), (with_thr t' (with_sys s2 k)), sp2, s2, res. split; [reflexivity|].
  split; [by apply reg_put; [|regs]|].
  split; [intros i Hne; rewrite reg_put_ne by (done || regs); by rewrite Em|]. split; [done|].
  destruct (process_beside h m k sp tab (put_reg (mach s2) 2 res) (with_thr t' (with_sys s2 k)) (pageTable sp2) tab2)
    as [Hp' Hk']; try done.
  - apply put_reg_wf; done || regs.
  - by rewrite Em.
  - intros Eq. rewrite Eq in Etf. pose proof (vo_tab _ _ _ Hok) as Et. cbn in Etf, Et. congruence.
  - intros b [-> | ->]; by apply Eco.
  - split; [done|]. by split; apply Eino.
  - split; [done|]. split; [done|]. split; [by apply (vm_inv_regs sp2 s2)|]. split; [exact Hv2|]. split; [done|].
    by apply Eco.
Qed.

(** When the table is used up nothing is forked. *)
Lemma Spawn_used_up h m k sp tab name fd h2 :
  process h m k sp tab → names (files (sys k)) !! name = Some fd → startable sp (files (sys k)) fd h2 →
  used_up (thr k) → Spawn big_endian junk clock0 name m k = Undefined.
Proof.
  intros Hp En [Hh2 [Hn1 Hn2] Hc [Hex _] Hap] Hfull. pose proof Hp as [_ Hi _ _ _ _ (Hu & _) _].
  pose proof (vi_ok _ _ _ Hi) as Hok. destruct (vo_frames _ _ _ Hok) as [Hwf Htot]. unfold Spawn, Open, OpenForReadWrite. rewrite En.
  cbn [negb orb ASSERT mbind outcome_bind].
  destruct (Initialize_ok big_endian (mkOpenFile fd 0) clock0 junk (on_sys m k) h2) as (sp2 & s2 & -> & _); try done.
  { by apply Hh2. }
  { apply Hok. }
  { intros Eb. by destruct (Hap _ Eb). }
  cbn [mbind outcome_bind]. pose proof (Hfull s2 (thr k) sp2 (rtc_refl _ _)) as Ha.
  destruct (th_new sp2 (thr k)) as [t0 n]. by rewrite Ha.
Qed.

End trap.
End Trap.
