(* ===== verification/Stubs.v ===== *)
(** * test/start.cc: the assembler stubs of the system calls

    A user program calls the kernel through a stub of three instructions: the number of the call into r2, SYSCALL, and a jump to
    r31.  The stub is run here by the processor of [Mips] with any kernel: [stub_call] says with which registers the kernel is
    entered and what the caller finds when the kernel returns as the handler of exception.cc does. *)

From S2P Require Import Prelude CInt Machine Mips Registers Exception.
From stdpp Require Import strings.
Import Machine.Machine Mips.Mips Registers.Registers.

Open Scope Z_scope.

Module Stubs.

(** *** test/start.cc, with the numbers of userprog/syscall.h *)
Definition SC_Create : Z := 4.
Definition SC_Open : Z := 5.
Definition SC_Read : Z := 6.
Definition SC_Close : Z := 8.
Definition SC_Fork : Z := 9.
Definition SC_Yield : Z := 10.

Definition ADDIU (t s imm : Z) : Z := assemble (I_type 9 s t imm).
Definition SYSCALL : Z := assemble (R_type 0 0 0 0 12).
Definition JR (s : Z) : Z := assemble (R_type s 0 0 0 8).
Definition JAL (addr : Z) : Z := assemble (J_type 3 (addr / 4)).
Definition ADDU (d s t : Z) : Z := assemble (R_type s t d 0 33).

(** The assembler puts a no-op behind a jump. *)
Definition stub (number : Z) : list Z := [ADDIU 2 0 number; SYSCALL; JR 31; 0].

Definition stubs : list (string * Z) := [
  ("Halt", Exception.SC_Halt); ("Exit", Exception.SC_Exit); ("Exec", Exception.SC_Exec); ("Join", Exception.SC_Join);
  ("Create", SC_Create); ("Open", SC_Open); ("Read", SC_Read); ("Write", Exception.SC_Write); ("Close", SC_Close);
  ("Fork", SC_Fork); ("Yield", SC_Yield)].

(** The text of the file, from address 0: [__start] with [main] at the given address, the stubs, and [__main]. *)
Definition Exit_address : Z := 4 * 5 + 4 * 4.
Definition start_text (main : Z) : list Z :=
  [JAL main; 0; ADDU 4 0 0; JAL Exit_address; 0] ++ (stubs ≫= λ s, stub s.2) ++ [JR 31; 0].

Example Exit_is_there main : start_text main !! 9%nat = Some (ADDIU 2 0 Exception.SC_Exit) ∧ Exit_address = 4 * 9.
Proof. done. Qed.

(** *** Programs in memory

    [text] is the instruction at an address, [good] says of a machine that its memory has them: they are fetched without a trap,
    fetching keeps them there, and registers do not matter. *)
Class ProgramText {K} (big : bool) (setStatus : MachineStatus → K → K)
    (handler : ExceptionType → Machine → K → outcome (control * Machine * K))
    (text : Z → option Z) (good : Machine → Prop) : Prop := {
  pt_fetch m k va w : good m → text va = Some w →
    ∃ m', ReadMem big setStatus handler m k va 4 = Ret (Resume, m', k, Some w) ∧ registers m' = registers m ∧ good m';
  pt_registers m l : good m → good (with_registers m l) }.

Section stub.
Context {K : Type} (big : bool) (setStatus : MachineStatus → K → K).
Context (handler : ExceptionType → Machine → K → outcome (control * Machine * K)).
Context (text : Z → option Z) (good : Machine → Prop) `{!ProgramText big setStatus handler text good}.

(** [n] rounds of [OneInstruction]. *)
Fixpoint steps (n : nat) (m : Machine) (k : K) : outcome (control * Machine * K) :=
  match n with
  | O => Ret (Resume, m, k)
  | S n =>
      '(c, m, k) ← OneInstruction big setStatus handler m k;
      match c with Resume => steps n m k | _ => Ret (c, m, k) end
  end.

Lemma R_same m m' r : registers m' = registers m → R m' r = R m r.
Proof. unfold R. by intros ->. Qed.

(** An instruction that was fetched: decoded, executed, and ended. *)
Definition fetched (w : Z) (m : Machine) (k : K) : outcome (control * Machine * K) :=
  i ← Decode (u32 w);
  next ← reg m NextPCReg;
  r ← execute big setStatus handler i m k (s32 (next + 4));
  match r with
  | Trap c m k => Ret (c, m, k)
  | Done m k pcAfter nr nv => m ← finish m pcAfter nr nv; Ret (Resume, m, k)
  end.

Lemma OneInstruction_fetched m k m0 k0 w :
  regs_wf m → ReadMem big setStatus handler m k (R m PCReg) 4 = Ret (Resume, m0, k0, Some w) →
  OneInstruction big setStatus handler m k = fetched w m0 k0.
Proof.
  intros Hw E. unfold OneInstruction. rewrite R_ok by (done || regs). cbn [mbind outcome_bind]. by rewrite E.
Qed.

(** What the instructions of a stub do, whatever memory they were fetched from: only registers change.

    [addiu $2,$0,number] *)
Lemma fetched_ADDIU m k n :
  regs_wf m → R m 0 = 0 → R m LoadReg ≠ 2 → - 2 ^ 15 ≤ n < 2 ^ 15 →
  ∃ m', fetched (ADDIU 2 0 n) m k = Ret (Resume, m', k) ∧ m' = with_registers m (registers m') ∧ regs_wf m' ∧ R m' 0 = 0 ∧
    R m' 2 = n ∧ (∀ r, 0 < r < NumGPRegs → r ≠ 2 → R m' r = settled m r) ∧ R m' LoadReg = 0 ∧
    R m' PCReg = R m NextPCReg ∧ R m' NextPCReg = s32 (R m NextPCReg + 4).
Proof.
  intros Hw H0 Hl Hn. destruct (Decode_assemble_ok (I_type 9 0 2 n)) as (i & Hd & Hop & Hrs & Hrt & Hex); [cbn; lia|].
  injection Hop as Hop. unfold fetched, ADDIU. rewrite u32_small.
  2: { unfold is_u32. cbn [assemble]. pose proof (Z.mod_pos_bound n (2 ^ 16)). lia. }
  rewrite Hd. cbn [mbind outcome_bind]. rewrite R_ok by (done || regs). cbn [mbind outcome_bind].
  unfold execute. rewrite <- Hop. unfold exec_arith. rewrite <- Hop, Hrs, Hrt, Hex. rewrite R_ok by (done || regs).
  cbn [mbind outcome_bind]. rewrite H0. unfold assign. rewrite set_reg_put by (done || regs). cbn [mbind outcome_bind].
  rewrite Z.add_0_l, (s32_small n) by (unfold is_s32; lia).
  assert (regs_wf (put_reg m 2 n)) as Hw1 by (apply put_reg_wf; done || (unfold is_s32; regs)).
  destruct (finish_view (put_reg m 2 n) (s32 (R m NextPCReg + 4)) 0 0) as (m' & -> & F1 & F2 & F3 & F4 & _ & _ & F7 & F8 & F9 & _);
    [done|apply s32_range|regs|unfold is_s32; lia|].
  cbn [mbind outcome_bind]. exists m'. split; [done|]. split; [by rewrite F2|].
  assert (∀ r, 0 ≤ r < NumTotalRegs → R (put_reg m 2 n) r = if 2 =? r then n else R m r) as HR1
    by (intros r Hr; by rewrite R_put by (done || regs)).
  assert (∀ r, 0 < r < NumGPRegs → settled (put_reg m 2 n) r = if r =? 2 then n else settled m r) as Hset.
  { intros r Hr. unfold settled. rewrite !HR1 by regs. rewrite (Z.eqb_sym 2 r), !(eqb_false 2) by regs.
    destruct (Z.eqb_spec r 2) as [->|]; [|done]. rewrite eqb_false by lia. done. }
  split_and!; try done.
  - rewrite F4, Hset by regs. done.
  - intros r Hr Hne. rewrite F4, Hset by done. by rewrite eqb_false.
  - rewrite F7, HR1 by regs. by rewrite eqb_false by regs.
Qed.

(** [syscall]: the kernel is entered with the registers, the pending load done. *)
Lemma fetched_SYSCALL m k :
  regs_wf m →
  ∃ ms, ms = with_registers m (registers ms) ∧ regs_wf ms ∧ R ms 0 = 0 ∧ (∀ r, 0 < r < NumGPRegs → R ms r = settled m r) ∧
    R ms LoadReg = 0 ∧ R ms PCReg = R m PCReg ∧ R ms NextPCReg = R m NextPCReg ∧
    fetched SYSCALL m k =
      ('(c, m', k') ← handler SyscallException ms (setStatus SystemMode k);
       match c with Resume => Ret (Resume, m', setStatus UserMode k') | _ => Ret (c, m', k') end).
Proof.
  intros Hw. unfold fetched. change (Decode (u32 SYSCALL)) with (Ret (mkInstr SYSCALL OP_SYSCALL 0 0 0 0)).
  cbn [mbind outcome_bind]. rewrite R_ok by (done || regs). cbn [mbind outcome_bind].
  unfold execute. cbn [opCode]. unfold raise, RaiseException. rewrite set_reg_put by (done || regs). cbn [mbind outcome_bind].
  assert (regs_wf (put_reg m BadVAddrReg 0)) as Hw1 by (apply put_reg_wf; done || (unfold is_s32; regs)).
  destruct (DelayedLoad_view (put_reg m BadVAddrReg 0) 0 0) as (ms & -> & F1 & F2 & F3 & F4 & F5 & F6);
    [done|regs|unfold is_s32; lia|].
  cbn [mbind outcome_bind].
  assert (∀ r, 0 ≤ r < NumTotalRegs → r ≠ BadVAddrReg → R (put_reg m BadVAddrReg 0) r = R m r) as HR1
    by (intros r Hr Hne; rewrite R_put by (done || regs); by rewrite eqb_false by done).
  exists ms. split_and!; try done.
  - intros r Hr. rewrite F4 by done. unfold settled. by rewrite !HR1 by regs.
  - rewrite F6, HR1 by regs. done.
  - rewrite F6, HR1 by regs. done.
  - destruct (handler _ ms _) as [[[c m'] k']| | |]; try done. by destruct c.
Qed.

(** [j $31] *)
Lemma fetched_JR m k :
  regs_wf m → R m LoadReg = 0 →
  ∃ m', fetched (JR 31) m k = Ret (Resume, m', k) ∧ m' = with_registers m (registers m') ∧ regs_wf m' ∧ R m' 0 = 0 ∧
    (∀ r, 0 < r < NumGPRegs → R m' r = R m r) ∧ R m' LoadReg = 0 ∧ R m' PCReg = R m NextPCReg ∧ R m' NextPCReg = R m 31.
Proof.
  intros Hw Hl. unfold fetched. change (Decode (u32 (JR 31))) with (Ret (mkInstr (JR 31) OP_JR 31 0 0 0)).
  cbn [mbind outcome_bind]. rewrite R_ok by (done || regs). cbn [mbind outcome_bind].
  unfold execute. cbn [opCode]. unfold exec_jump. cbn [opCode Mips.rs]. rewrite !R_ok by (done || regs). cbn [mbind outcome_bind].
  destruct (finish_view m (R m 31) 0 0) as (m' & -> & F1 & F2 & F3 & F4 & _ & _ & F7 & F8 & F9 & _);
    [done|apply R_word; done || regs|regs|unfold is_s32; lia|].
  cbn [mbind outcome_bind]. exists m'. split_and!; try done.
  intros r Hr. rewrite F4 by done. unfold settled. rewrite Hl. by rewrite eqb_false by lia.
Qed.

(** The fetch of an instruction of the text. *)
Lemma OneInstruction_text m k w :
  good m → regs_wf m → text (R m PCReg) = Some w →
  ∃ m0, good m0 ∧ registers m0 = registers m ∧ OneInstruction big setStatus handler m k = fetched w m0 k.
Proof.
  intros Hg Hw Ht. destruct (pt_fetch m k (R m PCReg) w Hg Ht) as (m0 & Er & Hr & Hg0).
  exists m0. split; [done|]. split; [done|]. by apply OneInstruction_fetched.
Qed.

(** The registers in a machine with the same ones. *)
Lemma settled_same m m' r : registers m' = registers m → settled m' r = settled m r.
Proof. unfold settled, R. by intros ->. Qed.

Lemma run_ADDIU m k n :
  good m → regs_wf m → R m 0 = 0 → R m LoadReg ≠ 2 → - 2 ^ 15 ≤ n < 2 ^ 15 → text (R m PCReg) = Some (ADDIU 2 0 n) →
  ∃ m', OneInstruction big setStatus handler m k = Ret (Resume, m', k) ∧ good m' ∧ regs_wf m' ∧ R m' 0 = 0 ∧
    R m' 2 = n ∧ (∀ r, 0 < r < NumGPRegs → r ≠ 2 → R m' r = settled m r) ∧ R m' LoadReg = 0 ∧
    R m' PCReg = R m NextPCReg ∧ R m' NextPCReg = s32 (R m NextPCReg + 4).
Proof.
  intros Hg Hw H0 Hl Hn Ht. destruct (OneInstruction_text m k _ Hg Hw Ht) as (m0 & Hg0 & E & ->).
  destruct (fetched_ADDIU m0 k n) as (m' & Ef & Em & Hw' & G0 & G2 & Gr & GL & GP & GN); try done;
    [by apply (regs_wf_same m)|by rewrite (R_same m)..|].
  exists m'. split_and!; try done.
  - rewrite Em. by apply pt_registers.
  - intros r Hr Hne. by rewrite Gr, (settled_same m) by done.
  - by rewrite GP, (R_same m).
  - by rewrite GN, (R_same m).
Qed.

Lemma run_SYSCALL m k :
  good m → regs_wf m → text (R m PCReg) = Some SYSCALL →
  ∃ ms, good ms ∧ regs_wf ms ∧ R ms 0 = 0 ∧ (∀ r, 0 < r < NumGPRegs → R ms r = settled m r) ∧ R ms LoadReg = 0 ∧
    R ms PCReg = R m PCReg ∧ R ms NextPCReg = R m NextPCReg ∧
    OneInstruction big setStatus handler m k =
      ('(c, m', k') ← handler SyscallException ms (setStatus SystemMode k);
       match c with Resume => Ret (Resume, m', setStatus UserMode k') | _ => Ret (c, m', k') end).
Proof.
  intros Hg Hw Ht. destruct (OneInstruction_text m k _ Hg Hw Ht) as (m0 & Hg0 & E & ->).
  destruct (fetched_SYSCALL m0 k) as (ms & Em & Hws & G0 & Gr & GL & GP & GN & ->); [by apply (regs_wf_same m)|].
  exists ms. split_and!; try done.
  - rewrite Em. by apply pt_registers.
  - intros r Hr. by rewrite Gr, (settled_same m) by done.
  - by rewrite GP, (R_same m).
  - by rewrite GN, (R_same m).
Qed.

Lemma run_JR m k :
  good m → regs_wf m → R m LoadReg = 0 → text (R m PCReg) = Some (JR 31) →
  ∃ m', OneInstruction big setStatus handler m k = Ret (Resume, m', k) ∧ good m' ∧ regs_wf m' ∧ R m' 0 = 0 ∧
    (∀ r, 0 < r < NumGPRegs → R m' r = R m r) ∧ R m' LoadReg = 0 ∧ R m' PCReg = R m NextPCReg ∧ R m' NextPCReg = R m 31.
Proof.
  intros Hg Hw Hl Ht. destruct (OneInstruction_text m k _ Hg Hw Ht) as (m0 & Hg0 & E & ->).
  destruct (fetched_JR m0 k) as (m' & Ef & Em & Hw' & G0 & Gr & GL & GP & GN);
    [by apply (regs_wf_same m)|by rewrite (R_same m)|].
  exists m'. split_and!; try done.
  - rewrite Em. by apply pt_registers.
  - intros r Hr. by rewrite Gr, (R_same m) by done.
  - by rewrite GP, (R_same m).
  - by rewrite GN, (R_same m).
Qed.

Lemma stub_runs m k p n :
  good m → regs_wf m → R m 0 = 0 → R m LoadReg ≠ 2 → 0 ≤ p < 2 ^ 31 - 16 → - 2 ^ 15 ≤ n < 2 ^ 15 →
  R m PCReg = p → R m NextPCReg = p + 4 →
  text p = Some (ADDIU 2 0 n) → text (p + 4) = Some SYSCALL → text (p + 8) = Some (JR 31) →
  ∃ ms, good ms ∧ regs_wf ms ∧ R ms 2 = n ∧ (∀ r, 0 < r < NumGPRegs → r ≠ 2 → R ms r = settled m r) ∧
    R ms LoadReg = 0 ∧ R ms PCReg = p + 4 ∧ R ms NextPCReg = p + 8 ∧
    steps 2 m k = ('(c, m', k') ← handler SyscallException ms (setStatus SystemMode k);
      match c with Resume => Ret (Resume, m', setStatus UserMode k') | _ => Ret (c, m', k') end) ∧
    ∀ m' k', handler SyscallException ms (setStatus SystemMode k) = Ret (Resume, m', k') →
      good m' → regs_wf m' → R m' LoadReg = 0 → R m' PCReg = p + 8 → R m' NextPCReg = p + 8 →
      ∃ m4, steps 4 m k = Ret (Resume, m4, setStatus UserMode k') ∧ good m4 ∧ regs_wf m4 ∧
        (∀ r, 0 < r < NumGPRegs → R m4 r = R m' r) ∧ R m4 LoadReg = 0 ∧ R m4 PCReg = R m' 31 ∧ R m4 NextPCReg = R m' 31.
Proof.
  intros Hg Hw H0 Hl Hp Hn Hpc Hnpc T1 T2 T3.
  destruct (run_ADDIU m k n) as (m1 & E1 & G1 & W1 & Z1 & V1 & O1 & L1 & P1 & N1); try done; [by rewrite Hpc|].
  rewrite Hnpc in P1, N1. rewrite (s32_small (p + 4 + 4)) in N1 by (unfold is_s32; lia).
  destruct (run_SYSCALL m1 k G1 W1) as (ms & Gs & Ws & Zs & Os & Ls & Ps & Ns & E2); [by rewrite P1|].
  assert (∀ r, 0 < r < NumGPRegs → settled m1 r = R m1 r) as Hset
    by (intros r Hr; unfold settled; rewrite L1; by rewrite eqb_false by lia).
  exists ms. split; [done|]. split; [done|]. split; [rewrite Os, Hset by regs; done|].
  split; [intros r Hr Hne; rewrite Os, Hset by done; by apply O1|]. split; [done|]. split; [by rewrite Ps, P1|].
  split; [rewrite Ns, N1; lia|].
  split.
  { unfold steps. rewrite E1. cbn [mbind outcome_bind]. rewrite E2.
    destruct (handler SyscallException ms (setStatus SystemMode k)) as [[[c m'] k']| | |]; try done. by destruct c. }
  intros m' k' Eh G' W' L' P' N'. rewrite Eh in E2. cbn [mbind outcome_bind] in E2.
  destruct (run_JR m' (setStatus UserMode k') G' W' L') as (m3 & E3 & G3 & W3 & Z3 & O3 & L3 & P3 & N3); [by rewrite P'|].
  destruct (run_JR m3 (setStatus UserMode k') G3 W3 L3) as (m4 & E4 & G4 & W4 & _ & O4 & L4 & P4 & N4); [by rewrite P3, N'|].
  exists m4. split.
  { unfold steps. rewrite E1. cbn [mbind outcome_bind]. rewrite E2. cbn [mbind outcome_bind]. rewrite E3.
    cbn [mbind outcome_bind]. rewrite E4. done. }
  split; [done|]. split; [done|]. split; [intros r Hr; rewrite O4, O3 by done; done|]. split; [done|].
  split; [by rewrite P4, N3|]. rewrite N4. apply O3. regs.
Qed.
End stub.

(** *** A page of memory as a program text *)
Definition memory_text (words : list Z) (va : Z) : option Z :=
  if (0 <=? va) && (va mod 4 =? 0) then words !! Z.to_nat (va / 4) else None.

(** The words are at the beginning of the memory, and the only page of the program is the first frame. *)
Record first_page (words : list Z) (m : Machine) : Prop := {
  fp_memory : mainMemory m = words_bytes words ++ replicate (Z.to_nat MemorySize - 4 * length words) 0;
  fp_tlb : tlb m = None;
  fp_table : pageTable m = Some 0%nat;
  fp_size : pageTableSize m = 1;
  fp_entry : ∃ e, tables m !! 0%nat = Some [e] ∧ valid e = true ∧ physicalPage e = 0 }.

Lemma words_bytes_at words j w rest :
  words !! j = Some w → take 4 (drop (4 * j) (words_bytes words ++ rest)) = word_bytes w.
Proof.
  revert j. induction words as [|x words IH]; intros [|j] Hj; try done; rewrite words_bytes_cons, <- app_assoc.
  - injection Hj as ->. rewrite drop_0. apply take_app_length'. by rewrite word_bytes_length.
  - rewrite drop_app_ge by (rewrite word_bytes_length; lia). rewrite word_bytes_length.
    replace (4 * S j - 4)%nat with (4 * j)%nat by lia. by apply IH.
Qed.

Lemma first_page_fetch {K} big (setStatus : MachineStatus → K → K) handler words m k va w :
  (length words ≤ 32)%nat → Forall is_s32 words → first_page words m → memory_text words va = Some w →
  ∃ m', ReadMem big setStatus handler m k va 4 = Ret (Resume, m', k, Some w) ∧ registers m' = registers m ∧ first_page words m'.
Proof.
  intros Hlen Hws [F1 F2 F3 F4 (e & F5 & F6 & F7)] Ht. unfold memory_text in Ht.
  destruct (Z.leb_spec 0 va) as [H0|]; [|done]. destruct (Z.eqb_spec (va mod 4) 0) as [Hm|]; [|done]. cbn [andb] in Ht.
  pose proof (lookup_lt_Some _ _ _ Ht) as Hlt.
  assert (va = 4 * Z.of_nat (Z.to_nat (va / 4))) as Hva by (rewrite Z2Nat.id by (Z.div_mod_to_equations; lia); Z.div_mod_to_equations; lia).
  set (j := Z.to_nat (va / 4)) in *. assert (0 ≤ va < 128) as Hr by lia.
  assert (u32 va = va) as Hu by (apply u32_small; unfold is_u32; lia).
  assert (find_entry m (u32 va / PageSize) = Ret (inr (0%nat, 0))) as Hf.
  { rewrite Hu. unfold find_entry. rewrite F2, F3, F4, F5. unfold PageSize, SectorSize. rewrite Z.div_small by lia.
    cbn [Z.leb Z.compare]. change (Prelude.rd [e] 0) with (Ret e). cbn [mbind outcome_bind]. by rewrite F6. }
  pose proof (Translate_hit m va 4 false 0 0 e) as Htr. rewrite F5 in Htr.
  assert (Z.land va 3 = 0) as Hal by (change 3 with (Z.ones 2); rewrite Z.land_ones by lia; exact Hm).
  rewrite Hal in Htr. specialize (Htr ltac:(unfold access_size; lia) eq_refl Hf eq_refl ltac:(apply andb_false_r)).
  rewrite F7 in Htr. specialize (Htr ltac:(done)).
  assert (u32 0 * PageSize + u32 va mod PageSize = va) as Hpa
    by (rewrite Hu; unfold PageSize, SectorSize; rewrite Z.mod_small by lia; change (u32 0) with 0; lia).
  rewrite Hpa in Htr.
  assert (memory_bytes (touched m 0 0 e false) va 4 = Ret (word_bytes w)) as Hb.
  { unfold memory_bytes. change (mainMemory (touched m 0 0 e false)) with (mainMemory m). rewrite F1.
    rewrite in_range_true.
    2: { rewrite length_app, words_bytes_length, length_replicate. unfold MemorySize, NumPhysPages, PageSize, SectorSize. lia. }
    f_equal. rewrite Hva. replace (Z.to_nat (4 * Z.of_nat j)) with (4 * j)%nat by lia. by apply words_bytes_at. }
  rewrite (ReadMem_hit big setStatus handler m k va 4 (touched m 0 0 e false) va (word_bytes w)); try done;
    [|unfold access_size; lia|apply le_bytes_are_bytes].
  exists (touched m 0 0 e false). split.
  { do 2 f_equal. change (loaded 4 (le_value (word_bytes w))) with (bytes_s32 (word_bytes w)). f_equal.
    apply bytes_s32_word. rewrite Forall_lookup in Hws. by eapply Hws. }
  split; [done|]. split; try done. exists (touch e false). unfold touched. cbn. rewrite F5. cbn.
  rewrite lookup_insert_eq. done.
Qed.

#[global] Instance first_page_text {K} big (setStatus : MachineStatus → K → K) handler words :
  TCEq (bool_decide ((length words ≤ 32)%nat ∧ Forall is_s32 words)) true →
  ProgramText big setStatus handler (memory_text words) (first_page words).
Proof.
  intros Hw%TCEq_eq. apply bool_decide_eq_true_1 in Hw as [Hl Hs]. split.
  - intros m k va w Hf Ht. by apply first_page_fetch.
  - intros m l [F1 F2 F3 F4 F5]. by split.
Qed.

(** a stub of start.cc enters the kernel with the number of its call in r2 and the other registers of the caller (a load
    that is pending is done), unless that load is one into r2; when the kernel comes back as the handler of exception.cc does,
    with PC moved to the jump and NextPC there already, the jump is done twice, the caller's registers are those of the
    kernel, and both program counters are at the return address: the instruction there is executed twice as well. *)
Theorem stub_call {K} big (setStatus : MachineStatus → K → K) handler text good
    `{!ProgramText big setStatus handler text good} m k p n :
  good m → regs_wf m → R m 0 = 0 → R m LoadReg ≠ 2 → 0 ≤ p < 2 ^ 31 - 16 → - 2 ^ 15 ≤ n < 2 ^ 15 →
  R m PCReg = p → R m NextPCReg = p + 4 →
  text p = Some (ADDIU 2 0 n) → text (p + 4) = Some SYSCALL → text (p + 8) = Some (JR 31) →
  ∃ ms, good ms ∧ regs_wf ms ∧ R ms 2 = n ∧ (∀ r, 0 < r < NumGPRegs → r ≠ 2 → R ms r = settled m r) ∧
    R ms LoadReg = 0 ∧ R ms PCReg = p + 4 ∧ R ms NextPCReg = p + 8 ∧
    steps big setStatus handler 2 m k = ('(c, m', k') ← handler SyscallException ms (setStatus SystemMode k);
      match c with Resume => Ret (Resume, m', setStatus UserMode k') | _ => Ret (c, m', k') end) ∧
    ∀ m' k', handler SyscallException ms (setStatus SystemMode k) = Ret (Resume, m', k') →
      good m' → regs_wf m' → R m' LoadReg = 0 → R m' PCReg = p + 8 → R m' NextPCReg = p + 8 →
      ∃ m4, steps big setStatus handler 4 m k = Ret (Resume, m4, setStatus UserMode k') ∧ good m4 ∧ regs_wf m4 ∧
        (∀ r, 0 < r < NumGPRegs → R m4 r = R m' r) ∧ R m4 LoadReg = 0 ∧ R m4 PCReg = R m' 31 ∧ R m4 NextPCReg = R m' 31.
Proof. exact (stub_runs big setStatus handler text good m k p n). Qed.

(** A kernel whose calls have the result 7, with the program counters of exception.cc. *)
Definition demo_kernel (e : ExceptionType) (m : Machine) (k : unit) : outcome (control * Machine * unit) :=
  pc ← ReadRegister m PCReg; m ← WriteRegister m PCReg (s32 (pc + 4)); m ← WriteRegister m 2 7; Ret (Resume, m, k).

(** At 0 a call of the stub of Join, which is at 16; at 8, where it returns, one addition to r16. *)
Definition demo_words : list Z := [JAL 16; 0; ADDIU 16 16 1; 0] ++ stub Exception.SC_Join.
Definition demo_machine (pc : Z) : Machine :=
  mkMachine (words_bytes demo_words ++ replicate (Z.to_nat MemorySize - 4 * length demo_words) 0)
    (<[4%nat := 5]> (<[31%nat := 8]> (<[34%nat := pc]> (<[35%nat := pc + 4]> (replicate 40 0)))))
    {[ 0%nat := [mkTE 0 0 true false false false] ]} None (Some 0%nat) 1 false 0.

Lemma demo_first_page pc : first_page demo_words (demo_machine pc).
Proof. split; try done. by exists (mkTE 0 0 true false false false). Qed.

Lemma demo_regs_wf : regs_wf (demo_machine 16).
Proof.
  split; [done| |by intros lr [= <-]]. apply (bool_decide_unpack (Forall (λ z, -2 ^ 31 ≤ z ∧ z < 2 ^ 31) _)). vm_compute. exact I.
Qed.

Lemma stub_call_witness :
  ∃ ms, R ms 2 = Exception.SC_Join ∧ R ms 4 = 5 ∧
    steps false (λ _ k, k) demo_kernel 2 (demo_machine 16) () =
      (r ← demo_kernel SyscallException ms (); let '(c, m', k') := r in
       match c with Resume => Ret (Resume, m', k') | _ => Ret (c, m', k') end).
Proof.
  destruct (stub_call false (λ _ k, k) demo_kernel (memory_text demo_words) (first_page demo_words) (demo_machine 16) () 16
    Exception.SC_Join (demo_first_page 16) demo_regs_wf) as (ms & _ & _ & H2 & Hr & _ & _ & _ & E & _);
    [reflexivity|vm_compute; discriminate|lia|unfold Exception.SC_Join; lia|reflexivity..|].
  exists ms. split; [exact H2|]. split; [exact (Hr 4 ltac:(unfold NumGPRegs; lia) ltac:(lia))|exact E].
Defined.

(** The whole call: the addition behind it is done twice. *)
Example call_repeats_next :
  match steps false (λ _ k, k) demo_kernel 8 (demo_machine 0) () with
  | Ret (c, m, _) => c = Resume ∧ R m 2 = 7 ∧ R m 16 = 2 ∧ R m PCReg = 12
  | _ => False
  end.
Proof. vm_compute. done. Qed.

End Stubs.
