(* ===== verification/Process.v ===== *)
(** * The life of a user process

    What the system calls promise, the end of a process, and its registers across a switch to another
    thread. *)

From S2P Require Import Prelude CInt BitMap MemManage Machine Mips Registers Table UnixFile VirtMem Paging FlatMemory Exception Trap Stubs.
From stdpp Require Import strings.
Import Machine.Machine Mips.Mips Registers.Registers UnixFile.UnixFile VirtMem.VirtMem Paging.Paging FlatMemory.FlatMemory
  Exception.Exception Trap.Trap Stubs.Stubs.

Open Scope Z_scope.

Module Process.

(** *** Registers across a switch *)
Lemma SaveUserState_ok m : Z.of_nat (length (registers m)) = NumTotalRegs → SaveUserState m = Ret (registers m).
Proof.
  intros Hl. unfold SaveUserState.
  destruct (for_range_inv (λ i us, v ← ReadRegister m i; Ret (us ++ [v])) (λ i us, us = take (Z.to_nat i) (registers m))
    0 (Z.to_nat NumTotalRegs) []) as (us & -> & ->).
  - intros i us Hi ->. destruct (rd_in_range (registers m) i) as [v Hv]; [lia|]. unfold ReadRegister.
    rewrite ASSERT_true by (apply andb_true_iff; split; [apply Z.leb_le|apply Z.ltb_lt]; lia).
    cbn [mbind outcome_bind]. rewrite Hv. cbn [mbind outcome_bind]. eexists. split; [reflexivity|].
    apply rd_Ret in Hv as [_ Hv]. replace (Z.to_nat (i + 1)) with (S (Z.to_nat i)) by lia. by erewrite take_S_r.
  - done.
  - f_equal. apply take_ge. lia.
Qed.

(** A loop that writes all registers. *)
Lemma write_registers f us m :
  (∀ i m v, 0 ≤ i → us !! Z.to_nat i = Some v → f i m = WriteRegister m i v) →
  Z.of_nat (length us) = NumTotalRegs → Z.of_nat (length (registers m)) = NumTotalRegs →
  for_range f 0 (Z.to_nat NumTotalRegs) m = Ret (with_registers m us).
Proof.
  intros Hf Hus Hm.
  destruct (for_range_inv f
    (λ i m', m' = with_registers m (take (Z.to_nat i) us ++ drop (Z.to_nat i) (registers m)))
    0 (Z.to_nat NumTotalRegs) m) as (m' & -> & ->).
  - intros i m' Hi ->. destruct (lookup_lt_is_Some_2 us (Z.to_nat i)) as [v Hv]; [lia|]. rewrite (Hf _ _ v) by (done || lia).
    unfold WriteRegister. rewrite ASSERT_true by (apply andb_true_iff; split; [apply Z.leb_le|apply Z.ltb_lt]; lia).
    cbn [mbind outcome_bind registers with_registers].
    rewrite wr_ok by (rewrite length_app, length_take, length_drop; lia). cbn [mbind outcome_bind].
    eexists. split; [reflexivity|]. unfold with_registers. cbn. f_equal.
    replace (Z.to_nat (i + 1)) with (S (Z.to_nat i)) by lia. erewrite take_S_r by done.
    rewrite insert_app_r_alt by (rewrite length_take; lia). rewrite length_take.
    replace (Z.to_nat i - (Z.to_nat i `min` length us))%nat with 0%nat by lia. rewrite <- app_assoc. f_equal.
    destruct (lookup_lt_is_Some_2 (registers m) (Z.to_nat i)) as [w Hw]; [lia|]. by rewrite (drop_S _ w) by done.
  - unfold with_registers. destruct m. by rewrite drop_0.
  - f_equal. rewrite take_ge, drop_ge by lia. by rewrite app_nil_r.
Qed.

Lemma RestoreUserState_ok us m :
  Z.of_nat (length us) = NumTotalRegs → Z.of_nat (length (registers m)) = NumTotalRegs →
  RestoreUserState us m = Ret (with_registers m us).
Proof.
  apply write_registers. intros i m' v Hi Hv. by rewrite (rd_lookup _ _ v).
Qed.

Section process.
Context {M : Type} `{FrameAllocSpec M}.
Implicit Types (s : Sys (M := M)) (sp : AddrSpace) (tab : list TranslationEntry).

(** a user program keeps its registers and its page table over a switch: whatever other threads did to the
    machine in between, when the thread comes back the forty registers are those it left with, and the machine
    translates with its page table; memory and the tables are as the others left them. *)
Theorem switch_keeps_user_state sp s s2 :
  Z.of_nat (length (registers (mach s))) = NumTotalRegs → Z.of_nat (length (registers (mach s2))) = NumTotalRegs →
  tlb (mach s2) = None →
  ∃ regs s3, leave_user sp s = Ret (regs, s) ∧ return_to_user regs sp s2 = Ret s3 ∧
    registers (mach s3) = registers (mach s) ∧ current sp s3 ∧
    mainMemory (mach s3) = mainMemory (mach s2) ∧ tables (mach s3) = tables (mach s2) ∧
    memmanage s3 = memmanage s2 ∧ files s3 = files s2.
Proof.
  intros H1 H2 Ht. exists (registers (mach s)). eexists. unfold leave_user, return_to_user.
  rewrite SaveUserState_ok, RestoreUserState_ok by done. by split_and!.
Qed.

(** *** The start of a process *)

(** The registers a program begins with. *)
Definition start_registers sp : list Z :=
  <[Z.to_nat StackReg := numPages sp * PageSize - 16]> (<[Z.to_nat NextPCReg := 4]> (replicate (Z.to_nat NumTotalRegs) 0)).

Lemma start_registers_wf sp m :
  0 < numPages sp → numPages sp * PageSize < 2 ^ 31 → regs_wf (with_registers m (start_registers sp)).
Proof.
  intros Hn Hm. change PageSize with 128 in *. split; cbn [registers with_registers]; unfold start_registers.
  - by rewrite !length_insert, length_replicate.
  - apply Forall_insert; [apply Forall_insert; [apply Forall_replicate|]|]; unfold is_s32; change PageSize with 128; lia.
  - intros lr. vm_compute. intros [= <-]. done.
Qed.

Lemma InitRegisters_ok sp s :
  Z.of_nat (length (registers (mach s))) = NumTotalRegs → 0 < numPages sp → numPages sp * PageSize < 2 ^ 31 →
  InitRegisters sp s = Ret (with_mach (with_registers (mach s) (start_registers sp)) s).
Proof.
  intros Hl Hn Hm. unfold InitRegisters.
  rewrite (write_registers _ (replicate (Z.to_nat NumTotalRegs) 0)); [| |by rewrite length_replicate|done].
  2: { intros i m v _ Hv. by apply lookup_replicate_1 in Hv as [-> _]. }
  cbn [mbind outcome_bind]. set (m0 := with_registers (mach s) (replicate (Z.to_nat NumTotalRegs) 0)).
  assert (regs_wf m0) as Hw0.
  { split; [done|by apply Forall_replicate|]. intros lr. by intros [= <-]. }
  rewrite WriteRegister_put by done. cbn [mbind outcome_bind].
  assert (regs_wf (put_reg m0 PCReg 0)) as Hw1 by (by apply put_reg_wf).
  rewrite WriteRegister_put by done. cbn [mbind outcome_bind].
  assert (regs_wf (put_reg (put_reg m0 PCReg 0) NextPCReg 4)) as Hw2 by (by apply put_reg_wf).
  rewrite WriteRegister_put by done. cbn [mbind outcome_bind].
  rewrite s32_small by (unfold is_s32; change PageSize with 128 in *; lia). reflexivity.
Qed.

Lemma StartProcess_ok big_endian fuel junk clock0 name s fd h {T} `{!ThreadOps T (Sys (M := M))} (t : T) st :
  unix_ok (files s) → names (files s) !! name = Some fd → is_Some (inodes (files s) !! fd) →
  names (files s) !! backing_name (space_pages h * PageSize) ≠ Some fd →
  read_noff big_endian (mkOpenFile fd 0) junk s = Ret h → (∀ p pos, source h p = Some pos → 0 ≤ pos) →
  0 < space_pages h → space_pages h * PageSize < 2 ^ 31 → 0 ≤ clock0 < space_pages h →
  length (mainMemory (mach s)) = Z.to_nat MemorySize → Z.of_nat (length (registers (mach s))) = NumTotalRegs →
  tlb (mach s) = None → fa_wf (memmanage s) → fa_total (memmanage s) = NumPhysPages →
  (∃ f, 0 ≤ f < NumPhysPages ∧ f ∉ fa_used (memmanage s)) → (2 * Z.to_nat (space_pages h) ≤ fuel)%nat →
  ∃ sp s', StartProcess big_endian junk clock0 name s = Ret (Some (sp, s')) ∧
    registers (mach s') = start_registers sp ∧ memmanage s' = memmanage s ∧
    (∀ i, view sp s' (initial_table (space_pages h)) i = None) ∧
    (th_space t = Some sp → process big_endian fuel junk h (mach s') (mkK s' t st) sp (initial_table (space_pages h))).
Proof.
  intros Hu Hn Hx Hb Hh Hpos H1 H2 Hc Hm Hr Ht Hwf Htot Hroom Hfuel.
  unfold StartProcess, Open, OpenForReadWrite. rewrite Hn. cbn [negb orb ASSERT mbind outcome_bind].
  destruct (Initialize_ok big_endian (mkOpenFile fd 0) clock0 junk s h)
    as (sp & s1 & -> & Hi & Hv & En & Eexe & Emm & Hu1 & Eb & _ & _ & Eco & Eino & _ & _ & Em); try done.
  cbn [mbind outcome_bind]. unfold enter_user. rewrite InitRegisters_ok; [|by rewrite Em|by rewrite En..].
  cbn [mbind outcome_bind]. exists sp. eexists. split; [reflexivity|]. split; [done|]. split; [done|]. split; [exact Hv|].
  intros Hsp. split; [done| | | | |split; [|done]| |].
  - split; [split|..]; apply Hi.
  - split_and!; [by cbn; rewrite Em|done..].
  - apply (regs_wf_same (with_registers (mach s1) (start_registers sp))); [done|]. by apply start_registers_wf; rewrite En.
  - left. cbn. by rewrite Emm.
  - rewrite Eexe, <- Hh. apply read_noff_same. cbn. apply Eco.
    pose proof (vi_apart _ _ _ Hi) as Ha. by rewrite Eexe in Ha.
  - split; [exact Hu1|]. cbn. split; [by eapply ux_inodes|]. rewrite Eexe. by apply Eino.
  - unfold initial_table. rewrite length_fmap, length_seqZ. lia.
Qed.

(** *** The end of a process *)
Definition own_frames tab : gset Z := list_to_set (physicalPage <$> filter (λ e, valid e = true) tab).

Lemma ClearState_ok sp s tab :
  vm_ok sp s tab →
  ∃ s', ClearState sp s = Ret s' ∧ fa_wf (memmanage s') ∧ fa_total (memmanage s') = NumPhysPages ∧
    fa_used (memmanage s') = fa_used (memmanage s) ∖ own_frames tab ∧ mach s' = mach s ∧ files s' = files s.
Proof.
  intros Hok. unfold ClearState. destruct (vo_frames _ _ _ Hok) as [Hwf Ht].
  match goal with |- context [for_range ?f _ _ _] =>
    destruct (for_range_inv f (λ i s', fa_wf (memmanage s') ∧ fa_total (memmanage s') = NumPhysPages ∧
      fa_used (memmanage s') = fa_used (memmanage s) ∖ own_frames (take (Z.to_nat i) tab) ∧
      mach s' = mach s ∧ files s' = files s) 0 (Z.to_nat (numPages sp)) s) as (s' & -> & H1 & H2 & H3 & H4 & H5) end.
  - intros i s1 Hi (H1 & H2 & H3 & H4 & H5). pose proof (vo_len _ _ _ Hok) as Hl.
    destruct (lookup_lt_is_Some_2 tab (Z.to_nat i)) as [e E]; [lia|].
    unfold entry. rewrite H4, (vo_tab _ _ _ Hok). rewrite (rd_lookup _ _ e) by (done || lia). cbn [mbind outcome_bind].
    replace (Z.to_nat (i + 1)) with (S (Z.to_nat i)) by lia. rewrite (take_S_r _ _ _ E).
    unfold own_frames at 1. rewrite filter_app, fmap_app, list_to_set_app_L. fold (own_frames (take (Z.to_nat i) tab)).
    rewrite filter_cons, filter_nil. destruct (vo_entry _ _ _ Hok _ e E) as [_ Hp]. destruct (valid e) eqn:Hv.
    + destruct (Hp eq_refl) as [Hr _]. rewrite (proj2 (Z.leb_le _ _)) by lia. cbn [andb].
      destruct (fa_FreePage_spec (memmanage s1) (physicalPage e)) as (mm & -> & K1 & K2 & K3); [done|lia|].
      cbn [mbind outcome_bind]. eexists. split; [reflexivity|]. cbn. split_and!; try done; [lia|].
      rewrite K3, H3. set_solver.
    + cbn [andb]. eexists. split; [reflexivity|]. split_and!; try done. rewrite H3. cbn. set_solver.
  - split_and!; try done. cbn. set_solver.
  - exists s'. split_and!; try done. rewrite H3. f_equal. f_equal. apply take_ge.
    pose proof (vo_len _ _ _ Hok). lia.
Qed.

Section syscalls.
Context {T : Type} `{!ThreadOps T (Sys (M := M))} `{!ThreadLaws T (Sys (M := M))}.
Variable big_endian use_fifo : bool.
Variables (fuel : nat) (junk : list Z) (clock0 : Z).
Implicit Types k : K (M := M) (T := T).
Local Abbreviation handler := (ExceptionHandler big_endian use_fifo fuel junk clock0).

(** The events that end a program. *)
Definition ends_program (which : ExceptionType) (type : Z) : bool :=
  match which with
  | ReadOnlyException | BusErrorException | AddressErrorException | OverflowException | IllegalInstrException => true
  | SyscallException => (type =? SC_Exit) || (type =? SC_Write)
  | _ => false
  end.

(** The handler calls [Destroy], or does the same. *)
Lemma handler_ends depth which m k type :
  regs_wf m → reg m 2 = Ret type → ends_program which type = true →
  ∃ pc, reg m PCReg = Ret pc ∧
    handler depth which m k = Destroy (put_reg m PCReg (s32 (pc + 4))) k.
Proof.
  intros Hw Hty He. destruct (ReadRegister_wf m PCReg Hw) as (pc & Epc & _); [regs|].
  exists pc. split; [by rewrite ReadRegister_reg in Epc by regs|].
  assert (ReadRegister (put_reg m PCReg (s32 (pc + 4))) 2 = Ret type) as Ety
    by (rewrite ReadRegister_reg by regs; by rewrite reg_put_ne by (done || regs)).
  destruct depth; cbn [ExceptionHandler]; rewrite Epc; cbn [mbind outcome_bind];
    rewrite WriteRegister_put by (done || regs); cbn [mbind outcome_bind]; rewrite Ety; cbn [mbind outcome_bind];
    destruct which; try done; cbn [ends_program] in He; unfold is_syscall; cbn [bool_decide];
    apply orb_true_iff in He as [Hx|Hx]; apply Z.eqb_eq in Hx as ->; done.
Qed.

Lemma program_ends_ok depth which m k sp tab type :
  th_space (thr k) = Some sp → vm_ok sp (on_sys m k) tab → regs_wf m → reg m 2 = Ret type →
  ends_program which type = true →
  ∃ m' k', handler depth which m k = Ret (FinishThread, m', k') ∧
    fa_wf (memmanage (sys k')) ∧
    fa_used (memmanage (sys k')) = fa_used (memmanage (sys k)) ∖ own_frames tab ∧
    thr k' = th_setExitStatus 0 (thr k) ∧ files (sys k') = files (sys k) ∧
    mainMemory m' = mainMemory m ∧ tables m' = tables m.
Proof.
  intros Hsp Hok Hw Hty He. destruct (handler_ends depth which m k type Hw Hty He) as (pc & _ & ->).
  set (m1 := put_reg m PCReg (s32 (pc + 4))). assert (regs_wf m1) as Hw1 by (apply put_reg_wf; [done|regs|apply s32_range|regs]).
  unfold Destroy. destruct (ReadRegister_wf m1 4 Hw1) as (v & -> & _); [regs|]. cbn [mbind outcome_bind].
  rewrite Hsp. assert (vm_ok sp (on_sys m1 k) tab) as Hok1 by (split; apply Hok).
  destruct (ClearState_ok sp (on_sys m1 k) tab Hok1) as (s' & -> & H1 & _ & H3 & H4 & H5). cbn [mbind outcome_bind].
  do 2 eexists. split; [reflexivity|]. rewrite H4. by split_and!.
Qed.

(** C10: Exit, Write and the exceptions a program cannot survive end it: its frames, and no others, are free
    afterwards; the exit status recorded is 0, whatever the program passed. *)
Theorem program_ends depth which m k sp tab type :
  th_space (thr k) = Some sp → vm_ok sp (on_sys m k) tab → regs_wf m → reg m 2 = Ret type →
  ends_program which type = true →
  ∃ m' k', handler depth which m k = Ret (FinishThread, m', k') ∧
    fa_wf (memmanage (sys k')) ∧
    fa_used (memmanage (sys k')) = fa_used (memmanage (sys k)) ∖ own_frames tab ∧
    thr k' = th_setExitStatus 0 (thr k) ∧ files (sys k') = files (sys k) ∧
    mainMemory m' = mainMemory m ∧ tables m' = tables m.
Proof. apply program_ends_ok. Qed.

(** C36: A load does not notice where its page is: if the page is in memory it gives the bytes there; otherwise it
    faults once, with the program counters as they were, and when the instruction is executed again it gives
    the bytes the page had, or those of the executable, or zeros; nothing the program sees changes, and other
    files and names do not. *)
Theorem user_load_restarts depth h m k sp tab p off size bs :
  process big_endian fuel junk h m k sp tab → (p < length tab)%nat → access_size size → aligned_in_page off size →
  bytes_at sp (on_sys m k) tab h (128 * p + Z.to_nat off) bs → length bs = Z.to_nat size → Forall is_byte bs →
  let load m k := ReadMem big_endian setStatus (handler depth) m k (Z.of_nat p * PageSize + off) size in
  ∃ m' k' sp' tab', trapped big_endian fuel junk h m k sp tab m' k' sp' tab' ∧
    (load m k = Ret (Resume, m', k', Some (loaded size (le_value bs))) ∨
     ∃ m1 k1, load m k = Ret (Resume, m1, k1, None) ∧
       (∀ i, i = PCReg ∨ i = NextPCReg → reg m1 i = reg m i) ∧
       load m1 k1 = Ret (Resume, m', k', Some (loaded size (le_value bs)))).
Proof. apply load_across_fault. Qed.

(** *** Exec *)
Lemma handler_exec depth m k :
  regs_wf m → reg m 2 = Ret SC_Exec →
  ∃ pc, reg m PCReg = Ret pc ∧ is_s32 pc ∧ handler (S depth) SyscallException m k =
    Exec big_endian junk clock0 (handler depth) (put_reg m PCReg (s32 (pc + 4))) k.
Proof.
  intros Hw Hty. destruct (ReadRegister_wf m PCReg Hw) as (pc & Epc & Hpc); [regs|].
  exists pc. split; [by rewrite ReadRegister_reg in Epc by regs|]. split; [done|].
  assert (ReadRegister (put_reg m PCReg (s32 (pc + 4))) 2 = Ret SC_Exec) as Ety
    by (rewrite ReadRegister_reg by regs; by rewrite reg_put_ne by (done || regs)).
  cbn [ExceptionHandler]. rewrite Epc. cbn [mbind outcome_bind].
  rewrite WriteRegister_put by (done || regs). cbn [mbind outcome_bind]. by rewrite Ety.
Qed.

(** Registers change, memory does not. *)
Lemma process_registers h m k sp tab m' :
  process big_endian fuel junk h m k sp tab → m' = with_registers m (registers m') → regs_wf m' →
  process big_endian fuel junk h m' k sp tab.
Proof.
  intros Hp Em Hw. rewrite Em in Hw |- *.
  apply (process_regs big_endian fuel junk h m k sp tab (registers m') (status k)) in Hp; [|done]. by destruct k.
Qed.

Lemma process_put h m k sp tab i v :
  process big_endian fuel junk h m k sp tab → 0 ≤ i < NumTotalRegs → i ≠ LoadReg → is_s32 v →
  process big_endian fuel junk h (put_reg m i v) k sp tab.
Proof. intros Hp Hi Hl Hv. apply (process_registers h m); [done|done|]. apply put_reg_wf; [apply Hp|done..]. Qed.

(** What Exec is called with: the code in r2, the address of the name in r4, the name in memory, NUL included. *)
Record exec_call (h : NoffHeader) m k sp tab (name : list Z) (a : nat) : Prop := {
  ec_code : reg m 2 = Ret SC_Exec;
  ec_addr : reg m 4 = Ret (Z.of_nat a);
  ec_name : is_name name ∧ (length name < 1024)%nat ∧ (a + length name < 128 * length tab)%nat;
  ec_bytes : bytes_at sp (on_sys m k) tab h a name;
  ec_end : byte_at sp (on_sys m k) tab h (a + length name) = Some 0 }.

Lemma exec_call_ok depth h m k sp tab name a :
  process big_endian fuel junk h m k sp tab → exec_call h m k sp tab name a →
  ∃ pc m' k' sp' tab', reg m PCReg = Ret pc ∧ is_s32 pc ∧
    handler (S depth) SyscallException m k = Spawn big_endian junk clock0 (c_string name) m' k' ∧
    trapped big_endian fuel junk h (put_reg m PCReg (s32 (pc + 4))) k sp tab m' k' sp' tab'.
Proof.
  intros Hp [Hc Ha (Hn & Hl & Hr) Hb He]. pose proof (pr_regs _ _ _ _ _ _ _ _ Hp) as Hw.
  destruct (handler_exec depth m k Hw Hc) as (pc & Epc & Hpc & ->).
  destruct (Exec_reads big_endian use_fifo fuel junk clock0 depth h (put_reg m PCReg (s32 (pc + 4))) k sp tab a name)
    as (m' & k' & sp' & tab' & Ht & ->); try done.
  - apply process_put; [done|regs|done|apply s32_range].
  - by rewrite reg_put_ne by (done || regs).
  - lia.
  - lia.
  - rewrite bool_decide_eq_true_2 by done. exists pc, m', k', sp', tab'. by split_and!.
Qed.

Lemma exec_missing depth h m k sp tab name a :
  process big_endian fuel junk h m k sp tab → exec_call h m k sp tab name a →
  names (files (sys k)) !! c_string name = None →
  ∃ pc m' k' sp' tab', reg m PCReg = Ret pc ∧ is_s32 pc ∧
    handler (S depth) SyscallException m k = Ret (Resume, m', k') ∧
    reg m' 2 = Ret 0 ∧ reg m' PCReg = Ret (s32 (pc + 4)) ∧ reg m' NextPCReg = reg m NextPCReg ∧
    process big_endian fuel junk h m' k' sp' tab' ∧ keeps_memory sp (on_sys m k) tab h sp' (on_sys m' k') tab'.
Proof.
  intros Hp Hc Hn. pose proof (pr_regs _ _ _ _ _ _ _ _ Hp) as Hw.
  destruct (exec_call_ok depth h m k sp tab name a Hp Hc) as (pc & m1 & k1 & sp1 & tab1 & Epc & Hpc & -> & Ht).
  pose proof (pr_regs _ _ _ _ _ _ _ _ (td_process _ _ _ _ _ _ _ _ _ _ _ _ Ht)) as Hw1.
  destruct (td_names _ _ _ _ _ _ _ _ _ _ _ _ Ht) as [En _].
  unfold Spawn, Open, OpenForReadWrite. rewrite En, Hn. cbn [negb orb ASSERT mbind outcome_bind].
  rewrite WriteRegister_put by (done || regs). cbn [mbind outcome_bind].
  exists pc, (put_reg m1 2 0), k1, sp1, tab1. split; [done|]. split; [done|]. split; [reflexivity|].
  assert (∀ i, i = PCReg ∨ i = NextPCReg → reg (put_reg m1 2 0) i = reg (put_reg m PCReg (s32 (pc + 4))) i) as Hk.
  { intros i Hi. rewrite reg_put_ne by (done || regs || by destruct Hi as [-> | ->]).
    by apply (td_regs _ _ _ _ _ _ _ _ _ _ _ _ Ht). }
  split; [by apply reg_put; [|regs]|]. split; [rewrite Hk by auto; by apply reg_put; [|regs]|].
  split; [rewrite Hk by auto; by apply reg_put_ne; [|regs|]|]. split.
  - apply process_put; [apply Ht|regs|done|done].
  - apply (td_memory _ _ _ _ _ _ _ _ _ _ _ _ Ht).
Qed.

Lemma exec_starts depth h m k sp tab name a fd h2 :
  process big_endian fuel junk h m k sp tab → exec_call h m k sp tab name a → may_fork (M := M) (thr k) →
  names (files (sys k)) !! c_string name = Some fd → startable (M := M) big_endian junk clock0 sp (files (sys k)) fd h2 →
  let tab2 := initial_table (space_pages h2) in
  ∃ pc m' k' sp' tab' sp2 res s1 t1, reg m PCReg = Ret pc ∧
    handler (S depth) SyscallException m k = Ret (Resume, m', k') ∧
    reg m' 2 = Ret res ∧ reg m' PCReg = Ret (s32 (pc + 4)) ∧
    rtc respaced (thr k) t1 ∧ forked sp2 s1 t1 res (thr k') ∧
    process big_endian fuel junk h m' k' sp' tab' ∧ keeps_memory sp (on_sys m k) tab h sp' (on_sys m' k') tab' ∧
    vm_inv sp2 (on_sys m' k') tab2 ∧ (∀ i, view sp2 (on_sys m' k') tab2 i = None) ∧
    stored_executable sp2 = mkOpenFile fd 0 ∧
    content (files (sys k')) fd = content (files (sys k)) fd.
Proof.
  intros Hp Hc Hfork Hn Hs tab2. pose proof (pr_regs _ _ _ _ _ _ _ _ Hp) as Hw.
  destruct (exec_call_ok depth h m k sp tab name a Hp Hc) as (pc & m1 & k1 & sp1 & tab1 & Epc & Hpc & -> & Ht).
  pose proof (td_process _ _ _ _ _ _ _ _ _ _ _ _ Ht) as Hp1. pose proof (td_names _ _ _ _ _ _ _ _ _ _ _ _ Ht) as [En _].
  destruct (Spawn_ok big_endian fuel junk clock0 h m1 k1 sp1 tab1 (c_string name) fd h2)
    as (m' & k' & sp2 & s2 & res & -> & Hr2 & Hkeep & Hfk & Hp' & Hk' & Hi2 & Hv2 & He2 & Hf2); try done.
  { by rewrite En. }
  { by eapply startable_trapped. }
  { eapply may_fork_respaced; [|done]. apply Ht. }
  exists pc, m', k', sp1, tab1, sp2, res, s2, (thr k1). split_and!; try done.
  - rewrite Hkeep by done. rewrite (td_regs _ _ _ _ _ _ _ _ _ _ _ _ Ht) by auto. by apply reg_put; [|regs].
  - apply Ht.
  - eapply keeps_memory_trans; [apply (td_memory _ _ _ _ _ _ _ _ _ _ _ _ Ht)|done].
  - rewrite Hf2. apply (td_files _ _ _ _ _ _ _ _ _ _ _ _ Ht), Hs.
Qed.

Lemma exec_used_up depth h m k sp tab name a fd h2 :
  process big_endian fuel junk h m k sp tab → exec_call h m k sp tab name a → used_up (M := M) (thr k) →
  names (files (sys k)) !! c_string name = Some fd → startable (M := M) big_endian junk clock0 sp (files (sys k)) fd h2 →
  handler (S depth) SyscallException m k = Undefined.
Proof.
  intros Hp Hc Hfull Hn Hs.
  destruct (exec_call_ok depth h m k sp tab name a Hp Hc) as (pc & m1 & k1 & sp1 & tab1 & _ & _ & -> & Ht).
  apply (Spawn_used_up big_endian fuel junk clock0 h m1 k1 sp1 tab1 (c_string name) fd h2).
  - apply Ht.
  - by destruct (td_names _ _ _ _ _ _ _ _ _ _ _ _ Ht) as [-> _].
  - by eapply startable_trapped.
  - intros s t1 sp2 Hr. apply Hfull. etrans; [apply Ht|done].
Qed.

(** C9: Exec reads the name of a program out of the caller's memory, through any page faults; if there is no such
    file it returns 0, otherwise it makes an address space none of whose pages is loaded, and, if in the present state
    of the threads another one can be entered in the table and forked ([may_fork]: the lock of the table is free, the
    search for an entry ends, no other thread gets the processor), it forks a thread for it and returns what
    the table returns, and the caller goes on behind the call with its memory as it was.  When the table is used up the
    search runs off it. *)
Theorem Exec_starts_program depth h m k sp tab name a :
  process big_endian fuel junk h m k sp tab → exec_call h m k sp tab name a →
  match names (files (sys k)) !! c_string name with
  | None => ∃ pc m' k' sp' tab', reg m PCReg = Ret pc ∧ is_s32 pc ∧
      handler (S depth) SyscallException m k = Ret (Resume, m', k') ∧
      reg m' 2 = Ret 0 ∧ reg m' PCReg = Ret (s32 (pc + 4)) ∧ reg m' NextPCReg = reg m NextPCReg ∧
      process big_endian fuel junk h m' k' sp' tab' ∧ keeps_memory sp (on_sys m k) tab h sp' (on_sys m' k') tab'
  | Some fd => ∀ h2, startable (M := M) big_endian junk clock0 sp (files (sys k)) fd h2 →
      (used_up (M := M) (thr k) → handler (S depth) SyscallException m k = Undefined) ∧
      (may_fork (M := M) (thr k) →
      let tab2 := initial_table (space_pages h2) in
      ∃ pc m' k' sp' tab' sp2 res s1 t1, reg m PCReg = Ret pc ∧
        handler (S depth) SyscallException m k = Ret (Resume, m', k') ∧
        reg m' 2 = Ret res ∧ reg m' PCReg = Ret (s32 (pc + 4)) ∧
        rtc respaced (thr k) t1 ∧ forked sp2 s1 t1 res (thr k') ∧
        process big_endian fuel junk h m' k' sp' tab' ∧ keeps_memory sp (on_sys m k) tab h sp' (on_sys m' k') tab' ∧
        vm_inv sp2 (on_sys m' k') tab2 ∧ (∀ i, view sp2 (on_sys m' k') tab2 i = None) ∧
        stored_executable sp2 = mkOpenFile fd 0 ∧
        content (files (sys k')) fd = content (files (sys k)) fd)
  end.
Proof.
  intros Hp Hc. destruct (names (files (sys k)) !! c_string name) as [fd|] eqn:En; [|by eapply exec_missing].
  intros h2 Hs. split; [intros Hf; by eapply exec_used_up|intros Hf; by eapply exec_starts].
Qed.

(** *** The instruction after a system call *)

(** When both program counters are the same, an instruction that does not branch comes out at itself. *)
Lemma finish_stays m next lr lv :
  regs_wf m → reg m PCReg = Ret next → reg m NextPCReg = Ret next → is_s32 next → 0 ≤ lr < NumGPRegs → is_s32 lv →
  ∃ m', finish m (s32 (next + 4)) lr lv = Ret m' ∧ reg m' PCReg = Ret next ∧ reg m' NextPCReg = Ret (s32 (next + 4)).
Proof.
  intros Hw Hpc Hnext Hn Hlr Hlv. unfold finish.
  destruct (DelayedLoad_regs m lr lv Hw Hlr Hlv) as (m1 & -> & Hw1 & _ & _ & Hk). cbn [mbind outcome_bind].
  assert (reg m1 PCReg = Ret next) as Hpc1 by (by rewrite Hk by regs).
  assert (reg m1 NextPCReg = Ret next) as Hnext1 by (by rewrite Hk by regs).
  rewrite Hpc1. cbn [mbind outcome_bind]. rewrite set_reg_put by (done || (unfold PrevPCReg; regs)). cbn [mbind outcome_bind].
  assert (regs_wf (put_reg m1 PrevPCReg next)) as Hw2 by (apply put_reg_wf; done || (unfold PrevPCReg; regs)).
  rewrite reg_put_ne by (done || (unfold PrevPCReg; regs)). rewrite Hnext1. cbn [mbind outcome_bind].
  rewrite set_reg_put by (done || regs). cbn [mbind outcome_bind].
  assert (regs_wf (put_reg (put_reg m1 PrevPCReg next) PCReg next)) as Hw3 by (apply put_reg_wf; done || regs).
  rewrite set_reg_put by (done || regs). eexists. split; [reflexivity|]. split; [|by apply reg_put; [|regs]].
  rewrite reg_put_ne by (done || regs). by apply reg_put; [|regs].
Qed.

(** the handler moves PC over the system call, but not NextPC, which is there already: after a system call that
    returns both are at the next instruction, and when that instruction ends, if it does not branch, the processor
    is at it again: it is executed twice. *)
Theorem syscall_repeats_next depth h m k sp tab name a pc :
  process big_endian fuel junk h m k sp tab → exec_call h m k sp tab name a →
  names (files (sys k)) !! c_string name = None →
  reg m PCReg = Ret pc → reg m NextPCReg = Ret (s32 (pc + 4)) →
  let next := s32 (pc + 4) in
  ∃ m' k', handler (S depth) SyscallException m k = Ret (Resume, m', k') ∧
    reg m' PCReg = Ret next ∧ reg m' NextPCReg = Ret next ∧
    ∀ m1 lr lv, regs_wf m1 → reg m1 PCReg = reg m' PCReg → reg m1 NextPCReg = reg m' NextPCReg →
      0 ≤ lr < NumGPRegs → is_s32 lv →
      ∃ m2, finish m1 (s32 (next + 4)) lr lv = Ret m2 ∧ reg m2 PCReg = Ret next ∧ reg m2 NextPCReg = Ret (s32 (next + 4)).
Proof.
  intros Hp Hc Hn Hpc Hnext next.
  destruct (exec_missing depth h m k sp tab name a Hp Hc Hn) as (pc' & m' & k' & sp' & tab' & E1 & _ & E2 & _ & E3 & E4 & _).
  rewrite Hpc in E1. injection E1 as <-. exists m', k'. split; [done|]. split; [done|]. split; [by rewrite E4|].
  intros m1 lr lv Hw1 G1 G2 Hlr Hlv. apply finish_stays; try done; [by rewrite G1|by rewrite G2, E4|apply s32_range].
Qed.

End syscalls.
End process.

(** ** A program that calls Exec

    The threads of the examples: only the running thread has the processor; the others are made, wait in the
    ready list, and are entered in a [Table] as pointers, here their number plus one.  [Join] would need
    another thread to run. *)
Record Threads := mkThreads {
  space : option AddrSpace; exit_status : Z; made : list AddrSpace; ready : list nat; table : Table.Table }.
#[global] Instance demo_threads : ThreadOps Threads (Sys (M := MemoryManager.MemoryManager BitMap.BitMap)) := {
  th_space := space;
  th_set_space sp t := mkThreads (Some sp) (exit_status t) (made t) (ready t) (table t);
  th_new sp t := (mkThreads (space t) (exit_status t) (made t ++ [sp]) (ready t) (table t), length (made t));
  th_Fork n s t := Ret (s, mkThreads (space t) (exit_status t) (made t) (ready t ++ [n]) (table t));
  th_Join n s t := Undefined;
  th_getExitStatus := exit_status;
  th_setExitStatus v t := mkThreads (space t) v (made t) (ready t) (table t);
  th_Alloc n s t :=
    o ← Table.Alloc 0 (Z.of_nat n + 1) (table t);
    match o with
    | Some (tb, i) => Ret (s, mkThreads (space t) (exit_status t) (made t) (ready t) tb, i)
    | None => Undefined
    end;
  th_Get i t := p ← Table.Get i (table t); Ret (Z.to_nat (p - 1)) }.

#[global] Instance demo_thread_laws : ThreadLaws Threads (Sys (M := MemoryManager.MemoryManager BitMap.BitMap)).
Proof.
  split; try done.
  - intros n s t t' i E. apply bind_Ret_inv in E as ([[tb j]|] & _ & E); [|done]. by injection E as <- _.
  - by intros n s t t' [= <-].
Qed.

(** [threadlist] of system.cc, in cleared memory. *)
Definition MAX_PROGS : nat := 1023.
Definition threadlist : Table.Table := Table.Table_new (replicate MAX_PROGS 0).

Lemma respaced_table t t' : rtc (respaced (M := MemoryManager.MemoryManager BitMap.BitMap)) t t' → table t' = table t.
Proof. induction 1 as [|t1 t2 t3 [sp ->] _ IH]; [done|]. by rewrite IH. Qed.

(** As long as an entry is left a thread can be forked; behind the last one none can. *)
Lemma table_may_fork t :
  Table.table_ok (table t) → Table.last_element (table t) < Table.max_elements (table t) →
  Table.max_elements (table t) < 2 ^ 31 → may_fork (M := MemoryManager.MemoryManager BitMap.BitMap) t.
Proof.
  intros Hok Hlt Hmax s t1 sp2 Hr. pose proof (respaced_table _ _ Hr) as Et. rewrite <- Et in *.
  exists (Table.last_element (table t1) + 1). eexists. split.
  - unfold forked. cbn. eexists. split; [|reflexivity]. by rewrite (Table.Alloc_Ret 0 _ _ Hok Hlt).
  - pose proof (Table.tb_last _ Hok). unfold is_s32. lia.
Qed.

Lemma table_used_up t :
  Table.table_ok (table t) → Table.last_element (table t) = Table.max_elements (table t) →
  0 < Table.max_elements (table t) → used_up (M := MemoryManager.MemoryManager BitMap.BitMap) t.
Proof.
  intros Hok Hl Hmax s t1 sp2 Hr. pose proof (respaced_table _ _ Hr) as Et. rewrite <- Et in *.
  cbn. by rewrite (Table.Alloc_runs_off 0 _ _ Hok Hl Hmax).
Qed.

(** Exec of the name at address 64, one addition to r5, and Exit with the sum; behind it the stub of Exec, at 28, and a load
    from the next page, at 44. *)
Definition caller_code : list Z :=
  [ADDIU 4 0 64; ADDIU 2 0 SC_Exec; SYSCALL; ADDIU 5 5 1; ADDIU 2 0 SC_Exit; ADDIU 4 5 0; SYSCALL] ++ stub SC_Exec ++
  [s32 (assemble (I_type 35 0 5 128))].
Definition caller_file (name : list Z) : list Z :=
  words_bytes [NOFFMAGIC; 0; 40; 128; 0; 0; 0; 0; 0; 0] ++
  words_bytes caller_code ++ replicate 16 0 ++ name ++ replicate (64 - length name) 0.
Definition caller_header : NoffHeader := mkNoff NOFFMAGIC (mkSegment 0 40 128) (mkSegment 0 0 0) (mkSegment 0 0 0).

Definition word_no : list Z := [110; 111].
Definition word_two : list Z := [116; 119; 111].
Definition caller_unix (name : list Z) : Unix :=
  mkUnix (<["prog" := 0%nat]> {["two" := 1%nat]}) (<[0%nat := caller_file name]> {[1%nat := demo_file]}).
Definition caller_sys (name : list Z) : Sys := mkSys (Machine_new false None) demo_frames (caller_unix name) 0 0 0.

Definition caller_start (name : list Z) : AddrSpace * Sys (M := MemoryManager.MemoryManager BitMap.BitMap) :=
  match StartProcess false demo_junk 0 "prog" (caller_sys name) with Ret (Some r) => r | _ => demo_start end.
Definition caller_with (tb : Table.Table) (name : list Z) : K :=
  mkK (caller_start name).2 (mkThreads (Some (caller_start name).1) 7 [] [] tb) SystemMode.
Definition caller_kernel (name : list Z) : K :=
  caller_with threadlist name.

(** The whole program is run: one page fault; r5 is 2 after one addition of 1, and Exit 2 leaves the status 0. *)
Example caller_runs :
  match Run false setStatus (ExceptionHandler false false 40 demo_junk 0 1) (λ m k, Ret (Resume, m, k)) (λ _, 0)
    (λ k, (k, (None, None))) 40 (mach (caller_start word_no).2) (caller_kernel word_no) with
  | Ret (c, m, k) => c = FinishThread ∧ reg m 5 = Ret 2 ∧ reg m 4 = Ret 2 ∧ exit_status (thr k) = 0 ∧
      numPageFaults (sys k) = 1 ∧ elements (fa_used (memmanage (sys k))) = []
  | _ => False
  end.
Proof. vm_compute. by split_and!. Qed.

(** The program at its first system call. *)
Definition calling (name : list Z) : Machine := put_reg (put_reg (mach (caller_start name).2) 2 SC_Exec) 4 64.

Lemma caller_unix_ok name : unix_ok (caller_unix name).
Proof.
  split.
  - intros n1 n2 fd. cbn [names caller_unix]. rewrite !lookup_insert_Some, !lookup_singleton_Some.
    intros [[<- <-]|(_ & <- & <-)] [[<- ?]|(_ & <- & ?)]; congruence.
  - intros n fd. cbn [names inodes caller_unix]. rewrite lookup_insert_Some, lookup_singleton_Some.
    intros [[_ <-]|(_ & _ & <-)]; by eexists.
Qed.

Lemma caller_started name :
  name = word_no ∨ name = word_two →
  process false 40 demo_junk caller_header (mach (caller_start name).2) (caller_kernel name) (caller_start name).1
    (initial_table 9).
Proof.
  intros Hname. destruct demo_frames_ok as (Hwf & Htot & Hused).
  destruct (StartProcess_ok false 40 demo_junk 0 "prog" (caller_sys name) 0 caller_header
    (mkThreads (Some (caller_start name).1) 7 [] [] threadlist) SystemMode) as (sp & s' & Es & _ & _ & _ & Hp).
  - apply caller_unix_ok.
  - vm_compute. reflexivity.
  - vm_compute. by eexists.
  - vm_compute. discriminate.
  - destruct Hname as [-> | ->]; vm_compute; reflexivity.
  - intros p pos. unfold source. cbn [code initData inFileAddr virtualAddr caller_header].
    unfold in_segment, file_position. cbn [virtualAddr inFileAddr size_].
    rewrite (s32_small (0 + 128)), (s32_small (0 + 0)) by (unfold is_s32; lia).
    rewrite (ltb_false _ (0 + 0)), andb_false_r by lia.
    destruct (Z.leb_spec 0 (Z.of_nat (128 * p))), (Z.ltb_spec (Z.of_nat (128 * p)) (0 + 128)); cbn [andb];
      intros [= <-]; rewrite !s32_small by (unfold is_s32; rewrite ?s32_small by (unfold is_s32; lia); lia); lia.
  - vm_compute. reflexivity.
  - vm_compute. reflexivity.
  - split; vm_compute; [discriminate|reflexivity].
  - vm_compute. reflexivity.
  - vm_compute. reflexivity.
  - vm_compute. reflexivity.
  - exact Hwf.
  - exact Htot.
  - exists 0. cbn [memmanage caller_sys]. rewrite Hused. split; [split; vm_compute; congruence|apply not_elem_of_empty].
  - apply Nat.leb_le. vm_compute. reflexivity.
  - assert (caller_start name = (sp, s')) as Ec by (unfold caller_start; by rewrite Es).
    unfold caller_kernel, caller_with. rewrite Ec in Hp |- *. cbn [fst snd] in Hp |- *. specialize (Hp eq_refl).
    assert (space_pages caller_header = 9) as En by (vm_compute; reflexivity). rewrite En in Hp. exact Hp.
Qed.

Lemma caller_process name :
  name = word_no ∨ name = word_two →
  process false 40 demo_junk caller_header (calling name) (caller_kernel name) (caller_start name).1 (initial_table 9).
Proof.
  intros Hname. pose proof (caller_started name Hname) as Hp. unfold calling. revert Hp.
  generalize (mach (caller_start name).2) (caller_start name).1. intros m sp Hp.
  apply process_put; [apply process_put; [exact Hp|..]|..]; clear; try done; unfold is_s32, SC_Exec; regs.
Qed.

Lemma caller_calls name :
  name = word_no ∨ name = word_two →
  exec_call caller_header (calling name) (caller_kernel name) (caller_start name).1 (initial_table 9) name 64.
Proof.
  intros Hname. split.
  - destruct Hname as [-> | ->]; vm_compute; reflexivity.
  - destruct Hname as [-> | ->]; vm_compute; reflexivity.
  - split.
    + destruct Hname as [-> | ->]; unfold is_name, word_no, word_two, is_byte; rewrite ?Forall_cons, Forall_nil; lia.
    + destruct Hname as [-> | ->]; split; apply Nat.ltb_lt; vm_compute; reflexivity.
  - intros i b Hi. destruct Hname as [-> | ->]; destruct i as [|[|[|i]]]; try discriminate Hi; injection Hi as <-;
      vm_compute; reflexivity.
  - destruct Hname as [-> | ->]; vm_compute; reflexivity.
Qed.

Lemma word_two_startable :
  startable (M := MemoryManager.MemoryManager BitMap.BitMap) false demo_junk 0 (caller_start word_two).1
    (files (sys (caller_kernel word_two))) 1 demo_header.
Proof.
  split.
  - intros s Es. unfold read_noff, ReadAt, Lseek. rewrite Es. vm_compute. reflexivity.
  - split; vm_compute; reflexivity.
  - split; vm_compute; [discriminate|reflexivity].
  - split; [vm_compute; eexists; reflexivity|vm_compute; discriminate].
  - intros b Eb. vm_compute in Eb. discriminate Eb.
Qed.

Lemma demo_may_fork : may_fork (M := MemoryManager.MemoryManager BitMap.BitMap) (thr (caller_kernel word_two)).
Proof.
  apply table_may_fork; change (table _) with threadlist; [apply Table.Table_new_ok|reflexivity|reflexivity].
Qed.

(** Exec of a program of another size. *)
Lemma Exec_starts_program_witness :
  ∃ m' k' sp2, ExceptionHandler false false 40 demo_junk 0 1 SyscallException (calling word_two) (caller_kernel word_two)
      = Ret (Resume, m', k') ∧ reg m' PCReg = Ret 4 ∧ stored_executable sp2 = mkOpenFile 1 0.
Proof.
  assert (word_two = word_no ∨ word_two = word_two) as Hw by (right; reflexivity).
  pose proof (Exec_starts_program false false 40 demo_junk 0 0 caller_header (calling word_two) (caller_kernel word_two)
    (caller_start word_two).1 (initial_table 9) word_two 64 (caller_process _ Hw) (caller_calls _ Hw)) as Hx.
  assert (names (files (sys (caller_kernel word_two))) !! c_string word_two = Some 1%nat) as En by (vm_compute; reflexivity).
  rewrite En in Hx. specialize (Hx demo_header word_two_startable). apply proj2 in Hx. specialize (Hx demo_may_fork).
  destruct Hx as (pc & m' & k' & sp' & tab' & sp2 & res & s1 & t1 & Hpc & Hrun & _ & Hpc' & _ & _ & _ & _ & _ & _ & Hexe & _).
  exists m', k', sp2. split; [exact Hrun|]. split; [|exact Hexe].
  assert (reg (calling word_two) PCReg = Ret 0) as E0 by (vm_compute; reflexivity).
  rewrite E0 in Hpc. injection Hpc as <-. exact Hpc'.
Defined.

Lemma syscall_repeats_next_witness :
  ∃ m' k', ExceptionHandler false false 40 demo_junk 0 1 SyscallException (calling word_no) (caller_kernel word_no)
      = Ret (Resume, m', k') ∧ reg m' PCReg = Ret 4 ∧ reg m' NextPCReg = Ret 4.
Proof.
  assert (word_no = word_no ∨ word_no = word_two) as Hw by (left; reflexivity).
  destruct (syscall_repeats_next false false 40 demo_junk 0 0 caller_header (calling word_no) (caller_kernel word_no)
    (caller_start word_no).1 (initial_table 9) word_no 64 0 (caller_process _ Hw) (caller_calls _ Hw))
    as (m' & k' & Hrun & H1 & H2 & _).
  - vm_compute. reflexivity.
  - vm_compute. reflexivity.
  - vm_compute. reflexivity.
  - exists m', k'. split; [exact Hrun|]. split; [exact H1|exact H2].
Defined.

(** The fetch of the first instruction. *)
Lemma user_load_restarts_witness :
  ∃ m1 k1 m2 k2, ReadMem false setStatus (ExceptionHandler false false 40 demo_junk 0 1) (calling word_no) (caller_kernel word_no) 0 4
      = Ret (Resume, m1, k1, None) ∧
    ReadMem false setStatus (ExceptionHandler false false 40 demo_junk 0 1) m1 k1 0 4 = Ret (Resume, m2, k2, Some (ADDIU 4 0 64)).
Proof.
  assert (word_no = word_no ∨ word_no = word_two) as Hw by (left; reflexivity).
  destruct (user_load_restarts false false 40 demo_junk 0 1 caller_header (calling word_no) (caller_kernel word_no)
    (caller_start word_no).1 (initial_table 9) 0 0 4 (word_bytes (ADDIU 4 0 64)) (caller_process _ Hw))
    as (m' & k' & sp' & tab' & _ & [Hl|(m1 & k1 & H1 & _ & H2)]).
  - apply Nat.ltb_lt. vm_compute. reflexivity.
  - right. right. reflexivity.
  - clear. vm_compute. split_and!; congruence.
  - intros i b Hi. destruct i as [|[|[|[|i]]]]; try discriminate Hi; injection Hi as <-; vm_compute; reflexivity.
  - vm_compute. reflexivity.
  - clear. apply le_bytes_are_bytes.
  - exfalso. vm_compute in Hl. discriminate Hl.
  - exists m1, k1, m', k'. split; [exact H1|exact H2].
Defined.

(** A misaligned access ends the program. *)
Lemma program_ends_witness :
  ∃ m' k', ExceptionHandler false false 40 demo_junk 0 1 AddressErrorException (calling word_no) (caller_kernel word_no)
    = Ret (FinishThread, m', k') ∧ exit_status (thr k') = 0.
Proof.
  assert (word_no = word_no ∨ word_no = word_two) as Hw by (left; reflexivity).
  pose proof (caller_process _ Hw) as Hp.
  destruct (program_ends false false 40 demo_junk 0 1 AddressErrorException (calling word_no) (caller_kernel word_no)
    (caller_start word_no).1 (initial_table 9) SC_Exec (pr_space _ _ _ _ _ _ _ _ Hp) (vi_ok _ _ _ (pr_inv _ _ _ _ _ _ _ _ Hp))
    (pr_regs _ _ _ _ _ _ _ _ Hp)) as (m' & k' & Hrun & _ & _ & Ht & _).
  - vm_compute. reflexivity.
  - reflexivity.
  - exists m', k'. split; [exact Hrun|]. rewrite Ht. vm_compute. reflexivity.
Defined.

End Process.
