(* ===== verification/Syscall.v ===== *)
(** * A system call, from the stub to the caller

    The stubs of test/start.cc run in the memory of a process, whose pages may not be there: the instructions of
    the stub are fetched with the real handler of exception.cc, their page faults included, and the call is the
    Exec of exception.cc. *)

From S2P Require Import Prelude CInt BitMap MemManage Machine Mips Registers UnixFile VirtMem Paging FlatMemory Exception Trap.
From S2P Require Import Stubs Process.
From stdpp Require Import strings.
Import Machine.Machine Mips.Mips Registers.Registers UnixFile.UnixFile VirtMem.VirtMem Paging.Paging FlatMemory.FlatMemory
  Exception.Exception Trap.Trap Stubs.Stubs Process.Process.

Open Scope Z_scope.

Module Syscall.

Section syscall.
Context {M : Type} `{FrameAllocSpec M}.
Context {T : Type} `{!ThreadOps T (Sys (M := M))} `{!ThreadLaws T (Sys (M := M))}.
Variable big_endian use_fifo : bool.
Variables (fuel : nat) (junk : list Z) (clock0 : Z).
Implicit Types (s : Sys (M := M)) (sp : AddrSpace) (tab : list TranslationEntry) (k : K (M := M) (T := T)).

Local Abbreviation handler := (ExceptionHandler big_endian use_fifo fuel junk clock0).
Local Abbreviation process := (process big_endian fuel junk).
Local Abbreviation trapped := (trapped big_endian fuel junk).
Local Abbreviation steps depth := (steps big_endian setStatus (handler depth)).
Local Abbreviation fetched depth := (fetched big_endian setStatus (handler depth)).

(** The processor comes from one state to the other in at most [n] rounds. *)
Definition runs (depth n : nat) m k m' k' : Prop :=
  ∃ i, (i ≤ n)%nat ∧ ∀ j, steps depth (i + j) m k = steps depth j m' k'.

Lemma runs_refl depth m k : runs depth 0 m k m k.
Proof. by exists 0%nat. Qed.

Lemma runs_trans depth n1 n2 m k m1 k1 m2 k2 :
  runs depth n1 m k m1 k1 → runs depth n2 m1 k1 m2 k2 → runs depth (n1 + n2) m k m2 k2.
Proof.
  intros (i1 & L1 & E1) (i2 & L2 & E2). exists (i1 + i2)%nat. split; [lia|]. intros j.
  by rewrite <- Nat.add_assoc, E1, E2.
Qed.

Lemma runs_round depth m k m' k' :
  OneInstruction big_endian setStatus (handler depth) m k = Ret (Resume, m', k') → runs depth 1 m k m' k'.
Proof. intros E. exists 1%nat. split; [done|]. intros j. cbn [Nat.add Stubs.steps]. by rewrite E. Qed.

Lemma on_sys_registers m k m' :
  m' = with_registers m (registers m') → on_sys m' k = with_mach (with_registers m (registers m')) (on_sys m k).
Proof. intros Em. by rewrite Em at 1. Qed.

Lemma keeps_registers h m k sp tab m' st :
  m' = with_registers m (registers m') → keeps_memory sp (on_sys m k) tab h sp (on_sys m' (setStatus st k)) tab.
Proof. intros Em. change (on_sys m' (setStatus st k)) with (on_sys m' k). rewrite (on_sys_registers m k m' Em). by split. Qed.

(** A word of the program's memory. *)
Definition word_at h m k sp tab (a : nat) (w : Z) : Prop :=
  (a + 4 ≤ 128 * length tab)%nat ∧ (a mod 4 = 0)%nat ∧ is_s32 w ∧ bytes_at sp (on_sys m k) tab h a (word_bytes w).

Lemma keeps_word h m k sp tab m' k' sp' tab' a w :
  keeps_memory sp (on_sys m k) tab h sp' (on_sys m' k') tab' → word_at h m k sp tab a w → word_at h m' k' sp' tab' a w.
Proof.
  intros Hk (L & A & W & B). pose proof Hk as [Hl _]. split; [by rewrite Hl|]. split; [done|]. split; [done|].
  by eapply keeps_bytes.
Qed.

(** An aligned address as a page and an offset. *)
Lemma word_in_page (a : nat) :
  (a mod 4 = 0)%nat → aligned_in_page (Z.of_nat (a mod 128)) 4 ∧
    Z.of_nat (a / 128) * PageSize + Z.of_nat (a mod 128) = Z.of_nat a.
Proof.
  intros Ha. change PageSize with 128. pose proof (Nat.div_mod a 128 ltac:(lia)) as Hdm.
  pose proof (Nat.mod_upper_bound a 128 ltac:(lia)) as Hub. split; [|lia].
  apply (f_equal Z.of_nat) in Ha. unfold aligned_in_page. change PageSize with 128. rewrite Nat2Z.inj_mod in *.
  Z.div_mod_to_equations. lia.
Qed.

(** An instruction is fetched in at most two rounds: the first may be a page fault. *)
Lemma fetch_ok depth h m k sp tab a w :
  process h m k sp tab → R m PCReg = Z.of_nat a → word_at h m k sp tab a w →
  ∃ m0 k0 m1 k1 sp' tab', runs depth 1 m k m0 k0 ∧ trapped h m k sp tab m1 k1 sp' tab' ∧
    OneInstruction big_endian setStatus (handler depth) m0 k0 = fetched depth w m1 k1.
Proof.
  intros Hp Hpc (Hl & Ha & Hw & Hb). pose proof (pr_regs _ _ _ _ _ _ _ _ Hp) as Hwf.
  pose proof (Nat.div_mod a 128 ltac:(lia)) as Hdm. destruct (word_in_page a Ha) as [Hal Ea]. rewrite <- Hpc in Ea.
  assert (loaded 4 (le_value (word_bytes w)) = w) as Ew by (by apply bytes_s32_word).
  destruct (load_across_fault big_endian use_fifo fuel junk clock0 depth h m k sp tab (a / 128) (Z.of_nat (a mod 128)) 4
    (word_bytes w) Hp) as (m1 & k1 & sp1 & tab1 & Ht & Hload).
  - apply Nat.Div0.div_lt_upper_bound. lia.
  - right. by right.
  - done.
  - rewrite Nat2Z.id. by replace (128 * (a / 128) + a mod 128)%nat with a by lia.
  - done.
  - apply le_bytes_are_bytes.
  - rewrite Ea, Ew in Hload. destruct Hload as [E|(m0 & k0 & E1 & Hr & E2)].
    + exists m, k, m1, k1, sp1, tab1. split; [by exists 0%nat; split; [lia|]|]. split; [done|].
      by apply OneInstruction_fetched.
    + exists m0, k0, m1, k1, sp1, tab1. split.
      { apply runs_round. unfold OneInstruction. rewrite R_ok by (done || regs). cbn [mbind outcome_bind]. by rewrite E1. }
      split; [done|].
      assert (reg m0 PCReg = Ret (R m PCReg)) as Epc by (rewrite Hr by auto; by apply R_ok; [|regs]).
      unfold OneInstruction. rewrite Epc. cbn [mbind outcome_bind]. by rewrite E2.
Qed.

(** *** Exec as the program sees it *)

(** If the file that is named exists it is a program, and in the present state of the threads one can be made for it. *)
Definition exec_possible sp (u : Unix) (t : T) (name : list Z) : Prop :=
  match names u !! c_string name with
  | None => True
  | Some fd => (∃ h2, startable (M := M) big_endian junk clock0 sp u fd h2) ∧ may_fork (M := M) t
  end.

(** The result is 0, or the index of a thread that was forked for the program; page faults before and behind that
    write the caller's address space back. *)
Definition exec_result (u : Unix) (name : list Z) (res : Z) (t t' : T) : Prop :=
  match names u !! c_string name with
  | None => res = 0 ∧ rtc respaced t t'
  | Some fd => ∃ sp2 s1 t1 t2, rtc respaced t t1 ∧ forked sp2 s1 t1 res t2 ∧ rtc respaced t2 t' ∧
      stored_executable sp2 = mkOpenFile fd 0
  end.

Lemma exec_result_around u u' name res t0 t t' t1 :
  names u' = names u → rtc respaced t0 t → exec_result u' name res t t' → rtc respaced t' t1 → exec_result u name res t0 t1.
Proof.
  intros En Hb Hr Ha. unfold exec_result in *. rewrite <- En. destruct (names u' !! c_string name).
  - destruct Hr as (sp2 & s1 & ta & tb & Hta & Hf & Htb & He). exists sp2, s1, ta, tb. split_and!; try done; by etrans.
  - destruct Hr as [-> Hr]. split; [done|]. etrans; [exact Hb|]. by etrans.
Qed.

Lemma exec_possible_trapped h m k sp tab m' k' sp' tab' name :
  trapped h m k sp tab m' k' sp' tab' → exec_possible sp (files (sys k)) (thr k) name → exec_possible sp' (files (sys k')) (thr k') name.
Proof.
  intros Ht. unfold exec_possible. destruct (td_names _ _ _ _ _ _ _ _ _ _ _ _ Ht) as [-> _].
  destruct (names (files (sys k)) !! c_string name); [|done]. intros [[h2 Hs] Hf]. split.
  - exists h2. by eapply startable_trapped.
  - eapply may_fork_respaced; [apply Ht|done].
Qed.

(** *** The kernel's side *)
Lemma Spawn_returns h m k sp tab name :
  process h m k sp tab → exec_possible sp (files (sys k)) (thr k) name →
  ∃ m' k' res, Spawn big_endian junk clock0 (c_string name) m k = Ret (Resume, m', k') ∧ reg m' 2 = Ret res ∧
    (∀ i, i ≠ 2 → reg m' i = reg m i) ∧ process h m' k' sp tab ∧
    keeps_memory sp (on_sys m k) tab h sp (on_sys m' k') tab ∧ exec_result (files (sys k)) name res (thr k) (thr k').
Proof.
  intros Hp Hx. unfold exec_possible, exec_result in *. pose proof (pr_regs _ _ _ _ _ _ _ _ Hp) as Hw.
  destruct (names (files (sys k)) !! c_string name) as [fd|] eqn:En.
  - destruct Hx as [[h2 Hs] Hf].
    destruct (Spawn_ok big_endian fuel junk clock0 h m k sp tab (c_string name) fd h2)
      as (m' & k' & sp2 & s2 & res & -> & Hr2 & Hk & Hfk & Hp' & Hk' & _ & _ & He2 & _); [done..|].
    exists m', k', res. split_and!; try done. by exists sp2, s2, (thr k), (thr k').
  - unfold Spawn, Open, OpenForReadWrite. rewrite En. cbn [negb orb ASSERT mbind outcome_bind].
    rewrite WriteRegister_put by (done || regs). cbn [mbind outcome_bind].
    exists (put_reg m 2 0), k, 0. split_and!; try done.
    + by apply reg_put; [|regs].
    + intros i Hi. by apply reg_put_ne; [|regs|].
    + by apply process_put; [|regs|..].
Qed.

Lemma Exec_handled depth h m k sp tab name a :
  process h m k sp tab → exec_call h m k sp tab name a → exec_possible sp (files (sys k)) (thr k) name →
  R m 0 = 0 → R m LoadReg = 0 →
  ∃ m' k' sp' tab' res, handler (S depth) SyscallException m k = Ret (Resume, m', k') ∧
    process h m' k' sp' tab' ∧ keeps_memory sp (on_sys m k) tab h sp' (on_sys m' k') tab' ∧
    exec_result (files (sys k)) name res (thr k) (thr k') ∧ R m' 2 = res ∧ R m' 0 = 0 ∧ R m' LoadReg = 0 ∧
    (∀ r, 0 < r < NumGPRegs → r ≠ 2 → R m' r = R m r) ∧
    R m' PCReg = s32 (R m PCReg + 4) ∧ R m' NextPCReg = R m NextPCReg.
Proof.
  intros Hp Hc Hx Hz HL. pose proof (pr_regs _ _ _ _ _ _ _ _ Hp) as Hw.
  destruct (exec_call_ok big_endian use_fifo fuel junk clock0 depth h m k sp tab name a Hp Hc)
    as (pc & m1 & k1 & sp1 & tab1 & Epc & Hpc & -> & Ht).
  rewrite R_ok in Epc by (done || regs). injection Epc as Epc. subst pc.
  set (mp := put_reg m PCReg (s32 (R m PCReg + 4))) in *.
  assert (∀ r, 0 ≤ r < NumTotalRegs → R mp r = if PCReg =? r then s32 (R m PCReg + 4) else R m r) as Hmp
    by (intros r Hr; by apply R_put; [|regs|]).
  destruct (Spawn_returns h m1 k1 sp1 tab1 name) as (m' & k' & res & -> & Hr2 & Hk & Hp' & Hk' & Hres);
    [apply Ht|by eapply exec_possible_trapped|].
  pose proof (pr_regs _ _ _ _ _ _ _ _ Hp') as Hw'.
  pose proof (pr_regs _ _ _ _ _ _ _ _ (td_process _ _ _ _ _ _ _ _ _ _ _ _ Ht)) as Hw1.
  assert (∀ r, 0 ≤ r < NumTotalRegs → r ≠ 2 → R m' r = R m1 r) as Hsame
    by (intros r Hr Hne; apply R_reg; rewrite Hk by done; by apply R_ok).
  assert (∀ i, i = PCReg ∨ i = NextPCReg → R m1 i = R mp i) as Hpcs.
  { intros i Hi. pose proof (td_regs _ _ _ _ _ _ _ _ _ _ _ _ Ht i Hi) as Hr. rewrite !R_ok in Hr;
      first [by injection Hr as ->|apply Ht|by apply put_reg_wf; [|regs|apply s32_range|regs]|destruct Hi as [-> | ->]; regs]. }
  assert (R mp LoadReg = 0) as HLp by (by rewrite Hmp, eqb_false by regs).
  assert (R m1 LoadReg = 0) as HL1 by (destruct (td_pending _ _ _ _ _ _ _ _ _ _ _ _ Ht) as [->| ->]; done).
  exists m', k', sp1, tab1, res. split; [done|]. split; [done|].
  split; [eapply keeps_memory_trans; [|exact Hk']; apply (td_memory _ _ _ _ _ _ _ _ _ _ _ _ Ht)|].
  split; [eapply exec_result_around; [apply (td_names _ _ _ _ _ _ _ _ _ _ _ _ Ht)|apply Ht|exact Hres|apply rtc_refl]|].
  split; [by apply R_reg|]. rewrite !Hsame by regs. rewrite HL1. split_and!; try done.
  - apply (td_zero _ _ _ _ _ _ _ _ _ _ _ _ Ht). by rewrite Hmp, eqb_false by regs.
  - intros r Hr Hne. rewrite Hsame by regs. pose proof (td_gprs _ _ _ _ _ _ _ _ _ _ _ _ Ht r Hr) as Hs.
    unfold settled in Hs. rewrite HL1, HLp, !eqb_false in Hs by lia. rewrite Hs, Hmp, eqb_false by regs. done.
  - rewrite Hpcs, Hmp by (auto || regs). by rewrite Z.eqb_refl.
  - rewrite Hpcs, Hmp by (auto || regs). by rewrite eqb_false by regs.
Qed.

(** *** The stub *)

(** A NUL-terminated name in the program's memory. *)
Record name_at h m k sp tab (name : list Z) (a : nat) : Prop := {
  na_name : is_name name ∧ (length name < 1024)%nat ∧ (a + length name < 128 * length tab)%nat;
  na_bytes : bytes_at sp (on_sys m k) tab h a name;
  na_end : byte_at sp (on_sys m k) tab h (a + length name) = Some 0 }.

Lemma keeps_name h m k sp tab m' k' sp' tab' name a :
  keeps_memory sp (on_sys m k) tab h sp' (on_sys m' k') tab' → name_at h m k sp tab name a → name_at h m' k' sp' tab' name a.
Proof.
  intros Hk [(N1 & N2 & N3) Hb He]. pose proof Hk as [Hl Hk']. split; [by rewrite Hl|by eapply keeps_bytes|by apply Hk'].
Qed.

(** The stub of Exec is at address [p]. *)
Definition stub_at h m k sp tab (p : nat) : Prop :=
  word_at h m k sp tab p (ADDIU 2 0 SC_Exec) ∧ word_at h m k sp tab (p + 4) SYSCALL ∧ word_at h m k sp tab (p + 8) (JR 31).

Lemma keeps_stub h m k sp tab m' k' sp' tab' p :
  keeps_memory sp (on_sys m k) tab h sp' (on_sys m' k') tab' → stub_at h m k sp tab p → stub_at h m' k' sp' tab' p.
Proof. intros Hk (H1 & H2 & H3). split_and!; by eapply keeps_word. Qed.

(** A state of the processor that goes on, with what the program sees kept since [m] and [k]. *)
Record goes_on h m k sp tab m' k' sp' tab' : Prop := {
  go_process : process h m' k' sp' tab';
  go_memory : keeps_memory sp (on_sys m k) tab h sp' (on_sys m' k') tab';
  go_zero : R m' 0 = 0;
  go_threads : rtc respaced (thr k) (thr k');
  go_names : names (files (sys k')) = names (files (sys k));
  go_exec name : exec_possible sp (files (sys k)) (thr k) name → exec_possible sp' (files (sys k')) (thr k') name }.

Lemma goes_on_trans h m k sp tab m1 k1 sp1 tab1 m2 k2 sp2 tab2 :
  goes_on h m k sp tab m1 k1 sp1 tab1 → goes_on h m1 k1 sp1 tab1 m2 k2 sp2 tab2 → goes_on h m k sp tab m2 k2 sp2 tab2.
Proof. intros [P1 M1 Z1 T1 N1 X1] [P2 M2 Z2 T2 N2 X2]. split; [done|by eapply keeps_memory_trans|done|by etrans|congruence|auto]. Qed.

(** After the fetch of an instruction only registers change. *)
Lemma goes_on_fetched h m k sp tab m1 k1 sp1 tab1 m2 :
  trapped h m k sp tab m1 k1 sp1 tab1 → m2 = with_registers m1 (registers m2) → regs_wf m2 → R m2 0 = 0 →
  goes_on h m k sp tab m2 k1 sp1 tab1.
Proof.
  intros Ht Em Hw Hz. split; [by eapply process_registers; [apply Ht|..]| |done|apply Ht|apply Ht|].
  2: { intros name. by eapply exec_possible_trapped. }
  eapply keeps_memory_trans; [apply Ht|]. by apply (keeps_registers h m1 k1 sp1 tab1 m2 (status k1)).
Qed.

(** The program counters after a fetch, as [R]. *)
Lemma trapped_pc h m k sp tab m' k' sp' tab' :
  regs_wf m → trapped h m k sp tab m' k' sp' tab' → regs_wf m' ∧ R m' PCReg = R m PCReg ∧ R m' NextPCReg = R m NextPCReg.
Proof.
  intros Hw Ht. pose proof (pr_regs _ _ _ _ _ _ _ _ (td_process _ _ _ _ _ _ _ _ _ _ _ _ Ht)) as Hw'. split; [done|].
  split; apply R_reg; rewrite (td_regs _ _ _ _ _ _ _ _ _ _ _ _ Ht) by auto; apply R_ok; done || regs.
Qed.

Lemma step_ADDIU depth h m k sp tab p n :
  process h m k sp tab → R m PCReg = Z.of_nat p → word_at h m k sp tab p (ADDIU 2 0 n) → - 2 ^ 15 ≤ n < 2 ^ 15 →
  R m 0 = 0 → R m LoadReg ≠ 2 →
  ∃ m' k' sp' tab', runs depth 2 m k m' k' ∧ goes_on h m k sp tab m' k' sp' tab' ∧ R m' 2 = n ∧
    (∀ r, 0 < r < NumGPRegs → r ≠ 2 → R m' r = settled m r) ∧ R m' LoadReg = 0 ∧
    R m' PCReg = R m NextPCReg ∧ R m' NextPCReg = s32 (R m NextPCReg + 4).
Proof.
  intros Hp Hpc Hword Hn Hz HL. pose proof (pr_regs _ _ _ _ _ _ _ _ Hp) as Hw.
  destruct (fetch_ok depth h m k sp tab p _ Hp Hpc Hword) as (m0 & k0 & m1 & k1 & sp1 & tab1 & Hrun & Ht & E).
  destruct (trapped_pc _ _ _ _ _ _ _ _ _ Hw Ht) as (Hw1 & _ & HN).
  destruct (fetched_ADDIU big_endian setStatus (handler depth) m1 k1 n) as (m' & Ef & Em & Hw' & Z' & R2 & Rr & RL & RP & RN);
    [done|by apply Ht|by destruct (td_pending _ _ _ _ _ _ _ _ _ _ _ _ Ht) as [->| ->]|done|].
  exists m', k1, sp1, tab1. split.
  { apply (runs_trans depth 1 1 m k m0 k0); [done|]. apply runs_round. by rewrite E. }
  split; [by eapply goes_on_fetched|]. rewrite RP, RN, HN. split_and!; try done.
  intros r Hr Hne. rewrite Rr by done. by apply Ht.
Qed.

Lemma step_JR depth h m k sp tab p :
  process h m k sp tab → R m PCReg = Z.of_nat p → word_at h m k sp tab p (JR 31) → R m LoadReg = 0 →
  ∃ m' k' sp' tab', runs depth 2 m k m' k' ∧ goes_on h m k sp tab m' k' sp' tab' ∧
    (∀ r, 0 < r < NumGPRegs → R m' r = R m r) ∧ R m' LoadReg = 0 ∧
    R m' PCReg = R m NextPCReg ∧ R m' NextPCReg = R m 31.
Proof.
  intros Hp Hpc Hword HL. pose proof (pr_regs _ _ _ _ _ _ _ _ Hp) as Hw.
  destruct (fetch_ok depth h m k sp tab p _ Hp Hpc Hword) as (m0 & k0 & m1 & k1 & sp1 & tab1 & Hrun & Ht & E).
  destruct (trapped_pc _ _ _ _ _ _ _ _ _ Hw Ht) as (Hw1 & _ & HN).
  assert (R m1 LoadReg = 0) as HL1 by (destruct (td_pending _ _ _ _ _ _ _ _ _ _ _ _ Ht) as [->| ->]; done).
  assert (∀ r, 0 < r < NumGPRegs → R m1 r = R m r) as Hr1.
  { intros r Hr. pose proof (td_gprs _ _ _ _ _ _ _ _ _ _ _ _ Ht r Hr) as Hs. unfold settled in Hs.
    by rewrite HL, HL1, !eqb_false in Hs by lia. }
  destruct (fetched_JR big_endian setStatus (handler depth) m1 k1) as (m' & Ef & Em & Hw' & Z' & Rr & RL & RP & RN); [done..|].
  exists m', k1, sp1, tab1. split.
  { apply (runs_trans depth 1 1 m k m0 k0); [done|]. apply runs_round. by rewrite E. }
  split; [by eapply goes_on_fetched|]. rewrite RP, RN, HN. split_and!; try done; [|by apply Hr1; regs].
  intros r Hr. rewrite Rr by done. by apply Hr1.
Qed.

(** SYSCALL, with Exec in the kernel. *)
Lemma step_Exec depth h m k sp tab p name a :
  process h m k sp tab → R m PCReg = Z.of_nat p → word_at h m k sp tab p SYSCALL → R m 2 = SC_Exec → R m LoadReg = 0 →
  R m 4 = Z.of_nat a → name_at h m k sp tab name a → exec_possible sp (files (sys k)) (thr k) name →
  ∃ m' k' sp' tab' res, runs (S depth) 2 m k m' k' ∧ process h m' k' sp' tab' ∧
    keeps_memory sp (on_sys m k) tab h sp' (on_sys m' k') tab' ∧
    exec_result (files (sys k)) name res (thr k) (thr k') ∧ R m' 2 = res ∧ R m' 0 = 0 ∧ R m' LoadReg = 0 ∧
    (∀ r, 0 < r < NumGPRegs → r ≠ 2 → R m' r = R m r) ∧
    R m' PCReg = s32 (R m PCReg + 4) ∧ R m' NextPCReg = R m NextPCReg.
Proof.
  intros Hp Hpc Hword H2 HL H4 Hname Hx. pose proof (pr_regs _ _ _ _ _ _ _ _ Hp) as Hw.
  destruct (fetch_ok (S depth) h m k sp tab p _ Hp Hpc Hword) as (m0 & k0 & m1 & k1 & sp1 & tab1 & Hrun & Ht & E).
  destruct (trapped_pc _ _ _ _ _ _ _ _ _ Hw Ht) as (Hw1 & HP & HN).
  destruct (fetched_SYSCALL big_endian setStatus (handler (S depth)) m1 k1 Hw1)
    as (ms & Em & Hws & Z' & Rr & RL & RP & RN & Ef).
  pose proof (goes_on_fetched h m k sp tab m1 k1 sp1 tab1 ms Ht Em Hws Z') as [Gp Gm _ Gt Gn Gx].
  assert (∀ r, 0 < r < NumGPRegs → R ms r = R m r) as Hrs.
  { intros r Hr. rewrite Rr by done. rewrite (td_gprs _ _ _ _ _ _ _ _ _ _ _ _ Ht r Hr). unfold settled.
    by rewrite HL, eqb_false by lia. }
  pose proof (keeps_name _ _ _ _ _ _ _ _ _ _ _ Gm Hname) as [N1 N2 N3].
  destruct (Exec_handled depth h ms (setStatus SystemMode k1) sp1 tab1 name a)
    as (m' & k' & sp' & tab' & res & Eh & Hp' & Hm' & Hres & R2 & R0 & RL' & Rr' & RP' & RN').
  - by apply setStatus_process.
  - split; [| |done..]; rewrite R_ok by (done || regs); rewrite Hrs by regs; congruence.
  - by apply Gx.
  - done.
  - done.
  - exists m', (setStatus UserMode k'), sp', tab', res. split.
    { apply (runs_trans _ 1 1 m k m0 k0); [done|]. apply runs_round. rewrite E, Ef, Eh. done. }
    split; [by apply setStatus_process|]. split; [eapply keeps_memory_trans; [exact Gm|exact Hm']|].
    split; [by eapply exec_result_around; [exact Gn|exact Gt|exact Hres|]|].
    rewrite RP', RN', RP, RN, HP, HN. split_and!; try done. intros r Hr Hne. rewrite Rr' by done. by apply Hrs.
Qed.

Lemma stub_Exec_runs depth h m k sp tab p name a :
  process h m k sp tab → stub_at h m k sp tab p → R m PCReg = Z.of_nat p → R m NextPCReg = Z.of_nat p + 4 →
  R m 0 = 0 → R m LoadReg ≠ 2 → settled m 4 = Z.of_nat a →
  name_at h m k sp tab name a → exec_possible sp (files (sys k)) (thr k) name →
  ∃ m' k' sp' tab' res, runs (S depth) 8 m k m' k' ∧ process h m' k' sp' tab' ∧
    keeps_memory sp (on_sys m k) tab h sp' (on_sys m' k') tab' ∧
    exec_result (files (sys k)) name res (thr k) (thr k') ∧ R m' 2 = res ∧ (∀ r, 0 < r < NumGPRegs → r ≠ 2 → R m' r = settled m r) ∧
    R m' LoadReg = 0 ∧ R m' PCReg = settled m 31 ∧ R m' NextPCReg = settled m 31.
Proof.
  intros Hp (W1 & W2 & W3) HP HN Hz HL H4 Hname Hx.
  pose proof (vo_pages _ _ _ (vi_ok _ _ _ (pr_inv _ _ _ _ _ _ _ _ Hp))) as [_ Hmax].
  pose proof (vo_len _ _ _ (vi_ok _ _ _ (pr_inv _ _ _ _ _ _ _ _ Hp))) as Hlen. change PageSize with 128 in Hmax.
  assert (Z.of_nat p + 12 < 2 ^ 31) as Hmaxp by (destruct W3; lia).
  destruct (step_ADDIU (S depth) h m k sp tab p SC_Exec) as (m1 & k1 & sp1 & tab1 & E1 & [P1 M1 Z1 T1 N1 X1] & R2 & Rr1 & L1 & PC1 & NP1);
    [done..|unfold SC_Exec; lia|done|done|].
  rewrite HN in PC1, NP1. rewrite s32_small in NP1 by (unfold is_s32; lia).
  destruct (step_Exec depth h m1 k1 sp1 tab1 (p + 4) name a)
    as (m2 & k2 & sp2 & tab2 & res & E2 & P2 & M2 & Hres & V2 & Z2 & L2 & Rr2 & PC2 & NP2); try done.
  { rewrite PC1. lia. }
  { by eapply keeps_word. }
  { by rewrite Rr1 by regs. }
  { by eapply keeps_name. }
  { by apply X1. }
  rewrite PC1, s32_small in PC2 by (unfold is_s32; lia). rewrite NP1 in NP2.
  pose proof (keeps_memory_trans _ _ _ _ _ _ _ _ _ _ M1 M2) as M12.
  destruct (step_JR (S depth) h m2 k2 sp2 tab2 (p + 8)) as (m3 & k3 & sp3 & tab3 & E3 & [P3 M3 Z3 T3 N3 X3] & Rr3 & L3 & PC3 & NP3);
    [done|rewrite PC2; lia|by eapply keeps_word|done|].
  pose proof (keeps_memory_trans _ _ _ _ _ _ _ _ _ _ M12 M3) as M123.
  destruct (step_JR (S depth) h m3 k3 sp3 tab3 (p + 8)) as (m4 & k4 & sp4 & tab4 & E4 & [P4 M4 Z4 T4 N4 X4] & Rr4 & L4 & PC4 & NP4);
    [done|rewrite PC3, NP2; lia|by eapply keeps_word|done|].
  assert (∀ r, 0 < r < NumGPRegs → r ≠ 2 → R m3 r = settled m r) as Hr3
    by (intros r Hr Hne; rewrite Rr3, Rr2, Rr1 by done; done).
  exists m4, k4, sp4, tab4, res. split.
  { apply (runs_trans _ 6 2 m k m3 k3); [|exact E4]. apply (runs_trans _ 4 2 m k m2 k2); [|exact E3].
    by apply (runs_trans _ 2 2 m k m1 k1). }
  split; [done|]. split; [by eapply keeps_memory_trans|].
  split; [eapply exec_result_around; [exact N1|exact T1|exact Hres|by etrans]|]. split_and!.
  - by rewrite Rr4, Rr3 by regs.
  - intros r Hr Hne. rewrite Rr4 by done. by apply Hr3.
  - done.
  - rewrite PC4, NP3. rewrite <- Rr3 by regs. apply Hr3; regs.
  - rewrite NP4. apply Hr3; regs.
Qed.

(** C7: A call of Exec through the stub of start.cc, in a process whose pages may not be in memory: with the stub's three
    instructions at the program counter and the address of a name in r4, the processor is at the return address after at
    most eight rounds, page faults on the stub and on the name included; r2 has the result of Exec (0 when there is no such
    file, otherwise the index of a thread forked for a new address space of that executable), the other registers are the
    caller's, with the load pending at the call done, and the process has all the memory it had.  [exec_possible]: if there
    is such a file it is a program, and in the present state of the threads another one can be entered in the table and
    forked ([may_fork], as in C9). *)
Theorem system_call_returns depth h m k sp tab p name a :
  process h m k sp tab → stub_at h m k sp tab p → R m PCReg = Z.of_nat p → R m NextPCReg = Z.of_nat p + 4 →
  R m 0 = 0 → R m LoadReg ≠ 2 → settled m 4 = Z.of_nat a →
  name_at h m k sp tab name a → exec_possible sp (files (sys k)) (thr k) name →
  ∃ n m' k' sp' tab' res, (n ≤ 8)%nat ∧ steps (S depth) n m k = Ret (Resume, m', k') ∧
    process h m' k' sp' tab' ∧ keeps_memory sp (on_sys m k) tab h sp' (on_sys m' k') tab' ∧
    exec_result (files (sys k)) name res (thr k) (thr k') ∧ R m' 2 = res ∧
    (∀ r, 0 < r < NumGPRegs → r ≠ 2 → R m' r = settled m r) ∧ R m' PCReg = settled m 31 ∧ R m' NextPCReg = settled m 31.
Proof.
  intros Hp Hs HP HN Hz HL H4 Hname Hx.
  destruct (stub_Exec_runs depth h m k sp tab p name a) as (m' & k' & sp' & tab' & res & (n & Hn & Hrun) & P & K & X & V & G & _ & C);
    [done..|].
  exists n, m', k', sp', tab', res. split; [done|]. split; [|done]. specialize (Hrun 0%nat). by rewrite Nat.add_0_r in Hrun.
Qed.
End syscall.

(** *** The program of [Process] at its stub, the address of the name in r4 and the return address in r31 *)
Definition at_stub : Machine :=
  put_reg (put_reg (put_reg (put_reg (mach (caller_start word_two).2) 4 64) 31 12) PCReg 28) NextPCReg 32.

Lemma at_stub_process :
  process false 40 demo_junk caller_header at_stub (caller_kernel word_two) (caller_start word_two).1 (initial_table 9).
Proof.
  assert (word_two = word_no ∨ word_two = word_two) as Hw by (right; reflexivity).
  pose proof (caller_started _ Hw) as Hp. unfold at_stub. revert Hp.
  generalize (mach (caller_start word_two).2) (caller_start word_two).1. intros m sp Hp.
  do 4 (apply process_put; [|clear; regs|clear; regs|clear; unfold is_s32; lia]). exact Hp.
Qed.

Lemma at_stub_word j w :
  [ADDIU 2 0 SC_Exec; SYSCALL; JR 31] !! j = Some w →
  word_at caller_header at_stub (caller_kernel word_two) (caller_start word_two).1 (initial_table 9) (28 + 4 * j) w.
Proof.
  intros Hj. unfold word_at. split; [|split; [|split]].
  - apply Nat.leb_le. destruct j as [|[|[|j]]]; [..|discriminate Hj]; vm_compute; reflexivity.
  - destruct j as [|[|[|j]]]; [reflexivity..|discriminate Hj].
  - destruct j as [|[|[|j]]]; [..|discriminate Hj]; injection Hj as <-; vm_compute; split; congruence.
  - intros i b Hi. destruct j as [|[|[|j]]]; [..|discriminate Hj]; injection Hj as <-;
      destruct i as [|[|[|[|i]]]]; try discriminate Hi; injection Hi as <-; vm_compute; reflexivity.
Qed.

Lemma at_stub_name :
  name_at caller_header at_stub (caller_kernel word_two) (caller_start word_two).1 (initial_table 9) word_two 64.
Proof.
  split.
  - assert (word_two = word_no ∨ word_two = word_two) as Hw by (right; reflexivity).
    exact (ec_name _ _ _ _ _ _ _ (caller_calls _ Hw)).
  - intros i b Hi. destruct i as [|[|[|i]]]; try discriminate Hi; injection Hi as <-; vm_compute; reflexivity.
  - vm_compute. reflexivity.
Qed.

Lemma system_call_returns_witness :
  ∃ n m' k', (n ≤ 8)%nat ∧
    steps false setStatus (ExceptionHandler false false 40 demo_junk 0 1) n at_stub (caller_kernel word_two)
      = Ret (Resume, m', k') ∧ R m' PCReg = 12 ∧ R m' NextPCReg = 12 ∧ R m' 4 = 64.
Proof.
  destruct (system_call_returns false false 40 demo_junk 0 0 caller_header at_stub (caller_kernel word_two)
    (caller_start word_two).1 (initial_table 9) 28 word_two 64 at_stub_process)
    as (n & m' & k' & sp' & tab' & res & Hn & Hrun & _ & _ & _ & _ & Hr & HP & HN).
  - split; [exact (at_stub_word 0 _ eq_refl)|]. split; [exact (at_stub_word 1 _ eq_refl)|exact (at_stub_word 2 _ eq_refl)].
  - vm_compute. reflexivity.
  - vm_compute. reflexivity.
  - vm_compute. reflexivity.
  - vm_compute. discriminate.
  - vm_compute. reflexivity.
  - exact at_stub_name.
  - assert (names (files (sys (caller_kernel word_two))) !! c_string word_two = Some 1%nat) as En by (vm_compute; reflexivity).
    unfold exec_possible. rewrite En. split; [exists demo_header; exact word_two_startable|exact demo_may_fork].
  - exists n, m', k'. split; [exact Hn|]. split; [exact Hrun|].
    assert (settled at_stub 31 = 12) as E31 by (vm_compute; reflexivity). rewrite E31 in HP, HN.
    split; [exact HP|]. split; [exact HN|]. rewrite Hr by (clear; regs || lia). vm_compute. reflexivity.
Defined.

End Syscall.
