(* ===== verification/Thrashing.v ===== *)
(** * A process that has one frame

    ClearPage of addrspace.cc takes a page of the process that faults, and never one of another process.  A process
    for which only one frame is left cannot execute an instruction that loads from another page than its own: the page
    of the instruction and the page of the operand take the frame from each other. *)

From S2P Require Import Prelude CInt BitMap MemManage Machine Mips Registers UnixFile VirtMem Paging FlatMemory Exception Trap.
From S2P Require Import Stubs Process Syscall.
From stdpp Require Import strings.
Import Machine.Machine Mips.Mips Registers.Registers UnixFile.UnixFile VirtMem.VirtMem Paging.Paging FlatMemory.FlatMemory
  Exception.Exception Trap.Trap Stubs.Stubs Process.Process Syscall.Syscall.

Open Scope Z_scope.

Module Thrashing.

(** [lw $t,offset($s)], as the memory has it. *)
Definition LW (t s offset : Z) : Z := s32 (assemble (I_type 35 s t offset)).

Section thrashing.
Context {M : Type} `{FrameAllocSpec M}.
Context {T : Type} `{!ThreadOps T (Sys (M := M))} `{!ThreadLaws T (Sys (M := M))}.
Variable big_endian use_fifo : bool.
Variables (fuel : nat) (junk : list Z) (clock0 : Z).
Implicit Types (s : Sys (M := M)) (sp : AddrSpace) (tab : list TranslationEntry) (k : K (M := M) (T := T)).

Local Abbreviation handler := (ExceptionHandler big_endian use_fifo fuel junk clock0).
Local Abbreviation process := (process big_endian fuel junk).
Local Abbreviation trapped := (trapped big_endian fuel junk).
Local Abbreviation steps depth := (steps big_endian setStatus (handler depth)).
Local Abbreviation fetched depth := (fetched big_endian setStatus (handler depth)).

(** All frames but one belong to other processes. *)
Definition one_frame s tab : Prop := ∃ q0, ∀ q, 0 ≤ q < NumPhysPages → q ≠ q0 → foreign s tab q.

(** Then at most one page is in memory. *)
Lemma one_frame_one_page sp s tab i j ei ej :
  vm_ok sp s tab → one_frame s tab → tab !! i = Some ei → valid ei = true → tab !! j = Some ej → valid ej = true → i = j.
Proof.
  intros Hok [q0 Hq] Ei Vi Ej Vj.
  assert (∀ l el, tab !! l = Some el → valid el = true → physicalPage el = q0) as Hown.
  { intros l el El Vl. destruct (vo_entry _ _ _ Hok l el El) as [_ Hp]. destruct (Hp Vl) as [Hr _].
    destruct (decide (physicalPage el = q0)) as [|Hne]; [done|]. destruct (Hq _ Hr Hne) as [_ Hf]. by destruct (Hf l el El Vl). }
  apply (vo_distinct _ _ _ Hok i j ei ej Ei Ej Vi Vj). by rewrite (Hown i ei), (Hown j ej).
Qed.

Lemma one_frame_trapped h m k sp tab m' k' sp' tab' :
  trapped h m k sp tab m' k' sp' tab' → one_frame (on_sys m k) tab → one_frame (on_sys m' k') tab'.
Proof. intros Ht [q0 Hq]. exists q0. intros q Hr Hne. apply (td_foreign _ _ _ _ _ _ _ _ _ _ _ _ Ht). by apply Hq. Qed.

(** A load whose memory access traps ends with the trap. *)
Lemma fetched_LW depth m k t b off m' k' :
  regs_wf m → 0 ≤ t < 32 → 0 ≤ b < 32 → - 2 ^ 15 ≤ off < 2 ^ 15 → is_s32 (R m b + off) → (R m b + off) mod 4 = 0 →
  ReadMem big_endian setStatus (handler depth) m k (R m b + off) 4 = Ret (Resume, m', k', None) →
  fetched depth (LW t b off) m k = Ret (Resume, m', k').
Proof.
  intros Hw Ht Hb Hoff Hs Hal E.
  destruct (Decode_assemble_ok (I_type 35 b t off)) as (i & Hd & Hop & Hrs & Hrt & Hex); [cbn; lia|].
  injection Hop as Hop. unfold Stubs.fetched, LW.
  assert (is_u32 (assemble (I_type 35 b t off))) as Hu.
  { unfold is_u32. cbn [assemble]. pose proof (Z.mod_pos_bound off (2 ^ 16)). lia. }
  replace (u32 (s32 (assemble (I_type 35 b t off)))) with (assemble (I_type 35 b t off))
    by (unfold u32, s32, is_u32 in *; Z.div_mod_to_equations; lia).
  rewrite Hd. cbn [mbind outcome_bind]. rewrite R_ok by (done || regs). cbn [mbind outcome_bind].
  unfold execute. rewrite <- Hop. unfold exec_load. rewrite <- Hop, Hrs, Hrt, Hex. rewrite R_ok by (done || regs).
  cbn [mbind outcome_bind]. rewrite s32_small by done.
  assert (Z.land (R m b + off) 3 = 0) as -> by (change 3 with (Z.ones 2); rewrite Z.land_ones by lia; exact Hal).
  cbn [Z.eqb negb]. by rewrite E.
Qed.

(** The processor is at a load, at address [a], from an address on another page. *)
Record at_load (h : NoffHeader) m k sp tab (a d : nat) (t b off : Z) : Prop := {
  al_process : process h m k sp tab;
  al_frame : one_frame (on_sys m k) tab;
  al_pc : R m PCReg = Z.of_nat a;
  al_word : word_at h m k sp tab a (LW t b off);
  al_regs : 0 ≤ t < 32 ∧ 0 ≤ b < 32 ∧ - 2 ^ 15 ≤ off < 2 ^ 15;
  al_pending : R m 0 = 0 ∧ R m LoadReg = 0;
  al_address : R m b + off = Z.of_nat d;
  al_page : (d < 128 * length tab)%nat ∧ (d mod 4 = 0)%nat ∧ (d / 128 ≠ a / 128)%nat }.

Lemma at_load_trapped h m k sp tab m' k' sp' tab' a d t b off :
  trapped h m k sp tab m' k' sp' tab' → at_load h m k sp tab a d t b off → at_load h m' k' sp' tab' a d t b off.
Proof.
  intros Ht [Hp Hf Hpc Hw Hr [Hz HL] Had Hpg]. pose proof (pr_regs _ _ _ _ _ _ _ _ Hp) as Hwf.
  destruct (trapped_pc _ _ _ _ _ _ _ _ _ _ _ _ Hwf Ht) as (_ & EP & _).
  pose proof (td_memory _ _ _ _ _ _ _ _ _ _ _ _ Ht) as Hm. pose proof Hm as [Hlen _].
  assert (R m' LoadReg = 0) as HL' by (destruct (td_pending _ _ _ _ _ _ _ _ _ _ _ _ Ht) as [->| ->]; done).
  split; try done.
  - apply Ht.
  - by eapply one_frame_trapped.
  - by rewrite EP.
  - by eapply keeps_word.
  - split; [|done]. by apply (td_zero _ _ _ _ _ _ _ _ _ _ _ _ Ht).
  - rewrite <- Had. f_equal. destruct (decide (b = 0)) as [->|Hb].
    + rewrite Hz. by apply (td_zero _ _ _ _ _ _ _ _ _ _ _ _ Ht).
    + assert (0 < b < NumGPRegs) as Hb' by (unfold NumGPRegs; lia).
      pose proof (td_gprs _ _ _ _ _ _ _ _ _ _ _ _ Ht b Hb') as Hs. unfold settled in Hs.
      by rewrite HL, HL', !eqb_false in Hs by done.
  - by rewrite Hlen.
Qed.

(** One round: a page fault on the instruction, or, when its page is there, on the operand. *)
Lemma load_faults_again depth h m k sp tab a d t b off :
  at_load h m k sp tab a d t b off →
  ∃ m' k' sp' tab', OneInstruction big_endian setStatus (handler depth) m k = Ret (Resume, m', k') ∧
    trapped h m k sp tab m' k' sp' tab'.
Proof.
  intros Hat. pose proof Hat as [Hp Hf Hpc (Hla & Haa & Hws & Hbs) Hr Hz Had (Hd & Hda & Hne)].
  pose proof (pr_regs _ _ _ _ _ _ _ _ Hp) as Hw. pose proof (Nat.div_mod a 128 ltac:(lia)) as Hdm.
  destruct (word_in_page a Haa) as [Hal Ea]. destruct (word_in_page d Hda) as [Hald Ed].
  destruct (lookup_lt_is_Some_2 tab (a / 128)) as [e E]; [apply Nat.Div0.div_lt_upper_bound; lia|].
  assert (access_size 4) as H4 by (right; by right).
  destruct (valid e) eqn:Hv.
  - destruct (load_valid big_endian fuel junk (handler depth) h m k sp tab (a / 128) e (Z.of_nat (a mod 128)) 4
      (word_bytes (LW t b off))) as (m1 & tab1 & El & Ht1 & e1 & E1 & Hv1); try done.
    { by replace (128 * (a / 128) + Z.to_nat (Z.of_nat (a mod 128)))%nat with a by lia. }
    { apply le_bytes_are_bytes. }
    assert (loaded 4 (le_value (word_bytes (LW t b off))) = LW t b off) as Ew by (by apply bytes_s32_word).
    rewrite Ea, Ew, <- Hpc in El.
    destruct (at_load_trapped h m k sp tab m1 k sp tab1 a d t b off Ht1 Hat) as [Hp1 Hf1 _ _ _ _ Had1 (Hd1 & _ & _)].
    destruct (lookup_lt_is_Some_2 tab1 (d / 128)) as [ed Eed]; [apply Nat.Div0.div_lt_upper_bound; lia|].
    assert (valid ed = false) as Hvd.
    { apply not_true_is_false. intros Hvd. apply Hne.
      by apply (one_frame_one_page sp (on_sys m1 k) tab1 (d / 128) (a / 128) ed e1 (vi_ok _ _ _ (pr_inv _ _ _ _ _ _ _ _ Hp1))). }
    destruct (load_faults big_endian use_fifo fuel junk clock0 depth h m1 k sp tab1 (d / 128) ed (Z.of_nat (d mod 128)) 4)
      as (m2 & k2 & sp2 & tab2 & Er & Ht2 & _); [done..|].
    exists m2, k2, sp2, tab2. split; [|by eapply trapped_trans].
    rewrite (OneInstruction_fetched _ _ _ m k m1 k (LW t b off) Hw El). rewrite Ed in Er.
    pose proof (vo_pages _ _ _ (vi_ok _ _ _ (pr_inv _ _ _ _ _ _ _ _ Hp1))) as [_ Hmax]. change PageSize with 128 in Hmax.
    pose proof (vo_len _ _ _ (vi_ok _ _ _ (pr_inv _ _ _ _ _ _ _ _ Hp1))) as Hlen1.
    apply fetched_LW; [apply Hp1|apply Hr..| | |]; rewrite Had1; [unfold is_s32; lia| |done].
    apply (f_equal Z.of_nat) in Hda. by rewrite Nat2Z.inj_mod in Hda.
  - destruct (load_faults big_endian use_fifo fuel junk clock0 depth h m k sp tab (a / 128) e (Z.of_nat (a mod 128)) 4)
      as (m1 & k1 & sp1 & tab1 & Er & Ht1 & _); [done..|].
    exists m1, k1, sp1, tab1. split; [|done]. rewrite Ea, <- Hpc in Er. unfold OneInstruction.
    rewrite R_ok by (done || regs). cbn [mbind outcome_bind]. by rewrite Er.
Qed.

Lemma load_never_ends depth h a d t b off n : ∀ m k sp tab,
  at_load h m k sp tab a d t b off →
  ∃ m' k' sp' tab', steps depth n m k = Ret (Resume, m', k') ∧ trapped h m k sp tab m' k' sp' tab' ∧
    at_load h m' k' sp' tab' a d t b off.
Proof.
  induction n as [|n IH]; intros m k sp tab Hat.
  - exists m, k, sp, tab. split; [done|]. split; [|done]. apply trapped_refl, Hat.
  - destruct (load_faults_again depth h m k sp tab a d t b off Hat) as (m1 & k1 & sp1 & tab1 & E & Ht1).
    destruct (IH m1 k1 sp1 tab1) as (m2 & k2 & sp2 & tab2 & E2 & Ht2 & Hat2); [by eapply at_load_trapped|].
    exists m2, k2, sp2, tab2. split; [|split; [by eapply trapped_trans|done]].
    cbn [Stubs.steps]. rewrite E. exact E2.
Qed.

(** C20: A process to which all frames but one are closed, because they belong to other processes, does not get past a load
    whose operand is on another page than the instruction: after any number of rounds the program counter is still at
    the load, which is never done. *)
Theorem one_frame_thrashes depth h m k sp tab a d t b off n :
  at_load h m k sp tab a d t b off →
  ∃ m' k' sp' tab', steps depth n m k = Ret (Resume, m', k') ∧ process h m' k' sp' tab' ∧
    R m' PCReg = R m PCReg ∧ R m' NextPCReg = R m NextPCReg ∧ R m' LoadReg = 0 ∧
    (∀ r, 0 < r < NumGPRegs → R m' r = R m r).
Proof.
  intros Hat. destruct (load_never_ends depth h a d t b off n m k sp tab Hat) as (m' & k' & sp' & tab' & E & Ht & Hat').
  exists m', k', sp', tab'. split; [done|]. split; [apply Hat'|].
  destruct (trapped_pc _ _ _ _ _ _ _ _ _ _ _ _ (pr_regs _ _ _ _ _ _ _ _ (al_process _ _ _ _ _ _ _ _ _ _ Hat)) Ht) as (_ & EP & EN).
  destruct (al_pending _ _ _ _ _ _ _ _ _ _ Hat) as [_ HL]. destruct (al_pending _ _ _ _ _ _ _ _ _ _ Hat') as [_ HL'].
  split; [done|]. split; [done|]. split; [done|]. intros r Hr.
  pose proof (td_gprs _ _ _ _ _ _ _ _ _ _ _ _ Ht r Hr) as Hs. unfold settled in Hs.
  by rewrite HL, HL', !eqb_false in Hs by lia.
Qed.
End thrashing.

(** *** The program of [Process] at its load, when three of the four frames are taken *)

(** Other processes take frames. *)
Lemma process_frames {M} `{FrameAllocSpec M} {T} `{!ThreadOps T (Sys (M := M))} big_endian fuel junk h m
    (k : K (M := M) (T := T)) sp tab mm :
  process big_endian fuel junk h m k sp tab → fa_wf mm → fa_total mm = NumPhysPages →
  fa_used (memmanage (sys k)) ⊆ fa_used mm → (∃ f, 0 ≤ f < NumPhysPages ∧ f ∉ fa_used mm) →
  process big_endian fuel junk h m (with_sys (with_memmanage mm (sys k)) k) sp tab.
Proof.
  intros [P1 [[V1 V2 V3 V4 V5 V6 V7 V8 V9] I2 I3] P3 P4 P5 P6 P7 P8] Hw Ht Hu Hroom. split; try done; [|by left].
  split; try done. split; try done. intros i e E. destruct (V7 i e E) as [E1 E2]. split; [done|]. intros Hv.
  destruct (E2 Hv) as [Hr Hin]. split; [done|]. by apply Hu.
Qed.

Definition take_frame (mm : MemoryManager.MemoryManager BitMap.BitMap) : MemoryManager.MemoryManager BitMap.BitMap :=
  match fa_AllocPage mm with Ret (mm, _) => mm | _ => mm end.

Lemma take_frame_ok mm : fa_wf mm → fa_wf (take_frame mm) ∧ fa_total (take_frame mm) = fa_total mm.
Proof.
  intros Hw. unfold take_frame. destruct (fa_AllocPage_spec mm Hw) as [(mm' & i & -> & ? & ? & _)|[-> _]]; done.
Qed.

Definition crowded_frames : MemoryManager.MemoryManager BitMap.BitMap := take_frame (take_frame (take_frame demo_frames)).
Definition crowded_kernel : K :=
  with_sys (with_memmanage crowded_frames (sys (caller_kernel word_no))) (caller_kernel word_no).
Definition loading : Machine := put_reg (put_reg (mach (caller_start word_no).2) PCReg 44) NextPCReg 48.

Lemma crowded_frames_ok :
  fa_wf crowded_frames ∧ fa_total crowded_frames = NumPhysPages ∧ elements (fa_used crowded_frames) = [2; 1; 0].
Proof.
  destruct demo_frames_ok as (W0 & T0 & _). destruct (take_frame_ok _ W0) as [W1 T1].
  destruct (take_frame_ok _ W1) as [W2 T2]. destruct (take_frame_ok _ W2) as [W3 T3].
  split; [done|]. split; [unfold crowded_frames; congruence|]. vm_compute. reflexivity.
Qed.

Lemma loading_process :
  process false 40 demo_junk caller_header loading crowded_kernel (caller_start word_no).1 (initial_table 9).
Proof.
  assert (word_no = word_no ∨ word_no = word_two) as Hw by (left; reflexivity).
  destruct crowded_frames_ok as (W & Tt & U). unfold crowded_kernel.
  pose proof (caller_started _ Hw) as Hp.
  assert (elements (fa_used (memmanage (sys (caller_kernel word_no)))) = []) as E0 by (vm_compute; reflexivity).
  unfold loading. revert Hp E0. generalize (mach (caller_start word_no).2) (caller_start word_no).1 (caller_kernel word_no).
  intros m sp k Hp E0. apply process_frames; [|done|done|by intros q Hq%elem_of_elements; rewrite E0 in Hq; apply not_elem_of_nil in Hq|].
  - do 2 (apply process_put; [|clear; regs|clear; regs|clear; unfold is_s32; lia]). exact Hp.
  - exists 3. split; [split; vm_compute; congruence|]. rewrite <- elem_of_elements, U, !elem_of_cons, elem_of_nil. lia.
Qed.

(** The load is from the second page, and the kernel has one frame left. *)
Lemma one_frame_thrashes_witness :
  ∃ m' k', steps false setStatus (ExceptionHandler false false 40 demo_junk 0 1) 1000 loading crowded_kernel = Ret (Resume, m', k') ∧
    R m' PCReg = 44 ∧ R m' 5 = 0.
Proof.
  destruct (one_frame_thrashes false false 40 demo_junk 0 1 caller_header loading crowded_kernel (caller_start word_no).1
    (initial_table 9) 44 128 5 0 128 1000) as (m' & k' & sp' & tab' & E & _ & EP & _ & _ & ER).
  - split.
    + exact loading_process.
    + destruct crowded_frames_ok as (_ & _ & U). exists 3. intros q Hq Hne. split.
      * change (memmanage (on_sys loading crowded_kernel)) with crowded_frames.
        rewrite <- elem_of_elements, U, !elem_of_cons. unfold NumPhysPages in Hq. lia.
      * intros j ej Ej Hv. exfalso. apply list_elem_of_lookup_2 in Ej. apply list_elem_of_fmap in Ej as (i & -> & _). discriminate Hv.
    + vm_compute. reflexivity.
    + split; [apply Nat.leb_le; vm_compute; reflexivity|]. split; [reflexivity|]. split; [vm_compute; split; congruence|].
      intros i b Hi. destruct i as [|[|[|[|i]]]]; try discriminate Hi; injection Hi as <-; vm_compute; reflexivity.
    + clear. lia.
    + split; vm_compute; reflexivity.
    + vm_compute. reflexivity.
    + split; [apply Nat.ltb_lt; vm_compute; reflexivity|]. split; [reflexivity|discriminate].
  - exists m', k'. split; [exact E|]. rewrite EP, ER by (clear; regs). split; vm_compute; reflexivity.
Defined.

End Thrashing.
