(* ===== verification/SynchDisk.v ===== *)
(** * filesys/synchdisk.h, synchdisk.cc: threads that share the disk

    Any number of threads read and write sectors at any time.  The lock and the semaphore appear by their
    specifications ([Synch]): a lock is the thread that holds it, a semaphore its value.  A step is
    what a thread does between two points at which it can lose the processor; the disk's
    interrupt comes whenever it is pending.  The rest of the machine may do what it likes with the
    clock and with the other interrupts. *)

From S2P Require Import Prelude CInt NList Machine Interrupt Disk.
Import Machine.Machine Interrupt.Interrupt Disk.Disk.

Open Scope Z_scope.

Module SynchDisk.

Section synchdisk.
Context {H W : Type} `{HasClockLaws H W}.
(** [DiskRequestDone] *)
Variable DiskDone : H.

Inductive request := Read (sectorNumber : Z) | Write (sectorNumber : Z) (data : list Z).

(** Where a thread is: in its own code, at the [Acquire], with the lock before the request, in the [P], and
    before the [Release].  What a read has put in the buffer goes along. *)
Inductive place :=
  | Outside
  | Acquiring (r : request)
  | Locked (r : request)
  | Waiting (r : request) (buffer : list Z)
  | Completed (r : request) (buffer : list Z).

(** The SynchDisk, the world, the threads, and a record of the requests in the order in which they were
    issued, with the data of each. *)
Record State := mkState {
  disk : Disk; world : W; lock : option nat; semaphore : Z; threads : list place;
  issued : list (request * list Z) }.

Definition SynchDisk_new (d : Disk) (w : W) (n : nat) : State :=
  mkState d w None 0 (replicate n Outside) [].

Definition at_ (i : nat) (p : place) (st : State) : State :=
  mkState (disk st) (world st) (lock st) (semaphore st) (<[i := p]> (threads st)) (issued st).
Definition with_lock (l : option nat) (st : State) : State :=
  mkState (disk st) (world st) l (semaphore st) (threads st) (issued st).
Definition with_semaphore (v : Z) (st : State) : State :=
  mkState (disk st) (world st) (lock st) v (threads st) (issued st).
Definition with_disk (d : Disk) (w : W) (st : State) : State :=
  mkState d w (lock st) (semaphore st) (threads st) (issued st).
Definition with_issued (r : request) (data : list Z) (st : State) : State :=
  mkState (disk st) (world st) (lock st) (semaphore st) (threads st) (issued st ++ [(r, data)]).

(** [Acquire] asserts that the caller does not hold the lock, and waits until nobody does. *)
Definition Acquire (i : nat) (st : State) : outcome State :=
  assert! negb (bool_decide (lock st = Some i));;
  _ ← defined_if (bool_decide (lock st = None));
  Ret (with_lock (Some i) st).

Definition Release (i : nat) (st : State) : outcome State :=
  assert! bool_decide (lock st = Some i);;
  Ret (with_lock None st).

Definition P (st : State) : outcome State :=
  _ ← defined_if (0 <? semaphore st);
  Ret (with_semaphore (semaphore st - 1) st).

Definition V (st : State) : outcome State := Ret (with_semaphore (semaphore st + 1) st).

(** [disk->ReadRequest] and [disk->WriteRequest] *)
Definition Request (r : request) (st : State) : outcome (State * list Z) :=
  match r with
  | Read s =>
      '(d, w, data) ← ReadRequest DiskDone (disk st) (world st) s;
      Ret (with_issued r data (with_disk d w st), data)
  | Write s data =>
      '(d, w) ← WriteRequest DiskDone (disk st) (world st) s data;
      Ret (with_issued r data (with_disk d w st), data)
  end.

(** The next step of thread [i] in [ReadSector] or [WriteSector]. *)
Definition thread_step (i : nat) (st : State) : outcome State :=
  match threads st !! i with
  | Some (Acquiring r) => st ← Acquire i st; Ret (at_ i (Locked r) st)
  | Some (Locked r) => '(st, data) ← Request r st; Ret (at_ i (Waiting r data) st)
  | Some (Waiting r data) => st ← P st; Ret (at_ i (Completed r data) st)
  | Some (Completed r data) => st ← Release i st; Ret (at_ i Outside st)
  | _ => Undefined
  end.

(** The handler the disk calls. *)
Definition RequestDone (st : State) : outcome State := V st.

(** The interrupts of the disk among those pending. *)
Definition of_disk (e : Z * PendingInterrupt H) : Prop := type e.2 = DiskInt.
Definition disk_pending (w : W) : list (Z * PendingInterrupt H) := filter of_disk (pending (int_of w)).

(** The interrupt at index [n] of the pending list fires. *)
Definition interrupt_step (n : nat) (st : State) : outcome State :=
  match pending (int_of (world st)) !! n with
  | Some (t, p) =>
      _ ← defined_if (bool_decide (type p = DiskInt));
      let w := upd_int (λ i, set_pending i (delete n (pending i))) (world st) in
      '(d, st') ← HandleInterrupt (disk st) RequestDone st;
      Ret (with_disk d w st')
  | None => Undefined
  end.

Definition valid_request (r : request) : Prop :=
  match r with
  | Read s => 0 ≤ s < NumSectors
  | Write s data => 0 ≤ s < NumSectors ∧ is_sector data
  end.

Inductive event := Begin (i : nat) (r : request) | Thread (i : nat) | Fire (n : nat) | Elsewhere (w : W).

Definition exec (e : event) (st : State) : outcome State :=
  match e with
  | Begin i r =>
      match threads st !! i with
      | Some Outside => Ret (at_ i (Acquiring r) st)
      | _ => Undefined
      end
  | Thread i => thread_step i st
  | Fire n => interrupt_step n st
  | Elsewhere w => Ret (with_disk (disk st) w st)
  end.

(** Callers pass sector numbers of the disk and whole sectors, and nobody else touches the disk's
    interrupts; the clock, which is an [int], may do anything. *)
Definition allowed (e : event) (st : State) : Prop :=
  match e with
  | Begin _ r => valid_request r
  | Elsewhere w => disk_pending w = disk_pending (world st)
  | _ => True
  end.

Definition step (st st' : State) : Prop := ∃ e, allowed e st ∧ exec e st = Ret st'.

(** *** The history of the sectors *)
Definition overwrite (f : Z → list Z) (r : request) : Z → list Z :=
  match r with
  | Read _ => f
  | Write s data => λ x, if decide (x = s) then data else f x
  end.

(** What the sectors hold after some requests. *)
Definition replay (f : Z → list Z) (l : list (request * list Z)) : Z → list Z :=
  foldl (λ f e, overwrite f e.1) f l.

(** Every read gave what the sector held when it was issued. *)
Fixpoint reads_agree (f : Z → list Z) (l : list (request * list Z)) : Prop :=
  match l with
  | [] => True
  | (r, data) :: l => match r with Read s => data = f s | Write _ d => data = d end ∧ reads_agree (overwrite f r) l
  end.

Lemma reads_agree_snoc f l r data :
  reads_agree f (l ++ [(r, data)]) ↔
    reads_agree f l ∧ match r with Read s => data = replay f l s | Write _ d => data = d end.
Proof.
  revert f. induction l as [|[r0 d0] l IH]; intros f; cbn; [tauto|]. rewrite IH. unfold replay. cbn. tauto.
Qed.

Lemma replay_snoc f l r data : replay f (l ++ [(r, data)]) = overwrite (replay f l) r.
Proof. unfold replay. by rewrite foldl_app. Qed.

(** *** The invariant *)
Definition holds_lock (p : place) : bool :=
  match p with Outside | Acquiring _ => false | _ => true end.
Definition request_of (p : place) : option request :=
  match p with
  | Outside => None
  | Acquiring r | Locked r | Waiting r _ | Completed r _ => Some r
  end.
Definition holder_place (st : State) : option place := i ← lock st; threads st !! i.

(** Nothing is under way, or the request of the thread in [P] is, or its interrupt has come. *)
Definition quiet (st : State) : Prop :=
  active (disk st) = false ∧ semaphore st = 0 ∧ disk_pending (world st) = [].
Definition under_way (st : State) : Prop :=
  active (disk st) = true ∧ semaphore st = 0 ∧ ∃ e, disk_pending (world st) = [e].
Definition interrupted (st : State) : Prop :=
  active (disk st) = false ∧ semaphore st = 1 ∧ disk_pending (world st) = [].

Definition phase (st : State) : Prop :=
  match holder_place st with
  | Some (Waiting r data) => (under_way st ∨ interrupted st) ∧ last (issued st) = Some (r, data)
  | Some (Completed r data) => quiet st ∧ last (issued st) = Some (r, data)
  | _ => quiet st
  end.

Record inv (f : Z → list Z) (st : State) : Prop := {
  iv_length : Z.of_nat (length (image (disk st))) = DiskSize;
  iv_bytes : Forall is_byte (image (disk st));
  iv_last : 0 ≤ lastSector (disk st) < NumSectors;
  iv_lock i : lock st = Some i ↔ ∃ p, threads st !! i = Some p ∧ holds_lock p = true;
  iv_valid i p r : threads st !! i = Some p → request_of p = Some r → valid_request r;
  iv_phase : phase st;
  iv_sectors s : 0 ≤ s < NumSectors → sector (disk st) s = replay f (issued st) s;
  iv_agree : reads_agree f (issued st) }.

Lemma inv_wf f st : inv f st → active (disk st) = false → wf (disk st).
Proof. intros Hi Ha. by split; try apply Hi. Qed.

(** One thread moves, and keeps or passes the lock as its place says. *)
Lemma holders_move st st' i p p' :
  (∀ j, lock st = Some j ↔ ∃ p, threads st !! j = Some p ∧ holds_lock p = true) →
  threads st !! i = Some p → threads st' = <[i := p']> (threads st) →
  (holds_lock p' = true → lock st' = Some i ∧ (lock st = None ∨ lock st = Some i)) →
  (holds_lock p' = false → lock st' = if holds_lock p then None else lock st) →
  ∀ j, lock st' = Some j ↔ ∃ p, threads st' !! j = Some p ∧ holds_lock p = true.
Proof.
  intros Hl Hi Et Hx Hy j. rewrite Et. pose proof (lookup_lt_Some _ _ _ Hi) as Hlt.
  destruct (decide (i = j)) as [<-|Hne].
  - rewrite list_lookup_insert_eq by done. destruct (holds_lock p') eqn:Hp'.
    + destruct (Hx eq_refl) as [-> _]. split; [by eexists|done].
    + rewrite (Hy eq_refl). split; [|by intros (? & [= <-] & ?); congruence].
      destruct (holds_lock p) eqn:Hp; [done|]. intros Hj. apply Hl in Hj as (q & Eq & Hq). congruence.
  - rewrite list_lookup_insert_ne by done. rewrite <- Hl. destruct (holds_lock p') eqn:Hp'.
    + destruct (Hx eq_refl) as [-> [-> | ->]]; split; congruence.
    + rewrite (Hy eq_refl). destruct (holds_lock p) eqn:Hp; [|done].
      assert (lock st = Some i) as -> by (apply Hl; by eexists). split; congruence.
Qed.

Lemma valid_move st i p' :
  (∀ j p r, threads st !! j = Some p → request_of p = Some r → valid_request r) →
  (∀ r, request_of p' = Some r → valid_request r) →
  ∀ j p r, <[i := p']> (threads st) !! j = Some p → request_of p = Some r → valid_request r.
Proof.
  intros Hv Hp' j p r Hj. apply list_lookup_insert_Some in Hj as [(-> & <- & _)|[_ Hj]]; [apply Hp'|]. by apply (Hv j p r).
Qed.

Lemma disk_pending_scheduled w w' :
  requested DiskDone w w' → disk_pending w = [] → ∃ e, disk_pending w' = [e].
Proof.
  intros [_ (t & Ep)] Hw. unfold disk_pending in *. rewrite Ep.
  eexists. apply Permutation_singleton_r. rewrite k_insert_perm, filter_cons_True by done. by rewrite Hw.
Qed.

Lemma disk_pending_fired w n t p :
  pending (int_of w) !! n = Some (t, p) → type p = DiskInt → (∃ e, disk_pending w = [e]) →
  disk_pending (upd_int (λ i, set_pending i (delete n (pending i))) w) = [].
Proof.
  intros Hn Hp [e He]. unfold disk_pending, upd_int in *. rewrite int_set_int. cbn [pending set_pending].
  pose proof (take_drop_middle _ _ _ Hn) as E. set (l1 := take n _) in *. set (l2 := drop (S n) _) in *.
  assert (n = length l1) as En by (unfold l1; rewrite length_take; apply lookup_lt_Some in Hn; lia).
  clearbody l1 l2. rewrite <- E in *. rewrite En, delete_middle, filter_app.
  rewrite filter_app, filter_cons_True in He by done.
  by destruct (filter of_disk l1) as [|? [|]], (filter of_disk l2).
Qed.

(** A step that is possible keeps the invariant, and no assertion fails. *)
Definition fine (f : Z → list Z) (o : outcome State) : Prop :=
  match o with Ret st' => inv f st' | Undefined => True | _ => False end.

(** The place of the thread that holds the lock. *)
Lemma holder_place_eq st i p : lock st = Some i → threads st !! i = Some p → holder_place st = Some p.
Proof. intros Hl Hp. unfold holder_place. by rewrite Hl. Qed.

Lemma phase_of f st i p : inv f st → threads st !! i = Some p → holds_lock p = true →
  lock st = Some i ∧ match p with
    | Waiting r data => (under_way st ∨ interrupted st) ∧ last (issued st) = Some (r, data)
    | Completed r data => quiet st ∧ last (issued st) = Some (r, data)
    | _ => quiet st
    end.
Proof.
  intros Hi Hp Hh. assert (lock st = Some i) as Hl by (apply (iv_lock _ _ Hi); by exists p).
  split; [done|]. pose proof (iv_phase _ _ Hi) as Hph. unfold phase in Hph. by rewrite (holder_place_eq st i p) in Hph.
Qed.

Lemma begin_ok f st i r : inv f st → valid_request r → fine f (exec (Begin i r) st).
Proof.
  intros Hi Hr. cbn. destruct (threads st !! i) as [p|] eqn:Ep; [|done]. destruct p; try done.
  pose proof Hi as [V1 V2 V3 V5 V6 V7 V8 V9]. split; try done.
  - by apply (holders_move st _ i Outside (Acquiring r)).
  - apply valid_move; [done|]. by intros r' [= <-].
  - unfold phase, holder_place in *. cbn [lock threads at_]. destruct (lock st) as [j|] eqn:El; [|done].
    cbn [mbind option_bind] in *. destruct (decide (i = j)) as [->|Hne]; [|by rewrite list_lookup_insert_ne].
    destruct (proj1 (V5 j) eq_refl) as (q & Eq & Hq). by simplify_eq.
Qed.

Lemma acquire_ok f st i r : inv f st → threads st !! i = Some (Acquiring r) → fine f (thread_step i st).
Proof.
  intros Hi Ep. unfold thread_step. rewrite Ep. unfold Acquire.
  pose proof Hi as [V1 V2 V3 V5 V6 V7 V8 V9].
  rewrite (bool_decide_eq_false_2 (lock st = Some i)); [|intros Hl; apply V5 in Hl as (q & Eq & Hq); by simplify_eq].
  cbn [negb ASSERT mbind outcome_bind]. case_bool_decide as Hl; [|done]. cbn [defined_if mbind outcome_bind].
  assert (quiet st) as Hq by (unfold phase, holder_place in V7; by rewrite Hl in V7).
  split; try done.
  - apply (holders_move st _ i (Acquiring r) (Locked r)); [done|done|done| |done]. by auto.
  - apply valid_move; [done|]. intros r' [= <-]. by eapply V6.
  - unfold phase. rewrite (holder_place_eq _ i (Locked r)); [done..|].
    apply list_lookup_insert_eq. by eapply lookup_lt_Some.
Qed.

Lemma request_ok f st i r : inv f st → threads st !! i = Some (Locked r) → fine f (thread_step i st).
Proof.
  intros Hi Ep. destruct (phase_of f st i _ Hi Ep eq_refl) as [Hl (Ha & Hs & Hd)].
  pose proof Hi as [V1 V2 V3 V5 V6 V7 V8 V9]. pose proof (inv_wf f st Hi Ha) as Hwf.
  pose proof (V6 i _ r Ep eq_refl) as Hr. unfold thread_step. rewrite Ep. unfold Request.
  assert (∀ data, <[i := Waiting r data]> (threads st) !! i = Some (Waiting r data)) as Ei
    by (intros data; apply list_lookup_insert_eq; by eapply lookup_lt_Some).
  assert (∀ d w data, active d = true → requested DiskDone (world st) w →
    phase (at_ i (Waiting r data) (with_issued r data (with_disk d w st)))) as Hph.
  { intros d w data Hd1 Hd2. unfold phase. rewrite (holder_place_eq _ i (Waiting r data)) by (done || apply Ei).
    split; [left|apply last_snoc]. split; [done|]. split; [done|]. by eapply disk_pending_scheduled. }
  destruct r as [s|s data].
  - destruct (ReadRequest_ok DiskDone (disk st) (world st) s Hwf Hr) as (d & w & -> & Hq & E1 & E2 & E3).
    cbn [mbind outcome_bind].
    split; cbn [disk world lock semaphore threads issued at_ with_issued with_disk]; rewrite ?E1, ?E3; try done.
    + apply (holders_move st (at_ i (Waiting (Read s) (sector (disk st) s)) st) i (Locked (Read s)) (Waiting (Read s) (sector (disk st) s))); [done|done|done|by auto|done].
    + apply valid_move; [done|]. by intros r' [= <-].
    + by apply Hph.
    + intros s' Hs'. rewrite replay_snoc. cbn. rewrite <- V8 by done. unfold sector. by rewrite E1.
    + rewrite reads_agree_snoc. split; [done|]. by apply V8.
  - destruct Hr as [Hr Hdata].
    destruct (WriteRequest_ok DiskDone (disk st) (world st) s data Hwf Hr Hdata)
      as (d & w & -> & Hq & E1 & E2 & E3 & E4 & E5 & E6). cbn [mbind outcome_bind].
    split; cbn [disk world lock semaphore threads issued at_ with_issued with_disk]; rewrite ?E4; try done.
    + apply (holders_move st (at_ i (Waiting (Write s data) data) st) i (Locked (Write s data)) (Waiting (Write s data) data)); [done|done|done|by auto|done].
    + apply valid_move; [done|]. by intros r' [= <-].
    + by apply Hph.
    + intros s' Hs'. rewrite replay_snoc. cbn. destruct (decide (s' = s)) as [->|Hne]; [done|]. by rewrite E6, V8.
    + by rewrite reads_agree_snoc.
Qed.

Lemma wait_ok f st i r data : inv f st → threads st !! i = Some (Waiting r data) → fine f (thread_step i st).
Proof.
  intros Hi Ep. destruct (phase_of f st i _ Hi Ep eq_refl) as [Hl [Hw Hlast]].
  pose proof Hi as [V1 V2 V3 V5 V6 V7 V8 V9]. unfold thread_step. rewrite Ep. unfold P.
  destruct Hw as [(Ha & -> & Hd)|(Ha & Es & Hd)]; [done|]. rewrite Es. cbn [Z.ltb defined_if mbind outcome_bind].
  split; try done.
  - apply (holders_move st (at_ i (Completed r data) st) i (Waiting r data) (Completed r data)); [done|done|done|by auto|done].
  - apply valid_move; [done|]. intros r' [= <-]. by eapply V6.
  - unfold phase. rewrite (holder_place_eq _ i (Completed r data)); [done..|].
    apply list_lookup_insert_eq. by eapply lookup_lt_Some.
Qed.

Lemma release_ok f st i r data : inv f st → threads st !! i = Some (Completed r data) → fine f (thread_step i st).
Proof.
  intros Hi Ep. destruct (phase_of f st i _ Hi Ep eq_refl) as [Hl [Hq Hlast]].
  pose proof Hi as [V1 V2 V3 V5 V6 V7 V8 V9]. unfold thread_step. rewrite Ep. unfold Release.
  rewrite bool_decide_eq_true_2 by done. cbn [ASSERT mbind outcome_bind]. split; try done.
  - by apply (holders_move st _ i (Completed r data) Outside).
  - by apply valid_move.
Qed.

Lemma interrupt_ok f st n : inv f st → fine f (interrupt_step n st).
Proof.
  intros Hi. unfold interrupt_step. destruct (pending (int_of (world st)) !! n) as [[t p]|] eqn:En; [|done].
  case_bool_decide as Ht; [|done]. cbn [defined_if mbind outcome_bind HandleInterrupt RequestDone V].
  assert ((t, p) ∈ disk_pending (world st)) as Hin.
  { apply list_elem_of_filter. split; [done|]. by eapply list_elem_of_lookup_2. }
  pose proof Hi as [V1 V2 V3 V5 V6 V7 V8 V9].
  assert (holder_place st = holder_place (with_semaphore (semaphore st + 1) st)) as Eh by done.
  assert (∃ r data, holder_place st = Some (Waiting r data) ∧ under_way st ∧ last (issued st) = Some (r, data))
    as (r & data & Ep & (Ha & Es & Hd) & Hlast).
  { unfold phase in V7. unfold quiet, interrupted in V7. destruct (holder_place st) as [[| | |r data|r data]|].
    4: { destruct V7 as [[Hu|(_ & _ & Hd)] Hl]; [by eauto|]. rewrite Hd in Hin. by apply not_elem_of_nil in Hin. }
    all: try (destruct V7 as (_ & _ & Hd); rewrite Hd in Hin; by apply not_elem_of_nil in Hin).
    destruct V7 as [(_ & _ & Hd) _]. rewrite Hd in Hin. by apply not_elem_of_nil in Hin. }
  split; cbn [disk world lock semaphore threads issued with_disk with_semaphore image lastSector]; try done.
  - unfold phase. change (holder_place _) with (holder_place st). rewrite Ep. split; [right|done].
    split; [done|]. split; [cbn; lia|]. by eapply disk_pending_fired.
Qed.

Lemma exec_ok f st e : inv f st → allowed e st → fine f (exec e st).
Proof.
  intros Hi Ha. destruct e as [i r|i|n|w]; cbn [allowed] in Ha.
  - by apply begin_ok.
  - cbn [exec]. destruct (threads st !! i) as [p|] eqn:Ep; [|unfold thread_step; by rewrite Ep].
    destruct p as [|r|r|r data|r data]; [unfold thread_step; by rewrite Ep|by eapply acquire_ok|by eapply request_ok|
      by eapply wait_ok|by eapply release_ok].
  - by apply interrupt_ok.
  - rename Ha into Hd. pose proof Hi as [V1 V2 V3 V5 V6 V7 V8 V9]. split; try done.
    unfold phase, quiet, under_way, interrupted in *. cbn [disk semaphore world with_disk issued]. rewrite Hd. exact V7.
Qed.

Lemma start_inv d w n :
  wf d → disk_pending w = [] → inv (sector d) (SynchDisk_new d w n).
Proof.
  intros [] Hp. split; try done.
  - intros i. split; [done|]. intros (p & Hi & Hh). by apply lookup_replicate_1 in Hi as [-> _].
  - intros i p r Hi. by apply lookup_replicate_1 in Hi as [-> _].
Qed.

Definition later (d : Disk) (w : W) (n : nat) : State → Prop := reachable (λ st, st = SynchDisk_new d w n) step.

Lemma later_inv d w n st :
  wf d → disk_pending w = [] → later d w n st → inv (sector d) st.
Proof.
  intros Hd Hp. apply (invariant_reachable _ _ (inv (sector d))).
  - intros s ->. by apply start_inv.
  - intros s s' _ Hi (e & Ha & Ee). pose proof (exec_ok _ s e Hi Ha) as Hf. by rewrite Ee in Hf.
Qed.

(** C22: threads that share the disk by ReadSector and WriteSector, under every schedule: no ASSERT of the disk or
    the lock fails, so there is never more than one request; every read returns what the last
    write of that sector before it wrote, in the order in which the requests were issued; a routine returns only
    after its own request was completed, and while a thread waits the interrupt that wakes it is pending or
    has come. *)
Theorem synchdisk_serialises d w n st :
  wf d → disk_pending w = [] → later d w n st →
  (∀ e, allowed e st → exec e st ≠ AssertFails ∧ exec e st ≠ OutOfFuel) ∧
  reads_agree (sector d) (issued st) ∧
  (∀ s, 0 ≤ s < NumSectors → sector (disk st) s = replay (sector d) (issued st) s) ∧
  (∀ i r data, threads st !! i = Some (Completed r data) →
     active (disk st) = false ∧ last (issued st) = Some (r, data)) ∧
  (∀ i r data, threads st !! i = Some (Waiting r data) → last (issued st) = Some (r, data) ∧
     (semaphore st = 1 ∨ ∃ k t p, pending (int_of (world st)) !! k = Some (t, p) ∧ type p = DiskInt)).
Proof.
  intros Hd Hp Hl. pose proof (later_inv d w n st Hd Hp Hl) as Hi. split_and!.
  - intros e Ha. pose proof (exec_ok _ st e Hi Ha) as Hf. by destruct (exec e st).
  - apply Hi.
  - apply Hi.
  - intros i r data Ep. by destruct (phase_of _ st i _ Hi Ep eq_refl) as [_ [(Ha & _) Hlast]].
  - intros i r data Ep. destruct (phase_of _ st i _ Hi Ep eq_refl) as [_ [Hw Hlast]]. split; [done|].
    destruct Hw as [(_ & _ & [t p] & Hd')|(_ & Es & _)]; [right|by left].
    assert ((t, p) ∈ disk_pending (world st)) as Hin by (rewrite Hd'; apply list_elem_of_singleton; done).
    apply list_elem_of_filter in Hin as [Ht' [k Hk]%list_elem_of_lookup]. by exists k, t, p.
Qed.

Fixpoint exec_all (es : list event) (st : State) : outcome State :=
  match es with
  | [] => Ret st
  | e :: es => st ← exec e st; exec_all es st
  end.

Lemma later_exec_all d w n es st st' :
  later d w n st → Forall (λ e, match e with Begin _ r => valid_request r | Elsewhere _ => False | _ => True end) es →
  exec_all es st = Ret st' → later d w n st'.
Proof.
  revert st. induction es as [|e es IH]; intros st Hl Hes E; cbn in E; [by injection E as <-|].
  inversion_clear Hes as [|? ? He Hes']. apply bind_Ret_inv in E as (st1 & E1 & E2). apply (IH st1); [|done..].
  apply (reach_step _ _ st); [done|]. exists e. split; [|done]. by destruct e.
Qed.

End synchdisk.

(** ** One thread writes, another one reads *)
Definition demo_clock : ClockWorld :=
  mkCW (mkInterrupt IntOn [(8, mkPending 0%nat 0 8 TimerInt)] false false SystemMode) Statistics_new [].
Definition sevens : list Z := replicate 128 7.
Definition demo_events : list (event (W := ClockWorld)) :=
  [Begin 0 (Write 5 sevens); Begin 1 (Read 5); Thread 0; Thread 0; Fire 1; Thread 0; Thread 0;
   Thread 1; Thread 1; Fire 1; Thread 1].
Definition demo_end : State :=
  match exec_all 9%nat demo_events (SynchDisk_new blank_disk demo_clock 2) with
  | Ret st => st
  | _ => SynchDisk_new blank_disk demo_clock 2
  end.

Lemma synchdisk_serialises_witness :
  threads demo_end = [Outside; Completed (Read 5) sevens] ∧ active (disk demo_end) = false ∧
  reads_agree (sector blank_disk) [(Write 5 sevens, sevens); (Read 5, sevens)].
Proof.
  assert (exec_all 9%nat demo_events (SynchDisk_new blank_disk demo_clock 2) = Ret demo_end) as Ee.
  { assert (match exec_all 9%nat demo_events (SynchDisk_new blank_disk demo_clock 2) with Ret _ => true | _ => false end
      = true) as Hr by (vm_compute; reflexivity).
    unfold demo_end. destruct (exec_all 9%nat demo_events _); [reflexivity|discriminate Hr..]. }
  assert (later 9%nat blank_disk demo_clock 2 demo_end) as Hl.
  { apply (later_exec_all 9%nat blank_disk demo_clock 2 demo_events (SynchDisk_new blank_disk demo_clock 2)).
    - apply reach_init. reflexivity.
    - assert (is_sector sevens) as Hs by (split; [apply Forall_replicate; unfold is_byte; lia|reflexivity]).
      assert (0 ≤ 5 < NumSectors) as H5 by (split; vm_compute; congruence).
      unfold demo_events. repeat (apply Forall_cons; split; [first [exact I|exact H5|exact (conj H5 Hs)]|]).
      apply Forall_nil. exact I.
    - exact Ee. }
  assert (threads demo_end = [Outside; Completed (Read 5) sevens]) as Et by (vm_compute; reflexivity).
  assert (issued demo_end = [(Write 5 sevens, sevens); (Read 5, sevens)]) as Ei by (vm_compute; reflexivity).
  destruct (synchdisk_serialises 9%nat blank_disk demo_clock 2 demo_end blank_disk_wf) as (_ & Hr & _ & Hc & _).
  - reflexivity.
  - exact Hl.
  - split; [exact Et|]. rewrite Ei in Hr. split; [|exact Hr].
    apply (Hc 1%nat (Read 5) sevens). rewrite Et. reflexivity.
Defined.

End SynchDisk.
