(* ===== verification/Console.v ===== *)
(** * machine/console.h, console.cc, and ConsoleTest (userprog/progtest.cc)

    The console device and the thread that echoes what is typed.  The keyboard is the bytes that were typed and
    not read; a keyboard that is a file has an end.  The interrupts the device asked for are in
    [scheduled].  The semaphores are their values ([Synch]); the handlers of the device call [V]
    on them.  A step of the thread is what it does between two points at which it can lose the processor. *)

From S2P Require Import Prelude CInt.

Open Scope Z_scope.

Module Console.

Definition EOF : Z := -1.
Definition q : Z := 113.

Inductive interrupt := ReadPoll | WriteComplete.
#[export] Instance interrupt_eq_dec : EqDecision interrupt.
Proof. solve_decision. Defined.

(** UNIX: the bytes that can be read, whether the end of the file follows, and the bytes written. *)
Record Files := mkFiles { typed : list Z; ended : bool; display : list Z }.

Record Console := mkConsole { putBusy : bool; incoming : Z }.

(** Where the thread of ConsoleTest is: at [readAvail->P], behind it, at [writeDone->P], or back. *)
Inductive place := AtReadAvail | GotChar | AtWriteDone (ch : Z) | Returned.

Record State := mkState {
  console : Console; files : Files; scheduled : list interrupt;
  readAvail : Z; writeDone : Z;
  numConsoleCharsRead : Z; numConsoleCharsWritten : Z;
  thread : place }.

Definition with_console (c : Console) (st : State) : State :=
  mkState c (files st) (scheduled st) (readAvail st) (writeDone st) (numConsoleCharsRead st)
    (numConsoleCharsWritten st) (thread st).
Definition with_files (f : Files) (st : State) : State :=
  mkState (console st) f (scheduled st) (readAvail st) (writeDone st) (numConsoleCharsRead st)
    (numConsoleCharsWritten st) (thread st).
Definition with_scheduled (l : list interrupt) (st : State) : State :=
  mkState (console st) (files st) l (readAvail st) (writeDone st) (numConsoleCharsRead st)
    (numConsoleCharsWritten st) (thread st).
Definition with_counts (r w : Z) (st : State) : State :=
  mkState (console st) (files st) (scheduled st) (readAvail st) (writeDone st) r w (thread st).
Definition with_thread (p : place) (st : State) : State :=
  mkState (console st) (files st) (scheduled st) (readAvail st) (writeDone st) (numConsoleCharsRead st)
    (numConsoleCharsWritten st) p.

Definition Schedule (i : interrupt) (st : State) : State := with_scheduled (scheduled st ++ [i]) st.

(** *** The semaphores, and the handlers of progtest.cc *)
Definition ReadAvail (st : State) : State :=
  mkState (console st) (files st) (scheduled st) (readAvail st + 1) (writeDone st) (numConsoleCharsRead st)
    (numConsoleCharsWritten st) (thread st).
Definition WriteDone_V (st : State) : State :=
  mkState (console st) (files st) (scheduled st) (readAvail st) (writeDone st + 1) (numConsoleCharsRead st)
    (numConsoleCharsWritten st) (thread st).
Definition readAvail_P (st : State) : outcome State :=
  _ ← defined_if (0 <? readAvail st);
  Ret (mkState (console st) (files st) (scheduled st) (readAvail st - 1) (writeDone st) (numConsoleCharsRead st)
    (numConsoleCharsWritten st) (thread st)).
Definition writeDone_P (st : State) : outcome State :=
  _ ← defined_if (0 <? writeDone st);
  Ret (mkState (console st) (files st) (scheduled st) (readAvail st) (writeDone st - 1) (numConsoleCharsRead st)
    (numConsoleCharsWritten st) (thread st)).

(** *** console.cc *)

(** The device and the interrupts that the constructor schedules: the first poll. *)
Definition Console_new : Console * list interrupt := (mkConsole false EOF, [ReadPoll]).

(** machine/sysdep.cc: [select] also reports the end of a file. *)
Definition PollFile (f : Files) : bool := ended f || bool_decide (typed f ≠ []).

(** [Read] of one byte; at the end of the file nothing is read, and the ASSERT of [Read] fails. *)
Definition Read (f : Files) : outcome (Files * Z) :=
  match typed f with
  | c :: rest => Ret (mkFiles rest (ended f) (display f), s8 c)
  | [] => AssertFails
  end.

Definition CheckCharAvail (st : State) : outcome State :=
  let st := Schedule ReadPoll st in
  if negb (incoming (console st) =? EOF) || negb (PollFile (files st)) then Ret st
  else
    '(f, c) ← Read (files st);
    let st := with_console (mkConsole (putBusy (console st)) c) (with_files f st) in
    Ret (ReadAvail (with_counts (numConsoleCharsRead st + 1) (numConsoleCharsWritten st) st)).

Definition WriteDone (st : State) : State :=
  let st := with_console (mkConsole false (incoming (console st))) st in
  WriteDone_V (with_counts (numConsoleCharsRead st) (numConsoleCharsWritten st + 1) st).

Definition GetChar (st : State) : State * Z :=
  let ch := incoming (console st) in
  (with_console (mkConsole (putBusy (console st)) EOF) st, ch).

Definition PutChar (ch : Z) (st : State) : outcome State :=
  assert! negb (putBusy (console st));;
  let f := files st in
  let st := with_files (mkFiles (typed f) (ended f) (display f ++ [ch mod 256])) st in
  let st := with_console (mkConsole true (incoming (console st))) st in
  Ret (Schedule WriteComplete st).

(** *** ConsoleTest *)
Definition ConsoleTest_start (bytes : list Z) (at_end : bool) : State :=
  let '(c, polls) := Console_new in mkState c (mkFiles bytes at_end []) polls 0 0 0 0 AtReadAvail.

Definition thread_step (st : State) : outcome State :=
  match thread st with
  | AtReadAvail => st ← readAvail_P st; Ret (with_thread GotChar st)
  | GotChar =>
      let '(st, ch) := GetChar st in
      st ← PutChar ch st;
      Ret (with_thread (AtWriteDone ch) st)
  | AtWriteDone ch =>
      st ← writeDone_P st;
      Ret (with_thread (if ch =? q then Returned else AtReadAvail) st)
  | Returned => Undefined
  end.

(** The interrupt at index [n] fires. *)
Definition interrupt_step (n : nat) (st : State) : outcome State :=
  match scheduled st !! n with
  | Some i =>
      let st := with_scheduled (delete n (scheduled st)) st in
      match i with
      | ReadPoll => CheckCharAvail st
      | WriteComplete => Ret (WriteDone st)
      end
  | None => Undefined
  end.

Inductive event := Step | Fire (n : nat) | Type_ (c : Z) | End_.

Definition exec (e : event) (st : State) : outcome State :=
  match e with
  | Step => thread_step st
  | Fire n => interrupt_step n st
  | Type_ c =>
      _ ← defined_if (negb (ended (files st)));
      Ret (with_files (mkFiles (typed (files st) ++ [c]) false (display (files st))) st)
  | End_ => Ret (with_files (mkFiles (typed (files st)) true (display (files st))) st)
  end.

(** A byte that is not taken for "no character". *)
Definition is_char (c : Z) : Prop := is_byte c ∧ c ≠ 255.

Definition step (st st' : State) : Prop :=
  ∃ e, match e with Type_ c => is_char c | _ => True end ∧ exec e st = Ret st'.

Fixpoint exec_all (es : list event) (st : State) : outcome State :=
  match es with
  | [] => Ret st
  | e :: es => st ← exec e st; exec_all es st
  end.

(** What was typed in a run. *)
Definition typed_by (es : list event) : list Z := es ≫= λ e, match e with Type_ c => [c] | _ => [] end.

(** The character in the device. *)
Definition buffered (st : State) : list Z :=
  if incoming (console st) =? EOF then [] else [incoming (console st) mod 256].

(** *** The invariant *)

(** A request to write is under way, or was completed and not yet noticed. *)
Definition writing (st : State) : Prop :=
  (putBusy (console st) = true ∧ writeDone st = 0 ∧ scheduled st ≡ₚ [ReadPoll; WriteComplete]) ∨
  (putBusy (console st) = false ∧ writeDone st = 1 ∧ scheduled st ≡ₚ [ReadPoll]).
Definition not_writing (st : State) : Prop :=
  putBusy (console st) = false ∧ writeDone st = 0 ∧ scheduled st ≡ₚ [ReadPoll].

Record inv (all : list Z) (st : State) : Prop := {
  iv_chars : Forall is_char all;
  iv_order : all = display (files st) ++ buffered st ++ typed (files st);
  iv_incoming : incoming (console st) = EOF ∨ ∃ c, is_char c ∧ incoming (console st) = s8 c;
  iv_avail : match thread st with
    | GotChar => incoming (console st) ≠ EOF ∧ readAvail st = 0
    | _ => readAvail st = if incoming (console st) =? EOF then 0 else 1
    end;
  iv_thread : match thread st with
    | AtWriteDone ch => writing st ∧ - 128 ≤ ch < 128 ∧ ∃ u, display (files st) = u ++ [ch mod 256] ∧ q ∉ u
    | Returned => not_writing st ∧ ∃ u, display (files st) = u ++ [q] ∧ q ∉ u
    | _ => not_writing st ∧ q ∉ display (files st)
    end }.

Lemma s8_char c : is_char c → s8 c ≠ EOF ∧ s8 c mod 256 = c ∧ - 128 ≤ s8 c < 128.
Proof. unfold is_char, is_byte, s8, EOF. intros [Hb Hne]. split_and!; Z.div_mod_to_equations; lia. Qed.

Lemma console_start_inv bytes at_end : Forall is_char bytes → inv bytes (ConsoleTest_start bytes at_end).
Proof.
  intros Hb. split; try done; [by left|]. split; [done|]. apply not_elem_of_nil.
Qed.

Definition fine (all : list Z) (o : outcome State) : Prop :=
  match o with Ret st' => inv all st' | Undefined => True | _ => False end.

Lemma thread_step_ok all st : inv all st → fine all (thread_step st).
Proof.
  intros [V1 V2 V3 V4 V5]. unfold thread_step. destruct (thread st) as [| |ch|] eqn:Et; [| | |done].
  - unfold readAvail_P. destruct (Z.ltb_spec 0 (readAvail st)) as [Hlt|]; [|done]. cbn [defined_if mbind outcome_bind].
    destruct (Z.eqb_spec (incoming (console st)) EOF) as [He|He]; [lia|].
    split; try done. cbn. split; [done|lia].
  - destruct V4 as [He Ha]. destruct V3 as [|(c & Hc & Ein)]; [done|]. destruct V5 as [(Hb & Hw & Hs) Hq].
    destruct (s8_char c Hc) as (_ & Em & Hr). unfold GetChar, PutChar. cbn [console with_console putBusy]. rewrite Hb.
    cbn [negb ASSERT mbind outcome_bind]. split; cbn [files with_files with_console console incoming Schedule with_scheduled
      with_thread thread display typed putBusy]; try done.
    + unfold buffered in *. rewrite (proj2 (Z.eqb_neq _ _) He) in V2. cbn. rewrite V2. by rewrite <- app_assoc.
    + by left.
    + rewrite Ein. split; [|split; [done|]].
      * left. split; [done|]. split; [done|]. cbn. by rewrite Hs.
      * exists (display (files st)). done.
  - unfold writeDone_P. destruct (Z.ltb_spec 0 (writeDone st)) as [Hlt|]; [|done]. cbn [defined_if mbind outcome_bind].
    destruct V5 as ([(_ & Hw & _)|(Hb & Hw & Hs)] & Hr & u & Hu & Hq); [lia|].
    assert (not_writing (with_thread (if ch =? q then Returned else AtReadAvail)
      (mkState (console st) (files st) (scheduled st) (readAvail st) (writeDone st - 1) (numConsoleCharsRead st)
        (numConsoleCharsWritten st) (thread st)))) as Hn by (split; [done|]; cbn; split; [lia|done]).
    split; try done; cbn [thread with_thread] in *.
    + by destruct (ch =? q).
    + destruct (Z.eqb_spec ch q) as [->|Hne]; split; try done; [by exists u|]. cbn. rewrite Hu.
      rewrite elem_of_app, list_elem_of_singleton. intros [|Heq]; [done|]. apply Hne.
      unfold q in *. Z.div_mod_to_equations. lia.
Qed.

(** A poll leaves the device with a poll scheduled, and takes a character if there is room. *)
Lemma poll_ok all st n :
  inv all st → scheduled st !! n = Some ReadPoll →
  (interrupt_step n st = AssertFails ∧ ended (files st) = true ∧ typed (files st) = []) ∨ fine all (interrupt_step n st).
Proof.
  intros [V1 V2 V3 V4 V5] Hn. unfold interrupt_step. rewrite Hn.
  pose proof (delete_Permutation _ _ _ Hn) as Hp. set (rest := delete n (scheduled st)) in *.
  assert (∀ st', scheduled st' = rest ++ [ReadPoll] → putBusy (console st') = putBusy (console st) →
    writeDone st' = writeDone st → (writing st → writing st') ∧ (not_writing st → not_writing st')) as Hk.
  { intros st' E1 E2 E3. assert (scheduled st' ≡ₚ scheduled st) as Es by (rewrite E1, Hp; by rewrite Permutation_app_comm).
    unfold writing, not_writing. by rewrite Es, E2, E3. }
  unfold CheckCharAvail. cbn [console files Schedule with_scheduled].
  destruct (incoming (console st) =? EOF) eqn:He; cbn [negb orb].
  2: { right. split; [done|done|done|cbn; rewrite He; exact V4|]. destruct (Hk (Schedule ReadPoll (with_scheduled rest st))) as [K1 K2]; try done. cbn.
    destruct (thread st); destruct V5 as [Hw Hrest]; (split; [first [by apply K1|by apply K2]|exact Hrest]). }
  unfold PollFile. destruct (typed (files st)) as [|c bs] eqn:Ety.
  - destruct (ended (files st)) eqn:Een; [left; unfold Read; by rewrite Ety|]. right. cbn [negb orb bool_decide]. rewrite bool_decide_eq_false_2 by naive_solver.
    cbn. split; [done|cbn; rewrite Ety; exact V2|done|cbn; rewrite He; exact V4|]. destruct (Hk (Schedule ReadPoll (with_scheduled rest st))) as [K1 K2]; try done. cbn.
    destruct (thread st); destruct V5 as [Hw Hrest]; (split; [first [by apply K1|by apply K2]|exact Hrest]).
  - right. rewrite bool_decide_eq_true_2 by done. rewrite orb_true_r. cbn [negb]. unfold Read. rewrite Ety.
    cbn [mbind outcome_bind]. assert (is_char c) as Hc.
    { rewrite V2, !Forall_app, Forall_cons in V1. tauto. }
    destruct (s8_char c Hc) as (Hne & Em & Hr).
    match goal with |- fine _ (Ret ?st') => destruct (Hk st') as [K1 K2]; try done end.
    split; cbn [files console ReadAvail with_counts with_console with_files incoming typed display thread readAvail
      with_scheduled Schedule]; try done.
    + unfold buffered in *. rewrite He in V2. cbn. rewrite (proj2 (Z.eqb_neq _ _) Hne), Em. exact V2.
    + right. by exists c.
    + rewrite (proj2 (Z.eqb_neq _ _) Hne). apply Z.eqb_eq in He. destruct (thread st); cbn in V4; lia.
    + destruct (thread st); destruct V5 as [Hw Hrest]; (split; [first [by apply K1|by apply K2]|exact Hrest]).
Qed.

Lemma write_done_ok all st n :
  inv all st → scheduled st !! n = Some WriteComplete → fine all (interrupt_step n st).
Proof.
  intros [V1 V2 V3 V4 V5] Hn. unfold interrupt_step. rewrite Hn.
  pose proof (delete_Permutation _ _ _ Hn) as Hp. set (rest := delete n (scheduled st)) in *.
  assert (∀ l, scheduled st ≡ₚ l → WriteComplete ∈ l) as Hin
    by (intros l <-; by eapply list_elem_of_lookup_2).
  assert (¬ not_writing st) as Hnn.
  { intros (_ & _ & Hs). apply Hin, list_elem_of_singleton in Hs. done. }
  destruct (thread st) as [| |ch|] eqn:Et; try (by destruct V5).
  destruct V5 as ([(Hb & Hw & Hs)|(_ & _ & Hs)] & Hr & Hu); [|apply Hin, list_elem_of_singleton in Hs; done].
  split; try done; cbn; rewrite ?Et; try done. split; [|done]. right. split; [done|]. cbn. split; [lia|].
  rewrite Hs in Hp. apply (Permutation_cons_inv (a := WriteComplete)). rewrite <- Hp. apply Permutation_swap.
Qed.

Lemma console_exec_ok all st e :
  inv all st → match e with Type_ c => is_char c | _ => True end →
  (exec e st = AssertFails ∧ ended (files st) = true ∧ typed (files st) = [] ∧
     ∃ n, e = Fire n ∧ scheduled st !! n = Some ReadPoll) ∨
  fine (all ++ typed_by [e]) (exec e st).
Proof.
  intros Hi He. unfold typed_by. destruct e as [|n|c|]; cbn [mbind list_bind app]; rewrite ?app_nil_r.
  - right. by apply thread_step_ok.
  - cbn [exec]. destruct (scheduled st !! n) as [[|]|] eqn:En.
    + destruct (poll_ok all st n Hi En) as [(H1 & H2 & H3)|]; [left|by right]. split_and!; [done..|by exists n].
    + right. by apply write_done_ok.
    + right. unfold interrupt_step. by rewrite En.
  - right. cbn [exec]. destruct (ended (files st)); [done|]. cbn [negb defined_if mbind outcome_bind].
    destruct Hi as [V1 V2 V3 V4 V5]. split; try done.
    + by apply Forall_app_2; [|apply Forall_singleton].
    + cbn. rewrite V2. by rewrite <- !app_assoc.
  - right. cbn [exec]. destruct Hi as [V1 V2 V3 V4 V5]. by split.
Qed.

Lemma exec_all_inv es : ∀ all st st', inv all st → Forall (λ e, match e with Type_ c => is_char c | _ => True end) es →
  exec_all es st = Ret st' → inv (all ++ typed_by es) st'.
Proof.
  induction es as [|e es IH]; intros all st st' Hi Hes E; cbn in E.
  - injection E as <-. unfold typed_by. cbn. by rewrite app_nil_r.
  - inversion_clear Hes as [|? ? He Hes']. apply bind_Ret_inv in E as (st1 & E1 & E2).
    destruct (console_exec_ok all st e Hi He) as [(Hf & _)|Hf]; [congruence|].
    rewrite E1 in Hf. cbn in Hf. specialize (IH _ st1 st' Hf Hes' E2). unfold typed_by in *. cbn in *.
    by rewrite app_nil_r, <- app_assoc in IH.
Qed.

(** C23: ConsoleTest echoes what is typed: at every moment the characters typed are those on the display, the one in
    the device, and those still to be read, in this order; when it returns the last one displayed is the
    first q; and while it waits for the display, the interrupt that wakes it is scheduled or has come.  No
    ASSERT fails, except that of Read when a keyboard that is a file is polled at its end. *)
Theorem console_echoes bytes at_end es st :
  Forall is_char bytes → Forall (λ e, match e with Type_ c => is_char c | _ => True end) es →
  exec_all es (ConsoleTest_start bytes at_end) = Ret st →
  bytes ++ typed_by es = display (files st) ++ buffered st ++ typed (files st) ∧
  match thread st with
  | Returned => ∃ u, display (files st) = u ++ [q] ∧ q ∉ u
  | AtWriteDone ch => writeDone st = 1 ∨ WriteComplete ∈ scheduled st
  | _ => q ∉ display (files st)
  end ∧
  ReadPoll ∈ scheduled st ∧
  ∀ e, match e with Type_ c => is_char c | _ => True end → exec e st = AssertFails →
    ended (files st) = true ∧ typed (files st) = [] ∧ ∃ n, e = Fire n ∧ scheduled st !! n = Some ReadPoll.
Proof.
  intros Hb Hes E. pose proof (exec_all_inv es _ _ st (console_start_inv bytes at_end Hb) Hes E) as Hi.
  pose proof Hi as [V1 V2 V3 V4 V5]. split; [done|]. split; [|split].
  - destruct (thread st); [by destruct V5..| |by destruct V5].
    destruct V5 as [[(_ & _ & Hs)|(_ & Hw & _)] _]; [right|by left]. rewrite Hs. set_solver.
  - assert (scheduled st ≡ₚ [ReadPoll; WriteComplete] ∨ scheduled st ≡ₚ [ReadPoll]) as [Hs|Hs];
      [|rewrite Hs; set_solver..]. unfold writing, not_writing in V5. destruct (thread st); naive_solver.
  - intros e He Ef. destruct (console_exec_ok _ st e Hi He) as [(_ & H1)|Hf]; [done|]. by rewrite Ef in Hf.
Qed.

(** A user types two characters and q. *)
Definition demo_events : list event :=
  [Type_ 104; Fire 0; Step; Step; Type_ 105; Fire 0; Fire 0; Step; Type_ 113; Step; Step; Fire 1; Fire 0; Step;
   Fire 0; Step; Step; Fire 1; Step].
Definition demo_end : State :=
  match exec_all demo_events (ConsoleTest_start [] false) with Ret st => st | _ => ConsoleTest_start [] false end.

Lemma console_echoes_witness :
  thread demo_end = Returned ∧ [104; 105; 113] = display (files demo_end) ++ buffered demo_end ++ typed (files demo_end) ∧
  ∃ u, display (files demo_end) = u ++ [q] ∧ q ∉ u.
Proof.
  destruct (console_echoes [] false demo_events demo_end) as (H1 & H2 & _).
  - apply Forall_nil. exact I.
  - unfold demo_events. repeat (apply Forall_cons; split; [first [exact I|unfold is_char, is_byte; lia]|]).
    apply Forall_nil. exact I.
  - vm_compute. reflexivity.
  - assert (thread demo_end = Returned) as Et by (vm_compute; reflexivity). rewrite Et in H2.
    split; [exact Et|]. split; [exact H1|exact H2].
Defined.

(** A byte 255 is kept as [EOF]: it is signalled, but the next poll puts another character in its place. *)
Example byte_255_is_lost :
  match exec_all [Fire 0; Fire 0; Step; Step] (ConsoleTest_start [255; 113] false) with
  | Ret st => display (files st) = [113] ∧ typed (files st) = []
  | _ => False
  end.
Proof. vm_compute. done. Qed.

(** A keyboard that is a file without q: the poll at its end stops the kernel. *)
Example end_of_file_aborts :
  exec_all [Fire 0; Step; Step; Fire 0] (ConsoleTest_start [104] true) = AssertFails.
Proof. vm_compute. reflexivity. Qed.

End Console.
