(* ===== verification/Stacks.v ===== *)
(** * c++example: stacks as arrays and as lists

    The classes of stack.cc, inheritstack.cc and templatestack.cc are one array stack over any type of items
    ([ArrayStack]); the list of list.cc and the stack on it ([ListStack]) live in a heap of cells.  [StackOps] is the
    abstract base class; [StackSpec] is what [SelfTest] relies on.  Text that is printed is the list of the values. *)

From S2P Require Import Prelude CInt.

Open Scope Z_scope.

(** The virtual functions of inheritstack.h. *)
Class StackOps (T S : Type) := {
  Push : T → S → outcome S;
  Pop : S → outcome (S * T);
  Full : S → bool;
  Empty : S → bool;
}.

(** A stack is the sequence of its items, the top first, of at most [sz] items where there is a bound. *)
Class StackSpec (T S : Type) `{StackOps T S} := {
  stack_rep : S → option Z → list T → Prop;
  Full_spec s sz its : stack_rep s sz its → Full s = bool_decide (sz = Some (Z.of_nat (length its)));
  Empty_spec s sz its : stack_rep s sz its → Empty s = bool_decide (its = []);
  Push_spec s sz its v : stack_rep s sz its → Full s = false →
    ∃ s', Push v s = Ret s' ∧ stack_rep s' sz (v :: its);
  Push_full s sz its v : stack_rep s sz its → Full s = true → Push v s = AssertFails;
  Pop_spec s sz v its : stack_rep s sz (v :: its) → ∃ s', Pop s = Ret (s', v) ∧ stack_rep s' sz its;
  Pop_empty s sz : stack_rep s sz [] → Pop s = AssertFails;
}.

Module Stacks.

(** *** Stack, ArrayStack and Stack<T> *)
Section array.
Context {T : Type}.

Record ArrayStack := mkArrayStack { size : Z; top : Z; stack : list T }.

(** [junk] is what [new T[size]] finds in memory. *)
Definition ArrayStack_new (sz : Z) (junk : list T) : outcome ArrayStack :=
  assert! 1 <=? sz;;
  Ret (mkArrayStack sz 0 (take (Z.to_nat sz) junk)).

Definition ArrayStack_Full (s : ArrayStack) : bool := top s =? size s.
Definition ArrayStack_Empty (s : ArrayStack) : bool := top s =? 0.

Definition ArrayStack_Push (value : T) (s : ArrayStack) : outcome ArrayStack :=
  assert! negb (ArrayStack_Full s);;
  a ← wr (stack s) (top s) value;
  Ret (mkArrayStack (size s) (top s + 1) a).

Definition ArrayStack_Pop (s : ArrayStack) : outcome (ArrayStack * T) :=
  assert! negb (ArrayStack_Empty s);;
  v ← rd (stack s) (top s - 1);
  Ret (mkArrayStack (size s) (top s - 1) (stack s), v).

#[export] Instance ArrayStack_ops : StackOps T ArrayStack := {
  Push := ArrayStack_Push; Pop := ArrayStack_Pop; Full := ArrayStack_Full; Empty := ArrayStack_Empty }.

Record array_wf (s : ArrayStack) : Prop := {
  aw_top : 0 ≤ top s ≤ size s;
  aw_length : Z.of_nat (length (stack s)) = size s }.

Definition array_items (s : ArrayStack) : list T := reverse (take (Z.to_nat (top s)) (stack s)).
Definition array_rep (s : ArrayStack) (sz : option Z) (its : list T) : Prop :=
  array_wf s ∧ sz = Some (size s) ∧ its = array_items s.

Lemma array_items_length s : array_wf s → Z.of_nat (length (array_items s)) = top s.
Proof. intros [Ht Hl]. unfold array_items. rewrite length_reverse, length_take. lia. Qed.

Lemma ArrayStack_Push_ok s sz its v : array_rep s sz its → ArrayStack_Full s = false →
  ∃ s', ArrayStack_Push v s = Ret s' ∧ array_rep s' sz (v :: its).
Proof.
  intros [[Ht Hl] [-> ->]] Hf. unfold ArrayStack_Push. rewrite Hf. cbn [negb ASSERT mbind outcome_bind].
  unfold ArrayStack_Full in Hf. apply Z.eqb_neq in Hf. rewrite wr_ok by lia. cbn [mbind outcome_bind].
  eexists. split; [done|]. split; [split; cbn; [lia|by rewrite length_insert]|]. split; [done|].
  unfold array_items. cbn [top stack]. replace (Z.to_nat (top s + 1)) with (S (Z.to_nat (top s))) by lia.
  rewrite (take_S_r _ _ v) by (apply list_lookup_insert_eq; lia). rewrite take_insert_ge by lia.
  by rewrite reverse_snoc.
Qed.

Lemma ArrayStack_Pop_ok s sz v its : array_rep s sz (v :: its) →
  ∃ s', ArrayStack_Pop s = Ret (s', v) ∧ array_rep s' sz its.
Proof.
  intros [Hw [-> Hi]]. pose proof (array_items_length s Hw) as Hlen. destruct Hw as [Ht Hl].
  rewrite <- Hi in Hlen. cbn [length] in Hlen. unfold ArrayStack_Pop, ArrayStack_Empty. rewrite eqb_false by lia.
  destruct (lookup_lt_is_Some_2 (stack s) (Z.to_nat (top s - 1))) as [w Hw]; [lia|].
  unfold array_items in Hi. replace (Z.to_nat (top s)) with (S (Z.to_nat (top s - 1))) in Hi by lia.
  rewrite (take_S_r _ _ w), reverse_snoc in Hi by done. injection Hi as -> ->.
  cbn [negb ASSERT mbind outcome_bind]. rewrite (rd_lookup _ _ w) by (done || lia). cbn [mbind outcome_bind].
  eexists. split; [done|]. split; [split; cbn; [lia|done]|done].
Qed.

#[export] Instance ArrayStack_spec : StackSpec T ArrayStack.
Proof.
  refine {| stack_rep := array_rep |}.
  - intros s sz its [Hw [-> ->]]. cbn. unfold ArrayStack_Full. rewrite array_items_length by done.
    destruct (Z.eqb_spec (top s) (size s)); [rewrite bool_decide_eq_true_2|rewrite bool_decide_eq_false_2]; congruence.
  - intros s sz its [Hw [-> ->]]. cbn. unfold ArrayStack_Empty. pose proof (array_items_length s Hw) as Hl.
    destruct (Z.eqb_spec (top s) 0) as [E|E].
    + rewrite bool_decide_eq_true_2; [done|]. apply nil_length_inv. lia.
    + rewrite bool_decide_eq_false_2; [done|]. intros En. rewrite En in Hl. cbn in Hl. lia.
  - apply ArrayStack_Push_ok.
  - intros s sz its v _ Hf. cbn in *. unfold ArrayStack_Push. by rewrite Hf.
  - apply ArrayStack_Pop_ok.
  - intros s sz [Hw [-> Hi]]. cbn. pose proof (array_items_length s Hw) as Hl. rewrite <- Hi in Hl. cbn in Hl.
    unfold ArrayStack_Pop, ArrayStack_Empty. by rewrite <- Hl.
Defined.

Lemma ArrayStack_new_ok sz junk : 1 ≤ sz → sz ≤ Z.of_nat (length junk) →
  ∃ s, ArrayStack_new sz junk = Ret s ∧ array_rep s (Some sz) [].
Proof.
  intros Hs Hj. unfold ArrayStack_new. rewrite (proj2 (Z.leb_le _ _)) by done. eexists. split; [done|].
  split; [split; cbn; [lia|]|done]. rewrite length_take. lia.
Qed.
End array.
Arguments ArrayStack : clear implicits.

(** *** list.cc *)
Record ListElement := mkElement { next : option nat; item : Z }.
Abbreviation Heap := (gmap nat ListElement).
Record List := mkList { first : option nat; last : option nat }.

Definition List_new : List := mkList None None.
Definition List_Empty (l : List) : bool := bool_decide (first l = None).

(** A pointer that is NULL or dangling cannot be followed. *)
Definition deref (h : Heap) (p : option nat) : outcome ListElement :=
  match p with
  | Some a => match h !! a with Some e => Ret e | None => Undefined end
  | None => Undefined
  end.

Definition Prepend (value : Z) (hl : Heap * List) : Heap * List :=
  let '(h, l) := hl in
  let a := fresh (dom h) in
  if List_Empty l then (<[a := mkElement None value]> h, mkList (Some a) (Some a))
  else (<[a := mkElement (first l) value]> h, mkList (Some a) (last l)).

Definition List_Remove (hl : Heap * List) : outcome (Heap * List * Z) :=
  let '(h, l) := hl in
  assert! negb (List_Empty l);;
  e ← deref h (first l);
  let l' := if bool_decide (first l = last l) then mkList None None else mkList (next e) (last l) in
  Ret (match first l with Some a => delete a h | None => h end, l', item e).

Definition List_delete_body (hl : Heap * List) : outcome (Heap * List + Heap) :=
  if List_Empty hl.2 then Ret (inr hl.1) else '(hl, _) ← List_Remove hl; Ret (inl hl).
Definition List_delete (fuel : nat) (hl : Heap * List) : outcome Heap := loop List_delete_body fuel hl.

(** The cells of a list and their items. *)
Record represents (h : Heap) (l : List) (cells : list nat) (items : list Z) : Prop := {
  re_length : length cells = length items;
  re_NoDup : NoDup cells;
  re_first : first l = head cells;
  re_last : last l = list.last cells;
  re_cell i a v : cells !! i = Some a → items !! i = Some v → h !! a = Some (mkElement (cells !! S i) v) }.

Lemma represents_Empty h l cells items : represents h l cells items → List_Empty l = bool_decide (items = []).
Proof.
  intros [Hl _ Hf _ _]. unfold List_Empty. rewrite Hf. destruct cells, items; try done.
Qed.

Lemma Prepend_ok h l cells items v :
  represents h l cells items →
  let '(h', l') := Prepend v (h, l) in represents h' l' (fresh (dom h) :: cells) (v :: items).
Proof.
  intros Hr. pose proof Hr as [Hl Hn Hf Hla Hc]. unfold Prepend. rewrite (represents_Empty h l cells items Hr).
  assert (h !! fresh (dom h) = None) as Ha by (apply not_elem_of_dom, is_fresh).
  generalize dependent (fresh (dom h)). intros a Ha.
  assert (a ∉ cells) as Hna.
  { intros [i Hi]%list_elem_of_lookup. destruct (lookup_lt_is_Some_2 items i) as [w Hw];
      [rewrite <- Hl; by eapply lookup_lt_Some|]. rewrite (Hc i a w Hi Hw) in Ha. done. }
  assert (∀ h' p, h' = <[a := mkElement p v]> h → p = head cells →
    ∀ i b w, (a :: cells) !! i = Some b → (v :: items) !! i = Some w → h' !! b = Some (mkElement ((a :: cells) !! S i) w)) as Hcells.
  { intros h' p -> -> [|i] b w Hb Hw; cbn in Hb, Hw.
    - injection Hb as <-. injection Hw as <-. rewrite lookup_insert_eq. by destruct cells.
    - rewrite lookup_insert_ne; [by apply (Hc i)|]. intros <-. apply Hna. by eapply list_elem_of_lookup_2. }
  case_bool_decide as He.
  - subst items. destruct cells; [|done]. split; cbn; try done; [by constructor|]. by apply (Hcells _ None).
  - destruct cells as [|c cells]; [by destruct items|]. split.
    + cbn in *. lia.
    + by constructor.
    + done.
    + exact Hla.
    + by apply (Hcells _ (first l)).
Qed.

Lemma List_Remove_ok h l cells items :
  represents h l cells items →
  match cells, items with
  | a :: cells', v :: items' => ∃ l', List_Remove (h, l) = Ret (delete a h, l', v) ∧ represents (delete a h) l' cells' items'
  | _, _ => List_Remove (h, l) = AssertFails
  end.
Proof.
  intros Hr. pose proof Hr as [Hl Hn Hf Hla Hc]. unfold List_Remove. rewrite (represents_Empty h l cells items Hr).
  destruct cells as [|a cells], items as [|v items]; try done.
  rewrite (bool_decide_eq_false_2 (v :: items = [])) by done. cbn [negb ASSERT mbind outcome_bind]. rewrite Hf. cbn [head deref].
  pose proof (Hc 0%nat a v eq_refl eq_refl) as Ha. rewrite Ha. cbn [mbind outcome_bind item next lookup list_lookup].
  apply NoDup_cons in Hn as [Hna Hn]. eexists. split; [reflexivity|].
  assert (∀ i b w, cells !! i = Some b → items !! i = Some w → delete a h !! b = Some (mkElement (cells !! S i) w)) as Hcells.
  { intros i b w Hb Hw. rewrite lookup_delete_ne; [by apply (Hc (S i))|]. intros <-. apply Hna. by eapply list_elem_of_lookup_2. }
  assert (length cells = length items) as Hl' by (cbn in Hl; lia). case_bool_decide as Heq.
  - rewrite Hla in Heq. destruct cells as [|b cells]; [split; [exact Hl'|constructor|done|done|exact Hcells]|]. exfalso. apply Hna.
    change (list.last (a :: b :: cells)) with (list.last (b :: cells)) in Heq. symmetry in Heq.
    apply last_Some_elem_of in Heq. done.
  - rewrite Hla in Heq |- *. destruct cells as [|b cells]; [done|]. split; [exact Hl'|exact Hn|done|done|exact Hcells].
Qed.

(** ~List: every cell of the list is freed, no other cell is touched. *)
Lemma List_delete_ok cells : ∀ h l items fuel,
  represents h l cells items → (length cells < fuel)%nat →
  ∃ h', List_delete fuel (h, l) = Ret h' ∧ ∀ a, h' !! a = if decide (a ∈ cells) then None else h !! a.
Proof.
  induction cells as [|a cells IH]; intros h l items fuel Hr Hf; destruct fuel as [|fuel]; try (cbn in Hf; lia).
  - pose proof (re_length _ _ _ _ Hr) as Hl. destruct items; [|done]. exists h. split; [|done].
    apply loop_stop. unfold List_delete_body. cbn [fst snd]. by rewrite (represents_Empty _ _ _ _ Hr).
  - pose proof (List_Remove_ok _ _ _ _ Hr) as Hrm. pose proof (re_length _ _ _ _ Hr) as Hl.
    destruct items as [|v items]; [done|]. destruct Hrm as [l' [Hrm Hr']].
    destruct (IH _ _ _ fuel Hr') as [h' [Hd Hh]]; [cbn in Hf; lia|]. exists h'. split.
    + unfold List_delete. rewrite (loop_step _ _ _ (delete a h, l')); [done|]. unfold List_delete_body. cbn [fst snd].
      rewrite (represents_Empty _ _ _ _ Hr), Hrm. done.
    + intros b. rewrite Hh. destruct (decide (b = a)) as [->|Hne].
      * rewrite (decide_True (P := a ∈ a :: cells)) by left. rewrite lookup_delete_eq. by case_decide.
      * rewrite lookup_delete_ne by done. apply decide_ext. rewrite elem_of_cons. naive_solver.
Qed.

(** *** ListStack *)
Abbreviation ListStack := (Heap * List)%type.
Definition ListStack_new (h : Heap) : ListStack := (h, List_new).
Definition ListStack_Push (value : Z) (s : ListStack) : outcome ListStack := Ret (Prepend value s).
Definition ListStack_Pop (s : ListStack) : outcome (ListStack * Z) := assert! negb (List_Empty s.2);; List_Remove s.
Definition ListStack_Full (s : ListStack) : bool := false.
Definition ListStack_Empty (s : ListStack) : bool := List_Empty s.2.

#[export] Instance ListStack_ops : StackOps Z ListStack := {
  Push := ListStack_Push; Pop := ListStack_Pop; Full := ListStack_Full; Empty := ListStack_Empty }.

Definition list_rep (s : ListStack) (sz : option Z) (its : list Z) : Prop :=
  sz = None ∧ ∃ cells, represents s.1 s.2 cells its.

#[export] Instance ListStack_spec : StackSpec Z ListStack.
Proof.
  refine {| stack_rep := list_rep |}.
  - intros [h l] sz its [-> _]. done.
  - intros [h l] sz its [-> [cells Hr]]. apply (represents_Empty _ _ _ _ Hr).
  - intros [h l] sz its v [-> [cells Hr]] _. pose proof (Prepend_ok _ _ _ _ v Hr) as Hp. cbn [fst snd] in Hp.
    cbn [Push ListStack_ops]. unfold ListStack_Push. destruct (Prepend v (h, l)) as [h' l'].
    eexists. split; [done|]. split; [done|]. eexists. exact Hp.
  - intros [h l] sz its v [-> [cells Hr]] Hf. discriminate.
  - intros [h l] sz v its [-> [cells Hr]]. cbn [fst snd] in Hr. pose proof (List_Remove_ok _ _ _ _ Hr) as Hp.
    pose proof (re_length _ _ _ _ Hr) as Hl. destruct cells as [|a cells]; [done|]. destruct Hp as [l' [Hp Hr']].
    exists (delete a h, l'). change (Pop (h, l)) with (assert! negb (List_Empty l);; List_Remove (h, l)).
    rewrite (represents_Empty _ _ _ _ Hr). split; [exact Hp|]. split; [done|]. eexists. exact Hr'.
  - intros [h l] sz [-> [cells Hr]]. cbn [fst snd] in Hr. change (Pop (h, l)) with (assert! negb (List_Empty l);; List_Remove (h, l)).
    by rewrite (represents_Empty _ _ _ _ Hr).
Defined.

Lemma ListStack_new_ok h : list_rep (ListStack_new h) None [].
Proof. split; [done|]. exists []. split; try done. constructor. Qed.

(** *** SelfTest *)
Inductive line (T : Type) := pushing (count : T) | popping (value : T).
Arguments pushing {T} _.
Arguments popping {T} _.

Section selftest.
Context {T S : Type} `{StackSpec T S}.

(** [count++] on a value of type T. *)
Variable incr : T → outcome T.

Abbreviation Run := (S * T * list (line T))%type.

Definition push_count (st : Run) : outcome Run :=
  let '(s, count, out) := st in
  count' ← incr count;
  s' ← Push count s;
  Ret (s', count', out ++ [pushing count]).

(** while (!Full()) *)
Definition fill_body (st : Run) : outcome (Run + Run) :=
  if Full st.1.1 then Ret (inr st) else st' ← push_count st; Ret (inl st').

(** while (!Empty()) *)
Definition drain_body (st : S * list (line T)) : outcome (S * list (line T) + S * list (line T)) :=
  if Empty st.1 then Ret (inr st) else '(s, v) ← Pop st.1; Ret (inl (s, st.2 ++ [popping v])).

(** SelfTest of stack.cc (from 17) and of templatestack.cc (from [start]). *)
Definition SelfTest_full (fuel : nat) (start : T) (s : S) : outcome (S * list (line T)) :=
  '(s, _, out) ← loop fill_body fuel (s, start, []);
  loop drain_body fuel (s, out).

(** SelfTest of inheritstack.cc. *)
Definition push_if_room (i : Z) (st : Run) : outcome Run := assert! negb (Full st.1.1);; push_count st.
Definition SelfTest (fuel : nat) (start : T) (numToPush : Z) (s : S) : outcome (S * list (line T)) :=
  '(s, _, out) ← for_range push_if_room 0 (Z.to_nat numToPush) (s, start, []);
  loop drain_body fuel (s, out).

Definition selftest_text (vals : list T) : list (line T) := (pushing <$> vals) ++ (popping <$> reverse vals).

Lemma drain_ok its : ∀ s sz out fuel, stack_rep s sz its → (length its < fuel)%nat →
  ∃ s', loop drain_body fuel (s, out) = Ret (s', out ++ (popping <$> its)) ∧ stack_rep s' sz [].
Proof.
  induction its as [|v its IH]; intros s sz out fuel Hr Hf; destruct fuel as [|fuel]; try (cbn in Hf; lia).
  - exists s. split; [|done]. rewrite app_nil_r. apply loop_stop. unfold drain_body. cbn [fst snd].
    by rewrite (Empty_spec _ _ _ Hr).
  - destruct (Pop_spec _ _ _ _ Hr) as [s' [Hp Hr']]. destruct (IH s' sz (out ++ [popping v]) fuel Hr') as [s'' [Hl Hr'']];
      [cbn in Hf; lia|]. exists s''. split; [|done]. rewrite (loop_step _ _ _ (s', out ++ [popping v])).
    + rewrite Hl. by rewrite <- app_assoc.
    + unfold drain_body. cbn [fst snd]. by rewrite (Empty_spec _ _ _ Hr), Hp.
Qed.

(** The values of [count]: [vals] and then [stop]. *)
Inductive counts : T → list T → T → Prop :=
| counts_nil c : counts c [] c
| counts_cons c c' vals stop : incr c = Ret c' → counts c' vals stop → counts c (c :: vals) stop.

Definition room (sz : option Z) (its vals : list T) : Prop :=
  ∀ n, sz = Some n → Z.of_nat (length its + length vals) ≤ n.

Lemma push_count_ok s sz its c c' out : stack_rep s sz its → Full s = false → incr c = Ret c' →
  ∃ s', push_count (s, c, out) = Ret (s', c', out ++ [pushing c]) ∧ stack_rep s' sz (c :: its).
Proof.
  intros Hr Hf Hi. destruct (Push_spec _ _ _ c Hr Hf) as [s' [Hp Hr']]. exists s'. split; [|done].
  unfold push_count. by rewrite Hi; cbn [mbind outcome_bind]; rewrite Hp.
Qed.

Lemma room_not_full s sz its c vals : stack_rep s sz its → room sz its (c :: vals) → Full s = false.
Proof.
  intros Hr Hroom. rewrite (Full_spec _ _ _ Hr). apply bool_decide_eq_false_2. intros E.
  specialize (Hroom _ E). cbn in Hroom. lia.
Qed.

Lemma room_next sz its c vals : room sz its (c :: vals) → room sz (c :: its) vals.
Proof. intros Hr n E. specialize (Hr n E). cbn in *. lia. Qed.

Lemma pushes_ok vals : ∀ c stop s sz its out lo,
  counts c vals stop → stack_rep s sz its → room sz its vals →
  ∃ s', for_range push_if_room lo (length vals) (s, c, out) = Ret (s', stop, out ++ (pushing <$> vals)) ∧
        stack_rep s' sz (reverse vals ++ its).
Proof.
  induction vals as [|v vals IH]; intros c stop s sz its out lo Hc Hr Hroom; inversion Hc; subst.
  - exists s. by rewrite app_nil_r.
  - pose proof (room_not_full _ _ _ _ _ Hr Hroom) as Hf.
    destruct (push_count_ok s sz its v c' out Hr Hf) as [s' [Hp Hr']]; [done|].
    destruct (IH c' stop s' sz (v :: its) (out ++ [pushing v]) (lo + 1)) as [s'' [Hl Hr'']];
      [done|done|by apply room_next|].
    exists s''. split.
    + cbn [length for_range]. change (push_if_room lo (s, v, out)) with (assert! negb (Full s);; push_count (s, v, out)).
      rewrite Hf. cbn [negb ASSERT mbind outcome_bind]. rewrite Hp. cbn [mbind outcome_bind]. rewrite Hl. by rewrite <- app_assoc.
    + by rewrite reverse_cons, <- app_assoc.
Qed.

Lemma fills_ok vals : ∀ c stop s n its out fuel,
  counts c vals stop → stack_rep s (Some n) its → Z.of_nat (length its + length vals) = n → (length vals < fuel)%nat →
  ∃ s', loop fill_body fuel (s, c, out) = Ret (s', stop, out ++ (pushing <$> vals)) ∧
        stack_rep s' (Some n) (reverse vals ++ its).
Proof.
  induction vals as [|v vals IH]; intros c stop s n its out fuel Hc Hr Hn Hfuel; inversion Hc; subst;
    destruct fuel as [|fuel]; try (cbn in Hfuel; lia).
  - exists s. rewrite app_nil_r. split; [|done]. apply loop_stop. unfold fill_body. cbn [fst].
    rewrite (Full_spec _ _ _ Hr), bool_decide_eq_true_2; [done|]. by rewrite Nat.add_0_r.
  - assert (Full s = false) as Hf.
    { apply (room_not_full s _ its v vals Hr). intros n E. injection E as E. cbn [length] in *. lia. }
    destruct (push_count_ok s _ its v c' out Hr Hf) as [s' [Hp Hr']]; [done|].
    destruct (IH c' stop s' _ (v :: its) (out ++ [pushing v]) fuel ltac:(done) Hr') as [s'' [Hl Hr'']];
      [cbn; lia|cbn in Hfuel; lia|].
    exists s''. split.
    + rewrite (loop_step _ _ _ (s', c', out ++ [pushing v])).
      * rewrite Hl. by rewrite <- app_assoc.
      * unfold fill_body. cbn [fst]. by rewrite Hf, Hp.
    + by rewrite reverse_cons, <- app_assoc.
Qed.

Lemma SelfTest_ok fuel vals stop c s sz :
  counts c vals stop → stack_rep s sz [] → room sz [] vals → (length vals < fuel)%nat →
  ∃ s', SelfTest fuel c (Z.of_nat (length vals)) s = Ret (s', selftest_text vals) ∧ stack_rep s' sz [].
Proof.
  intros Hc Hr Hroom Hf. destruct (pushes_ok vals c stop s sz [] [] 0 Hc Hr Hroom) as [s' [Hp Hr']].
  rewrite app_nil_r in Hr'. destruct (drain_ok _ s' sz (pushing <$> vals) fuel Hr') as [s'' [Hd Hr'']];
    [by rewrite length_reverse|]. exists s''. split; [|done]. unfold SelfTest. rewrite Nat2Z.id, Hp. exact Hd.
Qed.

Lemma SelfTest_full_ok fuel vals stop c s :
  counts c vals stop → stack_rep s (Some (Z.of_nat (length vals))) [] → (length vals < fuel)%nat →
  ∃ s', SelfTest_full fuel c s = Ret (s', selftest_text vals) ∧ stack_rep s' (Some (Z.of_nat (length vals))) [].
Proof.
  intros Hc Hr Hf. destruct (fills_ok vals c stop s _ [] [] fuel Hc Hr eq_refl Hf) as [s' [Hp Hr']].
  rewrite app_nil_r in Hr'. destruct (drain_ok _ s' _ (pushing <$> vals) fuel Hr') as [s'' [Hd Hr'']];
    [by rewrite length_reverse|]. exists s''. split; [|done]. unfold SelfTest_full. rewrite Hp. exact Hd.
Qed.
End selftest.

(** [count++] on an int overflows at INT_MAX, on a char it wraps around. *)
Definition int_incr (count : Z) : outcome Z := defined_if (count <? 2 ^ 31 - 1);; Ret (count + 1).
Definition char_incr (count : Z) : outcome Z := Ret (s8 (count + 1)).

Lemma counts_int n : ∀ c, c + Z.of_nat n ≤ 2 ^ 31 - 1 → counts int_incr c (seqZ c (Z.of_nat n)) (c + Z.of_nat n).
Proof.
  induction n as [|n IH]; intros c Hc.
  - rewrite Z.add_0_r. constructor.
  - rewrite seqZ_cons by lia. econstructor; [|replace (c + Z.of_nat (S n)) with (Z.succ c + Z.of_nat n) by lia].
    + unfold int_incr. rewrite ltb_true by lia. reflexivity.
    + replace (Z.pred (Z.of_nat (S n))) with (Z.of_nat n) by lia. apply IH. lia.
Qed.

(** What SelfTest prints for [n] items: 17, 18, ... and the same values backwards. *)
Definition expected_text (n : Z) : list (line Z) := selftest_text (seqZ 17 n).

Lemma selftest_of_ints {S : Type} `{StackSpec Z S} n fuel s sz :
  0 ≤ n → 17 + n ≤ 2 ^ 31 - 1 → (Z.to_nat n < fuel)%nat → stack_rep s sz [] → (∀ m, sz = Some m → n ≤ m) →
  ∃ s', SelfTest int_incr fuel 17 n s = Ret (s', expected_text n) ∧ stack_rep s' sz [].
Proof.
  intros Hn Hmax Hf Hr Hroom. pose proof (counts_int (Z.to_nat n) 17) as Hc. rewrite Z2Nat.id in Hc by done.
  destruct (SelfTest_ok int_incr fuel (seqZ 17 n) (17 + n) 17 s sz) as [s' [Ht Hr']]; try done.
  - by apply Hc.
  - intros m E. rewrite length_seqZ. cbn. specialize (Hroom m E). lia.
  - by rewrite length_seqZ.
  - exists s'. rewrite length_seqZ, Z2Nat.id in Ht by done. done.
Qed.

Lemma stack_cc_selftest n fuel s :
  0 ≤ n → 17 + n ≤ 2 ^ 31 - 1 → (Z.to_nat n < fuel)%nat → array_rep s (Some n) [] →
  ∃ s', SelfTest_full int_incr fuel 17 s = Ret (s', expected_text n) ∧ array_rep s' (Some n) [].
Proof.
  intros Hn Hmax Hf Hr. pose proof (counts_int (Z.to_nat n) 17) as Hc. rewrite Z2Nat.id in Hc by done.
  destruct (SelfTest_full_ok int_incr fuel (seqZ 17 n) (17 + n) 17 s) as [s' [Ht Hr']].
  - by apply Hc.
  - rewrite length_seqZ, Z2Nat.id by done. exact Hr.
  - by rewrite length_seqZ.
  - rewrite length_seqZ, Z2Nat.id in Hr' by done. by exists s'.
Qed.

(** main of templatestack.cc on its stack of char. *)
Example main_char :
  (s ← ArrayStack_new 10 (replicate 10 0); SelfTest_full char_incr 20 97 s) ≫= (λ r, Ret r.2) =
  Ret (selftest_text (seqZ 97 10)).
Proof. vm_compute. reflexivity. Qed.

(** A full array stack stops the test, it is not overrun. *)
Example too_many_pushes : (s ← ArrayStack_new 3 (replicate 3 0); SelfTest int_incr 20 17 4 s) = AssertFails.
Proof. vm_compute. reflexivity. Qed.

(** the self-test prints the same text — 17, 18, ... going in and the same values in reverse coming out —
    on the array stack and on the list stack of inheritstack.cc and in the version of stack.cc, for every number of
    items that the array has room for and an int can count; all three stacks are empty again afterwards. *)
Theorem selftests_agree n junk h fuel :
  1 ≤ n → 17 + n ≤ 2 ^ 31 - 1 → n ≤ Z.of_nat (length junk) → (Z.to_nat n < fuel)%nat →
  ∃ s0 s1 s2 l1, ArrayStack_new n junk = Ret s0 ∧
    SelfTest int_incr fuel 17 n s0 = Ret (s1, expected_text n) ∧ ArrayStack_Empty s1 = true ∧
    SelfTest_full int_incr fuel 17 s0 = Ret (s2, expected_text n) ∧ ArrayStack_Empty s2 = true ∧
    SelfTest int_incr fuel 17 n (ListStack_new h) = Ret (l1, expected_text n) ∧ ListStack_Empty l1 = true.
Proof.
  intros Hn Hmax Hj Hf. destruct (ArrayStack_new_ok n junk Hn Hj) as [s0 [Hnew Hr]].
  destruct (selftest_of_ints n fuel s0 (Some n)) as [s1 [H1 Hr1]]; [lia|done|done|done|intros m E; by injection E as <-|].
  destruct (stack_cc_selftest n fuel s0) as [s2 [H2 Hr2]]; [lia|done|done|done|].
  destruct (selftest_of_ints n fuel (ListStack_new h) None) as [l1 [H3 Hr3]]; [lia|done|done|apply ListStack_new_ok|done|].
  exists s0, s1, s2, l1. split_and!; try done.
  - apply (Empty_spec s1 _ _ Hr1).
  - assert (stack_rep s2 (Some n) []) as Hr2' by exact Hr2. apply (Empty_spec s2 _ _ Hr2').
  - apply (Empty_spec l1 _ _ Hr3).
Qed.

Lemma selftests_agree_witness :
  ∃ s0 s1 s2 l1, ArrayStack_new 10 (replicate 10 0) = Ret s0 ∧
    SelfTest int_incr 20 17 10 s0 = Ret (s1, expected_text 10) ∧ ArrayStack_Empty s1 = true ∧
    SelfTest_full int_incr 20 17 s0 = Ret (s2, expected_text 10) ∧ ArrayStack_Empty s2 = true ∧
    SelfTest int_incr 20 17 10 (ListStack_new ∅) = Ret (l1, expected_text 10) ∧ ListStack_Empty l1 = true.
Proof. apply (selftests_agree 10 (replicate 10 0) ∅ 20); [lia|lia|vm_compute; discriminate|vm_compute; lia]. Defined.

End Stacks.
