(* ===== verification/Coff2noff.v ===== *)
(** * code/bin/coff2noff.c, coff.h: from the linker's object files to Nachos executables

    The program reads the COFF headers, copies the text and the data into the NOFF file, and writes the
    NOFF header, in the byte order of the host.  Structures are laid out as on the 32-bit host of the Makefile
    (a [long] has four bytes); only the fields that the program looks at are kept.  UNIX is [UnixFile]: a read gives
    what is left of the file, a write succeeds.  [exit] is a result; what [noffH] holds before it
    is set is a parameter. *)

From S2P Require Import Prelude CInt Machine UnixFile MemManage VirtMem Paging.
From stdpp Require Import strings.
Import UnixFile.UnixFile VirtMem.VirtMem Paging.Paging.

Open Scope Z_scope.

Module Coff2noff.

(** *** coff.h *)
Definition MIPSELMAGIC : Z := 0x0162.
Definition OMAGIC : Z := 263.

Record filehdr := mkFilehdr { f_magic : Z; f_nscns : Z }.
Definition sizeof_filehdr : Z := 20.
Record aouthdr := mkAouthdr { magic : Z }.
Definition sizeof_aouthdr : Z := 56.
Record scnhdr := mkScnhdr { s_name : list Z; s_paddr : Z; s_size : Z; s_scnptr : Z }.
Definition sizeof_scnhdr : nat := 40.

(** The descriptors of the two files with their positions; [open] gave -1 where [fdOut] is [None]. *)
Record Io := mkIo { unix : Unix; fdIn : nat; posIn : Z; fdOut : option nat; posOut : Z; noffFileName : option string }.

Section host.
(** [HOST_IS_BIG_ENDIAN] *)
Variable big_endian : bool.

(** The two routines are those of machine.cc. *)
Definition WordToHost (word : Z) : Z := Machine.Machine.WordToHost big_endian word.
Definition ShortToHost (shortword : Z) : Z := Machine.Machine.ShortToHost big_endian shortword.

Definition s16 (z : Z) : Z := (z + 2 ^ 15) mod 2 ^ 16 - 2 ^ 15.

(** A field of a structure in memory. *)
Definition field (bs : list Z) (off n : nat) : Z := Machine.Machine.host_load big_endian (take n (drop off bs)).

Definition bytes_filehdr (bs : list Z) : filehdr :=
  mkFilehdr (ShortToHost (field bs 0 2)) (ShortToHost (field bs 2 2)).
Definition bytes_aouthdr (bs : list Z) : aouthdr := mkAouthdr (s16 (ShortToHost (field bs 0 2))).
(** With the conversions of [s_paddr], [s_size] and [s_scnptr] to the order of the host. *)
Definition bytes_scnhdr (bs : list Z) : scnhdr :=
  mkScnhdr (take 8 bs) (s32 (WordToHost (field bs 8 4))) (s32 (WordToHost (field bs 16 4)))
    (s32 (WordToHost (field bs 20 4))).

Fixpoint bytes_scnhdrs (n : nat) (bs : list Z) : list scnhdr :=
  match n with
  | O => []
  | S n => bytes_scnhdr (take sizeof_scnhdr bs) :: bytes_scnhdrs n (drop sizeof_scnhdr bs)
  end.

(** *** The NOFF header in memory *)
Definition noff_words (h : NoffHeader) : list Z :=
  let segment sg := [virtualAddr sg; inFileAddr sg; size_ sg] in
  noffMagic h :: segment (code h) ++ segment (initData h) ++ segment (uninitData h).
Definition noff_bytes (h : NoffHeader) : list Z :=
  noff_words h ≫= λ w, Machine.Machine.host_store big_endian 4 (u32 w).

(** [strcmp] with a literal that is shorter than the field. *)
Definition name_is (name : list Z) (lit : string) : bool :=
  bool_decide (take (S (String.length lit)) name =
    (λ a, Z.of_nat (Ascii.nat_of_ascii a)) <$> String.list_ascii_of_string lit ++ [Ascii.zero]).

(** *** Files; [None] is the [exit(1)] behind a message *)
Definition with_in (pos : Z) (io : Io) : Io :=
  mkIo (unix io) (fdIn io) pos (fdOut io) (posOut io) (noffFileName io).
Definition with_out (u : Unix) (pos : Z) (io : Io) : Io :=
  mkIo u (fdIn io) (posIn io) (fdOut io) pos (noffFileName io).

Definition unlink (name : option string) (u : Unix) : Unix :=
  match name with Some n => fst (Unlink n u) | None => u end.
Definition fail (io : Io) : Io := with_out (unlink (noffFileName io) (unix io)) (posOut io) io.

(** [read] and [write] fail for a negative count and return -1, which is the count asked for when that is -1. *)
Definition Read (nBytes : Z) (io : Io) : Io * option (list Z) :=
  let bs := ReadPartial (unix io) (fdIn io) (posIn io) nBytes in
  if nBytes =? -1 then (io, Some [])
  else if Z.of_nat (length bs) =? nBytes then (with_in (posIn io + nBytes) io, Some bs) else (fail io, None).

Definition Write (bs : list Z) (io : Io) : Io * option unit :=
  match fdOut io with
  | Some fd => (with_out (WriteFile bs fd (posOut io) (unix io)) (posOut io + Z.of_nat (length bs)) io, Some tt)
  | None => (fail io, None)
  end.

(** [lseek] to a negative position does nothing. *)
Definition seek_in (pos : Z) (io : Io) : Io := if pos <? 0 then io else with_in pos io.
Definition seek_out (pos : Z) (io : Io) : Io := if pos <? 0 then io else with_out (unix io) pos io.

Definition int_add (a b : Z) : outcome Z :=
  defined_if ((- 2 ^ 31 <=? a + b) && (a + b <? 2 ^ 31));; Ret (a + b).

(** *** main *)

(** A segment goes from the one file to the other. *)
Definition copy_segment (s : scnhdr) (io : Io) : Io * option unit :=
  match Read (s_size s) (seek_in (s_scnptr s) io) with
  | (io, Some buffer) => Write buffer io
  | (io, None) => (io, None)
  end.

(** The branches of the loop over the sections. *)
Inductive kind := Text | Data | Bss | Unknown.
#[export] Instance kind_eq_dec : EqDecision kind.
Proof. solve_decision. Defined.
Definition kind_of (s : scnhdr) : kind :=
  if name_is (s_name s) ".text" then Text
  else if name_is (s_name s) ".data" || name_is (s_name s) ".rdata" then Data
  else if name_is (s_name s) ".bss" || name_is (s_name s) ".sbss" then Bss
  else Unknown.

Definition set_code (sg : Segment) (h : NoffHeader) : NoffHeader := mkNoff (noffMagic h) sg (initData h) (uninitData h).
Definition set_data (sg : Segment) (h : NoffHeader) : NoffHeader := mkNoff (noffMagic h) (code h) sg (uninitData h).
Definition set_bss (sg : Segment) (h : NoffHeader) : NoffHeader := mkNoff (noffMagic h) (code h) (initData h) sg.

Definition section_step (s : scnhdr) (st : Io * NoffHeader * Z) : outcome (Io * option (NoffHeader * Z)) :=
  let '(io, h, inNoffFile) := st in
  let copied set :=
    match copy_segment s io with
    | (io, Some _) => n ← int_add inNoffFile (s_size s); Ret (io, Some (set (mkSegment (s_paddr s) inNoffFile (s_size s)) h, n))
    | (io, None) => Ret (io, None)
    end in
  if s_size s =? 0 then Ret (io, Some (h, inNoffFile))
  else match kind_of s with
  | Text => copied set_code
  | Data => if negb (size_ (initData h) =? 0) then Ret (fail io, None) else copied set_data
  | Bss =>
      let un := uninitData h in
      if negb (size_ un =? 0) then
        last ← int_add (virtualAddr un) (size_ un);
        if s_paddr s =? last then Ret (fail io, None)
        else size ← int_add (size_ un) (s_size s);
             Ret (io, Some (set_bss (mkSegment (virtualAddr un) (inFileAddr un) size) h, inNoffFile))
      else Ret (io, Some (set_bss (mkSegment (s_paddr s) (inFileAddr un) (s_size s)) h, inNoffFile))
  | Unknown => Ret (fail io, None)
  end.

Fixpoint copy_sections (sections : list scnhdr) (st : Io * NoffHeader * Z) : outcome (Io * option (NoffHeader * Z)) :=
  match sections with
  | [] => let '(io, h, n) := st in Ret (io, Some (h, n))
  | s :: sections =>
      '(io, r) ← section_step s st;
      match r with
      | Some (h, n) => copy_sections sections (io, h, n)
      | None => Ret (io, None)
      end
  end.

(** The headers, with their checks. *)
Definition read_headers (io : Io) : Io * option (list scnhdr) :=
  match Read sizeof_filehdr io with
  | (io, None) => (io, None)
  | (io, Some bs) =>
      let fileh := bytes_filehdr bs in
      if negb (f_magic fileh =? MIPSELMAGIC) then (fail io, None)
      else match Read sizeof_aouthdr io with
      | (io, None) => (io, None)
      | (io, Some bs) =>
          if negb (magic (bytes_aouthdr bs) =? OMAGIC) then (fail io, None)
          else match Read (f_nscns fileh * Z.of_nat sizeof_scnhdr) io with
          | (io, None) => (io, None)
          | (io, Some bs) => (io, Some (bytes_scnhdrs (Z.to_nat (f_nscns fileh)) bs))
          end
      end
  end.

(** The header before the loop; sizes are cleared, the rest is what the stack held. *)
Definition noff_start (junk : NoffHeader) : NoffHeader :=
  let clear sg := mkSegment (virtualAddr sg) (inFileAddr sg) 0 in
  mkNoff NOFFMAGIC (clear (code junk)) (clear (initData junk)) (clear (uninitData junk)).

Definition convert (junk : NoffHeader) (io : Io) : outcome (Unix * Z) :=
  match read_headers io with
  | (io, None) => Ret (unix io, 1)
  | (io, Some sections) =>
      '(io, r) ← copy_sections sections (seek_out sizeof_NoffHeader io, noff_start junk, sizeof_NoffHeader);
      match r with
      | None => Ret (unix io, 1)
      | Some (h, _) =>
          match Write (noff_bytes h) (seek_out 0 io) with
          | (io, Some _) => Ret (unix io, 0)
          | (io, None) => Ret (unix io, 1)
          end
      end
  end.

(** [args] are the arguments behind the name of the program. *)
Definition main (junk : NoffHeader) (args : list string) (u : Unix) : outcome (Unix * Z) :=
  match args with
  | [] => Ret (u, 1)
  | coffName :: rest =>
      match names u !! coffName with
      | None => Ret (u, 1)
      | Some fd =>
          match rest with
          | [] => convert junk (mkIo u fd 0 None 0 None)
          | noffName :: _ =>
              let '(u, fdOut) := OpenForWrite noffName u in
              convert junk (mkIo u fd 0 (Some fdOut) 0 (Some noffName))
          end
      end
  end.
End host.

(** *** The object file, whatever the host *)
Definition slice (bs : list Z) (off n : Z) : list Z := take (Z.to_nat n) (drop (Z.to_nat off) bs).

Definition object_sections (coff : list Z) : option (list scnhdr) :=
  let n := f_nscns (bytes_filehdr false (slice coff 0 20)) in
  if Z.of_nat (length coff) <? 20 then None
  else if negb (f_magic (bytes_filehdr false (slice coff 0 20)) =? MIPSELMAGIC) then None
  else if Z.of_nat (length coff) <? 76 then None
  else if negb (magic (bytes_aouthdr false (slice coff 20 56)) =? OMAGIC) then None
  else if Z.of_nat (length coff) <? 76 + n * 40 then None
  else Some (bytes_scnhdrs false (Z.to_nat n) (slice coff 76 (n * 40))).

Lemma field_word be bs off : Forall is_byte bs → (off + 4 ≤ length bs)%nat →
  WordToHost be (field be bs off 4) = WordToHost false (field false bs off 4).
Proof.
  intros Hb Hl. unfold WordToHost, field. assert (Forall is_byte (take 4 (drop off bs))) by (by apply Forall_take, Forall_drop).
  rewrite !Machine.Machine.load_word; try done; rewrite length_take, length_drop; lia.
Qed.

Lemma field_short be bs off : Forall is_byte bs → (off + 2 ≤ length bs)%nat →
  ShortToHost be (field be bs off 2) = ShortToHost false (field false bs off 2).
Proof.
  intros Hb Hl. unfold ShortToHost, field. assert (Forall is_byte (take 2 (drop off bs))) by (by apply Forall_take, Forall_drop).
  rewrite !Machine.Machine.load_short; try done; rewrite length_take, length_drop; lia.
Qed.

Lemma bytes_filehdr_host be bs : Forall is_byte bs → (4 ≤ length bs)%nat → bytes_filehdr be bs = bytes_filehdr false bs.
Proof. intros Hb Hl. unfold bytes_filehdr. by rewrite !(field_short be) by (done || lia). Qed.
Lemma bytes_aouthdr_host be bs : Forall is_byte bs → (2 ≤ length bs)%nat → bytes_aouthdr be bs = bytes_aouthdr false bs.
Proof. intros Hb Hl. unfold bytes_aouthdr. by rewrite !(field_short be) by (done || lia). Qed.
Lemma bytes_scnhdr_host be bs : Forall is_byte bs → length bs = 40%nat → bytes_scnhdr be bs = bytes_scnhdr false bs.
Proof. intros Hb Hl. unfold bytes_scnhdr. by rewrite !(field_word be) by (done || lia). Qed.

Lemma bytes_scnhdrs_host be n : ∀ bs, Forall is_byte bs → length bs = (40 * n)%nat →
  bytes_scnhdrs be n bs = bytes_scnhdrs false n bs.
Proof.
  induction n as [|n IH]; intros bs Hb Hl; [done|]. cbn [bytes_scnhdrs]. unfold sizeof_scnhdr. f_equal.
  - apply bytes_scnhdr_host; [by apply Forall_take|]. rewrite length_take. lia.
  - apply IH; [by apply Forall_drop|]. rewrite length_drop. lia.
Qed.

Lemma slice_length bs off n : 0 ≤ off → 0 ≤ n → off + n ≤ Z.of_nat (length bs) → length (slice bs off n) = Z.to_nat n.
Proof. intros. unfold slice. rewrite length_take, length_drop. lia. Qed.

(** [Read] gives the slice at the position, or fails when the file ends before. *)
Lemma Read_ok n io : 0 ≤ posIn io → 0 ≤ n → posIn io + n ≤ Z.of_nat (length (content (unix io) (fdIn io))) →
  Read n io = (with_in (posIn io + n) io, Some (slice (content (unix io) (fdIn io)) (posIn io) n)).
Proof.
  intros Hp Hn Hl. unfold Read, ReadPartial. rewrite (eqb_false n) by lia. fold (slice (content (unix io) (fdIn io)) (posIn io) n).
  rewrite slice_length, Z2Nat.id, Z.eqb_refl by done. done.
Qed.

Lemma Read_short n io : 0 ≤ posIn io ≤ Z.of_nat (length (content (unix io) (fdIn io))) →
  Z.of_nat (length (content (unix io) (fdIn io))) < posIn io + n → Read n io = (fail io, None).
Proof.
  intros Hp Hn. unfold Read, ReadPartial. rewrite (eqb_false n) by lia. rewrite eqb_false; [done|]. rewrite length_take, length_drop. lia.
Qed.

Lemma f_nscns_nonneg bs : Forall is_byte bs → 0 ≤ f_nscns (bytes_filehdr false bs).
Proof.
  intros Hb. cbn. unfold ShortToHost, field, Machine.Machine.host_load. cbn.
  assert (Forall is_byte (take 2 (drop 2 bs))) as Hf by (by apply Forall_take, Forall_drop).
  pose proof (le_value_bound _ Hf). lia.
Qed.

Lemma slice_bytes bs off n : Forall is_byte bs → Forall is_byte (slice bs off n).
Proof. intros. by apply Forall_take, Forall_drop. Qed.

Lemma read_headers_ok be coff io :
  Forall is_byte coff → content (unix io) (fdIn io) = coff → posIn io = 0 →
  match object_sections coff with
  | Some scns => ∃ pos, read_headers be io = (with_in pos io, Some scns)
  | None => ∃ pos, read_headers be io = (fail (with_in pos io), None)
  end.
Proof.
  intros Hb Hc Hp. unfold object_sections, read_headers. unfold sizeof_filehdr, sizeof_aouthdr, sizeof_scnhdr.
  pose proof (f_nscns_nonneg (slice coff 0 20) (slice_bytes coff 0 20 Hb)) as Hn.
  assert (with_in 0 io = io) as Hw by (destruct io; cbn in *; by subst).
  destruct (Z.ltb_spec (Z.of_nat (length coff)) 20) as [H20|H20].
  { exists 0. rewrite Read_short by (rewrite ?Hc, ?Hp; lia). by rewrite Hw. }
  rewrite Read_ok by (rewrite ?Hc, ?Hp; lia). rewrite Hc, Hp.
  assert (length (slice coff 0 20) = 20%nat) as Hl by (rewrite slice_length; lia).
  rewrite (bytes_filehdr_host be) by (by apply slice_bytes || lia).
  destruct (negb (f_magic _ =? MIPSELMAGIC)); [by eexists|].
  destruct (Z.ltb_spec (Z.of_nat (length coff)) 76) as [H76|H76].
  { exists 20. rewrite Read_short; [done|cbn; rewrite Hc; lia|cbn; rewrite Hc; lia]. }
  rewrite Read_ok; [|cbn; try rewrite Hc; lia..]. cbn [posIn with_in unix fdIn]. rewrite Hc. change (0 + 20) with 20.
  assert (length (slice coff 20 56) = 56%nat) as Hl2 by (rewrite slice_length; lia).
  rewrite (bytes_aouthdr_host be) by (by apply slice_bytes || lia).
  destruct (negb (magic _ =? OMAGIC)); [by eexists|]. change (20 + 56) with 76. change (Z.of_nat 40) with 40.
  set (n := f_nscns _) in *. destruct (Z.ltb_spec (Z.of_nat (length coff)) (76 + n * 40)) as [Hs|Hs].
  { exists 76. rewrite Read_short; [done|cbn [posIn with_in unix fdIn]; rewrite ?Hc; lia..]. }
  rewrite Read_ok; [|cbn [posIn with_in unix fdIn]; rewrite ?Hc; lia..]. cbn [posIn with_in unix fdIn]. rewrite Hc.
  rewrite (bytes_scnhdrs_host be); [by eexists|by apply slice_bytes|]. rewrite slice_length; lia.
Qed.

(** *** What the conversion promises *)
Definition nonempty (k : kind) (s : scnhdr) : bool := negb (s_size s =? 0) && bool_decide (kind_of s = k).
Definition sections_of (k : kind) (scns : list scnhdr) : list scnhdr := filter (λ s, nonempty k s = true) scns.

(** Object files of the linker options that coff2noff.c names: at most one section of a kind that is not empty, inside the
    file and the address space, text and data apart. *)
Record convertible (coff : list Z) (scns : list scnhdr) : Prop := {
  cv_small : Z.of_nat (length coff) < 2 ^ 30 - 40;
  cv_known : sections_of Unknown scns = [];
  cv_one k : (length (sections_of k scns) ≤ 1)%nat;
  cv_bytes s : s ∈ sections_of Text scns ∨ s ∈ sections_of Data scns →
    0 ≤ s_scnptr s ∧ 0 < s_size s ∧ s_scnptr s + s_size s ≤ Z.of_nat (length coff) ∧
    0 ≤ s_paddr s ∧ s_paddr s + s_size s < 2 ^ 31;
  cv_apart t d : t ∈ sections_of Text scns → d ∈ sections_of Data scns →
    s_paddr t + s_size t ≤ s_paddr d ∨ s_paddr d + s_size d ≤ s_paddr t }.

(** A segment of the NOFF file [out] holds the section [s] of [coff]. *)
Record placed (coff out : list Z) (s : scnhdr) (sg : Segment) : Prop := {
  pl_addr : virtualAddr sg = s_paddr s;
  pl_size : size_ sg = s_size s;
  pl_file : 40 ≤ inFileAddr sg;
  pl_end : inFileAddr sg + s_size s ≤ Z.of_nat (length out);
  pl_bytes : slice out (inFileAddr sg) (s_size s) = slice coff (s_scnptr s) (s_size s) }.

Definition holds_segment (coff out : list Z) (found : list scnhdr) (sg : Segment) : Prop :=
  match found with [] => size_ sg = 0 | s :: _ => placed coff out s sg end.
Definition holds_bss (found : list scnhdr) (sg : Segment) : Prop :=
  match found with [] => size_ sg = 0 | s :: _ => virtualAddr sg = s_paddr s ∧ size_ sg = s_size s end.

(** Between two sections. *)
Record copying (coff : list Z) (fi fo : nat) (name : string) (scns : list scnhdr) (io : Io) (h : NoffHeader) (n : Z) : Prop := {
  cp_in : fdIn io = fi;
  cp_coff : content (unix io) fi = coff;
  cp_out : fdOut io = Some fo;
  cp_name : noffFileName io = Some name;
  cp_open : names (unix io) !! name = Some fo;
  cp_pos : posOut io = n;
  cp_n : 40 ≤ n;
  cp_sum : n ≤ 40 + foldr (λ s a, s_size s + a) 0 (sections_of Text scns) + foldr (λ s a, s_size s + a) 0 (sections_of Data scns);
  cp_length : Z.of_nat (length (content (unix io) fo)) ≤ n;
  cp_magic : noffMagic h = NOFFMAGIC;
  cp_text : holds_segment coff (content (unix io) fo) (sections_of Text scns) (code h);
  cp_data : holds_segment coff (content (unix io) fo) (sections_of Data scns) (initData h);
  cp_bss : holds_bss (sections_of Bss scns) (uninitData h) }.

Lemma slice_write_at bs pos file off n :
  0 ≤ off → 0 ≤ n → off + n ≤ Z.of_nat (length file) → (off + n ≤ pos ∨ pos + Z.of_nat (length bs) ≤ off) → 0 ≤ pos →
  slice (write_at bs (Z.to_nat pos) file) off n = slice file off n.
Proof. intros. unfold slice. apply read_write_at_other; lia. Qed.

Lemma placed_write coff out s sg bs pos :
  0 < s_size s → placed coff out s sg →
  Z.of_nat (length out) ≤ pos ∨ (pos = 0 ∧ Z.of_nat (length bs) = 40) → placed coff (write_at bs (Z.to_nat pos) out) s sg.
Proof.
  intros Hs [Ha Hz Hf He Hb] Hpos. split; try done.
  - rewrite write_at_length. lia.
  - rewrite <- Hb. apply slice_write_at; lia.
Qed.

Lemma holds_write coff out found sg bs pos :
  (∀ s, s ∈ found → 0 < s_size s) → holds_segment coff out found sg →
  Z.of_nat (length out) ≤ pos ∨ (pos = 0 ∧ Z.of_nat (length bs) = 40) →
  holds_segment coff (write_at bs (Z.to_nat pos) out) found sg.
Proof. intros Hs. destruct found as [|s found]; [done|]. intros Hp Hpos. apply placed_write; [|done..]. apply Hs. by left. Qed.

Lemma placed_new coff out s pos :
  0 ≤ s_scnptr s → 0 < s_size s → s_scnptr s + s_size s ≤ Z.of_nat (length coff) → 40 ≤ pos →
  placed coff (write_at (slice coff (s_scnptr s) (s_size s)) (Z.to_nat pos) out) s (mkSegment (s_paddr s) pos (s_size s)).
Proof.
  intros H1 H2 H3 H4. pose proof (slice_length coff (s_scnptr s) (s_size s) H1 ltac:(lia) H3) as Hl.
  split; try done.
  - rewrite write_at_length. cbn [inFileAddr]. lia.
  - cbn [inFileAddr]. unfold slice at 1. rewrite <- Hl. apply read_write_at.
Qed.

Lemma sections_of_snoc k scns s :
  sections_of k (scns ++ [s]) = sections_of k scns ++ (if nonempty k s then [s] else []).
Proof. unfold sections_of. rewrite filter_app. f_equal. cbn. destruct (nonempty k s); by repeat case_decide. Qed.

Lemma sections_of_elem k scns s : s ∈ sections_of k scns ↔ nonempty k s = true ∧ s ∈ scns.
Proof. unfold sections_of. by rewrite list_elem_of_filter. Qed.

Lemma copy_segment_ok coff fi fo name scns io h n s :
  copying coff fi fo name scns io h n → fo ≠ fi →
  0 ≤ s_scnptr s → 0 < s_size s → s_scnptr s + s_size s ≤ Z.of_nat (length coff) →
  copy_segment s io = (with_out (WriteFile (slice coff (s_scnptr s) (s_size s)) fo n (unix io)) (n + s_size s)
    (with_in (s_scnptr s + s_size s) io), Some tt).
Proof.
  intros Hc Hne Hp Hs Hl. destruct Hc as [C1 C2 C3 C4 _ C5 _ _ _ _ _ _]. unfold copy_segment, seek_in.
  rewrite ltb_false by done. subst fi.
  rewrite Read_ok; [|cbn [with_in posIn unix fdIn]; rewrite ?C2; lia..]. cbn [with_in posIn unix fdIn]. rewrite C2.
  unfold Write. cbn [with_in fdOut unix posOut]. rewrite C3, C5. rewrite slice_length by lia.
  by rewrite Z2Nat.id by lia.
Qed.

(** A file after the segment was written behind its end. *)
Lemma copying_written coff fi fo name scns io h n s pos :
  copying coff fi fo name scns io h n → fo ≠ fi →
  content (unix (with_out (WriteFile (slice coff (s_scnptr s) (s_size s)) fo n (unix io)) pos io)) fo =
    write_at (slice coff (s_scnptr s) (s_size s)) (Z.to_nat n) (content (unix io) fo) ∧
  content (unix (with_out (WriteFile (slice coff (s_scnptr s) (s_size s)) fo n (unix io)) pos io)) fi = coff.
Proof.
  intros Hc Hne. cbn [unix with_out]. unfold WriteFile. rewrite !content_set, decide_True, decide_False by done.
  split; [done|]. apply Hc.
Qed.

Lemma section_skipped coff fi fo name scns io h n s :
  copying coff fi fo name scns io h n → s_size s = 0 → copying coff fi fo name (scns ++ [s]) io h n.
Proof.
  intros [] Hs. assert (∀ k, sections_of k (scns ++ [s]) = sections_of k scns) as E.
  { intros k. rewrite sections_of_snoc. unfold nonempty. rewrite Hs. apply app_nil_r. }
  split; try done; by rewrite !E.
Qed.

(** A section of text or data is copied. *)
Definition set_segment (k : kind) : Segment → NoffHeader → NoffHeader :=
  match k with Text => set_code | Data => set_data | _ => set_bss end.

Lemma copying_copied coff fi fo name scns io h n s k :
  copying coff fi fo name scns io h n → fo ≠ fi → k = Text ∨ k = Data →
  (∀ s, s ∈ sections_of Text scns ∨ s ∈ sections_of Data scns → 0 < s_size s) →
  0 ≤ s_scnptr s → 0 < s_size s → s_scnptr s + s_size s ≤ Z.of_nat (length coff) →
  kind_of s = k → sections_of k scns = [] →
  copying coff fi fo name (scns ++ [s])
    (with_out (WriteFile (slice coff (s_scnptr s) (s_size s)) fo n (unix io)) (n + s_size s)
      (with_in (s_scnptr s + s_size s) io))
    (set_segment k (mkSegment (s_paddr s) n (s_size s)) h) (n + s_size s).
Proof.
  intros Hc Hne Hk Hpos Hp Hs Hl Hks He.
  pose proof (copying_written _ _ _ _ _ _ _ _ s (n + s_size s) Hc Hne) as [Eo Ei].
  destruct Hc as [C1 C2 C3 C4 C5 C6 C7 C8 C9 C10 C11 C12 C13]. cbn [unix with_out] in Eo, Ei.
  assert (∀ k', sections_of k' (scns ++ [s]) = if decide (k' = k) then [s] else sections_of k' scns) as E.
  { intros k'. rewrite sections_of_snoc. unfold nonempty. rewrite Hks, eqb_false by lia.
    destruct Hk as [-> | ->], k'; cbn; rewrite ?He, ?app_nil_r; done. }
  assert (∀ k' sg, (∀ x, x ∈ sections_of k' scns → 0 < s_size x) → holds_segment coff (content (unix io) fo) (sections_of k' scns) sg →
    holds_segment coff (write_at (slice coff (s_scnptr s) (s_size s)) (Z.to_nat n) (content (unix io) fo)) (sections_of k' scns) sg) as Hold.
  { intros k' sg Hx Hh. apply holds_write; auto. }
  pose proof (placed_new coff (content (unix io) fo) s n Hp Hs Hl C7) as Hnew.
  split; cbn [fdIn fdOut unix posIn posOut noffFileName with_in with_out]; try done; try lia.
  - rewrite !E. destruct Hk as [-> | ->]; repeat (case_decide; try done); cbn [foldr]; rewrite He in C8; cbn [foldr] in C8; lia.
  - rewrite Eo, write_at_length, slice_length by lia. lia.
  - by destruct Hk as [-> | ->].
  - rewrite E, Eo. destruct Hk as [-> | ->]; cbn; [done|]. apply Hold; auto.
  - rewrite E, Eo. destruct Hk as [-> | ->]; cbn; [|done]. apply Hold; auto.
  - rewrite E. by destruct Hk as [-> | ->].
Qed.

Lemma section_step_copied coff fi fo name scns io h n s k :
  copying coff fi fo name scns io h n → fo ≠ fi → k = Text ∨ k = Data →
  0 ≤ s_scnptr s → 0 < s_size s → s_scnptr s + s_size s ≤ Z.of_nat (length coff) → n + s_size s < 2 ^ 31 →
  kind_of s = k → sections_of k scns = [] →
  section_step s (io, h, n) =
    Ret (with_out (WriteFile (slice coff (s_scnptr s) (s_size s)) fo n (unix io)) (n + s_size s)
      (with_in (s_scnptr s + s_size s) io),
      Some (set_segment k (mkSegment (s_paddr s) n (s_size s)) h, n + s_size s)).
Proof.
  intros Hc Hne Hk Hp Hs Hl Hn Hks He. unfold section_step. rewrite eqb_false, Hks by lia.
  rewrite (copy_segment_ok _ _ _ _ _ _ _ _ s Hc Hne) by done.
  pose proof (cp_n _ _ _ _ _ _ _ _ Hc) as Hn40. pose proof (cp_data _ _ _ _ _ _ _ _ Hc) as Hd.
  unfold int_add. rewrite (proj2 (Z.leb_le _ _)), ltb_true by lia. cbn [andb defined_if mbind outcome_bind].
  destruct Hk as [-> | ->]; [done|]. rewrite He in Hd. cbn in Hd. by rewrite Hd.
Qed.

Lemma section_step_bss coff fi fo name scns io h n s :
  copying coff fi fo name scns io h n → s_size s ≠ 0 → kind_of s = Bss → sections_of Bss scns = [] →
  ∃ h', section_step s (io, h, n) = Ret (io, Some (h', n)) ∧ copying coff fi fo name (scns ++ [s]) io h' n.
Proof.
  intros Hc Hs Hk He. unfold section_step. rewrite eqb_false, Hk by done.
  destruct Hc as [C1 C2 C3 C4 C5 C6 C7 C8 C9 C10 C11 C12 C13].
  rewrite He in C13. cbn [holds_bss] in C13. rewrite C13. cbn [Z.eqb negb]. eexists. split; [reflexivity|].
  assert (∀ k', sections_of k' (scns ++ [s]) = if decide (k' = Bss) then [s] else sections_of k' scns) as E.
  { intros k'. rewrite sections_of_snoc. unfold nonempty. rewrite Hk, eqb_false by done.
    destruct k'; cbn; rewrite ?He, ?app_nil_r; done. }
  split; try done; by rewrite !E.
Qed.

Lemma sections_of_app k a b : sections_of k (a ++ b) = sections_of k a ++ sections_of k b.
Proof. apply filter_app. Qed.

(** The only section of its kind so far. *)
Lemma first_of_kind coff scns s rest k :
  convertible coff (scns ++ s :: rest) → s_size s ≠ 0 → kind_of s = k →
  sections_of k scns = [] ∧ s ∈ sections_of k (scns ++ s :: rest).
Proof.
  intros Hv Hs Hk. pose proof (cv_one _ _ Hv k) as Hone. rewrite sections_of_app, length_app in Hone.
  assert (nonempty k s = true) as Hn by (unfold nonempty; rewrite Hk, eqb_false by done; by destruct k).
  split; [|apply sections_of_elem; split; [done|]; set_solver].
  unfold sections_of in *. rewrite filter_cons_True in Hone by done. cbn in Hone. apply nil_length_inv. lia.
Qed.

Lemma sum_one (l : list scnhdr) b : (length l ≤ 1)%nat → (∀ s, s ∈ l → s_size s ≤ b) → 0 ≤ b →
  foldr (λ s a, s_size s + a) 0 l ≤ b.
Proof.
  destruct l as [|s [|]]; cbn; intros Hl Hb H0; [done| |lia]. specialize (Hb s ltac:(left)). lia.
Qed.

Lemma sums_bound coff scns rest k :
  convertible coff (scns ++ rest) → k = Text ∨ k = Data →
  (∀ x, x ∈ sections_of k scns → 0 < s_size x) ∧
  foldr (λ s a, s_size s + a) 0 (sections_of k scns) ≤ Z.of_nat (length coff).
Proof.
  intros Hv Hk. assert (∀ x, x ∈ sections_of k scns → 0 < s_size x ≤ Z.of_nat (length coff)) as Hsz.
  { intros x Hx. assert (x ∈ sections_of k (scns ++ rest)) by (rewrite sections_of_app; set_solver).
    assert (x ∈ sections_of Text (scns ++ rest) ∨ x ∈ sections_of Data (scns ++ rest)) as Hx'
      by (destruct Hk as [-> | ->]; auto).
    destruct (cv_bytes _ _ Hv x Hx'). lia. }
  split; [intros x Hx; by apply Hsz|]. apply sum_one; [|intros x Hx; by apply Hsz|lia].
  pose proof (cv_one _ _ Hv k) as H1. rewrite sections_of_app, length_app in H1. lia.
Qed.

Lemma copy_sections_ok coff fi fo name rest : ∀ scns io h n,
  copying coff fi fo name scns io h n → fo ≠ fi → convertible coff (scns ++ rest) →
  ∃ io' h' n', copy_sections rest (io, h, n) = Ret (io', Some (h', n')) ∧
    copying coff fi fo name (scns ++ rest) io' h' n'.
Proof.
  induction rest as [|s rest IH]; intros scns io h n Hc Hne Hv.
  { exists io, h, n. by rewrite app_nil_r. }
  assert (∃ io1 h1 n1, section_step s (io, h, n) = Ret (io1, Some (h1, n1)) ∧
    copying coff fi fo name (scns ++ [s]) io1 h1 n1) as (io1 & h1 & n1 & E & Hc1).
  { destruct (Z.eq_dec (s_size s) 0) as [Hz|Hz].
    { exists io, h, n. split; [unfold section_step; by rewrite Hz|by apply section_skipped]. }
    destruct (first_of_kind coff scns s rest (kind_of s) Hv Hz eq_refl) as [Hf Hin].
    pose proof (cv_small _ _ Hv) as Hsm. pose proof (cp_sum _ _ _ _ _ _ _ _ Hc) as Hsum.
    destruct (sums_bound coff scns (s :: rest) Text Hv ltac:(by left)) as [Hpt Hst].
    destruct (sums_bound coff scns (s :: rest) Data Hv ltac:(by right)) as [Hpd Hsd].
    assert (kind_of s = Text ∨ kind_of s = Data → ∃ io1 h1 n1, section_step s (io, h, n) = Ret (io1, Some (h1, n1)) ∧
      copying coff fi fo name (scns ++ [s]) io1 h1 n1) as Hcopy.
    { intros Hk. assert (s ∈ sections_of Text (scns ++ s :: rest) ∨ s ∈ sections_of Data (scns ++ s :: rest)) as Hs
        by (destruct Hk as [Hk|Hk]; rewrite Hk in Hin; auto).
      destruct (cv_bytes _ _ Hv s Hs) as (H1 & H2 & H3 & _). do 3 eexists. split.
      - eapply section_step_copied; try done. destruct Hk as [Hk|Hk]; rewrite Hk in Hf; rewrite Hf in *; cbn in *; lia.
      - eapply copying_copied; try done. intros x [Hx|Hx]; auto. }
    destruct (kind_of s) eqn:Hk; [apply Hcopy; auto|apply Hcopy; auto| |].
    - destruct (section_step_bss _ _ _ _ _ _ _ _ s Hc Hz Hk Hf) as (h1 & E & Hc1). by exists io, h1, n.
    - rewrite (cv_known _ _ Hv) in Hin. by apply elem_of_nil in Hin. }
  destruct (IH (scns ++ [s]) io1 h1 n1 Hc1 Hne) as (io' & h' & n' & E' & Hc'); [by rewrite <- app_assoc|].
  exists io', h', n'. rewrite <- app_assoc in Hc'. split; [|done]. cbn [copy_sections]. by rewrite E.
Qed.

(** *** The header *)
Lemma host_store_load be w : Machine.Machine.host_load be (Machine.Machine.host_store be 4 (u32 w)) = u32 w.
Proof.
  unfold Machine.Machine.host_load, Machine.Machine.host_store.
  destruct be; rewrite ?reverse_involutive, le_value_bytes; apply Z.mod_small, u32_range.
Qed.

Lemma host_store_length be w : length (Machine.Machine.host_store be 4 w) = 4%nat.
Proof. unfold Machine.Machine.host_store. destruct be; by rewrite ?length_reverse, le_bytes_length. Qed.

Lemma word_of_bytes be ws : ∀ i w, ws !! i = Some w →
  word_at be (ws ≫= λ w, Machine.Machine.host_store be 4 (u32 w)) i = s32 w.
Proof.
  intros i w Hi. unfold word_at. rewrite <- (s32_u32 w), <- (host_store_load be w). do 2 f_equal.
  revert i Hi. induction ws as [|w' ws IH]; intros i Hi; [done|]. cbn [mbind list_bind].
  destruct i as [|i]; cbn in Hi.
  - injection Hi as ->. rewrite drop_0, take_app_length'; [done|by rewrite host_store_length].
  - replace (4 * S i)%nat with (4 + 4 * i)%nat by lia. rewrite <- drop_drop.
    rewrite (drop_app_length' _ _ 4) by by rewrite host_store_length. by apply IH.
Qed.

Definition int_segment (sg : Segment) : Segment := mkSegment (s32 (virtualAddr sg)) (s32 (inFileAddr sg)) (s32 (size_ sg)).
Definition int_header (h : NoffHeader) : NoffHeader :=
  mkNoff (s32 (noffMagic h)) (int_segment (code h)) (int_segment (initData h)) (int_segment (uninitData h)).

Lemma bytes_noff_bytes be h : bytes_noff be (noff_bytes be h) = int_header h.
Proof.
  pose proof (word_of_bytes be (noff_words h)) as Hw. change (noff_words h ≫= _) with (noff_bytes be h) in Hw.
  unfold bytes_noff. destruct h as [m [a b c] [d e f] [g i j]].
  rewrite (Hw 0%nat m eq_refl), (Hw 1%nat a eq_refl), (Hw (1 + 1)%nat b eq_refl), (Hw (1 + 2)%nat c eq_refl),
    (Hw 4%nat d eq_refl), (Hw (4 + 1)%nat e eq_refl), (Hw (4 + 2)%nat f eq_refl),
    (Hw 7%nat g eq_refl), (Hw (7 + 1)%nat i eq_refl), (Hw (7 + 2)%nat j eq_refl). done.
Qed.

Lemma noff_bytes_length be h : length (noff_bytes be h) = 40%nat.
Proof. unfold noff_bytes. cbn. by rewrite !length_app, !host_store_length. Qed.

(** The loader reads the header back. *)
Lemma read_noff_written {M} `{FrameAllocSpec M} be h fo junk (s : Sys (M := M)) out :
  noffMagic h = NOFFMAGIC → length junk = 40%nat →
  content (files s) fo = write_at (noff_bytes be h) 0 out →
  read_noff be (mkOpenFile fo 0) junk s = Ret (int_header h).
Proof.
  intros Hm Hj Hc. unfold read_noff, ReadAt, ReadPartial. cbn [file]. rewrite Hc.
  change (0 <=? sizeof_NoffHeader) with true. change (Z.to_nat sizeof_NoffHeader) with 40%nat.
  cbn [defined_if Lseek ASSERT Z.leb Z.compare mbind outcome_bind]. change (Z.to_nat 0) with 0%nat.
  assert (take 40 (drop 0 (write_at (noff_bytes be h) 0 out)) = noff_bytes be h) as ->
    by (rewrite <- (noff_bytes_length be h) at 1; apply read_write_at).
  assert (blit junk 0 (noff_bytes be h) = noff_bytes be h) as ->.
  { unfold blit. rewrite noff_bytes_length. cbn [take app]. rewrite drop_ge by (rewrite Hj; lia). apply app_nil_r. }
  rewrite bytes_noff_bytes. assert (noffMagic (int_header h) = NOFFMAGIC) as Hi by (cbn; by rewrite Hm).
  rewrite Hi, Z.eqb_refl. cbn [negb andb]. by rewrite Hi.
Qed.

Lemma bytes_scnhdrs_ints n : ∀ bs s, s ∈ bytes_scnhdrs false n bs → is_s32 (s_paddr s) ∧ is_s32 (s_size s).
Proof.
  induction n as [|n IH]; intros bs s; [by intros ?%elem_of_nil|]. cbn [bytes_scnhdrs]. intros [->|Hs]%elem_of_cons.
  - split; apply s32_range.
  - by eapply IH.
Qed.

Lemma scnhdr_ints coff scns s : object_sections coff = Some scns → s ∈ scns → is_s32 (s_paddr s) ∧ is_s32 (s_size s).
Proof. unfold object_sections. repeat case_match; try done. intros [= <-]. apply bytes_scnhdrs_ints. Qed.

(** What the loader finds in the file: [holds_segment] and [holds_bss] of the header as it is read. *)
Record executable (coff out : list Z) (scns : list scnhdr) (h : NoffHeader) : Prop := {
  ex_text : holds_segment coff out (sections_of Text scns) (code h);
  ex_data : holds_segment coff out (sections_of Data scns) (initData h);
  ex_bss : holds_bss (sections_of Bss scns) (uninitData h);
  ex_length : Z.of_nat (length out) < 2 ^ 31 }.

Lemma placed_int coff out s sg : Z.of_nat (length out) < 2 ^ 31 → 0 ≤ s_paddr s → 0 < s_size s → s_paddr s + s_size s < 2 ^ 31 →
  placed coff out s sg → placed coff out s (int_segment sg).
Proof.
  intros Ho H0 H1 H2 [Ha Hz Hf He Hb].
  assert (int_segment sg = sg) as ->; [|by split]. destruct sg as [a f z]. unfold int_segment. cbn in *. subst a z.
  rewrite !s32_small by (unfold is_s32; lia). done.
Qed.

Lemma copying_executable coff fi fo name scns io h n be :
  object_sections coff = Some scns → convertible coff scns → copying coff fi fo name scns io h n →
  Z.of_nat (length (content (unix io) fo)) < 2 ^ 31 - 40 →
  executable coff (write_at (noff_bytes be h) 0 (content (unix io) fo)) scns (int_header h).
Proof.
  intros Ho Hv Hc Hl. pose proof (write_at_length (noff_bytes be h) 0 (content (unix io) fo)) as Hwl.
  rewrite noff_bytes_length in Hwl.
  assert (∀ s, s ∈ sections_of Text scns ∨ s ∈ sections_of Data scns → 0 ≤ s_paddr s ∧ 0 < s_size s ∧ s_paddr s + s_size s < 2 ^ 31) as Hb.
  { intros s Hs. destruct (cv_bytes _ _ Hv s Hs) as (?&?&?&?&?). lia. }
  assert (∀ found sg, (∀ s, s ∈ found → s ∈ sections_of Text scns ∨ s ∈ sections_of Data scns) →
    holds_segment coff (content (unix io) fo) found sg →
    holds_segment coff (write_at (noff_bytes be h) 0 (content (unix io) fo)) found (int_segment sg)) as Hh.
  { intros found sg Hf Hs. destruct found as [|s found]; cbn [holds_segment] in *;
      [unfold int_segment; cbn [size_]; by rewrite Hs|].
    destruct (Hb s (Hf s ltac:(left))) as (H1 & H2 & H3). apply placed_int; try done; [lia|].
    apply (placed_write _ _ _ _ _ 0); [done..|]. right. by rewrite noff_bytes_length. }
  destruct Hc as [C1 C2 C3 C4 C5 C6 C7 C8 C9 C10 C11 C12 C13]. split.
  - apply Hh; auto.
  - apply Hh; auto.
  - cbn [uninitData int_header]. unfold holds_bss in *. destruct (sections_of Bss scns) as [|s found] eqn:E.
    + cbn. by rewrite C13.
    + destruct C13 as [H1 H2]. cbn. rewrite H1, H2.
      destruct (scnhdr_ints coff scns s Ho) as [H3 H4]; [apply (sections_of_elem Bss); rewrite E; left|].
      by rewrite !s32_small.
  - lia.
Qed.

Lemma copying_short coff fi fo name scns io h n :
  copying coff fi fo name scns io h n → convertible coff scns → Z.of_nat (length (content (unix io) fo)) < 2 ^ 31 - 40.
Proof.
  intros [] Hv. rewrite <- (app_nil_r scns) in Hv.
  pose proof (sums_bound coff scns [] Text Hv ltac:(by left)) as [_ Ht].
  pose proof (sums_bound coff scns [] Data Hv ltac:(by right)) as [_ Hd]. pose proof (cv_small _ _ Hv). lia.
Qed.

Lemma OpenForWrite_ok name fi u :
  names u !! name ≠ Some fi → is_Some (inodes u !! fi) →
  ∃ u' fo, OpenForWrite name u = (u', fo) ∧ fo ≠ fi ∧ names u' !! name = Some fo ∧ content u' fo = [] ∧ content u' fi = content u fi.
Proof.
  intros Hn Hi. unfold OpenForWrite. destruct (names u !! name) as [fo|] eqn:E.
  - exists (set_content fo [] u), fo. assert (fo ≠ fi) by congruence. split_and!; try done.
    + by rewrite content_set, decide_True.
    + by rewrite content_set, decide_False.
  - eexists _, _. assert (fresh (dom (inodes u)) ≠ fi) as Hne.
    { intros E'. apply (is_fresh (dom (inodes u))). rewrite E'. by apply elem_of_dom. }
    split_and!; [reflexivity|done|cbn; by rewrite lookup_insert_eq|..]; unfold content; cbn.
    + by rewrite lookup_insert_eq.
    + by rewrite lookup_insert_ne.
Qed.

Lemma main_ok be junk coffName noffName u fi scns :
  names u !! coffName = Some fi → names u !! noffName ≠ Some fi → is_Some (inodes u !! fi) →
  Forall is_byte (content u fi) → object_sections (content u fi) = Some scns → convertible (content u fi) scns →
  ∃ u' fo out h, main be junk [coffName; noffName] u = Ret (u', 0) ∧
    names u' !! noffName = Some fo ∧ content u' fi = content u fi ∧
    content u' fo = write_at (noff_bytes be h) 0 out ∧ noffMagic h = NOFFMAGIC ∧
    executable (content u fi) (content u' fo) scns (int_header h).
Proof.
  intros Hi Hn Hex Hb Ho Hv. destruct (OpenForWrite_ok noffName fi u Hn Hex) as (u1 & fo & E1 & Hne & Hn1 & Hc1 & Hi1).
  set (io0 := mkIo u1 fi 0 (Some fo) 0 (Some noffName)).
  pose proof (read_headers_ok be (content u fi) io0 Hb Hi1 eq_refl) as Hrd. rewrite Ho in Hrd. destruct Hrd as [pos Hrd].
  destruct (copy_sections_ok (content u fi) fi fo noffName scns [] (seek_out sizeof_NoffHeader (with_in pos io0))
    (noff_start junk) sizeof_NoffHeader) as (io & h & n & E2 & Hc); [|done|done|].
  { split; try done. cbn. rewrite Hc1. done. }
  assert (main be junk [coffName; noffName] u = convert be junk io0) as ->
    by (unfold main; rewrite Hi, E1; reflexivity).
  unfold convert. rewrite Hrd. cbn [app] in Hc. rewrite E2. cbn [mbind outcome_bind].
  pose proof (copying_short _ _ _ _ _ _ _ _ Hc Hv) as Hshort.
  pose proof (copying_executable _ _ _ _ _ _ _ _ be Ho Hv Hc Hshort) as Hx.
  change (seek_out 0 io) with (with_out (unix io) 0 io). unfold Write. cbn [fdOut with_out]. rewrite (cp_out _ _ _ _ _ _ _ _ Hc).
  cbn [unix with_out posOut]. unfold WriteFile. change (Z.to_nat 0) with 0%nat.
  eexists _, fo, _, h. split; [reflexivity|]. rewrite !content_set, (decide_True (P := fo = fo)), (decide_False (P := fo = fi)) by done.
  split_and!; [apply Hc|apply Hc|reflexivity|apply Hc|exact Hx].
Qed.

(** *** The pages that demand paging takes from the file *)
Lemma lookup_slice bs a n j : 0 ≤ a → 0 ≤ j < n → slice bs a n !! Z.to_nat j = bs !! Z.to_nat (a + j).
Proof. intros Ha Hj. unfold slice. rewrite lookup_take_lt, lookup_drop by lia. f_equal. lia. Qed.

Lemma placed_page coff out s sg (p i : nat) :
  placed coff out s sg → Z.of_nat (length out) < 2 ^ 31 → 0 ≤ s_scnptr s → (i < 128)%nat →
  0 ≤ s_paddr s ∧ s_paddr s + s_size s < 2 ^ 31 →
  s_paddr s ≤ Z.of_nat (128 * p) → Z.of_nat (128 * p + i) < s_paddr s + s_size s →
  take 128 (drop (Z.to_nat (file_position sg (Z.of_nat (128 * p)))) out) !! i =
    coff !! Z.to_nat (s_scnptr s + (Z.of_nat (128 * p + i) - s_paddr s)).
Proof.
  intros [Ha Hz Hf He Hb] Ho Hs Hi Hr Hlo Hhi. rewrite lookup_take_lt, lookup_drop by done.
  unfold file_position. rewrite Ha, !s32_small by (unfold is_s32; rewrite ?s32_small by (unfold is_s32; lia); lia).
  set (j := Z.of_nat (128 * p + i) - s_paddr s).
  replace (Z.to_nat _ + i)%nat with (Z.to_nat (inFileAddr sg + j)) by (unfold j; lia).
  rewrite <- (lookup_slice out (inFileAddr sg) (s_size s) j), <- (lookup_slice coff (s_scnptr s) (s_size s) j) by (unfold j; lia).
  by rewrite Hb.
Qed.

Lemma one_section (l : list scnhdr) s : (length l ≤ 1)%nat → s ∈ l → l = [s].
Proof. destruct l as [|x [|]]; cbn; [by intros _ ?%elem_of_nil|by intros _ ->%list_elem_of_singleton|lia]. Qed.

Lemma in_segment_placed coff out s sg a :
  placed coff out s sg → 0 ≤ s_paddr s → 0 < s_size s → s_paddr s + s_size s < 2 ^ 31 →
  in_segment sg a = (s_paddr s <=? a) && (a <? s_paddr s + s_size s).
Proof. intros [Ha Hz _ _ _] H0 H1 H2. unfold in_segment. rewrite Ha, Hz, s32_small by (unfold is_s32; lia). done. Qed.

Lemma executable_page {M} `{FrameAllocSpec M} coff scns h sp (s : Sys (M := M)) sc p i :
  convertible coff scns → executable coff (content (files s) (file (stored_executable sp))) scns (int_header h) →
  sc ∈ sections_of Text scns ∨ sc ∈ sections_of Data scns →
  s_paddr sc ≤ Z.of_nat (128 * p) → (i < 128)%nat → Z.of_nat (128 * p + i) < s_paddr sc + s_size sc →
  first_bytes sp s (int_header h) p !! i = coff !! Z.to_nat (s_scnptr sc + (Z.of_nat (128 * p + i) - s_paddr sc)).
Proof.
  intros Hv [Ht Hd _ Ho] Hsc Hlo Hi Hhi. destruct (cv_bytes _ _ Hv sc Hsc) as (B1 & B2 & B3 & B4 & B5).
  unfold first_bytes, source. destruct Hsc as [Hsc|Hsc].
  - rewrite (one_section _ _ (cv_one _ _ Hv Text) Hsc) in Ht. cbn [holds_segment] in Ht.
    rewrite (in_segment_placed _ _ _ _ _ Ht) by done. rewrite (proj2 (Z.leb_le _ _)), ltb_true by lia. cbn [andb].
    by apply placed_page.
  - assert (in_segment (code (int_header h)) (Z.of_nat (128 * p)) = false) as ->.
    { destruct (sections_of Text scns) as [|t ts] eqn:E; cbn [holds_segment] in Ht.
      - unfold in_segment. rewrite Ht, Z.add_0_r. change (virtualAddr (code (int_header h))) with (s32 (virtualAddr (code h))).
        rewrite s32_idem. destruct (Z.leb_spec (s32 (virtualAddr (code h))) (Z.of_nat (128 * p))); [|done].
        cbn [andb]. by apply ltb_false.
      - assert (t ∈ sections_of Text scns) as Hin by (rewrite E; left).
        destruct (cv_bytes _ _ Hv t (or_introl Hin)) as (_ & T2 & _ & T4 & T5).
        rewrite (in_segment_placed _ _ _ _ _ Ht) by done. pose proof (cv_apart _ _ Hv t sc Hin Hsc) as Hap.
        destruct Hap; [rewrite ltb_false by lia; apply andb_false_r|]. by rewrite (proj2 (Z.leb_gt _ _)) by lia. }
    rewrite (one_section _ _ (cv_one _ _ Hv Data) Hsc) in Hd. cbn [holds_segment] in Hd.
    rewrite (in_segment_placed _ _ _ _ _ Hd) by done. rewrite (proj2 (Z.leb_le _ _)), ltb_true by lia. cbn [andb].
    by apply placed_page.
Qed.

(** C5: an object file with at most one text, one data and one bss section that are not empty is converted (status 0, the
    object file is left alone), on hosts of either byte order; the loader of AddrSpace reads a header with the
    addresses and sizes of the sections, and the first time a page that begins in the text or the data is touched, demand
    paging puts into it the bytes that the object file has for these addresses. *)
Theorem coff2noff_loads {M} `{FrameAllocSpec M} be junk coffName noffName u fi scns :
  names u !! coffName = Some fi → names u !! noffName ≠ Some fi → is_Some (inodes u !! fi) →
  Forall is_byte (content u fi) → object_sections (content u fi) = Some scns → convertible (content u fi) scns →
  ∃ u' exe h, main be junk [coffName; noffName] u = Ret (u', 0) ∧ content u' fi = content u fi ∧
    Open noffName u' = Ret (Some exe) ∧ executable (content u fi) (content u' (file exe)) scns h ∧
    ∀ (s : Sys (M := M)), files s = u' →
      (∀ old, length old = 40%nat → read_noff be exe old s = Ret h) ∧
      ∀ sp sc (p i : nat), stored_executable sp = exe → sc ∈ sections_of Text scns ∨ sc ∈ sections_of Data scns →
        s_paddr sc ≤ Z.of_nat (128 * p) → (i < 128)%nat → Z.of_nat (128 * p + i) < s_paddr sc + s_size sc →
        first_bytes sp s h p !! i = content u fi !! Z.to_nat (s_scnptr sc + (Z.of_nat (128 * p + i) - s_paddr sc)).
Proof.
  intros Hi Hn Hex Hb Ho Hv.
  destruct (main_ok be junk coffName noffName u fi scns Hi Hn Hex Hb Ho Hv) as (u' & fo & out & h & E & Hfo & Hfi & Hc & Hm & Hx).
  exists u', (mkOpenFile fo 0), (int_header h). split_and!; try done.
  - unfold Open, OpenForReadWrite. by rewrite Hfo.
  - intros s Hs. split.
    + intros old Hl. apply (read_noff_written be h fo old s out Hm Hl). by rewrite Hs.
    + intros sp sc p i Hsp. intros. apply (executable_page _ scns); try done. rewrite Hsp, Hs. exact Hx.
Qed.

(** *** Failure *)
Definition cleaned {A} (name : string) (r : Io * option A) : Prop :=
  match r with
  | (io, None) => names (unix io) !! name = None
  | (io, Some _) => noffFileName io = Some name
  end.

Lemma unlink_names name u : names (unlink (Some name) u) !! name = None.
Proof. cbn. unfold Unlink. destruct (names u !! name) eqn:E; [cbn; apply lookup_delete_eq|done]. Qed.

Lemma fail_cleaned {A} name io : noffFileName io = Some name → cleaned (A := A) name (fail io, None).
Proof. intros E. cbn. rewrite E. apply unlink_names. Qed.

Lemma Read_cleaned name n io : noffFileName io = Some name → cleaned name (Read n io).
Proof. intros E. unfold Read. case_match; [done|]. case_match; [done|by apply fail_cleaned]. Qed.

Lemma Write_cleaned name bs io : noffFileName io = Some name → cleaned name (Write bs io).
Proof. intros E. unfold Write. case_match; [done|by apply fail_cleaned]. Qed.

Lemma copy_segment_cleaned name s io : noffFileName io = Some name → cleaned name (copy_segment s io).
Proof.
  intros E. unfold copy_segment. assert (noffFileName (seek_in (s_scnptr s) io) = Some name) as E'
    by (unfold seek_in; by case_match). pose proof (Read_cleaned name (s_size s) _ E') as Hr.
  destruct (Read _ _) as [io' [bs|]]; [by apply Write_cleaned|done].
Qed.

Lemma section_step_cleaned name s io h n io' r : noffFileName io = Some name →
  section_step s (io, h, n) = Ret (io', r) → cleaned name (io', r).
Proof.
  intros E. unfold section_step. pose proof (copy_segment_cleaned name s io E) as Hc.
  pose proof (fail_cleaned (A := NoffHeader * Z) name io E) as Hf.
  destruct (copy_segment s io) as [io1 [[]|]]; repeat case_match; intros Er; inv_ret; repeat case_match; inv_ret; first [exact Hc|exact Hf|exact E].
Qed.

Lemma copy_sections_cleaned name scns : ∀ io h n io' r, noffFileName io = Some name →
  copy_sections scns (io, h, n) = Ret (io', r) → cleaned name (io', r).
Proof.
  induction scns as [|s scns IH]; intros io h n io' r E Er; cbn [copy_sections] in Er; [by injection Er as <- <-|].
  apply bind_Ret_inv in Er as ([io1 r1] & E1 & E2). pose proof (section_step_cleaned name s io h n io1 r1 E E1) as Hc.
  destruct r1 as [[h1 n1]|]; [by apply (IH io1 h1 n1)|by injection E2 as <- <-].
Qed.

Lemma read_headers_cleaned be name io : noffFileName io = Some name → cleaned name (read_headers be io).
Proof.
  intros E. unfold read_headers. pose proof (Read_cleaned name sizeof_filehdr io E) as H1.
  destruct (Read sizeof_filehdr io) as [io1 [bs1|]]; [|done]. case_match; [by apply fail_cleaned|].
  pose proof (Read_cleaned name sizeof_aouthdr io1 H1) as H2.
  destruct (Read sizeof_aouthdr io1) as [io2 [bs2|]]; [|done]. case_match; [by apply fail_cleaned|].
  match goal with |- context [Read ?n io2] => pose proof (Read_cleaned name n io2 H2) as H3; destruct (Read n io2) as [io3 [bs3|]]; done end.
Qed.

(** Status 1 leaves no file under the name of the output; there is no other status. *)
Lemma convert_status be junk name io u' c : noffFileName io = Some name →
  convert be junk io = Ret (u', c) → c = 0 ∨ c = 1 ∧ names u' !! name = None.
Proof.
  intros E. unfold convert. pose proof (read_headers_cleaned be name io E) as H1.
  destruct (read_headers be io) as [io1 [scns|]]; [|intros [= <- <-]; by right].
  intros ([io2 r] & E2 & E3)%bind_Ret_inv. apply (copy_sections_cleaned name) in E2; [|done].
  destruct r as [[h n]|]; [|injection E3 as <- <-; by right].
  pose proof (Write_cleaned name (noff_bytes be h) (seek_out 0 io2) E2) as H3.
  destruct (Write _ _) as [io3 [[]|]]; injection E3 as <- <-; [by left|by right].
Qed.

(** *** A small object file *)
Definition padded (name : string) : list Z :=
  take 8 (((λ a, Z.of_nat (Ascii.nat_of_ascii a)) <$> String.list_ascii_of_string name) ++ replicate 8 0).
Definition demo_scnhdr (name : string) (paddr size scnptr : Z) : list Z :=
  padded name ++ words_bytes [paddr; paddr; size; scnptr; 0; 0; 0; 0].
Definition demo_coff (sections : list (list Z)) (data : list Z) : list Z :=
  [98; 1; Z.of_nat (length sections); 0] ++ replicate 16 0 ++ [7; 1] ++ replicate 54 0 ++ mjoin sections ++ data.
Definition demo_object : list Z :=
  demo_coff [demo_scnhdr ".text" 0 160 196; demo_scnhdr ".data" 256 16 356; demo_scnhdr ".bss" 272 64 0]
    (seqZ 0 160 ++ replicate 16 99).
Definition demo_unix (object : list Z) : Unix := mkUnix {[ "prog.coff" := 0%nat ]} {[ 0%nat := object ]}.
Definition demo_scns : list scnhdr :=
  [mkScnhdr (padded ".text") 0 160 196; mkScnhdr (padded ".data") 256 16 356; mkScnhdr (padded ".bss") 272 64 0].
Definition demo_junk : NoffHeader := let sg := mkSegment 77 77 77 in mkNoff 77 sg sg sg.

Lemma demo_kinds : sections_of Text demo_scns = [mkScnhdr (padded ".text") 0 160 196] ∧
  sections_of Data demo_scns = [mkScnhdr (padded ".data") 256 16 356] ∧
  sections_of Bss demo_scns = [mkScnhdr (padded ".bss") 272 64 0].
Proof. vm_compute. done. Qed.

Lemma demo_convertible : convertible demo_object demo_scns.
Proof.
  destruct demo_kinds as (Et & Ed & _).
  assert (Z.of_nat (length demo_object) = 372) as El by (vm_compute; reflexivity).
  split.
  - rewrite El. lia.
  - vm_compute. reflexivity.
  - intros []; vm_compute; lia.
  - rewrite Et, Ed, El. intros s [->%list_elem_of_singleton | ->%list_elem_of_singleton]; cbn [s_scnptr s_size s_paddr]; lia.
  - rewrite Et, Ed. intros t d ->%list_elem_of_singleton ->%list_elem_of_singleton. left. cbn. lia.
Qed.

Lemma coff2noff_loads_witness :
  ∃ u' exe h, main true demo_junk ["prog.coff"; "prog"] (demo_unix demo_object) = Ret (u', 0) ∧
    Open "prog" u' = Ret (Some exe) ∧ size_ (code h) = 160 ∧ virtualAddr (uninitData h) = 272 ∧
    ∀ sp, stored_executable sp = exe →
      first_bytes sp (mkSys (Machine.Machine.Machine_new false None) (MemoryManager.mkMM 0 (BitMap.BitMap.mkBitMap 0 0 [])) u' 0 0 0) h 1 !! 3%nat = Some 131.
Proof.
  destruct (coff2noff_loads (M := MemoryManager.MemoryManager BitMap.BitMap.BitMap) true demo_junk "prog.coff" "prog" (demo_unix demo_object) 0 demo_scns)
    as (u' & exe & h & E & _ & Eo & [Ht _ Hb] & Hl); [reflexivity|discriminate|by eexists| | |apply demo_convertible|].
  - apply Forall_forall. intros x Hx. assert (forallb (λ x, (0 <=? x) && (x <? 256)) (content (demo_unix demo_object) 0) = true)
      as Hf by (vm_compute; reflexivity). rewrite forallb_forall in Hf. apply list_elem_of_In, Hf in Hx. unfold is_byte. lia.
  - vm_compute. reflexivity.
  - destruct demo_kinds as (Et & Ed & Eb). rewrite Et in Ht, Hl. rewrite Eb in Hb. destruct Hb as [Hb _].
    exists u', exe, h. split; [exact E|]. split; [exact Eo|]. split; [exact (pl_size _ _ _ _ Ht)|]. split; [exact Hb|].
    intros sp Hsp. match goal with |- first_bytes _ ?s _ _ !! _ = _ => destruct (Hl s eq_refl) as [_ Hp] end.
    rewrite (Hp sp (mkScnhdr (padded ".text") 0 160 196)); [vm_compute; reflexivity|done| |cbn; lia|lia|cbn; lia].
    left. by apply list_elem_of_singleton.
Defined.

(** Sections .bss and .sbss are refused when the one follows the other, and accepted when there is a gap: the
    test is the wrong way round. *)
Example bss_sbss_contiguous_refused :
  (main false demo_junk ["prog.coff"; "prog"] (demo_unix (demo_coff
     [demo_scnhdr ".text" 0 4 156; demo_scnhdr ".bss" 128 64 0] [1; 2; 3; 4])) ≫= λ r, Ret r.2) = Ret 0 ∧
  (main false demo_junk ["prog.coff"; "prog"] (demo_unix (demo_coff
     [demo_scnhdr ".sbss" 128 64 0; demo_scnhdr ".bss" 192 64 0] [])) ≫= λ r, Ret r.2) = Ret 1 ∧
  (main false demo_junk ["prog.coff"; "prog"] (demo_unix (demo_coff
     [demo_scnhdr ".sbss" 128 64 0; demo_scnhdr ".bss" 1024 64 0] [])) ≫= λ r, Ret r.2) = Ret 0.
Proof. vm_compute. done. Qed.

(** With a second .text the first is lost without a message. *)
Example second_text_wins :
  (main false demo_junk ["prog.coff"; "prog"] (demo_unix (demo_coff
     [demo_scnhdr ".text" 0 4 156; demo_scnhdr ".text" 4 4 160] [1; 2; 3; 4; 5; 6; 7; 8])) ≫=
     λ r, Ret (code (bytes_noff false (content r.1 1)), r.2)) = Ret (mkSegment 4 44 4, 0).
Proof. vm_compute. reflexivity. Qed.

End Coff2noff.
