(* ===== verification/Coff2flat.v ===== *)
(** * code/bin/coff2flat.c: flat memory images of object files

    The program writes the sections of an object file, but .bss and .sbss, one behind the other, and a blank word 1024 bytes
    behind the highest address.  The reads, the writes and the positions of the two files are those of [Coff2noff] (there is no
    file to remove when they fail, so [noffFileName] is [None]); the structures have the layout of coff.h and are read in the byte
    order of the host.  [flat_image] is what the program writes, and [coff2flat_image] when it is the memory of the program. *)

From S2P Require Import Prelude CInt Machine UnixFile Coff2noff.
From stdpp Require Import strings.
Import UnixFile.UnixFile Coff2noff.

Open Scope Z_scope.

Module Coff2flat.

Definition StackSize : Z := 1024.

Section host.
(** The byte order of the host. *)
Variable big_endian : bool.

Definition raw_filehdr (bs : list Z) : filehdr := mkFilehdr (field big_endian bs 0 2) (field big_endian bs 2 2).
Definition raw_aouthdr (bs : list Z) : aouthdr := mkAouthdr (s16 (field big_endian bs 0 2)).
Definition raw_scnhdr (bs : list Z) : scnhdr :=
  mkScnhdr (take 8 bs) (s32 (field big_endian bs 8 4)) (s32 (field big_endian bs 16 4)) (s32 (field big_endian bs 20 4)).
Fixpoint raw_scnhdrs (n : nat) (bs : list Z) : list scnhdr :=
  match n with
  | O => []
  | S n => raw_scnhdr (take sizeof_scnhdr bs) :: raw_scnhdrs n (drop sizeof_scnhdr bs)
  end.

(** The three [ReadStruct] and the checks; [None] is [exit(1)]. *)
Definition read_headers (io : Io) : Io * option (list scnhdr) :=
  match Read sizeof_filehdr io with
  | (io, None) => (io, None)
  | (io, Some bs) =>
      let fileh := raw_filehdr bs in
      if negb (f_magic fileh =? MIPSELMAGIC) then (fail io, None)
      else match Read sizeof_aouthdr io with
      | (io, None) => (io, None)
      | (io, Some bs) =>
          if negb (magic (raw_aouthdr bs) =? OMAGIC) then (fail io, None)
          else match Read (f_nscns fileh * Z.of_nat sizeof_scnhdr) io with
          | (io, None) => (io, None)
          | (io, Some bs) => (io, Some (raw_scnhdrs (Z.to_nat (f_nscns fileh)) bs))
          end
      end
  end.

Definition copied (s : scnhdr) : bool := negb (name_is (s_name s) ".bss") && negb (name_is (s_name s) ".sbss").

(** One round of the loop over the sections. *)
Definition section_step (s : scnhdr) (io : Io) (top : Z) : outcome (Io * option Z) :=
  last ← int_add (s_paddr s) (s_size s);
  let top := if top <? last then last else top in
  if copied s then
    match copy_segment s io with
    | (io, Some _) => Ret (io, Some top)
    | (io, None) => Ret (io, None)
    end
  else Ret (io, Some top).

Fixpoint copy_sections (sections : list scnhdr) (io : Io) (top : Z) : outcome (Io * option Z) :=
  match sections with
  | [] => Ret (io, Some top)
  | s :: sections =>
      '(io, r) ← section_step s io top;
      match r with Some top => copy_sections sections io top | None => Ret (io, None) end
  end.

Definition convert (io : Io) : outcome (Unix * Z) :=
  match read_headers io with
  | (io, None) => Ret (unix io, 1)
  | (io, Some sections) =>
      '(io, r) ← copy_sections sections io 0;
      match r with
      | None => Ret (unix io, 1)
      | Some top =>
          last ← int_add top (StackSize - 4);
          match Write [0; 0; 0; 0] (seek_out last io) with
          | (io, Some _) => Ret (unix io, 0)
          | (io, None) => Ret (unix io, 1)
          end
      end
  end.

(** [args] are the arguments behind the name of the program. *)
Definition main (args : list string) (u : Unix) : outcome (Unix * Z) :=
  match args with
  | [] => Ret (u, 1)
  | coffName :: rest =>
      match names u !! coffName with
      | None => Ret (u, 1)
      | Some fd =>
          match rest with
          | [] => convert (mkIo u fd 0 None 0 None)
          | flatName :: _ => let '(u, fdOut) := OpenForWrite flatName u in convert (mkIo u fd 0 (Some fdOut) 0 None)
          end
      end
  end.
End host.

(** *** What is written *)
Definition section_bytes (coff : list Z) (s : scnhdr) : list Z :=
  if copied s then slice coff (s_scnptr s) (s_size s) else [].
Definition top_of (scns : list scnhdr) : Z := foldr (λ s t, Z.max t (s_paddr s + s_size s)) 0 scns.
Definition flat_image (coff : list Z) (scns : list scnhdr) : list Z :=
  let bs := scns ≫= section_bytes coff in
  bs ++ replicate (Z.to_nat (top_of scns + StackSize) - length bs) 0.

(** Object files that can be converted: every section inside the file and the address space, and not so scattered that the
    sections overlap the blank word. *)
Record flattable (coff : list Z) (scns : list scnhdr) : Prop := {
  fl_addr s : s ∈ scns → 0 ≤ s_paddr s ∧ 0 ≤ s_size s ∧ s_paddr s + s_size s < 2 ^ 31 - 1024;
  fl_bytes s : s ∈ scns → copied s = true → 0 ≤ s_scnptr s ∧ s_scnptr s + s_size s ≤ Z.of_nat (length coff);
  fl_room : Z.of_nat (length (scns ≫= section_bytes coff)) ≤ top_of scns + StackSize - 4 }.

(** The sections that are copied follow each other in memory, from address [a] on. *)
Fixpoint contiguous (a : Z) (scns : list scnhdr) : Prop :=
  match scns with
  | [] => True
  | s :: scns => if copied s then s_paddr s = a ∧ contiguous (a + s_size s) scns else contiguous a scns
  end.

(** A little-endian host reads the headers as coff2noff.c does. *)
Lemma raw_scnhdrs_little n bs : raw_scnhdrs false n bs = bytes_scnhdrs false n bs.
Proof. revert bs. induction n as [|n IH]; intros bs; [done|]. cbn [raw_scnhdrs bytes_scnhdrs]. by rewrite IH. Qed.

Lemma read_headers_little io : read_headers false io = Coff2noff.read_headers false io.
Proof.
  unfold read_headers, Coff2noff.read_headers. destruct (Read sizeof_filehdr io) as [io1 [bs|]]; [|done].
  change (raw_filehdr false bs) with (bytes_filehdr false bs). cbn zeta. destruct (negb _); [done|].
  destruct (Read sizeof_aouthdr io1) as [io2 [bs2|]]; [|done].
  change (raw_aouthdr false bs2) with (bytes_aouthdr false bs2). destruct (negb _); [done|].
  destruct (Read _ io2) as [io3 [bs3|]]; [|done]. by rewrite raw_scnhdrs_little.
Qed.

(** A write at the end of a file, and behind it. *)
Lemma write_at_end bs file : write_at bs (length file) file = file ++ bs.
Proof.
  unfold write_at. rewrite Nat.sub_diag, app_nil_r, firstn_all, drop_ge by lia. by rewrite app_nil_r.
Qed.

Lemma write_blank n file : (length file ≤ n)%nat →
  write_at [0; 0; 0; 0] n file = file ++ replicate (n + 4 - length file) 0.
Proof.
  intros Hn. unfold write_at. rewrite take_ge by (rewrite length_app, length_replicate; lia).
  rewrite (drop_ge file) by (cbn; lia). rewrite app_nil_r, <- app_assoc. f_equal.
  change [0; 0; 0; 0] with (replicate 4 0). rewrite <- replicate_add. f_equal. lia.
Qed.

(** Between two sections: the flat file holds the sections so far. *)
Record flattening (coff : list Z) (fi fo : nat) (scns : list scnhdr) (io : Io) : Prop := {
  ft_in : fdIn io = fi;
  ft_coff : content (unix io) fi = coff;
  ft_out : fdOut io = Some fo;
  ft_bytes : content (unix io) fo = scns ≫= section_bytes coff;
  ft_pos : posOut io = Z.of_nat (length (content (unix io) fo)) }.

Lemma section_copied coff fi fo scns s io :
  flattening coff fi fo scns io → fo ≠ fi → 0 ≤ s_size s → 0 ≤ s_scnptr s → s_scnptr s + s_size s ≤ Z.of_nat (length coff) →
  copied s = true →
  ∃ io', copy_segment s io = (io', Some tt) ∧ flattening coff fi fo (scns ++ [s]) io' ∧ names (unix io') = names (unix io).
Proof.
  intros [C1 C2 C3 C4 C5] Hne Hs Hp Hl Hc. unfold copy_segment, seek_in. rewrite ltb_false by done. subst fi.
  rewrite Read_ok; [|cbn [with_in posIn unix fdIn]; rewrite ?C2; lia..]. cbn [with_in posIn unix fdIn]. rewrite C2.
  unfold Write. cbn [with_in fdOut unix posOut]. rewrite C3, C5. eexists. split; [reflexivity|].
  unfold WriteFile. rewrite Nat2Z.id, write_at_end. split; [|done].
  assert (section_bytes coff s = slice coff (s_scnptr s) (s_size s)) as E by (unfold section_bytes; by rewrite Hc).
  split; cbn [with_out with_in fdIn fdOut unix posOut noffFileName]; rewrite ?content_set;
    rewrite ?(decide_True (P := fo = fo)) by done; try done.
  - by rewrite decide_False.
  - by rewrite bind_app, <- C4, <- E; cbn; rewrite app_nil_r.
  - by rewrite length_app, Nat2Z.inj_add.
Qed.

Lemma section_step_ok coff fi fo scns s io top :
  flattening coff fi fo scns io → fo ≠ fi → 0 ≤ top →
  0 ≤ s_paddr s ∧ 0 ≤ s_size s ∧ s_paddr s + s_size s < 2 ^ 31 - 1024 →
  (copied s = true → 0 ≤ s_scnptr s ∧ s_scnptr s + s_size s ≤ Z.of_nat (length coff)) →
  ∃ io', section_step s io top = Ret (io', Some (Z.max top (s_paddr s + s_size s))) ∧
    flattening coff fi fo (scns ++ [s]) io' ∧ names (unix io') = names (unix io).
Proof.
  intros Hf Hne Ht (Ha & Hs & Hlt) Hb. unfold section_step, int_add.
  rewrite leb_true, ltb_true by lia. cbn [andb defined_if mbind outcome_bind].
  assert ((if top <? s_paddr s + s_size s then s_paddr s + s_size s else top) = Z.max top (s_paddr s + s_size s)) as ->
    by (destruct (Z.ltb_spec top (s_paddr s + s_size s)); lia).
  destruct (copied s) eqn:Hc.
  - destruct (Hb eq_refl) as [Hp Hl]. destruct (section_copied _ _ _ _ _ _ Hf Hne Hs Hp Hl Hc) as (io' & -> & Hf' & Hn).
    by exists io'.
  - exists io. split; [done|]. split; [|done]. destruct Hf as [C1 C2 C3 C4 C5]. split; try done.
    rewrite bind_app, <- C4. cbn. unfold section_bytes. by rewrite Hc, app_nil_r.
Qed.

Lemma flat_sections_ok coff fi fo rest : ∀ scns io top,
  flattening coff fi fo scns io → fo ≠ fi → 0 ≤ top →
  (∀ s, s ∈ rest → 0 ≤ s_paddr s ∧ 0 ≤ s_size s ∧ s_paddr s + s_size s < 2 ^ 31 - 1024) →
  (∀ s, s ∈ rest → copied s = true → 0 ≤ s_scnptr s ∧ s_scnptr s + s_size s ≤ Z.of_nat (length coff)) →
  ∃ io', copy_sections rest io top = Ret (io', Some (Z.max top (top_of rest))) ∧
    flattening coff fi fo (scns ++ rest) io' ∧ names (unix io') = names (unix io).
Proof.
  induction rest as [|s rest IH]; intros scns io top Hf Hne Ht Ha Hb.
  { exists io. rewrite app_nil_r. cbn. by rewrite Z.max_l. }
  destruct (section_step_ok coff fi fo scns s io top) as (io1 & E1 & Hf1 & Hn1); try done; [apply Ha; left|apply Hb; left|].
  destruct (IH (scns ++ [s]) io1 (Z.max top (s_paddr s + s_size s))) as (io' & E2 & Hf' & Hn'); try done;
    [lia|intros x Hx; apply Ha; by right|intros x Hx; apply Hb; by right|].
  exists io'. cbn [copy_sections]. rewrite E1. cbn [mbind outcome_bind]. rewrite E2. split_and!; [|by rewrite <- app_assoc in Hf'|congruence].
  cbn [top_of foldr]. fold (top_of rest). do 3 f_equal. lia.
Qed.

Lemma top_of_bounds scns b : (∀ s, s ∈ scns → s_paddr s + s_size s ≤ b) → 0 ≤ b → 0 ≤ top_of scns ≤ b.
Proof.
  intros Hs H0. induction scns as [|s scns IH]; [cbn; lia|]. cbn [top_of foldr]. fold (top_of scns).
  specialize (Hs s ltac:(left)) as H1. assert (∀ x, x ∈ scns → s_paddr x + s_size x ≤ b) as H2 by (intros x Hx; apply Hs; by right).
  specialize (IH H2). lia.
Qed.

Lemma convert_ok coff fi fo scns io :
  Forall is_byte coff → object_sections coff = Some scns → flattable coff scns → fo ≠ fi →
  fdIn io = fi → content (unix io) fi = coff → posIn io = 0 → fdOut io = Some fo → content (unix io) fo = [] → posOut io = 0 →
  ∃ u', convert false io = Ret (u', 0) ∧ content u' fi = coff ∧ content u' fo = flat_image coff scns ∧ names u' = names (unix io).
Proof.
  intros Hb Ho Hf Hne Hi Hc Hp Hfo Hout Hpo. subst fi. unfold convert. rewrite read_headers_little.
  pose proof (read_headers_ok false coff io Hb Hc Hp) as Hrd. rewrite Ho in Hrd. destruct Hrd as [pos ->].
  destruct (flat_sections_ok coff (fdIn io) fo scns [] (with_in pos io) 0) as (io' & -> & Hf' & Hn); try done; [|apply Hf..|].
  { split; try done. cbn. by rewrite Hout, Hpo. }
  cbn [mbind outcome_bind app] in *.
  pose proof (top_of_bounds scns (2 ^ 31 - 1024)) as Htop. specialize (Htop ltac:(intros s Hs; pose proof (fl_addr _ _ Hf s Hs); lia) ltac:(lia)).
  assert (top_of scns < 2 ^ 31 - 1024) as Hlt.
  { pose proof (top_of_bounds scns (2 ^ 31 - 1025)) as Ht.
    specialize (Ht ltac:(intros s Hs; pose proof (fl_addr _ _ Hf s Hs); lia) ltac:(lia)). lia. }
  rewrite Z.max_r by lia. unfold int_add, StackSize. rewrite leb_true, ltb_true by lia. cbn [andb defined_if mbind outcome_bind].
  unfold seek_out. rewrite ltb_false by lia. destruct Hf' as [C1 C2 C3 C4 C5]. unfold Write. cbn [fdOut with_out unix posOut].
  rewrite C3. eexists. split; [reflexivity|]. cbn [unix with_out]. unfold WriteFile. rewrite !content_set.
  rewrite (decide_False (P := fo = fdIn io)), (decide_True (P := fo = fo)) by done. split; [done|]. split; [|done].
  pose proof (fl_room _ _ Hf) as Hroom. unfold StackSize in Hroom. rewrite write_blank by (rewrite C4; lia). rewrite C4.
  unfold flat_image, StackSize. do 2 f_equal. lia.
Qed.

(** *** The image *)
Lemma slice_app_r x y k n : 0 ≤ k → slice (x ++ y) (Z.of_nat (length x) + k) n = slice y k n.
Proof.
  intros Hk. unfold slice. rewrite drop_app_ge by lia. do 2 f_equal. lia.
Qed.

Lemma slice_all x y n : Z.to_nat n = length x → slice (x ++ y) 0 n = x.
Proof. intros Hn. unfold slice. rewrite drop_0, Hn. by rewrite take_app_length. Qed.

Lemma section_bytes_length coff s :
  copied s = true → 0 ≤ s_size s → 0 ≤ s_scnptr s → s_scnptr s + s_size s ≤ Z.of_nat (length coff) →
  Z.of_nat (length (section_bytes coff s)) = s_size s.
Proof. intros Hc Hs Hp Hl. unfold section_bytes. rewrite Hc, slice_length by lia. lia. Qed.

Lemma contiguous_placed coff scns : ∀ a rest s,
  contiguous a scns → (∀ s, s ∈ scns → 0 ≤ s_size s) →
  (∀ s, s ∈ scns → copied s = true → 0 ≤ s_scnptr s ∧ s_scnptr s + s_size s ≤ Z.of_nat (length coff)) →
  s ∈ scns → copied s = true →
  a ≤ s_paddr s ∧ slice ((scns ≫= section_bytes coff) ++ rest) (s_paddr s - a) (s_size s) = slice coff (s_scnptr s) (s_size s).
Proof.
  induction scns as [|x scns IH]; intros a rest s Hct Hs Hb Hin Hc; [by apply elem_of_nil in Hin|].
  cbn [contiguous] in Hct. cbn [mbind list_bind] in *. rewrite <- app_assoc.
  assert (∀ y, y ∈ scns → 0 ≤ s_size y) as Hs' by (intros y Hy; apply Hs; by right).
  assert (∀ y, y ∈ scns → copied y = true → 0 ≤ s_scnptr y ∧ s_scnptr y + s_size y ≤ Z.of_nat (length coff)) as Hb'
    by (intros y Hy; apply Hb; by right).
  destruct (copied x) eqn:Hx.
  - destruct Hct as [Ha Hct]. destruct (Hb x ltac:(left) Hx) as [Hp Hl].
    pose proof (section_bytes_length coff x Hx (Hs x ltac:(left)) Hp Hl) as Hlen.
    apply elem_of_cons in Hin as [->|Hin].
    + split; [lia|]. rewrite Ha, Z.sub_diag. rewrite slice_all by lia. unfold section_bytes. by rewrite Hx.
    + destruct (IH (a + s_size x) rest s Hct Hs' Hb' Hin Hc) as [Hle E]. pose proof (Hs x ltac:(left)) as H0. split; [lia|].
      rewrite <- E, <- (slice_app_r (section_bytes coff x) _ (s_paddr s - (a + s_size x))) by lia. f_equal. rewrite Hlen. lia.
  - apply elem_of_cons in Hin as [->|Hin]; [congruence|].
    assert (section_bytes coff x = []) as -> by (unfold section_bytes; by rewrite Hx). by apply IH.
Qed.

Lemma flat_image_length coff scns : flattable coff scns → length (flat_image coff scns) = Z.to_nat (top_of scns + StackSize).
Proof. intros Hf. unfold flat_image. rewrite length_app, length_replicate. pose proof (fl_room _ _ Hf). lia. Qed.

(** Behind the sections, where .bss and the stack are, the image is zero. *)
Lemma flat_image_zero coff scns (j : nat) :
  (length (scns ≫= section_bytes coff) ≤ j < Z.to_nat (top_of scns + StackSize))%nat → flat_image coff scns !! j = Some 0.
Proof. intros Hj. unfold flat_image. rewrite lookup_app_r by lia. apply lookup_replicate. lia. Qed.

Lemma main_flat coffName flatName u fi scns :
  names u !! coffName = Some fi → names u !! flatName ≠ Some fi → is_Some (inodes u !! fi) →
  Forall is_byte (content u fi) → object_sections (content u fi) = Some scns → flattable (content u fi) scns →
  ∃ u' fo, main false [coffName; flatName] u = Ret (u', 0) ∧ names u' !! flatName = Some fo ∧ content u' fi = content u fi ∧
    content u' fo = flat_image (content u fi) scns.
Proof.
  intros Hi Hn Hex Hb Ho Hf. destruct (OpenForWrite_ok flatName fi u Hn Hex) as (u1 & fo & E1 & Hne & Hn1 & Hc1 & Hi1).
  destruct (convert_ok (content u fi) fi fo scns (mkIo u1 fi 0 (Some fo) 0 None)) as (u' & E & Hci & Hco & Hnm); try done.
  exists u', fo. unfold main. rewrite Hi, E1. split; [exact E|]. split; [by rewrite Hnm|]. done.
Qed.

(** A big-endian host does not know the magic number of the little-endian object files. *)
Lemma big_endian_refuses io :
  0 ≤ posIn io → posIn io + 20 ≤ Z.of_nat (length (content (unix io) (fdIn io))) →
  take 2 (drop (Z.to_nat (posIn io)) (content (unix io) (fdIn io))) = [0x62; 0x01] → (convert true io ≫= λ r, Ret r.2) = Ret 1.
Proof.
  intros Hp Hl Hm. unfold convert, read_headers, sizeof_filehdr. rewrite Read_ok by (done || lia).
  assert (f_magic (raw_filehdr true (slice (content (unix io) (fdIn io)) (posIn io) 20)) = 0x6201) as ->; [|done].
  unfold raw_filehdr, field, slice. cbn [f_magic]. rewrite drop_0, take_take. change (2 `min` Z.to_nat 20)%nat with 2%nat.
  rewrite Hm. done.
Qed.

(** on a little-endian host an object file whose sections lie in the file and the address space is converted (status 0, the
    object file is left alone): the flat file is the sections that are copied, one behind the other, and zeros up to 1024
    bytes behind the highest address.  When the sections follow each other in memory from address 0, it is the memory of the
    program: every section is at its address. *)
Theorem coff2flat_image coffName flatName u fi scns :
  names u !! coffName = Some fi → names u !! flatName ≠ Some fi → is_Some (inodes u !! fi) →
  Forall is_byte (content u fi) → object_sections (content u fi) = Some scns → flattable (content u fi) scns →
  ∃ u' fo, main false [coffName; flatName] u = Ret (u', 0) ∧ names u' !! flatName = Some fo ∧ content u' fi = content u fi ∧
    content u' fo = flat_image (content u fi) scns ∧ Z.of_nat (length (content u' fo)) = top_of scns + 1024 ∧
    (contiguous 0 scns → ∀ s, s ∈ scns → copied s = true →
       slice (content u' fo) (s_paddr s) (s_size s) = slice (content u fi) (s_scnptr s) (s_size s)).
Proof.
  intros Hi Hn Hex Hb Ho Hf. destruct (main_flat coffName flatName u fi scns Hi Hn Hex Hb Ho Hf) as (u' & fo & E & Hfo & Hfi & Hc).
  exists u', fo. rewrite Hc. rewrite flat_image_length by done. pose proof (fl_room _ _ Hf) as Hr. unfold StackSize in *.
  split_and!; try done; [lia|]. intros Hct s Hs Hcp. rewrite <- (Z.sub_0_r (s_paddr s)).
  eapply contiguous_placed; try done; [intros x Hx; by apply (fl_addr _ _ Hf x Hx)|apply Hf].
Qed.

Definition flat_object : list Z :=
  demo_coff [demo_scnhdr ".text" 0 160 196; demo_scnhdr ".data" 160 16 356; demo_scnhdr ".bss" 176 64 0]
    (seqZ 0 160 ++ replicate 16 99).
Definition flat_scns : list scnhdr :=
  [mkScnhdr (padded ".text") 0 160 196; mkScnhdr (padded ".data") 160 16 356; mkScnhdr (padded ".bss") 176 64 0].

Lemma flat_flattable : flattable flat_object flat_scns.
Proof.
  assert (Z.of_nat (length flat_object) = 372) as El by (vm_compute; reflexivity).
  split.
  - intros s Hs. unfold flat_scns in Hs. rewrite !elem_of_cons, elem_of_nil in Hs.
    destruct_or! Hs; try (by destruct Hs); subst s; cbn; lia.
  - rewrite El. intros s Hs Hc. unfold flat_scns in Hs. rewrite !elem_of_cons, elem_of_nil in Hs.
    destruct_or! Hs; try (by destruct Hs); subst s; cbn [s_scnptr s_size]; lia.
  - vm_compute. done.
Qed.

Lemma coff2flat_image_witness :
  ∃ u' fo, main false ["prog.coff"; "prog"] (demo_unix flat_object) = Ret (u', 0) ∧ names u' !! "prog" = Some fo ∧
    Z.of_nat (length (content u' fo)) = 1264 ∧ slice (content u' fo) 160 16 = replicate 16 99.
Proof.
  destruct (coff2flat_image "prog.coff" "prog" (demo_unix flat_object) 0 flat_scns)
    as (u' & fo & E & Hn & _ & _ & Hl & Hp); [reflexivity|discriminate|by eexists| | |apply flat_flattable|].
  - apply Forall_forall. intros x Hx. assert (forallb (λ x, (0 <=? x) && (x <? 256)) (content (demo_unix flat_object) 0) = true)
      as Hf by (vm_compute; reflexivity). rewrite forallb_forall in Hf. apply list_elem_of_In, Hf in Hx. unfold is_byte. lia.
  - vm_compute. reflexivity.
  - exists u', fo. split; [exact E|]. split; [exact Hn|]. split; [exact Hl|].
    assert (contiguous 0 flat_scns) as Hc by (vm_compute; done).
    specialize (Hp Hc (mkScnhdr (padded ".data") 160 16 356) ltac:(right; left) eq_refl). exact Hp.
Defined.

(** A section that does not follow the one before is written at the wrong place: here .data has the address 256 and begins at 160
    in the flat file. *)
Example gap_misplaces_data :
  (main false ["prog.coff"; "prog"] (demo_unix demo_object) ≫= λ r,
     Ret (slice (content r.1 1) 160 16, slice (content r.1 1) 256 16, r.2)) = Ret (replicate 16 99, replicate 16 0, 0).
Proof. vm_compute. reflexivity. Qed.

End Coff2flat.
