(* ===== verification/Execute.v ===== *)
(** * code/bin/instr.h, encode.h, int.h, execute.c, system.c: the other MIPS interpreter

    execute.c interprets the program of an object file in a flat memory of 16 megabytes that begins at [memoffset], without
    delayed loads and without a kernel: its system calls go to UNIX, which is a parameter here ([host]).  [runprogram] is
    its loop.  Integers are ints that wrap around, as on the compilers it was written for; a shift by more than 31, a
    division by zero and an address outside the memory are [Undefined].  The second part compares
    it with the processor of the kernel ([Mips]), instruction by instruction, registers and memory. *)

From S2P Require Import Prelude CInt Machine Mips Registers.
From Stdlib Require Import Bool.
Import Machine.Machine Mips.Mips Registers.Registers.

Open Scope Z_scope.

(** *** instr.h, encode.h *)
Module Instr.

Definition rd (i : Z) : Z := Z.land (Z.shiftr i 11) 0x1f.
Definition rt (i : Z) : Z := Z.land (Z.shiftr i 16) 0x1f.
Definition rs (i : Z) : Z := Z.land (Z.shiftr i 21) 0x1f.
Definition shamt (i : Z) : Z := Z.land (Z.shiftr i 6) 0x1f.
Definition immed (i : Z) : Z :=
  if negb (Z.land i 0x8000 =? 0) then Z.lor i (- 0x8000) else Z.land i 0x7fff.
Definition off26 (i : Z) : Z := s32 (Z.shiftl (Z.land i (Z.shiftl 1 26 - 1)) 2).
Definition top4 (i : Z) : Z := Z.land i (Z.lnot (Z.shiftl 1 28 - 1)).
Definition off16 (i : Z) : Z := s32 (Z.shiftl (immed i) 2).

Definition I_SPECIAL : Z := 0.
Definition I_BCOND : Z := 1.
Definition I_J : Z := 2.
Definition I_JAL : Z := 3.
Definition I_BEQ : Z := 4.
Definition I_BNE : Z := 5.
Definition I_BLEZ : Z := 6.
Definition I_BGTZ : Z := 7.
Definition I_ADDI : Z := 8.
Definition I_ADDIU : Z := 9.
Definition I_SLTI : Z := 10.
Definition I_SLTIU : Z := 11.
Definition I_ANDI : Z := 12.
Definition I_ORI : Z := 13.
Definition I_XORI : Z := 14.
Definition I_LUI : Z := 15.
Definition I_COP0 : Z := 16.
Definition I_COP1 : Z := 17.
Definition I_COP2 : Z := 18.
Definition I_COP3 : Z := 19.
Definition I_LB : Z := 32.
Definition I_LH : Z := 33.
Definition I_LWL : Z := 34.
Definition I_LW : Z := 35.
Definition I_LBU : Z := 36.
Definition I_LHU : Z := 37.
Definition I_LWR : Z := 38.
Definition I_SB : Z := 40.
Definition I_SH : Z := 41.
Definition I_SWL : Z := 42.
Definition I_SW : Z := 43.
Definition I_SWR : Z := 46.
Definition I_LWC0 : Z := 48.
Definition I_LWC1 : Z := 49.
Definition I_LWC2 : Z := 50.
Definition I_LWC3 : Z := 51.
Definition I_SWC0 : Z := 56.
Definition I_SWC1 : Z := 57.
Definition I_SWC2 : Z := 58.
Definition I_SWC3 : Z := 59.
Definition I_SLL : Z := 0.
Definition I_SRL : Z := 2.
Definition I_SRA : Z := 3.
Definition I_SLLV : Z := 4.
Definition I_SRLV : Z := 6.
Definition I_SRAV : Z := 7.
Definition I_JR : Z := 8.
Definition I_JALR : Z := 9.
Definition I_SYSCALL : Z := 12.
Definition I_BREAK : Z := 13.
Definition I_MFHI : Z := 16.
Definition I_MTHI : Z := 17.
Definition I_MFLO : Z := 18.
Definition I_MTLO : Z := 19.
Definition I_MULT : Z := 24.
Definition I_MULTU : Z := 25.
Definition I_DIV : Z := 26.
Definition I_DIVU : Z := 27.
Definition I_ADD : Z := 32.
Definition I_ADDU : Z := 33.
Definition I_SUB : Z := 34.
Definition I_SUBU : Z := 35.
Definition I_AND : Z := 36.
Definition I_OR : Z := 37.
Definition I_XOR : Z := 38.
Definition I_NOR : Z := 39.
Definition I_SLT : Z := 42.
Definition I_SLTU : Z := 43.
Definition I_BLTZ : Z := 0.
Definition I_BGEZ : Z := 1.
Definition I_BLTZAL : Z := 16.
Definition I_BGEZAL : Z := 17.
Definition I_NOP : Z := 0.

End Instr.

Module Execute.
Import Instr.

(** *** int.h *)
Definition MEMSIZE : Z := 2 ^ 24.
Definition memoffset : Z := 0x10000000.

(** The registers and the memory of the interpreted program; bytes that were never written are zero.  [pc] and [npc]
    are the local variables of [runprogram]. *)
Record Cpu := mkCpu { Reg : list Z; HI : Z; LO : Z; mem : gmap Z Z; pc : Z; npc : Z }.

Definition with_reg (r : list Z) (c : Cpu) : Cpu := mkCpu r (HI c) (LO c) (mem c) (pc c) (npc c).
Definition with_hilo (h l : Z) (c : Cpu) : Cpu := mkCpu (Reg c) h l (mem c) (pc c) (npc c).
Definition with_mem (m : gmap Z Z) (c : Cpu) : Cpu := mkCpu (Reg c) (HI c) (LO c) m (pc c) (npc c).
Definition with_pc (p n : Z) (c : Cpu) : Cpu := mkCpu (Reg c) (HI c) (LO c) (mem c) p n.

Definition get (c : Cpu) (r : Z) : outcome Z := Prelude.rd (Reg c) r.
Definition set (c : Cpu) (r v : Z) : outcome Cpu := l ← wr (Reg c) r v; Ret (with_reg l c).

Definition in_memory (addr n : Z) : bool := (memoffset <=? addr) && (addr + n <=? memoffset + MEMSIZE).

Definition bytes_at (c : Cpu) (addr n : Z) : outcome (list Z) :=
  defined_if (in_memory addr n);;
  Ret ((λ k, default 0 (mem c !! (addr + k))) <$> seqZ 0 n).
Definition store_bytes_at (addr : Z) (bs : list Z) (c : Cpu) : outcome Cpu :=
  defined_if (in_memory addr (Z.of_nat (length bs)));;
  Ret (with_mem (list_to_map (imap (λ k b, (addr + Z.of_nat k, b)) bs) ∪ mem c) c).

Definition s16 (z : Z) : Z := (z + 2 ^ 15) mod 2 ^ 16 - 2 ^ 15.

Definition fetch (c : Cpu) (addr : Z) : outcome Z := bs ← bytes_at c addr 4; Ret (s32 (le_value bs)).
Definition ifetch (c : Cpu) (addr : Z) : outcome Z := fetch c addr.
Definition sfetch (c : Cpu) (addr : Z) : outcome Z := bs ← bytes_at c addr 2; Ret (s16 (le_value bs)).
Definition usfetch (c : Cpu) (addr : Z) : outcome Z := bs ← bytes_at c addr 2; Ret (le_value bs).
Definition cfetch (c : Cpu) (addr : Z) : outcome Z := bs ← bytes_at c addr 1; Ret (s8 (le_value bs)).
Definition ucfetch (c : Cpu) (addr : Z) : outcome Z := bs ← bytes_at c addr 1; Ret (le_value bs).
Definition store (addr i : Z) (c : Cpu) : outcome Cpu := store_bytes_at addr (le_bytes 4 i) c.
Definition sstore (addr i : Z) (c : Cpu) : outcome Cpu := store_bytes_at addr (le_bytes 2 i) c.
Definition cstore (addr i : Z) (c : Cpu) : outcome Cpu := store_bytes_at addr (le_bytes 1 i) c.

(** An instruction goes on with the next one, or the program exits with a status. *)
Inductive result := Next (c : Cpu) | Exit (status : Z).

(** [u()]: an unimplemented instruction. *)
Definition u : result := Exit 2.

Section interpreter.
(** A system call of UNIX on the memory of the program: its number, its arguments, the memory afterwards and the result. *)
Variable host : Z → Z → Z → Z → gmap Z Z → outcome (gmap Z Z * Z).

(** *** system.c *)
Definition SYS_exit : Z := 1.
Definition SYS_read : Z := 3.
Definition SYS_write : Z := 4.
Definition SYS_open : Z := 5.
Definition SYS_close : Z := 6.
Definition SYS_lseek : Z := 19.
Definition SYS_ioctl : Z := 54.
Definition SYS_fstat : Z := 62.
Definition SYS_getpagesize : Z := 64.

(** The size of the parameter of an ioctl of group 't' is 6 where the program says 8. *)
Definition ioctl_request (o1 : Z) : Z :=
  let size := Z.land (Z.shiftr o1 16) 0x7f in
  if (Z.land (Z.shiftr o1 8) 0xff =? 116) && (size =? 8)
  then Z.lor (Z.land o1 (Z.lnot (Z.shiftl 0x7f 16))) (Z.shiftl 6 16) else o1.

Definition call_host (n o0 o1 o2 : Z) (c : Cpu) : outcome Cpu :=
  '(m, r) ← host n o0 o1 o2 (mem c); set (with_mem m c) 1 (s32 r).

Definition system_trap (c : Cpu) : outcome result :=
  syscallno ← get c 2; o0 ← get c 4; o1 ← get c 5; o2 ← get c 6;
  if syscallno =? SYS_exit then Ret (Exit 0)
  else if syscallno =? SYS_read then c ← call_host SYS_read o0 o1 o2 c; Ret (Next c)
  else if syscallno =? SYS_write then c ← call_host SYS_write o0 o1 o2 c; Ret (Next c)
  else if syscallno =? SYS_open then c ← call_host SYS_open o0 o1 o2 c; Ret (Next c)
  else if syscallno =? SYS_close then c ← set c 1 0; Ret (Next c)
  else if syscallno =? 17 then c ← set c 1 (s32 ((o0 `quot` 8192 + 1) * 8192)); Ret (Next c)
  else if syscallno =? SYS_lseek then c ← call_host SYS_lseek o0 o1 o2 c; Ret (Next c)
  else if syscallno =? SYS_ioctl then c ← call_host SYS_ioctl o0 (ioctl_request o1) o2 c; c ← set c 1 0; Ret (Next c)
  else if syscallno =? SYS_fstat then c ← call_host SYS_fstat o1 o2 0 c; Ret (Next c)
  else if syscallno =? SYS_getpagesize then c ← call_host SYS_getpagesize 0 0 0 c; Ret (Next c)
  else Ret (Exit 2).

Definition system_break (c : Cpu) : outcome result := system_trap c.

(** *** execute.c *)

(** [Reg[r] = v; break;] and [npc = target; break;] *)
Definition assign (r v : Z) (c : Cpu) : outcome result := c ← set c r v; Ret (Next c).
Definition jump (target : Z) (c : Cpu) : outcome result := Ret (Next (with_pc (pc c) target c)).

(** The high word as I_MULT and I_MULTU put it together. *)
Definition high_word (t1 t2 : Z) : Z :=
  let t1l := Z.land t1 0xffff in
  let t1h := Z.land (Z.shiftr t1 16) 0xffff in
  let t2l := Z.land t2 0xffff in
  let t2h := Z.land (Z.shiftr t2 16) 0xffff in
  s32 (s32 (t1h * t2h) + Z.shiftr (s32 (t1h * t2l)) 16 + Z.shiftr (s32 (t2h * t1l)) 16).

Definition mult (t1 t2 : Z) : Z * Z :=
  let '(t1, neg) := if t1 <? 0 then (s32 (- t1), true) else (t1, false) in
  let '(t2, neg) := if t2 <? 0 then (s32 (- t2), negb neg) else (t2, neg) in
  let lo := s32 (t1 * t2) in
  let hi := high_word t1 t2 in
  if neg then
    let lo := s32 (Z.lnot lo + 1) in
    let hi := Z.lnot hi in
    (if lo =? 0 then s32 (hi + 1) else hi, lo)
  else (hi, lo).

Definition multu (t1 t2 : Z) : Z * Z := (high_word t1 t2, s32 (t1 * t2)).

(** A shift by a register. *)
Definition shift_count (n : Z) : outcome Z := defined_if (in_range n 32);; Ret n.

Definition bool_int (b : bool) : Z := if b then 1 else 0.

(** case I_SPECIAL; [xpc] is the address of the instruction. *)
Definition special (instr xpc : Z) (c : Cpu) : outcome result :=
  let op := Z.land instr 0x3f in
  a ← get c (rs instr);
  b ← get c (rt instr);
  if op =? I_SLL then assign (rd instr) (s32 (Z.shiftl b (shamt instr))) c
  else if op =? I_SRL then assign (rd instr) (s32 (Z.shiftr (u32 b) (shamt instr))) c
  else if op =? I_SRA then assign (rd instr) (Z.shiftr b (shamt instr)) c
  else if op =? I_SLLV then n ← shift_count a; assign (rd instr) (s32 (Z.shiftl b n)) c
  else if op =? I_SRLV then n ← shift_count a; assign (rd instr) (s32 (Z.shiftr (u32 b) n)) c
  else if op =? I_SRAV then n ← shift_count a; assign (rd instr) (Z.shiftr b n) c
  else if op =? I_JR then jump a c
  else if op =? I_JALR then c ← set (with_pc (pc c) a c) (rd instr) (s32 (xpc + 8)); Ret (Next c)
  else if op =? I_SYSCALL then system_trap c
  else if op =? I_BREAK then system_break c
  else if op =? I_MFHI then assign (rd instr) (HI c) c
  else if op =? I_MTHI then Ret (Next (with_hilo a (LO c) c))
  else if op =? I_MFLO then assign (rd instr) (LO c) c
  else if op =? I_MTLO then Ret (Next (with_hilo (HI c) a c))
  else if op =? I_MULT then let '(h, l) := mult a b in Ret (Next (with_hilo h l c))
  else if op =? I_MULTU then let '(h, l) := multu a b in Ret (Next (with_hilo h l c))
  else if op =? I_DIV then
    defined_if (negb (b =? 0) && negb ((a =? - 2 ^ 31) && (b =? -1)));;
    Ret (Next (with_hilo (a `rem` b) (a `quot` b) c))
  else if op =? I_DIVU then
    defined_if (negb (b =? 0));;
    Ret (Next (with_hilo (s32 (u32 a mod u32 b)) (s32 (u32 a / u32 b)) c))
  else if (op =? I_ADD) || (op =? I_ADDU) then assign (rd instr) (s32 (a + b)) c
  else if (op =? I_SUB) || (op =? I_SUBU) then assign (rd instr) (s32 (a - b)) c
  else if op =? I_AND then assign (rd instr) (Z.land a b) c
  else if op =? I_OR then assign (rd instr) (Z.lor a b) c
  else if op =? I_XOR then assign (rd instr) (Z.lxor a b) c
  else if op =? I_NOR then assign (rd instr) (Z.lnot (Z.lor a b)) c
  else if op =? I_SLT then assign (rd instr) (bool_int (a <? b)) c
  else if op =? I_SLTU then assign (rd instr) (bool_int (u32 a <? u32 b)) c
  else Ret u.

Definition branch_target (instr xpc : Z) : Z := s32 (xpc + 4 + s32 (Z.shiftl (immed instr) 2)).
Definition branch (taken : bool) (instr xpc : Z) (c : Cpu) : outcome result :=
  if taken then jump (branch_target instr xpc) c else Ret (Next c).

(** case I_BCOND *)
Definition bcond (instr xpc : Z) (c : Cpu) : outcome result :=
  let op := rt instr in
  if op =? I_BLTZ then a ← get c (rs instr); branch (a <? 0) instr xpc c
  else if op =? I_BGEZ then a ← get c (rs instr); branch (0 <=? a) instr xpc c
  else if op =? I_BLTZAL then c ← set c 31 (s32 (xpc + 8)); a ← get c (rs instr); branch (a <? 0) instr xpc c
  else if op =? I_BGEZAL then c ← set c 31 (s32 (xpc + 8)); a ← get c (rs instr); branch (0 <=? a) instr xpc c
  else Ret u.

Definition region_jump (instr xpc : Z) : Z :=
  s32 (Z.lor (Z.land (u32 xpc) 0xf0000000) (Z.shiftl (Z.land instr 0x03ffffff) 2)).

(** I_J ... I_LUI *)
Definition immediate (instr xpc : Z) (c : Cpu) : outcome result :=
  let op := Z.land (Z.shiftr instr 26) 0x3f in
  a ← get c (rs instr);
  b ← get c (rt instr);
  if op =? I_J then jump (region_jump instr xpc) c
  else if op =? I_JAL then c ← set c 31 (s32 (xpc + 8)); jump (region_jump instr xpc) c
  else if op =? I_BEQ then branch (a =? b) instr xpc c
  else if op =? I_BNE then branch (negb (a =? b)) instr xpc c
  else if op =? I_BLEZ then branch (a <=? 0) instr xpc c
  else if op =? I_BGTZ then branch (0 <? a) instr xpc c
  else if (op =? I_ADDI) || (op =? I_ADDIU) then assign (rt instr) (s32 (a + immed instr)) c
  else if op =? I_SLTI then assign (rt instr) (bool_int (a <? immed instr)) c
  else if op =? I_SLTIU then assign (rt instr) (bool_int (u32 a <? u32 (immed instr))) c
  else if op =? I_ANDI then assign (rt instr) (Z.land a (immed instr)) c
  else if op =? I_ORI then assign (rt instr) (Z.lor a (immed instr)) c
  else if op =? I_XORI then assign (rt instr) (Z.lxor a (immed instr)) c
  else if op =? I_LUI then assign (rt instr) (s32 (Z.shiftl instr 16)) c
  else Ret u.

(** I_LB ... I_SWR *)
Definition access (instr : Z) (c : Cpu) : outcome result :=
  let op := Z.land (Z.shiftr instr 26) 0x3f in
  a ← get c (rs instr);
  b ← get c (rt instr);
  let i := s32 (a + immed instr) in
  if op =? I_LB then v ← cfetch c i; assign (rt instr) v c
  else if op =? I_LH then v ← sfetch c i; assign (rt instr) v c
  else if op =? I_LWL then
    let b := Z.land b (Z.shiftr (-1) (8 * Z.land (- i) 0x03)) in
    v ← fetch c (Z.land (u32 i) 0xfffffffc);
    assign (rt instr) (Z.lor b (s32 (Z.shiftl v (8 * Z.land i 0x03)))) c
  else if op =? I_LW then v ← fetch c i; assign (rt instr) v c
  else if op =? I_LBU then v ← ucfetch c i; assign (rt instr) v c
  else if op =? I_LHU then v ← usfetch c i; assign (rt instr) v c
  else if op =? I_LWR then
    let b := Z.land b (s32 (Z.shiftl (-1) (8 * Z.land i 0x03))) in
    let b := if Z.land i 0x03 =? 0 then 0 else b in
    v ← fetch c (Z.land (u32 i) 0xfffffffc);
    assign (rt instr) (Z.lor b (Z.shiftr v (8 * Z.land (- i) 0x03))) c
  else if op =? I_SB then c ← cstore i b c; Ret (Next c)
  else if op =? I_SH then c ← sstore i b c; Ret (Next c)
  else if op =? I_SW then c ← store i b c; Ret (Next c)
  else Ret u.

(** The [switch] on the opcode; the coprocessor instructions, SWL, SWR and unknown ones end the program with status 2. *)
Definition execute_instr (instr xpc : Z) (c : Cpu) : outcome result :=
  let op := Z.land (Z.shiftr instr 26) 0x3f in
  if op =? I_SPECIAL then special instr xpc c
  else if op =? I_BCOND then bcond instr xpc c
  else if op <=? I_LUI then immediate instr xpc c
  else access instr c.

(** One round of the endless loop. *)
Definition run_one (c : Cpu) : outcome result :=
  let xpc := pc c in
  let c := with_pc (npc c) (s32 (npc c + 4)) c in
  instr ← ifetch c xpc;
  c ← set c 0 0;
  if negb (instr =? 0) then execute_instr instr xpc c else Ret (Next c).

(** [fuel] rounds; [Next] when the program is still running. *)
Fixpoint run_loop (fuel : nat) (c : Cpu) : outcome result :=
  match fuel with
  | O => Ret (Next c)
  | S fuel =>
      r ← run_one c;
      match r with Next c => run_loop fuel c | Exit n => Ret (Exit n) end
  end.

(** The arguments on the stack: their addresses from [aci] on, the strings, ended by NUL, from [ai] on. *)
Fixpoint push_args (argv : list (list Z)) (aci ai : Z) (c : Cpu) : outcome Cpu :=
  match argv with
  | [] => Ret c
  | s :: argv =>
      c ← store_bytes_at ai (s ++ [0]) c;
      c ← store aci ai c;
      push_args argv (aci + 4) (ai + Z.of_nat (length s) + 1) c
  end.

Definition initial_sp : Z := MEMSIZE - 1024 + memoffset.

Definition runprogram (fuel : nat) (startpc : Z) (argv : list (list Z)) (c : Cpu) : outcome result :=
  let c := with_pc startpc (s32 (startpc + 4)) c in
  c ← set c 29 initial_sp;
  c ← store initial_sp (Z.of_nat (length argv)) c;
  let aci := initial_sp + 4 in
  let ai := aci + 32 in
  c ← push_args argv aci ai c;
  run_loop fuel c.
End interpreter.

(** One test of [ilog2]: the half of the bits that [mask] selects. *)
Definition ilog2_step (mask width : Z) (s : Z * Z) : Z * Z :=
  let '(i, l) := s in
  let j := s32 (Z.land (u32 i) mask) in
  if negb (j =? 0) then (j, l + width) else (i, l).
Definition ilog2 (i : Z) : Z :=
  if i =? 0 then 0
  else (ilog2_step 0xaaaaaaaa 1 (ilog2_step 0xcccccccc 2 (ilog2_step 0xf0f0f0f0 4
         (ilog2_step 0xff00ff00 8 (ilog2_step 0xffff0000 16 (i, 1)))))).2.

(** *** The fields, as [Decode] finds them *)
Lemma field_u32 w n k : 0 ≤ n → 0 ≤ k → n + k ≤ 32 →
  Z.land (Z.shiftr (u32 w) n) (Z.ones k) = Z.land (Z.shiftr w n) (Z.ones k).
Proof.
  intros Hn Hk Hs. apply Z.bits_inj'. intros i Hi. rewrite !Z.land_spec, !Z.shiftr_spec, Z.testbit_ones_nonneg by lia.
  destruct (Z.ltb_spec i k); [|by rewrite !andb_false_r]. rewrite testbit_u32, ltb_true by lia. done.
Qed.

Lemma low_u32 w k : 0 ≤ k ≤ 32 → Z.land (u32 w) (Z.ones k) = Z.land w (Z.ones k).
Proof. intros Hk. pose proof (field_u32 w 0 k) as H. rewrite !Z.shiftr_0_r in H. apply H; lia. Qed.

Lemma rs_u32 w : Z.land (Z.shiftr (u32 w) 21) 0x1f = rs w.
Proof. by apply (field_u32 w 21 5). Qed.
Lemma rt_u32 w : Z.land (Z.shiftr (u32 w) 16) 0x1f = rt w.
Proof. by apply (field_u32 w 16 5). Qed.
Lemma rd_u32 w : Z.land (Z.shiftr (u32 w) 11) 0x1f = rd w.
Proof. by apply (field_u32 w 11 5). Qed.
Lemma shamt_u32 w : Z.land (Z.shiftr (u32 w) 6) 0x1f = shamt w.
Proof. by apply (field_u32 w 6 5). Qed.
Lemma op_u32 w : Z.land (Z.shiftr (u32 w) 26) 0x3f = Z.land (Z.shiftr w 26) 0x3f.
Proof. by apply (field_u32 w 26 6). Qed.
Lemma funct_u32 w : Z.land (u32 w) 0x3f = Z.land w 0x3f.
Proof. by apply (low_u32 w 6). Qed.
Lemma target_u32 w : Z.land (u32 w) 0x3ffffff = Z.land w 0x3ffffff.
Proof. by apply (low_u32 w 26). Qed.

Lemma field_range i n : 0 ≤ Z.land (Z.shiftr i n) 0x1f < 32.
Proof. apply (land_mask_range (Z.shiftr i n) 5). lia. Qed.

(** Both sign extensions of the low 16 bits. *)
Lemma immed_s16 w : immed w = s16 w.
Proof.
  unfold immed, s16. change 0x8000 with (2 ^ 15). rewrite land_pow2_zero, negb_involutive by lia.
  rewrite Z.testbit_eqb by lia. change 0x7fff with (Z.ones 15). rewrite Z.land_ones by lia.
  change (-32768) with (Z.shiftl (-1) 15).
  assert (Z.lor w (Z.shiftl (-1) 15) = w mod 2 ^ 15 - 2 ^ 15) as ->.
  { rewrite <- Z.land_ones by lia.
    assert (Z.lor w (Z.shiftl (-1) 15) = Z.lor (Z.land w (Z.ones 15)) (Z.shiftl (-1) 15)) as ->.
    { apply Z.bits_inj'. intros i Hi. rewrite !Z.lor_spec, Z.land_spec, Z.testbit_ones_nonneg by lia.
      destruct (Z.ltb_spec i 15); [by rewrite andb_true_r|]. rewrite Z.shiftl_spec, Z.bits_m1 by lia.
      by rewrite !orb_true_r. }
    rewrite <- Z.add_nocarry_lor; [done|]. apply Z.bits_inj'. intros i Hi.
    rewrite !Z.land_spec, Z.bits_0, Z.testbit_ones_nonneg by lia. destruct (Z.ltb_spec i 15); [|by rewrite andb_false_r].
    rewrite Z.shiftl_spec_low by lia. by rewrite andb_false_r. }
  destruct (Z.eqb_spec ((w / 2 ^ 15) mod 2) 1); Z.div_mod_to_equations; lia.
Qed.

Lemma extra_u32 w :
  (if negb (Z.land (Z.land (u32 w) 0xffff) 0x8000 =? 0) then s32 (Z.lor (Z.land (u32 w) 0xffff) 0xffff0000)
   else Z.land (u32 w) 0xffff) = immed w.
Proof.
  rewrite immed_s16. change 0xffff with (Z.ones 16). rewrite (low_u32 w 16) by lia. rewrite Z.land_ones by lia.
  assert (- 2 ^ 15 ≤ s16 w < 2 ^ 15) as Hs by (unfold s16; Z.div_mod_to_equations; lia).
  assert (w mod 2 ^ 16 = s16 w mod 2 ^ 16) as -> by (unfold s16; Z.div_mod_to_equations; lia).
  by apply sign_extend_16.
Qed.

(** [Decode] on the words of the four formats. *)
Lemma decode_special w f op :
  Z.land (Z.shiftr w 26) 0x3f = 0 → Z.land w 0x3f = f → Prelude.rd specialTable f = Ret op →
  Decode (u32 w) = Ret (mkInstr (u32 w) op (rs w) (rt w) (rd w) (shamt w)).
Proof.
  intros H0 Hf Ho. unfold Decode. rewrite rs_u32, rt_u32, rd_u32, shamt_u32, op_u32, funct_u32, H0, Hf.
  change (Prelude.rd opTable 0) with (Ret (mkOpInfo SPECIAL RFMT)). cbn [mbind outcome_bind info_opCode format]. by rewrite Ho.
Qed.

Lemma decode_immediate w k op :
  Z.land (Z.shiftr w 26) 0x3f = k → Prelude.rd opTable k = Ret (mkOpInfo op IFMT) → op ≠ SPECIAL → op ≠ BCOND →
  Decode (u32 w) = Ret (mkInstr (u32 w) op (rs w) (rt w) (rd w) (immed w)).
Proof.
  intros Hk Ho H1 H2. unfold Decode. rewrite rs_u32, rt_u32, rd_u32, op_u32, Hk, Ho.
  cbn [mbind outcome_bind info_opCode format]. rewrite extra_u32. by destruct op.
Qed.

Lemma decode_jump w k op :
  Z.land (Z.shiftr w 26) 0x3f = k → Prelude.rd opTable k = Ret (mkOpInfo op JFMT) → op ≠ SPECIAL → op ≠ BCOND →
  Decode (u32 w) = Ret (mkInstr (u32 w) op (rs w) (rt w) (rd w) (Z.land w 0x3ffffff)).
Proof.
  intros Hk Ho H1 H2. unfold Decode. rewrite rs_u32, rt_u32, rd_u32, op_u32, Hk, Ho.
  cbn [mbind outcome_bind info_opCode format]. rewrite target_u32. by destruct op.
Qed.

Definition bcond_op (r : Z) : OpCode :=
  if r =? I_BLTZ then OP_BLTZ else if r =? I_BGEZ then OP_BGEZ
  else if r =? I_BLTZAL then OP_BLTZAL else if r =? I_BGEZAL then OP_BGEZAL else OP_UNIMP.

Lemma decode_bcond w :
  Z.land (Z.shiftr w 26) 0x3f = 1 →
  Decode (u32 w) = Ret (mkInstr (u32 w) (bcond_op (rt w)) (rs w) (rt w) (rd w) (immed w)).
Proof.
  intros H1. unfold Decode. rewrite rs_u32, rt_u32, rd_u32, op_u32, H1.
  change (Prelude.rd opTable 1) with (Ret (mkOpInfo BCOND IFMT)). cbn [mbind outcome_bind info_opCode format].
  rewrite extra_u32. unfold bcond_op.
  assert (Z.land (u32 w) 0x1f0000 = rt w * 2 ^ 16) as ->.
  { rewrite <- rt_u32. change 0x1f0000 with (Z.shiftl 0x1f 16). rewrite <- Z.shiftl_mul_pow2 by lia.
    apply Z.bits_inj'. intros i Hi. rewrite Z.land_spec, !Z.shiftl_spec by lia. rewrite Z.land_spec.
    destruct (Z.lt_ge_cases i 16); [rewrite !(Z.testbit_neg_r _ (i - 16)) by lia; by rewrite andb_false_r|].
    rewrite Z.shiftr_spec by lia. by replace (i - 16 + 16) with i by lia. }
  unfold I_BLTZ, I_BGEZ, I_BLTZAL, I_BGEZAL. do 2 f_equal.
  assert (∀ a b, (a * 2 ^ 16 =? b * 2 ^ 16) = (a =? b)) as E.
  { intros a b. destruct (Z.eqb_spec a b) as [->|]; [apply Z.eqb_refl|]. apply eqb_false. lia. }
  change 0 with (0 * 2 ^ 16) at 1. change 0x10000 with (1 * 2 ^ 16). change 0x100000 with (16 * 2 ^ 16).
  change 0x110000 with (17 * 2 ^ 16). by rewrite !E.
Qed.

(** *** The two memories side by side *)

(** The physical address of a byte of a page in memory; [None] where the machine would trap. *)
Definition where_ (m : Machine) (va : Z) : option Z :=
  match find_entry m (u32 va / PageSize) with
  | Ret (inr (tab, i)) =>
      match Prelude.rd (default [] (tables m !! tab)) i with
      | Ret e => if u32 (physicalPage e) <? NumPhysPages then Some (u32 (physicalPage e) * PageSize + u32 va mod PageSize) else None
      | _ => None
      end
  | _ => None
  end.

(** Every byte of the interpreter's memory that the machine has in a frame is the same there, and no frame is used twice. *)
Record mem_related (c : Cpu) (m : Machine) : Prop := {
  mr_mmu : mmu_wf m;
  mr_wf : memory_wf m;
  mr_apart va va' pa : in_memory va 1 = true → in_memory va' 1 = true → where_ m va = Some pa → where_ m va' = Some pa → va = va';
  mr_byte va pa : in_memory va 1 = true → where_ m va = Some pa → mainMemory m !! Z.to_nat pa = Some (default 0 (mem c !! va)) }.

Lemma in_memory_spec va n : in_memory va n = true ↔ memoffset ≤ va ∧ va + n ≤ memoffset + MEMSIZE.
Proof. unfold in_memory. by rewrite andb_true_iff, !Z.leb_le. Qed.

Lemma in_memory_byte va n j : in_memory va n = true → 0 ≤ j < n → in_memory (va + j) 1 = true.
Proof. rewrite !in_memory_spec. lia. Qed.

Lemma in_memory_u32 va n : in_memory va n = true → 0 < n → u32 va = va.
Proof.
  rewrite in_memory_spec. intros Hv Hn. apply u32_small. unfold is_u32, memoffset, MEMSIZE in *. lia.
Qed.

Lemma with_registers_id m : m = with_registers m (registers m).
Proof. by destruct m. Qed.
#[local] Hint Resolve with_registers_id : core.

(** Only the memory and the tables count. *)
Lemma mem_related_same c m c' m' :
  mem c' = mem c → m' = with_registers m (registers m') → mem_related c m → mem_related c' m'.
Proof. intros E -> [H1 H2 H3 H4]. split; [exact H1|exact H2|exact H3|]. rewrite E. exact H4. Qed.

(** A recorded access moves nothing. *)
Lemma where_touched m vpn tab i e w va :
  mmu_wf m → translates m vpn tab i e → where_ (touched m tab i e w) va = where_ m va.
Proof.
  intros Hm Htr. destruct (translates_touched m vpn tab i e w Hm Htr) as [_ Hf]. destruct Htr as [(t & Ht & He) _ _].
  unfold where_. rewrite Hf. destruct (find_entry m _) as [[exc|[tab' i']]| | |]; try done.
  unfold touched. cbn [tables with_tables]. rewrite Ht. cbn [default from_option id].
  destruct (decide (tab = tab')) as [<-|Hne]; [|by rewrite lookup_insert_ne].
  rewrite lookup_insert_eq, Ht. cbn [default from_option id].
  pose proof (proj1 (rd_Ret _ _ _) He) as [Hi Hl]. destruct (decide (i = i')) as [<-|Hni].
  - rewrite He. by rewrite (rd_lookup _ i (touch e w)) by (rewrite ?list_lookup_insert_eq by lia; done || lia).
  - by rewrite (rd_wr_ne t i i' (touch e w)) by (by rewrite ?wr_ok).
Qed.

Lemma mem_related_touched c m vpn tab i e w :
  translates m vpn tab i e → mem_related c m → mem_related c (touched m tab i e w).
Proof.
  intros Htr [H1 H2 H3 H4]. destruct (translates_touched m vpn tab i e w H1 Htr) as [H1' _].
  split; [done|exact H2| |]; intros *; rewrite !(where_touched m vpn) by done; [apply H3|apply H4].
Qed.

(** The bytes of an access that translates are consecutive. *)
Lemma where_access m va size writing m1 pa j :
  mmu_wf m → access_size size → in_memory va size = true → Translate m va size writing = Ret (m1, inr pa) →
  0 ≤ j < size → where_ m (va + j) = Some (pa + j).
Proof.
  intros Hm Hsz Hin Ht Hj. destruct (Translate_inv _ _ _ _ _ _ Hm Hsz Ht) as (Hal & tab & i & e & Hf & _ & He & _ & Hpp & _ & -> & _).
  pose proof (aligned_fits size va Hsz Hal) as Hfit. rewrite (in_memory_u32 va size) in * by (done || lia).
  unfold where_. rewrite (in_memory_u32 (va + j) 1) by (by eapply in_memory_byte || lia).
  assert (0 < PageSize) as Hp by done. pose proof (Z.mod_pos_bound va PageSize Hp).
  assert ((va + j) / PageSize = va / PageSize) as ->
    by (symmetry; apply (Z.div_unique _ _ _ (va mod PageSize + j)); [lia|]; pose proof (Z.div_mod va PageSize); lia).
  assert ((va + j) mod PageSize = va mod PageSize + j) as ->
    by (symmetry; apply (Z.mod_unique _ _ (va / PageSize)); [lia|]; pose proof (Z.div_mod va PageSize); lia).
  rewrite Hf, He, ltb_true by done. f_equal. lia.
Qed.

(** What both read. *)
Lemma load_related c m va size writing m1 pa :
  mem_related c m → access_size size → in_memory va size = true → Translate m va size writing = Ret (m1, inr pa) →
  ∃ bs, bytes_at c va size = Ret bs ∧ memory_bytes m1 pa size = Ret bs ∧ Forall is_byte bs ∧ length bs = Z.to_nat size.
Proof.
  intros [H1 H2 H3 H4] Hsz Hin Ht. pose proof Ht as Ht'.
  apply Translate_inv in Ht' as (_ & tab & i & e & _ & Htr & _ & _ & _ & -> & _ & Hlo & Hhi); [|done..].
  assert (0 ≤ size) by (destruct Hsz; lia).
  destruct (memory_bytes_ok (touched m tab i e writing) pa size) as (bs & Hb & Hl & Hbs); [exact H2|done..|].
  exists bs. split; [|done]. unfold bytes_at. rewrite Hin. cbn [defined_if mbind outcome_bind]. f_equal.
  unfold memory_bytes in Hb. destruct (in_range _ _); [|done]. injection Hb as <-.
  apply list_eq. intros k. rewrite list_lookup_fmap. destruct (decide (k < Z.to_nat size)%nat) as [Hk|Hk].
  - rewrite (proj2 (lookup_seqZ 0 size k (Z.of_nat k))) by lia. cbn [fmap option_fmap option_map].
    rewrite lookup_take_lt, lookup_drop by done. cbn [mainMemory touched with_tables].
    assert (where_ m (va + Z.of_nat k) = Some (pa + Z.of_nat k)) as Hw by (eapply where_access; (done || lia)).
    apply H4 in Hw; [|eapply in_memory_byte; [done|lia]]. rewrite <- Hw. f_equal. lia.
  - rewrite (lookup_ge_None_2 (seqZ 0 size)) by (rewrite length_seqZ; lia). by rewrite lookup_ge_None_2 by lia.
Qed.

Lemma stored_lookup (bs : list Z) addr va (old : gmap Z Z) :
  ((list_to_map (imap (λ k b, (addr + Z.of_nat k, b)) bs) : gmap Z Z) ∪ old) !! va =
  if (addr <=? va) && (va <? addr + Z.of_nat (length bs)) then bs !! Z.to_nat (va - addr) else old !! va.
Proof.
  revert addr. induction bs as [|b bs IH]; intros addr.
  - rewrite lookup_union_r by done. cbn [length]. by destruct (Z.leb_spec addr va), (Z.ltb_spec va (addr + Z.of_nat 0)); try lia.
  - rewrite imap_cons, list_to_map_cons. change (Z.of_nat 0) with 0. rewrite Z.add_0_r.
    assert (imap ((λ k b, (addr + Z.of_nat k, b)) ∘ S) bs = imap (λ k b, (addr + 1 + Z.of_nat k, b)) bs) as ->
      by (apply imap_ext; intros k x _; cbn [compose]; f_equal; lia).
    rewrite <- insert_union_l. destruct (decide (va = addr)) as [->|Hne].
    + rewrite lookup_insert_eq, Z.sub_diag, Z.leb_refl. cbn [andb length]. by rewrite ltb_true by lia.
    + rewrite lookup_insert_ne by done. rewrite IH. cbn [length].
      destruct (Z.leb_spec (addr + 1) va), (Z.leb_spec addr va); try lia; cbn [andb]; [|done].
      replace (addr + 1 + Z.of_nat (length bs)) with (addr + Z.of_nat (S (length bs))) by lia.
      destruct (_ <? _); [|done]. by replace (Z.to_nat (va - addr)) with (S (Z.to_nat (va - (addr + 1)))) by lia.
Qed.

(** What both write. *)
Lemma store_related c m va size v m1 pa :
  mem_related c m → access_size size → in_memory va size = true → Translate m va size true = Ret (m1, inr pa) →
  ∃ c' m2, store_bytes_at va (stored size v) c = Ret c' ∧ c' = with_mem (mem c') c ∧ store_bytes m1 pa (stored size v) = Ret m2 ∧
    registers m2 = registers m ∧ mem_related c' m2.
Proof.
  intros Hc Hsz Hin Ht. pose proof Hc as [H1 H2 H3 H4]. pose proof Ht as Ht'.
  apply Translate_inv in Ht' as (_ & tab & i & e & _ & Htr & _ & _ & _ & -> & _ & Hlo & Hhi); [|done..].
  pose proof (mem_related_touched c m _ tab i e true Htr Hc) as [H1' H2' _ _].
  pose proof (stored_length size v Hsz) as Hlen. assert (Forall is_byte (stored size v)) as Hbs by apply le_bytes_are_bytes.
  unfold store_bytes_at. rewrite Hlen, Hin. cbn [defined_if mbind outcome_bind].
  destruct (store_bytes_ok (touched m tab i e true) pa (stored size v)) as (m2 & Hst & H2''); [done..|by rewrite Hlen|].
  eexists _, m2. split; [reflexivity|]. split; [done|]. split; [done|]. pose proof (store_bytes_tables _ _ _ _ Hst) as Em2.
  split; [by rewrite Em2|].
  assert (∀ va, where_ m2 va = where_ m va) as Hwh by (intros va'; rewrite Em2; exact (where_touched m _ tab i e true va' H1 Htr)).
  split; [rewrite Em2; exact H1'|done|intros va1 va2 pa'; rewrite !Hwh; apply H3|].
  intros va' pa' Hin' Hw. rewrite Hwh in Hw. cbn [mem with_mem]. rewrite stored_lookup, Hlen.
  destruct ((va <=? va') && (va' <? va + size)) eqn:E.
  - apply andb_true_iff in E as [E1%Z.leb_le E2%Z.ltb_lt].
    assert (where_ m va' = Some (pa + (va' - va))) as Hw'.
    { replace va' with (va + (va' - va)) at 1 by lia. eapply where_access; (done || lia). }
    rewrite Hw in Hw'. injection Hw' as ->.
    pose proof (store_bytes_load _ _ _ _ Hst) as Hload. unfold memory_bytes in Hload. destruct (in_range _ _); [|done].
    rewrite Hlen in Hload. injection Hload as Hload. rewrite <- Hload at 1. rewrite lookup_take_lt, lookup_drop by lia.
    replace (Z.to_nat pa + Z.to_nat (va' - va))%nat with (Z.to_nat (pa + (va' - va))) by lia.
    destruct (lookup_lt_is_Some_2 (mainMemory m2) (Z.to_nat (pa + (va' - va)))) as [b ->]; [|done].
    destruct H2'' as [Hl _]. lia.
  - assert (0 ≤ pa') as Hpa'.
    { unfold where_ in Hw. destruct (find_entry _ _) as [[|[? ?]]| | |]; try done. destruct (Prelude.rd _ _) as [e'| | |]; try done.
      destruct (_ <? _); [|done]. injection Hw as <-. pose proof (u32_range (physicalPage e')). unfold is_u32 in *.
      assert (0 < PageSize) as Hp by done. pose proof (Z.mod_pos_bound (u32 va') PageSize Hp). nia. }
    rewrite (store_bytes_lookup_ne _ _ _ _ (Z.to_nat pa') Hst); [by apply H4|]. rewrite Hlen, Z2Nat.id by done.
    destruct (decide (pa' < pa ∨ pa + size ≤ pa')) as [|Hn]; [done|]. exfalso.
    assert (va' = va + (pa' - pa)) as ->; [|lia].
    apply (H3 _ _ pa'); [done|eapply in_memory_byte; [done|lia]|done|].
    erewrite where_access; [f_equal|done..|]; lia.
Qed.

(** *** The two processors side by side *)
Definition G (c : Cpu) (r : Z) : Z := default 0 (Reg c !! Z.to_nat r).

(** The same program counters, multiplication registers and general registers, once the load that is pending in the machine
    is done, and the same memory. *)
Record related (c : Cpu) (m : Machine) : Prop := {
  rl_length : length (Reg c) = 32%nat;
  rl_wf : regs_wf m;
  rl_zero : R m 0 = 0;
  rl_regs r : 0 < r < 32 → G c r = settled m r;
  rl_hi : HI c = R m HiReg;
  rl_lo : LO c = R m LoReg;
  rl_pc : pc c = R m PCReg;
  rl_npc : npc c = R m NextPCReg;
  rl_mem : mem_related c m }.

Lemma get_ok c r : length (Reg c) = 32%nat → 0 ≤ r < 32 → get c r = Ret (G c r).
Proof.
  intros Hl Hr. unfold get, G. destruct (rd_in_range (Reg c) r) as [v Hv]; [lia|]. rewrite Hv.
  by apply rd_Ret in Hv as [_ ->].
Qed.

Lemma set_ok c r v : length (Reg c) = 32%nat → 0 ≤ r < 32 →
  set c r v = Ret (with_reg (<[Z.to_nat r := v]> (Reg c)) c).
Proof. intros Hl Hr. unfold set. by rewrite wr_ok by lia. Qed.

Lemma G_set c r v j : length (Reg c) = 32%nat → 0 ≤ r < 32 → 0 ≤ j < 32 →
  G (with_reg (<[Z.to_nat r := v]> (Reg c)) c) j = if r =? j then v else G c j.
Proof.
  intros Hl Hr Hj. unfold G. cbn [Reg with_reg]. destruct (Z.eqb_spec r j) as [->|Hne].
  - by rewrite list_lookup_insert_eq by lia.
  - by rewrite list_lookup_insert_ne by lia.
Qed.

(** Between the fetch and the end of an instruction: the program counters of [c] have moved on, its r0 is cleared. *)
Record started (c : Cpu) (m : Machine) : Prop := {
  st_length : length (Reg c) = 32%nat;
  st_wf : regs_wf m;
  st_zero : R m 0 = 0;
  st_czero : G c 0 = 0;
  st_regs r : 0 < r < 32 → G c r = settled m r;
  st_hi : HI c = R m HiReg;
  st_lo : LO c = R m LoReg;
  st_pc : pc c = R m NextPCReg;
  st_npc : npc c = s32 (R m NextPCReg + 4);
  st_mem : mem_related c m }.

Lemma related_started c m :
  related c m → ∃ c0, set (with_pc (npc c) (s32 (npc c + 4)) c) 0 0 = Ret c0 ∧ started c0 m.
Proof.
  intros [L1 L2 L3 L4 L5 L6 L7 L8 L9]. rewrite set_ok by (done || lia). eexists. split; [reflexivity|].
  split; try done.
  - cbn [Reg with_reg with_pc]. by rewrite length_insert.
  - rewrite G_set by (done || lia). done.
  - intros r Hr. rewrite G_set by (done || lia). rewrite eqb_false by lia. apply (L4 r Hr).
  - cbn. by rewrite L8.
  - by apply (mem_related_same c m).
Qed.

(** A register that the pending load does not write. *)
Definition free (m : Machine) (r : Z) : Prop := 0 ≤ r < 32 ∧ (R m LoadReg = 0 ∨ r ≠ R m LoadReg).

Lemma free_settled m r : free m r → 0 < r → settled m r = R m r.
Proof. intros [Hr Hf] H0. unfold settled. by rewrite eqb_false by lia. Qed.

Lemma started_G c m r : started c m → free m r → G c r = R m r.
Proof.
  intros Hs Hf. destruct (Z.eq_dec r 0) as [->|Hne].
  - by rewrite (st_czero _ _ Hs), (st_zero _ _ Hs).
  - destruct Hf as [Hr Hf]. rewrite (st_regs _ _ Hs) by lia. apply free_settled; [done|lia].
Qed.

Lemma started_get c m r : started c m → free m r → get c r = Ret (R m r).
Proof. intros Hs Hf. rewrite get_ok; [|apply (st_length _ _ Hs)|apply Hf]. by rewrite (started_G c m). Qed.

Lemma started_reg c m r : started c m → free m r → reg m r = Ret (R m r).
Proof. intros Hs [Hr _]. apply R_ok; [apply Hs|regs]. Qed.

Section agreement.
Context {K : Type}.
Variable big : bool.
Variable setStatus : MachineStatus → K → K.
Variable handler : ExceptionType → Machine → K → outcome (control * Machine * K).

(** Both finish the instruction, and are again in related states. *)
Definition same (k : K) (oc : outcome result) (om : outcome (exec_result (K := K))) : Prop :=
  ∃ c' m1 pcAfter nr nv m', oc = Ret (Next c') ∧ om = Ret (Done m1 k pcAfter nr nv) ∧
    finish m1 pcAfter nr nv = Ret m' ∧ related c' m'.

(** What an instruction may change: general registers, HI and LO, memory, the target of a jump; the load that is then pending. *)
Lemma same_step c m k c' m1 target nr nv :
  started c m → regs_wf m1 → R m1 NextPCReg = R m NextPCReg → is_s32 target → 0 ≤ nr < 32 → is_s32 nv →
  length (Reg c') = 32%nat → (∀ r, 0 < r < 32 → G c' r = if r =? nr then nv else settled m1 r) →
  HI c' = R m1 HiReg → LO c' = R m1 LoReg → pc c' = pc c → npc c' = target → mem_related c' m1 →
  same k (Ret (Next c')) (Ret (Done m1 k target nr nv)).
Proof.
  intros Hs Hw Hn Ht Hnr Hnv Hl Hr Hhi Hlo Hpc Hnpc Hmem.
  destruct (finish_view m1 target nr nv) as (m' & E & F1 & F0 & F2 & F3 & F4 & F5 & F6 & F7 & F8 & F9); try done.
  exists c', m1, target, nr, nv, m'. split_and!; try done. split; try done.
  - intros r H0. unfold settled. rewrite F8, F9, F3 by regs. by apply Hr.
  - by rewrite F4.
  - by rewrite F5.
  - by rewrite F6, Hpc, (st_pc _ _ Hs).
  - by rewrite F7.
  - by apply (mem_related_same c' m1).
Qed.

(** The same without memory and without a load. *)
Lemma same_effect c m k c' m1 target :
  started c m → regs_wf m1 → R m1 NextPCReg = R m NextPCReg → is_s32 target →
  length (Reg c') = 32%nat → (∀ r, 0 < r < 32 → G c' r = settled m1 r) →
  HI c' = R m1 HiReg → LO c' = R m1 LoReg → pc c' = pc c → npc c' = target →
  mem c' = mem c → m1 = with_registers m (registers m1) → same k (Ret (Next c')) (Ret (Done m1 k target 0 0)).
Proof.
  intros Hs Hw Hn Ht Hl Hr Hhi Hlo Hpc Hnpc Hmc Hmm. eapply same_step; try done.
  - intros r H0. rewrite eqb_false by lia. by apply Hr.
  - apply (mem_related_same c m); [done..|apply Hs].
Qed.

Lemma same_nothing c m k : started c m → same k (Ret (Next c)) (Ret (Done m k (s32 (R m NextPCReg + 4)) 0 0)).
Proof. intros Hs. eapply same_effect; try done; try apply Hs. apply s32_range. Qed.

(** A jump without a link. *)
Lemma same_jump c m k target : started c m → is_s32 target → same k (jump target c) (Ret (Done m k target 0 0)).
Proof. intros Hs Ht. eapply same_effect; try done; try apply Hs. Qed.

(** A register is set, the program goes on at [target]. *)
Lemma same_set c m k d v target : started c m → free m d → is_s32 v → is_s32 target →
  ∃ c' m1, set c d v = Ret c' ∧ set_reg m d v = Ret m1 ∧ (∀ r, free m r → 0 ≤ r → get c' r = Ret (if d =? r then v else R m r)) ∧
    (∀ r, free m r → reg m1 r = Ret (if d =? r then v else R m r)) ∧
    same k (Ret (Next (with_pc (pc c') target c'))) (Ret (Done m1 k target 0 0)) ∧ pc c' = pc c ∧ npc c' = npc c.
Proof.
  intros Hs Hf Hv Ht. pose proof Hf as [Hd Hfr]. pose proof (st_wf _ _ Hs) as Hw. pose proof (st_length _ _ Hs) as Hl.
  rewrite set_ok by done. rewrite set_reg_put by (done || regs). eexists _, _. split; [reflexivity|]. split; [reflexivity|].
  assert (regs_wf (put_reg m d v)) as Hw1 by (apply put_reg_wf; done || regs).
  split_and!; try done.
  - intros r Hr H0. rewrite get_ok; [|by cbn; rewrite length_insert|apply Hr]. rewrite G_set by (done || apply Hr).
    by rewrite (started_G c m).
  - intros r [Hr _]. rewrite R_ok by (done || regs). by rewrite R_put by (done || regs).
  - eapply same_effect; try done.
    + rewrite R_put by (done || regs). by rewrite eqb_false by regs.
    + cbn. by rewrite length_insert.
    + intros r Hr. change (G (with_pc _ _ ?c') r) with (G c' r). unfold settled. rewrite !R_put by (done || regs).
      rewrite !(eqb_false d LoadReg), (eqb_false d LoadValueReg) by regs.
      transitivity (if d =? r then v else G c r); [by rewrite <- G_set by (done || lia)|].
      rewrite (st_regs _ _ Hs) by done. unfold settled. destruct (Z.eqb_spec r (R m LoadReg)) as [->|]; [|done].
      rewrite eqb_false by lia. done.
    + cbn. rewrite R_put by (done || regs). rewrite eqb_false by regs. apply Hs.
    + cbn. rewrite R_put by (done || regs). rewrite eqb_false by regs. apply Hs.
Qed.

Lemma same_assign c m k d v : started c m → free m d → is_s32 v →
  same k (assign d v c) (Mips.assign d v m k (s32 (R m NextPCReg + 4))).
Proof.
  intros Hs Hf Hv. destruct (same_set c m k d v (s32 (R m NextPCReg + 4)) Hs Hf Hv (s32_range _))
    as (c' & m1 & E1 & E2 & _ & _ & Hsame & Hpc & Hnpc).
  unfold assign, Mips.assign. rewrite E1, E2. cbn [mbind outcome_bind].
  replace c' with (with_pc (pc c') (s32 (R m NextPCReg + 4)) c') at 1; [done|].
  rewrite <- (st_npc _ _ Hs), <- Hnpc. by destruct c'.
Qed.

(** HI and LO are set. *)
Lemma same_hilo c m k h l : started c m → is_s32 h → is_s32 l →
  ∀ m1, regs_wf m1 → R m1 HiReg = h → R m1 LoReg = l → (∀ r, 0 ≤ r < NumTotalRegs → r ≠ HiReg → r ≠ LoReg → R m1 r = R m r) →
    m1 = with_registers m (registers m1) →
  same k (Ret (Next (with_hilo h l c))) (Ret (Done m1 k (s32 (R m NextPCReg + 4)) 0 0)).
Proof.
  intros Hs Hh Hl m1 Hw E1 E2 Eo Em. eapply same_effect; try done.
  - apply Eo; regs.
  - apply s32_range.
  - apply Hs.
  - intros r Hr. unfold settled. rewrite !Eo by regs. by apply Hs.
  - apply Hs.
Qed.
(** *** Where the two agree

    Sums that are words (the kernel's processor traps on the others); logical operations with immediates that are not negative,
    or where the extension of their sign in execute.c does not show; OR only where mipssim.cc has it right ([Mips.OR_runs]);
    logical right shifts of words that are not negative ([Mips.SRL_runs]), or by nothing; products without the carries that
    execute.c drops; shifts by less than 32; quotients that C defines; branches that are not taken or not themselves in the
    delay slot of a jump; aligned loads and stores at addresses that execute.c has memory for, of pages that the machine has in
    a frame.  Not LWL and LWR, which neither implements for both alignments, SWL and SWR, which execute.c does not have, and the
    system calls. *)
Definition carries_fit (a b : Z) : bool :=
  let al := a mod 2 ^ 16 in let ah := a / 2 ^ 16 in
  let bl := b mod 2 ^ 16 in let bh := b / 2 ^ 16 in
  (ah * bl <? 2 ^ 31) && (bh * al <? 2 ^ 31) && ((ah * bl) mod 2 ^ 16 + (bh * al) mod 2 ^ 16 + al * bl / 2 ^ 16 <? 2 ^ 16).

(** The access is aligned, and to a page in memory. *)
Definition hits (m : Machine) (va size : Z) (writing : bool) : bool :=
  in_memory va size && match Translate m va size writing with Ret (_, inr _) => true | _ => false end.

Definition agrees (m : Machine) (i : Instruction) (a b xpc next : Z) : bool :=
  let straight := next =? s32 (xpc + 4) in
  let region := Z.land (u32 (s32 (next + 4))) 0xf0000000 =? Z.land (u32 xpc) 0xf0000000 in
  let addr := s32 (a + extra i) in
  match opCode i with
  | OP_ADD => fits (a + b)
  | OP_ADDI => fits (a + extra i)
  | OP_SUB => fits (a - b)
  | OP_ADDIU | OP_ADDU | OP_SUBU | OP_AND | OP_XOR | OP_NOR | OP_SLL | OP_SRA | OP_SLT | OP_SLTI | OP_SLTIU | OP_SLTU | OP_LUI
  | OP_MFHI | OP_MFLO | OP_MTHI | OP_MTLO | OP_JR => true
  | OP_ANDI => (0 <=? extra i) || in_range a (2 ^ 16)
  | OP_ORI => (0 <=? extra i) || ((- 2 ^ 16 <=? a) && (a <? 0))
  | OP_XORI => 0 <=? extra i
  | OP_OR => Z.lor a b =? a
  | OP_SRL => (0 <=? b) || (extra i =? 0)
  | OP_SRLV => in_range a 32 && ((0 <=? b) || (a =? 0))
  | OP_SLLV | OP_SRAV => in_range a 32
  | OP_DIV => negb (b =? 0) && negb ((a =? - 2 ^ 31) && (b =? -1))
  | OP_DIVU => negb (b =? 0)
  | OP_MULT => carries_fit (Z.abs a) (Z.abs b)
  | OP_MULTU => carries_fit (u32 a) (u32 b)
  | OP_BEQ => straight || negb (a =? b)
  | OP_BNE => straight || (a =? b)
  | OP_BLEZ => straight || (0 <? a)
  | OP_BGTZ => straight || (a <=? 0)
  | OP_BLTZ => straight || (0 <=? a)
  | OP_BGEZ => straight || (a <? 0)
  | OP_BLTZAL | OP_BGEZAL => straight
  | OP_JALR => straight && (negb (Mips.rd i =? Mips.rs i) || (a =? s32 (xpc + 8)))
  | OP_J => region
  | OP_JAL => straight && region
  | OP_LB | OP_LBU => hits m addr 1 false
  | OP_LH | OP_LHU => hits m addr 2 false
  | OP_LW => hits m addr 4 false
  | OP_SB => hits m addr 1 true
  | OP_SH => hits m addr 2 true
  | OP_SW => hits m addr 4 true
  | _ => false
  end.

(** The registers an instruction names. *)
Definition named (w : Z) : list Z :=
  let op := Z.land (Z.shiftr w 26) 0x3f in
  if op =? I_SPECIAL then [rs w; rt w; rd w]
  else if op =? I_BCOND then if (rt w =? I_BLTZAL) || (rt w =? I_BGEZAL) then [rs w; 31] else [rs w]
  else if op =? I_J then []
  else if op =? I_JAL then [31]
  else [rs w; rt w].

Definition special_ops : list (Z * OpCode) := [
  (I_SLL, OP_SLL); (I_SRL, OP_SRL); (I_SRA, OP_SRA); (I_SLLV, OP_SLLV); (I_SRLV, OP_SRLV); (I_SRAV, OP_SRAV);
  (I_JR, OP_JR); (I_JALR, OP_JALR); (I_MFHI, OP_MFHI); (I_MTHI, OP_MTHI); (I_MFLO, OP_MFLO); (I_MTLO, OP_MTLO);
  (I_MULT, OP_MULT); (I_MULTU, OP_MULTU); (I_DIV, OP_DIV); (I_DIVU, OP_DIVU);
  (I_ADD, OP_ADD); (I_ADDU, OP_ADDU); (I_SUB, OP_SUB); (I_SUBU, OP_SUBU); (I_AND, OP_AND); (I_OR, OP_OR);
  (I_XOR, OP_XOR); (I_NOR, OP_NOR); (I_SLT, OP_SLT); (I_SLTU, OP_SLTU)].
Definition immediate_ops : list (Z * OpCode) := [
  (I_BEQ, OP_BEQ); (I_BNE, OP_BNE); (I_BLEZ, OP_BLEZ); (I_BGTZ, OP_BGTZ); (I_ADDI, OP_ADDI); (I_ADDIU, OP_ADDIU);
  (I_SLTI, OP_SLTI); (I_SLTIU, OP_SLTIU); (I_ANDI, OP_ANDI); (I_ORI, OP_ORI); (I_XORI, OP_XORI); (I_LUI, OP_LUI)].
Definition access_ops : list (Z * OpCode) := [
  (I_LB, OP_LB); (I_LBU, OP_LBU); (I_LH, OP_LH); (I_LHU, OP_LHU); (I_LW, OP_LW); (I_SB, OP_SB); (I_SH, OP_SH); (I_SW, OP_SW)].

Definition supported (op : OpCode) : bool :=
  bool_decide (op ∈ special_ops.*2) || bool_decide (op ∈ immediate_ops.*2) || bool_decide (op ∈ access_ops.*2) ||
  bool_decide (op ∈ [OP_BLTZ; OP_BGEZ; OP_BLTZAL; OP_BGEZAL; OP_J; OP_JAL]).

Lemma agrees_supported m i a b xpc next : agrees m i a b xpc next = true → supported (opCode i) = true.
Proof. unfold agrees. destruct (opCode i); intros H; (discriminate H || (clear H; vm_compute; reflexivity)). Qed.

Lemma special_supported f op :
  Prelude.rd specialTable f = Ret op → supported op = true → (f, op) ∈ special_ops.
Proof.
  intros [Hf Ho]%rd_Ret Hs. change (Z.of_nat (length specialTable)) with 64 in Hf.
  assert (forallb (λ f, match specialTable !! Z.to_nat f with
    | Some op => negb (supported op) || bool_decide ((f, op) ∈ special_ops) | None => true end) (seqZ 0 64) = true) as Ha
    by (vm_compute; reflexivity).
  rewrite forallb_forall in Ha. specialize (Ha f). rewrite Ho, Hs in Ha. cbn [negb orb] in Ha.
  assert (f ∈ seqZ 0 64) as Hin by (apply elem_of_seqZ; lia). apply list_elem_of_In, Ha in Hin.
  by apply bool_decide_eq_true_1 in Hin.
Qed.

Lemma immediate_supported k op fmt :
  Prelude.rd opTable k = Ret (mkOpInfo op fmt) → supported op = true →
  ((k, op) ∈ immediate_ops ∨ (k, op) ∈ access_ops) ∧ fmt = IFMT ∨ (k = I_J ∧ op = OP_J ∨ k = I_JAL ∧ op = OP_JAL) ∧ fmt = JFMT.
Proof.
  intros [Hf Ho]%rd_Ret Hs. change (Z.of_nat (length opTable)) with 64 in Hf.
  assert (forallb (λ k, match opTable !! Z.to_nat k with
    | Some (mkOpInfo op fmt) => negb (supported op) || bool_decide (((k, op) ∈ immediate_ops ∨ (k, op) ∈ access_ops) ∧ fmt = IFMT ∨
       (k = I_J ∧ op = OP_J ∨ k = I_JAL ∧ op = OP_JAL) ∧ fmt = JFMT) | None => true end) (seqZ 0 64) = true) as Ha
    by (vm_compute; reflexivity).
  rewrite forallb_forall in Ha. specialize (Ha k). rewrite Ho, Hs in Ha. cbn [negb orb] in Ha.
  assert (k ∈ seqZ 0 64) as Hin by (apply elem_of_seqZ; lia). apply list_elem_of_In, Ha in Hin.
  by apply bool_decide_eq_true_1 in Hin.
Qed.

(** The values are the same. *)
Lemma land_31 a : 0 ≤ a < 32 → Z.land a 0x1f = a.
Proof. intros Ha. change 0x1f with (Z.ones 5). rewrite Z.land_ones by lia. by apply Z.mod_small. Qed.

Lemma logical_shift b n : is_s32 b → 0 ≤ b → 0 ≤ n → s32 (Z.shiftr (u32 b) n) = Z.shiftr b n.
Proof.
  intros Hb H0 Hn. rewrite u32_small by (unfold is_u32, is_s32 in *; lia). by apply s32_small, is_s32_shiftr_l.
Qed.

Lemma logical_shift_same b n : is_s32 b → 0 ≤ n → (0 <=? b) || (n =? 0) = true → s32 (Z.shiftr (u32 b) n) = Z.shiftr b n.
Proof.
  intros Hb Hn [H0%Z.leb_le | ->%Z.eqb_eq]%orb_true_iff; [by apply logical_shift|].
  rewrite !Z.shiftr_0_r, s32_u32. by apply s32_small.
Qed.

Lemma immed_range w : - 2 ^ 15 ≤ immed w < 2 ^ 15.
Proof. rewrite immed_s16. unfold s16. Z.div_mod_to_equations. lia. Qed.

Lemma immed_low w : 0 ≤ immed w → Z.land (immed w) 0xffff = immed w.
Proof.
  intros H0. pose proof (immed_range w). change 0xffff with (Z.ones 16). rewrite Z.land_ones by lia. apply Z.mod_small. lia.
Qed.

(** Where the extension of the immediate does not show. *)
Lemma and_immed a w : (0 <=? immed w) || in_range a (2 ^ 16) = true → Z.land a (Z.land (immed w) 0xffff) = Z.land a (immed w).
Proof.
  intros [H0%Z.leb_le | Ha%in_range_spec]%orb_true_iff; [by rewrite immed_low|].
  rewrite (Z.land_comm (immed w)), Z.land_assoc. f_equal. change 0xffff with (Z.ones 16). rewrite Z.land_ones by lia.
  by apply Z.mod_small.
Qed.

Lemma or_immed a w :
  (0 <=? immed w) || ((- 2 ^ 16 <=? a) && (a <? 0)) = true → Z.lor a (Z.land (immed w) 0xffff) = Z.lor a (immed w).
Proof.
  intros [H0%Z.leb_le | [H1%Z.leb_le H2%Z.ltb_lt]%andb_true_iff]%orb_true_iff; [by rewrite immed_low|].
  change 0xffff with (Z.ones 16). apply Z.bits_inj'. intros n Hn. rewrite !Z.lor_spec, Z.land_spec, Z.testbit_ones_nonneg by lia.
  destruct (Z.ltb_spec n 16); [by rewrite andb_true_r|].
  assert (Z.testbit a n = true) as ->; [|done]. replace n with (n - 16 + 16) by lia. rewrite <- Z.shiftr_spec by lia.
  rewrite Z.shiftr_div_pow2 by lia. assert (a / 2 ^ 16 = -1) as -> by (Z.div_mod_to_equations; lia). apply Z.bits_m1. lia.
Qed.

Lemma immed_s32 w : is_s32 (immed w).
Proof. pose proof (immed_range w). unfold is_s32. lia. Qed.

Lemma lui_value w : s32 (Z.shiftl (immed w) 16) = s32 (Z.shiftl w 16).
Proof.
  rewrite immed_s16, !Z.shiftl_mul_pow2 by lia. apply s32_eq_iff. unfold s16, u32. Z.div_mod_to_equations. lia.
Qed.

(** The high word, when no carry is lost. *)
Lemma carries_high a b : 0 ≤ a → 0 ≤ b → carries_fit a b = true →
  a / 2 ^ 16 * (b / 2 ^ 16) + (a / 2 ^ 16 * (b mod 2 ^ 16)) / 2 ^ 16 + (b / 2 ^ 16 * (a mod 2 ^ 16)) / 2 ^ 16 = a * b / 2 ^ 32.
Proof.
  unfold carries_fit. cbn zeta. rewrite !andb_true_iff, !Z.ltb_lt. intros Ha Hb [[_ _] Hc].
  pose proof (Z.div_mod a (2 ^ 16) ltac:(done)) as Ea. pose proof (Z.div_mod b (2 ^ 16) ltac:(done)) as Eb.
  pose proof (Z.mod_pos_bound a (2 ^ 16) ltac:(done)). pose proof (Z.mod_pos_bound b (2 ^ 16) ltac:(done)).
  set (ah := a / 2 ^ 16) in *. set (al := a mod 2 ^ 16) in *. set (bh := b / 2 ^ 16) in *. set (bl := b mod 2 ^ 16) in *.
  assert (a * b = ah * bh * 2 ^ 32 + (ah * bl + bh * al) * 2 ^ 16 + al * bl) as -> by (rewrite Ea, Eb; ring).
  assert (0 ≤ al * bl) by nia.
  generalize dependent (ah * bl). generalize dependent (bh * al). generalize dependent (al * bl). generalize (ah * bh).
  clear. intros h r Hr q p Hc. apply (Z.div_unique_pos _ _ _ (((p mod 2 ^ 16 + q mod 2 ^ 16) * 2 ^ 16) + r));
    Z.div_mod_to_equations; lia.
Qed.

Lemma high_word_exact a b : carries_fit (u32 a) (u32 b) = true → high_word a b = s32 (u32 a * u32 b / 2 ^ 32).
Proof.
  intros Hc. pose proof (u32_range a) as Ha. pose proof (u32_range b) as Hb. unfold is_u32 in Ha, Hb.
  rewrite <- carries_high by (done || lia). pose proof Hc as Hc'. unfold carries_fit in Hc'. cbn zeta in Hc'.
  rewrite !andb_true_iff, !Z.ltb_lt in Hc'. destruct Hc' as [[H1 H2] _]. unfold high_word. cbn zeta.
  assert (∀ x, Z.land x 0xffff = u32 x mod 2 ^ 16) as Elow.
  { intros x. change 0xffff with (Z.ones 16). rewrite <- (low_u32 x 16) by lia. by apply Z.land_ones. }
  assert (∀ x, Z.land (Z.shiftr x 16) 0xffff = u32 x / 2 ^ 16) as Ehigh.
  { intros x. change 0xffff with (Z.ones 16). rewrite <- (field_u32 x 16 16), Z.shiftr_div_pow2, Z.land_ones by lia.
    apply Z.mod_small. pose proof (u32_range x) as Hx. unfold is_u32 in Hx. Z.div_mod_to_equations. lia. }
  rewrite !Ehigh, !Elow. set (ah := u32 a / 2 ^ 16) in *. set (al := u32 a mod 2 ^ 16) in *.
  set (bh := u32 b / 2 ^ 16) in *. set (bl := u32 b mod 2 ^ 16) in *.
  assert (0 ≤ ah ∧ 0 ≤ bh ∧ 0 ≤ al ∧ 0 ≤ bl) by (unfold ah, bh, al, bl; Z.div_mod_to_equations; lia).
  rewrite (s32_small (ah * bl)), (s32_small (bh * al)) by (unfold is_s32; nia). rewrite !Z.shiftr_div_pow2 by lia.
  apply s32_eq_iff. rewrite <- !Z.add_assoc. rewrite <- (u32_add_l (s32 (ah * bh))), u32_s32, u32_add_l. done.
Qed.

Lemma u32_mul_both a b : u32 (u32 a * u32 b) = u32 (a * b).
Proof. by rewrite u32_mul_r, Z.mul_comm, u32_mul_r, Z.mul_comm. Qed.

Lemma low_word hi lo : is_s32 lo → s32 (hi * 2 ^ 32 + u32 lo) = lo.
Proof.
  intros Hlo. rewrite <- (s32_small lo) at 2 by done. apply s32_eq_iff. rewrite Z.add_comm, u32_add_l. unfold u32.
  by rewrite Z.mod_add.
Qed.

(** A double word determines its two words. *)
Lemma dword_words hi lo p : is_s32 hi → is_s32 lo → dword hi (u32 lo) = p → (hi, lo) = (p / 2 ^ 32, s32 p).
Proof.
  intros Hh Hl <-. unfold dword. pose proof (u32_range lo) as Hr. unfold is_u32 in Hr. f_equal.
  - by rewrite Z.div_add_l, Z.div_small, Z.add_0_r by lia.
  - by rewrite low_word.
Qed.

Lemma multu_agrees a b : is_s32 a → is_s32 b → carries_fit (u32 a) (u32 b) = true → multu a b = Mult a b false.
Proof.
  intros Ha Hb Hc. destruct (Mult_spec a b false) as (H1 & H2 & H3); [done..|]. destruct (Mult a b false) as [hi lo].
  cbn [fst snd] in *. unfold multu. rewrite high_word_exact by done.
  pose proof (u32_range lo) as Hl. pose proof (u32_range hi) as Hh. unfold is_u32, dword in *.
  rewrite <- H3 at 1. rewrite Z.div_add_l, Z.div_small, Z.add_0_r, s32_u32, s32_small by (done || lia). f_equal.
  rewrite <- (low_word (u32 hi) lo), H3 by done. apply s32_eq_iff. by rewrite u32_mul_both.
Qed.

(** The two's complement of a product, as execute.c computes it. *)
Lemma negated_words p : 0 ≤ p ≤ 2 ^ 62 →
  let lo := s32 (Z.lnot (s32 p) + 1) in let hi := Z.lnot (s32 (p / 2 ^ 32)) in
  (if lo =? 0 then s32 (hi + 1) else hi, lo) = ((- p) / 2 ^ 32, s32 (- p)).
Proof.
  intros Hp. cbn zeta. assert (0 ≤ p / 2 ^ 32 ≤ 2 ^ 30) as Hd by (Z.div_mod_to_equations; lia).
  rewrite (s32_small (p / 2 ^ 32)) by (unfold is_s32; lia).
  assert (s32 (Z.lnot (s32 p) + 1) = s32 (- p)) as ->.
  { apply s32_eq_iff. unfold Z.lnot. replace (Z.pred (- s32 p) + 1) with (0 - s32 p) by lia. apply s32_eq_iff.
    change (- p) with (0 - p). apply s32_eq_iff. unfold u32. rewrite Zminus_mod. fold (u32 (s32 p)). rewrite u32_s32.
    unfold u32. by rewrite <- Zminus_mod. }
  f_equal. unfold Z.lnot. destruct (Z.eqb_spec (s32 (- p)) 0) as [E|E].
  - assert (u32 (- p) = 0) as E0 by (rewrite <- u32_s32, E; done). unfold u32 in E0.
    rewrite s32_small by (unfold is_s32; lia). Z.div_mod_to_equations. lia.
  - assert (u32 (- p) ≠ 0) as E0 by (intros E0; apply E; rewrite <- s32_u32, E0; done). unfold u32 in E0.
    Z.div_mod_to_equations. lia.
Qed.

Lemma mult_agrees a b : is_s32 a → is_s32 b → carries_fit (Z.abs a) (Z.abs b) = true → mult a b = Mult a b true.
Proof.
  intros Ha Hb Hc. destruct (Mult_spec a b true) as (H1 & H2 & H3); [done..|]. destruct (Mult a b true) as [hi lo].
  cbn [fst snd] in *. rewrite (dword_words hi lo (a * b)) by done. clear hi lo H1 H2 H3.
  pose proof (u32_abs a Ha) as EA. pose proof (u32_abs b Hb) as EB. unfold is_s32 in Ha, Hb.
  assert (0 ≤ Z.abs a * Z.abs b ≤ 2 ^ 62) as Hp.
  { split; [lia|]. change (2 ^ 62) with (2 ^ 31 * 2 ^ 31). apply Z.mul_le_mono_nonneg; lia. }
  assert (∀ A B, u32 A = Z.abs a → u32 B = Z.abs b →
    high_word A B = s32 (Z.abs a * Z.abs b / 2 ^ 32) ∧ s32 (A * B) = s32 (Z.abs a * Z.abs b)) as Hmag.
  { intros A B E1 E2. rewrite high_word_exact by (by rewrite E1, E2). rewrite E1, E2. split; [done|].
    apply s32_eq_iff. by rewrite <- u32_mul_both, E1, E2. }
  assert (Z.abs a * Z.abs b / 2 ^ 32 ≤ 2 ^ 30) as Hq by (Z.div_mod_to_equations; lia).
  assert (0 ≤ Z.abs a * Z.abs b / 2 ^ 32) as Hq0 by (Z.div_mod_to_equations; lia).
  unfold mult. destruct (Z.ltb_spec a 0), (Z.ltb_spec b 0); cbn zeta iota beta; cbn [negb];
    destruct (Hmag _ _ EA EB) as [-> ->].
  1,4: rewrite s32_small by (unfold is_s32; lia); by replace (Z.abs a * Z.abs b) with (a * b) by lia.
  all: replace (a * b) with (- (Z.abs a * Z.abs b)) by lia; by apply negated_words.
Qed.

Lemma quot_rem_words a b : is_s32 a → is_s32 b → b ≠ 0 → ¬ (a = - 2 ^ 31 ∧ b = -1) → is_s32 (a `quot` b) ∧ is_s32 (a `rem` b).
Proof.
  intros Ha Hb H0 Hn. unfold is_s32 in *. split.
  - assert (Z.abs (a `quot` b) ≤ Z.abs a) as Hq by (rewrite <- Z.quot_abs by done; apply Z.quot_le_upper_bound; nia).
    destruct (Z.eq_dec (a `quot` b) (2 ^ 31)) as [E|]; [|lia]. exfalso. apply Hn.
    pose proof (Z.quot_rem a b H0) as Hqr. rewrite E in Hqr. pose proof (Z.rem_bound_abs a b H0). nia.
  - pose proof (Z.rem_bound_abs a b H0). pose proof (Z.quot_rem a b H0). lia.
Qed.

Lemma link_value xpc next : next = s32 (xpc + 4) → s32 (next + 4) = s32 (xpc + 8).
Proof. intros ->. apply s32_eq_iff. rewrite <- (u32_add_l (s32 _)), u32_s32, u32_add_l. f_equal. lia. Qed.

Lemma target_value w xpc next : next = s32 (xpc + 4) → s32 (next + IndexToAddr (immed w)) = branch_target w xpc.
Proof.
  intros ->. unfold branch_target, IndexToAddr. apply s32_eq_iff. rewrite <- (u32_add_l (s32 (xpc + 4))), u32_s32, u32_add_l. done.
Qed.

Lemma region_value w xpc next :
  Z.land (u32 (s32 (next + 4))) 0xf0000000 = Z.land (u32 xpc) 0xf0000000 →
  s32 (Z.lor (Z.land (u32 (s32 (next + 4))) 0xf0000000) (IndexToAddr (Z.land w 0x3ffffff))) = region_jump w xpc.
Proof.
  intros ->. unfold region_jump, IndexToAddr. rewrite (s32_small (Z.shiftl _ 2)); [done|].
  rewrite Z.shiftl_mul_pow2 by lia. pose proof (land_mask_range w 26 ltac:(lia)) as Hr. change (Z.ones 26) with 0x3ffffff in Hr.
  unfold is_s32. lia.
Qed.

(** [op =? I_X] for two numerals. *)
Ltac switch :=
  repeat match goal with
  | |- context [?a =? ?b] =>
      is_const a; is_const b; let r := eval vm_compute in (a =? b) in
      match r with true => change (a =? b) with true | false => change (a =? b) with false end
  end; cbn [orb].
Ltac words := repeat first
  [ assumption | apply s32_range | apply is_s32_land | apply is_s32_lor | apply is_s32_lxor | apply is_s32_lnot
  | apply is_s32_shiftr_l; [lia|] | apply immed_s32 ].

Ltac not_taken :=
  exfalso; revert select (_ = true);
  repeat match goal with |- context [?x =? ?y] => destruct (Z.eqb_spec x y) | |- context [?x <? ?y] => destruct (Z.ltb_spec x y)
    | |- context [?x <=? ?y] => destruct (Z.leb_spec x y) end; cbn [negb]; intros; (done || lia).

Lemma bool_int_word b : is_s32 (bool_int b).
Proof. destruct b; by unfold is_s32. Qed.

(** The multiplication registers, one or both. *)
Lemma put_hilo_wf m i v : regs_wf m → i = HiReg ∨ i = LoReg → is_s32 v → regs_wf (put_reg m i v).
Proof. intros Hw [-> | ->] Hv; apply put_reg_wf; done || regs. Qed.

Lemma same_assign_hi c m k h : started c m → is_s32 h →
  same k (Ret (Next (with_hilo h (LO c) c))) (Mips.assign HiReg h m k (s32 (R m NextPCReg + 4))).
Proof.
  intros Hs Hh. pose proof (st_wf _ _ Hs) as Hw. unfold Mips.assign. rewrite set_reg_put by (done || regs).
  cbn [mbind outcome_bind]. apply (same_hilo c m k); try done.
  - rewrite (st_lo _ _ Hs). apply R_word; done || regs.
  - apply put_hilo_wf; auto.
  - by rewrite R_put by (done || regs).
  - rewrite R_put by (done || regs). symmetry. apply Hs.
  - intros r Hr H1 H2. rewrite R_put by (done || regs). by rewrite eqb_false.
Qed.

Lemma same_assign_lo c m k l : started c m → is_s32 l →
  same k (Ret (Next (with_hilo (HI c) l c))) (Mips.assign LoReg l m k (s32 (R m NextPCReg + 4))).
Proof.
  intros Hs Hh. pose proof (st_wf _ _ Hs) as Hw. unfold Mips.assign. rewrite set_reg_put by (done || regs).
  cbn [mbind outcome_bind]. apply (same_hilo c m k); try done.
  - rewrite (st_hi _ _ Hs). apply R_word; done || regs.
  - apply put_hilo_wf; auto.
  - rewrite R_put by (done || regs). symmetry. apply Hs.
  - by rewrite R_put by (done || regs).
  - intros r Hr H1 H2. rewrite R_put by (done || regs). by rewrite eqb_false.
Qed.

Lemma same_assign_both c m k h l i j : started c m → is_s32 h → is_s32 l →
  i = HiReg ∧ j = LoReg ∨ i = LoReg ∧ j = HiReg →
  same k (Ret (Next (with_hilo h l c)))
    (m1 ← set_reg m i (if i =? HiReg then h else l);
     Mips.assign j (if j =? HiReg then h else l) m1 k (s32 (R m NextPCReg + 4))).
Proof.
  intros Hs Hh Hl Hij. pose proof (st_wf _ _ Hs) as Hw.
  assert (regs_wf (put_reg m i (if i =? HiReg then h else l))) as Hw1.
  { apply put_hilo_wf; [done|naive_solver|]. by destruct (i =? HiReg). }
  assert (0 ≤ i < NumTotalRegs ∧ 0 ≤ j < NumTotalRegs) as [Hi Hj] by (destruct Hij as [[-> ->]|[-> ->]]; regs).
  unfold Mips.assign. rewrite set_reg_put by done. cbn [mbind outcome_bind]. rewrite set_reg_put by done.
  cbn [mbind outcome_bind]. apply (same_hilo c m k); try done.
  - apply put_hilo_wf; [done|naive_solver|]. by destruct (j =? HiReg).
  - rewrite !R_put by (done || regs). by destruct Hij as [[-> ->]|[-> ->]].
  - rewrite !R_put by (done || regs). by destruct Hij as [[-> ->]|[-> ->]].
  - intros r Hr H1 H2. rewrite !R_put by (done || regs). destruct Hij as [[-> ->]|[-> ->]]; by rewrite !eqb_false.
Qed.

Variable host : Z → Z → Z → Z → gmap Z Z → outcome (gmap Z Z * Z).

(** [Mips.execute] and [special] with their operands read. *)
Ltac operands Hs Hrs Hrt :=
  rewrite ?(started_get _ _ _ Hs Hrs), ?(started_get _ _ _ Hs Hrt);
  cbn [Mips.rs Mips.rt Mips.rd Mips.opCode Mips.extra];
  rewrite ?(started_reg _ _ _ Hs Hrs), ?(started_reg _ _ _ Hs Hrt);
  cbn [mbind outcome_bind Mips.rs Mips.rt Mips.rd Mips.opCode Mips.extra].

(** A jump through a register, with the link; the two processors differ when the registers are the same. *)
Lemma set_with_pc p n c d v : set (with_pc p n c) d v = (c' ← set c d v; Ret (with_pc p n c')).
Proof. unfold set. cbn [Reg with_pc]. by destruct (wr (Reg c) d v). Qed.

Lemma JALR_same c m k d s v : started c m → free m d → free m s → d ≠ s ∨ R m s = v → is_s32 v →
  same k (c' ← set (with_pc (pc c) (R m s) c) d v; Ret (Next c'))
    (m1 ← set_reg m d v; a ← reg m1 s; Ret (Done m1 k a 0 0)).
Proof.
  intros Hs Hd Hf Hne Hv. assert (is_s32 (R m s)) as Hw by (apply R_word; [apply Hs|destruct Hf; regs]).
  destruct (same_set c m k d v (R m s) Hs Hd Hv Hw) as (c' & m1 & E1 & E2 & _ & E4 & Hsame & Hpc & _).
  rewrite set_with_pc, E1, E2. cbn [mbind outcome_bind]. rewrite E4 by done. cbn [mbind outcome_bind].
  assert ((if d =? s then v else R m s) = R m s) as -> by (destruct (Z.eqb_spec d s), Hne; done). by rewrite Hpc in Hsame.
Qed.

Lemma shift_count_ok a : in_range a 32 = true → shift_count a = Ret a ∧ Z.land a 0x1f = a ∧ 0 ≤ a.
Proof.
  intros Hr. unfold shift_count. rewrite Hr. apply in_range_spec in Hr. split; [done|]. split; [by apply land_31|lia].
Qed.

Lemma special_same c m k w op xpc :
  started c m → free m (rs w) → free m (rt w) → free m (rd w) → (Z.land w 0x3f, op) ∈ special_ops →
  let i := mkInstr (u32 w) op (rs w) (rt w) (rd w) (shamt w) in
  agrees m i (R m (rs w)) (R m (rt w)) xpc (R m NextPCReg) = true →
  same k (special host w xpc c) (execute big setStatus handler i m k (s32 (R m NextPCReg + 4))).
Proof.
  intros Hs Hrs Hrt Hrd Hin i. unfold special. pose proof (st_wf _ _ Hs) as Hw.
  assert (is_s32 (R m (rs w))) as Ha by (apply R_word; [done|destruct Hrs; regs]).
  assert (is_s32 (R m (rt w))) as Hb by (apply R_word; [done|destruct Hrt; regs]).
  assert (0 ≤ shamt w) as Hsh by apply (field_range w 6).
  assert (∀ v, is_s32 v → same k (assign (rd w) v c) (Mips.assign (rd w) v m k (s32 (R m NextPCReg + 4)))) as Hassign
    by (intros v Hv; by apply same_assign).
  unfold special_ops in Hin. rewrite !elem_of_cons, elem_of_nil in Hin.
  destruct_or! Hin; try (by destruct Hin); injection Hin as Hf ->; rewrite Hf; unfold i, agrees, execute; operands Hs Hrs Hrt; intros Hag;
    switch; unfold exec_arith, exec_div, exec_jump, exec_shift, exec_hilo; operands Hs Hrs Hrt;
    rewrite ?(R_ok m NextPCReg), ?(R_ok m HiReg), ?(R_ok m LoReg) by (done || regs); cbn [mbind outcome_bind].
  all: try solve [apply Hassign; words; try apply bool_int_word].
  - rewrite logical_shift_same by done. apply Hassign; words.
  - destruct (shift_count_ok _ Hag) as (-> & -> & _). apply Hassign; words.
  - apply andb_true_iff in Hag as [Hag Hpos]. destruct (shift_count_ok _ Hag) as (-> & -> & H0).
    cbn [mbind outcome_bind]. rewrite logical_shift_same by done. apply Hassign; words.
  - destruct (shift_count_ok _ Hag) as (-> & -> & H0). apply Hassign; words.
  - by apply same_jump.
  - apply andb_true_iff in Hag as [Hag Hne]. apply Z.eqb_eq in Hag. rewrite (link_value xpc) by done.
    apply JALR_same; try done; [|words]. apply orb_true_iff in Hne as [Hne%negb_true_iff%Z.eqb_neq | Hne%Z.eqb_eq]; auto.
  - rewrite (st_hi _ _ Hs). apply Hassign, R_word; done || regs.
  - by apply same_assign_hi.
  - rewrite (st_lo _ _ Hs). apply Hassign, R_word; done || regs.
  - by apply same_assign_lo.
  - destruct (Mult_spec (R m (rs w)) (R m (rt w)) true) as (H1 & H2 & _); [done..|]. rewrite mult_agrees by done.
    destruct (Mult _ _ _) as [hi lo]. apply (same_assign_both c m k hi lo HiReg LoReg); auto.
  - destruct (Mult_spec (R m (rs w)) (R m (rt w)) false) as (H1 & H2 & _); [done..|]. rewrite multu_agrees by done.
    destruct (Mult _ _ _) as [hi lo]. apply (same_assign_both c m k hi lo HiReg LoReg); auto.
  - rewrite Hag. apply andb_true_iff in Hag as [H1 H2]. apply negb_true_iff in H1. rewrite H1, H2. cbn [mbind outcome_bind defined_if].
    destruct (quot_rem_words _ _ Ha Hb) as [Hq Hr]; [by apply Z.eqb_neq|intros [E1 E2]; by rewrite E1, E2 in H2|].
    apply (same_assign_both c m k _ _ LoReg HiReg); auto.
  - rewrite Hag. apply negb_true_iff, Z.eqb_neq in Hag. cbn [mbind outcome_bind defined_if].
    rewrite (eqb_false (u32 _)) by (intros E; apply Hag; rewrite <- (s32_small _ Hb), <- s32_u32, E; done).
    apply (same_assign_both c m k _ _ LoReg HiReg); auto; words.
  - rewrite add_overflow_test, Hag by done. apply Hassign; words.
  - rewrite sub_overflow_test, Hag by done. apply Hassign; words.
  - apply Z.eqb_eq in Hag. rewrite Hag, Z.lor_diag. by apply Hassign.
Qed.

Lemma branch_same c m k w xpc (t : bool) :
  started c m → (t = true → R m NextPCReg = s32 (xpc + 4)) →
  same k (branch t w xpc c)
    (Ret (Done m k (if t then s32 (R m NextPCReg + IndexToAddr (immed w)) else s32 (R m NextPCReg + 4)) 0 0)).
Proof.
  intros Hs Hn. unfold branch. destruct t; [|by apply same_nothing]. rewrite (target_value w xpc) by auto.
  apply same_jump; [done|apply s32_range].
Qed.

Lemma immediate_same c m k w op xpc :
  started c m → free m (rs w) → free m (rt w) → (Z.land (Z.shiftr w 26) 0x3f, op) ∈ immediate_ops →
  let i := mkInstr (u32 w) op (rs w) (rt w) (rd w) (immed w) in
  agrees m i (R m (rs w)) (R m (rt w)) xpc (R m NextPCReg) = true →
  same k (immediate w xpc c) (execute big setStatus handler i m k (s32 (R m NextPCReg + 4))).
Proof.
  intros Hs Hrs Hrt Hin i. unfold immediate. pose proof (st_wf _ _ Hs) as Hw.
  assert (is_s32 (R m (rs w))) as Ha by (apply R_word; [done|destruct Hrs; regs]).
  assert (is_s32 (R m (rt w))) as Hb by (apply R_word; [done|destruct Hrt; regs]).
  pose proof (immed_s32 w) as Him.
  assert (∀ v, is_s32 v → same k (assign (rt w) v c) (Mips.assign (rt w) v m k (s32 (R m NextPCReg + 4)))) as Hassign
    by (intros v Hv; by apply same_assign).
  unfold immediate_ops in Hin. rewrite !elem_of_cons, elem_of_nil in Hin.
  destruct_or! Hin; try (by destruct Hin); injection Hin as Hf ->; rewrite Hf; unfold i, agrees, execute; operands Hs Hrs Hrt; intros Hag;
    switch; unfold exec_arith, exec_branch, exec_shift, exec_hilo, exec_load; operands Hs Hrs Hrt;
    rewrite ?(R_ok m NextPCReg) by (done || regs); cbn [mbind outcome_bind]; operands Hs Hrs Hrt.
  all: try solve [apply branch_same; [done|]; intros Ht; apply orb_true_iff in Hag as [Hag|Hag]; [by apply Z.eqb_eq|not_taken]].
  all: try solve [apply Hassign; words; try apply bool_int_word].
  - rewrite (Z.lxor_comm (R m (rs w)) (immed w)), (Z.add_comm (R m (rs w))) in *.
    rewrite add_overflow_test, Hag by done. apply Hassign; words.
  - rewrite and_immed by done. apply Hassign; words.
  - rewrite or_immed by done. apply Hassign; words.
  - apply Z.leb_le in Hag. rewrite immed_low by done. apply Hassign; words.
  - rewrite lui_value. apply Hassign; words.
Qed.

Lemma jump_same c m k w op xpc :
  started c m → (op = OP_JAL → free m 31) → (Z.land (Z.shiftr w 26) 0x3f = I_J ∧ op = OP_J ∨ Z.land (Z.shiftr w 26) 0x3f = I_JAL ∧ op = OP_JAL) →
  let i := mkInstr (u32 w) op (rs w) (rt w) (rd w) (Z.land w 0x3ffffff) in
  agrees m i (R m (rs w)) (R m (rt w)) xpc (R m NextPCReg) = true →
  same k (immediate w xpc c) (execute big setStatus handler i m k (s32 (R m NextPCReg + 4))).
Proof.
  intros Hs H31 Hop i. unfold immediate. pose proof (st_wf _ _ Hs) as Hw.
  rewrite (get_ok c (rs w) (st_length _ _ Hs) (field_range w 21)), (get_ok c (rt w) (st_length _ _ Hs) (field_range w 16)).
  cbn [mbind outcome_bind].
  destruct Hop as [[-> ->]|[-> ->]]; unfold i, agrees, execute, exec_jump; cbn [Mips.opCode Mips.extra]; intros Hag; switch;
    rewrite (R_ok m NextPCReg) by (done || regs); cbn [mbind outcome_bind].
  - apply Z.eqb_eq in Hag. rewrite (region_value w xpc) by done. apply same_jump; [done|apply s32_range].
  - apply andb_true_iff in Hag as [H1%Z.eqb_eq H2%Z.eqb_eq]. rewrite (region_value w xpc) by done. rewrite (link_value xpc) by done.
    destruct (same_set c m k 31 (s32 (xpc + 8)) (region_jump w xpc) Hs (H31 eq_refl) (s32_range _) (s32_range _))
      as (c' & m1 & E1 & E2 & _ & _ & Hsame & _). unfold R31. rewrite E1, E2. exact Hsame.
Qed.

(** A branch with a link: register 31 is set before the operand is read, in both. *)
Lemma link_same c m k w xpc :
  started c m → free m 31 → free m (rs w) → R m NextPCReg = s32 (xpc + 4) →
  ∃ c' m1 a, set c 31 (s32 (xpc + 8)) = Ret c' ∧ set_reg m R31 (s32 (R m NextPCReg + 4)) = Ret m1 ∧
    is_s32 a ∧ get c' (rs w) = Ret a ∧ reg m1 (rs w) = Ret a ∧
    ∀ t : bool, same k (branch t w xpc c')
      (Ret (Done m1 k (if t then s32 (R m NextPCReg + IndexToAddr (immed w)) else s32 (R m NextPCReg + 4)) 0 0)).
Proof.
  intros Hs H31 Hrs Hn. rewrite (link_value xpc) by done. rewrite (target_value w xpc) by done.
  destruct (same_set c m k 31 (s32 (xpc + 8)) (branch_target w xpc) Hs H31 (s32_range _) (s32_range _))
    as (c' & m1 & E1 & E2 & E3 & E4 & Hsame & Hpc & Hnpc).
  destruct (same_set c m k 31 (s32 (xpc + 8)) (s32 (xpc + 8)) Hs H31 (s32_range _) (s32_range _))
    as (c2 & m2 & F1 & F2 & _ & _ & Hsame2 & _). rewrite E1 in F1. injection F1 as <-. rewrite E2 in F2. injection F2 as <-.
  exists c', m1. eexists. split; [done|]. split; [done|]. split; [|split; [apply E3; [done|apply Hrs]|split; [by apply E4|]]].
  - destruct (31 =? rs w); [apply s32_range|]. apply R_word; [apply Hs|destruct Hrs; regs].
  - intros [|]; [exact Hsame|]. unfold branch. rewrite (st_npc _ _ Hs), (link_value xpc) in Hnpc by done.
    replace c' with (with_pc (pc c') (s32 (xpc + 8)) c') at 1; [done|]. rewrite <- Hnpc. by destruct c'.
Qed.

Lemma bcond_same c m k w xpc :
  started c m → ((rt w =? I_BLTZAL) || (rt w =? I_BGEZAL) = true → free m 31) → free m (rs w) →
  let i := mkInstr (u32 w) (bcond_op (rt w)) (rs w) (rt w) (rd w) (immed w) in
  agrees m i (R m (rs w)) (R m (rt w)) xpc (R m NextPCReg) = true →
  same k (bcond w xpc c) (execute big setStatus handler i m k (s32 (R m NextPCReg + 4))).
Proof.
  intros Hs H31 Hrs i. pose proof (st_wf _ _ Hs) as Hw.
  assert (is_s32 (R m (rs w))) as Ha by (apply R_word; [done|destruct Hrs; regs]).
  unfold i, agrees, bcond_op, bcond. cbn [Mips.opCode]. revert H31.
  destruct (rt w =? I_BLTZ); [|destruct (rt w =? I_BGEZ); [|destruct (rt w =? I_BLTZAL); [|destruct (rt w =? I_BGEZAL); [|discriminate]]]];
    intros H31 Hag; unfold execute, exec_branch; cbn [Mips.opCode Mips.rs Mips.extra];
    rewrite (R_ok m NextPCReg) by (done || regs); cbn [mbind outcome_bind].
  1,2: rewrite (started_get _ _ _ Hs Hrs), (started_reg _ _ _ Hs Hrs); cbn [mbind outcome_bind];
    rewrite sign_bit_s32 by done; replace (0 <=? R m (rs w)) with (negb (R m (rs w) <? 0)) in * by (by rewrite Z.leb_antisym);
    apply branch_same; [done|]; intros Ht; apply orb_true_iff in Hag as [Hag|Hag]; [by apply Z.eqb_eq|not_taken].
  all: apply Z.eqb_eq in Hag; rewrite ?orb_true_r in H31; destruct (link_same c m k w xpc Hs (H31 eq_refl) Hrs Hag) as (c' & m1 & a & -> & -> & Ha' & E1 & E2 & Hb);
    cbn [mbind outcome_bind]; rewrite E1, E2; cbn [mbind outcome_bind];
    rewrite sign_bit_s32, ?Z.ltb_antisym, ?negb_involutive by done; apply Hb.
Qed.

(** *** Loads and stores *)
Lemma hits_inv m va size writing : hits m va size writing = true →
  in_memory va size = true ∧ ∃ m1 pa, Translate m va size writing = Ret (m1, inr pa).
Proof.
  unfold hits. intros [Hi Ht]%andb_true_iff. split; [done|]. destruct (Translate m va size writing) as [[m1 [exc|pa]]| | |]; eauto; done.
Qed.

Lemma R_registers m m1 r : registers m1 = registers m → R m1 r = R m r.
Proof. intros E. unfold R. by rewrite E. Qed.

Lemma settled_registers m m1 r : registers m1 = registers m → settled m1 r = settled m r.
Proof. intros E. unfold settled. by rewrite !(R_registers m m1). Qed.

(** Both read the same bytes; the value that either makes of them goes to the register now, or as the delayed load. *)
Lemma read_both c m k va size :
  started c m → access_size size → hits m va size false = true →
  ∃ m1 bs, bytes_at c va size = Ret bs ∧ Forall is_byte bs ∧ length bs = Z.to_nat size ∧
    ReadMem big setStatus handler m k va size = Ret (Resume, m1, k, Some (loaded size (le_value bs))) ∧
    ((size =? 4) && negb (Z.land va 3 =? 0)) || ((size =? 2) && negb (Z.land va 1 =? 0)) = false ∧
    ∀ d v, 0 ≤ d < 32 → is_s32 v → same k (assign d v c) (Ret (Done m1 k (s32 (R m NextPCReg + 4)) d v)).
Proof.
  intros Hs Hsz (Hin & m1 & pa & Ht)%hits_inv. pose proof (st_mem _ _ Hs) as Hmem.
  destruct (load_related c m va size false m1 pa Hmem Hsz Hin Ht) as (bs & Eb & Em & Hbs & Hl). exists m1, bs.
  pose proof Ht as Ht'. apply Translate_inv in Ht' as (Hal & tab & i & e & _ & Htr & _ & _ & _ & Em1 & _); [|apply Hmem|done].
  split_and!; try done; [by apply (ReadMem_hit big setStatus handler m k va size m1 pa)|].
  intros d v Hd Hv. assert (registers m1 = registers m) as Ereg by by rewrite Em1.
  unfold assign. rewrite set_ok by (done || apply Hs). cbn [mbind outcome_bind].
  eapply same_step; try done; try apply Hs; try apply s32_range; try (rewrite (R_registers m m1) by done; apply Hs || done).
  - by apply (regs_wf_same m); [|apply Hs].
  - cbn. rewrite length_insert. apply Hs.
  - intros r Hr. rewrite G_set by (exact (st_length _ _ Hs) || lia). rewrite (Z.eqb_sym d r), (settled_registers m m1) by done.
    destruct (r =? d); [done|]. by apply Hs.
  - rewrite Em1. apply (mem_related_same c (touched m tab i e false)); [done|apply with_registers_id|].
    by eapply mem_related_touched.
Qed.

Lemma write_both c m k va size v :
  started c m → access_size size → hits m va size true = true →
  ∃ c' m1, store_bytes_at va (stored size v) c = Ret c' ∧ WriteMem big setStatus handler m k va size v = Ret (Resume, m1, k, true) ∧
    same k (Ret (Next c')) (Ret (Done m1 k (s32 (R m NextPCReg + 4)) 0 0)).
Proof.
  intros Hs Hsz (Hin & m1 & pa & Ht)%hits_inv. pose proof (st_mem _ _ Hs) as Hmem.
  destruct (store_related c m va size v m1 pa Hmem Hsz Hin Ht) as (c' & m2 & Ec & Ec' & Em & Ereg & Hmem'). exists c', m2.
  split; [done|]. split; [by rewrite (WriteMem_hit big setStatus handler m k va size v m1 pa), Em|].
  eapply same_step; try done; try apply s32_range; try (rewrite (R_registers m m2) by done); try (rewrite Ec'; apply Hs); try done.
  - by apply (regs_wf_same m); [|apply Hs].
  - intros r Hr. rewrite eqb_false, (settled_registers m m2) by (done || lia). rewrite Ec'. by apply Hs.
  - by rewrite Ec'.
Qed.

(** A byte and a short, with their sign. *)
Lemma byte_value v (sg : bool) : is_byte v →
  (if negb (Z.land (s8 v) 0x80 =? 0) && sg then s32 (Z.lor (s8 v) 0xffffff00) else Z.land (s8 v) 0xff) = if sg then s8 v else v.
Proof.
  intros Hv. assert (forallb (λ v, ((if negb (Z.land (s8 v) 0x80 =? 0) && sg then s32 (Z.lor (s8 v) 0xffffff00)
    else Z.land (s8 v) 0xff) =? if sg then s8 v else v)) (seqZ 0 256) = true) as Ha by (destruct sg; vm_compute; reflexivity).
  rewrite forallb_forall in Ha. apply Z.eqb_eq, Ha, list_elem_of_In, elem_of_seqZ. unfold is_byte in Hv. lia.
Qed.

Lemma short_value v (sg : bool) : 0 ≤ v < 2 ^ 16 →
  (if negb (Z.land (v mod 2 ^ 16) 0x8000 =? 0) && sg then s32 (Z.lor (v mod 2 ^ 16) 0xffff0000) else Z.land (v mod 2 ^ 16) 0xffff) =
  if sg then s16 v else v.
Proof.
  intros Hv. assert (Z.land (v mod 2 ^ 16) 0xffff = v mod 2 ^ 16) as ->.
  { change 0xffff with (Z.ones 16). rewrite Z.land_ones by lia. by rewrite Z.mod_mod. }
  destruct sg; [|rewrite andb_false_r; by apply Z.mod_small]. rewrite andb_true_r.
  assert (- 2 ^ 15 ≤ s16 v < 2 ^ 15) as Hs by (unfold s16; Z.div_mod_to_equations; lia).
  assert (v mod 2 ^ 16 = s16 v mod 2 ^ 16) as -> by (unfold s16; Z.div_mod_to_equations; lia). by apply sign_extend_16.
Qed.

Lemma one_byte bs : Forall is_byte bs → length bs = 1%nat → is_byte (le_value bs).
Proof. intros Hb Hl. pose proof (le_value_bound _ Hb) as Hv. rewrite Hl in Hv. unfold is_byte. cbn in Hv. lia. Qed.

Lemma access_same c m k w op xpc :
  started c m → free m (rs w) → free m (rt w) → (Z.land (Z.shiftr w 26) 0x3f, op) ∈ access_ops →
  let i := mkInstr (u32 w) op (rs w) (rt w) (rd w) (immed w) in
  agrees m i (R m (rs w)) (R m (rt w)) xpc (R m NextPCReg) = true →
  same k (access w c) (execute big setStatus handler i m k (s32 (R m NextPCReg + 4))).
Proof.
  intros Hs Hrs Hrt Hin i. unfold access. pose proof (proj1 Hrt) as Hd.
  assert (∀ v, is_byte v → is_s32 v ∧ is_s32 (s8 v)) as Hbyte
    by (intros v Hv; pose proof (s8_range v); unfold is_byte, is_s32 in *; lia).
  assert (∀ v, 0 ≤ v < 2 ^ 16 → is_s32 v ∧ is_s32 (s16 v)) as Hshort
    by (intros v Hv; unfold is_s32, s16; Z.div_mod_to_equations; lia).
  assert (∀ bs, Forall is_byte bs → length bs = 2%nat → 0 ≤ le_value bs < 2 ^ 16) as Htwo
    by (intros bs Hb Hl; pose proof (le_value_bound _ Hb) as Hv; by rewrite Hl in Hv).
  unfold access_ops in Hin. rewrite !elem_of_cons, elem_of_nil in Hin.
  destruct_or! Hin; try (by destruct Hin); injection Hin as Hf ->; rewrite Hf; unfold i, agrees, execute; operands Hs Hrs Hrt; intros Hag;
    switch; unfold exec_load, exec_store; operands Hs Hrs Hrt; cbn [mbind outcome_bind].
  - destruct (read_both c m k _ 1 Hs ltac:(by left) Hag) as (m1 & bs & E1 & Hb & Hl & E2 & _ & Hv).
    unfold cfetch. rewrite E1, E2. cbn [mbind outcome_bind]. unfold loaded. cbn [Z.eqb Pos.eqb].
    pose proof (one_byte bs Hb Hl) as H1. rewrite byte_value by done. by apply Hv, Hbyte.
  - destruct (read_both c m k _ 1 Hs ltac:(by left) Hag) as (m1 & bs & E1 & Hb & Hl & E2 & _ & Hv).
    unfold ucfetch. rewrite E1, E2. cbn [mbind outcome_bind]. unfold loaded. cbn [Z.eqb Pos.eqb].
    pose proof (one_byte bs Hb Hl) as H1. rewrite byte_value by done. by apply Hv, Hbyte.
  - destruct (read_both c m k _ 2 Hs ltac:(by right; left) Hag) as (m1 & bs & E1 & Hb & Hl & E2 & Hal & Hv).
    cbn in Hal. rewrite Hal. unfold sfetch. rewrite E1, E2. cbn [mbind outcome_bind]. unfold loaded. cbn [Z.eqb Pos.eqb].
    rewrite short_value by auto. by apply Hv, Hshort, Htwo.
  - destruct (read_both c m k _ 2 Hs ltac:(by right; left) Hag) as (m1 & bs & E1 & Hb & Hl & E2 & Hal & Hv).
    cbn in Hal. rewrite Hal. unfold usfetch. rewrite E1, E2. cbn [mbind outcome_bind]. unfold loaded. cbn [Z.eqb Pos.eqb].
    rewrite short_value by auto. by apply Hv, Hshort, Htwo.
  - destruct (read_both c m k _ 4 Hs ltac:(by right; right) Hag) as (m1 & bs & E1 & Hb & Hl & E2 & Hal & Hv).
    cbn in Hal. rewrite orb_false_r in Hal. rewrite Hal. unfold fetch. rewrite E1, E2. cbn [mbind outcome_bind]. unfold loaded.
    cbn [Z.eqb Pos.eqb]. by apply Hv, s32_range.
  - destruct (write_both c m k _ 1 (R m (rt w)) Hs ltac:(by left) Hag) as (c' & m1 & E1 & E2 & Hsame).
    unfold cstore. unfold stored in E1. change (Z.to_nat 1) with 1%nat in E1. rewrite E1, E2. done.
  - destruct (write_both c m k _ 2 (R m (rt w)) Hs ltac:(by right; left) Hag) as (c' & m1 & E1 & E2 & Hsame).
    unfold sstore. unfold stored in E1. change (Z.to_nat 2) with 2%nat in E1. rewrite E1, E2. done.
  - destruct (write_both c m k _ 4 (R m (rt w)) Hs ltac:(by right; right) Hag) as (c' & m1 & E1 & E2 & Hsame).
    unfold store. unfold stored in E1. change (Z.to_nat 4) with 4%nat in E1. rewrite E1, E2. done.
Qed.

(** The entries of [opTable] outside the two nested tables. *)
Lemma plain_opcode k op fmt :
  Prelude.rd opTable k = Ret (mkOpInfo op fmt) → k ≠ I_SPECIAL → k ≠ I_BCOND → op ≠ SPECIAL ∧ op ≠ BCOND ∧ fmt ≠ RFMT.
Proof.
  intros [Hf Ho]%rd_Ret N0 N1. change (Z.of_nat (length opTable)) with 64 in Hf.
  assert (forallb (λ k, match opTable !! Z.to_nat k with
    | Some (mkOpInfo op fmt) => bool_decide (k = I_SPECIAL ∨ k = I_BCOND ∨ op ≠ SPECIAL ∧ op ≠ BCOND ∧ fmt ≠ RFMT)
    | None => true end) (seqZ 0 64) = true) as Ha by (vm_compute; reflexivity).
  rewrite forallb_forall in Ha. specialize (Ha k). rewrite Ho in Ha.
  assert (k ∈ seqZ 0 64) as Hin by (apply elem_of_seqZ; lia). apply list_elem_of_In, Ha in Hin.
  apply bool_decide_eq_true_1 in Hin. destruct Hin as [?|[?|?]]; done.
Qed.

Lemma immediate_low k op : (k, op) ∈ immediate_ops → (k <=? I_LUI) = true.
Proof.
  unfold immediate_ops. rewrite !elem_of_cons, elem_of_nil. intros Hin.
  destruct_or! Hin; try (by destruct Hin); by injection Hin as -> _.
Qed.

(** The opcodes below and above I_LUI. *)
Lemma access_high k op : (k, op) ∈ access_ops → (k <=? I_LUI) = false ∧ k ≠ I_J ∧ k ≠ I_JAL.
Proof.
  unfold access_ops. rewrite !elem_of_cons, elem_of_nil. intros Hin.
  destruct_or! Hin; try (by destruct Hin); by injection Hin as -> _.
Qed.
Lemma immediate_no_jump k op : (k, op) ∈ immediate_ops → k ≠ I_J ∧ k ≠ I_JAL.
Proof.
  unfold immediate_ops. rewrite !elem_of_cons, elem_of_nil. intros Hin.
  destruct_or! Hin; try (by destruct Hin); by injection Hin as -> _.
Qed.

(** One instruction that both have fetched. *)
Lemma execute_same c m k w i xpc :
  started c m → (∀ r, r ∈ named w → free m r) → Decode (u32 w) = Ret i →
  agrees m i (R m (rs w)) (R m (rt w)) xpc (R m NextPCReg) = true →
  same k (execute_instr host w xpc c) (execute big setStatus handler i m k (s32 (R m NextPCReg + 4))).
Proof.
  intros Hs Hfree Hdec Hag. pose proof (agrees_supported _ _ _ _ _ _ Hag) as Hsup. unfold named in Hfree.
  destruct (rd_in_range opTable (Z.land (Z.shiftr w 26) 0x3f)) as [[op fmt] Hop].
  { change (Z.of_nat (length opTable)) with (2 ^ 6). apply (land_mask_range _ 6). lia. }
  unfold execute_instr. destruct (Z.eqb_spec (Z.land (Z.shiftr w 26) 0x3f) I_SPECIAL) as [E0|N0].
  { destruct (rd_in_range specialTable (Z.land w 0x3f)) as [op' Hop'].
    { change (Z.of_nat (length specialTable)) with (2 ^ 6). apply (land_mask_range _ 6). lia. }
    rewrite (decode_special w _ op' E0 eq_refl Hop') in Hdec. injection Hdec as <-. cbn [Mips.opCode] in Hsup.
    apply special_same; [done|apply Hfree; set_solver..|by apply special_supported|done]. }
  destruct (Z.eqb_spec (Z.land (Z.shiftr w 26) 0x3f) I_BCOND) as [E1|N1].
  { rewrite (decode_bcond w E1) in Hdec. injection Hdec as <-. apply bcond_same; [done| | |done].
    - intros Hl. rewrite Hl in Hfree. apply Hfree. set_solver.
    - apply Hfree. destruct (_ || _); set_solver. }
  assert (op ≠ SPECIAL ∧ op ≠ BCOND ∧ fmt ≠ RFMT) as (Ns & Nb & Nf) by (by apply (plain_opcode _ _ _ Hop)).
  destruct fmt.
  - rewrite (decode_immediate w _ op eq_refl Hop Ns Nb) in Hdec. injection Hdec as <-. cbn [Mips.opCode] in Hsup.
    destruct (immediate_supported _ _ _ Hop Hsup) as [[[Hin|Hin] _]|[_ ?]]; [| |done].
    + destruct (immediate_no_jump _ _ Hin) as [NJ NL]. rewrite (eqb_false _ I_J), (eqb_false _ I_JAL) in Hfree by done.
      rewrite (immediate_low _ _ Hin). apply immediate_same; [done|apply Hfree; set_solver..|done|done].
    + destruct (access_high _ _ Hin) as (E & NJ & NL). rewrite (eqb_false _ I_J), (eqb_false _ I_JAL) in Hfree by done.
      rewrite E. apply access_same with xpc; [done|apply Hfree; set_solver..|done|done].
  - rewrite (decode_jump w _ op eq_refl Hop Ns Nb) in Hdec. injection Hdec as <-. cbn [Mips.opCode] in Hsup.
    destruct (immediate_supported _ _ _ Hop Hsup) as [[_ ?]|[Hj _]]; [done|].
    assert ((Z.land (Z.shiftr w 26) 0x3f <=? I_LUI) = true) as -> by (by destruct Hj as [[-> _]|[-> _]]).
    apply jump_same; [done| |done|done]. intros ->. destruct Hj as [[_ ?]|[Hj _]]; [done|]. rewrite Hj in Hfree.
    apply Hfree. cbn. set_solver.
  - done.
Qed.

(** The fetch changes no register. *)
Lemma Translate_registers m va size writing m1 r : Translate m va size writing = Ret (m1, r) → registers m1 = registers m.
Proof.
  unfold Translate. destruct (_ || _); [by intros [= <- _]|]. cbn zeta.
  destruct (find_entry _ _) as [[exc|[tab i]]| | |]; try done; cbn [mbind outcome_bind]; [by intros [= <- _]|].
  destruct (Prelude.rd _ i) as [e| | |]; try done. cbn [mbind outcome_bind].
  destruct (_ && _); [by intros [= <- _]|]. destruct (_ <=? _); [by intros [= <- _]|].
  destruct (wr _ i _) as [t| | |]; try done. cbn [mbind outcome_bind].
  unfold ASSERT. destruct (_ && _); [|done]. by intros [= <- _].
Qed.

Lemma fetch_both c m k va m0 k0 w :
  mem_related c m → in_memory va 4 = true → ReadMem big setStatus handler m k va 4 = Ret (Resume, m0, k0, Some w) →
  ifetch c va = Ret w ∧ registers m0 = registers m ∧ k0 = k ∧ mem_related c m0.
Proof.
  intros Hmem Hin Hread. assert (access_size 4) as Hsz by (by right; right).
  destruct (Translate m va 4 false) as [[m1 [exc|pa]]| | |] eqn:Ht;
    [unfold ReadMem in Hread; rewrite Ht in Hread; cbn [mbind outcome_bind] in Hread;
       by destruct (RaiseException setStatus handler exc va m1 k) as [[[c1 m2] k2]| | |]
    | |unfold ReadMem in Hread; by rewrite Ht in Hread..].
  destruct (load_related c m va 4 false m1 pa Hmem Hsz Hin Ht) as (bs & Eb & Em & Hbs & Hl).
  rewrite (ReadMem_hit big setStatus handler m k va 4 m1 pa bs Hsz Ht Em Hbs Hl) in Hread. injection Hread as <- <- <-.
  apply Translate_inv in Ht as (_ & tab & i & e & _ & Htr & _ & _ & _ & -> & _); [|apply Hmem|done].
  unfold ifetch, fetch. rewrite Eb. split_and!; [done..|by eapply mem_related_touched].
Qed.

Lemma related_fetched c m m0 : registers m0 = registers m → mem_related c m0 → related c m → related c m0.
Proof.
  intros E Hmem [L1 L2 L3 L4 L5 L6 L7 L8 L9].
  assert (∀ r, R m0 r = R m r) as HR by (intros r; unfold R; by rewrite E).
  split; [done|by apply (regs_wf_same m)|by rewrite HR| |by rewrite HR..|done].
  intros r Hr. unfold settled. rewrite !HR. by apply L4.
Qed.

(** The word 0 is no instruction in execute.c, and a shift of r0 in mipssim.cc. *)
Lemma nop_same c m k : started c m →
  same k (Ret (Next c)) (execute big setStatus handler (mkInstr 0 OP_SLL 0 0 0 0) m k (s32 (R m NextPCReg + 4))).
Proof.
  intros Hs. pose proof (st_wf _ _ Hs) as Hw. unfold execute, exec_shift. cbn [Mips.opCode Mips.rs Mips.rt Mips.rd Mips.extra].
  rewrite R_ok by (done || regs). cbn [mbind outcome_bind]. rewrite (st_zero _ _ Hs).
  unfold Mips.assign. rewrite set_reg_put by (done || regs). cbn [mbind outcome_bind].
  assert (∀ r, 0 ≤ r < NumTotalRegs → R (put_reg m 0 0) r = R m r) as HR.
  { intros r Hr. rewrite R_put by (done || regs). destruct (Z.eqb_spec 0 r) as [<-|]; [|done]. symmetry. apply Hs. }
  change (s32 (Z.shiftl 0 0)) with 0.
  eapply same_effect; try apply Hs; try apply s32_range; try done.
  - apply put_reg_wf; done || regs.
  - apply HR. regs.
  - intros r Hr. unfold settled. rewrite !HR by regs. by apply Hs.
  - rewrite HR by regs. apply Hs.
  - rewrite HR by regs. apply Hs.
Qed.

Lemma one_same c m k m0 w i :
  related c m → in_memory (R m PCReg) 4 = true → ReadMem big setStatus handler m k (R m PCReg) 4 = Ret (Resume, m0, k, Some w) →
  (∀ r, r ∈ named w → free m r) → Decode (u32 w) = Ret i →
  agrees m0 i (R m (rs w)) (R m (rt w)) (R m PCReg) (R m NextPCReg) = true →
  ∃ c' m', run_one host c = Ret (Next c') ∧ OneInstruction big setStatus handler m k = Ret (Resume, m', k) ∧ related c' m'.
Proof.
  intros Hrel Hin Hread Hfree Hdec Hag. destruct (fetch_both _ _ _ _ _ _ _ (rl_mem _ _ Hrel) Hin Hread) as (Hf & Ereg & _ & Hmem).
  assert (∀ r, R m0 r = R m r) as HR by (intros r; unfold R; by rewrite Ereg).
  destruct (related_started c m0 (related_fetched _ _ _ Ereg Hmem Hrel)) as (c0 & Ec & Hs).
  unfold run_one, OneInstruction. rewrite R_ok by (apply Hrel || regs). cbn [mbind outcome_bind].
  rewrite Hread. cbn [mbind outcome_bind]. rewrite Hdec. cbn [mbind outcome_bind].
  rewrite R_ok by (apply Hs || regs). cbn [mbind outcome_bind].
  change (ifetch (with_pc _ _ c) (pc c)) with (ifetch c (pc c)). rewrite (rl_pc _ _ Hrel), Hf. cbn [mbind outcome_bind].
  rewrite Ec. cbn [mbind outcome_bind].
  assert (same k (if negb (w =? 0) then execute_instr host w (R m PCReg) c0 else Ret (Next c0))
    (execute big setStatus handler i m0 k (s32 (R m0 NextPCReg + 4)))) as (c' & m1 & p & nr & nv & m' & E1 & E2 & E3 & Hrel').
  { destruct (Z.eqb_spec w 0) as [->|Hne]; cbn [negb].
    - vm_compute in Hdec. injection Hdec as <-. by apply nop_same.
    - apply execute_same; [done| |done|by rewrite !HR].
      intros r Hr. destruct (Hfree r Hr) as [H1 H2]. split; [done|]. by rewrite HR. }
  rewrite E2, E1. cbn [mbind outcome_bind]. rewrite E3. by exists c', m'.
Qed.

End agreement.

(** *** ilog2 *)
(** All bits of [i] are in the block of [2 ^ k] bits around its highest bit [n]. *)
Definition top_block (i n k : Z) : Prop :=
  is_s32 i ∧ 0 ≤ n < 32 ∧ Z.testbit (u32 i) n = true ∧
  ∀ j, 0 ≤ j → Z.testbit (u32 i) j = true → j ≤ n ∧ j / 2 ^ (Z.succ k) = n / 2 ^ (Z.succ k).

Definition index_mask (mask k : Z) : bool := forallb (λ j, Bool.eqb (Z.testbit mask j) (Z.testbit j k)) (seqZ 0 32).

Lemma index_mask_ok mask k j : index_mask mask k = true → 0 ≤ j < 32 → Z.testbit mask j = Z.testbit j k.
Proof.
  unfold index_mask. rewrite forallb_forall. intros Hm Hj. apply eqb_prop, Hm, list_elem_of_In, elem_of_seqZ. lia.
Qed.

Lemma testbit_high_u32 i j : 32 ≤ j → Z.testbit (u32 i) j = false.
Proof. intros Hj. rewrite testbit_u32 by lia. by rewrite ltb_false by lia. Qed.

Lemma index_halves n j k : 0 ≤ k → 0 ≤ j ≤ n → j / 2 ^ Z.succ k = n / 2 ^ Z.succ k →
  (Z.testbit j k = true → Z.testbit n k = true) ∧ (Z.testbit j k = Z.testbit n k → j / 2 ^ k = n / 2 ^ k).
Proof.
  intros Hk Hj He.
  assert (∀ x, 0 ≤ x → x / 2 ^ k = 2 * (x / 2 ^ Z.succ k) + Z.b2z (Z.testbit x k)) as Hx.
  { intros x Hx. rewrite Z.testbit_spec' by lia.
    assert (x / 2 ^ Z.succ k = x / 2 ^ k / 2) as -> by (rewrite Z.pow_succ_r, (Z.mul_comm 2), Z.div_div by lia; done).
    apply Z.div_mod. lia. }
  pose proof (Z.div_le_mono j n (2 ^ k) ltac:(lia) ltac:(lia)) as Hle. rewrite !Hx, He in Hle by lia.
  split.
  - intros E. rewrite E in Hle. destruct (Z.testbit n k); [done|]. cbn in Hle. lia.
  - intros E. rewrite !Hx, He, E by lia. done.
Qed.

Lemma ilog2_step_ok mask width k i n l :
  0 ≤ k → index_mask mask k = true → top_block i n k →
  ∃ i', ilog2_step mask width (i, l) = (i', l + width * Z.b2z (Z.testbit n k)) ∧ top_block i' n (k - 1).
Proof.
  intros Hk Hm (Hi & Hn & Ht & Hb). unfold ilog2_step.
  assert (∀ j, 0 ≤ j → Z.testbit (Z.land (u32 i) mask) j = Z.testbit (u32 i) j && Z.testbit j k) as HM.
  { intros j Hj. rewrite Z.land_spec. destruct (Z.lt_ge_cases j 32); [by rewrite (index_mask_ok mask k) by (done || lia)|].
    by rewrite testbit_high_u32 by lia. }
  assert (u32 (s32 (Z.land (u32 i) mask)) = Z.land (u32 i) mask) as Hu
    by (rewrite u32_s32; apply u32_small, is_u32_land, u32_range).
  assert (∀ j, 0 ≤ j → Z.testbit (u32 i) j = true → (Z.testbit j k = true → Z.testbit n k = true) ∧
    (Z.testbit j k = Z.testbit n k → j ≤ n ∧ j / 2 ^ Z.succ (k - 1) = n / 2 ^ Z.succ (k - 1))) as Hhalf.
  { intros j Hj Hbit. destruct (Hb j Hj Hbit) as [Hle He]. replace (Z.succ (k - 1)) with k by lia.
    destruct (index_halves n j k ltac:(lia) ltac:(lia) He) as [H1 H2]. auto. }
  destruct (Z.testbit n k) eqn:En.
  - assert (Z.testbit (u32 (s32 (Z.land (u32 i) mask))) n = true) as Htop by (rewrite Hu, HM, Ht, En by lia; done).
    rewrite eqb_false by (intros E; rewrite E, Z.bits_0 in Htop; done). cbn [negb Z.b2z]. eexists. split; [by rewrite Z.mul_1_r|].
    split; [apply s32_range|]. split; [done|]. split; [done|]. intros j Hj. rewrite Hu, HM by lia.
    intros [H1 H2]%andb_true_iff. by apply Hhalf.
  - assert (Z.land (u32 i) mask = 0) as ->.
    { apply Z.bits_inj'. intros j Hj. rewrite HM, Z.bits_0 by lia. apply andb_false_iff.
      destruct (Z.testbit (u32 i) j) eqn:E; [right|by left]. destruct (Hhalf j Hj E) as [H1 _].
      destruct (Z.testbit j k); [|done]. by specialize (H1 eq_refl). }
    change (negb (s32 0 =? 0)) with false. cbn [Z.b2z]. eexists. split; [by rewrite Z.mul_0_r, Z.add_0_r|].
    split; [done|]. split; [done|]. split; [done|]. intros j Hj Hbit. apply Hhalf; [done|done|].
    destruct (Hhalf j Hj Hbit) as [H1 _]. destruct (Z.testbit j k); [|done]. by specialize (H1 eq_refl).
Qed.

(** The number of bits of a word. *)
Lemma ilog2_bits i : is_s32 i → i ≠ 0 → 2 ^ (ilog2 i - 1) ≤ u32 i < 2 ^ ilog2 i.
Proof.
  intros Hi H0. unfold ilog2. rewrite eqb_false by done.
  assert (0 < u32 i) as Hpos by (rewrite u32_s32_eq by done; unfold is_s32 in *; destruct (Z.ltb_spec i 0); lia).
  pose proof (u32_range i) as Hr. unfold is_u32 in Hr. set (n := Z.log2 (u32 i)).
  assert (0 ≤ n < 32) as Hn by (split; [apply Z.log2_nonneg|apply Z.log2_lt_pow2; lia]).
  assert (top_block i n 4) as H5.
  { split; [done|]. split; [done|]. split; [by apply Z.bit_log2|]. intros j Hj Hbit.
    assert (j ≤ n) as Hle by (apply Z.le_ngt; intros Hlt; by rewrite Z.bits_above_log2 in Hbit by lia).
    split; [done|]. by rewrite !Z.div_small by lia. }
  destruct (ilog2_step_ok 0xffff0000 16 4 i n 1) as (i4 & -> & H4); [done..|].
  destruct (ilog2_step_ok 0xff00ff00 8 3 i4 n (1 + 16 * Z.b2z (Z.testbit n 4))) as (i3 & -> & H3); [done..|].
  edestruct (ilog2_step_ok 0xf0f0f0f0 4 2 i3 n) as (i2 & -> & H2); [done..|].
  edestruct (ilog2_step_ok 0xcccccccc 2 1 i2 n) as (i1 & -> & H1); [done..|].
  edestruct (ilog2_step_ok 0xaaaaaaaa 1 0 i1 n) as (i0 & -> & _); [done..|]. cbn [snd].
  assert (1 + 16 * Z.b2z (Z.testbit n 4) + 8 * Z.b2z (Z.testbit n 3) + 4 * Z.b2z (Z.testbit n 2)
    + 2 * Z.b2z (Z.testbit n 1) + 1 * Z.b2z (Z.testbit n 0) = n + 1) as ->.
  { rewrite !Z.testbit_spec' by lia. Z.div_mod_to_equations. lia. }
  replace (n + 1 - 1) with n by lia. rewrite Z.add_1_r. apply Z.log2_spec. lia.
Qed.

(** The table above [ilog2] in the source has 1 for 2 and 2 for 4. *)
Example ilog2_of_powers : map ilog2 [0; 1; 2; 3; 4; 7; 8; -1] = [0; 1; 2; 2; 3; 3; 4; 32].
Proof. vm_compute. reflexivity. Qed.

(** The same program for both: LB r3, 3(r1) at [memoffset], with a pending load into r2; r1 is [memoffset], in frame 2. *)
Definition example_word : Z := s32 0x80230003.
Definition example_kernel_cpu : Machine :=
  mkMachine (<[256%nat := 0x03]> (<[258%nat := 0x23]> (<[259%nat := 0x80]> (replicate 512 0))))
    (<[1%nat := memoffset]> (<[34%nat := memoffset]> (<[35%nat := memoffset + 4]> (<[37%nat := 2]> (<[38%nat := 9]> (replicate 40 0))))))
    {[ 0%nat := replicate 4 (mkTE (memoffset / PageSize) 2 true false false false) ]} (Some 0%nat) None 0 false 0.
Definition example_user_cpu : Cpu :=
  mkCpu (<[1%nat := memoffset]> (<[2%nat := 9]> (replicate 32 0))) 0 0
    (list_to_map [(memoffset, 0x03); (memoffset + 2, 0x23); (memoffset + 3, 0x80)]) memoffset (memoffset + 4).

(** One page of the interpreter's memory is in a frame. *)
Lemma example_where va pa :
  in_memory va 1 = true → where_ example_kernel_cpu va = Some pa → pa = va - memoffset + 256 ∧ 0 ≤ va - memoffset < 128.
Proof.
  intros Hin. unfold where_. rewrite (in_memory_u32 va 1 Hin) by done.
  assert (∀ v, find_entry example_kernel_cpu v = Ret (if memoffset / PageSize =? v then inr (0%nat, 0) else inl PageFaultException)) as ->.
  { intros v. set (e := mkTE (memoffset / PageSize) 2 true false false false).
    assert (∀ i, i ∈ [0; 1; 2; 3] → Prelude.rd (replicate 4 e) i = Ret e) as He
      by (intros i Hi; rewrite !elem_of_cons, elem_of_nil in Hi; by destruct_or! Hi; subst).
    unfold find_entry. cbn [tlb pageTable tables example_kernel_cpu]. rewrite lookup_singleton_eq. fold e.
    change (Z.to_nat TLBSize) with 4%nat. cbn [tlb_search]. rewrite !He by set_solver. cbn [mbind outcome_bind].
    change (valid e && (u32 (virtualPage e) =? v)) with (memoffset / PageSize =? v).
    by destruct (memoffset / PageSize =? v). }
  destruct (Z.eqb_spec (memoffset / PageSize) (va / PageSize)) as [E|]; [|done].
  change (Prelude.rd (default [] (tables example_kernel_cpu !! 0%nat)) 0) with
    (Ret (mkTE (memoffset / PageSize) 2 true false false false)). cbv iota beta. cbn [physicalPage]. change (u32 2) with 2.
  change (2 <? NumPhysPages) with true. cbv iota. intros [= <-]. apply in_memory_spec in Hin as [Hin _].
  unfold PageSize, SectorSize, memoffset in *. Z.div_mod_to_equations. lia.
Qed.

Lemma example_memories : mem_related example_user_cpu example_kernel_cpu.
Proof.
  split.
  - right. exists 0%nat, (replicate 4 (mkTE (memoffset / PageSize) 2 true false false false)). done.
  - split; [done|]. apply (bool_decide_unpack (Forall (λ z, 0 ≤ z ∧ z < 256) _)). vm_compute. exact I.
  - intros va va' pa H1 H2 E1%example_where E2%example_where; [lia|done..].
  - intros va pa H1 E1%example_where; [|done]. destruct E1 as [-> Hr].
    assert (forallb (λ j, bool_decide (mainMemory example_kernel_cpu !! Z.to_nat (j + 256) =
      Some (default 0 (mem example_user_cpu !! (memoffset + j))))) (seqZ 0 128) = true) as Ha by (vm_compute; reflexivity).
    rewrite forallb_forall in Ha. specialize (Ha (va - memoffset)).
    replace (memoffset + (va - memoffset)) with va in Ha by lia. eapply bool_decide_eq_true_1, Ha, list_elem_of_In, elem_of_seqZ. lia.
Qed.

Lemma example_related : related example_user_cpu example_kernel_cpu.
Proof.
  split; try (vm_compute; reflexivity); [| |apply example_memories].
  - split; [done| |].
    + apply (bool_decide_unpack (Forall (λ z, -2 ^ 31 ≤ z ∧ z < 2 ^ 31) _)). vm_compute. exact I.
    + intros lr E. vm_compute in E. injection E as <-. done.
  - intros r Hr. assert (forallb (λ r, G example_user_cpu r =? settled example_kernel_cpu r) (seqZ 0 32) = true) as Ha
      by (vm_compute; reflexivity).
    rewrite forallb_forall in Ha. apply Z.eqb_eq, Ha, list_elem_of_In, elem_of_seqZ. lia.
Qed.

(** C6: execute.c and the processor of the kernel agree on every instruction that [agrees] allows, loads and stores included: if
    they start with the same registers, program counters and memory ([related]: a load that is still delayed in the machine
    counts as done, and the pages the machine has in frames are those of the interpreter), and none of the registers the
    instruction names waits for a delayed load, then both finish the instruction and are again [related]. *)
Theorem simulators_agree {K} big (setStatus : MachineStatus → K → K) handler host c m k m0 w i :
  related c m → in_memory (R m PCReg) 4 = true → ReadMem big setStatus handler m k (R m PCReg) 4 = Ret (Resume, m0, k, Some w) →
  (∀ r, r ∈ named w → free m r) → Decode (u32 w) = Ret i →
  agrees m0 i (R m (rs w)) (R m (rt w)) (R m PCReg) (R m NextPCReg) = true →
  ∃ c' m', run_one host c = Ret (Next c') ∧ OneInstruction big setStatus handler m k = Ret (Resume, m', k) ∧ related c' m'.
Proof. apply one_same. Qed.

Definition no_host (n o0 o1 o2 : Z) (mem : gmap Z Z) : outcome (gmap Z Z * Z) := Ret (mem, 0).

(** The load of r2 arrives, that of r3 is delayed: -128 is the byte 0x80. *)
Lemma simulators_agree_witness :
  ∃ c' m', run_one no_host example_user_cpu = Ret (Next c') ∧ G c' 3 = -128 ∧
    OneInstruction false (λ _ k, k) no_handler example_kernel_cpu () = Ret (Resume, m', ()) ∧
    R m' LoadReg = 3 ∧ R m' LoadValueReg = -128 ∧ R m' 2 = 9 ∧ related c' m'.
Proof.
  destruct (simulators_agree false (λ _ k, k) no_handler no_host example_user_cpu example_kernel_cpu ()
    (with_tables example_kernel_cpu (tables (match ReadMem false (λ _ k, k) no_handler example_kernel_cpu () memoffset 4 with
       Ret (_, m, _, _) => m | _ => example_kernel_cpu end))) example_word
    (mkInstr 0x80230003 OP_LB 1 3 0 3) example_related) as (c' & m' & E1 & E2 & Hrel);
    try (vm_compute; reflexivity).
  - intros r Hr. change (named example_word) with [1; 3] in Hr. rewrite !elem_of_cons, elem_of_nil in Hr.
    split; [lia|]. right. change (R example_kernel_cpu LoadReg) with 2. lia.
  - exists c', m'. split; [exact E1|]. vm_compute in E1. injection E1 as <-. split; [reflexivity|]. split; [exact E2|].
    vm_compute in E2. injection E2 as <-. split; [reflexivity|]. split; [reflexivity|]. split; [reflexivity|exact Hrel].
Defined.

(** Where they differ. *)
Section differences.
Definition with_operands (a b : Z) : Cpu := mkCpu (<[1%nat := a]> (<[2%nat := b]> (replicate 32 0))) 0 0 ∅ 0 4.
Definition after (r : outcome result) (j : Z) : option Z := match r with Ret (Next c) => Some (G c j) | _ => None end.
Definition hi_lo_after (r : outcome result) : option (Z * Z) := match r with Ret (Next c) => Some (HI c, LO c) | _ => None end.

(** ANDI r3, r1, 0x8000 keeps the high half of r1, which the MIPS clears. *)
Example ANDI_extends_sign :
  after (execute_instr no_host 0x30238000 0 (with_operands 0x7fff8001 0)) 3 = Some 0x7fff8000 ∧
  Z.land 0x7fff8001 0x8000 = 0x8000.
Proof. split; vm_compute; reflexivity. Qed.

(** MULTU r1, r2 loses the carries of the low half: the high word of 0x1ffff * 0x1ffff is 3. *)
Example MULTU_loses_carries :
  hi_lo_after (execute_instr no_host 0x00220019 0 (with_operands 0x1ffff 0x1ffff)) = Some (1, s32 (0x1ffff * 0x1ffff)) ∧
  Mult 0x1ffff 0x1ffff false = (3, s32 (0x1ffff * 0x1ffff)).
Proof. split; vm_compute; reflexivity. Qed.

(** The mask of LWL is -1 shifted right as an int: it removes nothing of the old register. *)
Example LWL_keeps_register :
  after (execute_instr no_host 0x88220001 0 (with_reg (<[1%nat := memoffset]> (<[2%nat := 0x7fffffff]> (replicate 32 0)))
    (mkCpu (replicate 32 0) 0 0 (list_to_map [(memoffset, 0x11)]) 0 4))) 2 = Some 0x7fffffff.
Proof. vm_compute. reflexivity. Qed.

(** ADD does not trap on an overflow. *)
Example ADD_wraps : after (execute_instr no_host 0x00221820 0 (with_operands (2 ^ 31 - 1) 1)) 3 = Some (- 2 ^ 31).
Proof. vm_compute. reflexivity. Qed.

(** The arguments of a program overwrite each other when there are more than eight: the ninth address is stored where the
    first string begins. *)
Example ninth_argument_overwrites :
  match push_args (replicate 9 [0x61]) (memoffset + 4) (memoffset + 4 + 32) (with_operands 0 0) with
  | Ret c => bytes_at c (memoffset + 36) 1 = Ret [0x34] | _ => False end.
Proof. vm_compute. reflexivity. Qed.
End differences.

End Execute.
