(* ===== verification/Disasm.v ===== *)
(** * code/bin/d.c, opstrings.c, disasm.c, main.c, out.c: the MIPS disassembler and the programs around it

    [dump_ascii] prints one instruction; [disasm] prints the text of an object file and [main_load] loads one for
    execute.c.  Object files are read with the library of the compiler, which is a parameter ([ldnshread], the bytes
    of the file).  The instruction printed is compared with what the kernel's processor decodes
    ([disassembly_agrees]). *)

From S2P Require Import Prelude CInt Machine Mips Registers Execute.
From stdpp Require Import strings pretty.
From Stdlib Require Import Ascii Bool.
Import Mips.Mips Execute.Instr.

Open Scope Z_scope.

Module Disasm.

(** *** printf: %08x, %x, and the tab *)
Definition hex_digit (d : Z) : string :=
  match ["0"; "1"; "2"; "3"; "4"; "5"; "6"; "7"; "8"; "9"; "a"; "b"; "c"; "d"; "e"; "f"] !! Z.to_nat d with
  | Some s => s | None => EmptyString end.
Fixpoint hex_digits (n : nat) (z : Z) : string :=
  match n with O => EmptyString | S n => hex_digits n (z / 16) +:+ hex_digit (z mod 16) end.
Definition fmt_08x (z : Z) : string := hex_digits 8 (u32 z).
Definition fmt_x (z : Z) : string := hex_digits (Z.to_nat (Z.log2 (u32 z) / 4 + 1)) (u32 z).
Definition tab : string := String (ascii_of_nat 9) EmptyString.
Definition newline : string := String (ascii_of_nat 10) EmptyString.

(** *** opstrings.c *)
Definition normalops : list string := [
  "special"; "bcond"; "j"; "jal"; "beq"; "bne"; "blez"; "bgtz"; "addi"; "addiu"; "slti"; "sltiu"; "andi"; "ori";
  "xori"; "lui"; "cop0"; "cop1"; "cop2"; "cop3"; "024"; "025"; "026"; "027"; "030"; "031"; "032"; "033"; "034";
  "035"; "036"; "037"; "lb"; "lh"; "lwl"; "lw"; "lbu"; "lhu"; "lwr"; "047"; "sb"; "sh"; "swl"; "sw"; "054"; "055";
  "swr"; "057"; "lwc0"; "lwc1"; "lwc2"; "lwc3"; "064"; "065"; "066"; "067"; "swc0"; "swc1"; "swc2"; "swc3"; "074";
  "075"; "076"; "077" ].

Definition specialops : list string := [
  "sll"; "001"; "srl"; "sra"; "sllv"; "005"; "srlv"; "srav"; "jr"; "jalr"; "012"; "013"; "syscall"; "break"; "016";
  "017"; "mfhi"; "mthi"; "mflo"; "mtlo"; "024"; "025"; "026"; "027"; "mult"; "multu"; "div"; "divu"; "034"; "035";
  "036"; "037"; "add"; "addu"; "sub"; "subu"; "and"; "or"; "xor"; "nor"; "050"; "051"; "slt"; "sltu"; "054"; "055";
  "056"; "057"; "060"; "061"; "062"; "063"; "064"; "065"; "066"; "067"; "070"; "071"; "072"; "073"; "074"; "075";
  "076"; "077" ].

(** *** d.c *)
Definition regstrings : list string := [
  "0"; "r1"; "r2"; "r3"; "r4"; "r5"; "r6"; "r7"; "r8"; "r9"; "r10"; "r11"; "r12"; "r13"; "r14"; "r15"; "r16"; "r17";
  "r18"; "r19"; "r20"; "r21"; "r22"; "r23"; "r24"; "r25"; "r26"; "r27"; "gp"; "sp"; "r30"; "r31" ].

(** An operand as it is printed: %s of a register, 0x%x, %08x, and 0x%x(%s). *)
Inductive operand := Register (r : Z) | Hex (z : Z) | Address (z : Z) | Based (z r : Z).

Definition print_operand (o : operand) : outcome string :=
  match o with
  | Register r => Prelude.rd regstrings r
  | Hex z => Ret ("0x" +:+ fmt_x z)
  | Address z => Ret (fmt_08x z)
  | Based z r => s ← Prelude.rd regstrings r; Ret ("0x" +:+ fmt_x z +:+ "(" +:+ s +:+ ")")
  end.

(** The operands with commas between them. *)
Fixpoint print_operands (os : list operand) : outcome string :=
  match os with
  | [] => Ret EmptyString
  | [o] => print_operand o
  | o :: os => s ← print_operand o; t ← print_operands os; Ret (s +:+ "," +:+ t)
  end.

(** [switch( opcode )] below I_SPECIAL *)
Definition special_operands (opcode i : Z) : list operand :=
  let one k := opcode =? k in
  if one I_SLL || one I_SRL || one I_SRA then [Register (rd i); Register (rt i); Hex (shamt i)]
  else if one I_SLLV || one I_SRLV || one I_SRAV then [Register (rd i); Register (rt i); Register (rs i)]
  else if one I_JR || one I_JALR || one I_MFLO || one I_MTLO then [Register (rs i)]
  else if one I_SYSCALL || one I_BREAK then []
  else if one I_MFHI || one I_MTHI then [Register (rd i)]
  else if one I_MULT || one I_MULTU || one I_DIV || one I_DIVU then [Register (rs i); Register (rt i)]
  else if one I_ADD || one I_ADDU || one I_SUB || one I_SUBU || one I_AND || one I_OR || one I_XOR || one I_NOR || one I_SLT || one I_SLTU
  then [Register (rd i); Register (rs i); Register (rt i)]
  else [].

(** [switch ( rt(instruction) )] below I_BCOND *)
Definition bcond_name (i : Z) : string :=
  if rt i =? I_BLTZ then "bltz"
  else if rt i =? I_BGEZ then "bgez"
  else if rt i =? I_BLTZAL then "bltzal"
  else if rt i =? I_BGEZAL then "bgezal"
  else "BCOND".

(** [switch ( opcode )] of the other instructions *)
Definition normal_operands (opcode i pc : Z) : list operand :=
  let one k := opcode =? k in
  if one I_J || one I_JAL then [Address (Z.lor (top4 pc) (off26 i))]
  else if one I_BEQ || one I_BNE then [Register (rt i); Register (rs i); Address (s32 (off16 i + pc + 4))]
  else if one I_ADDI || one I_ADDIU || one I_SLTI || one I_SLTIU || one I_ANDI || one I_ORI || one I_XORI
  then [Register (rt i); Register (rs i); Hex (immed i)]
  else if one I_LUI then [Register (rt i); Hex (immed i)]
  else if one I_COP0 || one I_COP1 || one I_COP2 || one I_COP3 then []
  else if one I_LB || one I_LH || one I_LWL || one I_LW || one I_LBU || one I_LHU || one I_LWR || one I_SB || one I_SH || one I_SWL
       || one I_SW || one I_SWR || one I_LWC0 || one I_LWC1 || one I_LWC2 || one I_LWC3 || one I_SWC0 || one I_SWC1 || one I_SWC2
       || one I_SWC3
  then [Register (rt i); Based (immed i) (rs i)]
  else [].

(** The name and the operands of an instruction other than the no-op. *)
Definition instruction_text (i pc : Z) : outcome (string * list operand) :=
  let opcode := Z.shiftr (u32 i) 26 in
  if opcode =? I_SPECIAL then
    let opcode := Z.land i 0x3f in
    s ← Prelude.rd specialops opcode; Ret (s, special_operands opcode i)
  else if opcode =? I_BCOND then Ret (bcond_name i, [Register (rs i); Address (s32 (off16 i + pc + 4))])
  else s ← Prelude.rd normalops opcode; Ret (s, normal_operands opcode i pc).

Definition location (longdis : bool) (i pc : Z) : string :=
  (if longdis then fmt_08x pc +:+ ": " +:+ fmt_08x i +:+ "  " else EmptyString) +:+ tab.

Definition dump_ascii (longdis : bool) (i pc : Z) : outcome string :=
  if i =? I_NOP then Ret (location longdis i pc +:+ "nop")
  else
    '(name, os) ← instruction_text i pc;
    s ← print_operands os;
    Ret (location longdis i pc +:+ name +:+ tab +:+ s).

(** *** disasm.c and main.c *)
Record SCNHDR := mkSCNHDR { s_vaddr : Z; s_size : Z; s_scnptr : Z }.

(** An open object file: its magic number, its section headers by name, its bytes. *)
Record LDFILE := mkLDFILE { TYPE : Z; ldnshread : string → option SCNHDR; content : list Z }.

(** [getc] at a position; the end of the file is stored as the byte 255. *)
Definition getc (f : LDFILE) (pos : Z) : Z := if pos <? 0 then 255 else default 255 (content f !! Z.to_nat pos).

(** The memory after a loader, or the status with which it ends the program. *)
Inductive loaded := Loaded (mem : gmap Z Z) | Exits (status : Z).

Definition put_char (pc v : Z) (mem : gmap Z Z) : outcome (gmap Z Z) :=
  defined_if (in_range (pc - Execute.memoffset) Execute.MEMSIZE);; Ret (<[pc := v]> mem).

(** The loop of [load_section]: [n] bytes from [pos] on, to [pc]. *)
Fixpoint load_bytes (f : LDFILE) (n : nat) (pos pc : Z) (mem : gmap Z Z) : outcome loaded :=
  match n with
  | O => Ret (Loaded mem)
  | S n =>
      if Execute.MEMSIZE <=? s32 (pc - Execute.memoffset) then Ret (Exits 1)
      else mem ← put_char pc (getc f pos) mem; load_bytes f n (pos + 1) (pc + 1) mem
  end.

(** disasm.c *)
Definition load_section (f : LDFILE) (hd : SCNHDR) (mem : gmap Z Z) : outcome loaded :=
  if negb (s_scnptr hd =? 0) then load_bytes f (Z.to_nat (s_size hd)) (s_scnptr hd) (s_vaddr hd) mem
  else Ret (Loaded mem).

(** main.c, where the size is tested behind the loop. *)
Fixpoint copy_bytes (f : LDFILE) (n : nat) (pos pc : Z) (mem : gmap Z Z) : outcome (gmap Z Z) :=
  match n with
  | O => Ret mem
  | S n => mem ← put_char pc (getc f pos) mem; copy_bytes f n (pos + 1) (pc + 1) mem
  end.
Definition LOADSECTION (f : LDFILE) (head : SCNHDR) (mem : gmap Z Z) : outcome loaded :=
  if negb (s_scnptr head =? 0) then
    mem ← copy_bytes f (Z.to_nat (s_size head)) (s_scnptr head) (s_vaddr head) mem;
    let pc := s_vaddr head + Z.max 0 (s_size head) in
    if Execute.MEMSIZE <=? s32 (pc - Execute.memoffset) then Ret (Exits 1) else Ret (Loaded mem)
  else Ret (Loaded mem).

Fixpoint load_sections (load : SCNHDR → gmap Z Z → outcome loaded) (f : LDFILE) (names : list string) (mem : gmap Z Z)
    : outcome loaded :=
  match names with
  | [] => Ret (Loaded mem)
  | name :: names =>
      r ← match ldnshread f name with Some hd => load hd mem | None => Ret (Loaded mem) end;
      match r with Loaded mem => load_sections load f names mem | Exits n => Ret (Exits n) end
  end.

(** [load_program] with either loader; [None] when [ldopen] fails.  The memory is static, so it begins with zeros. *)
Definition load_program (load : LDFILE → SCNHDR → gmap Z Z → outcome loaded) (ldptr : option LDFILE) : outcome loaded :=
  match ldptr with
  | None => Ret (Exits 0)
  | Some f =>
      if negb (TYPE f =? 0x162) then Ret (Exits 0)
      else load_sections (load f) f [".text"; ".rdata"; ".data"; ".sdata"; ".sbss"; ".bss"] ∅
  end.

Definition dis1 (mem : gmap Z Z) (pc : Z) : outcome string :=
  instr ← Execute.fetch (Execute.mkCpu [] 0 0 mem 0 0) pc; s ← dump_ascii true instr pc; Ret (s +:+ newline).

(** The loop of [disasm]: [n] lines from [pc] on. *)
Fixpoint disasm_lines (n : nat) (mem : gmap Z Z) (pc : Z) : outcome string :=
  match n with
  | O => Ret EmptyString
  | S n => s ← dis1 mem pc; t ← disasm_lines n mem (pc + 4); Ret (s +:+ t)
  end.
Definition disasm (text_size : Z) (mem : gmap Z Z) : outcome string :=
  disasm_lines (Z.to_nat ((text_size + 3) / 4)) mem Execute.memoffset.

(** [main] of disasm.c behind its arguments: the status of the program or what it prints.  [texthead] is all zeros when
    there is no text section. *)
Definition main (ldptr : option LDFILE) : outcome (Z + string) :=
  r ← load_program load_section ldptr;
  match r with
  | Exits n => Ret (inl n)
  | Loaded mem =>
      let size := match ldptr with Some f => match ldnshread f ".text" with Some h => s_size h | None => 0 end | None => 0 end in
      s ← disasm size mem; Ret (inr s)
  end.

(** *** out.c: the output with its column *)
Record Out := mkOut { column : Z; text : string }.

Definition column_after (c : ascii) (column : Z) : Z :=
  if Ascii.eqb c (ascii_of_nat 10) then 1
  else if Ascii.eqb c (ascii_of_nat 9) then Z.land (column + 7) (Z.lnot 7) + 1
  else column + 1.
Fixpoint column_after_all (s : string) (column : Z) : Z :=
  match s with EmptyString => column | String c s => column_after_all s (column_after c column) end.

(** What [myprintf] prints; [buf] has room for 99 characters. *)
Definition emit (s : string) (o : Out) : Out := mkOut (column_after_all s (column o)) (text o +:+ s).
Definition myprintf (s : string) (o : Out) : outcome Out :=
  defined_if (Z.of_nat (String.length s) <? 100);; Ret (emit s o).

(** The loop of [mytab]: [n] spaces. *)
Fixpoint pad (n : nat) (o : Out) : Out :=
  match n with O => o | S n => pad n (mkOut (column o + 1) (text o +:+ " ")) end.
Definition mytab (n : Z) (o : Out) : Out * bool :=
  let o := pad (Z.to_nat (n - column o)) o in (o, column o =? n).

Definition section_name : list string :=
  ["(null)"; ".text"; ".rdata"; ".data"; ".sdata"; ".sbss"; ".bss"; ".init"; ".lit8"; ".lit4"].
Definition reloc_type : list string := ["abs"; "16"; "32"; "26"; "hi16"; "lo16"; "gpdata"; "gplit"].
Definition MAXSYMS : Z := 300.

Record reloc := mkReloc { r_vaddr : Z; r_symndx : Z; r_extern : bool; r_type : Z }.

Section printing.
(** The name of a symbol that was read. *)
Variable symbol_name : Z → string.

Definition quote : string := String (ascii_of_nat 34) EmptyString.

Fixpoint print_reloc (vaddr : Z) (relocs : list reloc) (o : Out) : outcome Out :=
  match relocs with
  | [] => myprintf newline o
  | rp :: relocs =>
      if vaddr =? r_vaddr rp then
        let '(o, _) := mytab 57 o in
        o ← (if r_extern rp then
               if MAXSYMS <=? r_symndx rp then myprintf ("sym $" +:+ pretty (r_symndx rp)) o
               else myprintf (quote +:+ symbol_name (r_symndx rp) +:+ quote) o
             else s ← Prelude.rd section_name (r_symndx rp); myprintf s o);
        t ← Prelude.rd reloc_type (r_type rp);
        o ← myprintf (" " +:+ t) o;
        myprintf newline o
      else print_reloc vaddr relocs o
  end.

(** The four characters of a word, on a little-endian host. *)
Definition visible (b : Z) : string :=
  let c := s8 b in
  if (32 <=? c) && (c <? 127) then String (ascii_of_nat (Z.to_nat b)) EmptyString else ".".
Definition word_text (pc word : Z) : string :=
  fmt_08x pc +:+ ": " +:+ fmt_08x word +:+ "  " +:+ foldr (λ b s, visible b +:+ s) EmptyString (le_bytes 4 word)
  +:+ tab +:+ pretty word.

(** The lines of [print_section]; [dump_ascii] prints short pieces, so [buf] does not matter there. *)
Fixpoint print_words (is_text : bool) (pc : Z) (data : list Z) (relocs : list reloc) (o : Out) : outcome Out :=
  match data with
  | [] => Ret o
  | word :: data =>
      o ← (if is_text then s ← dump_ascii true word pc; Ret (emit s o) else Ret (emit (word_text pc word) o));
      o ← print_reloc pc relocs o;
      print_words is_text (pc + 4) data relocs o
  end.

Definition print_section (name : string) (hd : SCNHDR) (data : list Z) (relocs : list reloc) (o : Out) : outcome Out :=
  o ← myprintf ("Section: " +:+ name +:+ tab +:+ pretty (s_size hd) +:+ "/" +:+ pretty (Z.of_nat (length relocs)) +:+ newline) o;
  print_words (String.prefix ".text" name) (s_vaddr hd) data relocs o.
End printing.

(** *** What the processor of the kernel decodes, as text

    The name is the first word of the trace format in lower case, the operands are those of the trace. *)
Fixpoint word (s : string) : string :=
  match s with
  | String c s => if Ascii.eqb c " " then EmptyString else String c (word s)
  | EmptyString => EmptyString
  end.
Definition lower_char (c : ascii) : ascii :=
  let n := nat_of_ascii c in if (65 <=? n)%nat && (n <=? 90)%nat then ascii_of_nat (n + 32) else c.
Fixpoint lower (s : string) : string :=
  match s with String c s => String (lower_char c) (lower s) | EmptyString => EmptyString end.

Definition arg_operand (i : Instruction) (r : RegType) : list operand :=
  match r with
  | RS => [Register (Mips.rs i)] | RT => [Register (Mips.rt i)] | RD => [Register (Mips.rd i)]
  | EXTRA => [Hex (extra i)] | NONE => []
  end.
Definition arg_operands (i : Instruction) (args : list RegType) : list operand :=
  match args with
  | [RT; EXTRA; RS] => [Register (Mips.rt i); Based (extra i) (Mips.rs i)]
  | _ => args ≫= arg_operand i
  end.
Definition kernel_name (op : OpCode) : outcome string :=
  str ← Prelude.rd opStrings (op_number op); Ret (lower (word (string_ str))).
Definition kernel_text (i : Instruction) : outcome (string * list operand) :=
  str ← Prelude.rd opStrings (op_number (opCode i));
  Ret (lower (word (string_ str)), arg_operands i (args str)).

(** Instructions that d.c prints with the operands of the kernel's trace; and jumps and branches with a target. *)
Definition regular (op : OpCode) : bool :=
  match op with
  | OP_SLL | OP_SRL | OP_SRA | OP_SLLV | OP_SRLV | OP_SRAV | OP_SYSCALL | OP_MFHI | OP_MTLO | OP_MULT | OP_MULTU | OP_DIV
  | OP_DIVU | OP_ADD | OP_ADDU | OP_SUB | OP_SUBU | OP_AND | OP_OR | OP_XOR | OP_NOR | OP_SLT | OP_SLTU
  | OP_ADDI | OP_ADDIU | OP_SLTI | OP_SLTIU | OP_ANDI | OP_ORI | OP_XORI | OP_LUI
  | OP_LB | OP_LH | OP_LWL | OP_LW | OP_LBU | OP_LHU | OP_LWR | OP_SB | OP_SH | OP_SWL | OP_SW | OP_SWR => true
  | _ => false
  end.
Definition target (op : OpCode) (w pc : Z) : option Z :=
  match op with
  | OP_J | OP_JAL => Some (Execute.region_jump w pc)
  | OP_BEQ | OP_BNE | OP_BLTZ | OP_BGEZ | OP_BLTZAL | OP_BGEZAL => Some (Execute.branch_target w pc)
  | _ => None
  end.

Lemma opcode_field w : Z.shiftr (u32 w) 26 = Z.land (Z.shiftr w 26) 0x3f.
Proof.
  rewrite <- Execute.op_u32. change 0x3f with (Z.ones 6). rewrite Z.land_ones, Z.shiftr_div_pow2 by lia. symmetry.
  apply Z.mod_small. pose proof (u32_range w) as H. unfold is_u32 in H. Z.div_mod_to_equations. lia.
Qed.

Lemma branch_address w pc : s32 (off16 w + pc + 4) = Execute.branch_target w pc.
Proof. unfold Execute.branch_target, off16. f_equal. lia. Qed.

Lemma jump_address w pc : is_s32 pc → Z.lor (top4 pc) (off26 w) = Execute.region_jump w pc.
Proof.
  intros Hpc. unfold Execute.region_jump, top4, off26.
  pose proof (land_mask_range w 26 ltac:(lia)) as Hr. change (Z.ones 26) with 0x3ffffff in Hr.
  change (Z.shiftl 1 26 - 1) with 0x3ffffff. set (t := Z.shiftl (Z.land w 0x3ffffff) 2).
  assert (is_s32 t) as Ht by (unfold t, is_s32; rewrite Z.shiftl_mul_pow2; lia). rewrite (s32_small t) by done.
  rewrite <- (s32_small (Z.lor (Z.land pc _) t)) by (apply is_s32_lor; [apply is_s32_land; [done|by split; vm_compute]|done]).
  apply s32_eq_iff, Z.bits_inj'. intros j Hj. rewrite !testbit_u32 by done.
  destruct (Z.ltb_spec j 32); [|done]. cbn [andb]. rewrite !Z.lor_spec, !Z.land_spec, testbit_u32, ltb_true by lia. cbn [andb].
  do 2 f_equal. change (Z.shiftl 1 28 - 1) with (Z.ones 28). rewrite Z.lnot_spec, Z.testbit_ones_nonneg by lia.
  change 0xf0000000 with (Z.shiftl (Z.ones 4) 28). rewrite Z.shiftl_spec by lia.
  destruct (Z.ltb_spec j 28); [by rewrite (Z.testbit_neg_r _ (j - 28)) by lia|]. rewrite Z.testbit_ones_nonneg by lia. by rewrite (ltb_true (j - 28)) by lia.
Qed.

(** A fact about every entry of a table, one goal for each. *)
Fixpoint every_entry {A} (P : Z → A → Prop) (l : list A) (k : Z) : Prop :=
  match l with [] => True | x :: l => P k x ∧ every_entry P l (k + 1) end.

Lemma rd_every {A} (P : Z → A → Prop) (l : list A) k x : every_entry P l 0 → Prelude.rd l k = Ret x → P k x.
Proof.
  intros Hall [[Hk _] Hx]%rd_Ret. assert (∀ n b, l !! n = Some x → every_entry P l b → P (b + Z.of_nat n) x) as Hgen.
  { clear. induction l as [|y l IH]; intros [|n] b Hn Hall; try done; destruct Hall as [H1 H2].
    - injection Hn as ->. by rewrite Z.add_0_r.
    - replace (b + Z.of_nat (S n)) with (b + 1 + Z.of_nat n) by lia. by apply IH. }
  specialize (Hgen _ 0 Hx Hall). rewrite Z2Nat.id in Hgen by done. done.
Qed.


(** What [instruction_text] has to give for an operation: the kernel's text, or its name and the target at the end. *)
Definition text_ok (text : outcome (string * list operand)) (i : Instruction) (t : option Z) : Prop :=
  (regular (opCode i) = true → text = kernel_text i) ∧
  ∀ z, t = Some z → ∃ name os, kernel_name (opCode i) = Ret name ∧ text = Ret (name, os) ∧ last os = Some (Address z).

(** [text_ok] for a known operation. *)
Ltac known_text :=
  split;
  [ let E := fresh in intros E; (discriminate E || (vm_compute; reflexivity))
  | let z := fresh in let E := fresh in intros z E;
    (discriminate E || (injection E as <-; eexists _, _; split; [vm_compute; reflexivity|split; reflexivity])) ].

Lemma special_text w pc i :
  Z.land (Z.shiftr w 26) 0x3f = 0 → Decode (u32 w) = Ret i → text_ok (instruction_text w pc) i (target (opCode i) w pc).
Proof.
  intros H0 Hdec. destruct (rd_in_range specialTable (Z.land w 0x3f)) as [op Hop].
  { change (Z.of_nat (length specialTable)) with (2 ^ 6). apply (land_mask_range _ 6). lia. }
  rewrite (Execute.decode_special w _ op H0 eq_refl Hop) in Hdec. injection Hdec as <-. cbn [opCode].
  unfold instruction_text. rewrite opcode_field, H0. cbn [Z.eqb Pos.eqb].
  revert Hop. apply (rd_every (λ f op, text_ok (s ← Prelude.rd specialops f; Ret (s, special_operands f w))
    (mkInstr (u32 w) op (rs w) (rt w) (rd w) (shamt w)) (target op w pc))).
  repeat (split; [known_text|]). exact I.
Qed.

Lemma bcond_text w pc i :
  Z.land (Z.shiftr w 26) 0x3f = 1 → Decode (u32 w) = Ret i → text_ok (instruction_text w pc) i (target (opCode i) w pc).
Proof.
  intros H1 Hdec. rewrite (Execute.decode_bcond w H1) in Hdec. injection Hdec as <-. cbn [opCode].
  unfold instruction_text. rewrite opcode_field, H1. cbn [Z.eqb Pos.eqb]. unfold bcond_name, Execute.bcond_op.
  destruct (rt w =? I_BLTZ); [|destruct (rt w =? I_BGEZ); [|destruct (rt w =? I_BLTZAL); [|destruct (rt w =? I_BGEZAL)]]];
    unfold target; rewrite <- ?branch_address; known_text.
Qed.

Lemma normal_text w pc i :
  is_s32 pc → Z.land (Z.shiftr w 26) 0x3f ≠ 0 → Z.land (Z.shiftr w 26) 0x3f ≠ 1 → Decode (u32 w) = Ret i →
  text_ok (instruction_text w pc) i (target (opCode i) w pc).
Proof.
  intros Hpc H0 H1 Hdec. destruct (rd_in_range opTable (Z.land (Z.shiftr w 26) 0x3f)) as [[op fmt] Hop].
  { change (Z.of_nat (length opTable)) with (2 ^ 6). apply (land_mask_range _ 6). lia. }
  destruct (Execute.plain_opcode _ _ _ Hop H0 H1) as (Ns & Nb & Nf).
  unfold instruction_text. rewrite opcode_field, !eqb_false by done. unfold target.
  rewrite <- branch_address, <- jump_address by done.
  assert (∀ x, fmt = JFMT ∨ x = immed w → text_ok (s ← Prelude.rd normalops (Z.land (Z.shiftr w 26) 0x3f);
    Ret (s, normal_operands (Z.land (Z.shiftr w 26) 0x3f) w pc)) (mkInstr (u32 w) op (rs w) (rt w) (rd w) x)
    (match op with OP_J | OP_JAL => Some (Z.lor (top4 pc) (off26 w))
     | OP_BEQ | OP_BNE | OP_BLTZ | OP_BGEZ | OP_BLTZAL | OP_BGEZAL => Some (s32 (off16 w + pc + 4)) | _ => None end)) as Hall.
  { intros x. revert Hop. apply (rd_every (λ k e, format e = JFMT ∨ x = immed w →
      text_ok (s ← Prelude.rd normalops k; Ret (s, normal_operands k w pc)) (mkInstr (u32 w) (info_opCode e) (rs w) (rt w) (rd w) x)
      (match info_opCode e with OP_J | OP_JAL => Some (Z.lor (top4 pc) (off26 w))
       | OP_BEQ | OP_BNE | OP_BLTZ | OP_BGEZ | OP_BLTZAL | OP_BGEZAL => Some (s32 (off16 w + pc + 4)) | _ => None end))).
    unfold normal_operands.
    generalize (Z.lor (top4 pc) (off26 w)) (s32 (off16 w + pc + 4)) (immed w) (rs w) (rt w) (rd w) (u32 w).
    intros jump branch im a b d v. repeat (split; [intros [E| ->]; [discriminate E || known_text|known_text]|]). exact I. }
  destruct fmt; [| |done].
  - rewrite (Execute.decode_immediate w _ op eq_refl Hop Ns Nb) in Hdec. injection Hdec as <-. apply Hall. by right.
  - rewrite (Execute.decode_jump w _ op eq_refl Hop Ns Nb) in Hdec. injection Hdec as <-. apply Hall. by left.
Qed.

Lemma text_agrees w pc i :
  is_s32 pc → Decode (u32 w) = Ret i → text_ok (instruction_text w pc) i (target (opCode i) w pc).
Proof.
  intros Hpc Hdec. destruct (Z.eq_dec (Z.land (Z.shiftr w 26) 0x3f) 0); [by apply special_text|].
  destruct (Z.eq_dec (Z.land (Z.shiftr w 26) 0x3f) 1); [by apply bcond_text|by apply normal_text].
Qed.

(** Every word can be printed. *)
Definition operand_ok (o : operand) : Prop :=
  match o with Register r | Based _ r => 0 ≤ r < 32 | Hex _ | Address _ => True end.

Lemma print_operand_total o : operand_ok o → ∃ s, print_operand o = Ret s.
Proof.
  destruct o as [r|z|z|z r]; cbn [operand_ok print_operand]; intros Ho; try (by eexists).
  - apply rd_in_range. cbn. lia.
  - destruct (rd_in_range regstrings r) as [s ->]; [cbn; lia|]. by eexists.
Qed.

Lemma print_operands_total os : Forall operand_ok os → ∃ s, print_operands os = Ret s.
Proof.
  induction 1 as [|o os Ho Hos [t IH]]; [by eexists|]. destruct (print_operand_total o Ho) as [s Hs].
  destruct os as [|o' os]; [by exists s|]. exists (s +:+ "," +:+ t). cbn [print_operands] in *. by rewrite Hs, IH.
Qed.

Ltac operand_cases :=
  repeat match goal with |- context [if ?b then _ else _] => destruct b end; repeat constructor; apply Execute.field_range.

Lemma special_operands_ok op w : Forall operand_ok (special_operands op w).
Proof. unfold special_operands. operand_cases. Qed.
Lemma normal_operands_ok op w pc : Forall operand_ok (normal_operands op w pc).
Proof. unfold normal_operands. operand_cases. Qed.

Lemma instruction_text_total w pc : ∃ name os, instruction_text w pc = Ret (name, os) ∧ Forall operand_ok os.
Proof.
  unfold instruction_text. rewrite opcode_field.
  assert (∀ x, 0 ≤ Z.land x 0x3f < 64) as Hr by (intros x; apply (land_mask_range x 6); lia).
  destruct (_ =? I_SPECIAL); [|destruct (_ =? I_BCOND)].
  - destruct (rd_in_range specialops (Z.land w 0x3f)) as [s ->]; [apply Hr|].
    eexists _, _. split; [reflexivity|apply special_operands_ok].
  - eexists _, _. split; [reflexivity|]. repeat constructor; apply Execute.field_range.
  - destruct (rd_in_range normalops (Z.land (Z.shiftr w 26) 0x3f)) as [s ->]; [apply Hr|].
    eexists _, _. split; [reflexivity|apply normal_operands_ok].
Qed.

Lemma dump_ascii_total longdis w pc : ∃ s, dump_ascii longdis w pc = Ret s.
Proof.
  unfold dump_ascii. destruct (w =? I_NOP); [by eexists|]. destruct (instruction_text_total w pc) as (name & os & -> & Hos).
  cbn [mbind outcome_bind]. destruct (print_operands_total os Hos) as [s ->]. by eexists.
Qed.

Lemma dump_ascii_text longdis w pc name os :
  w ≠ 0 → instruction_text w pc = Ret (name, os) →
  ∃ s, print_operands os = Ret s ∧ dump_ascii longdis w pc = Ret (location longdis w pc +:+ name +:+ tab +:+ s).
Proof.
  intros Hw Ht. unfold dump_ascii. rewrite eqb_false by done. rewrite Ht. cbn [mbind outcome_bind].
  destruct (instruction_text_total w pc) as (name' & os' & E & Hos). rewrite Ht in E. injection E as <- <-.
  destruct (print_operands_total os Hos) as [s Hs]. exists s. by rewrite Hs.
Qed.

Lemma disassembly longdis w pc i :
  is_s32 pc → w ≠ 0 → Decode (u32 w) = Ret i →
  (regular (opCode i) = true → ∃ name os s, kernel_text i = Ret (name, os) ∧ print_operands os = Ret s ∧
     dump_ascii longdis w pc = Ret (location longdis w pc +:+ name +:+ tab +:+ s)) ∧
  ∀ z, target (opCode i) w pc = Some z → ∃ name os s, kernel_name (opCode i) = Ret name ∧ last os = Some (Address z) ∧
     print_operands os = Ret s ∧ dump_ascii longdis w pc = Ret (location longdis w pc +:+ name +:+ tab +:+ s).
Proof.
  intros Hpc Hw Hdec. destruct (text_agrees w pc i Hpc Hdec) as [Hreg Htar]. split.
  - intros Hr. specialize (Hreg Hr). destruct (instruction_text_total w pc) as (name & os & E & _).
    destruct (dump_ascii_text longdis w pc name os Hw E) as (s & Hs & Hd). exists name, os, s. by rewrite <- Hreg.
  - intros z Hz. destruct (Htar z Hz) as (name & os & Hn & E & Hl).
    destruct (dump_ascii_text longdis w pc name os Hw E) as (s & Hs & Hd). by exists name, os, s.
Qed.

(** Where d.c is wrong: MFLO prints the field rs where the register that is written is rd, MTHI prints rd where the register
    that is read is rs, JALR does not print the link register, BLEZ and BGTZ print no operands at all. *)
Example disassembly_defects :
  instruction_text 0x00004012 0 = Ret ("mflo", [Register 0]) ∧ rd 0x00004012 = 8 ∧
  instruction_text 0x01000011 0 = Ret ("mthi", [Register 0]) ∧ rs 0x01000011 = 8 ∧
  instruction_text 0x0100f809 0 = Ret ("jalr", [Register 8]) ∧ rd 0x0100f809 = 31 ∧
  instruction_text 0x19000003 0 = Ret ("blez", []) ∧ instruction_text 0x1d000003 0 = Ret ("bgtz", []).
Proof. split_and!; vm_compute; reflexivity. Qed.

(** *** The loaders *)
Definition memory_end : Z := Execute.memoffset + Execute.MEMSIZE.

Lemma put_char_ok pc v mem : Execute.memoffset ≤ pc < memory_end → put_char pc v mem = Ret (<[pc := v]> mem).
Proof. intros Hp. unfold put_char, memory_end in *. by rewrite (proj2 (in_range_spec _ _)) by lia. Qed.

Lemma room_test pc : Execute.memoffset ≤ pc ≤ memory_end →
  (Execute.MEMSIZE <=? s32 (pc - Execute.memoffset)) = (memory_end <=? pc).
Proof.
  unfold memory_end, Execute.memoffset, Execute.MEMSIZE. intros Hp. rewrite s32_small by (unfold is_s32; lia).
  apply eq_true_iff_eq. rewrite !Z.leb_le. lia.
Qed.

(** The bytes [pos, pos + n) of the file at [pc], over [mem]. *)
Fixpoint loaded_bytes (f : LDFILE) (n : nat) (pos pc : Z) (mem : gmap Z Z) : gmap Z Z :=
  match n with O => mem | S n => loaded_bytes f n (pos + 1) (pc + 1) (<[pc := getc f pos]> mem) end.

Lemma loaded_bytes_lookup f n pos pc mem a :
  loaded_bytes f n pos pc mem !! a =
    if bool_decide (pc ≤ a < pc + Z.of_nat n) then Some (getc f (pos + (a - pc))) else mem !! a.
Proof.
  revert pos pc mem. induction n as [|n IH]; intros pos pc mem; cbn [loaded_bytes].
  - by rewrite bool_decide_false by lia.
  - rewrite IH. destruct (Z.eq_dec a pc) as [->|Hne].
    + rewrite bool_decide_false, bool_decide_true, lookup_insert_eq by lia. do 2 f_equal. lia.
    + rewrite lookup_insert_ne by done. rewrite (bool_decide_ext _ (pc ≤ a < pc + Z.of_nat (S n))) by lia.
      destruct (bool_decide _); [|done]. do 2 f_equal. lia.
Qed.

Lemma load_bytes_ok f n pos pc mem : Execute.memoffset ≤ pc ≤ memory_end →
  load_bytes f n pos pc mem =
    Ret (if pc + Z.of_nat n <=? memory_end then Loaded (loaded_bytes f n pos pc mem) else Exits 1).
Proof.
  revert pos pc mem. induction n as [|n IH]; intros pos pc mem Hp; cbn [load_bytes loaded_bytes].
  - by rewrite leb_true by lia.
  - rewrite room_test by done. destruct (Z.leb_spec memory_end pc).
    + by rewrite leb_false by lia.
    + rewrite put_char_ok by lia. cbn [mbind outcome_bind]. rewrite IH by lia.
      by replace (pc + 1 + Z.of_nat n) with (pc + Z.of_nat (S n)) by lia.
Qed.

Lemma copy_bytes_ok f n pos pc mem : Execute.memoffset ≤ pc ≤ memory_end →
  copy_bytes f n pos pc mem =
    if pc + Z.of_nat n <=? memory_end then Ret (loaded_bytes f n pos pc mem) else Undefined.
Proof.
  revert pos pc mem. induction n as [|n IH]; intros pos pc mem Hp; cbn [copy_bytes loaded_bytes].
  - by rewrite leb_true by lia.
  - destruct (Z.eq_dec pc memory_end) as [->|Hne].
    + rewrite leb_false by lia. unfold put_char. destruct (in_range _ _) eqn:E; [|done].
      apply in_range_spec in E. unfold memory_end in *. lia.
    + rewrite put_char_ok by lia. cbn [mbind outcome_bind]. rewrite IH by lia.
      replace (pc + 1 + Z.of_nat n) with (pc + Z.of_nat (S n)) by lia. done.
Qed.

(** The two loaders: disasm.c refuses a section that does not fit; main.c writes it behind the memory before it looks at the
    size, and refuses one that fits exactly. *)
Lemma loaders_compared f hd mem :
  s_scnptr hd ≠ 0 → 0 ≤ s_size hd → Execute.memoffset ≤ s_vaddr hd ≤ memory_end →
  let e := s_vaddr hd + s_size hd in
  let l := loaded_bytes f (Z.to_nat (s_size hd)) (s_scnptr hd) (s_vaddr hd) mem in
  load_section f hd mem = Ret (if e <=? memory_end then Loaded l else Exits 1) ∧
  LOADSECTION f hd mem = if e <=? memory_end then Ret (if e =? memory_end then Exits 1 else Loaded l) else Undefined.
Proof.
  intros Hp Hs Hv e l. unfold load_section, LOADSECTION. rewrite eqb_false by done. cbn [negb].
  rewrite load_bytes_ok, copy_bytes_ok by done. rewrite Z2Nat.id by done. fold e l. split; [done|].
  destruct (Z.leb_spec e memory_end) as [He|He]; [|done]. cbn [mbind outcome_bind]. rewrite Z.max_r by done. fold e.
  rewrite room_test by lia. destruct (Z.eqb_spec e memory_end); [by rewrite leb_true by lia|by rewrite leb_false by lia].
Qed.

(** *** The listing of a text section *)
Fixpoint listing (ws : list Z) (pc : Z) : outcome string :=
  match ws with
  | [] => Ret EmptyString
  | w :: ws => s ← dump_ascii true w pc; t ← listing ws (pc + 4); Ret ((s +:+ newline) +:+ t)
  end.

Lemma fetch_word mem pc w :
  is_s32 w → Execute.memoffset ≤ pc → pc + 4 ≤ memory_end →
  (∀ j b, word_bytes w !! j = Some b → mem !! (pc + Z.of_nat j) = Some b) →
  Execute.fetch (Execute.mkCpu [] 0 0 mem 0 0) pc = Ret w.
Proof.
  intros Hw Hlo Hhi Hb. unfold Execute.fetch, Execute.bytes_at, Execute.in_memory, memory_end in *.
  rewrite !leb_true by lia. cbn [andb defined_if mbind outcome_bind Execute.mem].
  assert ((λ k, default 0 (mem !! (pc + k))) <$> seqZ 0 4 = word_bytes w) as ->.
  { apply list_eq. intros j. rewrite list_lookup_fmap.
    destruct (decide (j < 4)%nat) as [Hj|Hj].
    - rewrite (proj2 (lookup_seqZ _ _ _ _)) by (split; [reflexivity|lia]). cbn [fmap option_fmap option_map].
      destruct (lookup_lt_is_Some_2 (word_bytes w) j) as [b Hbj]; [by rewrite word_bytes_length|].
      rewrite Hbj, Z.add_0_l. by rewrite (Hb j b Hbj).
    - rewrite !(lookup_ge_None_2) by (rewrite ?word_bytes_length, ?length_seqZ; lia). done. }
  f_equal. by apply bytes_s32_word.
Qed.

Lemma disasm_lines_ok ws mem pc :
  Forall is_s32 ws → Execute.memoffset ≤ pc → pc + 4 * Z.of_nat (length ws) ≤ memory_end →
  (∀ j b, words_bytes ws !! j = Some b → mem !! (pc + Z.of_nat j) = Some b) →
  disasm_lines (length ws) mem pc = listing ws pc.
Proof.
  intros Hws. revert pc. induction Hws as [|w ws Hw Hws IH]; intros pc Hlo Hhi Hb; [done|].
  cbn [length disasm_lines listing]. unfold dis1. cbn [length] in Hhi. rewrite (fetch_word mem pc w); [|done|done|lia|].
  - cbn [mbind outcome_bind]. destruct (dump_ascii_total true w pc) as [s ->]. cbn [mbind outcome_bind].
    rewrite IH; [done|lia|lia|]. intros j b Hj. replace (pc + 4 + Z.of_nat j) with (pc + Z.of_nat (4 + j)) by lia.
    apply Hb. rewrite words_bytes_cons, lookup_app_r by (rewrite word_bytes_length; lia). rewrite word_bytes_length.
    by replace (4 + j - 4)%nat with j by lia.
  - intros j b Hj. apply Hb. rewrite words_bytes_cons. by apply lookup_app_l_Some.
Qed.

Lemma listing_total ws pc : ∃ s, listing ws pc = Ret s.
Proof.
  revert pc. induction ws as [|w ws IH]; intros pc; [by eexists|]. cbn [listing].
  destruct (dump_ascii_total true w pc) as [s ->]. destruct (IH (pc + 4)) as [t ->]. by eexists.
Qed.

(** An object file with nothing but a text section at [memoffset]. *)
Definition text_only (f : LDFILE) (hd : SCNHDR) : Prop :=
  TYPE f = 0x162 ∧ s_vaddr hd = Execute.memoffset ∧
  ∀ name, ldnshread f name = if bool_decide (name = ".text") then Some hd else None.

Lemma main_lists f hd ws :
  text_only f hd → Forall is_s32 ws → 0 < s_scnptr hd → s_size hd = 4 * Z.of_nat (length ws) → s_size hd ≤ Execute.MEMSIZE →
  take (Z.to_nat (s_size hd)) (drop (Z.to_nat (s_scnptr hd)) (content f)) = words_bytes ws →
  ∃ s, listing ws Execute.memoffset = Ret s ∧ main (Some f) = Ret (inr s).
Proof.
  intros (Hty & Hva & Hnm) Hws Hpos Hsz Hmax Hbytes. destruct (listing_total ws Execute.memoffset) as [s Hs].
  exists s. split; [done|]. unfold main, load_program. rewrite Hty. cbn [Z.eqb Pos.eqb negb]. unfold load_sections.
  assert (∀ name, name ≠ ".text" → ldnshread f name = None) as Hno by (intros name Hn; by rewrite Hnm, bool_decide_false).
  rewrite (Hnm ".text"), bool_decide_true by done. rewrite !Hno by done.
  unfold load_section. rewrite eqb_false by lia. cbn [negb]. rewrite load_bytes_ok by (rewrite Hva; unfold memory_end; lia).
  rewrite leb_true by (rewrite Z2Nat.id, Hva by lia; unfold memory_end; lia). cbn [mbind outcome_bind].
  unfold disasm. replace (Z.to_nat ((s_size hd + 3) / 4)) with (length ws) by (rewrite Hsz; Z.div_mod_to_equations; lia).
  rewrite disasm_lines_ok; [by rewrite Hs|done|done|unfold memory_end; lia|].
  intros j b Hj. rewrite loaded_bytes_lookup, Hva.
  pose proof (lookup_lt_Some _ _ _ Hj) as Hlt. rewrite words_bytes_length in Hlt.
  rewrite bool_decide_true by lia. f_equal. unfold getc. rewrite ltb_false by lia.
  rewrite <- Hbytes, lookup_take_Some, lookup_drop in Hj. destruct Hj as [Hj _].
  replace (Z.to_nat (s_scnptr hd + (Execute.memoffset + Z.of_nat j - Execute.memoffset))) with (Z.to_nat (s_scnptr hd) + j)%nat by lia.
  by rewrite Hj.
Qed.

(** *** The columns of out.c *)
Lemma pad_column n o : column (pad n o) = column o + Z.of_nat n.
Proof. revert o. induction n as [|n IH]; intros o; cbn [pad]; [lia|]. rewrite IH. cbn [column]. lia. Qed.

(** [mytab] ends in the column, or behind it when the output has passed it. *)
Lemma mytab_column n o : column (mytab n o).1 = Z.max (column o) n ∧ (mytab n o).2 = (column o <=? n).
Proof.
  unfold mytab. cbn [fst snd]. rewrite pad_column. split; [lia|]. apply eq_true_iff_eq. rewrite Z.eqb_eq, Z.leb_le. lia.
Qed.

(** A tab goes to the next column after a multiple of eight. *)
Lemma tab_column c : 1 ≤ c →
  let c' := column_after (ascii_of_nat 9) c in c < c' ≤ c + 8 ∧ (c' - 1) mod 8 = 0.
Proof.
  intros Hc c'. assert (c' = (c + 7) / 8 * 8 + 1) as ->.
  { unfold c', column_after. cbn -[Z.land Z.lnot]. change 7 with (Z.ones 3) at 2. f_equal.
    rewrite <- Z.ldiff_land, Z.ldiff_ones_r, Z.shiftl_mul_pow2, Z.shiftr_div_pow2 by lia. done. }
  replace ((c + 7) / 8 * 8 + 1 - 1) with ((c + 7) / 8 * 8) by lia. rewrite Z_mod_mult. split; [|done].
  Z.div_mod_to_equations. lia.
Qed.

(** for a word that is not the no-op d.c prints the name of the operation that the kernel's processor decodes, and for a
    [regular] one the operands of the kernel's trace; for a jump or a branch the last operand is the address where execute.c
    goes when it is taken. *)
Theorem disassembly_agrees longdis w pc i :
  is_s32 pc → w ≠ 0 → Decode (u32 w) = Ret i →
  (regular (opCode i) = true → ∃ name os s, kernel_text i = Ret (name, os) ∧ print_operands os = Ret s ∧
     dump_ascii longdis w pc = Ret (location longdis w pc +:+ name +:+ tab +:+ s)) ∧
  ∀ z, target (opCode i) w pc = Some z → ∃ name os s, kernel_name (opCode i) = Ret name ∧ last os = Some (Address z) ∧
     print_operands os = Ret s ∧ dump_ascii longdis w pc = Ret (location longdis w pc +:+ name +:+ tab +:+ s).
Proof. apply disassembly. Qed.

(** BEQ r1, r2, 3 and ADDIU r3, r1, -5 *)
Lemma disassembly_agrees_witness :
  (∃ name os s, kernel_text (mkInstr 0x2423fffb OP_ADDIU 1 3 31 (-5)) = Ret (name, os) ∧ print_operands os = Ret s ∧
     dump_ascii false 0x2423fffb 0x400 = Ret (tab +:+ name +:+ tab +:+ s)) ∧
  ∃ name os s, kernel_name OP_BEQ = Ret name ∧ last os = Some (Address 0x410) ∧ print_operands os = Ret s ∧
     dump_ascii false 0x10220003 0x400 = Ret (tab +:+ name +:+ tab +:+ s).
Proof.
  split.
  - apply (disassembly_agrees false 0x2423fffb 0x400 (mkInstr 0x2423fffb OP_ADDIU 1 3 31 (-5)));
      [unfold is_s32; lia|lia|reflexivity|reflexivity].
  - apply (disassembly_agrees false 0x10220003 0x400 (mkInstr 0x10220003 OP_BEQ 1 2 0 3));
      [unfold is_s32; lia|lia|reflexivity|reflexivity].
Defined.

(** the disassembler of an object file whose text begins at [memoffset] ends and prints one line per word of the text, in
    order, with its address and its instruction. *)
Theorem disasm_lists_text f hd ws :
  text_only f hd → Forall is_s32 ws → 0 < s_scnptr hd → s_size hd = 4 * Z.of_nat (length ws) → s_size hd ≤ Execute.MEMSIZE →
  take (Z.to_nat (s_size hd)) (drop (Z.to_nat (s_scnptr hd)) (content f)) = words_bytes ws →
  ∃ s, listing ws Execute.memoffset = Ret s ∧ main (Some f) = Ret (inr s).
Proof. apply main_lists. Qed.

Definition example_text : SCNHDR := mkSCNHDR Execute.memoffset 8 4.
Definition example_object : LDFILE :=
  mkLDFILE 0x162 (λ name, if bool_decide (name = ".text") then Some example_text else None)
    ([1; 2; 3; 4] ++ words_bytes [0x2423fffb; 0]).

Lemma disasm_lists_text_witness :
  ∃ s, main (Some example_object) = Ret (inr s) ∧
    s = "10000000: 2423fffb  " +:+ tab +:+ "addiu" +:+ tab +:+ "r3,r1,0xfffffffb" +:+ newline +:+
        "10000004: 00000000  " +:+ tab +:+ "nop" +:+ newline.
Proof.
  destruct (disasm_lists_text example_object example_text [0x2423fffb; 0]) as (s & Hl & Hm);
    [done|repeat constructor; unfold is_s32; lia|done|done|done|reflexivity|].
  exists s. split; [exact Hm|]. vm_compute in Hl. injection Hl as <-. reflexivity.
Defined.

End Disasm.
