(* ===== verification/Startup.v ===== *)
(** * threads/main.cc, threads/system.cc, threads/utility.cc: the command line

    [Initialize] and [main] read the arguments twice, each with its own loop.  A build is the set of its -D options;
    the arguments are a list of strings without the name of the program.  [Initialize] gives the flags and the objects it
    makes, [main] the calls that it makes one after the other, and how it ends.  The calls themselves are in the other
    files; which executables open, which decides whether [StartProcess] comes back, is a parameter.  The options are
    spelled as the code spells them: the reliability of the network is -l, where the comment of main.cc says -n. *)

From S2P Require Import Prelude CInt.
From stdpp Require Import strings.
From Stdlib Require Import Ascii.

Open Scope Z_scope.

Module Startup.

(** *** threads/utility.cc *)
Definition strchr (s : string) (c : ascii) : bool :=
  bool_decide (c ∈ String.list_ascii_of_string s) || Ascii.eqb c zero.
(** [enableFlags] is NULL before [DebugInit]. *)
Definition DebugInit (flagList : string) : option string := Some flagList.
Definition DebugIsEnabled (enableFlags : option string) (flag : ascii) : bool :=
  match enableFlags with
  | Some flags => strchr flags flag || strchr flags "+"
  | None => false
  end.

(** *** stdlib: [atoi] *)
Definition is_space (c : ascii) : bool :=
  let n := nat_of_ascii c in (n =? 32)%nat || ((9 <=? n)%nat && (n <=? 13)%nat).
Definition digit (c : ascii) : option Z :=
  let n := Z.of_nat (nat_of_ascii c) in if (48 <=? n) && (n <=? 57) then Some (n - 48) else None.
Fixpoint digits (s : string) (acc : Z) : Z :=
  match s with
  | String c s => match digit c with Some d => digits s (10 * acc + d) | None => acc end
  | EmptyString => acc
  end.
Fixpoint atoi_value (s : string) : Z :=
  match s with
  | EmptyString => 0
  | String c s' =>
      if is_space c then atoi_value s'
      else if Ascii.eqb c "-" then - digits s' 0
      else if Ascii.eqb c "+" then digits s' 0
      else digits s 0
  end.
Definition atoi (s : string) : outcome Z :=
  defined_if ((- 2 ^ 31 <=? atoi_value s) && (atoi_value s <? 2 ^ 31));; Ret (atoi_value s).

(** The -D options of the Makefiles. *)
Record Build := mkBuild { THREADS : bool; USER_PROGRAM : bool; FILESYS_NEEDED : bool; FILESYS : bool; NETWORK : bool }.

Definition threads_build : Build := mkBuild true false false false false.
Definition userprog_build : Build := mkBuild false true true false false.
Definition vm_build : Build := mkBuild false true true false false.
Definition filesys_build : Build := mkBuild true true true true false.
Definition network_build : Build := mkBuild false true true true true.

Section build.
Variable b : Build.

Definition eq_arg (a s : string) : bool := bool_decide (a = s).

(** *** threads/system.cc: Initialize

    [seed] is the argument of RandomInit when [randomYield] is TRUE; [rely] the argument of atof, or [None] for the
    value 1. *)
Record Flags := mkFlags {
  debugArgs : string; seed : option Z; debugUserProg : bool; format : bool; rely : option string; netname : Z }.
Definition flags0 : Flags := mkFlags EmptyString None false false None 0.

Definition set_debug (s : string) (f : Flags) : Flags :=
  mkFlags s (seed f) (debugUserProg f) (format f) (rely f) (netname f).
Definition set_seed (z : Z) (f : Flags) : Flags :=
  mkFlags (debugArgs f) (Some z) (debugUserProg f) (format f) (rely f) (netname f).
Definition set_single (f : Flags) : Flags := mkFlags (debugArgs f) (seed f) true (format f) (rely f) (netname f).
Definition set_format (f : Flags) : Flags := mkFlags (debugArgs f) (seed f) (debugUserProg f) true (rely f) (netname f).
Definition set_rely (s : string) (f : Flags) : Flags :=
  mkFlags (debugArgs f) (seed f) (debugUserProg f) (format f) (Some s) (netname f).
Definition set_netname (z : Z) (f : Flags) : Flags :=
  mkFlags (debugArgs f) (seed f) (debugUserProg f) (format f) (rely f) z.

(** The argument behind this one, with [ASSERT(argc > 1)]. *)
Definition operand (rest : list string) : outcome string :=
  match rest with s :: _ => Ret s | [] => AssertFails end.

(** The branches of the loop: the flags and [argCount]. *)
Definition common_flag (a : string) (rest : list string) (f : Flags) : outcome (Flags * nat) :=
  if eq_arg a "-d" then
    match rest with
    | [] => Ret (set_debug "+" f, 1%nat)
    | s :: _ => Ret (set_debug s f, 2%nat)
    end
  else if eq_arg a "-rs" then s ← operand rest; z ← atoi s; Ret (set_seed z f, 2%nat)
  else Ret (f, 1%nat).
Definition network_flag (a : string) (rest : list string) (f : Flags) (argCount : nat) : outcome (Flags * nat) :=
  if eq_arg a "-l" then s ← operand rest; Ret (set_rely s f, 2%nat)
  else if eq_arg a "-m" then s ← operand rest; z ← atoi s; Ret (set_netname z f, 2%nat)
  else Ret (f, argCount).
Definition flag_step (a : string) (rest : list string) (f : Flags) : outcome (Flags * nat) :=
  '(f, argCount) ← common_flag a rest f;
  let f := if USER_PROGRAM b && eq_arg a "-s" then set_single f else f in
  let f := if FILESYS_NEEDED b && eq_arg a "-f" then set_format f else f in
  if NETWORK b then network_flag a rest f argCount else Ret (f, argCount).

Fixpoint flag_loop (fuel : nat) (argv : list string) (f : Flags) : outcome Flags :=
  match fuel, argv with
  | _, [] => Ret f
  | O, _ => OutOfFuel
  | S fuel, a :: rest =>
      '(f, argCount) ← flag_step a rest f;
      flag_loop fuel (drop argCount (a :: rest)) f
  end.

(** The objects of the kernel, in the order in which they are made. *)
Inductive object :=
  | Debug (flags : string) | Statistics | Interrupt | Scheduler | Timer | MainThread | EnableInterrupts | CallOnUserAbort
  | Machine (singleStep : bool) | MemoryManager | ThreadList | SynchDisk | FileSystem (format : bool)
  | PostOffice (addr : Z) (reliability : option string) (nBoxes : Z).

Definition objects (f : Flags) : list object :=
  [Debug (debugArgs f); Statistics; Interrupt; Scheduler] ++ match seed f with Some _ => [Timer] | None => [] end ++
  [MainThread; EnableInterrupts; CallOnUserAbort] ++
  (if USER_PROGRAM b then [Machine (debugUserProg f); MemoryManager; ThreadList] else []) ++
  (if FILESYS b then [SynchDisk] else []) ++
  (if FILESYS_NEEDED b then [FileSystem (format f)] else []) ++
  (if NETWORK b then [PostOffice (netname f) (rely f) 10] else []).

Definition Initialize (argv : list string) : outcome (Flags * list object) :=
  f ← flag_loop (length argv) argv flags0; Ret (f, objects f).

(** *** threads/main.cc *)
Inductive call :=
  | Copyright | UseFifo | StartProcess (file : string) | ConsoleTest (io : option (string * string)) | Halt
  | Copy (unixFile nachosFile : string) | Print (file : string) | Remove (file : string) | List_ | PrintAll
  | PerformanceTest | Delay (seconds : Z) | MailTest (networkID : Z) | ThreadTest (testnum : Z).

(** The main thread finishes, the machine halts, a user program has the processor for good, or an ASSERT fails. *)
Inductive ending := Finish | Halts | Runs | Fails.

(** Whether [fileSystem->Open] finds the file after the calls made so far. *)
Variable opens : list call → string → bool.

(** What one argument does: calls and [argCount], or calls and the end. *)
Inductive step := Next (calls : list call) (argCount : nat) | Stop (calls : list call) (e : ending).
Definition then_ (s : step) (k : nat → outcome step) : outcome step :=
  match s with
  | Stop cs e => Ret (Stop cs e)
  | Next cs n =>
      s ← k n;
      Ret (match s with Next cs' n => Next (cs ++ cs') n | Stop cs' e => Stop (cs ++ cs') e end)
  end.

(** [StartProcess] returns when the executable does not open; else [machine->Run] never does. *)
Definition user_command (past : list call) (a : string) (rest : list string) (argCount : nat) : step :=
  if eq_arg a "-b" then Next [UseFifo] argCount
  else if eq_arg a "-x" then
    match rest with
    | f :: _ => if opens past f then Stop [StartProcess f] Runs else Next [StartProcess f] 2
    | [] => Stop [] Fails
    end
  else if eq_arg a "-c" then
    match rest with
    | [] => Stop [ConsoleTest None; Halt] Halts
    | [_] => Stop [] Fails
    | i :: o :: _ => Stop [ConsoleTest (Some (i, o)); Halt] Halts
    end
  else Next [] argCount.

Definition filesys_command (a : string) (rest : list string) (argCount : nat) : step :=
  if eq_arg a "-cp" then match rest with u :: n :: _ => Next [Copy u n] 3 | _ => Stop [] Fails end
  else if eq_arg a "-p" then match rest with f :: _ => Next [Print f] 2 | [] => Stop [] Fails end
  else if eq_arg a "-r" then match rest with f :: _ => Next [Remove f] 2 | [] => Stop [] Fails end
  else if eq_arg a "-l" then Next [List_] argCount
  else if eq_arg a "-D" then Next [PrintAll] argCount
  else if eq_arg a "-t" then Next [PerformanceTest] argCount
  else Next [] argCount.

(** [MailTest] ends in [interrupt->Halt]. *)
Definition network_command (a : string) (rest : list string) (argCount : nat) : outcome step :=
  if eq_arg a "-o" then
    match rest with id :: _ => z ← atoi id; Ret (Stop [Delay 2; MailTest z] Halts) | [] => Ret (Stop [] Fails) end
  else Ret (Next [] argCount).

Definition command_step (past : list call) (a : string) (rest : list string) : outcome step :=
  then_ (Next (if eq_arg a "-z" then [Copyright] else []) 1) (λ n,
  then_ (if USER_PROGRAM b then user_command past a rest n else Next [] n) (λ n,
  then_ (if FILESYS b then filesys_command a rest n else Next [] n) (λ n,
  if NETWORK b then network_command a rest n else Ret (Next [] n)))).

(** [past]: the calls made so far. *)
Fixpoint command_loop (fuel : nat) (past : list call) (argv : list string) : outcome (list call * ending) :=
  match fuel, argv with
  | _, [] => Ret ([], Finish)
  | O, _ => OutOfFuel
  | S fuel, a :: rest =>
      s ← command_step past a rest;
      match s with
      | Stop cs e => Ret (cs, e)
      | Next cs n => '(cs', e) ← command_loop fuel (past ++ cs) (drop n (a :: rest)); Ret (cs ++ cs', e)
      end
  end.

(** The loop of the builds with THREADS: [testnum]. *)
Definition second_char (a : string) : outcome (option ascii) :=
  match a with
  | EmptyString => Undefined
  | String _ EmptyString => Ret None
  | String _ (String c _) => Ret (Some c)
  end.
Fixpoint testnum_loop (fuel : nat) (argv : list string) (testnum : Z) : outcome Z :=
  match fuel, argv with
  | _, [] => Ret testnum
  | O, _ => OutOfFuel
  | S fuel, a :: rest =>
      c ← second_char a;
      if bool_decide (c = Some "q"%char) then
        match rest with
        | [] => Undefined
        | n :: _ => z ← atoi n; testnum_loop fuel (drop 2 (a :: rest)) z
        end
      else testnum_loop fuel rest 1
  end.

(** The loop over the commands finds no argument that the loop of THREADS has left. *)
Definition main (argv : list string) : outcome (list object * list call * ending) :=
  '(f, os) ← Initialize argv;
  if THREADS b then testnum ← testnum_loop (length argv) argv 1; Ret (os, [ThreadTest testnum], Finish)
  else '(cs, e) ← command_loop (length argv) [] argv; Ret (os, cs, e).

(** *** The options, as the comment of main.cc lists them *)
Inductive option_ :=
  | Od (flags : string) | Ors (n : string) | Oz | Os | Ox (f : string) | Oc (i o : string) | Ob | Of
  | Ocp (u n : string) | Op (f : string) | Or (f : string) | Ol | OD | Ot | On (r : string) | Om (id : string) | Oo (id : string).

(** As the code has it: the reliability of the network is -l; the comment says -n. *)
Definition words (o : option_) : list string :=
  match o with
  | Od s => ["-d"; s] | Ors n => ["-rs"; n] | Oz => ["-z"] | Os => ["-s"] | Ox f => ["-x"; f] | Oc i o => ["-c"; i; o]
  | Ob => ["-b"] | Of => ["-f"] | Ocp u n => ["-cp"; u; n] | Op f => ["-p"; f] | Or f => ["-r"; f] | Ol => ["-l"]
  | OD => ["-D"] | Ot => ["-t"] | On r => ["-l"; r] | Om i => ["-m"; i] | Oo i => ["-o"; i]
  end.

(** A word that is no option itself, and a number for [atoi]. *)
Definition plain (s : string) : bool :=
  negb (bool_decide (s ∈ ["-d"; "-rs"; "-z"; "-s"; "-x"; "-c"; "-b"; "-f"; "-cp"; "-p"; "-r"; "-l"; "-D"; "-t"; "-m"; "-o"])).
Definition number (s : string) : bool :=
  plain s && (- 2 ^ 31 <=? atoi_value s) && (atoi_value s <? 2 ^ 31).

(** The options of this build. *)
Definition accepted (o : option_) : bool :=
  match o with
  | Od s => plain s
  | Ors n => number n
  | Oz => true
  | Os | Ob => USER_PROGRAM b
  | Ox f => USER_PROGRAM b && plain f
  | Oc i o => USER_PROGRAM b && plain i && plain o
  | Of => FILESYS_NEEDED b
  | Ocp u n => FILESYS b && plain u && plain n
  | Op f | Or f => FILESYS b && plain f
  | Ol => FILESYS b && negb (NETWORK b)
  | OD | Ot => FILESYS b
  | On r => NETWORK b && plain r
  | Om i | Oo i => NETWORK b && number i
  end.

Definition effect (f : Flags) (o : option_) : Flags :=
  match o with
  | Od s => set_debug s f | Ors n => set_seed (atoi_value n) f | Os => set_single f | Of => set_format f
  | On r => set_rely r f | Om i => set_netname (atoi_value i) f
  | _ => f
  end.
(** In a build with both, the option of the reliability also lists the directory. *)
Definition calls_of (o : option_) : list call :=
  match o with
  | Oz => [Copyright] | Ox f => [StartProcess f] | Oc i o => [ConsoleTest (Some (i, o)); Halt] | Ob => [UseFifo]
  | Ocp u n => [Copy u n] | Op f => [Print f] | Or f => [Remove f] | Ol => [List_] | OD => [PrintAll] | Ot => [PerformanceTest]
  | On _ => if FILESYS b then [List_] else []
  | Oo i => [Delay 2; MailTest (atoi_value i)]
  | Od _ | Ors _ | Os | Of | Om _ => []
  end.
(** The options whose last call does not come back. *)
Definition ends_with (past : list call) (o : option_) : option ending :=
  match o with
  | Oc _ _ | Oo _ => Some Halts
  | Ox f => if opens past f then Some Runs else None
  | _ => None
  end.
(** The calls of a command line. *)
Fixpoint calls_until (past : list call) (opts : list option_) : list call * ending :=
  match opts with
  | [] => ([], Finish)
  | o :: opts =>
      match ends_with past o with
      | Some e => (calls_of o, e)
      | None => let '(cs, e) := calls_until (past ++ calls_of o) opts in (calls_of o ++ cs, e)
      end
  end.
End build.

(** *** threads/threadtest.cc: ThreadTest, the routine for a number *)
Inductive test :=
  | ThreadTest1 | LockTest1 | LockTest2 | LockTest3 | ReadersAndWriters | CondTest1 | CondTest2
  | MailboxTest1 | MailboxTest2 | MailboxTest3 | MailboxTest4 | PriorityOrderTest | PriorityOrderYieldTest
  | PriorityLockOrderTest | JoinTest1 | JoinTest2 | WhaleTest | WhaleMaidenTest.
Definition tests : list (Z * test) := [
  (1, ThreadTest1); (2, LockTest1); (3, LockTest2); (4, LockTest3); (20, ReadersAndWriters); (21, CondTest1); (22, CondTest2);
  (30, MailboxTest1); (31, MailboxTest2); (32, MailboxTest3); (33, MailboxTest4); (40, PriorityOrderTest);
  (41, PriorityOrderYieldTest); (42, PriorityLockOrderTest); (50, JoinTest1); (51, JoinTest2); (60, WhaleTest);
  (61, WhaleMaidenTest)].
(** The debug flags are [w] from here on; [None] is the message that there is no such test. *)
Definition run_ThreadTest (testnum : Z) : option string * option test :=
  (DebugInit "w", snd <$> list_find (λ t, bool_decide (t.1 = testnum)) tests ≫= λ t, Some t.2).

(** *** Lemmas *)
Ltac literals :=
  repeat match goal with
  | |- context [eq_arg ?a ?s] =>
      let r := eval vm_compute in (eq_arg a s) in
      match r with true => change (eq_arg a s) with true | false => change (eq_arg a s) with false end
  end.

Lemma plain_other s x :
  plain s = true → x ∈ ["-d"; "-rs"; "-z"; "-s"; "-x"; "-c"; "-b"; "-f"; "-cp"; "-p"; "-r"; "-l"; "-D"; "-t"; "-m"; "-o"] →
  eq_arg s x = false.
Proof.
  unfold plain. intros Hp Hx. apply negb_true_iff, bool_decide_eq_false_1 in Hp. apply bool_decide_eq_false_2. by intros ->.
Qed.

Ltac plain_word Hp := rewrite ?(plain_other _ _ Hp) by (repeat (left || right)).

Lemma flag_step_plain b s rest f : plain s = true → flag_step b s rest f = Ret (f, 1%nat).
Proof.
  intros Hp. unfold flag_step, common_flag, network_flag. plain_word Hp. rewrite !andb_false_r. by destruct (NETWORK b).
Qed.

Lemma command_step_plain b opens past s rest : plain s = true → command_step b opens past s rest = Ret (Next [] 1).
Proof.
  intros Hp. unfold command_step, user_command, filesys_command, network_command. plain_word Hp.
  by destruct (USER_PROGRAM b), (FILESYS b), (NETWORK b).
Qed.

Lemma number_atoi s : number s = true → plain s = true ∧ atoi s = Ret (atoi_value s).
Proof.
  unfold number, atoi. intros Hn. apply andb_true_iff in Hn as [[Hp H1]%andb_true_iff H2]. split; [done|]. by rewrite H1, H2.
Qed.

(** The fuel is enough: every round takes an argument. *)
Lemma flag_step_count b a rest f f' n : flag_step b a rest f = Ret (f', n) → (1 ≤ n)%nat.
Proof.
  unfold flag_step, common_flag, network_flag, operand.
  destruct (eq_arg a "-d"), (eq_arg a "-rs"), (NETWORK b), (eq_arg a "-l"), (eq_arg a "-m"), rest as [|s rest];
    cbn [mbind outcome_bind]; try destruct (atoi s); cbn [mbind outcome_bind]; intros E; try discriminate E;
    injection E as _ <-; lia.
Qed.

Lemma flag_loop_fuel b : ∀ n m argv f, (length argv ≤ n)%nat → (length argv ≤ m)%nat → flag_loop b n argv f = flag_loop b m argv f.
Proof.
  induction n as [|n IH]; intros [|m] [|a rest] f Hn Hm; cbn [length] in *; try done; try lia. cbn [flag_loop].
  destruct (flag_step b a rest f) as [[f' k]| | |] eqn:E; try done. cbn [mbind outcome_bind].
  apply flag_step_count in E. apply IH; rewrite length_drop; cbn [length]; lia.
Qed.

Definition flags_of (b : Build) (argv : list string) (f : Flags) : outcome Flags := flag_loop b (length argv) argv f.
Lemma flags_of_cons b a rest f :
  flags_of b (a :: rest) f = ('(f', n) ← flag_step b a rest f; flags_of b (drop n (a :: rest)) f').
Proof.
  unfold flags_of. cbn [length flag_loop]. destruct (flag_step b a rest f) as [[f' n]| | |] eqn:E; try done.
  cbn [mbind outcome_bind]. apply flag_step_count in E. apply flag_loop_fuel; rewrite ?length_drop; cbn [length]; lia.
Qed.
Lemma flags_of_plain b s rest f : plain s = true → flags_of b (s :: rest) f = flags_of b rest f.
Proof. intros Hp. rewrite flags_of_cons, flag_step_plain by done. done. Qed.

Lemma flags_of_option b o rest f : accepted b o = true → flags_of b (words o ++ rest) f = flags_of b rest (effect f o).
Proof.
  intros Ha. destruct o; cbn [accepted] in Ha; rewrite ?andb_true_iff in Ha; destruct_and? Ha;
    repeat match goal with H : number _ = true |- _ => apply number_atoi in H as [??] | H : negb _ = true |- _ => apply negb_true_iff in H end;
    cbn [words app effect]; rewrite flags_of_cons; unfold flag_step, common_flag, network_flag, operand; literals;
    repeat match goal with H : _ b = _ |- _ => rewrite H end;
    cbn [mbind outcome_bind andb]; repeat match goal with H : atoi _ = _ |- _ => rewrite H end;
    cbn [mbind outcome_bind]; rewrite ?andb_false_r; try destruct (NETWORK b); cbn [mbind outcome_bind drop];
    rewrite ?flags_of_plain by done; done.
Qed.

Lemma flags_of_options b opts f :
  Forall (λ o, accepted b o = true) opts → flags_of b (opts ≫= words) f = Ret (foldl effect f opts).
Proof.
  intros Ho. revert f. induction Ho as [|o opts Ho Hos IH]; intros f; [done|]. cbn [mbind list_bind foldl].
  rewrite flags_of_option by done. apply IH.
Qed.

(** Every step of [main] takes an argument too. *)
Definition counts (s : step) : Prop := match s with Next _ n => (1 ≤ n)%nat | Stop _ _ => True end.

Lemma then_counts s k s' : counts s → (∀ n r, (1 ≤ n)%nat → k n = Ret r → counts r) → then_ s k = Ret s' → counts s'.
Proof.
  intros Hs Hk. destruct s as [cs n|cs e]; cbn [then_]; [|by intros [= <-]]. intros E.
  apply bind_Ret_inv in E as (r & Er & E). apply Hk in Er; [|done]. by destruct r; injection E as <-.
Qed.

Lemma user_command_counts opens past a rest n : (1 ≤ n)%nat → counts (user_command opens past a rest n).
Proof. intros Hn. unfold user_command. repeat case_match; cbn [counts]; lia || done. Qed.
Lemma filesys_command_counts a rest n : (1 ≤ n)%nat → counts (filesys_command a rest n).
Proof. intros Hn. unfold filesys_command. repeat case_match; cbn [counts]; lia || done. Qed.
Lemma network_command_counts a rest n s : (1 ≤ n)%nat → network_command a rest n = Ret s → counts s.
Proof.
  intros Hn. unfold network_command. destruct (eq_arg a "-o"); [|by intros [= <-]]. destruct rest as [|i rest]; [by intros [= <-]|].
  intros E. apply bind_Ret_inv in E as (z & _ & E). by injection E as <-.
Qed.

Lemma command_step_counts b opens past a rest s : command_step b opens past a rest = Ret s → counts s.
Proof.
  apply then_counts; [cbn; lia|]. intros n1 r1 H1. apply then_counts.
  { destruct (USER_PROGRAM b); [by apply user_command_counts|done]. }
  intros n2 r2 H2. apply then_counts.
  { destruct (FILESYS b); [by apply filesys_command_counts|done]. }
  intros n3 r3 H3. destruct (NETWORK b); [by apply network_command_counts|by intros [= <-]].
Qed.

Lemma command_loop_fuel b opens : ∀ n m past argv, (length argv ≤ n)%nat → (length argv ≤ m)%nat →
  command_loop b opens n past argv = command_loop b opens m past argv.
Proof.
  induction n as [|n IH]; intros [|m] past [|a rest] Hn Hm; cbn [length] in *; try done; try lia. cbn [command_loop].
  destruct (command_step b opens past a rest) as [s| | |] eqn:E; try done. cbn [mbind outcome_bind].
  apply command_step_counts in E. destruct s as [cs k|cs e]; [|done]. cbn in E.
  rewrite (IH m); [done|rewrite length_drop; cbn [length]; lia..].
Qed.

Section commands.
Context (b : Build) (opens : list call → string → bool).

Definition commands_of (past : list call) (argv : list string) : outcome (list call * ending) :=
  command_loop b opens (length argv) past argv.
Definition prepend (cs : list call) (r : list call * ending) : list call * ending := (cs ++ r.1, r.2).

Lemma commands_of_cons past a rest :
  commands_of past (a :: rest) =
    (s ← command_step b opens past a rest;
     match s with
     | Stop cs e => Ret (cs, e)
     | Next cs n => r ← commands_of (past ++ cs) (drop n (a :: rest)); Ret (prepend cs r)
     end).
Proof.
  unfold commands_of. cbn [length command_loop]. destruct (command_step b opens past a rest) as [s| | |] eqn:E; try done.
  cbn [mbind outcome_bind]. apply command_step_counts in E. destruct s as [cs k|cs e]; [|done]. cbn in E.
  rewrite (command_loop_fuel b opens (length rest) (length (drop k (a :: rest)))) by (rewrite ?length_drop; cbn [length]; lia).
  by destruct (command_loop b _ _ _) as [[cs' e]| | |].
Qed.

Lemma commands_of_plain past s rest : plain s = true → commands_of past (s :: rest) = commands_of past rest.
Proof.
  intros Hp. rewrite commands_of_cons, command_step_plain by done. cbn [mbind outcome_bind]. change (drop 1 (s :: rest)) with rest.
  rewrite app_nil_r. by destruct (commands_of past rest) as [[cs e]| | |].
Qed.

(** One option: its calls, then those of the rest, unless one does not come back. *)
Lemma commands_of_option past o rest : accepted b o = true →
  commands_of past (words o ++ rest) =
    match ends_with opens past o with
    | Some e => Ret (calls_of b o, e)
    | None => r ← commands_of (past ++ calls_of b o) rest; Ret (prepend (calls_of b o) r)
    end.
Proof.
  intros Ha. assert (∀ r, prepend [] r = r) as Hnil by (by intros []).
  destruct o; cbn [accepted] in Ha; rewrite ?andb_true_iff in Ha; destruct_and? Ha;
    repeat match goal with H : number _ = true |- _ => apply number_atoi in H as [??]
      | H : negb _ = true |- _ => apply negb_true_iff in H end;
    cbn [words app calls_of ends_with]; rewrite commands_of_cons;
    unfold command_step, user_command, filesys_command, network_command; literals;
    repeat match goal with H : _ b = _ |- _ => rewrite H end;
    try destruct (USER_PROGRAM b); try destruct (FILESYS b); try destruct (NETWORK b);
    try match goal with |- context [opens ?p ?f] => destruct (opens p f) end;
    cbn [then_ mbind outcome_bind app]; repeat match goal with H : atoi _ = _ |- _ => rewrite H end;
    cbn [then_ mbind outcome_bind drop app]; rewrite ?commands_of_plain by done; done.
Qed.

Lemma commands_of_options past opts :
  Forall (λ o, accepted b o = true) opts → commands_of past (opts ≫= words) = Ret (calls_until b opens past opts).
Proof.
  intros Ho. revert past. induction Ho as [|o opts Ho Hos IH]; intros past; [done|]. cbn [mbind list_bind calls_until].
  rewrite commands_of_option by done. destruct (ends_with opens past o); [done|].
  rewrite IH. cbn [mbind outcome_bind]. by destruct (calls_until b opens _ opts).
Qed.
End commands.

(** C26: without THREADS the kernel does what the comment of main.cc says its options mean, with -l for the reliability
    of the network where the comment says -n: for any list of options of the build, with operands that are no options
    themselves, and whichever files open, [Initialize] takes the value that is given last for a flag and makes the
    objects of the build with it, and [main] makes the calls of the options in their order, up to the first that does
    not come back: the console test and the mail test, which halt the machine, and [StartProcess] of a file that opens;
    an executable that does not open is passed over. *)
Theorem command_line b opens opts :
  THREADS b = false → Forall (λ o, accepted b o = true) opts →
  main b opens (opts ≫= words) =
    Ret (objects b (foldl effect flags0 opts), (calls_until b opens [] opts).1, (calls_until b opens [] opts).2).
Proof.
  intros Ht Ho. unfold main, Initialize. fold (flags_of b (opts ≫= words) flags0).
  fold (commands_of b opens [] (opts ≫= words)).
  rewrite flags_of_options, Ht, commands_of_options by done. cbn [mbind outcome_bind]. by destruct (calls_until b opens [] opts).
Qed.

(** The files that open are those copied into the file system. *)
Definition copied (past : list call) (f : string) : bool :=
  existsb (λ c, match c with Copy _ n => eq_arg n f | _ => false end) past.

Lemma command_line_witness :
  main network_build copied
      ["-m"; "1"; "-f"; "-l"; "0.8"; "-x"; "b"; "-cp"; "a"; "b"; "-rs"; "7"; "-o"; "0"; "-z"] =
    Ret ([Debug EmptyString; Statistics; Interrupt; Scheduler; Timer; MainThread; EnableInterrupts; CallOnUserAbort; Machine false;
          MemoryManager; ThreadList; SynchDisk; FileSystem true; PostOffice 1 (Some "0.8") 10],
         [List_; StartProcess "b"; Copy "a" "b"; Delay 2; MailTest 0], Halts) ∧
  (main network_build copied ["-cp"; "a"; "b"; "-x"; "b"; "-z"] ≫= λ r, Ret (r.1.2, r.2)) =
    Ret ([Copy "a" "b"; StartProcess "b"], Runs).
Proof.
  split.
  - apply (command_line network_build copied [Om "1"; Of; On "0.8"; Ox "b"; Ocp "a" "b"; Ors "7"; Oo "0"; Oz]);
      [reflexivity|]. repeat constructor.
  - assert (main network_build copied ["-cp"; "a"; "b"; "-x"; "b"; "-z"] =
      Ret (objects network_build flags0, [Copy "a" "b"; StartProcess "b"], Runs)) as E;
      [|rewrite E; reflexivity].
    apply (command_line network_build copied [Ocp "a" "b"; Ox "b"; Oz]); [reflexivity|]. repeat constructor.
Defined.

(** A build with THREADS, that of filesys/Makefile too, runs a thread test whatever the arguments are: the first loop of
    [main] uses them up. *)
Lemma threads_builds_only_test b opens argv os cs e :
  THREADS b = true → main b opens argv = Ret (os, cs, e) → e = Finish ∧ ∃ n, cs = [ThreadTest n].
Proof.
  intros Ht. unfold main. rewrite Ht. intros ([f os'] & _ & E)%bind_Ret_inv. apply bind_Ret_inv in E as (n & _ & E).
  injection E as _ <- <-. split; [done|]. by exists n.
Qed.

Example filesys_build_ignores_commands :
  (main filesys_build copied ["-f"; "-cp"; "a"; "b"; "-l"] ≫= λ r, Ret (r.1.2, r.2)) = Ret ([ThreadTest 1], Finish).
Proof. vm_compute. reflexivity. Qed.

(** An option behind -q sets the number back to 1; -q at the end reads an argument that is not there. *)
Example testnum_is_reset :
  (main threads_build copied ["-q"; "33"] ≫= λ r, Ret r.1.2) = Ret [ThreadTest 33] ∧
  (main threads_build copied ["-d"; "t"; "-q"; "33"] ≫= λ r, Ret r.1.2) = Ret [ThreadTest 33] ∧
  (main threads_build copied ["-q"; "33"; "-d"; "t"] ≫= λ r, Ret r.1.2) = Ret [ThreadTest 1] ∧
  main threads_build copied ["-q"] = Undefined.
Proof. vm_compute. done. Qed.

Example every_test_has_a_number : length tests = 18%nat ∧ (run_ThreadTest 33).2 = Some MailboxTest4 ∧ (run_ThreadTest 5).2 = None.
Proof. vm_compute. done. Qed.

Example debug_flags :
  DebugIsEnabled (DebugInit "tw") "t" = true ∧ DebugIsEnabled (DebugInit "tw") "m" = false ∧ DebugIsEnabled (DebugInit "+") "m" = true ∧
  DebugIsEnabled None "t" = false.
Proof. vm_compute. done. Qed.

End Startup.
