(* ===== verification/Diagnostics.v ===== *)
(** * What Nachos prints about itself, and how it stops

    The debugging output of the machine and the devices as text, DEBUG of utility.cc, the check of the host's byte order, and
    Cleanup of system.cc with Interrupt::Halt. *)

From S2P Require Import Prelude CInt Machine Mips Registers Interrupt Network Post Execute Disasm Startup.
From stdpp Require Import strings pretty.
From Stdlib Require Import Ascii Bool.
Import Machine.Machine Mips.Mips Registers.Registers.

Open Scope Z_scope.

Module Diagnostics.

Definition newline : string := Disasm.Disasm.newline.
Definition tab : string := Disasm.Disasm.tab.
Definition fmt_x : Z → string := Disasm.Disasm.fmt_x.

(** *** machine/machine.cc *)

(** The union of four characters and a word, read as a word by a host of either byte order. *)
Definition intword (big_endian : bool) (charword : list Z) : Z :=
  le_value (if big_endian then rev charword else charword).

Definition CheckEndian (HOST_IS_BIG_ENDIAN big_endian : bool) : outcome unit :=
  let check := [1; 2; 3; 4] in
  if HOST_IS_BIG_ENDIAN then ASSERT (intword big_endian check =? 0x01020304)
  else ASSERT (intword big_endian check =? 0x04030201).

Definition exceptionNames : list string :=
  ["no exception"; "syscall"; "page fault/no TLB entry"; "page read only"; "bus error"; "address error"; "overflow";
   "illegal instruction"].

(** One register; a line has four. *)
Definition DumpState_reg (m : Machine) (i : Z) (out : string) : outcome string :=
  v ← reg m i;
  let label := if i =? StackReg then "SP(" +:+ pretty i +:+ "):" else if i =? RetAddrReg then "RA(" +:+ pretty i +:+ "):"
               else pretty i +:+ ":" in
  Ret (out +:+ tab +:+ label +:+ tab +:+ "0x" +:+ fmt_x v +:+ (if i mod 4 =? 3 then newline else EmptyString)).

Definition shown (name : string) (m : Machine) (i : Z) (ending out : string) : outcome string :=
  v ← reg m i; Ret (out +:+ tab +:+ name +:+ ":" +:+ tab +:+ "0x" +:+ fmt_x v +:+ ending).

Definition DumpState (m : Machine) : outcome string :=
  out ← for_range (DumpState_reg m) 0 (Z.to_nat NumGPRegs) ("Machine registers:" +:+ newline);
  out ← shown "Hi" m HiReg EmptyString out;
  out ← shown "Lo" m LoReg newline out;
  out ← shown "PC" m PCReg EmptyString out;
  out ← shown "NextPC" m NextPCReg EmptyString out;
  out ← shown "PrevPC" m PrevPCReg newline out;
  out ← shown "Load" m LoadReg EmptyString out;
  out ← shown "LoadV" m LoadValueReg newline out;
  Ret (out +:+ newline).

(** *** machine/interrupt.cc *)
Definition intLevelNames (l : Interrupt.Interrupt.IntStatus) : string :=
  match l with Interrupt.Interrupt.IntOff => "off" | Interrupt.Interrupt.IntOn => "on" end.
Definition intTypeNames (t : Interrupt.Interrupt.IntType) : string :=
  match t with
  | Interrupt.Interrupt.TimerInt => "timer" | Interrupt.Interrupt.DiskInt => "disk"
  | Interrupt.Interrupt.ConsoleWriteInt => "console write" | Interrupt.Interrupt.ConsoleReadInt => "console read"
  | Interrupt.Interrupt.NetworkSendInt => "network send" | Interrupt.Interrupt.NetworkRecvInt => "network recv"
  end.

Definition PrintPending (pend : Interrupt.Interrupt.IntType * Z) : string :=
  "Interrupt handler " +:+ intTypeNames pend.1 +:+ ", scheduled at " +:+ pretty pend.2 +:+ newline.

(** The text of [Interrupt.DumpState]. *)
Definition Interrupt_DumpState (state : Z * Interrupt.Interrupt.IntStatus * list (Interrupt.Interrupt.IntType * Z)) : string :=
  let '(totalTicks, level, pending) := state in
  "Time: " +:+ pretty totalTicks +:+ ", interrupts " +:+ intLevelNames level +:+ newline +:+
  "Pending interrupts:" +:+ newline +:+ foldr (λ p out, PrintPending p +:+ out) EmptyString pending +:+
  "End of pending interrupts" +:+ newline.

(** *** network/post.cc *)
Definition PrintHeader (pktHdr : Network.Network.PacketHeader) (mailHdr : Post.Post.MailHeader) : string :=
  "From (" +:+ pretty (Network.Network.from pktHdr) +:+ ", " +:+ pretty (Post.Post.mfrom mailHdr) +:+ ") to (" +:+
  pretty (Network.Network.to pktHdr) +:+ ", " +:+ pretty (Post.Post.mto mailHdr) +:+ ") bytes " +:+
  pretty (Post.Post.mlength mailHdr) +:+ newline.

(** *** code/bin/execute.c *)
Definition dump_reg_line (Reg : list Z) (first : Z) (out : string) : outcome string :=
  out ← for_range (λ j (out : string), v ← Prelude.rd Reg j; Ret (out +:+ " " +:+ Disasm.Disasm.fmt_08x v)) first 8 out; Ret (out +:+ newline).

Definition dump_reg (Reg : list Z) : outcome string :=
  out ← dump_reg_line Reg 0 " 0:";
  out ← dump_reg_line Reg 8 (out +:+ " 8:");
  out ← dump_reg_line Reg 16 (out +:+ "16:");
  dump_reg_line Reg 24 (out +:+ "24:").

(** *** threads/utility.cc: [DEBUG], with the text that [vfprintf] makes of its arguments *)
Definition DEBUG (enableFlags : option string) (flag : ascii) (text : string) : string :=
  if Startup.Startup.DebugIsEnabled enableFlags flag then text else EmptyString.

(** *** threads/system.cc: [Cleanup]

    The objects in the order in which they are deleted; the timer is a NULL pointer when it was not made. *)
Definition Cleanup (b : Startup.Startup.Build) (f : Startup.Startup.Flags) : list Startup.Startup.object :=
  (if Startup.Startup.NETWORK b
   then [Startup.Startup.PostOffice (Startup.Startup.netname f) (Startup.Startup.rely f) 10] else []) ++
  (if Startup.Startup.USER_PROGRAM b
   then [Startup.Startup.Machine (Startup.Startup.debugUserProg f); Startup.Startup.MemoryManager] else []) ++
  (if Startup.Startup.FILESYS_NEEDED b then [Startup.Startup.FileSystem (Startup.Startup.format f)] else []) ++
  (if Startup.Startup.FILESYS b then [Startup.Startup.SynchDisk] else []) ++
  match Startup.Startup.seed f with Some _ => [Startup.Startup.Timer] | None => [] end ++
  [Startup.Startup.Scheduler; Startup.Startup.Interrupt].

(** [Interrupt::Halt]: what is printed, with the text of [Statistics::Print], what is deleted, and the status of the process. *)
Definition Halt (statistics : string) (b : Startup.Startup.Build) (f : Startup.Startup.Flags) :
    string * list Startup.Startup.object * Z :=
  ("Machine halting!" +:+ newline +:+ newline +:+ statistics +:+ newline +:+ "Cleaning up..." +:+ newline, Cleanup b f, 0).

(** *** What holds of them *)

(** The check passes exactly on a host of the byte order the Makefile names. *)
Lemma CheckEndian_passes flag big_endian : CheckEndian flag big_endian = Ret () ↔ big_endian = flag.
Proof. by destruct flag, big_endian. Qed.

Lemma for_range_total {A} (f : Z → A → outcome A) first n a :
  (∀ i a, first ≤ i < first + Z.of_nat n → ∃ a', f i a = Ret a') → ∃ a', for_range f first n a = Ret a'.
Proof.
  intros Hf. destruct (for_range_inv f (λ _ _, True) first n a) as (a' & E & _); [|done|by exists a'].
  intros i a0 Hi _. destruct (Hf i a0) as [a' E]; [lia|]. by exists a'.
Qed.

(** The registers of any machine can be printed. *)
Lemma DumpState_prints m : regs_wf m → ∃ out, DumpState m = Ret out.
Proof.
  intros Hw. unfold DumpState.
  destruct (for_range_total (DumpState_reg m) 0 (Z.to_nat NumGPRegs) ("Machine registers:" +:+ newline)) as [out E].
  { intros i a Hi. unfold DumpState_reg. rewrite R_ok by (done || regs). by eexists. }
  rewrite E. cbn [mbind outcome_bind]. unfold shown. rewrite !R_ok by (done || regs). cbn [mbind outcome_bind]. by eexists.
Qed.

Lemma dump_reg_prints Reg : length Reg = 32%nat → ∃ out, dump_reg Reg = Ret out.
Proof.
  intros Hl. unfold dump_reg.
  assert (∀ first out, 0 ≤ first ≤ 24 → ∃ out', dump_reg_line Reg first out = Ret out') as Hline.
  { intros first out Hf. unfold dump_reg_line.
    destruct (for_range_total (λ j out, v ← Prelude.rd Reg j; Ret (out +:+ " " +:+ Disasm.Disasm.fmt_08x v)) first 8 out) as [out' E].
    - intros i a Hi. destruct (rd_in_range Reg i) as [v Hv]; [lia|]. rewrite Hv. by eexists.
    - rewrite E. by eexists. }
  destruct (Hline 0 " 0:") as [o1 E1]; [lia|]. rewrite E1. cbn [mbind outcome_bind].
  destruct (Hline 8 (o1 +:+ " 8:")) as [o2 E2]; [lia|]. rewrite E2. cbn [mbind outcome_bind].
  destruct (Hline 16 (o2 +:+ "16:")) as [o3 E3]; [lia|]. rewrite E3. cbn [mbind outcome_bind].
  apply Hline. lia.
Qed.

Lemma elem_of_if {A} (c : bool) (l : list A) x : x ∈ (if c then l else []) ↔ c = true ∧ x ∈ l.
Proof. destruct c; rewrite ?elem_of_nil; naive_solver. Qed.

(** [Cleanup] deletes what [Initialize] made, except the statistics, the main thread and the table of threads, and nothing
    else. *)
Lemma Cleanup_deletes b f o :
  o ∈ Cleanup b f ↔ o ∈ Startup.Startup.objects b f ∧
    match o with
    | Startup.Startup.Debug _ | Startup.Startup.Statistics | Startup.Startup.MainThread | Startup.Startup.EnableInterrupts
    | Startup.Startup.CallOnUserAbort | Startup.Startup.ThreadList => False
    | _ => True
    end.
Proof.
  unfold Cleanup, Startup.Startup.objects. rewrite !elem_of_app, !elem_of_if.
  destruct o, (Startup.Startup.seed f); rewrite ?elem_of_cons, ?elem_of_nil; intuition congruence.
Qed.

End Diagnostics.
