(* ===== verification/ToolMain.v ===== *)
(** * code/bin/main.c and out.c: the interpreter and the object file printer as programs

    The command line of the interpreter, the loader of [Disasm] and the run of [Execute], composed as [main] composes them.  The
    compiler's library for object files is a parameter, and so are the calls of UNIX.  [main_runs] says which program is run with which arguments.
    [OutMain] is the program of out.c around the printing of sections in [Disasm]. *)

From S2P Require Import Prelude CInt Mips Execute Disasm Startup.
From stdpp Require Import strings.
From Stdlib Require Import Ascii Bool.

Open Scope Z_scope.

Module ToolMain.

(** The traces that are printed, and the cache, which is only described. *)
Record Options := mkOptions {
  TRACE : bool; Traptrace : bool; Regtrace : bool; NROWS : Z; ASSOC : Z; LINESIZE : Z; RAND : bool; LRD : bool }.
Definition options0 : Options := mkOptions false false false 64 1 4 false false.

Definition set_TRACE (o : Options) : Options := mkOptions true (Traptrace o) (Regtrace o) (NROWS o) (ASSOC o) (LINESIZE o) (RAND o) (LRD o).
Definition set_Traptrace (o : Options) : Options := mkOptions (TRACE o) true (Regtrace o) (NROWS o) (ASSOC o) (LINESIZE o) (RAND o) (LRD o).
Definition set_Regtrace (o : Options) : Options := mkOptions (TRACE o) (Traptrace o) true (NROWS o) (ASSOC o) (LINESIZE o) (RAND o) (LRD o).
Definition set_cache (rows assoc line : Z) (policy : string) (o : Options) : Options :=
  mkOptions (TRACE o) (Traptrace o) (Regtrace o) rows assoc line
    (bool_decide (String.get 0 policy = Some "r"%char)) (String.prefix "lrd" policy).

(** [*++argv]: the argument after the current one, which becomes the current one; behind the last one is NULL, and it is read. *)
Definition next_arg (argv : list string) : outcome (string * list string) :=
  match argv with _ :: (a :: _) as rest => Ret (a, drop 1 argv) | _ => Undefined end.

(** One letter of an option. *)
Definition letter_step (c : ascii) (s : Z * list string * Options) : outcome (Z * list string * Options) :=
  let '(argc, argv, o) := s in
  if Ascii.eqb c "t" then Ret (argc, argv, set_TRACE o)
  else if Ascii.eqb c "T" then Ret (argc, argv, set_Traptrace o)
  else if Ascii.eqb c "r" then Ret (argc, argv, set_Regtrace o)
  else if Ascii.eqb c "m" then
    '(a, argv) ← next_arg argv; rows ← Startup.Startup.atoi a;
    '(a, argv) ← next_arg argv; assoc ← Startup.Startup.atoi a;
    '(a, argv) ← next_arg argv; line ← Startup.Startup.atoi a;
    '(policy, argv) ← next_arg argv;
    Ret (argc - 4, argv, set_cache rows assoc line policy o)
  else Ret s.

Fixpoint letters (l : string) (s : Z * list string * Options) : outcome (Z * list string * Options) :=
  match l with
  | EmptyString => Ret s
  | String c l => s ← letter_step c s; letters l s
  end.

(** [while (argc > 1 && argv[1][0] == '-')]: the list begins with [argv[0]].  Every round takes an argument. *)
Fixpoint option_loop (fuel : nat) (s : Z * list string * Options) : outcome (Z * list string * Options) :=
  let '(argc, argv, o) := s in
  match fuel with
  | O => OutOfFuel
  | S fuel =>
      match argv with
      | _ :: (String "-" l) as rest :: _ =>
          if 1 <? argc then s ← letters l (argc - 1, drop 1 argv, o); option_loop fuel s else Ret s
      | _ => Ret s
      end
  end.

(** The characters of an argument. *)
Fixpoint bytes (s : string) : list Z :=
  match s with EmptyString => [] | String c s => Z.of_nat (nat_of_ascii c) :: bytes s end.

Inductive ended := Ran (o : Options) (r : Execute.result) | Exited (status : Z).

(** [load_program] of main.c is that of disasm.c with the other loader. *)
Definition load_program : option Disasm.LDFILE → outcome Disasm.loaded := Disasm.load_program Disasm.LOADSECTION.

Section main.
Variable host : Z → Z → Z → Z → gmap Z Z → outcome (gmap Z Z * Z).
(** [fopen] and [ldopen] on a name. *)
Variable ldopen : string → option Disasm.LDFILE.
Variable exists_ : string → bool.

(** [argc] arguments from [argv], and then the program is run with those after the options. *)
Definition main (fuel : nat) (args : list string) : outcome ended :=
  self ← match args with a :: _ => Ret a | [] => Undefined end;
  _ ← defined_if (String.length self <? 256)%nat;
  '(argc, argv, o) ← option_loop (S (length args)) (Z.of_nat (length args), args, options0);
  filename ← (if 2 <=? argc then
                match argv with
                | _ :: f :: _ => _ ← defined_if (String.length f <? 1000)%nat; Ret f
                | _ => Undefined
                end
              else Ret "a.out");
  if negb (exists_ filename) then Ret (Exited 0)
  else
    r ← load_program (ldopen filename);
    match r with
    | Disasm.Exits n => Ret (Exited n)
    | Disasm.Loaded mem =>
        let '(argc, argv) :=
          match argv with _ :: _ :: _ => (argc, argv) | _ => (argc + 1, [EmptyString; "a.out"%string]) end in
        r ← Execute.runprogram host fuel Execute.memoffset (bytes <$> take (Z.to_nat (argc - 1)) (drop 1 argv))
              (Execute.mkCpu (replicate 32 0) 0 0 mem 0 0);
        Ret (Ran o r)
    end.

(** *** What the command line means *)
Inductive option_ := Letters (l : string) | Cache (rows assoc line policy : string).

Definition words (x : option_) : list string :=
  match x with Letters l => [String "-" l] | Cache a b c p => ["-m"; a; b; c; p] end.

Fixpoint no_m (l : string) : bool :=
  match l with EmptyString => true | String c l => negb (Ascii.eqb c "m") && no_m l end.

Definition accepted (x : option_) : Prop :=
  match x with
  | Letters l => no_m l = true
  | Cache a b c _ => ∀ s, s ∈ [a; b; c] → Startup.Startup.atoi s = Ret (Startup.Startup.atoi_value s)
  end.

Definition letter_effect (c : ascii) (o : Options) : Options :=
  if Ascii.eqb c "t" then set_TRACE o else if Ascii.eqb c "T" then set_Traptrace o
  else if Ascii.eqb c "r" then set_Regtrace o else o.
Fixpoint letters_effect (l : string) (o : Options) : Options :=
  match l with EmptyString => o | String c l => letters_effect l (letter_effect c o) end.

Definition effect (o : Options) (x : option_) : Options :=
  match x with
  | Letters l => letters_effect l o
  | Cache a b c p => set_cache (Startup.Startup.atoi_value a) (Startup.Startup.atoi_value b) (Startup.Startup.atoi_value c) p o
  end.

Lemma letters_ok l : ∀ argc argv o, no_m l = true → letters l (argc, argv, o) = Ret (argc, argv, letters_effect l o).
Proof.
  induction l as [|c l IH]; intros argc argv o Hl; [done|]. apply andb_true_iff in Hl as [Hc%negb_true_iff Hl].
  cbn [letters letters_effect]. unfold letter_step, letter_effect.
  destruct (Ascii.eqb c "t"); [by apply IH|]. destruct (Ascii.eqb c "T"); [by apply IH|].
  destruct (Ascii.eqb c "r"); [by apply IH|]. rewrite Hc. by apply IH.
Qed.

(** No option is left. *)
Definition operands (rest : list string) : Prop := ∀ l rest', rest ≠ String "-" l :: rest'.

Lemma option_loop_ends fuel self rest o :
  operands rest → option_loop (S fuel) (Z.of_nat (length (self :: rest)), self :: rest, o) =
    Ret (Z.of_nat (length (self :: rest)), self :: rest, o).
Proof.
  intros Hr. destruct rest as [|[|c l] rest]; [reflexivity..|]. cbn [option_loop].
  destruct c as [[] [] [] [] [] [] [] []]; try done. by destruct (Hr l rest).
Qed.

Lemma option_loop_words xs : ∀ fuel self rest o, Forall accepted xs → operands rest → (length xs ≤ fuel)%nat →
  ∃ self', option_loop (S fuel) (Z.of_nat (length (self :: (xs ≫= words) ++ rest)), self :: (xs ≫= words) ++ rest, o) =
    Ret (Z.of_nat (length (self' :: rest)), self' :: rest, foldl effect o xs).
Proof.
  induction xs as [|x xs IH]; intros fuel self rest o Hxs Hr Hf.
  { exists self. by apply option_loop_ends. }
  apply Forall_cons in Hxs as [Hx Hxs]. cbn in Hf. destruct fuel as [|fuel]; [lia|]. rewrite bind_cons, <- app_assoc.
  cbn [foldl]. destruct x as [l|a b c p]; cbn [words app].
  - destruct (IH fuel (String "-" l) rest (effect o (Letters l)) Hxs Hr ltac:(lia)) as [self' E]. exists self'. rewrite <- E.
    cbn [option_loop]. rewrite ltb_true by (cbn [length]; lia). rewrite letters_ok by done. cbn [mbind outcome_bind drop].
    replace (Z.of_nat (length (self :: String "-" l :: (xs ≫= words) ++ rest)) - 1)
      with (Z.of_nat (length (String "-" l :: (xs ≫= words) ++ rest))) by (cbn [length]; lia). done.
  - destruct (IH fuel p rest (effect o (Cache a b c p)) Hxs Hr ltac:(lia)) as [self' E]. exists self'. rewrite <- E.
    cbn [option_loop]. rewrite ltb_true by (cbn [length]; lia). cbn [letters]. unfold letter_step.
    change (Ascii.eqb "m" "t") with false. change (Ascii.eqb "m" "T") with false. change (Ascii.eqb "m" "r") with false.
    change (Ascii.eqb "m" "m") with true. cbn iota. cbn [next_arg drop mbind outcome_bind].
    cbn in Hx. rewrite !Hx by set_solver. cbn [next_arg drop mbind outcome_bind].
    replace (Z.of_nat (length (self :: "-m" :: a :: b :: c :: p :: (xs ≫= words) ++ rest)) - 1 - 4)
      with (Z.of_nat (length (p :: (xs ≫= words) ++ rest))) by (cbn [length]; lia). done.
Qed.

(** The program is run on the file behind the options, or on a.out, with that name and the rest as its arguments. *)
Lemma main_runs fuel self xs rest mem :
  (String.length self < 256)%nat → Forall accepted xs → operands rest →
  let argv := match rest with [] => ["a.out"] | _ => rest end in
  let filename := default "a.out" (head rest) in
  (String.length filename < 1000)%nat → exists_ filename = true →
  load_program (ldopen filename) = Ret (Disasm.Loaded mem) →
  main fuel (self :: (xs ≫= words) ++ rest) =
    (r ← Execute.runprogram host fuel Execute.memoffset (bytes <$> argv) (Execute.mkCpu (replicate 32 0) 0 0 mem 0 0);
     Ret (Ran (foldl effect options0 xs) r)).
Proof.
  intros Hself Hxs Hr argv filename Hname Hex Hload. unfold main. cbn [mbind outcome_bind].
  rewrite (proj2 (Nat.ltb_lt _ _)) by done. cbn [defined_if mbind outcome_bind].
  assert (length xs ≤ length (self :: (xs ≫= words) ++ rest))%nat as Hf.
  { cbn. rewrite length_app. clear. induction xs as [|[] xs IH]; cbn in *; lia. }
  destruct (option_loop_words xs (length (self :: (xs ≫= words) ++ rest)) self rest options0 Hxs Hr Hf) as [self' ->].
  cbn [mbind outcome_bind]. destruct rest as [|f rest].
  - cbn [length Z.of_nat Z.leb Z.compare]. change (2 <=? Z.of_nat 1) with false. cbn iota. cbn [mbind outcome_bind].
    subst filename argv. cbn [default head from_option id] in Hex, Hload. rewrite Hex, Hload. done.
  - subst filename argv. cbn [default head from_option id] in Hname, Hex, Hload. rewrite (proj2 (Z.leb_le 2 _)) by (cbn [length]; lia).
    rewrite (proj2 (Nat.ltb_lt _ _)) by done. cbn [defined_if mbind outcome_bind].
    rewrite Hex, Hload. cbn [negb mbind outcome_bind drop].
    replace (Z.to_nat (Z.of_nat (length (self' :: f :: rest)) - 1)) with (length (f :: rest)) by (cbn [length]; lia).
    by rewrite take_ge by done.
Qed.
End main.
End ToolMain.

(** *** code/bin/out.c: the program that prints an object file

    The structures of the file are those of the compiler's headers; what they give when the file is read is a parameter. *)
Module OutMain.
Import Disasm.Disasm.

Definition MIPSELMAGIC : Z := 0x162.
Definition MAXSCNS : Z := 10.
Definition MAXDATA : Z := 10000.
Definition MAXRELOCS : Z := 1000.
Definition MAXSSPACE : Z := 20000.

(** An external symbol with its name, a section with the words and relocations that are read for it, and the whole file:
    [headers] says whether its two headers could be read, [first_string] is what the space of the strings begins with. *)
Record Symbol := mkSymbol { value : Z; st : Z; sc : Z; name : string }.
Record Section_ := mkSection { scn_name : string; scnhdr : SCNHDR; s_nreloc : Z; words_ : list Z; relocs_ : list reloc }.
Record Coff := mkCoff { headers : bool; f_magic : Z; sections : list Section_; iextMax : Z; issExtMax : Z; symbols : list Symbol;
  first_string : string }.

Definition symbol_type : list string :=
  ["Nil"; "Global"; "Static"; "Param"; "Local"; "Label"; "Proc"; "Block"; "End"; "Member"; "Type"; "File"; "Register"; "Forward";
   "StaticProc"; "Constant"].
Definition storage_class : list string :=
  ["Nil"; "Text"; "Data"; "Bss"; "Register"; "Abs"; "Undefined"; "CdbLocal"; "Bits"; "CdbSystem"; "RegImage"; "Info"; "UserStruct";
   "SData"; "SBss"; "RData"; "Var"; "Common"; "SCommon"; "VarRegister"; "Variant"; "SUndefined"; "Init"].
(** The place of 'Undefined' in the table. *)
Definition scUndefined : Z := 6.

(** [printf] of the library writes to the same file and does not count columns; its [main] uses it, the rest of the program
    uses [myprintf]. *)
Definition printf (s : string) (o : Out) : Out := mkOut (column o) (text o +:+ s).

Definition too_big (s : Section_) : bool :=
  ((MAXDATA * 4 <? s_size (scnhdr s)) && negb (s_scnptr (scnhdr s) =? 0)) || (MAXRELOCS <? s_nreloc s).

(** The words and relocations of a section; a section without raw data has neither. *)
Definition section_data (s : Section_) : list Z * list reloc :=
  if negb (s_scnptr (scnhdr s) =? 0)
  then (take (Z.to_nat (s_size (scnhdr s) / 4)) (words_ s), take (Z.to_nat (s_nreloc s)) (relocs_ s)) else ([], []).

(** The symbols that are stored. *)
Definition stored (f : Coff) : list Symbol := take (Z.to_nat (Z.min MAXSYMS (iextMax f))) (symbols f).

(** The table is static: a symbol that was not stored has the first string. *)
Definition symbol_name (f : Coff) (i : Z) : string :=
  match stored f !! Z.to_nat i with Some s => name s | None => first_string f end.

Definition print_symbol (s : Symbol) (o : Out) : outcome Out :=
  o ← (if sc s =? scUndefined then myprintf (tab +:+ " ") o else myprintf (fmt_08x (value s) +:+ " ") o);
  t ← Prelude.rd symbol_type (st s);
  o ← myprintf t o;
  let '(o, _) := mytab 25 o in
  c ← Prelude.rd storage_class (sc s);
  o ← myprintf c o;
  let '(o, _) := mytab 41 o in
  myprintf (name s +:+ newline) o.

Fixpoint print_all {A} (print : A → Out → outcome Out) (l : list A) (o : Out) : outcome Out :=
  match l with [] => Ret o | x :: l => o ← print x o; print_all print l o end.

(** The status of the program and what it has printed; [None] is a file that cannot be opened. *)
Definition out_main (filename : string) (file : option Coff) : outcome (Z * Out) :=
  let o := mkOut 1 EmptyString in
  match file with
  | None => Ret (1, printf ("out: could not open " +:+ filename +:+ newline) o)
  | Some f =>
      if negb (headers f) || negb (f_magic f =? MIPSELMAGIC) then
        Ret (1, printf ("out: " +:+ filename +:+ " is not a MIPS Little-Endian COFF object file" +:+ newline) o)
      else if MAXSCNS <? Z.of_nat (length (sections f)) then Ret (1, printf ("out: Too many COFF sections." +:+ newline) o)
      else match find too_big (sections f) with
      | Some s => Ret (1, printf ("section " +:+ scn_name s +:+ " is too big." +:+ newline) o)
      | None =>
          let o := if MAXSYMS <? iextMax f then printf ("too many symbols to store." +:+ newline) o else o in
          if MAXSSPACE <? issExtMax f then Ret (1, printf ("too large a string space." +:+ newline) o)
          else
            o ← print_all (λ s, print_section (symbol_name f) (scn_name s) (scnhdr s) (section_data s).1 (section_data s).2)
                  (sections f) o;
            let o := printf ("External Symbols:" +:+ newline +:+ "Value" +:+ tab +:+ " Type" +:+ tab +:+ tab +:+ "Storage Class" +:+
                       tab +:+ "Name" +:+ newline) o in
            o ← print_all print_symbol (stored f) o;
            Ret (0, o)
      end
  end.

Lemma length_append (a b : string) : String.length (a +:+ b) = (String.length a + String.length b)%nat.
Proof. induction a as [|c a IH]; [done|]. exact (f_equal S IH). Qed.

Lemma hex_digits_length n : ∀ z, (String.length (hex_digits n z) ≤ n)%nat.
Proof.
  induction n as [|n IH]; intros z; [done|]. cbn [hex_digits]. rewrite length_append. specialize (IH (z / 16)).
  enough (String.length (hex_digit (z mod 16)) ≤ 1)%nat by lia. unfold hex_digit.
  destruct (_ !! Z.to_nat (z mod 16)) as [d|] eqn:E; [|cbn; lia]. apply list_elem_of_lookup_2 in E. set_unfold in E.
  repeat destruct E as [->|E]; done || (cbn; lia).
Qed.

Lemma myprintf_prints t o : (String.length t < 100)%nat → myprintf t o = Ret (emit t o).
Proof. intros Ht. unfold myprintf. by rewrite ltb_true by lia. Qed.

(** A symbol is printed when its type and class are in the tables and its name is short. *)
Lemma print_symbol_prints s o :
  0 ≤ st s < 16 → 0 ≤ sc s < 23 → (String.length (name s +:+ newline) < 100)%nat → ∃ o', print_symbol s o = Ret o'.
Proof.
  intros Ht Hc Hn. unfold print_symbol.
  destruct (rd_in_range symbol_type (st s)) as [t Et]; [cbn; lia|]. destruct (rd_in_range storage_class (sc s)) as [c Ec]; [cbn; lia|].
  rewrite Et, Ec. apply rd_Ret in Et as [_ Et]. apply rd_Ret in Ec as [_ Ec].
  assert (Forall (λ t, String.length t < 100)%nat symbol_type) as HT by (unfold symbol_type; repeat constructor; cbn; lia).
  assert (Forall (λ t, String.length t < 100)%nat storage_class) as HC by (unfold storage_class; repeat constructor; cbn; lia).
  eapply Forall_lookup_1 in HT; [|exact Et]. eapply Forall_lookup_1 in HC; [|exact Ec].
  assert (String.length (fmt_08x (value s) +:+ " ") < 100)%nat as HV.
  { rewrite length_append. change (String.length " ") with 1%nat. unfold fmt_08x.
    apply (Nat.le_lt_trans _ (8 + 1)); [|lia]. apply Nat.add_le_mono_r, hex_digits_length. }
  destruct (sc s =? scUndefined); rewrite myprintf_prints by (exact HV || (apply Nat.ltb_lt; reflexivity)); cbn [mbind outcome_bind];
    rewrite myprintf_prints by done; cbn [mbind outcome_bind]; destruct (mytab 25 _) as [o1 b1];
    rewrite myprintf_prints by done; cbn [mbind outcome_bind]; destruct (mytab 41 _) as [o2 b2];
    rewrite myprintf_prints by done; by eexists.
Qed.
End OutMain.
