(* ===== verification/UserProgs.v ===== *)
(** * code/test: the user programs

    The C programs of the test directory, with their global arrays as lists: [Sort], the programs that fill an array and check it
    ([Arrays]), [Matmult], and the two that talk to the console ([Console_programs], under the kernel that userprog/syscall.h
    describes and under the handler of userprog/exception.cc); [Callers] are the four that only call the kernel.  A program ends with the status of its [Exit].  Integers are ints that wrap around. *)

From S2P Require Import Prelude CInt.
From stdpp Require Import strings.
From Stdlib Require Import Bool.

Open Scope Z_scope.

(** *** sort.c *)
Module Sort.

(** One round of the inner loop. *)
Definition exchange (i j : Z) (A : list Z) : outcome (list Z) :=
  ai ← rd A i;
  aj ← rd A j;
  if ai <? aj then (tmp ← rd A j; A ← wr A j ai; wr A i tmp) else Ret A.
Definition sort_array (n : nat) (A : list Z) : outcome (list Z) :=
  for_range (λ i A, for_range (exchange i) 0 (Z.to_nat i) A) 0 n A.
Definition fill (n : nat) (A : list Z) : outcome (list Z) :=
  for_range (λ i A, wr A i (Z.of_nat n - 1 - i)) 0 n A.

(** [A] is a global array: it is all zeros at the start. *)
Definition sort_main : outcome Z := A ← fill 1024 (replicate 1024 0); A ← sort_array 1024 A; rd A 0.

(** *** The array is sorted *)
Definition at_ (A : list Z) (p : nat) : Z := default 0 (A !! p).
Definition sorted_upto (n : nat) (A : list Z) : Prop := ∀ p q : nat, (p < q < n)%nat → at_ A p ≤ at_ A q.

Lemma rd_at A (p : nat) : (p < length A)%nat → rd A (Z.of_nat p) = Ret (at_ A p).
Proof.
  intros Hp. destruct (lookup_lt_is_Some_2 A p Hp) as [x Hx]. rewrite (rd_lookup A _ x); [by unfold at_; rewrite Hx|lia|].
  by rewrite Nat2Z.id.
Qed.
Lemma wr_at (A : list Z) (p : nat) (x : Z) : (p < length A)%nat → wr A (Z.of_nat p) x = Ret (<[p := x]> A).
Proof. intros Hp. rewrite wr_ok by lia. by rewrite Nat2Z.id. Qed.
Lemma at_insert (A : list Z) (p q : nat) (x : Z) : (p < length A)%nat → at_ (<[p := x]> A) q = if decide (p = q) then x else at_ A q.
Proof.
  intros Hp. unfold at_. destruct (decide (p = q)) as [->|Hne]; [by rewrite list_lookup_insert_eq|by rewrite list_lookup_insert_ne].
Qed.

(** Two entries changed places. *)
Definition swap (p q : nat) (A : list Z) : list Z := <[p := at_ A q]> (<[q := at_ A p]> A).

Lemma swap_length p q A : length (swap p q A) = length A.
Proof. unfold swap. by rewrite !length_insert. Qed.
Lemma at_swap p q A r : (p < length A)%nat → (q < length A)%nat →
  at_ (swap p q A) r = if decide (r = p) then at_ A q else if decide (r = q) then at_ A p else at_ A r.
Proof.
  intros Hp Hq. unfold swap. rewrite at_insert by (by rewrite length_insert). rewrite at_insert by done.
  repeat case_decide; congruence.
Qed.

Lemma swap_Permutation p q A : (p < length A)%nat → (q < length A)%nat → swap p q A ≡ₚ A.
Proof.
  intros Hp Hq. apply Permutation_inj. split; [apply swap_length|].
  exists (λ r, if decide (r = p) then q else if decide (r = q) then p else r). split.
  - intros a b. repeat case_decide; congruence.
  - intros r. assert (∀ s, (s < length A)%nat → A !! s = Some (at_ A s)) as Hs.
    { intros s Hs. unfold at_. by destruct (lookup_lt_is_Some_2 A s Hs) as [x ->]. }
    destruct (decide (r < length A)%nat) as [Hr|Hr].
    + assert (swap p q A !! r = Some (at_ (swap p q A) r)) as ->.
      { unfold at_. by destruct (lookup_lt_is_Some_2 (swap p q A) r) as [x ->]; [rewrite swap_length|]. }
      rewrite at_swap by done. repeat case_decide; by rewrite Hs.
    + rewrite (lookup_ge_None_2 (swap p q A)) by (rewrite swap_length; lia). repeat case_decide; try lia.
      by rewrite lookup_ge_None_2 by lia.
Qed.

(** Between two rounds of the inner loop: the entries before [i] are sorted, those before [j] are at most the entry [i]. *)
Record inserting (A0 : list Z) (i j : nat) (A : list Z) : Prop := {
  in_perm : A ≡ₚ A0;
  in_sorted : sorted_upto i A;
  in_below p : (p < j)%nat → at_ A p ≤ at_ A i }.

Lemma exchange_inserting A0 i j A : (i < length A0)%nat → (j < i)%nat → inserting A0 i j A →
  ∃ A', exchange (Z.of_nat i) (Z.of_nat j) A = Ret A' ∧ inserting A0 i (S j) A'.
Proof.
  intros Hi Hj [Hp Hs Hb]. assert (length A = length A0) as Hl by by apply Permutation_length.
  unfold exchange. rewrite !rd_at by lia. cbn [mbind outcome_bind].
  destruct (Z.ltb_spec (at_ A i) (at_ A j)) as [Hlt|Hge].
  - rewrite wr_at by lia. cbn [mbind outcome_bind]. rewrite wr_at by (rewrite length_insert; lia).
    exists (swap i j A). split; [done|]. split.
    + rewrite swap_Permutation by lia. done.
    + intros p q Hpq. rewrite !at_swap by lia. repeat case_decide; try lia; subst.
      * pose proof (Hs j q ltac:(lia)). lia.
      * apply Hb. lia.
      * by apply Hs.
    + intros p Hpj. rewrite !at_swap by lia. repeat case_decide; try lia; subst.
      pose proof (Hb p ltac:(lia)). lia.
  - exists A. split; [done|]. split; try done. intros p Hpj. destruct (decide (p = j)) as [->|]; [done|]. apply Hb. lia.
Qed.

Lemma sort_array_sorts A : ∃ A', sort_array (length A) A = Ret A' ∧ A' ≡ₚ A ∧ sorted_upto (length A) A'.
Proof.
  unfold sort_array.
  destruct (for_range_inv (λ i A, for_range (exchange i) 0 (Z.to_nat i) A)
    (λ i A', ∃ n : nat, i = Z.of_nat n ∧ A' ≡ₚ A ∧ sorted_upto n A') 0 (length A) A) as (A' & E & n & En & Hp & Hs).
  - intros i A1 Hi (n & -> & Hp & Hs). rewrite Nat2Z.id.
    destruct (for_range_inv (exchange (Z.of_nat n)) (λ j A2, ∃ p : nat, j = Z.of_nat p ∧ inserting A n p A2) 0 n A1)
      as (A2 & E & p & Ep & [Hp2 Hs2 Hb2]).
    + intros j A2 Hj (p & -> & Hin). destruct (exchange_inserting A n p A2) as (A3 & E & Hin'); [lia|lia|done|].
      exists A3. split; [done|]. exists (S p). split; [lia|done].
    + exists O. split; [done|]. split; [done..|]. intros p Hp'. lia.
    + exists A2. split; [done|]. exists (S n). split; [lia|]. split; [done|]. assert (p = n) as -> by lia.
      intros a b Hab. destruct (decide (b = n)) as [->|]; [apply Hb2; lia|apply Hs2; lia].
  - exists O. split; [done|]. split; [done|]. intros p q. lia.
  - exists A'. assert (n = length A) as -> by lia. done.
Qed.

Lemma fill_ok n A : length A = n → fill n A = Ret ((λ i, Z.of_nat n - 1 - i) <$> seqZ 0 (Z.of_nat n)).
Proof.
  intros Hl. unfold fill.
  destruct (for_range_inv (λ i A, wr A i (Z.of_nat n - 1 - i))
    (λ i A', length A' = n ∧ 0 ≤ i ∧ ∀ p : nat, Z.of_nat p < i → A' !! p = Some (Z.of_nat n - 1 - Z.of_nat p)) 0 n A)
    as (A' & E & Hl' & _ & Hv).
  - intros i A1 Hi (Hl1 & H0 & Hv). rewrite wr_ok by lia. eexists. split; [done|]. split; [by rewrite length_insert|].
    split; [lia|]. intros p Hp. destruct (decide (Z.to_nat i = p)) as [<-|Hne].
    + rewrite list_lookup_insert_eq by lia. f_equal. lia.
    + rewrite list_lookup_insert_ne by done. apply Hv. lia.
  - split; [done|]. split; [done|]. lia.
  - rewrite E. f_equal. apply list_eq. intros p. rewrite list_lookup_fmap.
    destruct (decide (p < n)%nat) as [Hp|Hp].
    + rewrite Hv by lia. rewrite (proj2 (lookup_seqZ 0 (Z.of_nat n) p (Z.of_nat p))) by lia. done.
    + rewrite !lookup_ge_None_2 by (rewrite ?length_seqZ; lia). done.
Qed.

Lemma program_at n : (0 < n)%nat →
  (A ← fill n (replicate n 0); A ← sort_array n A; rd A 0) = Ret 0.
Proof.
  intros Hn. rewrite fill_ok by (by rewrite length_replicate). cbn [mbind outcome_bind].
  set (B := _ <$> seqZ 0 _). assert (length B = n) as Hl by (unfold B; rewrite length_fmap, length_seqZ; lia).
  destruct (sort_array_sorts B) as (A' & E & Hp & Hs). rewrite Hl in E, Hs. rewrite E. cbn [mbind outcome_bind].
  assert (length A' = n) as Hl' by (by rewrite (Permutation_length Hp)).
  trans (rd A' (Z.of_nat 0)); [done|]. rewrite rd_at by lia. f_equal.
  assert (∀ x, x ∈ A' ↔ 0 ≤ x < Z.of_nat n) as Hel.
  { intros x. rewrite Hp. unfold B. rewrite list_elem_of_fmap. setoid_rewrite elem_of_seqZ. split.
    - intros (y & -> & Hy). lia.
    - intros Hx. exists (Z.of_nat n - 1 - x). lia. }
  destruct A' as [|a A']; [cbn in Hl'; lia|].
  pose proof (proj2 (Hel 0) ltac:(lia)) as [p Hx]%list_elem_of_lookup. pose proof (lookup_lt_Some _ _ _ Hx) as Hlt.
  assert (at_ (a :: A') 0 ∈ a :: A') as [Hin _]%Hel by left.
  assert (at_ (a :: A') p = 0) as Hz by (unfold at_; by rewrite Hx).
  destruct (decide (p = 0%nat)) as [->|]; [done|]. pose proof (Hs 0%nat p ltac:(lia)). lia.
Qed.

(** sort.c ends, and sorts whatever is in its array: the result has the same numbers in order; with the numbers that
    [sort_main] puts into the array, 1023 down to 0, the status of the program is 0, as its comment says. *)
Theorem sort_sorts (A : list Z) :
  (∃ A', sort_array (length A) A = Ret A' ∧ A' ≡ₚ A ∧ ∀ p q : nat, (p < q < length A)%nat → at_ A' p ≤ at_ A' q) ∧ sort_main = Ret 0.
Proof. split; [apply sort_array_sorts|]. apply program_at. lia. Qed.
End Sort.

(** *** array.c, allmem.c, blocality.c, somemem.c, rlocality.c, glocality.c *)
Module Arrays.

(** [Exit] does not come back: [Some status] when the loop has called it. *)
Fixpoint verify_from (A : list Z) (i : Z) (n : nat) : outcome (option Z) :=
  match n with
  | O => Ret None
  | S n' => x ← rd A i; if negb (x =? i) then Ret (Some (-1)) else verify_from A (i + 1) n'
  end.
Definition verify_array (n : nat) (A : list Z) : outcome (option Z) := verify_from A 0 n.
Definition add_array (n : nat) (A : list Z) : outcome Z := for_range (λ i sum, x ← rd A i; Ret (s32 (sum + x))) 0 n 0.

(** The second half of every [main]. *)
Definition check_and_exit (n : nat) (A : list Z) : outcome Z :=
  v ← verify_array n A;
  match v with
  | Some status => Ret status
  | None =>
      sum ← add_array n A;
      v ← verify_array n A;
      match v with Some status => Ret status | None => Ret sum end
  end.

(** array.c: an initialised array. *)
Definition array_main : outcome Z := check_and_exit 48 (seqZ 0 48).

(** allmem.c *)
Definition inc_array (n : nat) (A : list Z) : outcome (list Z) := for_range (λ j A, wr A j j) 0 n A.
Definition allmem_main : outcome Z := A ← inc_array (Z.to_nat 8000) (replicate (Z.to_nat 8000) 0); check_and_exit (Z.to_nat 8000) A.

(** blocality.c *)
Definition blocality_rnd_array (n : nat) (A : list Z) : outcome (list Z) := for_range (λ _ A, for_range (λ j A, wr A j j) 0 n A) 0 10 A.
Definition blocality_main : outcome Z := A ← blocality_rnd_array 200 (replicate 2000 0); check_and_exit 200 A.

(** somemem.c *)
Definition fib_step (j : Z) (A : list Z) : outcome (list Z) :=
  if 2 <? j then (x ← rd A (j - 1); y ← rd A (j - 2); wr A j (s32 (x + y)))
  else if j =? 2 then wr A j 2
  else if j =? 1 then wr A j 1
  else wr A j 0.
Definition fib_array (n : nat) (A : list Z) : outcome (list Z) := for_range fib_step 0 n A.
Definition somemem_main : outcome Z := A ← fib_array 480 (replicate 480 0); check_and_exit 480 A.

(** The random numbers of rlocality.c and glocality.c: the new seed and the number.  No program calls [irand_init]. *)
Definition irand_init : Z := 93186752.
Definition irand (l h seed : Z) : Z * Z :=
  let seed := u32 (1588635695 * (seed mod 2) - 1117695901 * (seed / 2)) in
  (seed, u32 ((seed / 429496) mod u32 (h - l) + u32 l)).
Definition rnd_step (h : Z) (j : Z) (s : Z * list Z) : outcome (Z * list Z) :=
  let r := irand 0 h s.1 in
  A ← wr s.2 j (s32 r.2); Ret (r.1, A).
Definition rnd_array (n : nat) (h : Z) (s : Z * list Z) : outcome (Z * list Z) := for_range (rnd_step h) 0 n s.
Definition rlocality_main : outcome Z := s ← rnd_array 200 200 (0, replicate (Z.to_nat 20000) 0); check_and_exit 200 s.2.
Definition glocality_main : outcome Z := s ← rnd_array 2000 20 (0, replicate (Z.to_nat 20000) 0); check_and_exit 2000 s.2.

(** *** An array with its indices in it passes, and its sum is the status *)
Definition counted (n : nat) (A : list Z) : Prop := ∀ p : nat, (p < n)%nat → A !! p = Some (Z.of_nat p).

Lemma rd_counted n A i : counted n A → 0 ≤ i < Z.of_nat n → rd A i = Ret i.
Proof. intros Hc Hi. apply rd_lookup; [lia|]. rewrite Hc by lia. f_equal. lia. Qed.

Lemma verify_from_counted n A m i : counted n A → 0 ≤ i → i + Z.of_nat m ≤ Z.of_nat n → verify_from A i m = Ret None.
Proof.
  intros Hc. revert i. induction m as [|m IH]; intros i H0 Hm; [done|]. cbn [verify_from].
  rewrite (rd_counted n) by (done || lia). cbn [mbind outcome_bind]. rewrite Z.eqb_refl. cbn [negb]. apply IH; lia.
Qed.

Lemma add_array_counted n A : counted n A → Z.of_nat n ≤ 2 ^ 15 →
  ∃ s, add_array n A = Ret s ∧ 2 * s = Z.of_nat n * (Z.of_nat n - 1).
Proof.
  intros Hc Hn. unfold add_array.
  destruct (for_range_inv (λ i sum, x ← rd A i; Ret (s32 (sum + x))) (λ i sum, 2 * sum = i * (i - 1)) 0 n 0)
    as (s & E & Hs); [|done|exists s; split; [done|lia]].
  intros i sum Hi Hs. rewrite (rd_counted n) by (done || lia). cbn [mbind outcome_bind].
  eexists. split; [done|]. rewrite s32_small; [lia|]. unfold is_s32. nia.
Qed.

Lemma check_counted n A : counted n A → Z.of_nat n ≤ 2 ^ 15 → check_and_exit n A = Ret (Z.of_nat n * (Z.of_nat n - 1) / 2).
Proof.
  intros Hc Hn. unfold check_and_exit, verify_array. rewrite (verify_from_counted n) by (done || lia). cbn [mbind outcome_bind].
  destruct (add_array_counted n A Hc Hn) as (s & -> & Hs). cbn [mbind outcome_bind]. f_equal.
  rewrite <-Hs, Z.mul_comm. symmetry. by apply Z.div_mul.
Qed.

(** An array that has the first wrong number at [k] ends the program with -1. *)
Lemma verify_from_wrong A k m i : (∀ p, i ≤ p < k → rd A p = Ret p) → i ≤ k < i + Z.of_nat m →
  (∃ x, rd A k = Ret x ∧ x ≠ k) → verify_from A i m = Ret (Some (-1)).
Proof.
  intros Hc Hk (x & Hx & Hne). revert i Hc Hk. induction m as [|m IH]; intros i Hc Hk; [lia|]. cbn [verify_from].
  destruct (decide (i = k)) as [->|].
  - rewrite Hx. cbn [mbind outcome_bind]. by rewrite (proj2 (Z.eqb_neq x k) Hne).
  - rewrite Hc by lia. cbn [mbind outcome_bind]. rewrite Z.eqb_refl. cbn [negb]. apply IH; [|lia]. intros p Hp. apply Hc. lia.
Qed.

Lemma check_wrong n A k : (∀ p, 0 ≤ p < k → rd A p = Ret p) → 0 ≤ k < Z.of_nat n →
  (∃ x, rd A k = Ret x ∧ x ≠ k) → check_and_exit n A = Ret (-1).
Proof. intros Hc Hk Hx. unfold check_and_exit, verify_array. by rewrite (verify_from_wrong A k). Qed.

Lemma inc_array_counts n A : (n ≤ length A)%nat → ∃ A', inc_array n A = Ret A' ∧ length A' = length A ∧ counted n A'.
Proof.
  intros Hn. unfold inc_array.
  destruct (for_range_inv (λ j A, wr A j j) (λ i A', length A' = length A ∧ 0 ≤ i ∧ counted (Z.to_nat i) A') 0 n A)
    as (A' & E & Hl & _ & Hc).
  - intros i A1 Hi (Hl & _ & Hc). rewrite wr_ok by lia. eexists. split; [done|]. rewrite length_insert. split; [done|].
    split; [lia|]. intros p Hp. destruct (decide (p = Z.to_nat i)) as [->|Hne].
    + rewrite list_lookup_insert_eq by lia. f_equal. lia.
    + rewrite list_lookup_insert_ne by done. apply Hc. lia.
  - split; [done|]. split; [lia|]. intros p. cbn. lia.
  - exists A'. rewrite Z.add_0_l, Nat2Z.id in Hc. done.
Qed.

(** The seed is never set: every random number is zero. *)
Lemma rnd_array_zero n h N : 0 < h < 2 ^ 32 → (n ≤ N)%nat → rnd_array n h (0, replicate N 0) = Ret (0, replicate N 0).
Proof.
  intros Hh Hn. unfold rnd_array.
  destruct (for_range_inv (rnd_step h) (λ _ s, s = (0, replicate N 0)) 0 n (0, replicate N 0)) as (s & E & ->); [|done..].
  intros i s Hi ->. unfold rnd_step. cbn [fst snd]. rewrite wr_ok by (rewrite length_replicate; lia).
  assert (irand 0 h 0 = (0, 0)) as E.
  { unfold irand. rewrite (Z.sub_0_r h), (u32_small h) by (unfold is_u32; lia).
    assert (u32 (1588635695 * (0 mod 2) - 1117695901 * (0 / 2)) = 0) as -> by done.
    change (0 / 429496) with 0. by rewrite (Z.mod_0_l h) by lia. }
  cbn [fst snd]. rewrite E. cbn [fst snd mbind outcome_bind]. eexists. split; [done|]. f_equal.
  change (s32 0) with 0. apply insert_replicate.
Qed.

Lemma rnd_check n h N : 0 < h < 2 ^ 32 → (1 < n ≤ N)%nat →
  (s ← rnd_array n h (0, replicate N 0); check_and_exit n s.2) = Ret (-1).
Proof.
  intros Hh Hn. rewrite rnd_array_zero by (done || lia). cbn [mbind outcome_bind snd].
  assert (∀ p, 0 ≤ p < Z.of_nat N → rd (replicate N 0) p = Ret 0) as Hz.
  { intros p Hp. apply rd_lookup; [lia|]. apply lookup_replicate_2. lia. }
  apply (check_wrong n _ 1); [|lia|exists 0; split; [apply Hz; lia|done]].
  intros p Hp. assert (p = 0) as -> by lia. apply Hz. lia.
Qed.

(** After the Fibonacci numbers 0, 1, 2, 3 comes 5. *)
Lemma fib_array_front :
  ∃ A, fib_array 480 (replicate 480 0) = Ret A ∧ length A = 480%nat ∧ take 5 A = [0; 1; 2; 3; 5].
Proof.
  unfold fib_array. change 480%nat with (5 + 475)%nat at 1. rewrite for_range_app.
  assert (for_range fib_step 0 5 (replicate 480 0) = Ret ([0; 1; 2; 3; 5] ++ replicate 475 0)) as ->.
  { reflexivity. }
  cbn [mbind outcome_bind].
  destruct (for_range_inv fib_step (λ j A, 5 ≤ j ∧ length A = 480%nat ∧ take 5 A = [0; 1; 2; 3; 5])
    (0 + Z.of_nat 5) 475 ([0; 1; 2; 3; 5] ++ replicate 475 0)) as (A & E & _ & Hl & Ht).
  - intros j A Hj (H5 & Hl & Ht). unfold fib_step. rewrite (proj2 (Z.ltb_lt 2 j)) by lia.
    destruct (lookup_lt_is_Some_2 A (Z.to_nat (j - 1))) as [x Hx]; [lia|].
    destruct (lookup_lt_is_Some_2 A (Z.to_nat (j - 2))) as [y Hy]; [lia|].
    rewrite (rd_lookup A (j - 1) x), (rd_lookup A (j - 2) y) by (done || lia). cbn [mbind outcome_bind].
    rewrite wr_ok by lia. eexists. split; [done|]. rewrite length_insert, take_insert_ge by lia. split; [lia|done].
  - split; [lia|]. split; [|done]. by rewrite length_app, length_replicate.
  - exists A. split; [exact E|by split].
Qed.

Lemma fib_check : somemem_main = Ret (-1).
Proof.
  unfold somemem_main. destruct fib_array_front as (A & -> & Hl & Ht). cbn [mbind outcome_bind].
  assert (∀ p x, [0; 1; 2; 3; 5] !! Z.to_nat p = Some x → 0 ≤ p → rd A p = Ret x) as Hr.
  { intros p x Hp H0. apply rd_lookup; [done|]. rewrite <-Ht in Hp.
    rewrite lookup_take_lt in Hp; [done|]. apply lookup_lt_Some in Hp. rewrite length_take in Hp. lia. }
  apply (check_wrong _ _ 4); [|lia|exists 5; split; [by apply Hr|done]].
  intros p Hp. apply Hr; [|lia]. assert (p = 0 ∨ p = 1 ∨ p = 2 ∨ p = 3) as Hcs by lia. destruct_or! Hcs; by subst p.
Qed.

Lemma allmem_ends n : Z.of_nat n ≤ 2 ^ 15 →
  (A ← inc_array n (replicate n 0); check_and_exit n A) = Ret (Z.of_nat n * (Z.of_nat n - 1) / 2).
Proof.
  intros Hn. destruct (inc_array_counts n (replicate n 0)) as (A & -> & _ & Hc); [by rewrite length_replicate|].
  cbn [mbind outcome_bind]. by apply check_counted.
Qed.

Lemma blocality_ends n N : Z.of_nat n ≤ 2 ^ 15 → (n ≤ N)%nat →
  (A ← blocality_rnd_array n (replicate N 0); check_and_exit n A) = Ret (Z.of_nat n * (Z.of_nat n - 1) / 2).
Proof.
  intros Hn HN. unfold blocality_rnd_array.
  destruct (for_range_inv (λ _ A, for_range (λ j A, wr A j j) 0 n A)
    (λ k A, length A = N ∧ (0 < k → counted n A)) 0 10 (replicate N 0)) as (A & -> & _ & Hc).
  - intros k A _ [Hl _]. destruct (inc_array_counts n A) as (A' & E & Hl' & Hc); [lia|]. exists A'. split; [done|]. split; [lia|done].
  - split; [apply length_replicate|lia].
  - cbn [mbind outcome_bind]. apply check_counted; [|done]. apply Hc. lia.
Qed.

(** The programs that store the index in every entry end with the sum of the numbers; the three that store something else
    ([fib_array], [rnd_array]) fail their own check, which is the same in all of them. *)
Lemma statuses :
  array_main = Ret 1128 ∧ allmem_main = Ret 31996000 ∧ blocality_main = Ret 19900 ∧
  somemem_main = Ret (-1) ∧ rlocality_main = Ret (-1) ∧ glocality_main = Ret (-1).
Proof.
  split_and!.
  - apply (check_counted 48); [|done]. intros p Hp. apply lookup_seqZ. lia.
  - apply (allmem_ends (Z.to_nat 8000)). lia.
  - apply (blocality_ends 200 2000); lia.
  - apply fib_check.
  - apply (rnd_check 200 200 (Z.to_nat 20000)); lia.
  - apply (rnd_check 2000 20 (Z.to_nat 20000)); lia.
Qed.

(** The seed [irand_init] would have set leaves its own first value, and the numbers stay below the bound. *)
Lemma irand_below l h seed : 0 ≤ l < h → h < 2 ^ 31 → l ≤ (irand l h seed).2 < h.
Proof.
  intros Hl Hh. unfold irand. cbn [snd]. rewrite (u32_small (h - l)), (u32_small l) by (unfold is_u32; lia).
  pose proof (Z.mod_pos_bound (u32 (1588635695 * (seed mod 2) - 1117695901 * (seed / 2)) / 429496) (h - l) ltac:(lia)).
  rewrite u32_small; unfold is_u32; lia.
Qed.
End Arrays.

(** *** matmult.c *)
Module Matmult.

(** [M[i][j]], and the assignment to it. *)
Definition rd2 (M : list (list Z)) (i j : Z) : outcome Z := row ← rd M i; rd row j.
Definition wr2 (M : list (list Z)) (i j x : Z) : outcome (list (list Z)) := row ← rd M i; row ← wr row j x; wr M i row.

Record matrices := { A : list (list Z); B : list (list Z); C : list (list Z) }.

Definition init_step (i j : Z) (m : matrices) : outcome matrices :=
  a ← wr2 (A m) i j i;
  b ← wr2 (B m) i j j;
  c ← wr2 (C m) i j 0;
  Ret {| A := a; B := b; C := c |}.
Definition initialize (Dim : nat) (m : matrices) : outcome matrices :=
  for_range (λ i m, for_range (init_step i) 0 Dim m) 0 Dim m.

Definition mult_step (i j k : Z) (m : matrices) : outcome matrices :=
  x ← rd2 (C m) i j;
  a ← rd2 (A m) i k;
  b ← rd2 (B m) k j;
  c ← wr2 (C m) i j (s32 (x + s32 (a * b)));
  Ret {| A := A m; B := B m; C := c |}.
Definition multiply (Dim : nat) (m : matrices) : outcome matrices :=
  for_range (λ i m, for_range (λ j m, for_range (mult_step i j) 0 Dim m) 0 Dim m) 0 Dim m.

Definition zeros (Dim : nat) : list (list Z) := replicate Dim (replicate Dim 0).
Definition matmult_at (Dim : nat) : outcome Z :=
  m ← initialize Dim {| A := zeros Dim; B := zeros Dim; C := zeros Dim |};
  m ← multiply Dim m;
  rd2 (C m) (Z.of_nat Dim - 1) (Z.of_nat Dim - 1).
Definition matmult_main : outcome Z := matmult_at 20.

(** *** A matrix and the function it holds *)
Record holds (d : nat) (M : list (list Z)) (f : Z → Z → Z) : Prop := {
  ho_rows : length M = d;
  ho_row i : 0 ≤ i < Z.of_nat d → ∃ row, rd M i = Ret row ∧ length row = d ∧ ∀ j, 0 ≤ j < Z.of_nat d → rd row j = Ret (f i j) }.

Lemma holds_ext d M f g : (∀ i j, 0 ≤ i < Z.of_nat d → 0 ≤ j < Z.of_nat d → f i j = g i j) → holds d M f → holds d M g.
Proof.
  intros Hfg [Hl Hr]. split; [done|]. intros i Hi. destruct (Hr i Hi) as (row & E & Hrl & Hv).
  exists row. split; [done|]. split; [done|]. intros j Hj. by rewrite <-Hfg, Hv.
Qed.

Lemma holds_rd2 d M f i j : holds d M f → 0 ≤ i < Z.of_nat d → 0 ≤ j < Z.of_nat d → rd2 M i j = Ret (f i j).
Proof. intros [Hl Hr] Hi Hj. destruct (Hr i Hi) as (row & E & Hrl & Hv). unfold rd2. rewrite E. by apply Hv. Qed.

Lemma rd_insert {T} (l : list T) i k x : 0 ≤ i < Z.of_nat (length l) → 0 ≤ k →
  rd (<[Z.to_nat i := x]> l) k = if k =? i then Ret x else rd l k.
Proof.
  intros Hi Hk. unfold rd. rewrite (proj2 (Z.leb_le 0 k) Hk). destruct (Z.eqb_spec k i) as [->|Hne].
  - by rewrite list_lookup_insert_eq by lia.
  - by rewrite list_lookup_insert_ne by lia.
Qed.

Lemma holds_wr2 d M f i j x : holds d M f → 0 ≤ i < Z.of_nat d → 0 ≤ j < Z.of_nat d →
  ∃ M', wr2 M i j x = Ret M' ∧ holds d M' (λ a b, if (a =? i) && (b =? j) then x else f a b).
Proof.
  intros [Hl Hr] Hi Hj. destruct (Hr i Hi) as (row & E & Hrl & Hv). unfold wr2. rewrite E. cbn [mbind outcome_bind].
  rewrite wr_ok by lia. cbn [mbind outcome_bind]. rewrite wr_ok by lia. eexists. split; [done|].
  split; [by rewrite length_insert|]. intros a Ha. rewrite rd_insert by lia. destruct (Z.eqb_spec a i) as [->|Hne].
  - eexists. split; [done|]. split; [by rewrite length_insert|]. intros b Hb. rewrite rd_insert by lia. cbn [andb].
    destruct (b =? j); [done|by apply Hv].
  - destruct (Hr a Ha) as (row' & E' & Hrl' & Hv'). by exists row'.
Qed.

Lemma holds_zeros d : holds d (zeros d) (λ _ _, 0).
Proof.
  unfold zeros. split; [apply length_replicate|]. intros i Hi. exists (replicate d 0). rewrite length_replicate.
  split; [apply rd_lookup; [lia|]; apply lookup_replicate_2; lia|]. split; [done|].
  intros j Hj. apply rd_lookup; [lia|]. apply lookup_replicate_2. lia.
Qed.

(** The entries the two outer loops have been at, before round [i], [j]. *)
Definition before (i j a b : Z) : bool := (a <? i) || ((a =? i) && (b <? j)).

Ltac entries := intros a b ? ?; unfold before;
  repeat match goal with |- context [?x <? ?y] => destruct (Z.ltb_spec x y) | |- context [?x =? ?y] => destruct (Z.eqb_spec x y) end;
  cbn [andb orb]; subst; try lia; try nia.

(** Two nested loops, from entry to entry. *)
Lemma nested_loops {S} (f : Z → Z → S → outcome S) (I : Z → Z → S → Prop) (d : nat) s :
  (∀ i j s, 0 ≤ i < Z.of_nat d → 0 ≤ j < Z.of_nat d → I i j s → ∃ s', f i j s = Ret s' ∧ I i (j + 1) s') →
  (∀ i s, 0 ≤ i → I i (Z.of_nat d) s → I (i + 1) 0 s) →
  I 0 0 s → ∃ s', for_range (λ i s, for_range (f i) 0 d s) 0 d s = Ret s' ∧ I (Z.of_nat d) 0 s'.
Proof.
  intros Hstep Hrow HI.
  destruct (for_range_inv (λ i s, for_range (f i) 0 d s) (λ i s, 0 ≤ i ∧ I i 0 s) 0 d s) as (s' & E & _ & H); [|by split|by exists s'].
  intros i s1 Hi [H0 H1].
  destruct (for_range_inv (f i) (λ j s, I i j s) 0 d s1) as (s2 & E & H2); [|done|].
  - intros j s2 Hj. apply Hstep; lia.
  - exists s2. split; [done|]. split; [lia|]. by apply Hrow.
Qed.

Definition initialized (d : nat) (m : matrices) : Prop :=
  holds d (A m) (λ i _, i) ∧ holds d (B m) (λ _ j, j) ∧ holds d (C m) (λ _ _, 0).

Lemma initialize_ok d : ∃ m, initialize d {| A := zeros d; B := zeros d; C := zeros d |} = Ret m ∧ initialized d m.
Proof.
  unfold initialize.
  destruct (nested_loops init_step (λ i j m,
    holds d (A m) (λ a b, if before i j a b then a else 0) ∧ holds d (B m) (λ a b, if before i j a b then b else 0) ∧
    holds d (C m) (λ _ _, 0)) d {| A := zeros d; B := zeros d; C := zeros d |}) as (m & E & HA & HB & HC).
  - intros i j m Hi Hj (HA & HB & HC). unfold init_step.
    destruct (holds_wr2 d _ _ i j i HA) as (MA & -> & HA'); [done..|].
    destruct (holds_wr2 d _ _ i j j HB) as (MB & EB & HB'); [done..|].
    destruct (holds_wr2 d _ _ i j 0 HC) as (MC & EC & HC'); [done..|].
    cbn [mbind outcome_bind]. rewrite EB. cbn [mbind outcome_bind]. rewrite EC. cbn [mbind outcome_bind].
    eexists. split; [done|]. cbn [A B C].
    split_and!; [eapply holds_ext, HA'|eapply holds_ext, HB'|eapply holds_ext, HC']; entries.
  - intros i m Hi (HA & HB & HC). split_and!; [eapply holds_ext, HA|eapply holds_ext, HB|done]; entries.
  - cbn [A B C]. split_and!; (eapply holds_ext, holds_zeros); entries.
  - exists m. split; [done|]. split_and!; [eapply holds_ext, HA|eapply holds_ext, HB|done]; entries.
Qed.

(** The inner loop adds up one entry of the product. *)
Lemma entry_summed d i j m f : (d ≤ 20)%nat → 0 ≤ i < Z.of_nat d → 0 ≤ j < Z.of_nat d →
  holds d (A m) (λ i _, i) → holds d (B m) (λ _ j, j) → holds d (C m) f → f i j = 0 →
  ∃ C', for_range (mult_step i j) 0 d m = Ret {| A := A m; B := B m; C := C' |} ∧
    holds d C' (λ a b, if (a =? i) && (b =? j) then Z.of_nat d * (i * j) else f a b).
Proof.
  intros Hd Hi Hj HA HB HC Hz.
  destruct (for_range_inv (mult_step i j) (λ k m', A m' = A m ∧ B m' = B m ∧ 0 ≤ k ∧
    holds d (C m') (λ a b, if (a =? i) && (b =? j) then k * (i * j) else f a b)) 0 d m) as ([A' B' C'] & E & EA & EB & _ & H).
  - intros k m' Hk (EA & EB & H0 & H). unfold mult_step. rewrite EA, EB.
    rewrite (holds_rd2 d _ _ i j H), (holds_rd2 d _ _ i k HA), (holds_rd2 d _ _ k j HB) by (done || lia).
    cbn [mbind outcome_bind]. rewrite !Z.eqb_refl. cbn [andb].
    assert (0 ≤ i * j ≤ 400) by nia. rewrite (s32_small (i * j)), s32_small by (unfold is_s32; nia).
    destruct (holds_wr2 d _ _ i j (k * (i * j) + i * j) H) as (M & -> & HM); [done..|]. cbn [mbind outcome_bind].
    eexists. split; [done|]. cbn [A B C]. split_and!; [done..|lia|]. eapply holds_ext, HM. entries.
  - split_and!; [done..|lia|]. eapply holds_ext, HC. entries.
  - cbn [A B C] in *. subst A' B'. exists C'. by rewrite E.
Qed.

Lemma multiply_ok d m : (d ≤ 20)%nat → initialized d m →
  ∃ m', multiply d m = Ret m' ∧ holds d (C m') (λ i j, Z.of_nat d * (i * j)).
Proof.
  intros Hd (HA & HB & HC). unfold multiply.
  destruct (nested_loops (λ i j m, for_range (mult_step i j) 0 d m) (λ i j m', A m' = A m ∧ B m' = B m ∧
    holds d (C m') (λ a b, if before i j a b then Z.of_nat d * (a * b) else 0)) d m) as (m' & E & _ & _ & H).
  - intros i j m' Hi Hj (EA & EB & H).
    edestruct (entry_summed d i j m') as (C' & -> & H'); [done..|by rewrite EA|by rewrite EB|exact H| |].
    { unfold before. rewrite Z.ltb_irrefl, Z.eqb_refl, Z.ltb_irrefl. done. }
    eexists. split; [done|]. cbn [A B C]. split_and!; [done..|]. eapply holds_ext, H'. entries.
  - intros i m' Hi (EA & EB & H). split_and!; [done..|]. eapply holds_ext, H. entries.
  - split_and!; [done..|]. eapply holds_ext, HC. entries.
  - exists m'. split; [done|]. eapply holds_ext, H. entries.
Qed.

Lemma main_at_ok d : (0 < d ≤ 20)%nat → matmult_at d = Ret (Z.of_nat d * ((Z.of_nat d - 1) * (Z.of_nat d - 1))).
Proof.
  intros Hd. unfold matmult_at. destruct (initialize_ok d) as (m & -> & Hm). cbn [mbind outcome_bind].
  destruct (multiply_ok d m) as (m' & -> & Hm'); [lia|done|]. cbn [mbind outcome_bind].
  by rewrite (holds_rd2 d _ _ _ _ Hm') by lia.
Qed.

(** The last entry of the product, 20 · 19 · 19. *)
Lemma matmult_exits : matmult_main = Ret 7220.
Proof. apply (main_at_ok 20). lia. Qed.
End Matmult.

(** *** echo.c and shell.c *)
Module Console_programs.

(** What a program asks of the kernel (userprog/syscall.h). *)
Inductive event :=
  | Write (bytes : list Z)
  | Exec (name : list Z)
  | Join (id : Z).

Definition newline : Z := 10.
Definition period : Z := 46.

(** [do { Read(&buffer[i], 1, ConsoleInput); } while (buffer[i++] != '\n')]: the buffer, [i] and the characters left; [None]
    when the program waits for a character that never comes. *)
Fixpoint read_line (keyboard buffer : list Z) (i : Z) : outcome (option (list Z * Z * list Z)) :=
  match keyboard with
  | [] => Ret None
  | c :: keyboard =>
      buffer ← wr buffer i c;
      if c =? newline then Ret (Some (buffer, i + 1, keyboard)) else read_line keyboard buffer (i + 1)
  end.

(** The characters still to be typed, the local buffer and the calls so far. *)
Record program := { keyboard : list Z; buffer : list Z; calls : list event }.

(** How a session ends: the program returns, it waits for input, or the kernel ends the process inside a call. *)
Inductive session_end := Returns | Waits | Ended.

(** The kernel that runs the programs: whether Write comes back to its caller, and whether it has a Read. *)
Record kernel := { write_returns : bool; read_served : bool }.
(** userprog/syscall.h. *)
Definition documented : kernel := {| write_returns := true; read_served := true |}.
(** [ExceptionHandler] of userprog/exception.cc: Write is [Destroy()], the end of the process, and Read, which it does not name,
    gets to the [ASSERT(FALSE)] of its last branch. *)
Definition handler : kernel := {| write_returns := false; read_served := false |}.

Section Sessions.
Context (k : kernel).

Definition write_call (evs : list event) (bytes : list Z) (next : list event → outcome (program + list event * session_end)) :
    outcome (program + list event * session_end) :=
  let evs := evs ++ [Write bytes] in
  if write_returns k then next evs else Ret (inr (evs, Ended)).
(** The line, read with one Read for each character. *)
Definition line_call (s : program) : outcome (option (list Z * Z * list Z)) :=
  if read_served k then read_line (keyboard s) (buffer s) 0 else AssertFails.

Definition echo_round (s : program) : outcome (program + list event * session_end) :=
  write_call (calls s) [45; 62; 32] (λ evs,
  r ← line_call s;
  match r with
  | None => Ret (inr (evs, Waits))
  | Some (buf, i, kbd) =>
      buf ← wr buf i 0;
      b0 ← rd buf 0;
      exits ← (if b0 =? period then (b1 ← rd buf 1; Ret (b1 =? newline)) else Ret false);
      if (exits : bool) then Ret (inr (evs, Returns))
      else write_call evs (take (Z.to_nat i) buf) (λ evs, Ret (inl {| keyboard := kbd; buffer := buf; calls := evs |}))
  end).
(** [buf]: what the stack holds when [main] starts, 80 bytes. *)
Definition echo (keyboard buf : list Z) : outcome (list event * session_end) :=
  loop echo_round (S (length keyboard)) {| keyboard := keyboard; buffer := buf; calls := [] |}.

(** The string at an address: up to its NUL. *)
Fixpoint c_string (bs : list Z) : list Z :=
  match bs with [] => [] | b :: bs => if b =? 0 then [] else b :: c_string bs end.

(** The id Exec returns, after these calls. *)
Context (exec_id : list event → Z).

Definition shell_round (s : program) : outcome (program + list event * session_end) :=
  write_call (calls s) [36; 32] (λ evs,
  r ← line_call s;
  match r with
  | None => Ret (inr (evs, Waits))
  | Some (buf, i, kbd) =>
      let i := i - 1 in
      buf ← wr buf i 0;
      let evs := if 0 <? i then let evs := evs ++ [Exec (c_string buf)] in evs ++ [Join (exec_id evs)] else evs in
      Ret (inl {| keyboard := kbd; buffer := buf; calls := evs |})
  end).
Definition shell (keyboard buf : list Z) : outcome (list event * session_end) :=
  loop shell_round (S (length keyboard)) {| keyboard := keyboard; buffer := buf; calls := [] |}.
End Sessions.

(** *** Reading a line *)
Definition typed (lines : list (list Z)) (rest : list Z) : list Z := concat ((λ l, l ++ [newline]) <$> lines) ++ rest.
Definition no_newline (l : list Z) : Prop := Forall (λ c, c ≠ newline) l.

Lemma wr_middle (pre post : list Z) (x y : Z) : wr (pre ++ x :: post) (Z.of_nat (length pre)) y = Ret (pre ++ y :: post).
Proof.
  rewrite wr_ok by (rewrite length_app; cbn [length]; lia). rewrite Nat2Z.id. f_equal.
  rewrite insert_app_r_alt by lia. by rewrite Nat.sub_diag.
Qed.

Lemma read_line_ok l k pre old x post : length old = length l → no_newline l →
  read_line (l ++ newline :: k) (pre ++ old ++ x :: post) (Z.of_nat (length pre)) =
  Ret (Some (pre ++ l ++ newline :: post, Z.of_nat (length pre + length l + 1), k)).
Proof.
  revert pre old. induction l as [|c l IH]; intros pre [|o old] Hl Hn; try discriminate Hl; cbn [app read_line].
  - rewrite wr_middle. cbn [mbind outcome_bind]. rewrite Z.eqb_refl. cbn [length]. do 3 f_equal. f_equal. lia.
  - apply Forall_cons_1 in Hn as [Hc Hn]. rewrite wr_middle. cbn [mbind outcome_bind]. rewrite (proj2 (Z.eqb_neq c newline) Hc).
    replace (Z.of_nat (length pre) + 1) with (Z.of_nat (length (pre ++ [c]))) by (rewrite length_app; cbn [length]; lia).
    replace (pre ++ c :: old ++ x :: post) with ((pre ++ [c]) ++ old ++ x :: post) by (by rewrite <-app_assoc).
    rewrite IH by (done || (cbn in Hl; lia)). rewrite <-app_assoc, length_app. cbn [length app]. do 4 f_equal. lia.
Qed.

Lemma read_line_overflow l c k buf i : no_newline l → 0 ≤ i ≤ Z.of_nat (length buf) →
  Z.of_nat (length buf) ≤ i + Z.of_nat (length l) → read_line (l ++ c :: k) buf i = Undefined.
Proof.
  intros Hn. revert buf i. induction Hn as [|b l Hb Hn IH]; intros buf i Hi Hl; cbn [app read_line length] in *;
    (destruct (decide (i = Z.of_nat (length buf))) as [->|];
      [unfold wr, in_range; rewrite (proj2 (Z.ltb_ge _ _)) by lia; by rewrite andb_false_r|]); [lia|].
  rewrite wr_ok by lia. cbn [mbind outcome_bind]. rewrite (proj2 (Z.eqb_neq b newline) Hb).
  apply IH; rewrite ?length_insert; lia.
Qed.

Lemma read_line_waits l buf i : no_newline l → 0 ≤ i → i + Z.of_nat (length l) ≤ Z.of_nat (length buf) →
  read_line l buf i = Ret None.
Proof.
  intros Hn. revert buf i. induction Hn as [|c l Hc Hn IH]; intros buf i Hi Hl; cbn [read_line length] in *.
  - done.
  - rewrite wr_ok by lia. cbn [mbind outcome_bind]. rewrite (proj2 (Z.eqb_neq c newline) Hc).
    apply IH; rewrite ?length_insert; lia.
Qed.

(** The first line typed, in a buffer it fits into. *)
Lemma read_first l k buf : no_newline l → (length l < length buf)%nat →
  ∃ post, read_line (l ++ newline :: k) buf 0 = Ret (Some (l ++ newline :: post, Z.of_nat (length l + 1), k)) ∧
    length (l ++ newline :: post) = length buf.
Proof.
  intros Hn Hl. destruct (drop (length l) buf) as [|x post] eqn:E.
  { apply (f_equal length) in E. rewrite length_drop in E. cbn in E. lia. }
  exists post. split.
  - rewrite <-(take_drop (length l) buf), E.
    apply (read_line_ok l k [] (take (length l) buf)); [rewrite length_take; lia|done].
  - apply (f_equal length) in E. rewrite length_drop in E. rewrite length_app. cbn [length] in *. lia.
Qed.

(** *** What the two programs do with the lines typed *)
Fixpoint echo_session (lines : list (list Z)) (evs : list event) : list event * session_end :=
  let evs := evs ++ [Write [45; 62; 32]] in
  match lines with
  | [] => (evs, Waits)
  | l :: lines => if decide (l = [period]) then (evs, Returns) else echo_session lines (evs ++ [Write (l ++ [newline])])
  end.
Fixpoint shell_session (exec_id : list event → Z) (lines : list (list Z)) (evs : list event) : list event * session_end :=
  let evs := evs ++ [Write [36; 32]] in
  match lines with
  | [] => (evs, Waits)
  | l :: lines =>
      shell_session exec_id lines
        (if decide (l = []) then evs else let evs := evs ++ [Exec (c_string l)] in evs ++ [Join (exec_id evs)])
  end.

Definition at_round (kbd buf : list Z) (evs : list event) : program := {| keyboard := kbd; buffer := buf; calls := evs |}.

Lemma typed_cons l ls rest : typed (l :: ls) rest = l ++ newline :: typed ls rest.
Proof. unfold typed. cbn. by rewrite <-!app_assoc. Qed.

(** One round of echo.c on a line that leaves room for the newline and the NUL. *)
Lemma echo_round_line l k buf evs : no_newline l → (length l + 2 ≤ length buf)%nat → ∃ buf', length buf' = length buf ∧
  echo_round documented (at_round (l ++ newline :: k) buf evs) = Ret (let evs := evs ++ [Write [45; 62; 32]] in
    if decide (l = [period]) then inr (evs, Returns) else inl (at_round k buf' (evs ++ [Write (l ++ [newline])]))).
Proof.
  intros Hn Hl. destruct (read_first l k buf Hn ltac:(lia)) as (post & E & Hlen).
  destruct post as [|x post]; [rewrite length_app in Hlen; cbn [length] in Hlen; lia|].
  exists ((l ++ [newline]) ++ 0 :: post). split.
  { rewrite <-Hlen, <-app_assoc, !length_app. done. }
  unfold echo_round, write_call, line_call, at_round. cbn [write_returns read_served documented keyboard buffer calls]. rewrite E. cbn [mbind outcome_bind].
  replace (l ++ newline :: x :: post) with ((l ++ [newline]) ++ x :: post) by (by rewrite <-app_assoc).
  replace (length l + 1)%nat with (length (l ++ [newline])) by (by rewrite length_app).
  rewrite wr_middle. cbn [mbind outcome_bind]. rewrite Nat2Z.id, take_app_length.
  assert (∀ (b : Z) bs, rd (b :: bs) 0 = Ret b) as H0 by done. assert (∀ (b b1 : Z) bs, rd (b :: b1 :: bs) 1 = Ret b1) as H1 by done.
  destruct l as [|b [|b1 l]]; unfold no_newline in Hn; rewrite ?Forall_cons in Hn; cbn [app]; rewrite H0; cbn [mbind outcome_bind].
  - done.
  - rewrite H1. destruct (Z.eqb_spec b period) as [->|Hne]; [done|]. by rewrite decide_False by congruence.
  - rewrite H1, decide_False by done. destruct (b =? period); [|done].
    cbn [mbind outcome_bind]. by rewrite (proj2 (Z.eqb_neq b1 newline)) by tauto.
Qed.

Lemma shell_round_line exec_id l k buf evs : no_newline l → (length l < length buf)%nat → ∃ buf', length buf' = length buf ∧
  shell_round documented exec_id (at_round (l ++ newline :: k) buf evs) = Ret (inl (at_round k buf' (let evs := evs ++ [Write [36; 32]] in
    if decide (l = []) then evs else let evs := evs ++ [Exec (c_string l)] in evs ++ [Join (exec_id evs)]))).
Proof.
  intros Hn Hl. destruct (read_first l k buf Hn Hl) as (post & E & Hlen).
  exists (l ++ 0 :: post). split; [by rewrite <-Hlen, !length_app|].
  unfold shell_round, write_call, line_call, at_round. cbn [write_returns read_served documented keyboard buffer calls]. rewrite E. cbn [mbind outcome_bind].
  replace (Z.of_nat (length l + 1) - 1) with (Z.of_nat (length l)) by lia. rewrite wr_middle. cbn [mbind outcome_bind].
  assert (∀ l, c_string (l ++ 0 :: post) = c_string l) as ->.
  { clear. induction l as [|b l IH]; [done|]. cbn. by rewrite IH. }
  by destruct l.
Qed.

(** A round that meets a line too long for the buffer: in echo.c there is no room for the NUL behind the newline, or none for
    the newline. *)
Lemma echo_round_overflow l k buf evs : no_newline l → (length buf < length l + 2)%nat →
  echo_round documented (at_round (l ++ newline :: k) buf evs) = Undefined.
Proof.
  intros Hn Hl. unfold echo_round, write_call, line_call, at_round. cbn [write_returns read_served documented keyboard buffer calls]. destruct (decide (length buf ≤ length l)%nat).
  - by rewrite read_line_overflow by (done || lia).
  - destruct (read_first l k buf Hn ltac:(lia)) as (post & -> & Hlen). cbn [mbind outcome_bind].
    rewrite length_app in Hlen. cbn [length] in Hlen.
    unfold wr, in_range. rewrite length_app. cbn [length]. rewrite (proj2 (Z.ltb_ge _ _)) by lia. by rewrite andb_false_r.
Qed.
Lemma shell_round_overflow exec_id l k buf evs : no_newline l → (length buf ≤ length l)%nat →
  shell_round documented exec_id (at_round (l ++ newline :: k) buf evs) = Undefined.
Proof. intros Hn Hl. unfold shell_round, write_call, line_call, at_round. cbn [write_returns read_served documented keyboard buffer calls]. by rewrite read_line_overflow by (done || lia). Qed.
Lemma rounds_wait exec_id l buf evs : no_newline l → (length l ≤ length buf)%nat →
  echo_round documented (at_round l buf evs) = Ret (inr (evs ++ [Write [45; 62; 32]], Waits)) ∧
  shell_round documented exec_id (at_round l buf evs) = Ret (inr (evs ++ [Write [36; 32]], Waits)).
Proof.
  intros Hn Hl. unfold echo_round, shell_round, write_call, line_call, at_round. cbn [write_returns read_served documented keyboard buffer calls]. by rewrite read_line_waits by (done || lia).
Qed.

(** The loops, over lines that fit. *)
Lemma echo_lines ls rest f buf evs : Forall no_newline ls → no_newline rest →
  Forall (λ l, length l + 2 ≤ length buf)%nat ls → (length rest ≤ length buf)%nat → (length ls < f)%nat →
  loop (echo_round documented) f (at_round (typed ls rest) buf evs) = Ret (echo_session ls evs).
Proof.
  intros Hn Hr Hl Hrl. revert f buf evs Hl Hrl. induction Hn as [|l ls Hnl Hn IH]; intros [|f] buf evs Hl Hrl Hf;
    try (cbn [length] in Hf; lia).
  - apply loop_stop. by destruct (rounds_wait (λ _, 0) rest buf evs Hr Hrl) as [E _].
  - apply Forall_cons in Hl as [Hl Hls]. rewrite typed_cons.
    destruct (echo_round_line l (typed ls rest) buf evs Hnl Hl) as (buf' & Hb & E).
    cbn [echo_session]. destruct (decide (l = [period])).
    + by apply loop_stop.
    + rewrite (loop_step _ _ _ _ E). apply IH; rewrite ?Hb; [done..|cbn [length] in Hf; lia].
Qed.

Lemma shell_lines exec_id ls rest f buf evs : Forall no_newline ls → no_newline rest →
  Forall (λ l, length l + 1 ≤ length buf)%nat ls → (length rest ≤ length buf)%nat → (length ls < f)%nat →
  loop (shell_round documented exec_id) f (at_round (typed ls rest) buf evs) = Ret (shell_session exec_id ls evs).
Proof.
  intros Hn Hr Hl Hrl. revert f buf evs Hl Hrl. induction Hn as [|l ls Hnl Hn IH]; intros [|f] buf evs Hl Hrl Hf;
    try (cbn [length] in Hf; lia).
  - apply loop_stop. by destruct (rounds_wait exec_id rest buf evs Hr Hrl) as [_ E].
  - apply Forall_cons in Hl as [Hl Hls]. rewrite typed_cons.
    destruct (shell_round_line exec_id l (typed ls rest) buf evs Hnl ltac:(lia)) as (buf' & Hb & E).
    cbn [shell_session]. rewrite (loop_step _ _ _ _ E). apply IH; rewrite ?Hb; [done..|cbn [length] in Hf; lia].
Qed.

(** The loops, up to the first line that does not fit. *)
Lemma echo_overflows ls l k f buf evs : Forall no_newline ls → no_newline l →
  Forall (λ l, length l + 2 ≤ length buf ∧ l ≠ [period])%nat ls → (length buf < length l + 2)%nat → (length ls < f)%nat →
  loop (echo_round documented) f (at_round (typed ls (l ++ newline :: k)) buf evs) = Undefined.
Proof.
  intros Hn Hr Hl Hrl. revert f buf evs Hl Hrl. induction Hn as [|l' ls Hnl Hn IH]; intros [|f] buf evs Hl Hrl Hf;
    try (cbn [length] in Hf; lia).
  - rewrite loop_unfold. unfold typed. cbn [concat fmap list_fmap app]. by rewrite echo_round_overflow.
  - apply Forall_cons in Hl as [[Hl Hp] Hls]. rewrite typed_cons.
    destruct (echo_round_line l' (typed ls (l ++ newline :: k)) buf evs Hnl Hl) as (buf' & Hb & E).
    rewrite decide_False in E by done. rewrite (loop_step _ _ _ _ E). apply IH; rewrite ?Hb; [done..|cbn [length] in Hf; lia].
Qed.

Lemma shell_overflows exec_id ls l k f buf evs : Forall no_newline ls → no_newline l →
  Forall (λ l, length l + 1 ≤ length buf)%nat ls → (length buf < length l + 1)%nat → (length ls < f)%nat →
  loop (shell_round documented exec_id) f (at_round (typed ls (l ++ newline :: k)) buf evs) = Undefined.
Proof.
  intros Hn Hr Hl Hrl. revert f buf evs Hl Hrl. induction Hn as [|l' ls Hnl Hn IH]; intros [|f] buf evs Hl Hrl Hf;
    try (cbn [length] in Hf; lia).
  - rewrite loop_unfold. unfold typed. cbn [concat fmap list_fmap app]. by rewrite shell_round_overflow by (done || lia).
  - apply Forall_cons in Hl as [Hl Hls]. rewrite typed_cons.
    destruct (shell_round_line exec_id l' (typed ls (l ++ newline :: k)) buf evs Hnl ltac:(lia)) as (buf' & Hb & E).
    rewrite (loop_step _ _ _ _ E). apply IH; rewrite ?Hb; [done..|cbn [length] in Hf; lia].
Qed.

Lemma typed_length ls rest : (length ls ≤ length (typed ls rest))%nat.
Proof. induction ls as [|l ls IH]; [cbn; lia|]. rewrite typed_cons, length_app. cbn [length]. lia. Qed.

(** The handler of the repository ends both at their first call, before a character is read. *)
Lemma handler_sessions exec_id kbd buf buf' :
  echo handler kbd buf = Ret ([Write [45; 62; 32]], Ended) ∧ shell handler exec_id kbd buf' = Ret ([Write [36; 32]], Ended).
Proof. split; by apply loop_stop. Qed.

(** C27: the line buffers of echo.c (80 bytes) and shell.c (60) are large enough for lines of at most 78 and 59 characters, and
    no longer.  With Read, Write, Exec and Join as userprog/syscall.h documents them ([documented]), when every line typed fits,
    echo.c writes each line back after a prompt until a line that is a single period, and shell.c executes and joins each line
    that is not empty; both read to the end of what is typed and neither leaves its buffer.  The first longer line makes the
    program write outside the buffer.  With the calls as [ExceptionHandler] of userprog/exception.cc handles them ([handler]),
    no such session takes place: whatever is typed, both programs are ended by their first prompt. *)
Theorem line_buffers exec_id buf80 buf60 (ls : list (list Z)) (rest : list Z)
    (Hsizes : length buf80 = 80%nat ∧ length buf60 = 60%nat) (Hls : Forall no_newline ls) (Hrest : no_newline rest) :
  (Forall (λ l, length l ≤ 78)%nat ls → (length rest ≤ 80)%nat →
     echo documented (typed ls rest) buf80 = Ret (echo_session ls [])) ∧
  (Forall (λ l, length l ≤ 59)%nat ls → (length rest ≤ 60)%nat →
     shell documented exec_id (typed ls rest) buf60 = Ret (shell_session exec_id ls [])) ∧
  (∀ k, Forall (λ l, length l ≤ 78 ∧ l ≠ [period])%nat ls → (78 < length rest)%nat →
     echo documented (typed ls (rest ++ newline :: k)) buf80 = Undefined) ∧
  (∀ k, Forall (λ l, length l ≤ 59)%nat ls → (59 < length rest)%nat →
     shell documented exec_id (typed ls (rest ++ newline :: k)) buf60 = Undefined) ∧
  (echo handler (typed ls rest) buf80 = Ret ([Write [45; 62; 32]], Ended) ∧
   shell handler exec_id (typed ls rest) buf60 = Ret ([Write [36; 32]], Ended)).
Proof.
  destruct Hsizes as [H80 H60]. refine (conj _ (conj _ (conj _ (conj _ _)))); intros; unfold echo, shell.
  - apply echo_lines; rewrite ?H80; [done..| | |pose proof (typed_length ls rest); lia]; [|done].
    eapply Forall_impl; [done|]. cbn. lia.
  - apply shell_lines; rewrite ?H60; [done..| | |pose proof (typed_length ls rest); lia]; [|done].
    eapply Forall_impl; [done|]. cbn. lia.
  - apply echo_overflows; rewrite ?H80; [done..| |lia|pose proof (typed_length ls (rest ++ newline :: k)); lia].
    eapply Forall_impl; [done|]. cbn. intros l [? ?]. split; [lia|done].
  - apply shell_overflows; rewrite ?H60; [done..| |lia|pose proof (typed_length ls (rest ++ newline :: k)); lia].
    eapply Forall_impl; [done|]. cbn. lia.
  - exact (handler_sessions exec_id _ buf80 buf60).
Qed.

(** "hi", an empty line, a line of 59 characters, and then one character too many. *)
Lemma line_buffers_witness :
  let ls := [[104; 105]; []; replicate 59 97] in
  shell documented (λ _, 7) (typed ls [98]) (replicate 60 0) =
    Ret ([Write [36; 32]; Exec [104; 105]; Join 7; Write [36; 32]; Write [36; 32]; Exec (replicate 59 97); Join 7; Write [36; 32]], Waits) ∧
  shell documented (λ _, 7) (typed ls (replicate 60 97 ++ [newline])) (replicate 60 0) = Undefined ∧
  echo documented (typed ls (replicate 79 97 ++ [newline])) (replicate 80 0) = Undefined ∧
  shell handler (λ _, 7) (typed ls [98]) (replicate 60 0) = Ret ([Write [36; 32]], Ended).
Proof.
  intros ls. assert (Forall no_newline ls) as Hls by (unfold no_newline; repeat constructor; discriminate).
  assert (∀ n, no_newline (replicate n 97)) as Hrep by (intros n; apply Forall_replicate; discriminate).
  split_and!.
  - refine (proj1 (proj2 (line_buffers (λ _, 7) (replicate 80 0) (replicate 60 0) ls [98] _ Hls _)) _ _);
      [done|by repeat constructor|cbn; repeat constructor; lia|cbn; lia].
  - refine (proj1 (proj2 (proj2 (proj2 (line_buffers (λ _, 7) (replicate 80 0) (replicate 60 0) ls (replicate 60 97) _ Hls (Hrep _))))) [] _ _);
      [done|cbn; repeat constructor; lia|cbn; lia].
  - refine (proj1 (proj2 (proj2 (line_buffers (λ _, 7) (replicate 80 0) (replicate 60 0) ls (replicate 79 97) _ Hls (Hrep _)))) [] _ _);
      [done|cbn; repeat constructor; (lia || discriminate)|cbn; lia].
  - refine (proj2 (proj2 (proj2 (proj2 (proj2 (line_buffers (λ _, 7) (replicate 80 0) (replicate 60 0) ls [98] _ Hls _))))));
      [done|by repeat constructor].
Defined.
End Console_programs.

(** *** exectest.c, execarray.c, exittest.c and halt.c *)
Module Callers.

(** What such a program asks of the kernel, and what it does with the answer. *)
Inductive caller :=
  | Halt
  | Exit (status : Z)
  | Exec (name : string) (argc argv willJoin : Z) (next : Z → caller).

Definition exectest_main : caller := Exec "../test/exittest" 0 0 0 (λ result, Exit result).
Definition execarray_main : caller := Exec "../test/array" 0 0 0 (λ id, Exit id).
Definition exittest_main : caller := Exit 123.
Definition halt_main : caller := Halt.

(** The programs that are executed and the status at the end, with a kernel that numbers them; [None] when the machine halts. *)
Fixpoint run_caller (exec : string → Z) (p : caller) : list string * option Z :=
  match p with
  | Halt => ([], None)
  | Exit status => ([], Some status)
  | Exec name _ _ _ next => let '(names, status) := run_caller exec (next (exec name)) in (name :: names, status)
  end.

(** Neither of the two that call Exec waits: they end with the index of the program, whatever its own status. *)
Lemma callers_end exec :
  run_caller exec exectest_main = (["../test/exittest"], Some (exec "../test/exittest")) ∧
  run_caller exec execarray_main = (["../test/array"], Some (exec "../test/array")) ∧
  run_caller exec exittest_main = ([], Some 123) ∧ run_caller exec halt_main = ([], None).
Proof. done. Qed.
End Callers.
