(* ===== verification/Switch.v ===== *)
(** * threads/switch.s: the context switch of the i386

    The assembler of ThreadRoot and SWITCH for HOST_i386 as a program of a small part of that processor, with the saved state that
    Thread::StackAllocate (thread.cc) makes for a new thread and the layout of switch.h.  Memory is a map of words; a word that is
    not in it does not exist.  [SWITCH_runs] says what a switch does; [switch_back] that a thread does not notice it;
    [thread_starts] that a forked thread calls its procedure.  The other modules see a switch as one step from thread to thread. *)

From S2P Require Import Prelude CInt.

Open Scope Z_scope.

Module Switch.

(** *** The processor *)
Inductive reg := EAX | EBX | ECX | EDX | ESI | EDI | EBP | ESP.
(** A register, [disp(reg)], and the word that [.comm _eax_save,4] declares. *)
Inductive operand := Reg (r : reg) | Mem (disp : Z) (r : reg) | eax_save_.
Inductive instr :=
  | movl (src dst : operand)
  | pushl (src : operand)
  | popl (dst : operand)
  | call (r : reg)
  | ret.

Record registers := mkRegisters { eax : Z; ebx : Z; ecx : Z; edx : Z; esi : Z; edi : Z; ebp : Z; esp : Z }.
Definition get (r : reg) (R : registers) : Z :=
  match r with
  | EAX => eax R | EBX => ebx R | ECX => ecx R | EDX => edx R | ESI => esi R | EDI => edi R | EBP => ebp R | ESP => esp R
  end.
Definition set (r : reg) (v : Z) (R : registers) : registers :=
  let '(mkRegisters a b c d si di bp sp) := R in
  match r with
  | EAX => mkRegisters v b c d si di bp sp
  | EBX => mkRegisters a v c d si di bp sp
  | ECX => mkRegisters a b v d si di bp sp
  | EDX => mkRegisters a b c v si di bp sp
  | ESI => mkRegisters a b c d v di bp sp
  | EDI => mkRegisters a b c d si v bp sp
  | EBP => mkRegisters a b c d si di v sp
  | ESP => mkRegisters a b c d si di bp v
  end.

(** Words by their address. *)
Abbreviation memory := (gmap Z Z).
Definition load (m : memory) (a : Z) : outcome Z := match m !! a with Some v => Ret v | None => Undefined end.
Definition store (m : memory) (a v : Z) : outcome memory := _ ← load m a; Ret (<[a := v]> m).

Record cpu := mkCpu { regs : registers; mem : memory; eip : Z }.

(** *** threads/switch.h *)
Definition _ESP : Z := 0.
Definition _EAX : Z := 4.
Definition _EBX : Z := 8.
Definition _ECX : Z := 12.
Definition _EDX : Z := 16.
Definition _EBP : Z := 20.
Definition _ESI : Z := 24.
Definition _EDI : Z := 28.
Definition _PC : Z := 32.
Definition PCState : Z := _PC / 4 - 1.
Definition FPState : Z := _EBP / 4 - 1.
Definition InitialPCState : Z := _ESI / 4 - 1.
Definition InitialArgState : Z := _EDX / 4 - 1.
Definition WhenDonePCState : Z := _EDI / 4 - 1.
Definition StartupPCState : Z := _ECX / 4 - 1.
Definition InitialPC : reg := ESI.
Definition InitialArg : reg := EDX.
Definition WhenDonePC : reg := EDI.
Definition StartupPC : reg := ECX.

(** *** threads/switch.s *)
Definition ThreadRoot_code : list instr := [
  pushl (Reg EBP);
  movl (Reg ESP) (Reg EBP);
  pushl (Reg InitialArg);
  call StartupPC;
  call InitialPC;
  call WhenDonePC;
  movl (Reg EBP) (Reg ESP);
  popl (Reg EBP);
  ret].

Definition SWITCH_code : list instr := [
  movl (Reg EAX) eax_save_;
  movl (Mem 4 ESP) (Reg EAX);
  movl (Reg EBX) (Mem _EBX EAX);
  movl (Reg ECX) (Mem _ECX EAX);
  movl (Reg EDX) (Mem _EDX EAX);
  movl (Reg ESI) (Mem _ESI EAX);
  movl (Reg EDI) (Mem _EDI EAX);
  movl (Reg EBP) (Mem _EBP EAX);
  movl (Reg ESP) (Mem _ESP EAX);
  movl eax_save_ (Reg EBX);
  movl (Reg EBX) (Mem _EAX EAX);
  movl (Mem 0 ESP) (Reg EBX);
  movl (Reg EBX) (Mem _PC EAX);
  movl (Mem 8 ESP) (Reg EAX);
  movl (Mem _EAX EAX) (Reg EBX);
  movl (Reg EBX) eax_save_;
  movl (Mem _EBX EAX) (Reg EBX);
  movl (Mem _ECX EAX) (Reg ECX);
  movl (Mem _EDX EAX) (Reg EDX);
  movl (Mem _ESI EAX) (Reg ESI);
  movl (Mem _EDI EAX) (Reg EDI);
  movl (Mem _EBP EAX) (Reg EBP);
  movl (Mem _ESP EAX) (Reg ESP);
  movl (Mem _PC EAX) (Reg EAX);
  movl (Reg EAX) (Mem 4 ESP);
  movl eax_save_ (Reg EAX);
  ret].

Definition code : list instr := ThreadRoot_code ++ SWITCH_code.

(** *** Running the code

    The linker chooses where [_eax_save] and the instructions are. *)
Section layout.
Context (eax_save : Z) (addr : nat → Z).

Definition ThreadRoot : Z := addr 0.
Definition SWITCH : Z := addr (length ThreadRoot_code).

Definition address (R : registers) (o : operand) : Z :=
  match o with Reg _ => 0 | Mem d r => u32 (get r R + d) | eax_save_ => eax_save end.
Definition read (c : cpu) (o : operand) : outcome Z :=
  match o with Reg r => Ret (get r (regs c)) | _ => load (mem c) (address (regs c) o) end.
Definition write (c : cpu) (o : operand) (v next : Z) : outcome cpu :=
  match o with
  | Reg r => Ret (mkCpu (set r v (regs c)) (mem c) next)
  | _ => m ← store (mem c) (address (regs c) o) v; Ret (mkCpu (regs c) m next)
  end.
Definition push (c : cpu) (v next : Z) : outcome cpu :=
  let sp := u32 (esp (regs c) - 4) in
  m ← store (mem c) sp v; Ret (mkCpu (set ESP sp (regs c)) m next).

(** The instruction at [addr i]. *)
Definition exec (i : nat) (ins : instr) (c : cpu) : outcome cpu :=
  match ins with
  | movl s d => v ← read c s; write c d v (addr (S i))
  | pushl s => v ← read c s; push c v (addr (S i))
  | popl d =>
      v ← load (mem c) (esp (regs c));
      write (mkCpu (set ESP (u32 (esp (regs c) + 4)) (regs c)) (mem c) (eip c)) d v (addr (S i))
  | call r => push c (addr (S i)) (get r (regs c))
  | ret => v ← load (mem c) (esp (regs c)); Ret (mkCpu (set ESP (u32 (esp (regs c) + 4)) (regs c)) (mem c) v)
  end.

Definition index_of (a : Z) : option nat := fst <$> list_find (λ i, addr i = a) (seq 0 (length code)).
Definition step (c : cpu) : outcome cpu :=
  match index_of (eip c) with
  | Some i => match code !! i with Some ins => exec i ins c | None => Undefined end
  | None => Undefined
  end.
Fixpoint steps (n : nat) (c : cpu) : outcome cpu :=
  match n with O => Ret c | S n => c ← step c; steps n c end.

(** *** threads/thread.h and thread.cc

    The first words of a Thread: [stackTop] and [machineState], and [stack] behind [mayDie]. *)
Definition MachineStateSize : Z := 18.
Definition StackSize : Z := 4 * 1024.
Definition STACK_FENCEPOST : Z := 3735928559. (* 0xdeadbeef *)
Definition stackTop_ (t : Z) : Z := t.
Definition machineState_ (t i : Z) : Z := t + 4 + 4 * i.
Definition stack_ (t : Z) : Z := t + 4 + 4 * MachineStateSize + 16.

(** [base] is the array that AllocBoundedArray has returned. *)
Definition StackAllocate (InterruptEnable ThreadFinish base t func arg : Z) (m : memory) : outcome memory :=
  m ← store m (stack_ t) base;
  m ← store m (stackTop_ t) (base + 4 * (StackSize - 4));
  m ← store m (stackTop_ t) (base + 4 * (StackSize - 4) - 4);
  m ← store m (base + 4 * (StackSize - 4) - 4) ThreadRoot;
  m ← store m base STACK_FENCEPOST;
  m ← store m (machineState_ t PCState) ThreadRoot;
  m ← store m (machineState_ t StartupPCState) InterruptEnable;
  m ← store m (machineState_ t InitialPCState) func;
  m ← store m (machineState_ t InitialArgState) arg;
  store m (machineState_ t WhenDonePCState) ThreadFinish.

Definition CheckOverflow (t : Z) (m : memory) : outcome unit :=
  stack ← load m (stack_ t);
  if negb (stack =? 0) then (v ← load m stack; ASSERT (v =? STACK_FENCEPOST)) else Ret ().

(** *** What a switch needs and does *)
Definition offset (r : reg) : Z :=
  match r with
  | EAX => _EAX | EBX => _EBX | ECX => _ECX | EDX => _EDX | ESI => _ESI | EDI => _EDI | EBP => _EBP | ESP => _ESP
  end.

(** The Thread at [t] holds these registers and this program counter. *)
Definition saved (m : memory) (t : Z) (R : registers) (pc : Z) : Prop :=
  (∀ r, m !! (t + offset r) = Some (get r R)) ∧ m !! (t + _PC) = Some pc.

Definition apart (a n b k : Z) : Prop := a + n ≤ b ∨ b + k ≤ a.
Definition in_memory (a n : Z) : Prop := 0 ≤ a ∧ a + n ≤ 2 ^ 32.

(** SWITCH(t1, t2) has been called and will return to [pc]; the Thread [t2] has the registers [R2], with the address [pc2'] on
    top of its stack. *)
Record calls_SWITCH (c : cpu) (t1 t2 pc : Z) (R2 : registers) (pc2 pc2' : Z) : Prop := {
  cs_eip : eip c = SWITCH;
  cs_return : mem c !! (esp (regs c) + 0) = Some pc;
  cs_old : mem c !! (esp (regs c) + 4) = Some t1;
  cs_new : mem c !! (esp (regs c) + 8) = Some t2;
  cs_var : is_Some (mem c !! eax_save);
  cs_object r : is_Some (mem c !! (t1 + offset r));
  cs_object_pc : is_Some (mem c !! (t1 + _PC));
  cs_saved : saved (mem c) t2 R2 pc2;
  cs_top : mem c !! esp R2 = Some pc2';
  cs_above : is_Some (mem c !! (esp R2 + 4));
  cs_ranges : in_memory t1 36 ∧ in_memory t2 36 ∧ in_memory (esp (regs c)) 12 ∧ in_memory (esp R2) 8;
  cs_t1_t2 : apart t1 36 t2 36;
  cs_t1_sp : apart t1 36 (esp (regs c)) 12;
  cs_t1_sp2 : apart t1 36 (esp R2) 8;
  cs_t2_sp2 : apart t2 36 (esp R2) 8;
  cs_sp_sp2 : apart (esp (regs c)) 12 (esp R2) 8;
  cs_var_t1 : apart eax_save 4 t1 36;
  cs_var_t2 : apart eax_save 4 t2 36;
  cs_var_sp : apart eax_save 4 (esp (regs c)) 12;
  cs_var_sp2 : apart eax_save 4 (esp R2) 8 }.

Context (addr_inj : ∀ i j, (i < length code)%nat → (j < length code)%nat → addr i = addr j → i = j).

Lemma index_at i : (i < length code)%nat → index_of (addr i) = Some i.
Proof.
  intros Hi. unfold index_of. rewrite (proj2 (list_find_Some _ _ i i)); [done|].
  split; [apply lookup_seq; lia|]. split; [done|]. intros j y Hj Hlt. apply lookup_seq in Hj as [-> Hj].
  intros E. apply addr_inj in E; lia.
Qed.

Lemma steps_at i n ins R m : code !! i = Some ins →
  steps (S n) (mkCpu R m (addr i)) = (c ← exec i ins (mkCpu R m (addr i)); steps n c).
Proof. intros Hi. cbn [steps]. unfold step. cbn [eip]. by rewrite index_at, Hi by (by apply lookup_lt_Some in Hi). Qed.

Lemma steps_app n k c : steps (n + k) c = (c ← steps n c; steps k c).
Proof.
  revert c. induction n as [|n IH]; intros c; [done|]. cbn [plus steps]. destruct (step c) as [c'| | |]; cbn [mbind outcome_bind]; [apply IH|done..].
Qed.

Lemma load_some (m : memory) a v : m !! a = Some v → load m a = Ret v.
Proof. unfold load. by intros ->. Qed.
Lemma store_some (m : memory) a v : is_Some (m !! a) → store m a v = Ret (<[a := v]> m).
Proof. intros [w Hw]. unfold store. by rewrite (load_some m a w). Qed.
Lemma insert_mapped (m : memory) a b v : is_Some (m !! a) → is_Some (<[b := v]> m !! a).
Proof. intros H. apply lookup_insert_is_Some. destruct (decide (b = a)); [by left|by right]. Qed.

(** The final memory of a switch. *)
Definition switched (m : memory) (R : registers) (t1 pc : Z) (R2 : registers) (pc2 : Z) : memory :=
  <[esp R2 + 4 := pc2]> (<[eax_save := eax R2]> (<[t1 + _PC := pc]> (<[t1 + _EAX := eax R]> (<[t1 + _ESP := esp R]>
  (<[t1 + _EBP := ebp R]> (<[t1 + _EDI := edi R]> (<[t1 + _ESI := esi R]> (<[t1 + _EDX := edx R]> (<[t1 + _ECX := ecx R]>
  (<[t1 + _EBX := ebx R]> (<[eax_save := eax R]> m))))))))))).

(** An address is not another one: apart in the same object, or in two that are apart. *)
Ltac other :=
  match goal with
  | |- ?a ≠ ?a' => unfold _ESP, _EAX, _EBX, _ECX, _EDX, _EBP, _ESI, _EDI, _PC;
      first [lia | match goal with H : apart _ _ _ _ |- _ => unfold apart in H; clear - H; lia end]
  end.
Ltac wrap := rewrite ?u32_small by (unfold is_u32; unfold _ESP, _EAX, _EBX, _ECX, _EDX, _EBP, _ESI, _EDI, _PC; unfold in_memory in *; lia).
Ltac mapped := repeat (apply insert_mapped); eauto.
Ltac one i :=
  erewrite (steps_at i) by reflexivity; cbn [mbind outcome_bind exec read write push address get set regs mem eip eax ebx ecx edx esi edi ebp esp];
  wrap.

Ltac ld := erewrite load_some; [|repeat (rewrite lookup_insert_ne by other); first [eassumption | apply lookup_insert_eq]]; cbn [mbind outcome_bind].
Ltac st := rewrite store_some by mapped; cbn [mbind outcome_bind].

Lemma SWITCH_runs c t1 t2 pc R2 pc2 pc2' : calls_SWITCH c t1 t2 pc R2 pc2 pc2' →
  steps 27 c = Ret (mkCpu (set ESP (esp R2 + 4) R2) (switched (mem c) (regs c) t1 pc R2 pc2) pc2').
Proof.
  destruct c as [[a b cc d si di bp sp] m p], R2 as [a2 b2 c2 d2 si2 di2 bp2 sp2].
  intros [E Hret H1 H2 Hv Ho Hop [Hs Hpc] Htop Hab (Hr1 & Hr2 & Hr3 & Hr4) A1 A2 A3 A4 A9 A5 A6 A7 A8].
  pose proof (Ho EAX) as Oa. pose proof (Ho EBX) as Ob. pose proof (Ho ECX) as Oc. pose proof (Ho EDX) as Od.
  pose proof (Ho ESI) as Osi. pose proof (Ho EDI) as Odi. pose proof (Ho EBP) as Obp. pose proof (Ho ESP) as Osp.
  pose proof (Hs EAX) as Sa. pose proof (Hs EBX) as Sb. pose proof (Hs ECX) as Sc. pose proof (Hs EDX) as Sd.
  pose proof (Hs ESI) as Ssi. pose proof (Hs EDI) as Sdi. pose proof (Hs EBP) as Sbp. pose proof (Hs ESP) as Ssp. clear Ho Hs.
  cbn [offset get eip regs mem eax ebx ecx edx esi edi ebp esp] in *. subst p. unfold SWITCH. cbn [length ThreadRoot_code].
  one 9%nat. st. one 10%nat. ld.
  one 11%nat. st. one 12%nat. st. one 13%nat. st. one 14%nat. st. one 15%nat. st. one 16%nat. st. one 17%nat. st.
  one 18%nat. ld. one 19%nat. st. one 20%nat. ld. one 21%nat. st. one 22%nat. ld. one 23%nat. ld. one 24%nat. st.
  one 25%nat. ld. one 26%nat. ld. one 27%nat. ld. one 28%nat. ld. one 29%nat. ld. one 30%nat. ld. one 31%nat. ld.
  one 32%nat. ld. one 33%nat. st. one 34%nat. ld. one 35%nat. ld.
  done.
Qed.

Lemma apart_ne a n b k i j : apart a n b k → 0 ≤ i < n → 0 ≤ j < k → a + i ≠ b + j.
Proof. unfold apart. lia. Qed.

(** The words a switch writes: those of the old Thread, [_eax_save], and the word above the return address of the new one. *)
Lemma switched_other m R t1 pc R2 pc2 a :
  (a < t1 ∨ t1 + 36 ≤ a) → a ≠ eax_save → a ≠ esp R2 + 4 → switched m R t1 pc R2 pc2 !! a = m !! a.
Proof.
  intros H1 H2 H3. unfold switched. unfold _ESP, _EAX, _EBX, _ECX, _EDX, _EBP, _ESI, _EDI, _PC.
  by rewrite !lookup_insert_ne by lia.
Qed.

Lemma switched_saved m R t1 pc R2 pc2 : apart t1 36 (esp R2) 8 → apart eax_save 4 t1 36 →
  saved (switched m R t1 pc R2 pc2) t1 R pc.
Proof.
  intros A1 A2. unfold switched. split; [intros []|]; cbn [offset get];
    repeat (first [apply lookup_insert_eq | rewrite lookup_insert_ne by other]).
Qed.

Lemma switched_mapped m R t1 pc R2 pc2 a : is_Some (m !! a) → is_Some (switched m R t1 pc R2 pc2 !! a).
Proof. intros H. unfold switched. mapped. Qed.

Lemma saved_inj m t R pc R' pc' : saved m t R pc → saved m t R' pc' → R = R' ∧ pc = pc'.
Proof.
  intros [H Hp] [H' Hp']. assert (∀ r, get r R = get r R') as E by (intros r; specialize (H r); specialize (H' r); congruence).
  split; [|congruence]. destruct R as [a b c d si di bp sp], R' as [a' b' c' d' si' di' bp' sp'].
  by rewrite (E EAX : a = a'), (E EBX : b = b'), (E ECX : c = c'), (E EDX : d = d'), (E ESI : si = si'), (E EDI : di = di'),
    (E EBP : bp = bp'), (E ESP : sp = sp').
Qed.

Lemma offset_range r : 0 ≤ offset r < 36.
Proof. destruct r; unfold offset, _ESP, _EAX, _EBX, _ECX, _EDX, _EBP, _ESI, _EDI; lia. Qed.

Lemma saved_agree m m' t R pc : (∀ i, 0 ≤ i < 36 → m' !! (t + i) = m !! (t + i)) → saved m t R pc → saved m' t R pc.
Proof.
  intros Ha [H Hp]. split; [intros r; rewrite Ha; [apply H|apply offset_range]|]. by rewrite Ha by (unfold _PC; lia).
Qed.

Lemma back_to_thread c t1 t2 pc R2 pc2 pc2' c2 t' pc' R p p' :
  calls_SWITCH c t1 t2 pc R2 pc2 pc2' →
  calls_SWITCH c2 t' t1 pc' R p p' →
  (∀ c', steps 27 c = Ret c' → mem c2 !! (esp (regs c)) = mem c' !! (esp (regs c)) ∧
    ∀ i, 0 ≤ i < 36 → mem c2 !! (t1 + i) = mem c' !! (t1 + i)) →
  steps 27 c2 = Ret (mkCpu (set ESP (esp (regs c) + 4) (regs c)) (switched (mem c2) (regs c2) t' pc' (regs c) pc) pc).
Proof.
  intros Hc Hc2 Hagree. pose proof (SWITCH_runs _ _ _ _ _ _ _ Hc) as E. destruct (Hagree _ E) as [Htop Hobj]. cbn [mem] in *.
  assert (saved (mem c2) t1 (regs c) pc) as Hs.
  { eapply saved_agree; [exact Hobj|]. apply switched_saved; apply Hc. }
  destruct (saved_inj _ _ _ _ _ _ Hs (cs_saved _ _ _ _ _ _ _ Hc2)) as [<- <-].
  rewrite (SWITCH_runs _ _ _ _ _ _ _ Hc2). do 2 f_equal.
  pose proof (cs_top _ _ _ _ _ _ _ Hc2) as Hp. rewrite Htop, switched_other in Hp.
  - pose proof (cs_return _ _ _ _ _ _ _ Hc) as Hr. rewrite Z.add_0_r in Hr. congruence.
  - pose proof (cs_t1_sp _ _ _ _ _ _ _ Hc) as A. unfold apart in A. lia.
  - pose proof (cs_var_sp _ _ _ _ _ _ _ Hc) as A. unfold apart in A. lia.
  - pose proof (cs_sp_sp2 _ _ _ _ _ _ _ Hc) as A. unfold apart in A. lia.
Qed.

(** *** A new thread *)

(** The C procedure that has just been called with [args] bytes of arguments, in state [c], has returned in state [c']: to the
    address on the stack, with the registers that the convention protects and, below [top], the frames of its callers. *)
Record returns (top args : Z) (c c' : cpu) : Prop := {
  re_eip : mem c !! esp (regs c) = Some (eip c');
  re_esp : esp (regs c') = esp (regs c) + 4;
  re_saved : ebx (regs c') = ebx (regs c) ∧ esi (regs c') = esi (regs c) ∧ edi (regs c') = edi (regs c) ∧ ebp (regs c') = ebp (regs c);
  re_frames a : esp (regs c) + 4 + args ≤ a < top → mem c' !! a = mem c !! a;
  re_mapped a : is_Some (mem c !! a) → is_Some (mem c' !! a) }.

(** The object of the Thread and its stack do not meet, and both are in memory. *)
Record new_thread (m : memory) (t base : Z) : Prop := {
  nt_t : in_memory t 96;
  nt_base : 0 < base ∧ base + 4 * StackSize ≤ 2 ^ 32;
  nt_apart : apart t 96 base (4 * StackSize);
  nt_object i : 0 ≤ i < 24 → is_Some (m !! (t + 4 * i));
  nt_bottom : is_Some (m !! base);
  nt_top i : StackSize - 8 ≤ i < StackSize → is_Some (m !! (base + 4 * i)) }.

(** What StackAllocate leaves. *)
Record prepared (InterruptEnable ThreadFinish base t func arg : Z) (m m0 : memory) : Prop := {
  pr_esp : m0 !! (t + _ESP) = Some (base + 4 * (StackSize - 5));
  pr_ecx : m0 !! (t + _ECX) = Some InterruptEnable;
  pr_esi : m0 !! (t + _ESI) = Some func;
  pr_edx : m0 !! (t + _EDX) = Some arg;
  pr_edi : m0 !! (t + _EDI) = Some ThreadFinish;
  pr_pc : m0 !! (t + _PC) = Some ThreadRoot;
  pr_top : m0 !! (base + 4 * (StackSize - 5)) = Some ThreadRoot;
  pr_stack : m0 !! stack_ t = Some base;
  pr_fence : m0 !! base = Some STACK_FENCEPOST;
  pr_mapped a : is_Some (m !! a) → is_Some (m0 !! a) }.

Ltac offsets := change PCState with 7 in *; change StartupPCState with 2 in *; change InitialPCState with 5 in *;
  change InitialArgState with 3 in *; change WhenDonePCState with 6 in *; unfold stack_, stackTop_, machineState_, MachineStateSize, _ESP, _EAX, _EBX, _ECX, _EDX, _EBP, _ESI, _EDI, _PC, StackSize in *.

Lemma StackAllocate_prepares ie tf base t func arg m : new_thread m t base →
  ∃ m0, StackAllocate ie tf base t func arg m = Ret m0 ∧ prepared ie tf base t func arg m m0.
Proof.
  intros [Ht Hb A Ho Hbot Htop].
  assert (∀ a, (∃ i, 0 ≤ i < 24 ∧ a = t + 4 * i) → is_Some (m !! a)) as Ho' by (intros a (i & Hi & ->); by apply Ho).
  assert (is_Some (m !! (base + 4 * (StackSize - 4) - 4))) as Htop'.
  { replace (base + 4 * (StackSize - 4) - 4) with (base + 4 * (StackSize - 5)) by lia. apply Htop. unfold StackSize. lia. }
  unfold apart in A. unfold StackAllocate.
  rewrite store_some by (apply Ho'; exists 23; offsets; lia). cbn [mbind outcome_bind].
  rewrite store_some by (apply insert_mapped, Ho'; exists 0; offsets; lia). cbn [mbind outcome_bind].
  rewrite store_some by (do 2 apply insert_mapped; apply Ho'; exists 0; offsets; lia). cbn [mbind outcome_bind].
  rewrite store_some by mapped. cbn [mbind outcome_bind]. rewrite store_some by mapped. cbn [mbind outcome_bind].
  rewrite store_some by (repeat apply insert_mapped; apply Ho'; exists 8; offsets; lia). cbn [mbind outcome_bind].
  rewrite store_some by (repeat apply insert_mapped; apply Ho'; exists 3; offsets; lia). cbn [mbind outcome_bind].
  rewrite store_some by (repeat apply insert_mapped; apply Ho'; exists 6; offsets; lia). cbn [mbind outcome_bind].
  rewrite store_some by (repeat apply insert_mapped; apply Ho'; exists 4; offsets; lia). cbn [mbind outcome_bind].
  rewrite store_some by (repeat apply insert_mapped; apply Ho'; exists 7; offsets; lia).
  eexists. split; [done|]. offsets. cbn -[Z.add Z.mul Z.sub]. split; try (intros a Ha; mapped).
  all: offsets; repeat match goal with |- <[?k := _]> _ !! ?a = _ =>
    first [rewrite lookup_insert_ne by lia | replace a with k by lia; rewrite lookup_insert_eq; first [done | f_equal; lia]] end.
Qed.

(** The processor is in a procedure that ThreadRoot has called with [next] to follow: the registers and the argument are there. *)
Record in_ThreadRoot (base func arg tf : Z) (next : nat) (c : cpu) : Prop := {
  it_esp : esp (regs c) = base + 4 * (StackSize - 7);
  it_esi : esi (regs c) = func;
  it_edi : edi (regs c) = tf;
  it_return : mem c !! esp (regs c) = Some (addr next);
  it_arg : mem c !! (esp (regs c) + 4) = Some arg }.

(** Where the switch to a new thread writes is neither in its object nor on its stack. *)
Definition elsewhere (t1 t base : Z) : Prop :=
  apart t1 36 t 96 ∧ apart t1 36 base (4 * StackSize) ∧ apart eax_save 4 t 96 ∧ apart eax_save 4 base (4 * StackSize).

Ltac one_push i := one i; unfold push; cbn [mbind outcome_bind get set regs mem eip eax ebx ecx edx esi edi ebp esp].

Lemma ThreadRoot_begins ie tf base t func arg m m0 c t1 pc R p p' :
  new_thread m t base → prepared ie tf base t func arg m m0 → calls_SWITCH c t1 t pc R p p' → elsewhere t1 t base →
  (∀ a, t ≤ a < t + 96 ∨ base ≤ a < base + 4 * StackSize → mem c !! a = m0 !! a) →
  ∃ c1, steps 31 c = Ret c1 ∧ eip c1 = ie ∧ in_ThreadRoot base func arg tf 4 c1 ∧ CheckOverflow t (mem c1) = Ret ().
Proof.
  intros [Ht Hb A _ _ Htop] [Psp Pcx Psi Pdx Pdi Ppc Pt Pst Pf Pm] Hc (E1 & E2 & E3 & E4) Hag.
  pose proof (SWITCH_runs _ _ _ _ _ _ _ Hc) as Hrun. destruct (cs_saved _ _ _ _ _ _ _ Hc) as [Hs Hpc].
  pose proof (cs_top _ _ _ _ _ _ _ Hc) as Hp'.
  assert (∀ i, 0 ≤ i < 36 → mem c !! (t + i) = m0 !! (t + i)) as Hobj by (intros i Hi; apply Hag; lia).
  assert (esp R = base + 4 * (StackSize - 5)) as Hsp by (specialize (Hs ESP); cbn [offset get] in Hs; rewrite Hobj in Hs by (offsets; lia); congruence).
  assert (ecx R = ie) as Hcx by (specialize (Hs ECX); cbn [offset get] in Hs; rewrite Hobj in Hs by (offsets; lia); congruence).
  assert (edx R = arg) as Hdx by (specialize (Hs EDX); cbn [offset get] in Hs; rewrite Hobj in Hs by (offsets; lia); congruence).
  assert (esi R = func) as Hsi by (specialize (Hs ESI); cbn [offset get] in Hs; rewrite Hobj in Hs by (offsets; lia); congruence).
  assert (edi R = tf) as Hdi by (specialize (Hs EDI); cbn [offset get] in Hs; rewrite Hobj in Hs by (offsets; lia); congruence).
  assert (p' = ThreadRoot) as -> by (rewrite Hag in Hp' by (rewrite Hsp; unfold StackSize; lia); rewrite Hsp in Hp'; congruence).
  destruct R as [ra rb rc rd rsi rdi rbp rsp]. cbn [eax ebx ecx edx esi edi ebp esp] in *. subst rsp rc rd rsi rdi.
  set (m1 := switched _ _ _ _ _ _) in Hrun.
  assert (∀ a, t ≤ a < t + 96 ∨ base ≤ a < base + 4 * StackSize → a ≠ base + 4 * (StackSize - 5) + 4 → m1 !! a = m0 !! a) as Hm1.
  { intros a Ha Hne. unfold m1. rewrite switched_other; [by apply Hag|..]; cbn [esp]; unfold apart in *; lia. }
  assert (∀ i, StackSize - 8 ≤ i < StackSize - 4 → is_Some (m1 !! (base + 4 * i))) as Hmap.
  { intros i Hi. rewrite Hm1 by (unfold StackSize in *; lia). apply Pm, Htop. lia. }
  replace 31%nat with (27 + 4)%nat by done. rewrite steps_app, Hrun. cbn [mbind outcome_bind set]. unfold ThreadRoot.
  clearbody m1. clear Hrun Hs Hpc Hp' Hobj Hag Hc.
  one_push 0%nat. replace (base + 4 * (StackSize - 5) + 4 - 4) with (base + 4 * (StackSize - 5)) by lia.
  rewrite u32_small by (unfold is_u32, StackSize in *; lia).
  rewrite store_some by (apply Hmap; unfold StackSize; lia). cbn [mbind outcome_bind].
  one 1%nat. one_push 2%nat. cbn [InitialArg get edx]. rewrite u32_small by (unfold is_u32, StackSize in *; lia).
  replace (base + 4 * (StackSize - 5) - 4) with (base + 4 * (StackSize - 6)) by lia.
  rewrite store_some by (apply insert_mapped, Hmap; unfold StackSize; lia). cbn [mbind outcome_bind].
  one_push 3%nat. cbn [StartupPC get ecx]. rewrite u32_small by (unfold is_u32, StackSize in *; lia).
  replace (base + 4 * (StackSize - 6) - 4) with (base + 4 * (StackSize - 7)) by lia.
  rewrite store_some by (do 2 apply insert_mapped; apply Hmap; unfold StackSize; lia). cbn [mbind outcome_bind steps].
  eexists. split; [done|]. split; [done|]. split.
  - split; cbn [regs mem esp esi edi]; [done..|apply lookup_insert_eq|].
    rewrite lookup_insert_ne by lia. replace (base + 4 * (StackSize - 7) + 4) with (base + 4 * (StackSize - 6)) by lia.
    apply lookup_insert_eq.
  - unfold CheckOverflow, load. cbn [mem]. unfold apart, in_memory in *.
    assert (t ≤ stack_ t < t + 96) as Hst by (offsets; lia).
    rewrite !lookup_insert_ne by (unfold StackSize in *; lia). rewrite Hm1 by (unfold StackSize in *; lia). rewrite Pst. cbn [mbind outcome_bind].
    rewrite (proj2 (Z.eqb_neq base 0)) by lia. cbn [negb].
    rewrite !lookup_insert_ne by (unfold StackSize in *; lia). rewrite Hm1 by (unfold StackSize in *; lia). by rewrite Pf.
Qed.

(** The call that follows in ThreadRoot: of the register [r], which a procedure keeps. *)
Lemma ThreadRoot_calls base func arg tf i r f args c c' :
  (i = 4%nat ∧ r = ESI ∧ f = func) ∨ (i = 5%nat ∧ r = EDI ∧ f = tf) →
  0 < base ∧ base + 4 * StackSize ≤ 2 ^ 32 →
  in_ThreadRoot base func arg tf i c → returns (base + 4 * StackSize) args c c' →
  ∃ c2, steps 1 c' = Ret c2 ∧ eip c2 = f ∧ esp (regs c2) = base + 4 * (StackSize - 7) ∧
    esi (regs c2) = func ∧ edi (regs c2) = tf ∧ mem c2 !! esp (regs c2) = Some (addr (S i)) ∧
    (args = 0 → mem c2 !! (esp (regs c2) + 4) = Some arg).
Proof.
  intros Hi Hb [Hsp Hsi Hdi Hret Harg] [Rip Rsp (_ & Rsi & Rdi & _) Rfr Rmap].
  destruct c' as [[ra rb rc rd rsi rdi rbp rsp] m' ip]. cbn [regs mem eip esp esi edi] in *.
  rewrite Hret in Rip. injection Rip as <-. subst rsi rdi. rewrite Hsp in *.
  assert (rsp = base + 4 * (StackSize - 6)) as -> by lia.
  assert (is_Some (m' !! (base + 4 * (StackSize - 7)))) as Hmap by (apply Rmap; by rewrite Hret).
  assert (args = 0 → m' !! (base + 4 * (StackSize - 6)) = Some arg) as Harg'.
  { intros ->. rewrite Rfr by (unfold StackSize; lia). rewrite <-Harg. f_equal. lia. }
  assert (∃ f', get r (mkRegisters ra rb rc rd (esi (regs c)) (edi (regs c)) rbp (base + 4 * (StackSize - 6))) = f' ∧ f' = f) as (f' & Ef & <-).
  { destruct Hi as [(_ & -> & ->)|(_ & -> & ->)]; cbn [get esi edi]; eauto. }
  assert (steps 1 (mkCpu (mkRegisters ra rb rc rd (esi (regs c)) (edi (regs c)) rbp (base + 4 * (StackSize - 6))) m' (addr i)) =
    Ret (mkCpu (mkRegisters ra rb rc rd (esi (regs c)) (edi (regs c)) rbp (base + 4 * (StackSize - 7)))
      (<[base + 4 * (StackSize - 7) := addr (S i)]> m') f')) as E.
  { destruct Hi as [(-> & -> & _)|(-> & -> & _)]; cbn [get esi edi] in Ef; subst f';
      [one_push 4%nat; cbn [InitialPC]|one_push 5%nat; cbn [WhenDonePC]]; cbn [get esi edi];
      (rewrite u32_small by (unfold is_u32, StackSize in *; lia));
      replace (base + 4 * (StackSize - 6) - 4) with (base + 4 * (StackSize - 7)) by lia; by rewrite store_some. }
  eexists. split; [exact E|]. cbn [regs mem eip esp esi edi]. split_and!; try done; [apply lookup_insert_eq|].
  intros H0. rewrite lookup_insert_ne by lia. replace (base + 4 * (StackSize - 7) + 4) with (base + 4 * (StackSize - 6)) by lia. by apply Harg'.
Qed.

Lemma new_thread_runs ie tf base t func arg m c t1 pc R p p' :
  new_thread m t base → elsewhere t1 t base → calls_SWITCH c t1 t pc R p p' →
  (∃ m0, StackAllocate ie tf base t func arg m = Ret m0 ∧
    ∀ a, t ≤ a < t + 96 ∨ base ≤ a < base + 4 * StackSize → mem c !! a = m0 !! a) →
  ∃ c1, steps 31 c = Ret c1 ∧ eip c1 = ie ∧ CheckOverflow t (mem c1) = Ret () ∧
  ∀ c2, returns (base + 4 * StackSize) 0 c1 c2 →
  ∃ c3, steps 1 c2 = Ret c3 ∧ eip c3 = func ∧ mem c3 !! (esp (regs c3) + 4) = Some arg ∧
  ∀ c4, returns (base + 4 * StackSize) 4 c3 c4 → ∃ c5, steps 1 c4 = Ret c5 ∧ eip c5 = tf.
Proof.
  intros Hn He Hc (m0 & Hm0 & Hag). destruct (StackAllocate_prepares ie tf base t func arg m Hn) as (m0' & E & Hp).
  rewrite Hm0 in E. injection E as <-.
  destruct (ThreadRoot_begins _ _ _ _ _ _ _ _ _ _ _ _ _ _ Hn Hp Hc He Hag) as (c1 & E1 & Hie & Hin & Hof).
  exists c1. split; [done|]. split; [done|]. split; [done|]. intros c2 H2. pose proof (nt_base _ _ _ Hn) as Hb.
  destruct (ThreadRoot_calls base func arg tf 4 ESI func 0 c1 c2) as (c3 & E3 & Hf & Hsp & Hsi & Hdi & Hr & Ha); [by left|done..|].
  exists c3. split; [done|]. split; [done|]. split; [by apply Ha|]. intros c4 H4.
  destruct (ThreadRoot_calls base func arg tf 5 EDI tf 4 c3 c4) as (c5 & E5 & Hf5 & _); [by right|done| |done|by exists c5].
  split; [done..|by apply Ha].
Qed.
End layout.

(** *** The two properties *)

(** SWITCH saves the registers of the running thread and continues the other one where it was, with its registers, writing
    nothing but the old Thread object, its own variable and the word above the other's return address.  If its object and the
    top of its stack are as the switch has left them when anyone switches back, the old thread continues behind its call
    with every register as it was. *)
Theorem switch_back eax_save addr (Hinj : ∀ i j, (i < length code)%nat → (j < length code)%nat → addr i = addr j → i = j)
    c t1 t2 pc R2 pc2 pc2' c2 t' pc' R p p' :
  calls_SWITCH eax_save addr c t1 t2 pc R2 pc2 pc2' →
  ∃ c', steps eax_save addr 27 c = Ret c' ∧ eip c' = pc2' ∧ regs c' = set ESP (esp R2 + 4) R2 ∧
    (∀ a, (a < t1 ∨ t1 + 36 ≤ a) → a ≠ eax_save → a ≠ esp R2 + 4 → mem c' !! a = mem c !! a) ∧
    (calls_SWITCH eax_save addr c2 t' t1 pc' R p p' →
     (∀ a, a = esp (regs c) ∨ t1 ≤ a < t1 + 36 → mem c2 !! a = mem c' !! a) →
     ∃ c3, steps eax_save addr 27 c2 = Ret c3 ∧ eip c3 = pc ∧ regs c3 = set ESP (esp (regs c) + 4) (regs c) ∧
       ∀ a, (a < t' ∨ t' + 36 ≤ a) → a ≠ eax_save → a ≠ esp (regs c) + 4 → mem c3 !! a = mem c2 !! a).
Proof.
  intros Hc. pose proof (SWITCH_runs eax_save addr Hinj _ _ _ _ _ _ _ Hc) as E.
  eexists. split; [exact E|]. split; [done|]. split; [done|]. split; [intros a; apply switched_other|]. cbn [mem].
  intros Hc2 Hag. eexists. split.
  - apply (back_to_thread eax_save addr Hinj _ _ _ _ _ _ _ _ _ _ _ _ _ Hc Hc2). intros c' E'. rewrite E in E'. injection E' as <-.
    cbn [mem]. split; [apply Hag; by left|]. intros i Hi. apply Hag. lia.
  - split; [done|]. split; [done|]. intros a. apply switched_other.
Qed.

(** C25: the first switch to a thread that Fork has prepared with StackAllocate runs ThreadRoot on its stack: it calls
    InterruptEnable, then the procedure with its argument, then ThreadFinish, if each of these returns as a C procedure
    does; the fence post at the other end of the stack is untouched. *)
Theorem thread_starts eax_save addr (Hinj : ∀ i j, (i < length code)%nat → (j < length code)%nat → addr i = addr j → i = j)
    InterruptEnable ThreadFinish base t func arg m c t1 pc R p p' :
  new_thread m t base → elsewhere eax_save t1 t base → calls_SWITCH eax_save addr c t1 t pc R p p' →
  (∃ m0, StackAllocate addr InterruptEnable ThreadFinish base t func arg m = Ret m0 ∧
    ∀ a, t ≤ a < t + 96 ∨ base ≤ a < base + 4 * StackSize → mem c !! a = m0 !! a) →
  ∃ c1, steps eax_save addr 31 c = Ret c1 ∧ eip c1 = InterruptEnable ∧ CheckOverflow t (mem c1) = Ret () ∧
  ∀ c2, returns (base + 4 * StackSize) 0 c1 c2 →
  ∃ c3, steps eax_save addr 1 c2 = Ret c3 ∧ eip c3 = func ∧ mem c3 !! (esp (regs c3) + 4) = Some arg ∧
  ∀ c4, returns (base + 4 * StackSize) 4 c3 c4 → ∃ c5, steps eax_save addr 1 c4 = Ret c5 ∧ eip c5 = ThreadFinish.
Proof. apply new_thread_runs. exact Hinj. Qed.

(** *** A main thread at 100 that has forked a thread at 400, with a stack from 20000 on *)
Definition demo_addr (i : nat) : Z := 1000 + Z.of_nat i.
Lemma demo_inj i j : (i < length code)%nat → (j < length code)%nat → demo_addr i = demo_addr j → i = j.
Proof. unfold demo_addr. lia. Qed.

Definition demo_words (a : Z) (n : nat) : list (Z * Z) := (λ i, (a + 4 * i, 0)) <$> seqZ 0 (Z.of_nat n).
Definition demo_memory : memory :=
  list_to_map (demo_words 4 1 ++ demo_words 100 9 ++ demo_words 400 24 ++ demo_words 20000 1 ++ demo_words (20000 + 4 * (StackSize - 8)) 8 ++
    demo_words 8000 1 ++ [(9000, 5000); (9004, 100); (9008, 400)]).
Definition demo_forked : memory := default ∅ (match StackAllocate demo_addr 6000 6500 20000 400 7000 42 demo_memory with Ret m => Some m | _ => None end).
Definition demo_main : cpu := mkCpu (mkRegisters 1 2 3 4 5 6 7 9000) demo_forked (SWITCH demo_addr).
Definition demo_new : registers := mkRegisters 0 0 6000 42 7000 6500 0 (20000 + 4 * (StackSize - 5)).

Ltac concrete := repeat first [split | progress intros]; try match goal with r : reg |- _ => destruct r end;
  first [vm_compute; reflexivity | eexists; vm_compute; reflexivity | vm_compute; intuition congruence].

Lemma demo_calls : calls_SWITCH 4 demo_addr demo_main 100 400 5000 demo_new 1000 1000.
Proof. split; concrete. Qed.

(** The new thread calls SWITCH in its turn, from a deeper place of its stack. *)
Definition demo_sp : Z := 20000 + 4 * (StackSize - 8).
Definition demo_back : cpu :=
  mkCpu (mkRegisters 11 12 13 14 15 16 17 demo_sp)
    (<[demo_sp := 6100]> (<[demo_sp + 4 := 400]> (<[demo_sp + 8 := 100]>
      (switched 4 demo_forked (regs demo_main) 100 5000 demo_new 1000)))) (SWITCH demo_addr).

Lemma demo_calls_back : calls_SWITCH 4 demo_addr demo_back 400 100 6100 (regs demo_main) 5000 5000.
Proof. split; concrete. Qed.

Lemma demo_stack_words n a m : bool_decide (Forall (λ i, is_Some (m !! (a + 4 * i))) (seqZ 0 n)) = true →
  ∀ i, 0 ≤ i < n → is_Some ((m : memory) !! (a + 4 * i)).
Proof. intros H%bool_decide_eq_true_1 i Hi. rewrite Forall_forall in H. apply H, elem_of_seqZ. lia. Qed.

Lemma demo_thread : new_thread demo_memory 400 20000.
Proof.
  split; [concrete..| |concrete|].
  - apply demo_stack_words. vm_compute. reflexivity.
  - intros i Hi. replace (20000 + 4 * i) with (20000 + 4 * (StackSize - 8) + 4 * (i - (StackSize - 8))) by lia.
    apply (demo_stack_words 8); [vm_compute; reflexivity|lia].
Qed.

Lemma demo_forks : StackAllocate demo_addr 6000 6500 20000 400 7000 42 demo_memory = Ret demo_forked.
Proof.
  unfold demo_forked. by destruct (StackAllocate_prepares demo_addr 6000 6500 20000 400 7000 42 demo_memory demo_thread) as (m0 & -> & _).
Qed.

Lemma switch_back_witness :
  ∃ c' c3, steps 4 demo_addr 27 demo_main = Ret c' ∧ eip c' = ThreadRoot demo_addr ∧
    steps 4 demo_addr 27 demo_back = Ret c3 ∧ eip c3 = 5000 ∧ regs c3 = mkRegisters 1 2 3 4 5 6 7 9004.
Proof.
  destruct (switch_back 4 demo_addr demo_inj demo_main 100 400 5000 demo_new 1000 1000 demo_back 400 6100 (regs demo_main) 5000 5000
    demo_calls) as (c' & E & Hip & _ & _ & Hback).
  destruct (Hback demo_calls_back) as (c3 & E3 & Hip3 & Hr3 & _).
  { rewrite (SWITCH_runs 4 demo_addr demo_inj _ _ _ _ _ _ _ demo_calls) in E. injection E as <-. intros a Ha. cbn [mem demo_back].
    rewrite !lookup_insert_ne; [done|unfold demo_sp, StackSize; cbn [regs demo_main esp] in Ha; lia..]. }
  exists c', c3. split; [exact E|]. split; [exact Hip|]. split; [exact E3|]. split; [exact Hip3|exact Hr3].
Defined.

(** A procedure that returns at once, with a result. *)
Definition returned (c : cpu) : cpu :=
  mkCpu (set EAX 77 (set ESP (esp (regs c) + 4) (regs c))) (mem c) (default 0 (mem c !! esp (regs c))).
Lemma returned_returns top args c : is_Some (mem c !! esp (regs c)) → returns top args c (returned c).
Proof. intros [v Hv]. destruct c as [[ra rb rc rd rsi rdi rbp rsp] m ip]. unfold returned. cbn in *. rewrite Hv. by split. Qed.

Lemma thread_starts_witness :
  ∃ c1 c3 c5, steps 4 demo_addr 31 demo_main = Ret c1 ∧ eip c1 = 6000 ∧
    steps 4 demo_addr 1 (returned c1) = Ret c3 ∧ eip c3 = 7000 ∧ mem c3 !! (esp (regs c3) + 4) = Some 42 ∧
    steps 4 demo_addr 1 (returned c3) = Ret c5 ∧ eip c5 = 6500.
Proof.
  destruct (thread_starts 4 demo_addr demo_inj 6000 6500 20000 400 7000 42 demo_memory demo_main 100 5000 demo_new 1000 1000
    demo_thread ltac:(concrete) demo_calls ltac:(exists demo_forked; split; [exact demo_forks|done])) as (c1 & E1 & H1 & _ & H).
  destruct (H (returned c1)) as (c3 & E3 & H3 & Ha & H').
  { apply returned_returns. vm_compute in E1. injection E1 as <-. vm_compute. eauto. }
  destruct (H' (returned c3)) as (c5 & E5 & H5).
  { apply returned_returns. vm_compute in E1. injection E1 as <-. vm_compute in E3. injection E3 as <-. vm_compute. eauto. }
  exists c1, c3, c5. auto 10.
Defined.
End Switch.
