(* ===== verification/Switching.v ===== *)
(** * Any number of threads on the context switch of switch.s

    The processor of [Switch] shared by threads: each has a Thread object and a stack, runs code of its own between the calls of
    SWITCH, forks threads with StackAllocate and lets finished ones go.  The state after any such history is well-formed ([wf]), so
    that every call of SWITCH works, and [thread_undisturbed] says that a thread finds its registers and its stack as it
    has left them, whatever the others have done in between. *)

From S2P Require Import Prelude CInt Switch.
Import Switch.Switch.

Open Scope Z_scope.

Module Switching.

(** The processor, the thread it runs ([currentThread]), and the stack of each Thread object: its first byte and its size. *)
Record sys := mkSys { proc : cpu; running : Z; stacks : gmap Z (Z * Z) }.

Definition inside (a lo n : Z) : Prop := lo ≤ a < lo + n.

(** The bytes of a Thread that SWITCH uses: [stackTop] and the eight registers it saves in [machineState]. *)
Definition saved_size : Z := 36.

Section threads.
Context (eax_save : Z) (addr : nat → Z).

(** What the code of thread [t] does not write: what SWITCH keeps, and the stacks of the others. *)
Definition foreign (st : gmap Z (Z * Z)) (t a : Z) : Prop :=
  inside a eax_save 4 ∨ ∃ u lo n, st !! u = Some (lo, n) ∧ (inside a u saved_size ∨ (u ≠ t ∧ inside a lo n)).

(** The places a new object and its stack may have. *)
Definition unused (st : gmap Z (Z * Z)) (u base : Z) : Prop :=
  st !! u = None ∧ apart eax_save 4 u 96 ∧ apart eax_save 4 base (4 * StackSize) ∧
  ∀ t lo n, st !! t = Some (lo, n) →
    apart t saved_size u 96 ∧ apart lo n u 96 ∧ apart t saved_size base (4 * StackSize) ∧ apart lo n base (4 * StackSize).

(** SWITCH(t, t2) has been called on the stack of [t], from a place to which [pc] is the return address. *)
Record at_switch (s : sys) (t2 pc : Z) : Prop := {
  as_eip : eip (proc s) = SWITCH addr;
  as_return : mem (proc s) !! (esp (regs (proc s)) + 0) = Some pc;
  as_old : mem (proc s) !! (esp (regs (proc s)) + 4) = Some (running s);
  as_new : mem (proc s) !! (esp (regs (proc s)) + 8) = Some t2;
  as_other : t2 ≠ running s ∧ is_Some (stacks s !! t2);
  as_stack : ∃ lo n, stacks s !! running s = Some (lo, n) ∧ lo ≤ esp (regs (proc s)) ∧ esp (regs (proc s)) + 12 ≤ lo + n }.

Inductive sstep : sys → sys → Prop :=
  | compute c c' t st :
      (∀ a, foreign st t a → mem c' !! a = mem c !! a) → (∀ a, is_Some (mem c !! a) → is_Some (mem c' !! a)) →
      sstep (mkSys c t st) (mkSys c' t st)
  | switch c c' t t2 pc st :
      at_switch (mkSys c t st) t2 pc → steps eax_save addr 27 c = Ret c' → sstep (mkSys c t st) (mkSys c' t2 st)
  | fork c m t st InterruptEnable ThreadFinish base u func arg :
      new_thread (mem c) u base → unused st u base →
      StackAllocate addr InterruptEnable ThreadFinish base u func arg (mem c) = Ret m →
      sstep (mkSys c t st) (mkSys (mkCpu (regs c) m (eip c)) t (<[u := (base, 4 * StackSize)]> st))
  | destroy c t u st : u ≠ t → sstep (mkSys c t st) (mkSys c t (delete u st)).

(** *** Well-formed states *)

(** A thread that does not run: its registers are in its object, the address it will return to on its stack. *)
Definition suspended (m : memory) (u lo n : Z) (R : registers) (pc pc' : Z) : Prop :=
  saved m u R pc ∧ m !! esp R = Some pc' ∧ is_Some (m !! (esp R + 4)) ∧ lo ≤ esp R ∧ esp R + 8 ≤ lo + n.

Definition placed (m : memory) (t lo n : Z) : Prop :=
  in_memory t saved_size ∧ in_memory lo n ∧ apart t saved_size lo n ∧ apart eax_save 4 t saved_size ∧ apart eax_save 4 lo n ∧
  ∀ i, 0 ≤ i < 9 → is_Some (m !! (t + 4 * i)).

Record wf (s : sys) : Prop := {
  wf_running : is_Some (stacks s !! running s);
  wf_var : is_Some (mem (proc s) !! eax_save);
  wf_placed t lo n : stacks s !! t = Some (lo, n) → placed (mem (proc s)) t lo n;
  wf_apart t lo n u lo' n' : stacks s !! t = Some (lo, n) → stacks s !! u = Some (lo', n') → t ≠ u →
    apart t saved_size u saved_size ∧ apart t saved_size lo' n' ∧ apart lo n lo' n';
  wf_suspended u lo n : stacks s !! u = Some (lo, n) → u ≠ running s → ∃ R pc pc', suspended (mem (proc s)) u lo n R pc pc' }.

Lemma stays_placed m m' t lo n : (∀ a, is_Some (m !! a) → is_Some (m' !! a)) → placed m t lo n → placed m' t lo n.
Proof. intros Hm (H1 & H2 & H3 & H4 & H5 & H6). split_and!; try done. intros i Hi. by apply Hm, H6. Qed.

Lemma suspended_same m m' u lo n R pc pc' :
  (∀ a, inside a u saved_size ∨ inside a lo n → m' !! a = m !! a) → suspended m u lo n R pc pc' → suspended m' u lo n R pc pc'.
Proof.
  unfold inside. intros Hm (H1 & H2 & H3 & H4 & H5). split_and!; try done.
  - apply (saved_agree m); [|done]. intros i Hi. apply Hm. left. unfold saved_size. lia.
  - rewrite Hm by lia. done.
  - rewrite Hm by lia. done.
Qed.

Lemma offset_word r : ∃ i, 0 ≤ i < 9 ∧ offset r = 4 * i.
Proof. destruct r; [exists 1|exists 2|exists 3|exists 4|exists 6|exists 7|exists 5|exists 0]; (split; [lia|done]). Qed.

(** A call of SWITCH in a well-formed state is one that [Switch] describes. *)
Lemma wf_calls s t2 pc : wf s → at_switch s t2 pc →
  ∃ lo n lo2 n2 R2 pc2 pc2', stacks s !! running s = Some (lo, n) ∧ stacks s !! t2 = Some (lo2, n2) ∧
    lo ≤ esp (regs (proc s)) ∧ esp (regs (proc s)) + 12 ≤ lo + n ∧ suspended (mem (proc s)) t2 lo2 n2 R2 pc2 pc2' ∧
    calls_SWITCH eax_save addr (proc s) (running s) t2 pc R2 pc2 pc2'.
Proof.
  intros [_ Hv Hpl Hap Hsu] [E1 E2 E3 E4 [Hne [[lo2 n2] Ht2]] (lo & n & Ht & Hlo & Hhi)].
  destruct (Hsu t2 lo2 n2 Ht2 Hne) as (R2 & pc2 & pc2' & Hs & Htop & Hab & Hlo2 & Hhi2).
  destruct (Hpl _ _ _ Ht) as (P1 & P2 & P3 & P4 & P5 & P6). destruct (Hpl _ _ _ Ht2) as (Q1 & Q2 & Q3 & Q4 & Q5 & _).
  destruct (Hap _ _ _ _ _ _ Ht Ht2) as (A1 & A2 & A3); [done|].
  exists lo, n, lo2, n2, R2, pc2, pc2'. split_and!; try done. unfold apart, in_memory, saved_size in *. split; try done; unfold apart, in_memory; try lia.
  - intros r. destruct (offset_word r) as (i & Hi & ->). by apply P6.
  - by apply (P6 8).
Qed.

Context (addr_inj : ∀ i j, (i < length code)%nat → (j < length code)%nat → addr i = addr j → i = j).

(** What a switch does to well-formed states: the running thread is left as its call says, and the others are not touched. *)
Record switches (s : sys) (t2 pc : Z) (s' : sys) (lo n lo2 n2 : Z) (R2 : registers) (pc2 pc2' : Z) : Prop := {
  sw_state : running s' = t2 ∧ stacks s' = stacks s;
  sw_old : stacks s !! running s = Some (lo, n) ∧ suspended (mem (proc s')) (running s) lo n (regs (proc s)) pc pc;
  sw_new : stacks s !! t2 = Some (lo2, n2) ∧ suspended (mem (proc s)) t2 lo2 n2 R2 pc2 pc2' ∧
    regs (proc s') = set ESP (esp R2 + 4) R2 ∧ eip (proc s') = pc2';
  sw_memory a : ¬ inside a (running s) saved_size → a ≠ eax_save → a ≠ esp R2 + 4 → mem (proc s') !! a = mem (proc s) !! a;
  sw_mapped a : is_Some (mem (proc s) !! a) → is_Some (mem (proc s') !! a) }.

Lemma wf_switches s t2 pc : wf s → at_switch s t2 pc →
  ∃ c' lo n lo2 n2 R2 pc2 pc2', steps eax_save addr 27 (proc s) = Ret c' ∧
    switches s t2 pc (mkSys c' t2 (stacks s)) lo n lo2 n2 R2 pc2 pc2'.
Proof.
  intros Hwf Hat. destruct (wf_calls s t2 pc Hwf Hat) as (lo & n & lo2 & n2 & R2 & pc2 & pc2' & Ht & Ht2 & Hlo & Hhi & Hs & Hc).
  pose proof (SWITCH_runs eax_save addr addr_inj _ _ _ _ _ _ _ Hc) as E. pose proof (cs_return _ _ _ _ _ _ _ _ _ Hc) as Hret.
  rewrite Z.add_0_r in Hret.
  destruct (wf_placed _ Hwf _ _ _ Ht) as (P1 & P2 & P3 & P4 & P5 & P6).
  destruct (wf_apart _ Hwf _ _ _ _ _ _ Ht Ht2) as (A1 & A2 & A3); [by destruct (as_other _ _ _ Hat); auto|].
  destruct Hs as (S1 & S2 & S3 & S4 & S5).
  eexists. exists lo, n, lo2, n2, R2, pc2, pc2'. split; [exact E|].
  assert (∀ a, ¬ inside a (running s) saved_size → a ≠ eax_save → a ≠ esp R2 + 4 →
    switched eax_save (mem (proc s)) (regs (proc s)) (running s) pc R2 pc2 !! a = mem (proc s) !! a) as Hm.
  { unfold inside, saved_size. intros a H1 H2 H3. apply switched_other; [lia|done..]. }
  unfold apart, in_memory, saved_size, inside in *. split; cbn [proc running stacks mem regs eip]; try done.
  - split; [done|]. split; [apply switched_saved; unfold apart; lia|].
    split; [rewrite Hm by lia; exact Hret|]. split; [apply switched_mapped, (mk_is_Some _ _ (cs_old _ _ _ _ _ _ _ _ _ Hc))|lia].
  - intros a. apply switched_mapped.
Qed.

(** A suspended thread is not disturbed by a switch between two others. *)
Lemma switches_others s t2 pc s' lo n lo2 n2 R2 pc2 pc2' u lo' n' a :
  wf s → switches s t2 pc s' lo n lo2 n2 R2 pc2 pc2' → stacks s !! u = Some (lo', n') → u ≠ running s → u ≠ t2 →
  inside a u saved_size ∨ inside a lo' n' → mem (proc s') !! a = mem (proc s) !! a.
Proof.
  intros Hwf [_ [Ht _] [Ht2 (Hs & _ & _)] Hm _] Hu Hne Hne2 Ha.
  destruct (wf_placed _ Hwf _ _ _ Hu) as (P1 & P2 & P3 & P4 & P5 & _).
  destruct (wf_apart _ Hwf _ _ _ _ _ _ Hu Ht Hne) as (A1 & A2 & A3). destruct (wf_apart _ Hwf _ _ _ _ _ _ Ht Hu ltac:(done)) as (B1 & B2 & _).
  destruct (wf_apart _ Hwf _ _ _ _ _ _ Hu Ht2 Hne2) as (D1 & D2 & D3).
  destruct Hs as (_ & _ & _ & S4 & S5). unfold apart, inside, saved_size in *. apply Hm; lia.
Qed.

(** StackAllocate writes the new object and stack only. *)
Lemma StackAllocate_other ie tf base u func arg m m' a : new_thread m u base →
  StackAllocate addr ie tf base u func arg m = Ret m' → ¬ inside a u 96 → ¬ inside a base (4 * StackSize) → m' !! a = m !! a.
Proof.
  intros Hn E H1 H2. pose proof (nt_base _ _ _ Hn) as Hb. unfold StackAllocate, store in E. inv_ret.
  unfold inside in *. change PCState with 7 in *. change StartupPCState with 2 in *. change InitialPCState with 5 in *.
  change InitialArgState with 3 in *. change WhenDonePCState with 6 in *.
  unfold stack_, stackTop_, machineState_, MachineStateSize, StackSize in *. subst.
  by rewrite !lookup_insert_ne by lia.
Qed.

(** A forked thread is suspended in front of ThreadRoot. *)
Lemma forked_suspended ie tf base u func arg m m' : new_thread m u base → StackAllocate addr ie tf base u func arg m = Ret m' →
  ∃ R, suspended m' u base (4 * StackSize) R (ThreadRoot addr) (ThreadRoot addr) ∧
    ecx R = ie ∧ esi R = func ∧ edx R = arg ∧ edi R = tf.
Proof.
  intros Hn E. destruct (StackAllocate_prepares addr ie tf base u func arg m Hn) as (m0 & E0 & [Psp Pcx Psi Pdx Pdi Ppc Pt Pst Pf Pm]).
  rewrite E in E0. injection E0 as <-. pose proof (nt_object _ _ _ Hn) as Ho.
  destruct (Pm _ (Ho 1 ltac:(lia))) as [ra Ha]. destruct (Pm _ (Ho 2 ltac:(lia))) as [rb Hb]. destruct (Pm _ (Ho 5 ltac:(lia))) as [rbp Hbp].
  exists (mkRegisters ra rb ie arg func tf rbp (base + 4 * (StackSize - 5))). split; [|done].
  split; [split; [intros []; done|done]|]. cbn [esp]. split; [done|]. split.
  - replace (base + 4 * (StackSize - 5) + 4) with (base + 4 * (StackSize - 4)) by lia. apply Pm, (nt_top _ _ _ Hn). unfold StackSize. lia.
  - unfold StackSize. lia.
Qed.

Lemma wf_compute c c' t st : wf (mkSys c t st) → (∀ a, foreign st t a → mem c' !! a = mem c !! a) →
  (∀ a, is_Some (mem c !! a) → is_Some (mem c' !! a)) → wf (mkSys c' t st).
Proof.
  intros [Hr Hv Hpl Hap Hsu] Hm Hmap. cbn [proc running stacks] in *. split; cbn [proc running stacks]; try done.
  - by apply Hmap.
  - intros u lo n Hu. eapply stays_placed, Hpl, Hu. done.
  - intros u lo n Hu Hne. destruct (Hsu u lo n Hu Hne) as (R & pc & pc' & Hs). exists R, pc, pc'.
    eapply suspended_same, Hs. intros a Ha. apply Hm. right. exists u, lo, n. split; [done|]. destruct Ha; auto.
Qed.

Lemma wf_switch s t2 pc s' : wf s → at_switch s t2 pc → steps eax_save addr 27 (proc s) = Ret (proc s') →
  running s' = t2 → stacks s' = stacks s → wf s'.
Proof.
  intros Hwf Hat E Hrun Hst. destruct (wf_switches s t2 pc Hwf Hat) as (c' & lo & n & lo2 & n2 & R2 & pc2 & pc2' & E' & Hsw).
  rewrite E in E'. injection E' as <-. destruct s' as [c' r' st']. cbn [proc running stacks] in *. subst r' st'.
  pose proof (sw_mapped _ _ _ _ _ _ _ _ _ _ _ Hsw) as Hmap. cbn [proc] in Hmap.
  destruct (sw_old _ _ _ _ _ _ _ _ _ _ _ Hsw) as [Ht Hold]. destruct (sw_new _ _ _ _ _ _ _ _ _ _ _ Hsw) as (Ht2 & _).
  split; cbn [proc running stacks].
  - by rewrite Ht2.
  - apply Hmap, (wf_var _ Hwf).
  - intros u lo' n' Hu. by eapply stays_placed, (wf_placed _ Hwf).
  - apply (wf_apart _ Hwf).
  - intros u lo' n' Hu Hne. destruct (decide (u = running s)) as [->|Hne'].
    + rewrite Ht in Hu. injection Hu as <- <-. eauto.
    + destruct (wf_suspended _ Hwf u lo' n' Hu Hne') as (R & p & p' & Hs). exists R, p, p'. eapply suspended_same, Hs.
      intros a Ha. by eapply (switches_others s t2 pc (mkSys c' t2 (stacks s))).
Qed.

Lemma wf_fork c m t st ie tf base u func arg : wf (mkSys c t st) → new_thread (mem c) u base → unused st u base →
  StackAllocate addr ie tf base u func arg (mem c) = Ret m →
  wf (mkSys (mkCpu (regs c) m (eip c)) t (<[u := (base, 4 * StackSize)]> st)).
Proof.
  intros [Hr Hv Hpl Hap Hsu] Hn (Hnew & U1 & U2 & U3) E. cbn [proc running stacks] in *.
  assert (∀ a, ¬ inside a u 96 → ¬ inside a base (4 * StackSize) → m !! a = mem c !! a) as Hm by (intros a; by eapply StackAllocate_other).
  destruct (forked_suspended _ _ _ _ _ _ _ _ Hn E) as (R & HR & _).
  destruct (StackAllocate_prepares addr ie tf base u func arg _ Hn) as (m0 & E0 & Hp). rewrite E in E0. injection E0 as <-.
  pose proof (pr_mapped _ _ _ _ _ _ _ _ _ Hp) as Hmap. destruct Hn as [N1 N2 N3 N4 N5 N6].
  assert (∀ t' lo n, st !! t' = Some (lo, n) → t' ≠ u) as Hneu by (intros t' lo n Ht ->; by rewrite Hnew in Ht).
  split; cbn [proc running stacks mem].
  - apply lookup_insert_is_Some'. by right.
  - by apply Hmap.
  - intros t' lo n [[<- [= <- <-]]|[Hne Ht]]%lookup_insert_Some.
    + unfold placed, in_memory, apart, saved_size, StackSize in *. split_and!; try lia. intros i Hi. apply Hmap, N4. lia.
    + eapply stays_placed, Hpl, Ht. done.
  - intros t1 lo n t2 lo' n' [[<- [= <- <-]]|[Hne Ht]]%lookup_insert_Some [[<- [= <- <-]]|[Hne2 Ht2]]%lookup_insert_Some Hd; [done| | |by eapply Hap].
    + destruct (U3 _ _ _ Ht2) as (V1 & V2 & V3 & V4). unfold apart, saved_size in *. lia.
    + destruct (U3 _ _ _ Ht) as (V1 & V2 & V3 & V4). unfold apart, saved_size in *. lia.
  - intros t' lo n [[<- [= <- <-]]|[Hne Ht]]%lookup_insert_Some Hnr; [by eexists _, _, _|].
    destruct (Hsu t' lo n Ht Hnr) as (R' & p & p' & Hs). exists R', p, p'. eapply suspended_same, Hs.
    destruct (U3 _ _ _ Ht) as (V1 & V2 & V3 & V4). unfold apart, inside, saved_size in *. intros a Ha. apply Hm; lia.
Qed.

(** The processor has started: there is the main thread only. *)
Definition started (s : sys) : Prop :=
  ∃ lo n, stacks s = {[ running s := (lo, n) ]} ∧ placed (mem (proc s)) (running s) lo n ∧ is_Some (mem (proc s) !! eax_save).

Lemma started_wf s : started s → wf s.
Proof.
  intros (lo & n & Hs & Hp & Hv). split; rewrite ?Hs; try done.
  - by rewrite lookup_singleton_eq.
  - intros t lo' n' [<- [= <- <-]]%lookup_singleton_Some. done.
  - intros t lo1 n1 u lo2 n2 [<- _]%lookup_singleton_Some [<- _]%lookup_singleton_Some. done.
  - intros u lo1 n1 [<- _]%lookup_singleton_Some. done.
Qed.

Lemma sstep_wf s s' : wf s → sstep s s' → wf s'.
Proof.
  intros Hwf Hs. destruct Hs as [c c' t st H1 H2|c c' t t2 pc st Hat E|c m t st ie tf base u func arg Hn Hu E|c t u st Hne].
  - by eapply wf_compute.
  - by eapply (wf_switch _ t2 pc).
  - by eapply wf_fork.
  - destruct Hwf as [Hr Hv Hpl Hap Hsu]. cbn [proc running stacks] in *. split; cbn [proc running stacks]; try done.
    + by rewrite lookup_delete_ne.
    + intros t' lo n [_ Ht]%lookup_delete_Some. by apply Hpl.
    + intros t1 lo n t2 lo' n' [_ Ht]%lookup_delete_Some [_ Ht2]%lookup_delete_Some. by apply Hap.
    + intros t' lo n [_ Ht]%lookup_delete_Some. by apply Hsu.
Qed.

(** A step while thread [t] is suspended and stays so. *)
Definition away (t : Z) (s s' : sys) : Prop := sstep s s' ∧ running s' ≠ t ∧ is_Some (stacks s' !! t).

(** One step of the others leaves the object and the stack of [t] alone. *)
Lemma away_keeps t lo n s s' : wf s → running s ≠ t → stacks s !! t = Some (lo, n) → away t s s' →
  stacks s' !! t = Some (lo, n) ∧ ∀ a, inside a t saved_size ∨ inside a lo n → mem (proc s') !! a = mem (proc s) !! a.
Proof.
  intros Hwf Hr Ht (Hs & Hr' & Hst).
  destruct Hs as [c c' r st H1 H2|c c' r t2 pc st Hat E|c m r st ie tf base u func arg Hn (Hnew & U1 & U2 & U3) E|c r u st Hne]; cbn [proc running stacks mem] in *.
  - split; [done|]. intros a Ha. apply H1. right. exists t, lo, n. split; [done|]. destruct Ha; auto.
  - split; [done|]. destruct (wf_switches _ t2 pc Hwf Hat) as (c1 & lo1 & n1 & lo2 & n2 & R2 & p & p' & E' & Hsw).
    cbn [proc] in E'. rewrite E in E'. injection E' as <-. intros a Ha. by eapply (switches_others _ t2 pc _ lo1 n1 lo2 n2 R2 p p' t lo n a Hwf Hsw).
  - assert (t ≠ u) as Hne by (intros ->; by rewrite Hnew in Ht). split; [by rewrite lookup_insert_ne|].
    destruct (U3 _ _ _ Ht) as (V1 & V2 & V3 & V4). unfold apart, inside, saved_size in *. intros a Ha.
    eapply StackAllocate_other; [done..|unfold inside; lia|unfold inside; lia].
  - split; [|done]. rewrite lookup_delete_ne; [done|]. intros ->. by rewrite lookup_delete_eq in Hst.
Qed.

Lemma aways_keep t lo n s s' : wf s → running s ≠ t → stacks s !! t = Some (lo, n) → rtc (away t) s s' →
  wf s' ∧ running s' ≠ t ∧ stacks s' !! t = Some (lo, n) ∧ ∀ a, inside a t saved_size ∨ inside a lo n → mem (proc s') !! a = mem (proc s) !! a.
Proof.
  intros Hwf Hr Ht Hst. induction Hst as [s|s s1 s2 Ha Hst IH]; [done|].
  destruct (away_keeps t lo n s s1 Hwf Hr Ht Ha) as [Ht1 Hm1]. destruct Ha as (Hs & Hr1 & _).
  destruct IH as (W & R & T & M); [by eapply sstep_wf|done..|]. split_and!; try done. intros a Ha. by rewrite M, Hm1.
Qed.

Lemma thread_comes_back s t2 pc s1 s2 s3 :
  wf s → at_switch s t2 pc → steps eax_save addr 27 (proc s) = Ret (proc s1) → running s1 = t2 → stacks s1 = stacks s →
  rtc (away (running s)) s1 s2 → sstep s2 s3 → running s3 = running s →
  regs (proc s3) = set ESP (esp (regs (proc s)) + 4) (regs (proc s)) ∧ eip (proc s3) = pc ∧
  ∀ lo n a, stacks s !! running s = Some (lo, n) → inside a lo n → a ≠ esp (regs (proc s)) + 4 →
    mem (proc s3) !! a = mem (proc s) !! a.
Proof.
  intros Hwf Hat E Hrun Hst Haway Hlast Hback. set (t := running s) in *.
  destruct (wf_switches s t2 pc Hwf Hat) as (c' & lo & n & lo2 & n2 & R2 & pc2 & pc2' & E' & Hsw). rewrite E in E'. injection E' as <-.
  destruct s1 as [c1 r1 st1]. cbn [proc running stacks] in *. subst r1 st1.
  pose proof (wf_switch s t2 pc (mkSys c1 t2 (stacks s)) Hwf Hat E eq_refl eq_refl) as Hwf1.
  destruct (sw_old _ _ _ _ _ _ _ _ _ _ _ Hsw) as [Ht Hold]. destruct (sw_new _ _ _ _ _ _ _ _ _ _ _ Hsw) as (Ht2 & Hs2 & _).
  destruct (as_other _ _ _ Hat) as [Hne _]. cbn [proc] in Hold. fold t in Ht, Hold, Hne.
  destruct (aways_keep t lo n _ s2 Hwf1 Hne Ht Haway) as (Hwf2 & Hr2 & Ht' & Hm2). cbn [proc] in Hm2.
  assert (∀ a, inside a lo n → mem c1 !! a = mem (proc s) !! a) as Hm1.
  { intros a Ha. apply (sw_memory _ _ _ _ _ _ _ _ _ _ _ Hsw); fold t;
      destruct (wf_placed _ Hwf _ _ _ Ht) as (_ & _ & P3 & _ & P5 & _); destruct (wf_apart _ Hwf _ _ _ _ _ _ Ht Ht2) as (_ & _ & A3); try done;
      destruct Hs2 as (_ & _ & _ & S4 & S5); unfold apart, inside, saved_size in *; lia. }
  destruct Hlast as [c c' r st H1 H2|c c' r t3 pc3 st Hat3 E3|c m r st ie tf base u func arg Hn Hu E3|c r u st Hne3];
    cbn [proc running stacks] in *; try done. subst t3.
  destruct (wf_switches _ t pc3 Hwf2 Hat3) as (c4 & lo4 & n4 & lo5 & n5 & R5 & pc5 & pc5' & E4 & Hsw4).
  cbn [proc stacks] in *. rewrite E3 in E4. injection E4 as <-.
  destruct (sw_new _ _ _ _ _ _ _ _ _ _ _ Hsw4) as (Ht5 & (S1 & S2 & _ & S4 & S5) & Hregs & Heip). cbn [proc stacks mem regs eip] in *.
  rewrite Ht' in Ht5. injection Ht5 as <- <-.
  destruct (suspended_same (mem c1) (mem c) t lo n (regs (proc s)) pc pc Hm2 Hold) as (O1 & O2 & _ & O4 & O5).
  destruct (saved_inj _ _ _ _ _ _ S1 O1) as [-> _]. rewrite O2 in S2. injection S2 as <-.
  split; [done|]. split; [done|]. intros lo' n' a Hl Ha Hane. rewrite Ht in Hl. injection Hl as <- <-.
  rewrite <-Hm1, <-Hm2 by auto. apply (sw_memory _ _ _ _ _ _ _ _ _ _ _ Hsw4); cbn [proc running]; [|intros ->|done].
  - destruct (sw_old _ _ _ _ _ _ _ _ _ _ _ Hsw4) as [Hc _]. cbn [stacks running] in Hc.
    destruct (wf_apart _ Hwf2 _ _ _ _ _ _ Hc Ht') as (_ & A2 & _); [done|]. unfold apart, inside, saved_size in *. lia.
  - destruct (wf_placed _ Hwf _ _ _ Ht) as (_ & _ & _ & _ & P5 & _). unfold apart, inside in *. lia.
Qed.
End threads.

(** C24: however many threads the main thread and its children fork, whatever they compute on their own stacks and in the data
    they share, and in whatever order they switch: a thread that calls SWITCH is switched out without an error, and when a
    thread switches to it again it goes on behind its call with every register and every word of its stack as it left
    them, except the slot of its own first argument. *)
Theorem thread_undisturbed eax_save addr (Hinj : ∀ i j, (i < length code)%nat → (j < length code)%nat → addr i = addr j → i = j)
    s0 s t2 pc :
  started eax_save s0 → rtc (sstep eax_save addr) s0 s → at_switch addr s t2 pc →
  ∃ c', steps eax_save addr 27 (proc s) = Ret c' ∧
    ∀ s2 s3, rtc (away eax_save addr (running s)) (mkSys c' t2 (stacks s)) s2 → sstep eax_save addr s2 s3 → running s3 = running s →
      regs (proc s3) = set ESP (esp (regs (proc s)) + 4) (regs (proc s)) ∧ eip (proc s3) = pc ∧
      ∀ lo n a, stacks s !! running s = Some (lo, n) → inside a lo n → a ≠ esp (regs (proc s)) + 4 →
        mem (proc s3) !! a = mem (proc s) !! a.
Proof.
  intros H0 Hst Hat. assert (wf eax_save s) as Hwf.
  { apply started_wf in H0. clear Hat. induction Hst as [|s s1 s2 Hs _ IH]; [done|]. apply IH. by eapply sstep_wf. }
  destruct (wf_switches eax_save addr Hinj s t2 pc Hwf Hat) as (c' & _ & _ & _ & _ & _ & _ & _ & E & _).
  exists c'. split; [done|]. intros s2 s3. by apply (thread_comes_back eax_save addr Hinj s t2 pc (mkSys c' t2 (stacks s))).
Qed.

(** The main thread of [Switch] forks a thread and switches to it; the thread computes and switches back. *)
Definition demo_start : sys := mkSys (mkCpu (regs demo_main) demo_memory (eip demo_main)) 100 {[ 100 := (9000, 12) ]}.
Definition demo_stacks : gmap Z (Z * Z) := <[400 := (20000, 4 * StackSize)]> {[ 100 := (9000, 12) ]}.
Definition demo_switched : cpu := mkCpu (set ESP (esp demo_new + 4) demo_new) (switched 4 demo_forked (regs demo_main) 100 5000 demo_new 1000) 1000.
Definition demo_returned : cpu :=
  mkCpu (set ESP 9004 (regs demo_main)) (switched 4 (mem demo_back) (regs demo_back) 400 6100 (regs demo_main) 5000) 5000.

Lemma demo_start_placed : placed 4 demo_memory 100 9000 12.
Proof.
  unfold placed, in_memory, apart, saved_size. split_and!; try lia. intros i Hi.
  apply (demo_stack_words 9 100 demo_memory); [vm_compute; reflexivity|lia].
Qed.

Lemma demo_unused : unused 4 {[ 100 := (9000, 12) ]} 400 20000.
Proof.
  unfold unused, apart, saved_size, StackSize. split_and!; try done; try lia.
  intros t lo n [<- [= <- <-]]%lookup_singleton_Some. lia.
Qed.

Lemma demo_at_switch : at_switch demo_addr (mkSys demo_main 100 demo_stacks) 400 5000.
Proof. split; [concrete..|]. exists 9000, 12. split; [done|]. cbn. lia. Qed.

Lemma demo_at_switch_back : at_switch demo_addr (mkSys demo_back 400 demo_stacks) 100 6100.
Proof. split; [concrete..|]. exists 20000, (4 * StackSize). split; [done|]. vm_compute. split; discriminate. Qed.

Lemma demo_computes a : foreign 4 demo_stacks 400 a → mem demo_back !! a = mem demo_switched !! a.
Proof.
  intros Hf. cbn [mem demo_back demo_switched].
  assert (a ≠ demo_sp ∧ a ≠ demo_sp + 4 ∧ a ≠ demo_sp + 8) as (H1 & H2 & H3).
  { unfold foreign, demo_stacks, inside, saved_size, demo_sp, StackSize in *. destruct Hf as [Hf|(u & lo & n & Hu & Hf)]; [lia|].
    apply lookup_insert_Some in Hu as [[<- [= <- <-]]|[_ [<- [= <- <-]]%lookup_singleton_Some]]; lia. }
  by rewrite !lookup_insert_ne by done.
Qed.

Lemma thread_undisturbed_witness :
  regs demo_returned = mkRegisters 1 2 3 4 5 6 7 9004 ∧ eip demo_returned = 5000 ∧
  mem demo_returned !! 9008 = mem demo_main !! 9008.
Proof.
  assert (rtc (sstep 4 demo_addr) demo_start (mkSys demo_main 100 demo_stacks)) as Hreach.
  { apply rtc_once. exact (fork 4 demo_addr (proc demo_start) demo_forked 100 {[ 100 := (9000, 12) ]} 6000 6500 20000 400 7000 42 demo_thread demo_unused demo_forks). }
  destruct (thread_undisturbed 4 demo_addr demo_inj demo_start (mkSys demo_main 100 demo_stacks) 400 5000
    ltac:(exists 9000, 12; split; [done|]; split; [exact demo_start_placed|concrete]) Hreach demo_at_switch) as (c' & E & H).
  cbn [proc running stacks] in E, H. rewrite (SWITCH_runs 4 demo_addr demo_inj _ _ _ _ _ _ _ demo_calls) in E. injection E as <-.
  change (mkCpu _ _ 1000) with demo_switched in H.
  destruct (H (mkSys demo_back 400 demo_stacks) (mkSys demo_returned 100 demo_stacks)) as (Hr & He & Hm).
  - apply rtc_once. split; [|split; [done|by exists (9000, 12)]]. apply compute; [apply demo_computes|].
    intros a Ha. cbn [mem demo_back]. do 3 apply insert_mapped. exact Ha.
  - apply (switch 4 demo_addr demo_back demo_returned 400 100 6100 demo_stacks demo_at_switch_back).
    exact (SWITCH_runs 4 demo_addr demo_inj _ _ _ _ _ _ _ demo_calls_back).
  - done.
  - split; [exact Hr|]. split; [exact He|]. apply (Hm 9000 12 9008); [done|unfold inside; lia|discriminate].
Defined.
End Switching.
